(* ===== verification/_CoqProject ===== *)
-Q . S2P
Prelude.v
Bytes.v
Params.v
State.v
Spinlock.v
CString.v
Kalloc.v
Uart.v
Printk.v
Sched.v
Sleeplock.v
Vm.v
PageTable.v
User.v
Uvm.v
Disk.v
Bio.v
Cache.v
Log.v
Recovery.v
Crash.v
Txn.v
Copy.v
Fs.v
Block.v
Inode.v
Content.v
Dir.v
Path.v
Console.v
Pipe.v
Fifo.v
Virtio.v
Ring.v
Diskio.v
Fair.v
File.v
Proc.v
Space.v
Fork.v
Wait.v
Exec.v
Syscall.v
Trap.v
Start.v
Ulib.v
Grep.v
Umalloc.v
Sh.v
Shrun.v
Usys.v
Uprintf.v
Uprog.v
Utools.v
Uls.v
Uinit.v
Mkfs.v
Image.v
Rootfs.v
Bootfs.v
