(* ===== verification/Prelude.v ===== *)
(** * xv6: a verification development

    The program is xv6 for RISC-V: a Unix-like kernel (src/kernel) with a shell, a C library and
    small programs (src/user).  This library is a shallow embedding of its C code in Rocq, and
    proofs of what the parts promise to each other and to their users.

    ** How code is modelled

    - A machine integer is a [Z]; where the code can wrap around, the wrap is written out ([u8],
      [u32], [u64], [s32], ... below).  Bytes are integers, C structures in pages and disk blocks
      are the bytes they occupy (Bytes), structures in static tables are records, and a pointer
      into such a table is an index (State).
    - Kernel code is a function in the monad [M] below, on the state [kstate] of State.  A run gives
      [Ok], [Panic] (a call of [panic], or an access outside of memory), [Switch] (the thread gave
      up the CPU in [sched]; it resumes from whatever state the others left), or [NoFuel].
    - [NoFuel] can only come from loops of the form "while (condition) sleep()": they are entered
      again at most [sleep_fuel] times, a parameter of the kernel ([Fuel]), since how often a
      process is woken for nothing is not up to it.  Every other loop has a bound computed from
      its arguments that is never reached; the theorems about these loops state results of
      [Ok], so they include that.
    - Concurrency: the interleavings of harts at the level of single accesses are in Spinlock
      (module [Smp]), those of sleepers and wakers in Sched.  The other files use the interface the former refines:
      the CPU has a list of held locks, and state that a lock protects is not changed by
      others while it is held.
    - The addresses that the linker script and the assembly define are fields of the class [Linker]
      (State); the virtio device and the UART are reached through their registers.

    ** The files

    Foundations.  Prelude: the monad, record update, symbolic execution of monadic code.  Bytes:
    little-endian integers, arrays, byte-addressed memory.  Params: constants and address arithmetic (param.h, memlayout.h,
    riscv.h, fs.h, fcntl.h, elf.h).  State: the C structures and the state of the kernel.

    Code of the kernel, one file per source file unless said otherwise.  Spinlock (spinlock.c),
    CString (string.c), Kalloc (kalloc.c), Uart and Console (uart.c, console.c), Printk (printk.c),
    Sched and Proc (proc.c), Sleeplock (sleeplock.c), Vm (vm.c), Disk and Virtio (virtio_disk.c),
    Bio (bio.c), Log (log.c), Copy (the either_ routines of proc.c), Fs (fs.c), Pipe (pipe.c), File (file.c), Exec
    (exec.c), Syscall (syscall.c, sysproc.c, sysfile.c), Trap (trap.c, plic.c, main.c), Start
    (start.c).

    Code of user programs.  Ulib (ulib.c), Umalloc (umalloc.c), Grep (grep.c), Sh and Shrun (sh.c).  As interaction trees
    over the system calls: Usys (the calls, and the environment that answers them), Uprintf (printf.c), Uprog (the calls of
    ulib.c, and echo, kill, ln, mkdir, rm, sync, zombie), Utools (cat, wc), Uls (ls.c), Uinit (init.c).
    Mkfs (mkfs/mkfs.c), the program of the host that builds the image of the file system.

    Theory of the kernel code.  Ring: the rings that the virtio driver shares with the device, and their invariant.
    Diskio: processes in [virtio_disk_rw], interrupts and the device together.  Fair: their
    progress when these go on.  PageTable: page tables as maps from addresses to entries.  User and
    Uvm: user address spaces as maps from addresses to bytes, with the pages they own.  Cache: the
    buffer cache as the contents of the disk.  Space: address spaces with their trap frames.  Fork and Wait: the processes that own them, in
    [kfork], [growproc] and [kwait].  Recovery, Crash and Txn: the log.  Block, Inode, Content and Dir:
    the file system inside a transaction.  Path: paths as walks through its directories.  Image and Rootfs: the
    image of mkfs as a file system of the kernel.  Bootfs: the kernel that boots with it.  Fifo: pipes as queues.

    ** What is shown

    - Locks.  Two harts are never inside the same spinlock, interrupts nest, and the interface with
      a list of held locks is what the harts implement (Spinlock).  A sleep lock has at most one process inside, which is the one
      it is marked with, and a process that finds it taken tests it again after every wakeup (Sleeplock).
    - Scheduling.  No wakeup is lost, in any interleaving of sleepers, wakers and kills; what a
      scan of the scheduler, [yield], [sleep], [wakeup] and [kkill] do (Sched).
    - Memory.  The page allocator never gives a page out twice (Kalloc).  [mappages] and [walk] implement a map
      (PageTable).  What [copyout] writes [copyin] reads, across pages and lazily
      allocated ones; [uvmalloc], [uvmdealloc] and [uvmcopy] change the address space they are
      about as they should, give back what they took when they fail, and touch no other (User, Uvm).
    - Processes.  [kfork] makes a copy of the process with pages of its own, or has no lasting effect; no page of memory has two
      owners or is lost (Fork); what [growproc] and [kwait] do on their branches (Wait).
    - Disk.  The virtio driver, its interrupt handler and the device implement the disk the block
      layer uses, in any interleaving (Diskio), and every call returns while device, interrupts and scheduler go on (Fair).
      The buffer cache is transparent (Cache).  A transaction is atomic: a crash after any prefix of the
      disk writes, and any number of crashes during recovery, leave all of it or nothing
      (Recovery, Crash, Txn).  With a full log, [commit] panics for want of a buffer (Txn).
    - Files.  [balloc] and [bfree] keep the bitmap; [ilock] loads what [iupdate] stored; [readi] reads what [writei] wrote;
      [dirlookup] finds what [dirlink] entered; the inode table counts references (Block, Inode, Content, Dir).
      [namei] follows a path through the directories of the disk (Path).
    - The image.  What mkfs writes is a file system of the kernel (Rootfs); the kernel that boots
      with it finds each file by its name and reads the bytes that mkfs was given (Bootfs).
    - Pipes.  A pipe is a bounded queue, also when its 32-bit counters wrap (Fifo).
    - Output.  [printint] of the kernel stays within its buffer and prints the numeral of its argument (Printk).
    - User programs.  [malloc] and [free] keep blocks in use apart and intact, and terminate
      (Umalloc).  The shell accepts exactly the sentences of its grammar, and a line starts its
      programs with the right descriptors and no others (Sh, Shrun).  [grep] prints the lines
      that match (Grep).  [vprintf] prints the text that its format stands for (Uprintf); [cat], [wc] and [ls] print what
      they should, whatever pieces their input arrives in (Utools, Uls); [init] keeps one shell running (Uinit).

    ** What is not modelled

    - The assembly (entry.S, kernelvec.S, swtch.S, trampoline.S): it saves and restores registers.
      A context switch is the [Switch] outcome, and the control registers the C code reads and
      writes are part of the state.
    - The device side of virtio is not code of the repository.  Ring has what the specification says of it: it takes the chains of the
      available ring in order, accepts those whose descriptors have the right flags and lengths, and reports them done in
      any order, with status 0 after the transfer or with an error, after which Ring lets it make no transfer.  What the driver does
      under [vdisk_lock] is one step for the device, which sees a chain when the driver stores the new index.
    - The block layer is written against [disk_rw] of Disk, the transfer of one block at once; Diskio shows that the driver
      implements it for block numbers below 2^31, where [blockno * 2] does not wrap around.  That other processes run
      meanwhile is not seen there.
    - Timing, and memory models weaker than sequential consistency: the fences of the code are
      where the model has its atomic steps.
    - Counters of type [int] that the code only increments and decrements in pairs ([noff], [ref] of inodes, files
      and buffers, [outstanding], [ncommit]) are integers without a bound; [intena] of the scheduler's hart is kept in
      Spinlock only.  Pointers to inodes are indices into the table, so that the tests for a null pointer in [ilock] and [iunlock] have
      no counterpart.  In Spinlock the two reads of [holding] are one step, in [release] together with the
      store to [lk->cpu] that follows them.
    - The test programs (usertests, grind, forktest, stressfs, logstress, forphan, dorphan): they state no property of
      their own.
    - Several processes inside the file system at the same time: the theorems of Block, Inode,
      Content, Dir and Path are about one process in a transaction, with the locks the code takes, while no other process
      waits on a channel of the kernel. *)

From stdpp Require Import prelude gmap strings.
From Stdlib Require Import ZArith Lia.

Local Open Scope Z_scope.

(** ** Machine integers *)

(** The value of a C unsigned integer of [w] bits after wrap-around. *)
Definition wrap (w x : Z) : Z := x mod 2 ^ w.

(** The value of a C signed integer of [w] bits after conversion
    (two's complement, as gcc does for RISC-V). *)
Definition swrap (w x : Z) : Z := (x + 2 ^ (w - 1)) mod 2 ^ w - 2 ^ (w - 1).

Abbreviation u8 := (wrap 8).
Abbreviation u16 := (wrap 16).
Abbreviation u32 := (wrap 32).
Abbreviation u64 := (wrap 64).
Abbreviation s16 := (swrap 16).
Abbreviation s32 := (swrap 32).
Abbreviation s64 := (swrap 64).

Lemma lor_range n a b :
  0 <= a < 2 ^ n -> 0 <= b < 2 ^ n -> 0 <= Z.lor a b < 2 ^ n.
Proof.
  intros Ha Hb. split; [apply Z.lor_nonneg; lia|].
  destruct (Z.eq_dec a 0) as [->|Ha0]; [rewrite Z.lor_0_l; lia|].
  destruct (Z.eq_dec b 0) as [->|Hb0]; [rewrite Z.lor_0_r; lia|].
  assert (0 < Z.lor a b).
  { assert (0 <= Z.lor a b) by (apply Z.lor_nonneg; lia).
    destruct (Z.eq_dec (Z.lor a b) 0) as [E|]; [|lia]. apply Z.lor_eq_0_iff in E. lia. }
  apply Z.log2_lt_pow2; [done|]. rewrite Z.log2_lor by lia.
  apply Z.max_lub_lt; apply Z.log2_lt_pow2; lia.
Qed.

(** ** Updates of tables *)

Section alter.
Context {A : Type}.
Implicit Types (f g : A -> A) (l : list A) (i : nat).

Lemma alter_alter f g i l : alter f i (alter g i l) = alter (fun x => f (g x)) i l.
Proof. apply list_alter_alter_eq. Qed.

Lemma alter_eq f g i l x : l !! i = Some x -> f x = g x -> alter f i l = alter g i l.
Proof. intros Hx Hf. apply list_alter_ext; [|done]. intros y Hy. congruence. Qed.

Lemma alter_same f i l x : l !! i = Some x -> f x = x -> alter f i l = l.
Proof.
  intros Hx Hf. rewrite (alter_eq f id i l x Hx Hf). by apply list_alter_id.
Qed.

Lemma alter_insert f i l x : l !! i = Some x -> alter f i l = <[i := f x]> l.
Proof. intros Hx. rewrite list_insert_alter. by apply alter_eq with x. Qed.

End alter.

(** ** Outcomes and the kernel monad *)

(** What running a piece of kernel code from a state gives: a value and a new
    state; a call of [panic]; a context switch out of the running thread
    ([sched]), which hands the CPU over with the state it leaves and resumes
    with whatever state the other threads leave behind; or the bound on the
    iterations of a sleeping loop was used up. *)
Inductive outcome (S A : Type) : Type :=
| Ok (a : A) (s : S)
| Panic (msg : string)
| Switch (s : S) (k : S -> outcome S A)
| NoFuel.

Arguments Ok {S A} _ _.
Arguments Panic {S A} _.
Arguments Switch {S A} _ _.
Arguments NoFuel {S A}.

Definition M (S A : Type) : Type := S -> outcome S A.

Fixpoint obind {S A B : Type} (o : outcome S A) (f : A -> M S B) : outcome S B :=
  match o with
  | Ok a s => f a s
  | Panic m => Panic m
  | Switch s k => Switch s (fun s' => obind (k s') f)
  | NoFuel => NoFuel
  end.

Definition ret {S A : Type} (a : A) : M S A := fun s => Ok a s.
Definition bind {S A B : Type} (m : M S A) (f : A -> M S B) : M S B :=
  fun s => obind (m s) f.
Definition panic {S A : Type} (msg : string) : M S A := fun _ => Panic msg.
Definition gets {S A : Type} (f : S -> A) : M S A := fun s => Ok (f s) s.
Definition modify {S : Type} (f : S -> S) : M S unit := fun s => Ok tt (f s).
Definition no_fuel {S A : Type} : M S A := fun _ => NoFuel.

Declare Scope kernel_scope.
Delimit Scope kernel_scope with kernel.
Notation "x <- m ;; k" := (bind m (fun x => k))
  (at level 100, m at next level, right associativity) : kernel_scope.
Notation "m ;; k" := (bind m (fun _ => k))
  (at level 100, right associativity) : kernel_scope.
Local Open Scope kernel_scope.

(** [if (b) panic(msg);] *)
Definition panic_if {S : Type} (b : bool) (msg : string) : M S unit :=
  if b then panic msg else ret tt.

(** [if (b) m;] *)
Definition when {S : Type} (b : bool) (m : M S unit) : M S unit :=
  if b then m else ret tt.

(** [for (x in l) body(x);], for a loop without an early exit. *)
Fixpoint foreach {S B : Type} (l : list B) (body : B -> M S unit) : M S unit :=
  match l with
  | [] => ret tt
  | x :: l' => body x ;; foreach l' body
  end.

(** How many times a loop of the form [while (c) sleep();] is entered again
    before the model gives up on it.  The bound is a parameter of the whole
    kernel; it counts wake-ups after which the awaited condition is still false,
    not units of work. *)
Class Fuel := sleep_fuel : nat.

(** [while (c) body;] where [body] sleeps; [c] is re-evaluated after each
    wake-up. *)
Fixpoint while_sleep {S : Type} (n : nat) (c : M S bool) (body : M S unit) : M S unit :=
  b <- c ;;
  if (b : bool) then
    match n with
    | O => no_fuel
    | Datatypes.S n' => body ;; while_sleep n' c body
    end
  else ret tt.

(** ** Record update

    [r <| f := v |>] is the record [r] with field [f] set to [v], and
    [r <| f ::= g |>] with [g] applied to it.  A record type declares how it is
    rebuilt from its fields ([Eta]); [solve_setter] derives the setter of a field
    from that. *)
Class Eta (R : Type) := eta : R -> R.
Class Setter {R T : Type} (p : R -> T) := upd : (T -> T) -> R -> R.
Arguments upd {R T} p {_} f r : simpl never.

Ltac solve_setter :=
  match goal with
  | |- @Setter ?R ?T ?p =>
      let i := lazymatch constr:(@eta R ltac:(typeclasses eauto)) with @eta _ ?j => j end in
      let e := eval red in i in
      let e' := eval pattern p in e in
      match e' with
      | ?h p => let t := eval cbv beta in (fun (f : T -> T) (r : R) => h (fun r => f (p r)) r) in
                exact t
      end
  end.

Notation "r <| f := v |>" := (upd f (fun _ => v) r)
  (at level 1, left associativity, format "r  <| f  :=  v |>").
Notation "r <| f ::= g |>" := (upd f g r)
  (at level 1, left associativity, format "r  <| f  ::=  g |>").

(** Reduce a projection of an updated record.  The equation is checked for a
    variable record and a variable update, and then used by rewriting, so that its
    cost does not depend on the record at hand. *)
Ltac rs_eq p q R T i f s :=
  lazymatch constr:((p, q)) with
  | (?x, ?x) =>
      constr:((ltac:(intros; reflexivity) :
                 forall (g : T -> T) (r : R), p (@upd R T q i g r) = g (p r)) f s)
  | _ =>
      constr:((ltac:(intros; reflexivity) :
                 forall (g : T -> T) (r : R), p (@upd R T q i g r) = p r) f s)
  end.
Ltac rs1 :=
  match goal with
  | |- context [?p (@upd ?R ?T ?q ?i ?f ?s)] =>
      is_const p; let x := constr:(ltac:(typeclasses eauto) : Setter p) in
      let e := rs_eq p q R T i f s in
      pattern (p (@upd R T q i f s));
      match goal with |- ?P _ => refine (eq_ind_r P _ e) end;
      cbv beta
  end.
Ltac rs := repeat rs1.
Ltac rs_in H := revert H; rs; intros H.

(** ** Total-correctness assertions

    [wp m Q s]: run from [s], [m] returns without panicking, without giving up
    the CPU and within its bounds, and its value and final state satisfy [Q]. *)
Definition wp {S A : Type} (m : M S A) (Q : A -> S -> Prop) (s : S) : Prop :=
  match m s with
  | Ok a s' => Q a s'
  | _ => False
  end.

(** [panics m s msg]: run from [s], [m] calls [panic(msg)]. *)
Definition panics {S A : Type} (m : M S A) (s : S) (msg : string) : Prop :=
  m s = Panic msg.

Lemma wp_ret {S A : Type} (a : A) (Q : A -> S -> Prop) s : Q a s -> wp (ret a) Q s.
Proof. done. Qed.

Lemma wp_bind {S A B : Type} (m : M S A) (f : A -> M S B) (Q : B -> S -> Prop) s :
  wp m (fun a s' => wp (f a) Q s') s -> wp (bind m f) Q s.
Proof. unfold wp, bind. destruct (m s); simpl; done. Qed.

Lemma wp_mono {S A : Type} (m : M S A) (Q Q' : A -> S -> Prop) s :
  wp m Q s -> (forall a s', Q a s' -> Q' a s') -> wp m Q' s.
Proof. unfold wp. destruct (m s); naive_solver. Qed.

Lemma wp_eq {S A : Type} (m : M S A) (Q : A -> S -> Prop) s a s' :
  m s = Ok a s' -> Q a s' -> wp m Q s.
Proof. unfold wp. by intros ->. Qed.

Lemma wp_inv {S A : Type} (m : M S A) (Q : A -> S -> Prop) s :
  wp m Q s -> exists a s', m s = Ok a s' /\ Q a s'.
Proof. unfold wp. destruct (m s); naive_solver. Qed.

Lemma Ok_eq {S A : Type} (a a' : A) (s s' : S) : a = a' -> s = s' -> Ok a s = Ok a' s'.
Proof. by intros -> ->. Qed.

Lemma bind_ok {S A B : Type} (m : M S A) (f : A -> M S B) s a s' :
  m s = Ok a s' -> bind m f s = f a s'.
Proof. unfold bind. by intros ->. Qed.

Lemma bind_gets {S A B : Type} (g : S -> A) (f : A -> M S B) s :
  bind (gets g) f s = f (g s) s.
Proof. done. Qed.

Lemma bind_modify {S B : Type} (g : S -> S) (f : unit -> M S B) s :
  bind (modify g) f s = f tt (g s).
Proof. done. Qed.

Lemma bind_ret {S A B : Type} (a : A) (f : A -> M S B) s : bind (ret a) f s = f a s.
Proof. done. Qed.

Lemma bind_panic_if {S B : Type} b msg (f : unit -> M S B) s :
  b = false -> bind (panic_if b msg) f s = f tt s.
Proof. by intros ->. Qed.

Lemma bind_panic {S A B : Type} (m : M S A) (f : A -> M S B) s msg :
  m s = Panic msg -> bind m f s = Panic msg.
Proof. unfold bind. by intros ->. Qed.

(** A sequence of three steps that is known to run, in front of more code. *)
Lemma bind_seq3 {S A B C D : Type} (m1 : M S A) (m2 : M S B) (m3 : M S C) (k : C -> M S D) s c s' :
  (m1 ;; m2 ;; m3) s = Ok c s' -> (m1 ;; m2 ;; c <- m3 ;; k c) s = k c s'.
Proof.
  unfold bind. destruct (m1 s) as [a1 t1| | |]; cbn [obind]; try done.
  destruct (m2 t1) as [a2 t2| | |]; cbn [obind]; try done. by intros ->.
Qed.

Lemma foreach_app {S B : Type} (l1 l2 : list B) (body : B -> M S unit) s u s' :
  foreach l1 body s = Ok u s' ->
  foreach (l1 ++ l2) body s = foreach l2 body s'.
Proof.
  revert s. induction l1 as [|x l1 IH]; intros s; simpl.
  - intros [= _ ->]. done.
  - unfold bind. destruct (body x s); simpl; try done. apply IH.
Qed.

(** Run the first instruction of an equation's left-hand side, given what it does. *)
Tactic Notation "run" uconstr(H) := rewrite (bind_ok _ _ _ _ _ H).

(** An invariant of the body is an invariant of the loop. *)
Lemma wp_foreach {S B : Type} (I : S -> Prop) (l : list B) (body : B -> M S unit) s :
  I s ->
  (forall x s, x ∈ l -> I s -> wp (body x) (fun _ s' => I s') s) ->
  wp (foreach l body) (fun _ s' => I s') s.
Proof.
  revert s. induction l as [|x l IH]; intros s HI Hb; simpl; [done|].
  apply wp_bind. eapply wp_mono; [apply Hb; [left|done]|].
  intros u s' HI'. apply IH; [done|]. intros y s0 Hy. apply Hb. by right.
Qed.

(** A loop over a range, with an invariant that counts. *)
Lemma foreach_range {S : Type} (I : Z -> S -> Prop) (n : Z) (body : Z -> M S unit) s :
  0 <= n -> I 0 s ->
  (forall k s, 0 <= k < n -> I k s -> exists s', body k s = Ok tt s' /\ I (k + 1) s') ->
  exists s', foreach (seqZ 0 n) body s = Ok tt s' /\ I n s'.
Proof.
  intros Hn H0 Hb.
  assert (Hgen : forall m k t, 0 <= k -> k + Z.of_nat m = n -> I k t ->
            exists t', foreach (seqZ k (Z.of_nat m)) body t = Ok tt t' /\ I n t').
  { induction m as [|m IH]; intros k t Hk Hm HI.
    - rewrite seqZ_nil by lia. exists t. split; [done|]. by replace n with k by lia.
    - rewrite seqZ_cons by lia. destruct (Hb k t) as (t1 & E & HI1); [lia|done|].
      destruct (IH (k + 1) t1) as (t2 & E2 & HI2); [lia|lia|done|].
      exists t2. split; [|done]. cbn [foreach]. rewrite (bind_ok _ _ _ _ _ E).
      replace (Z.succ k) with (k + 1) by lia. by replace (Z.pred (Z.of_nat (Datatypes.S m))) with (Z.of_nat m) by lia. }
  destruct (Hgen (Z.to_nat n) 0 s) as (s' & E & HI); [lia|lia|done|].
  rewrite Z2Nat.id in E by lia. eauto.
Qed.

(** ** Symbolic execution

    [wstep] runs the first instruction of the program in a [wp] goal; components
    add their own operations to [wp_prim]. *)
Lemma wp_gets {S A : Type} (f : S -> A) (Q : A -> S -> Prop) s : Q (f s) s -> wp (gets f) Q s.
Proof. done. Qed.

Lemma wp_modify {S : Type} (f : S -> S) (Q : unit -> S -> Prop) s :
  Q tt (f s) -> wp (modify f) Q s.
Proof. done. Qed.

Lemma wp_panic_if {S : Type} b msg (Q : unit -> S -> Prop) s :
  b = false -> Q tt s -> wp (panic_if b msg) Q s.
Proof. by intros ->. Qed.

Lemma wp_when_true {S : Type} b (m : M S unit) (Q : unit -> S -> Prop) s :
  b = true -> wp m Q s -> wp (when b m) Q s.
Proof. by intros ->. Qed.

Lemma wp_when_false {S : Type} b (m : M S unit) (Q : unit -> S -> Prop) s :
  b = false -> Q tt s -> wp (when b m) Q s.
Proof. by intros ->. Qed.

Lemma wp_when {S : Type} (b : bool) (m : M S unit) (Q : unit -> S -> Prop) s :
  (b = true -> wp m Q s) -> (b = false -> Q tt s) -> wp (when b m) Q s.
Proof. destruct b; cbn; auto. Qed.

(** A result stated with [wp] as an equation. *)
Lemma wp_to_eq {S A : Type} (m : M S A) (a : A) s s' :
  wp m (fun a' t => a' = a /\ t = s') s -> m s = Ok a s'.
Proof. intros H. apply wp_inv in H as (? & ? & -> & -> & ->). done. Qed.

Lemma wp_while_done {S : Type} n (c : M S bool) body (Q : unit -> S -> Prop) s :
  wp c (fun b s' => b = false /\ Q tt s') s -> wp (while_sleep n c body) Q s.
Proof.
  intros H. destruct n; simpl; apply wp_bind; (eapply wp_mono; [exact H|]);
    intros b s' [-> HQ]; exact HQ.
Qed.

Ltac wp_prim := fail.

Ltac wstep :=
  lazymatch goal with
  | |- wp (bind _ _) _ _ => apply wp_bind
  | |- wp (ret _) _ _ => apply wp_ret
  | |- wp (gets _) _ _ => apply wp_gets
  | |- wp (modify _) _ _ => apply wp_modify
  | |- wp (panic_if _ _) _ _ => apply wp_panic_if; [try done|]
  | _ => wp_prim
  end; cbv beta.

Ltac wsteps := repeat wstep.
