(* ===== verification/Bytes.v ===== *)
(** Bytes, little-endian integers, and updates of byte arrays and of
    byte-addressed memory: the representation facts that the components which
    read and write C structures through byte buffers share. *)

From stdpp Require Import prelude gmap strings.
From Stdlib Require Import ZArith Lia Ascii.
From S2P Require Import Prelude.

Local Open Scope Z_scope.

Definition is_byte (b : Z) : Prop := 0 <= b < 256.

(** The [n] bytes of the unsigned integer [x], least significant first. *)
Fixpoint le_encode (n : nat) (x : Z) : list Z :=
  match n with
  | O => []
  | S n' => x mod 256 :: le_encode n' (x / 256)
  end.

Fixpoint le_decode (l : list Z) : Z :=
  match l with
  | [] => 0
  | b :: l' => b + 256 * le_decode l'
  end.

(** [slice off n l]: the [n] elements of the array [l] from index [off] on. *)
Definition slice {A : Type} (off n : nat) (l : list A) : list A := take n (drop off l).

(** [blit off src dst]: the array [dst] with [src] copied over it at [off]. *)
Definition blit {A : Type} (off : nat) (src dst : list A) : list A :=
  take off dst ++ src ++ drop (off + length src) dst.

(** A byte-addressed memory; a missing address is one that nothing is mapped at. *)
Abbreviation memory := (gmap Z Z).

Fixpoint load_bytes (m : memory) (a : Z) (n : nat) : option (list Z) :=
  match n with
  | O => Some []
  | S n' =>
      match m !! a, load_bytes m (a + 1) n' with
      | Some b, Some l => Some (b :: l)
      | _, _ => None
      end
  end.

Fixpoint store_bytes (m : memory) (a : Z) (l : list Z) : memory :=
  match l with
  | [] => m
  | b :: l' => store_bytes (<[a := b]> m) (a + 1) l'
  end.

(** All [n] addresses from [a] on are backed by memory. *)
Definition mapped (m : memory) (a : Z) (n : nat) : Prop :=
  forall i, a <= i < a + Z.of_nat n -> is_Some (m !! i).

(** ** Little-endian integers *)

Lemma length_le_encode n x : length (le_encode n x) = n.
Proof. revert x. induction n; intros x; simpl; auto. Qed.

Lemma le_encode_bytes n x : Forall is_byte (le_encode n x).
Proof.
  revert x. induction n as [|n IH]; intros x; simpl; constructor; auto.
  unfold is_byte. pose proof (Z.mod_pos_bound x 256). lia.
Qed.

Lemma le_decode_bound l :
  Forall is_byte l -> 0 <= le_decode l < 2 ^ (8 * Z.of_nat (length l)).
Proof.
  induction 1 as [|b l Hb Hl IH]; cbn [le_decode length]; [done|].
  unfold is_byte in Hb.
  replace (8 * Z.of_nat (S (length l))) with (8 + 8 * Z.of_nat (length l)) by lia.
  rewrite Z.pow_add_r by lia. change (2 ^ 8) with 256. nia.
Qed.

Lemma le_decode_encode n x : le_decode (le_encode n x) = x mod 2 ^ (8 * Z.of_nat n).
Proof.
  revert x. induction n as [|n IH]; intros x; cbn [le_decode le_encode].
  - rewrite Z.mod_1_r. done.
  - rewrite IH.
    replace (8 * Z.of_nat (S n)) with (8 + 8 * Z.of_nat n) by lia.
    rewrite Z.pow_add_r by lia. change (2 ^ 8) with 256.
    rewrite Z.rem_mul_r by (try lia; apply Z.pow_pos_nonneg; lia). lia.
Qed.

Lemma le_decode_encode_small n x :
  0 <= x < 2 ^ (8 * Z.of_nat n) -> le_decode (le_encode n x) = x.
Proof. intros H. rewrite le_decode_encode. by apply Z.mod_small. Qed.

Lemma le_encode_decode l : Forall is_byte l -> le_encode (length l) (le_decode l) = l.
Proof.
  induction 1 as [|b l Hb Hl IH]; cbn [le_decode le_encode length]; [done|].
  unfold is_byte in Hb. f_equal.
  - rewrite Z.mul_comm, Z.mod_add by lia. apply Z.mod_small; lia.
  - replace ((b + 256 * le_decode l) / 256) with (le_decode l); [done|].
    rewrite Z.mul_comm, Z.div_add by lia. rewrite Z.div_small by lia. lia.
Qed.

Lemma le_decode_zeroes n : le_decode (replicate n 0) = 0.
Proof. induction n as [|n IH]; cbn [replicate le_decode]; [done|]. rewrite IH. done. Qed.

(** ** Arrays *)

Section arrays.
Context {A : Type}.
Implicit Types (l src dst : list A).

Lemma length_slice off n l : (off + n <= length l)%nat -> length (slice off n l) = n.
Proof. intros H. unfold slice. rewrite length_take, length_drop. lia. Qed.

Lemma length_blit off src dst :
  (off + length src <= length dst)%nat -> length (blit off src dst) = length dst.
Proof.
  intros H. unfold blit. rewrite !length_app, length_take, length_drop. lia.
Qed.

Lemma lookup_slice off n l i : (i < n)%nat -> slice off n l !! i = l !! (off + i)%nat.
Proof. intros H. unfold slice. rewrite lookup_take_lt by done. apply lookup_drop. Qed.

Lemma lookup_blit_in off src dst i :
  (off + length src <= length dst)%nat -> (off <= i < off + length src)%nat ->
  blit off src dst !! i = src !! (i - off)%nat.
Proof.
  intros H Hi. unfold blit.
  rewrite lookup_app_r by (rewrite length_take; lia). rewrite length_take.
  rewrite lookup_app_l by lia. f_equal. lia.
Qed.

Lemma lookup_blit_out off src dst i :
  (off + length src <= length dst)%nat -> (i < off \/ off + length src <= i)%nat ->
  blit off src dst !! i = dst !! i.
Proof.
  intros H Hi. unfold blit. destruct (decide (i < off)%nat).
  - rewrite lookup_app_l by (rewrite length_take; lia). by rewrite lookup_take_lt.
  - rewrite lookup_app_r by (rewrite length_take; lia). rewrite length_take.
    rewrite lookup_app_r by lia. rewrite lookup_drop. f_equal. lia.
Qed.

Lemma slice_blit_same off src dst :
  (off + length src <= length dst)%nat -> slice off (length src) (blit off src dst) = src.
Proof.
  intros H. unfold slice, blit.
  rewrite drop_app_length' by (rewrite length_take; lia).
  by rewrite take_app_length.
Qed.

Lemma slice_blit_other off off' n src dst :
  (off + length src <= length dst)%nat ->
  (off' + n <= off \/ off + length src <= off')%nat ->
  slice off' n (blit off src dst) = slice off' n dst.
Proof.
  intros H Hd. apply list_eq. intros i. destruct (decide (i < n)%nat).
  - rewrite !lookup_slice by done. apply lookup_blit_out; lia.
  - unfold slice. rewrite !lookup_take_ge by lia. done.
Qed.

Lemma blit_nil off dst : blit off [] dst = dst.
Proof. unfold blit. simpl. rewrite Nat.add_0_r. apply take_drop. Qed.

End arrays.

Lemma Forall_blit {A} (P : A -> Prop) off src dst :
  Forall P src -> Forall P dst -> Forall P (blit off src dst).
Proof.
  intros Hs Hd. unfold blit. repeat apply Forall_app_2; auto using Forall_take, Forall_drop.
Qed.

Lemma Forall_slice {A} (P : A -> Prop) off n l : Forall P l -> Forall P (slice off n l).
Proof. intros. unfold slice. auto using Forall_take, Forall_drop. Qed.

(** ** Memory *)

Lemma lookup_store_bytes m a l i :
  store_bytes m a l !! i =
    if decide (a <= i < a + Z.of_nat (length l)) then l !! Z.to_nat (i - a) else m !! i.
Proof.
  revert m a. induction l as [|b l IH]; intros m a; cbn [store_bytes length].
  - rewrite decide_False by lia. done.
  - rewrite IH. destruct (decide (i = a)) as [->|Hne].
    + rewrite decide_False by lia. rewrite lookup_insert_eq.
      rewrite decide_True by lia. by rewrite Z.sub_diag.
    + rewrite lookup_insert_ne by done.
      destruct (decide (a + 1 <= i < a + 1 + Z.of_nat (length l))).
      * rewrite decide_True by lia.
        replace (Z.to_nat (i - a)) with (S (Z.to_nat (i - (a + 1)))) by lia. done.
      * rewrite decide_False by lia. done.
Qed.

Lemma load_bytes_Some m a l :
  load_bytes m a (length l) = Some l <->
  (forall i, a <= i < a + Z.of_nat (length l) -> m !! i = l !! Z.to_nat (i - a)).
Proof.
  revert a. induction l as [|b l IH]; intros a; cbn [load_bytes length]; split.
  - intros _ i Hi. lia.
  - done.
  - destruct (m !! a) as [b'|] eqn:Ea; [|done].
    destruct (load_bytes m (a + 1) (length l)) as [l'|] eqn:El; [|done].
    intros [= -> ->]. pose proof (proj1 (IH (a + 1)) El) as Hl.
    intros i Hi. destruct (decide (i = a)) as [->|]; [by rewrite Z.sub_diag|].
    rewrite Hl by lia.
    by replace (Z.to_nat (i - a)) with (S (Z.to_nat (i - (a + 1)))) by lia.
  - intros H. rewrite (H a) by lia. rewrite Z.sub_diag. simpl.
    rewrite (proj2 (IH (a + 1))); [done|].
    intros i Hi. rewrite H by lia.
    by replace (Z.to_nat (i - a)) with (S (Z.to_nat (i - (a + 1)))) by lia.
Qed.

Lemma length_load_bytes m a n l : load_bytes m a n = Some l -> length l = n.
Proof.
  revert a l. induction n as [|n IH]; intros a l; simpl; [by intros [= <-]|].
  destruct (m !! a); [|done]. destruct (load_bytes m (a + 1) n) eqn:E; [|done].
  intros [= <-]. simpl. f_equal. by eapply IH.
Qed.

Lemma load_bytes_ext m m' a n :
  (forall i, a <= i < a + Z.of_nat n -> m !! i = m' !! i) ->
  load_bytes m a n = load_bytes m' a n.
Proof.
  revert a. induction n as [|n IH]; intros a H; simpl; [done|].
  rewrite H by lia. rewrite (IH (a + 1)); [done|]. intros i Hi. apply H. lia.
Qed.

Lemma load_store_same m a l : load_bytes (store_bytes m a l) a (length l) = Some l.
Proof.
  apply load_bytes_Some. intros i Hi. rewrite lookup_store_bytes.
  by rewrite decide_True by lia.
Qed.

Lemma load_store_other m a l a' n :
  (a' + Z.of_nat n <= a \/ a + Z.of_nat (length l) <= a') ->
  load_bytes (store_bytes m a l) a' n = load_bytes m a' n.
Proof.
  intros H. apply load_bytes_ext. intros i Hi. rewrite lookup_store_bytes.
  by rewrite decide_False by lia.
Qed.

Lemma load_bytes_mapped m a n : mapped m a n -> exists l, load_bytes m a n = Some l.
Proof.
  revert a. induction n as [|n IH]; intros a H; simpl; [eauto|].
  destruct (H a) as [b ->]; [lia|].
  destruct (IH (a + 1)) as [l ->]; [|eauto]. intros i Hi. apply H. lia.
Qed.

Lemma mapped_store m a l a' n : mapped m a' n -> mapped (store_bytes m a l) a' n.
Proof.
  intros H i Hi. rewrite lookup_store_bytes. case_decide; [|by apply H].
  apply lookup_lt_is_Some. lia.
Qed.

Lemma mapped_sub m a n a' n' :
  mapped m a n -> a <= a' -> a' + Z.of_nat n' <= a + Z.of_nat n -> mapped m a' n'.
Proof. intros H ?? i Hi. apply H. lia. Qed.

Create HintDb bytes.
#[export] Hint Resolve le_encode_bytes Forall_blit Forall_slice mapped_store : bytes.

(** ** Characters and string literals *)

(** The code of a character. *)
Definition ch (c : Ascii.ascii) : Z := Z.of_N (Ascii.N_of_ascii c).
Arguments ch _%_char.

(** The bytes of a string literal, without its terminating NUL. *)
Definition str (s : string) : list Z := map ch (String.list_ascii_of_string s).
Arguments str _%_string.

(** The same followed by a newline. *)
Definition strn (s : string) : list Z := str s ++ [10].
Arguments strn _%_string.
