(* ===== verification/Params.v ===== *)
(** Constants and address arithmetic: kernel/param.h, kernel/memlayout.h,
    the paging macros of kernel/riscv.h, the on-disk format constants of
    kernel/fs.h, and the flag values of kernel/stat.h, fcntl.h, vm.h and elf.h. *)

From stdpp Require Import prelude.
From Stdlib Require Import ZArith Lia.
From S2P Require Import Prelude.

Local Open Scope Z_scope.

(** ** kernel/param.h *)

Definition NPROC : nat := 64.
Definition NCPU : nat := 8.
Definition NOFILE : nat := 16.
Definition NFILE : nat := 100.
Definition NINODE : nat := 50.
Definition NDEV : nat := 10.
Definition ROOTDEV : Z := 1.
Definition MAXARG : nat := 32.
Definition MAXOPBLOCKS : Z := 10.
Definition LOGBLOCKS : Z := MAXOPBLOCKS * 3.
Definition NBUF : nat := 30.
Definition FSSIZE : Z := 2000.
Definition MAXPATH : Z := 128.
Definition USERSTACK : Z := 1.

(** ** The paging macros of kernel/riscv.h *)

Definition PGSIZE : Z := 4096.
Definition PGSHIFT : Z := 12.
Definition PGROUNDUP (sz : Z) : Z := Z.land (u64 (sz + PGSIZE - 1)) (u64 (Z.lnot (PGSIZE - 1))).
Definition PGROUNDDOWN (a : Z) : Z := Z.land a (u64 (Z.lnot (PGSIZE - 1))).

Definition PTE_V : Z := Z.shiftl 1 0.
Definition PTE_R : Z := Z.shiftl 1 1.
Definition PTE_W : Z := Z.shiftl 1 2.
Definition PTE_X : Z := Z.shiftl 1 3.
Definition PTE_U : Z := Z.shiftl 1 4.

Definition PA2PTE (pa : Z) : Z := u64 (Z.shiftl (Z.shiftr pa 12) 10).
Definition PTE2PA (pte : Z) : Z := u64 (Z.shiftl (Z.shiftr pte 10) 12).
Definition PTE_FLAGS (pte : Z) : Z := Z.land pte 0x3FF.

Definition PXMASK : Z := 0x1FF.
Definition PXSHIFT (level : Z) : Z := PGSHIFT + 9 * level.
Definition PX (level va : Z) : Z := Z.land (Z.shiftr va (PXSHIFT level)) PXMASK.

Definition MAXVA : Z := Z.shiftl 1 (9 + 9 + 9 + 12 - 1).

Definition SATP_SV39 : Z := Z.shiftl 8 60.
Definition MAKE_SATP (pagetable : Z) : Z := Z.lor SATP_SV39 (Z.shiftr pagetable 12).

(** Is flag [f] set in the word [x]?  [(x & f) != 0] *)
Definition has_flag (x f : Z) : bool := negb (Z.land x f =? 0).

(** ** kernel/memlayout.h *)

Definition UART0 : Z := 0x10000000.
Definition UART0_IRQ : Z := 10.
Definition VIRTIO0 : Z := 0x10001000.
Definition VIRTIO0_IRQ : Z := 1.
Definition PLIC : Z := 0x0c000000.
Definition PLIC_SENABLE (hart : Z) : Z := PLIC + 0x2080 + hart * 0x100.
Definition PLIC_SPRIORITY (hart : Z) : Z := PLIC + 0x201000 + hart * 0x2000.
Definition PLIC_SCLAIM (hart : Z) : Z := PLIC + 0x201004 + hart * 0x2000.
Definition KERNBASE : Z := 0x80000000.
Definition PHYSTOP : Z := KERNBASE + 128 * 1024 * 1024.
Definition TRAMPOLINE : Z := MAXVA - PGSIZE.
Definition KSTACK (p : Z) : Z := TRAMPOLINE - (p + 1) * 2 * PGSIZE.
Definition TRAPFRAME : Z := TRAMPOLINE - PGSIZE.

(** ** kernel/fs.h *)

Definition ROOTINO : Z := 1.
Definition BSIZE : Z := 1024.
Definition FSMAGIC : Z := 0x10203040.
Definition NDIRECT : Z := 12.
Definition NINDIRECT : Z := BSIZE / 4.
Definition MAXFILE : Z := NDIRECT + NINDIRECT.
Definition NLINK_MAX : Z := 32767.
Definition DINODE_SIZE : Z := 64.
Definition IPB : Z := BSIZE / DINODE_SIZE.
Definition BPB : Z := BSIZE * 8.
Definition DIRSIZ : nat := 14.
Definition DIRENT_SIZE : Z := 16.

(** ** kernel/stat.h, fcntl.h, vm.h *)

Definition T_DIR : Z := 1.
Definition T_FILE : Z := 2.
Definition T_DEVICE : Z := 3.

Definition O_RDONLY : Z := 0x000.
Definition O_WRONLY : Z := 0x001.
Definition O_RDWR : Z := 0x002.
Definition O_CREATE : Z := 0x200.
Definition O_TRUNC : Z := 0x400.

Definition SBRK_EAGER : Z := 1.
Definition SBRK_LAZY : Z := 2.

Definition CONSOLE : Z := 1.

Definition ELF_MAGIC : Z := 0x464C457F.
Definition ELF_PROG_LOAD : Z := 1.

(** ** Addresses the linker chooses (kernel/kernel.ld)

    They are parameters of the kernel; what the code relies on of them is
    [LinkerOk]. *)
Class Linker := {
  end_ : Z;             (* first address after the kernel *)
  etext : Z;            (* end of the kernel text *)
  trampoline : Z;       (* trampoline.S, on a page of its own *)
  uservec_off : Z;      (* uservec - trampoline *)
  userret_off : Z;      (* userret - trampoline *)
  usertrap_addr : Z;
  forkret_addr : Z;
  kernelvec_addr : Z;
}.

Class LinkerOk (L : Linker) : Prop := {
  end_range : KERNBASE <= end_ <= PHYSTOP;
  etext_range : KERNBASE < etext <= end_;
  etext_aligned : etext mod PGSIZE = 0;
  trampoline_range : KERNBASE <= trampoline < etext;
  trampoline_aligned : trampoline mod PGSIZE = 0;
}.

(** ** Facts about the macros *)

Lemma u64_small x : 0 <= x < 2 ^ 64 -> u64 x = x.
Proof. intros. unfold wrap. by apply Z.mod_small. Qed.

Lemma u32_small x : 0 <= x < 2 ^ 32 -> u32 x = x.
Proof. intros. unfold wrap. by apply Z.mod_small. Qed.

Lemma u64_range x : 0 <= u64 x < 2 ^ 64.
Proof. unfold wrap. apply Z.mod_pos_bound. lia. Qed.

Lemma u32_range x : 0 <= u32 x < 2 ^ 32.
Proof. unfold wrap. apply Z.mod_pos_bound. lia. Qed.

Lemma s32_small x : - 2 ^ 31 <= x < 2 ^ 31 -> s32 x = x.
Proof.
  intros. unfold swrap. change (32 - 1) with 31. rewrite Z.mod_small; lia.
Qed.

(** Rounding down clears the low 12 bits. *)
Lemma PGROUNDDOWN_spec a : 0 <= a < 2 ^ 64 -> PGROUNDDOWN a = a - a mod PGSIZE.
Proof.
  intros Ha. unfold PGROUNDDOWN.
  change (u64 (Z.lnot (PGSIZE - 1))) with (Z.ldiff (Z.ones 64) (Z.ones 12)).
  replace (Z.land a (Z.ldiff (Z.ones 64) (Z.ones 12))) with (Z.ldiff a (Z.ones 12)).
  - rewrite Z.ldiff_ones_r by lia. rewrite Z.shiftr_div_pow2, Z.shiftl_mul_pow2 by lia.
    change (2 ^ 12) with PGSIZE. unfold PGSIZE. pose proof (Z.div_mod a 4096). lia.
  - apply Z.bits_inj'. intros n Hn. rewrite Z.land_spec, !Z.ldiff_spec.
    destruct (Z.lt_ge_cases n 64).
    + rewrite (Z.ones_spec_low 64) by lia. done.
    + rewrite (Z.ones_spec_high 64) by lia. simpl. rewrite andb_false_r.
      replace (Z.testbit a n) with false; [done|]. symmetry.
      rewrite <- (Z.mod_small a (2 ^ 64)) by lia. apply Z.mod_pow2_bits_high. lia.
Qed.

Lemma PGROUNDDOWN_aligned a : 0 <= a < 2 ^ 64 -> PGROUNDDOWN a mod PGSIZE = 0.
Proof.
  intros Ha. rewrite PGROUNDDOWN_spec by done. unfold PGSIZE.
  rewrite Zminus_mod_idemp_r, Z.sub_diag. done.
Qed.

(** Rounding up gives the least page boundary at or above the argument, as long
    as the addition does not wrap around. *)
Lemma PGROUNDUP_spec sz :
  0 <= sz <= 2 ^ 64 - PGSIZE ->
  PGROUNDUP sz mod PGSIZE = 0 /\ sz <= PGROUNDUP sz < sz + PGSIZE.
Proof.
  intros Hs.
  assert (PGROUNDUP sz = PGROUNDDOWN (sz + 4096 - 1)) as ->.
  { unfold PGROUNDUP, PGROUNDDOWN, PGSIZE in *. by rewrite (u64_small (sz + 4096 - 1)) by lia. }
  unfold PGSIZE in *. rewrite PGROUNDDOWN_spec by lia. unfold PGSIZE.
  pose proof (Z.mod_pos_bound (sz + 4096 - 1) 4096). split; [|lia].
  rewrite Zminus_mod_idemp_r, Z.sub_diag. done.
Qed.

Lemma PGROUNDUP_aligned_id sz :
  0 <= sz <= 2 ^ 64 - PGSIZE -> sz mod PGSIZE = 0 -> PGROUNDUP sz = sz.
Proof.
  intros Hs Ha. destruct (PGROUNDUP_spec sz Hs) as [Hm Hr]. unfold PGSIZE in *.
  pose proof (Z.div_mod sz 4096). pose proof (Z.div_mod (PGROUNDUP sz) 4096). lia.
Qed.

Lemma PX_range level va : 0 <= PX level va < 512.
Proof.
  unfold PX. change PXMASK with (Z.ones 9). rewrite Z.land_ones by lia.
  apply Z.mod_pos_bound. lia.
Qed.

(** A physical page address survives the trip through a page-table entry with
    any flags in the low ten bits. *)
Lemma PTE2PA_PA2PTE pa fl :
  0 <= pa < 2 ^ 56 -> pa mod PGSIZE = 0 -> 0 <= fl < 1024 ->
  PTE2PA (Z.lor (PA2PTE pa) fl) = pa.
Proof.
  intros Hp Ha Hf. unfold PTE2PA, PA2PTE.
  rewrite (u64_small (Z.shiftl (Z.shiftr pa 12) 10)).
  2: { rewrite Z.shiftl_mul_pow2, Z.shiftr_div_pow2 by lia.
       assert (pa / 2 ^ 12 < 2 ^ 44) by (apply Z.div_lt_upper_bound; lia).
       assert (0 <= pa / 2 ^ 12) by (apply Z.div_pos; lia). lia. }
  rewrite Z.shiftr_lor. rewrite Z.shiftr_shiftl_l by lia.
  rewrite (Z.shiftr_div_pow2 fl 10), Z.div_small by lia.
  rewrite Z.lor_0_r. rewrite Z.sub_diag, Z.shiftl_0_r.
  rewrite Z.shiftl_mul_pow2, Z.shiftr_div_pow2 by lia.
  change (2 ^ 12) with 4096. unfold PGSIZE in Ha.
  pose proof (Z.div_mod pa 4096). rewrite u64_small; lia.
Qed.

Lemma PA2PTE_flags pa fl :
  0 <= fl < 1024 -> PTE_FLAGS (Z.lor (PA2PTE pa) fl) = fl.
Proof.
  intros Hf. unfold PTE_FLAGS. change 0x3FF with (Z.ones 10).
  rewrite Z.land_lor_distr_l.
  replace (Z.land (PA2PTE pa) (Z.ones 10)) with 0.
  - rewrite Z.lor_0_l, Z.land_ones by lia. apply Z.mod_small. lia.
  - symmetry. unfold PA2PTE, wrap. rewrite Z.land_ones by lia.
    rewrite Z.shiftl_mul_pow2 by lia.
    change (2 ^ 64) with (2 ^ 10 * 2 ^ 54).
    rewrite (Z.mul_comm (Z.shiftr pa 12)).
    rewrite Z.mul_mod_distr_l by lia. rewrite Z.mul_comm. apply Z.mod_mul. lia.
Qed.

Lemma has_flag_spec x k : has_flag x (2 ^ k) = Z.testbit x k.
Proof.
  unfold has_flag. destruct (Z.testbit x k) eqn:E.
  - apply negb_true_iff, Z.eqb_neq. intros H.
    assert (Z.testbit (Z.land x (2 ^ k)) k = false) as Hb by (by rewrite H, Z.testbit_0_l).
    destruct (Z.lt_ge_cases k 0); [by rewrite Z.testbit_neg_r in E|].
    rewrite Z.land_spec, E, Z.pow2_bits_true in Hb by done. done.
  - apply negb_false_iff, Z.eqb_eq. destruct (Z.lt_ge_cases k 0).
    { rewrite Z.pow_neg_r by done. apply Z.land_0_r. }
    apply Z.bits_inj'. intros n Hn. rewrite Z.land_spec, Z.testbit_0_l.
    rewrite Z.pow2_bits_eqb by done. destruct (Z.eqb_spec k n) as [->|]; [by rewrite E|apply andb_false_r].
Qed.
