(* ===== verification/State.v ===== *)
(** The data of the kernel: the C structures of kernel/*.h and of the .c files
    that declare their own, and the state the code of one CPU acts on.

    Pointers into the static tables ([proc], [bcache.buf], [itable.inode],
    [ftable.file]) are indices into the corresponding lists; memory that comes
    from the page allocator is in [mem], byte by byte. *)

From stdpp Require Import prelude gmap strings.
From Stdlib Require Import ZArith Lia.
From S2P Require Import Prelude Bytes Params.

Local Open Scope Z_scope.
Local Open Scope kernel_scope.

(** The sleep-locks of the kernel, by the object they protect. *)
Inductive sleeplock_id := SL_buf (i : nat) | SL_inode (i : nat) | SL_uart.

(** The spinlocks of the kernel. *)
Inductive lockid :=
| L_kmem | L_pid | L_wait | L_proc (i : nat) | L_bcache | L_log | L_itable | L_ftable
| L_ticks | L_cons | L_pr | L_vdisk | L_pipe (pi : Z) | L_sl (l : sleeplock_id).

(** Wait channels: the addresses the kernel passes to [sleep_prepare] and [wakeup]. *)
Inductive chan :=
| Ch_log | Ch_proc (i : nat) | Ch_ticks | Ch_cons_r | Ch_tx | Ch_vdisk_free
| Ch_buf (i : nat) | Ch_pipe_nread (pi : Z) | Ch_pipe_nwrite (pi : Z) | Ch_sl (l : sleeplock_id).

#[export] Instance sleeplock_id_eq_dec : EqDecision sleeplock_id.
Proof. solve_decision. Defined.
#[export] Instance lockid_eq_dec : EqDecision lockid.
Proof. solve_decision. Defined.
#[export] Instance chan_eq_dec : EqDecision chan.
Proof. solve_decision. Defined.

(** [enum procstate] (kernel/proc.h). *)
Inductive procstate := UNUSED | USED | SLEEPING | RUNNABLE | RUNNING | ZOMBIE.
#[export] Instance procstate_eq_dec : EqDecision procstate.
Proof. solve_decision. Defined.

(** The type tag of [struct file] (kernel/file.h). *)
Inductive fdtype := FD_NONE | FD_PIPE | FD_INODE | FD_DEVICE.
#[export] Instance fdtype_eq_dec : EqDecision fdtype.
Proof. solve_decision. Defined.

(** What a virtio descriptor refers to: a request header, a buffer's data, a status
    byte. *)
Inductive daddr := A_null | A_op (i : Z) | A_data (b : nat) | A_status (i : Z).

(** The device functions that a driver can install in [devsw]. *)
Inductive devfn := Dev_console.

(** [struct sleeplock] (kernel/sleeplock.h); its inner spinlock is [L_sl]. *)
Record sleeplock := mkSleeplock {
  sl_locked : bool; (* is the lock held? *)
  sl_pid : Z; (* process holding lock *)
}.

#[export] Instance eta_sleeplock : Eta sleeplock := fun r =>
  mkSleeplock (sl_locked r) (sl_pid r).
#[export] Instance set_sl_locked : Setter sl_locked := ltac:(solve_setter).
#[export] Instance set_sl_pid : Setter sl_pid := ltac:(solve_setter).

(** [struct buf] (kernel/buf.h); [prev] and [next] are indices into the buffer array. *)
Record buf := mkBuf {
  b_valid : bool; (* has data been read from disk? *)
  b_disk : bool; (* does disk own buf? *)
  b_dev : Z;
  b_blockno : Z;
  b_lock : sleeplock;
  b_refcnt : Z;
  b_prev : nat; (* LRU cache list *)
  b_next : nat;
  b_data : list Z;
}.

#[export] Instance eta_buf : Eta buf := fun r =>
  mkBuf (b_valid r) (b_disk r) (b_dev r) (b_blockno r) (b_lock r) (b_refcnt r) (b_prev r)
    (b_next r) (b_data r).
#[export] Instance set_b_valid : Setter b_valid := ltac:(solve_setter).
#[export] Instance set_b_disk : Setter b_disk := ltac:(solve_setter).
#[export] Instance set_b_dev : Setter b_dev := ltac:(solve_setter).
#[export] Instance set_b_blockno : Setter b_blockno := ltac:(solve_setter).
#[export] Instance set_b_lock : Setter b_lock := ltac:(solve_setter).
#[export] Instance set_b_refcnt : Setter b_refcnt := ltac:(solve_setter).
#[export] Instance set_b_prev : Setter b_prev := ltac:(solve_setter).
#[export] Instance set_b_next : Setter b_next := ltac:(solve_setter).
#[export] Instance set_b_data : Setter b_data := ltac:(solve_setter).

(** [struct log] with its [struct logheader] (kernel/log.c). *)
Record logst := mkLog {
  l_start : Z;
  l_outstanding : Z; (* how many FS sys calls are executing *)
  l_committing : bool; (* in commit(), please wait *)
  l_dev : Z;
  l_ncommit : Z;
  l_n : Z; (* lh.n *)
  l_block : list Z; (* lh.block *)
}.

#[export] Instance eta_logst : Eta logst := fun r =>
  mkLog (l_start r) (l_outstanding r) (l_committing r) (l_dev r) (l_ncommit r) (l_n r)
    (l_block r).
#[export] Instance set_l_start : Setter l_start := ltac:(solve_setter).
#[export] Instance set_l_outstanding : Setter l_outstanding := ltac:(solve_setter).
#[export] Instance set_l_committing : Setter l_committing := ltac:(solve_setter).
#[export] Instance set_l_dev : Setter l_dev := ltac:(solve_setter).
#[export] Instance set_l_ncommit : Setter l_ncommit := ltac:(solve_setter).
#[export] Instance set_l_n : Setter l_n := ltac:(solve_setter).
#[export] Instance set_l_block : Setter l_block := ltac:(solve_setter).

(** [struct superblock] (kernel/fs.h). *)
Record superblock := mkSb {
  sb_magic : Z;
  sb_size : Z;
  sb_nblocks : Z;
  sb_ninodes : Z;
  sb_nlog : Z;
  sb_logstart : Z;
  sb_inodestart : Z;
  sb_bmapstart : Z;
}.

#[export] Instance eta_superblock : Eta superblock := fun r =>
  mkSb (sb_magic r) (sb_size r) (sb_nblocks r) (sb_ninodes r) (sb_nlog r) (sb_logstart r)
    (sb_inodestart r) (sb_bmapstart r).
#[export] Instance set_sb_magic : Setter sb_magic := ltac:(solve_setter).
#[export] Instance set_sb_size : Setter sb_size := ltac:(solve_setter).
#[export] Instance set_sb_nblocks : Setter sb_nblocks := ltac:(solve_setter).
#[export] Instance set_sb_ninodes : Setter sb_ninodes := ltac:(solve_setter).
#[export] Instance set_sb_nlog : Setter sb_nlog := ltac:(solve_setter).
#[export] Instance set_sb_logstart : Setter sb_logstart := ltac:(solve_setter).
#[export] Instance set_sb_inodestart : Setter sb_inodestart := ltac:(solve_setter).
#[export] Instance set_sb_bmapstart : Setter sb_bmapstart := ltac:(solve_setter).

(** [struct inode] (kernel/file.h), the in-memory copy of an inode. *)
Record inode := mkInode {
  i_dev : Z;
  i_inum : Z;
  i_ref : Z;
  i_lock : sleeplock;
  i_valid : bool; (* inode has been read from disk? *)
  i_type : Z;
  i_major : Z;
  i_minor : Z;
  i_nlink : Z;
  i_size : Z;
  i_addrs : list Z;
}.

#[export] Instance eta_inode : Eta inode := fun r =>
  mkInode (i_dev r) (i_inum r) (i_ref r) (i_lock r) (i_valid r) (i_type r) (i_major r)
    (i_minor r) (i_nlink r) (i_size r) (i_addrs r).
#[export] Instance set_i_dev : Setter i_dev := ltac:(solve_setter).
#[export] Instance set_i_inum : Setter i_inum := ltac:(solve_setter).
#[export] Instance set_i_ref : Setter i_ref := ltac:(solve_setter).
#[export] Instance set_i_lock : Setter i_lock := ltac:(solve_setter).
#[export] Instance set_i_valid : Setter i_valid := ltac:(solve_setter).
#[export] Instance set_i_type : Setter i_type := ltac:(solve_setter).
#[export] Instance set_i_major : Setter i_major := ltac:(solve_setter).
#[export] Instance set_i_minor : Setter i_minor := ltac:(solve_setter).
#[export] Instance set_i_nlink : Setter i_nlink := ltac:(solve_setter).
#[export] Instance set_i_size : Setter i_size := ltac:(solve_setter).
#[export] Instance set_i_addrs : Setter i_addrs := ltac:(solve_setter).

(** [struct file] (kernel/file.h). *)
Record file := mkFile {
  f_type : fdtype;
  f_ref : Z;
  f_readable : bool;
  f_writable : bool;
  f_pipe : Z; (* FD_PIPE: address of the pipe *)
  f_ip : nat; (* FD_INODE and FD_DEVICE *)
  f_off : Z; (* FD_INODE *)
  f_major : Z; (* FD_DEVICE *)
}.

#[export] Instance eta_file : Eta file := fun r =>
  mkFile (f_type r) (f_ref r) (f_readable r) (f_writable r) (f_pipe r) (f_ip r) (f_off r)
    (f_major r).
#[export] Instance set_f_type : Setter f_type := ltac:(solve_setter).
#[export] Instance set_f_ref : Setter f_ref := ltac:(solve_setter).
#[export] Instance set_f_readable : Setter f_readable := ltac:(solve_setter).
#[export] Instance set_f_writable : Setter f_writable := ltac:(solve_setter).
#[export] Instance set_f_pipe : Setter f_pipe := ltac:(solve_setter).
#[export] Instance set_f_ip : Setter f_ip := ltac:(solve_setter).
#[export] Instance set_f_off : Setter f_off := ltac:(solve_setter).
#[export] Instance set_f_major : Setter f_major := ltac:(solve_setter).

(** [struct pipe] (kernel/pipe.c). *)
Record pipe := mkPipe {
  pi_data : list Z;
  pi_nread : Z; (* number of bytes read *)
  pi_nwrite : Z; (* number of bytes written *)
  pi_readopen : bool;
  pi_writeopen : bool;
}.

#[export] Instance eta_pipe : Eta pipe := fun r =>
  mkPipe (pi_data r) (pi_nread r) (pi_nwrite r) (pi_readopen r) (pi_writeopen r).
#[export] Instance set_pi_data : Setter pi_data := ltac:(solve_setter).
#[export] Instance set_pi_nread : Setter pi_nread := ltac:(solve_setter).
#[export] Instance set_pi_nwrite : Setter pi_nwrite := ltac:(solve_setter).
#[export] Instance set_pi_readopen : Setter pi_readopen := ltac:(solve_setter).
#[export] Instance set_pi_writeopen : Setter pi_writeopen := ltac:(solve_setter).

(** [struct context] (kernel/proc.h): the registers [swtch] saves. *)
Record context := mkContext {
  ctx_ra : Z;
  ctx_sp : Z;
  ctx_s : list Z; (* s0 .. s11 *)
}.

#[export] Instance eta_context : Eta context := fun r =>
  mkContext (ctx_ra r) (ctx_sp r) (ctx_s r).
#[export] Instance set_ctx_ra : Setter ctx_ra := ltac:(solve_setter).
#[export] Instance set_ctx_sp : Setter ctx_sp := ltac:(solve_setter).
#[export] Instance set_ctx_s : Setter ctx_s := ltac:(solve_setter).

(** [struct proc] (kernel/proc.h); pointers into the process, file and inode
    tables are indices. *)
Record proc := mkProc {
  p_state : procstate;
  p_chan : option chan; (* if set, waiting for wakeups on chan *)
  p_killed : bool;
  p_xstate : Z;
  p_pid : Z;
  p_parent : option nat;
  p_kstack : Z;
  p_sz : Z;
  p_pagetable : Z;
  p_trapframe : Z;
  p_context : context;
  p_ofile : list (option nat);
  p_cwd : option nat;
  p_name : list Z;
}.

#[export] Instance eta_proc : Eta proc := fun r =>
  mkProc (p_state r) (p_chan r) (p_killed r) (p_xstate r) (p_pid r) (p_parent r)
    (p_kstack r) (p_sz r) (p_pagetable r) (p_trapframe r) (p_context r) (p_ofile r)
    (p_cwd r) (p_name r).
#[export] Instance set_p_state : Setter p_state := ltac:(solve_setter).
#[export] Instance set_p_chan : Setter p_chan := ltac:(solve_setter).
#[export] Instance set_p_killed : Setter p_killed := ltac:(solve_setter).
#[export] Instance set_p_xstate : Setter p_xstate := ltac:(solve_setter).
#[export] Instance set_p_pid : Setter p_pid := ltac:(solve_setter).
#[export] Instance set_p_parent : Setter p_parent := ltac:(solve_setter).
#[export] Instance set_p_kstack : Setter p_kstack := ltac:(solve_setter).
#[export] Instance set_p_sz : Setter p_sz := ltac:(solve_setter).
#[export] Instance set_p_pagetable : Setter p_pagetable := ltac:(solve_setter).
#[export] Instance set_p_trapframe : Setter p_trapframe := ltac:(solve_setter).
#[export] Instance set_p_context : Setter p_context := ltac:(solve_setter).
#[export] Instance set_p_ofile : Setter p_ofile := ltac:(solve_setter).
#[export] Instance set_p_cwd : Setter p_cwd := ltac:(solve_setter).
#[export] Instance set_p_name : Setter p_name := ltac:(solve_setter).

(** [cons] (kernel/console.c). *)
Record console := mkConsole {
  c_buf : list Z;
  c_r : Z; (* read index *)
  c_w : Z; (* write index *)
  c_e : Z; (* edit index *)
}.

#[export] Instance eta_console : Eta console := fun r =>
  mkConsole (c_buf r) (c_r r) (c_w r) (c_e r).
#[export] Instance set_c_buf : Setter c_buf := ltac:(solve_setter).
#[export] Instance set_c_r : Setter c_r := ltac:(solve_setter).
#[export] Instance set_c_w : Setter c_w := ltac:(solve_setter).
#[export] Instance set_c_e : Setter c_e := ltac:(solve_setter).

(** [struct devsw] (kernel/file.h): which device functions are installed. *)
Record devsw_entry := mkDevsw {
  d_read : option devfn;
  d_write : option devfn;
}.

#[export] Instance eta_devsw_entry : Eta devsw_entry := fun r => mkDevsw (d_read r) (d_write r).
#[export] Instance set_d_read : Setter d_read := ltac:(solve_setter).
#[export] Instance set_d_write : Setter d_write := ltac:(solve_setter).

(** [struct virtq_desc] (kernel/virtio.h). *)
Record vdesc := mkVdesc {
  d_addr : daddr;
  d_len : Z;
  d_flags : Z;
  d_next : Z;
}.

#[export] Instance eta_vdesc : Eta vdesc := fun r =>
  mkVdesc (d_addr r) (d_len r) (d_flags r) (d_next r).
#[export] Instance set_d_addr : Setter d_addr := ltac:(solve_setter).
#[export] Instance set_d_len : Setter d_len := ltac:(solve_setter).
#[export] Instance set_d_flags : Setter d_flags := ltac:(solve_setter).
#[export] Instance set_d_next : Setter d_next := ltac:(solve_setter).

(** [struct virtio_blk_req] (kernel/virtio.h). *)
Record blkreq := mkBlkreq {
  rq_type : Z;
  rq_reserved : Z;
  rq_sector : Z;
}.

#[export] Instance eta_blkreq : Eta blkreq := fun r =>
  mkBlkreq (rq_type r) (rq_reserved r) (rq_sector r).
#[export] Instance set_rq_type : Setter rq_type := ltac:(solve_setter).
#[export] Instance set_rq_reserved : Setter rq_reserved := ltac:(solve_setter).
#[export] Instance set_rq_sector : Setter rq_sector := ltac:(solve_setter).

(** An element of [disk.info] (kernel/virtio_disk.c). *)
Record vinfo := mkVinfo {
  vi_b : option nat; (* index of the buffer *)
  vi_status : Z;
}.

#[export] Instance eta_vinfo : Eta vinfo := fun r => mkVinfo (vi_b r) (vi_status r).
#[export] Instance set_vi_b : Setter vi_b := ltac:(solve_setter).
#[export] Instance set_vi_status : Setter vi_status := ltac:(solve_setter).

(** [disk] (kernel/virtio_disk.c), with the rings it shares with the device. *)
Record vdisk := mkVdisk {
  v_desc : list vdesc; (* disk.desc *)
  v_avail_idx : Z; (* disk.avail->idx *)
  v_avail : list Z; (* disk.avail->ring *)
  v_used_dev : Z; (* disk.used->idx, written by the device *)
  v_used : list Z; (* disk.used->ring[].id *)
  v_free : list bool;
  v_used_idx : Z;
  v_info : list vinfo;
  v_ops : list blkreq;
}.

#[export] Instance eta_vdisk : Eta vdisk := fun r =>
  mkVdisk (v_desc r) (v_avail_idx r) (v_avail r) (v_used_dev r) (v_used r) (v_free r)
    (v_used_idx r) (v_info r) (v_ops r).
#[export] Instance set_v_desc : Setter v_desc := ltac:(solve_setter).
#[export] Instance set_v_avail_idx : Setter v_avail_idx := ltac:(solve_setter).
#[export] Instance set_v_avail : Setter v_avail := ltac:(solve_setter).
#[export] Instance set_v_used_dev : Setter v_used_dev := ltac:(solve_setter).
#[export] Instance set_v_used : Setter v_used := ltac:(solve_setter).
#[export] Instance set_v_free : Setter v_free := ltac:(solve_setter).
#[export] Instance set_v_used_idx : Setter v_used_idx := ltac:(solve_setter).
#[export] Instance set_v_info : Setter v_info := ltac:(solve_setter).
#[export] Instance set_v_ops : Setter v_ops := ltac:(solve_setter).

(** The control registers of the hart that the trap code uses. *)
Record csrs := mkCsrs {
  r_scause : Z;
  r_sepc : Z;
  r_stval : Z;
  r_sstatus : Z;
  r_stvec : Z;
  r_satp : Z;
  r_tp : Z; (* hart id *)
  r_time : Z;
  r_stimecmp : Z;
}.

#[export] Instance eta_csrs : Eta csrs := fun r =>
  mkCsrs (r_scause r) (r_sepc r) (r_stval r) (r_sstatus r) (r_stvec r) (r_satp r) (r_tp r)
    (r_time r) (r_stimecmp r).
#[export] Instance set_r_scause : Setter r_scause := ltac:(solve_setter).
#[export] Instance set_r_sepc : Setter r_sepc := ltac:(solve_setter).
#[export] Instance set_r_stval : Setter r_stval := ltac:(solve_setter).
#[export] Instance set_r_sstatus : Setter r_sstatus := ltac:(solve_setter).
#[export] Instance set_r_stvec : Setter r_stvec := ltac:(solve_setter).
#[export] Instance set_r_satp : Setter r_satp := ltac:(solve_setter).
#[export] Instance set_r_tp : Setter r_tp := ltac:(solve_setter).
#[export] Instance set_r_time : Setter r_time := ltac:(solve_setter).
#[export] Instance set_r_stimecmp : Setter r_stimecmp := ltac:(solve_setter).

(** The state of the kernel and of the devices it drives, as the code running on
    one CPU sees it. *)
Record kstate := mkState {
  mem : gmap Z Z; (* physical memory, by byte *)
  held : list lockid; (* spinlocks this CPU holds; its length is mycpu()->noff *)
  cpu_proc : option nat; (* mycpu()->proc *)
  freelist : Z; (* kmem.freelist *)
  procs : list proc; (* proc[NPROC] *)
  initproc : option nat;
  nextpid : Z;
  ticks : Z;
  disk : gmap Z (list Z); (* contents of the disk, by block *)
  dtrace : list (Z * list Z); (* blocks written to the disk since boot, oldest first *)
  bufs : list buf; (* bcache.buf[NBUF], then bcache.head *)
  klog : logst; (* log *)
  sb : superblock;
  itable : list inode; (* itable.inode[NINODE] *)
  ftable : list file; (* ftable.file[NFILE] *)
  devsw : list devsw_entry; (* devsw[NDEV] *)
  pipes : gmap Z pipe; (* pipes, by the address of their page *)
  cons : console;
  uart_tx : list Z; (* bytes sent through the UART, oldest first *)
  uart_rx : list Z; (* bytes the UART has received and the kernel has not read *)
  uart_busy : list bool; (* whether THR is busy at each of the coming reads of LSR; idle after that *)
  tx_lock : sleeplock; (* tx_lock of uart.c *)
  vd : vdisk; (* disk of virtio_disk.c *)
  mmio : gmap Z Z; (* device registers, by address *)
  csr : csrs; (* control registers *)
  first : bool; (* first of forkret *)
  kernel_pagetable : Z;
  panicking : bool;
}.

#[export] Instance eta_kstate : Eta kstate := fun r =>
  mkState (mem r) (held r) (cpu_proc r) (freelist r) (procs r) (initproc r) (nextpid r)
    (ticks r) (disk r) (dtrace r) (bufs r) (klog r) (sb r) (itable r) (ftable r) (devsw r)
    (pipes r) (cons r) (uart_tx r) (uart_rx r) (uart_busy r) (tx_lock r) (vd r) (mmio r)
    (csr r) (first r) (kernel_pagetable r) (panicking r).
#[export] Instance set_mem : Setter mem := ltac:(solve_setter).
#[export] Instance set_held : Setter held := ltac:(solve_setter).
#[export] Instance set_cpu_proc : Setter cpu_proc := ltac:(solve_setter).
#[export] Instance set_freelist : Setter freelist := ltac:(solve_setter).
#[export] Instance set_procs : Setter procs := ltac:(solve_setter).
#[export] Instance set_initproc : Setter initproc := ltac:(solve_setter).
#[export] Instance set_nextpid : Setter nextpid := ltac:(solve_setter).
#[export] Instance set_ticks : Setter ticks := ltac:(solve_setter).
#[export] Instance set_disk : Setter disk := ltac:(solve_setter).
#[export] Instance set_dtrace : Setter dtrace := ltac:(solve_setter).
#[export] Instance set_bufs : Setter bufs := ltac:(solve_setter).
#[export] Instance set_klog : Setter klog := ltac:(solve_setter).
#[export] Instance set_sb : Setter sb := ltac:(solve_setter).
#[export] Instance set_itable : Setter itable := ltac:(solve_setter).
#[export] Instance set_ftable : Setter ftable := ltac:(solve_setter).
#[export] Instance set_devsw : Setter devsw := ltac:(solve_setter).
#[export] Instance set_pipes : Setter pipes := ltac:(solve_setter).
#[export] Instance set_cons : Setter cons := ltac:(solve_setter).
#[export] Instance set_uart_tx : Setter uart_tx := ltac:(solve_setter).
#[export] Instance set_uart_rx : Setter uart_rx := ltac:(solve_setter).
#[export] Instance set_uart_busy : Setter uart_busy := ltac:(solve_setter).
#[export] Instance set_tx_lock : Setter tx_lock := ltac:(solve_setter).
#[export] Instance set_vd : Setter vd := ltac:(solve_setter).
#[export] Instance set_mmio : Setter mmio := ltac:(solve_setter).
#[export] Instance set_csr : Setter csr := ltac:(solve_setter).
#[export] Instance set_first : Setter first := ltac:(solve_setter).
#[export] Instance set_kernel_pagetable : Setter kernel_pagetable := ltac:(solve_setter).
#[export] Instance set_panicking : Setter panicking := ltac:(solve_setter).

Abbreviation K := (M kstate).

(** ** Access to table entries

    The code reaches a table entry through a pointer that an earlier scan or
    lookup produced; a pointer out of the table is a wild pointer, and using it
    faults. *)
Definition fault {A : Type} : K A := panic "kerneltrap".

Definition get_at {A : Type} (l : kstate -> list A) (i : nat) : K A :=
  fun s => match l s !! i with Some x => Ok x s | None => Panic "kerneltrap" end.

Definition getproc (i : nat) : K proc := get_at procs i.
Definition getbuf (i : nat) : K buf := get_at bufs i.
Definition getinode (i : nat) : K inode := get_at itable i.
Definition getfile (i : nat) : K file := get_at ftable i.

Definition updproc (i : nat) (f : proc -> proc) : K unit :=
  modify (fun s => s <| procs := alter f i (procs s) |>).
Definition updbuf (i : nat) (f : buf -> buf) : K unit :=
  modify (fun s => s <| bufs := alter f i (bufs s) |>).
Definition updinode (i : nat) (f : inode -> inode) : K unit :=
  modify (fun s => s <| itable := alter f i (itable s) |>).
Definition updfile (i : nat) (f : file -> file) : K unit :=
  modify (fun s => s <| ftable := alter f i (ftable s) |>).

(** ** Physical memory *)

Definition load (a : Z) (n : nat) : K (list Z) :=
  fun s => match load_bytes (mem s) a n with Some l => Ok l s | None => Panic "kerneltrap" end.

(** A store to an address that nothing is mapped at faults. *)
Definition store (a : Z) (l : list Z) : K unit :=
  fun s => match load_bytes (mem s) a (length l) with
           | Some _ => Ok tt (s <| mem := store_bytes (mem s) a l |>)
           | None => Panic "kerneltrap"
           end.

(** A [uint64] in memory. *)
Definition load64 (a : Z) : K Z := l <- load a 8 ;; ret (le_decode l).
Definition store64 (a v : Z) : K unit := store a (le_encode 8 v).

(** ** The state at boot

    Static data is zero (with [nextpid = 1]); the kernel then initialises it. *)
Definition zero_sleeplock : sleeplock := mkSleeplock false 0.
Definition zero_buf : buf := mkBuf false false 0 0 zero_sleeplock 0 0 0 (replicate 1024 0).
Definition zero_log : logst := mkLog 0 0 false 0 0 0 (replicate 30 0).
Definition zero_sb : superblock := mkSb 0 0 0 0 0 0 0 0.
Definition zero_inode : inode := mkInode 0 0 0 zero_sleeplock false 0 0 0 0 0 (replicate 13 0).
Definition zero_file : file := mkFile FD_NONE 0 false false 0 0 0 0.
Definition zero_context : context := mkContext 0 0 (replicate 12 0).
Definition zero_proc : proc :=
  mkProc UNUSED None false 0 0 None 0 0 0 0 zero_context (replicate NOFILE None) None
    (replicate 16 0).
Definition zero_vdisk : vdisk :=
  mkVdisk (replicate 8 (mkVdesc A_null 0 0 0)) 0 (replicate 8 0) 0 (replicate 8 0)
    (replicate 8 false) 0 (replicate 8 (mkVinfo None 0)) (replicate 8 (mkBlkreq 0 0 0)).
Definition boot_state : kstate :=
  mkState ∅ [] None 0 (replicate NPROC zero_proc) None 1 0 ∅ [] (replicate (S NBUF) zero_buf)
    zero_log zero_sb (replicate NINODE zero_inode) (replicate NFILE zero_file)
    (replicate NDEV (mkDevsw None None)) ∅ (mkConsole (replicate 128 0) 0 0 0) [] [] [] zero_sleeplock
    zero_vdisk ∅ (mkCsrs 0 0 0 0 0 0 0 0 0) true 0 false.

(** ** Lemmas *)

(** Conversion reduces record updates before anything else, and byte-level
    operations last. *)
#[global] Strategy expand
    [upd set_mem set_held set_cpu_proc set_freelist set_procs set_initproc set_nextpid set_ticks
       set_disk set_dtrace set_bufs set_klog set_sb set_itable set_ftable set_devsw set_pipes
       set_cons set_uart_tx set_uart_rx set_uart_busy set_tx_lock set_vd set_mmio set_csr
       set_first set_kernel_pagetable set_panicking mem held cpu_proc freelist procs initproc
       nextpid ticks disk dtrace bufs klog sb itable ftable devsw pipes cons uart_tx uart_rx
       uart_busy tx_lock vd mmio csr first kernel_pagetable panicking].
#[global] Strategy 1000 [store_bytes load_bytes le_encode le_decode slice blit replicate].

#[global] Arguments le_encode : simpl never.
#[global] Arguments le_decode : simpl never.
#[global] Arguments load_bytes : simpl never.
#[global] Arguments store_bytes : simpl never.

(** Equality of two updates of the same state, field by field. *)
Ltac st_eq s :=
  destruct s;
  cbv beta iota delta
    [upd set_mem set_held set_cpu_proc set_freelist set_procs set_initproc set_nextpid set_ticks
       set_disk set_dtrace set_bufs set_klog set_sb set_itable set_ftable set_devsw set_pipes
       set_cons set_uart_tx set_uart_rx set_uart_busy set_tx_lock set_vd set_mmio set_csr
       set_first set_kernel_pagetable set_panicking mem held cpu_proc freelist procs initproc
       nextpid ticks disk dtrace bufs klog sb itable ftable devsw pipes cons uart_tx uart_rx
       uart_busy tx_lock vd mmio csr first kernel_pagetable panicking];
  reflexivity.

Lemma get_at_ok {A : Type} (l : kstate -> list A) i x s :
  l s !! i = Some x -> get_at l i s = Ok x s.
Proof. unfold get_at. by intros ->. Qed.

Lemma wp_get_at {A : Type} (l : kstate -> list A) i x (Q : A -> kstate -> Prop) s :
  l s !! i = Some x -> Q x s -> wp (get_at l i) Q s.
Proof. intros H ?. eapply wp_eq; [by apply get_at_ok|done]. Qed.

Lemma load_ok a n l s : load_bytes (mem s) a n = Some l -> load a n s = Ok l s.
Proof. unfold load. by intros ->. Qed.

Lemma store_ok a l s :
  mapped (mem s) a (length l) ->
  store a l s = Ok tt (s <| mem := store_bytes (mem s) a l |>).
Proof. intros H. unfold store. by destruct (load_bytes_mapped _ _ _ H) as [? ->]. Qed.

Lemma load64_ok a l s :
  load_bytes (mem s) a 8 = Some l -> load64 a s = Ok (le_decode l) s.
Proof. intros H. unfold load64. by rewrite (bind_ok _ _ _ _ _ (load_ok _ _ _ _ H)). Qed.

Lemma store64_ok a v s :
  mapped (mem s) a 8 ->
  store64 a v s = Ok tt (s <| mem := store_bytes (mem s) a (le_encode 8 v) |>).
Proof. intros H. unfold store64. apply store_ok. by rewrite length_le_encode. Qed.
