(* ===== verification/Spinlock.v ===== *)
(** kernel/spinlock.c.

    Module [Smp] has the lock as the code implements it: several harts, each with
    its interrupt-enable bit and [struct cpu] nesting counters, and locks with
    their [locked] and [cpu] fields; a step relation interleaves the harts at
    every access to a shared field.  The rest of the kernel is written against
    the interface at the end of the file, where the running CPU has a list of the
    locks it holds; [Smp.acquire_refines] and [Smp.release_refines] relate the
    two. *)

From stdpp Require Import prelude gmap strings.
From Stdlib Require Import ZArith Lia.
From S2P Require Import Prelude Bytes Params State.

Local Open Scope Z_scope.
Local Open Scope kernel_scope.

(** ** The interface the kernel is written against *)

Definition remove_lock (l : lockid) (h : list lockid) : list lockid :=
  filter (fun x => x <> l) h.

Definition acquire (l : lockid) : K unit :=
  h <- gets held ;;
  if decide (l ∈ h) then panic "acquire"
  else modify (fun s => s <| held := l :: h |>).

Definition release (l : lockid) : K unit :=
  h <- gets held ;;
  if decide (l ∈ h) then modify (fun s => s <| held := remove_lock l h |>)
  else panic "release".

Definition holding (l : lockid) : K bool :=
  h <- gets held ;; ret (bool_decide (l ∈ h)).

Lemma remove_lock_notin l h : l ∉ h -> remove_lock l h = h.
Proof.
  intros H. unfold remove_lock. induction h as [|x h IH]; [done|].
  apply not_elem_of_cons in H as [H1 H2]. rewrite filter_cons_True by done. by rewrite IH.
Qed.

Lemma length_remove_lock l h : NoDup h -> l ∈ h -> length h = S (length (remove_lock l h)).
Proof.
  intros Hnd Hin. unfold remove_lock. induction Hnd as [|x h Hx Hnd IH];
    [by apply not_elem_of_nil in Hin|].
  destruct (decide (x = l)) as [->|Hne].
  - rewrite filter_cons_False by naive_solver. simpl. f_equal.
    symmetry. f_equal. by apply remove_lock_notin.
  - rewrite filter_cons_True by done. simpl. f_equal. apply IH.
    apply elem_of_cons in Hin as [->|]; done.
Qed.

Lemma wp_acquire l (Q : unit -> kstate -> Prop) s :
  l ∉ held s -> Q tt (s <| held := l :: held s |>) -> wp (acquire l) Q s.
Proof. intros Hl HQ. unfold acquire. wsteps. by rewrite decide_False. Qed.

(** Releasing the lock taken last. *)
Lemma wp_release l h (Q : unit -> kstate -> Prop) s :
  held s = l :: h -> l ∉ h -> Q tt (s <| held := h |>) -> wp (release l) Q s.
Proof.
  intros Hh Hl HQ. unfold release. wsteps. rewrite Hh, decide_True by left.
  unfold remove_lock. rewrite filter_cons_False by naive_solver.
  change (filter (fun x => x <> l) h) with (remove_lock l h).
  by rewrite remove_lock_notin.
Qed.

Lemma wp_holding l (Q : bool -> kstate -> Prop) s :
  Q (bool_decide (l ∈ held s)) s -> wp (holding l) Q s.
Proof. done. Qed.

Lemma held_restore s : s <| held := held s |> = s.
Proof. by destruct s. Qed.

Ltac wp_prim ::=
  lazymatch goal with
  | |- wp (acquire _) _ _ => apply wp_acquire; [try (rs; done)|]
  | |- wp (release _) _ _ => eapply wp_release; [rs; reflexivity|try (rs; done)|]
  | |- wp (holding _) _ _ => apply wp_holding
  end.

(** ** The implementation *)

Module Smp.

(** The part of [struct spinlock] that is not for debugging messages only:
    [cpu] is the hart holding the lock. *)
Record spinlock := mkSpinlock { locked : bool; lk_cpu : option nat }.

(** [struct cpu]'s [noff] and [intena], and the hart's [sstatus.SIE]. *)
Record hart := mkHart { noff : Z; intena : bool; sie : bool }.

Record smp := mkSmp { harts : nat -> hart; locks : lockid -> spinlock }.

Definition set_hart (h : nat) (x : hart) (s : smp) : smp :=
  mkSmp (fun i => if decide (i = h) then x else harts s i) (locks s).
Definition set_lock (l : lockid) (x : spinlock) (s : smp) : smp :=
  mkSmp (harts s) (fun i => if decide (i = l) then x else locks s i).

Definition initlock (l : lockid) : M smp unit := modify (set_lock l (mkSpinlock false None)).

(** [h] is the hart that runs the code, [cpuid()]. *)
Definition intr_get (h : nat) : M smp bool := gets (fun s => sie (harts s h)).
Definition intr_on (h : nat) : M smp unit :=
  modify (fun s => set_hart h (mkHart (noff (harts s h)) (intena (harts s h)) true) s).
Definition intr_off (h : nat) : M smp unit :=
  modify (fun s => set_hart h (mkHart (noff (harts s h)) (intena (harts s h)) false) s).

Definition push_off (h : nat) : M smp unit :=
  old <- intr_get h ;; intr_off h ;;   (* rc_sstatus(SSTATUS_SIE) *)
  c <- gets (fun s => harts s h) ;;
  (if noff c =? 0 then modify (set_hart h (mkHart (noff c) old (sie c))) else ret tt) ;;
  c <- gets (fun s => harts s h) ;;
  modify (set_hart h (mkHart (noff c + 1) (intena c) (sie c))).

Definition pop_off (h : nat) : M smp unit :=
  on <- intr_get h ;;
  panic_if on "pop_off - interruptible" ;;
  c <- gets (fun s => harts s h) ;;
  panic_if (noff c <? 1) "pop_off" ;;
  modify (set_hart h (mkHart (noff c - 1) (intena c) (sie c))) ;;
  if (noff c - 1 =? 0) && intena c then intr_on h else ret tt.

Definition spin_holding (h : nat) (l : lockid) : M smp bool :=
  lk <- gets (fun s => locks s l) ;;
  ret (locked lk && bool_decide (lk_cpu lk = Some h)).

(** [__atomic_exchange_n(&lk->locked, 1, ..)] *)
Definition xchg1 (l : lockid) : M smp bool :=
  lk <- gets (fun s => locks s l) ;;
  modify (set_lock l (mkSpinlock true (lk_cpu lk))) ;;
  ret (locked lk).

Fixpoint spin (fuel : nat) (l : lockid) : M smp unit :=
  old <- xchg1 l ;;
  if (old : bool) then match fuel with O => no_fuel | S n => spin n l end else ret tt.

Definition spin_acquire (fuel : nat) (h : nat) (l : lockid) : M smp unit :=
  push_off h ;;
  b <- spin_holding h l ;;
  panic_if b "acquire" ;;
  spin fuel l ;;
  lk <- gets (fun s => locks s l) ;;
  modify (set_lock l (mkSpinlock (locked lk) (Some h))).

Definition spin_release (h : nat) (l : lockid) : M smp unit :=
  b <- spin_holding h l ;;
  panic_if (negb b) "release" ;;
  lk <- gets (fun s => locks s l) ;;
  modify (set_lock l (mkSpinlock (locked lk) None)) ;;
  lk <- gets (fun s => locks s l) ;;
  modify (set_lock l (mkSpinlock false (lk_cpu lk))) ;;
  pop_off h.

(** ** Interleaving: one lock, any number of harts

    Where a hart is in [acquire]/[release] of the lock: outside; past the
    [holding] check and spinning; past the winning exchange but before
    [lk->cpu = mycpu()]; in its critical section; past [lk->cpu = 0] but before
    the store that frees the lock. *)
Inductive pc := Out | Spinning | Won | Critical | Leaving.
#[export] Instance pc_eq_dec : EqDecision pc.
Proof. solve_decision. Defined.

Record conf := mkConf { pcs : nat -> pc; lk : spinlock }.

Definition goto (h : nat) (p : pc) (f : nat -> pc) : nat -> pc :=
  fun i => if decide (i = h) then p else f i.

(** What [holding(lk)] evaluates to on hart [h]. *)
Definition sees_held (h : nat) (l : spinlock) : bool :=
  locked l && bool_decide (lk_cpu l = Some h).

Inductive spin_step : conf -> conf -> Prop :=
| step_enter h c :                       (* acquire: holding() is false *)
    pcs c h = Out -> sees_held h (lk c) = false ->
    spin_step c (mkConf (goto h Spinning (pcs c)) (lk c))
| step_spin h c :                        (* the exchange returns 1 *)
    pcs c h = Spinning -> locked (lk c) = true ->
    spin_step c (mkConf (pcs c) (mkSpinlock true (lk_cpu (lk c))))
| step_win h c :                         (* the exchange returns 0 *)
    pcs c h = Spinning -> locked (lk c) = false ->
    spin_step c (mkConf (goto h Won (pcs c)) (mkSpinlock true (lk_cpu (lk c))))
| step_own h c :                         (* lk->cpu = mycpu() *)
    pcs c h = Won ->
    spin_step c (mkConf (goto h Critical (pcs c)) (mkSpinlock (locked (lk c)) (Some h)))
| step_leave h c :                       (* release: holding() is true; lk->cpu = 0 *)
    pcs c h = Critical -> sees_held h (lk c) = true ->
    spin_step c (mkConf (goto h Leaving (pcs c)) (mkSpinlock (locked (lk c)) None))
| step_free h c :                        (* the store of 0 *)
    pcs c h = Leaving ->
    spin_step c (mkConf (goto h Out (pcs c)) (mkSpinlock false (lk_cpu (lk c)))).

Definition init_conf : conf := mkConf (fun _ => Out) (mkSpinlock false None).

Definition inside (p : pc) : bool :=
  match p with Won | Critical | Leaving => true | _ => false end.

(** The lock word is set exactly while some hart is inside, that hart is unique,
    and [lk->cpu] names it exactly while it is in its critical section. *)
Definition lock_inv (c : conf) : Prop :=
  (forall h1 h2, inside (pcs c h1) = true -> inside (pcs c h2) = true -> h1 = h2) /\
  (locked (lk c) = true <-> exists h, inside (pcs c h) = true) /\
  (forall h, lk_cpu (lk c) = Some h <-> pcs c h = Critical).

(** A hart runs a sequence of [push_off]/[pop_off] calls. *)
Inductive off_op := Push | Pop.

Fixpoint run_off (h : nat) (ops : list off_op) : M smp unit :=
  match ops with
  | [] => ret tt
  | Push :: r => push_off h ;; run_off h r
  | Pop :: r => pop_off h ;; run_off h r
  end.

(** How deeply nested the calls are at the end, from depth [d]; [None] if a
    [Pop] has no matching [Push]. *)
Fixpoint depth (d : Z) (ops : list off_op) : option Z :=
  match ops with
  | [] => Some d
  | Push :: r => depth (d + 1) r
  | Pop :: r => if d <? 1 then None else depth (d - 1) r
  end.

(** Hart [h] of the detailed machine holds exactly the locks [hl]. *)
Definition refines (h : nat) (s : smp) (hl : list lockid) : Prop :=
  (forall l, sees_held h (locks s l) = bool_decide (l ∈ hl)) /\
  noff (harts s h) = Z.of_nat (length hl) /\
  (hl <> [] -> sie (harts s h) = false) /\
  NoDup hl.

Lemma goto_eq h p f : goto h p f h = p.
Proof. unfold goto. by rewrite decide_True. Qed.

Lemma goto_ne h p f i : i <> h -> goto h p f i = f i.
Proof. intros. unfold goto. by rewrite decide_False. Qed.

Lemma inside_goto h p f i :
  inside (goto h p f i) = true <-> (i = h /\ inside p = true) \/ (i <> h /\ inside (f i) = true).
Proof.
  destruct (decide (i = h)) as [->|]; [rewrite goto_eq|rewrite goto_ne by done]; intuition congruence.
Qed.

Lemma critical_goto h p f i :
  goto h p f i = Critical <-> (i = h /\ p = Critical) \/ (i <> h /\ f i = Critical).
Proof.
  destruct (decide (i = h)) as [->|]; [rewrite goto_eq|rewrite goto_ne by done]; intuition congruence.
Qed.

Lemma lock_inv_init : lock_inv init_conf.
Proof.
  split; [done|]. split; [split; [done|by intros [??]]|]. intros h. split; done.
Qed.

(** A move that changes neither who is inside nor who is critical. *)
Lemma lock_inv_outside c h p :
  inside (pcs c h) = false -> inside p = false -> lock_inv c ->
  lock_inv (mkConf (goto h p (pcs c)) (lk c)).
Proof.
  intros Hh Hp (Huniq & Hlk & Hcpu).
  assert (Hin : forall i, inside (goto h p (pcs c) i) = true <-> inside (pcs c i) = true).
  { intros i. rewrite inside_goto. destruct (decide (i = h)) as [->|]; [rewrite Hh, Hp|];
    intuition congruence. }
  split; [|split]; cbn.
  - intros h1 h2. rewrite !Hin. apply Huniq.
  - setoid_rewrite Hin. done.
  - intros i. rewrite critical_goto, Hcpu. destruct (decide (i = h)) as [->|]; [|intuition congruence].
    split; [intros E; rewrite E in Hh; done|]. intros [[_ ->]|[? _]]; done.
Qed.

(** A move of the hart that is inside to another place inside. *)
Lemma lock_inv_inside c h p cpu :
  inside (pcs c h) = true -> inside p = true ->
  cpu = (if decide (p = Critical) then Some h else None) -> lock_inv c ->
  lock_inv (mkConf (goto h p (pcs c)) (mkSpinlock (locked (lk c)) cpu)).
Proof.
  intros Hh Hp -> (Huniq & Hlk & Hcpu).
  assert (Hin : forall i, inside (goto h p (pcs c) i) = true <-> i = h).
  { intros i. rewrite inside_goto. split; [|intuition congruence]. intros [[? _]|[_ ?]]; eauto. }
  split; [|split]; cbn.
  - intros h1 h2. rewrite !Hin. congruence.
  - rewrite Hlk. split; intros _; exists h; [by apply Hin|done].
  - intros i. rewrite critical_goto. case_decide as E.
    + split; [intros [= ->]; auto|]. intros [[-> _]|[Hne Hc]]; [done|].
      destruct Hne. apply Huniq; [by rewrite Hc|done].
    + split; [done|]. intros [[_ ?]|[Hne Hc]]; [done|].
      destruct Hne. apply Huniq; [by rewrite Hc|done].
Qed.

Lemma lock_inv_win c h :
  pcs c h = Spinning -> locked (lk c) = false -> lock_inv c ->
  lock_inv (mkConf (goto h Won (pcs c)) (mkSpinlock true (lk_cpu (lk c)))).
Proof.
  intros Hp Hl (Huniq & Hlk & Hcpu).
  assert (Hno : forall i, inside (pcs c i) = false).
  { intros i. destruct (inside (pcs c i)) eqn:E; [|done].
    rewrite (proj2 Hlk) in Hl by eauto. done. }
  assert (Hin : forall i, inside (goto h Won (pcs c) i) = true <-> i = h).
  { intros i. rewrite inside_goto, Hno. simpl. intuition congruence. }
  split; [|split]; cbn.
  - intros h1 h2. rewrite !Hin. congruence.
  - split; [|done]. intros _. exists h. by apply Hin.
  - intros i. rewrite Hcpu, critical_goto. destruct (decide (i = h)) as [->|]; [|intuition congruence].
    rewrite Hp. intuition congruence.
Qed.

Lemma lock_inv_free c h :
  pcs c h = Leaving -> lock_inv c ->
  lock_inv (mkConf (goto h Out (pcs c)) (mkSpinlock false (lk_cpu (lk c)))).
Proof.
  intros Hp (Huniq & Hlk & Hcpu).
  assert (Hh : inside (pcs c h) = true) by (by rewrite Hp).
  assert (Hin : forall i, inside (goto h Out (pcs c) i) = false).
  { intros i. destruct (inside (goto h Out (pcs c) i)) eqn:E; [|done].
    apply inside_goto in E as [[_ ?]|[Hne ?]]; [done|]. destruct Hne. eauto. }
  split; [|split]; cbn.
  - intros h1 h2. by rewrite Hin.
  - split; [done|]. intros [i Hi]. by rewrite Hin in Hi.
  - intros i. rewrite Hcpu, critical_goto. destruct (decide (i = h)) as [->|]; [|intuition congruence].
    rewrite Hp. intuition congruence.
Qed.

Lemma lock_inv_step c c' : spin_step c c' -> lock_inv c -> lock_inv c'.
Proof.
  intros Hs Hinv. destruct Hs as [h c Hp _|h c Hp Hl|h c Hp Hl|h c Hp|h c Hp Hh|h c Hp].
  - by apply lock_inv_outside; [rewrite Hp| |].
  - destruct c as [ps [? ?]]. simpl in *. by subst.
  - by apply lock_inv_win.
  - by apply lock_inv_inside; [rewrite Hp| | |].
  - by apply lock_inv_inside; [rewrite Hp| | |].
  - by apply lock_inv_free.
Qed.

Lemma lock_inv_reachable c : rtc spin_step init_conf c -> lock_inv c.
Proof.
  intros H. assert (Hgen : forall a, rtc spin_step a c -> lock_inv a -> lock_inv c).
  { clear H. induction 1; eauto using lock_inv_step. }
  eauto using lock_inv_init.
Qed.

(** ** push_off and pop_off *)

Lemma harts_set_eq h x s : harts (set_hart h x s) h = x.
Proof. simpl. by rewrite decide_True. Qed.

Lemma harts_set_ne h x s i : i <> h -> harts (set_hart h x s) i = harts s i.
Proof. intros. simpl. by rewrite decide_False. Qed.

Lemma push_off_spec h s :
  exists s', push_off h s = Ok tt s' /\
    harts s' h = mkHart (noff (harts s h) + 1)
                   (if noff (harts s h) =? 0 then sie (harts s h) else intena (harts s h)) false /\
    (forall i, i <> h -> harts s' i = harts s i) /\ locks s' = locks s.
Proof.
  unfold push_off, intr_off, intr_get, gets, modify, bind. simpl. rewrite decide_True by done.
  simpl. destruct (noff (harts s h) =? 0) eqn:E; simpl; (eexists; split; [done|]);
    rewrite ?decide_True by done; simpl; rewrite ?decide_True by done; simpl;
    (split; [done|split; [|done]]); intros i Hi; by rewrite ?decide_False by done.
Qed.

Lemma pop_off_spec h s :
  sie (harts s h) = false -> 1 <= noff (harts s h) ->
  exists s', pop_off h s = Ok tt s' /\
    harts s' h = mkHart (noff (harts s h) - 1) (intena (harts s h))
                   ((noff (harts s h) - 1 =? 0) && intena (harts s h)) /\
    (forall i, i <> h -> harts s' i = harts s i) /\ locks s' = locks s.
Proof.
  intros Hs Hn. unfold pop_off, intr_get, gets, panic_if, modify, bind. simpl. rewrite Hs. simpl.
  replace (noff (harts s h) <? 1) with false by (symmetry; apply Z.ltb_ge; lia). simpl.
  destruct ((noff (harts s h) - 1 =? 0) && intena (harts s h)) eqn:E;
    unfold intr_on, modify; simpl; (eexists; split; [done|]); simpl;
    rewrite ?decide_True by done; simpl; rewrite ?Hs;
    (split; [done|split; [|done]]); intros i Hi; by rewrite ?decide_False by done.
Qed.

Lemma pop_off_locks h s s' : pop_off h s = Ok tt s' -> locks s' = locks s.
Proof.
  unfold pop_off, intr_get, gets, panic_if, modify, bind. simpl.
  destruct (sie (harts s h)); simpl; [done|].
  destruct (noff (harts s h) <? 1); simpl; [done|].
  destruct (_ && _); unfold intr_on, modify; by intros [= <-].
Qed.

Lemma pop_off_unmatched h s :
  noff (harts s h) < 1 ->
  pop_off h s = Panic (if sie (harts s h) then "pop_off - interruptible" else "pop_off").
Proof.
  intros Hn. unfold pop_off, intr_get, gets, panic_if, bind. simpl.
  destruct (sie (harts s h)); simpl; [done|].
  by replace (noff (harts s h) <? 1) with true by (symmetry; apply Z.ltb_lt; lia).
Qed.

(** At depth [d] of nesting begun with interrupts in state [e]. *)
Definition nested (d : Z) (e : bool) (x : hart) : Prop :=
  0 <= d /\ noff x = d /\ sie x = (if d =? 0 then e else false) /\ (0 < d -> intena x = e).

Lemma nested_push h d e s :
  nested d e (harts s h) ->
  exists s', push_off h s = Ok tt s' /\ nested (d + 1) e (harts s' h).
Proof.
  intros (Hd & Hn & Hs & Hi). destruct (push_off_spec h s) as (s' & -> & Hh & _).
  eexists; split; [done|]. rewrite Hh. unfold nested; simpl. rewrite Hn, Hs.
  replace (d + 1 =? 0) with false by (symmetry; apply Z.eqb_neq; lia).
  split; [lia|]. split; [done|]. split; [done|]. intros _.
  destruct (Z.eqb_spec d 0); [done|]. apply Hi. lia.
Qed.

Lemma nested_pop h d e s :
  nested d e (harts s h) -> 1 <= d ->
  exists s', pop_off h s = Ok tt s' /\ nested (d - 1) e (harts s' h).
Proof.
  intros (Hd & Hn & Hs & Hi) H1.
  replace (d =? 0) with false in Hs by (symmetry; apply Z.eqb_neq; lia).
  destruct (pop_off_spec h s Hs) as (s' & -> & Hh & _); [lia|].
  eexists; split; [done|]. rewrite Hh. unfold nested; simpl. rewrite Hn, Hi by lia.
  split; [lia|]. split; [done|]. split; [|done].
  destruct (Z.eqb_spec (d - 1) 0); [done|done].
Qed.

Lemma run_off_nested h ops d e s :
  nested d e (harts s h) ->
  match depth d ops with
  | Some d' => exists s', run_off h ops s = Ok tt s' /\ nested d' e (harts s' h)
  | None => exists msg, run_off h ops s = Panic msg
  end.
Proof.
  revert d s. induction ops as [|[|] ops IH]; intros d s Hn; simpl; [eauto| |].
  - destruct (nested_push h d e s Hn) as (s1 & E & Hn1). rewrite (bind_ok _ _ _ _ _ E).
    by apply IH.
  - destruct (Z.ltb_spec d 1) as [Hd|Hd].
    + eexists. apply bind_panic, pop_off_unmatched. destruct Hn as (_ & -> & _). done.
    + destruct (nested_pop h d e s Hn Hd) as (s1 & E & Hn1). rewrite (bind_ok _ _ _ _ _ E).
      by apply IH.
Qed.

(** ** The interface *)

Lemma locks_set_eq l x s : locks (set_lock l x s) l = x.
Proof. simpl. by rewrite decide_True. Qed.

Lemma locks_set_ne l x s i : i <> l -> locks (set_lock l x s) i = locks s i.
Proof. intros. simpl. by rewrite decide_False. Qed.

Lemma spin_holding_eq h l s : spin_holding h l s = Ok (sees_held h (locks s l)) s.
Proof. done. Qed.

Lemma spin_free fuel l s :
  locked (locks s l) = false ->
  spin fuel l s = Ok tt (set_lock l (mkSpinlock true (lk_cpu (locks s l))) s).
Proof.
  intros H. destruct fuel; simpl; unfold xchg1, gets, modify, bind; simpl; by rewrite H.
Qed.

(** Acquiring a free lock: the lock becomes this hart's, one level deeper. *)
Lemma spin_acquire_free fuel h l s :
  locked (locks s l) = false ->
  exists s', spin_acquire fuel h l s = Ok tt s' /\
    locks s' l = mkSpinlock true (Some h) /\ (forall i, i <> l -> locks s' i = locks s i) /\
    noff (harts s' h) = noff (harts s h) + 1 /\ sie (harts s' h) = false.
Proof.
  intros Hf. unfold spin_acquire.
  destruct (push_off_spec h s) as (s1 & E1 & Hh & _ & Hl). rewrite (bind_ok _ _ _ _ _ E1).
  rewrite (bind_ok _ _ _ _ _ (spin_holding_eq _ _ _)).
  unfold sees_held. rewrite Hl, Hf. simpl.
  unfold panic_if. rewrite (bind_ok _ _ s1 tt s1) by done.
  erewrite bind_ok by (apply spin_free; by rewrite Hl).
  unfold gets, modify, bind. simpl. rewrite decide_True by done. simpl.
  eexists; split; [done|]. simpl. rewrite decide_True by done. rewrite Hl, Hh.
  split; [done|]. split; [|done]. intros i Hi. by rewrite !decide_False by done.
Qed.

Lemma spin_acquire_held fuel h l s :
  sees_held h (locks s l) = true -> spin_acquire fuel h l s = Panic "acquire".
Proof.
  intros Hh. unfold spin_acquire.
  destruct (push_off_spec h s) as (s1 & E1 & _ & _ & Hl). rewrite (bind_ok _ _ _ _ _ E1).
  rewrite (bind_ok _ _ _ _ _ (spin_holding_eq _ _ _)). rewrite Hl, Hh. done.
Qed.

Lemma spin_release_held h l s :
  sees_held h (locks s l) = true -> sie (harts s h) = false -> 1 <= noff (harts s h) ->
  exists s', spin_release h l s = Ok tt s' /\
    locks s' l = mkSpinlock false None /\ (forall i, i <> l -> locks s' i = locks s i) /\
    noff (harts s' h) = noff (harts s h) - 1 /\
    (1 < noff (harts s h) -> sie (harts s' h) = false).
Proof.
  intros Hh Hs Hn. unfold spin_release.
  rewrite (bind_ok _ _ _ _ _ (spin_holding_eq _ _ _)). rewrite Hh. simpl.
  unfold panic_if. rewrite (bind_ok _ _ s tt s) by done.
  unfold gets, modify, bind. simpl. rewrite decide_True by done. simpl.
  match goal with |- context [pop_off h ?x] => set (s1 := x) end.
  assert (Hh1 : harts s1 h = harts s h) by done.
  destruct (pop_off_spec h s1) as (s' & -> & Hx & _ & Hl); rewrite ?Hh1; [done..|].
  exists s'. split; [done|]. rewrite Hl, Hx, Hh1. simpl. rewrite decide_True by done.
  split; [done|]. split; [intros i Hi; by rewrite !decide_False by done|].
  split; [done|]. intros H1. by replace (noff (harts s h) - 1 =? 0) with false
    by (symmetry; apply Z.eqb_neq; lia).
Qed.

Lemma sees_held_free h l hl s : refines h s hl -> locked (locks s l) = false -> l ∉ hl.
Proof.
  intros (Hl & _) Hf Hin. specialize (Hl l). unfold sees_held in Hl. rewrite Hf in Hl. simpl in Hl.
  symmetry in Hl. by apply bool_decide_eq_false in Hl.
Qed.


(** The spinning loop returns only after an exchange that found the lock free. *)
Lemma spin_inv fuel l s s' :
  spin fuel l s = Ok tt s' ->
  locked (locks s l) = false /\ locks s' l = mkSpinlock true (lk_cpu (locks s l)).
Proof.
  revert s. induction fuel as [|n IH]; intros s; simpl;
    unfold xchg1, gets, modify, bind; simpl; destruct (locks s l) as [[] cpu] eqn:E; simpl.
  - done.
  - intros [= <-]. simpl. by rewrite decide_True.
  - intros H. apply IH in H. simpl in H. rewrite decide_True in H by done. by destruct H.
  - intros [= <-]. simpl. by rewrite decide_True.
Qed.

Lemma acquire_refines fuel h l s k :
  refines h s (held k) -> locked (locks s l) = false \/ l ∈ held k ->
  match acquire l k with
  | Ok _ k' => exists s', spin_acquire fuel h l s = Ok tt s' /\ refines h s' (held k')
  | Panic m => spin_acquire fuel h l s = Panic m
  | _ => False
  end.
Proof.
  intros HR Hl. unfold acquire, gets, bind. cbn [obind]. case_decide as Hin.
  - apply spin_acquire_held. destruct HR as (HR & _). rewrite HR. by apply bool_decide_eq_true.
  - destruct Hl as [Hf|]; [|done].
    destruct (spin_acquire_free fuel h l s Hf) as (s' & -> & Hl1 & Hl2 & Hn & Hs).
    eexists; split; [done|]. rs. destruct HR as (HR & Hno & _ & Hnd).
    split; [|split; [|split]].
    + intros i. destruct (decide (i = l)) as [->|Hi].
      * rewrite Hl1. unfold sees_held. simpl. rewrite !bool_decide_eq_true_2; [done|by left|done].
      * rewrite Hl2, HR by done. apply bool_decide_ext. rs. rewrite elem_of_cons. naive_solver.
    + rewrite Hn, Hno. simpl. lia.
    + done.
    + by constructor.
Qed.

Lemma release_refines h l s k :
  refines h s (held k) ->
  match release l k with
  | Ok _ k' => exists s', spin_release h l s = Ok tt s' /\ refines h s' (held k')
  | Panic m => spin_release h l s = Panic m
  | _ => False
  end.
Proof.
  intros (HR & Hno & Hsie & Hnd). unfold release, gets, bind. cbn [obind]. case_decide as Hin.
  - destruct (spin_release_held h l s) as (s' & -> & Hl1 & Hl2 & Hn & Hs).
    { rewrite HR. by apply bool_decide_eq_true. }
    { apply Hsie. intros E. rewrite E in Hin. by apply not_elem_of_nil in Hin. }
    { rewrite Hno. destruct (held k); [by apply not_elem_of_nil in Hin|simpl; lia]. }
    eexists; split; [done|]. rs. pose proof (length_remove_lock l (held k) Hnd Hin) as Hlen.
    split; [|split; [|split]].
    + intros i. destruct (decide (i = l)) as [->|Hi].
      * rewrite Hl1. unfold sees_held. simpl. symmetry. apply bool_decide_eq_false.
        unfold remove_lock. rewrite list_elem_of_filter. naive_solver.
      * rewrite Hl2, HR by done. apply bool_decide_ext. unfold remove_lock.
        rewrite list_elem_of_filter. naive_solver.
    + rewrite Hn, Hno. lia.
    + intros Hne. apply Hs. rewrite Hno.
      destruct (remove_lock l (held k)); simpl in *; [done|lia].
    + by apply NoDup_filter.
  - unfold spin_release. rewrite (bind_ok _ _ _ _ _ (spin_holding_eq _ _ _)), HR.
    by rewrite bool_decide_eq_false_2.
Qed.

(** A run of [acquire] that returns is a path of the step relation from outside
    the lock into its critical section. *)
Lemma spin_acquire_steps fuel h l s s' f :
  f h = Out -> spin_acquire fuel h l s = Ok tt s' ->
  exists g, (forall i, g i = goto h Critical f i) /\
    rtc spin_step (mkConf f (locks s l)) (mkConf g (locks s' l)).
Proof.
  intros Hout. unfold spin_acquire.
  destruct (push_off_spec h s) as (s1 & E1 & _ & _ & Hl). rewrite (bind_ok _ _ _ _ _ E1).
  rewrite (bind_ok _ _ _ _ _ (spin_holding_eq _ _ _)). rewrite Hl.
  destruct (sees_held h (locks s l)) eqn:Hsees; [done|]. unfold panic_if.
  rewrite (bind_ok _ _ s1 tt s1) by done.
  destruct (spin fuel l s1) as [[] s2| | |] eqn:Esp; unfold bind; rewrite Esp; simpl; try done.
  intros [= <-]. destruct (spin_inv fuel l s1 s2 Esp) as [Hf Hl2]. rewrite Hl in *.
  exists (goto h Critical (goto h Won (goto h Spinning f))). split.
  { intros i. unfold goto. by destruct (decide (i = h)). }
  eapply rtc_l; [by apply (step_enter h)|].
  eapply rtc_l; [apply (step_win h); [apply goto_eq|done]|].
  eapply rtc_l; [apply (step_own h); apply goto_eq|]. simpl.
  rewrite decide_True by done. rewrite Hl2. simpl. reflexivity.
Qed.

Lemma spin_release_steps h l s s' f :
  f h = Critical -> spin_release h l s = Ok tt s' ->
  exists g, (forall i, g i = goto h Out f i) /\
    rtc spin_step (mkConf f (locks s l)) (mkConf g (locks s' l)).
Proof.
  intros Hc. unfold spin_release.
  rewrite (bind_ok _ _ _ _ _ (spin_holding_eq _ _ _)).
  destruct (sees_held h (locks s l)) eqn:Hsees; [|done]. unfold panic_if; simpl.
  rewrite (bind_ok _ _ s tt s) by done. unfold gets, modify, bind. simpl.
  rewrite decide_True by done. simpl.
  match goal with |- context [pop_off h ?x] => set (s1 := x) end.
  intros E. apply pop_off_locks in E. exists (goto h Out (goto h Leaving f)). split.
  { intros i. unfold goto. by destruct (decide (i = h)). }
  eapply rtc_l; [by apply (step_leave h)|].
  eapply rtc_l; [apply (step_free h); apply goto_eq|]. simpl.
  rewrite E. unfold s1. simpl. rewrite decide_True by done. reflexivity.
Qed.

(** ** Properties *)

(** C1: spinlocks exclude each other.  However the harts interleave their exchanges
    and stores, at most one of them is in the critical section, and the unlocked
    read in [holding()] is exact: it answers true on a hart exactly when that hart
    is in its critical section. *)
Theorem spinlock_mutual_exclusion c h1 h2 :
  rtc spin_step init_conf c ->
  (pcs c h1 = Critical -> pcs c h2 = Critical -> h1 = h2) /\
  (sees_held h1 (lk c) = true <-> pcs c h1 = Critical).
Proof.
  intros Hr. destruct (lock_inv_reachable c Hr) as (Hu & Hl & Hc). split.
  - intros E1 E2. apply Hu; [by rewrite E1|by rewrite E2].
  - unfold sees_held. rewrite andb_true_iff, bool_decide_eq_true, Hc. split; [naive_solver|].
    intros E. split; [|done]. apply Hl. exists h1. by rewrite E.
Qed.

(** Hart 0 is in its critical section while hart 1 spins. *)
Definition contended : conf :=
  mkConf (goto 1 Spinning (goto 0 Critical (goto 0 Won (goto 0 Spinning (fun _ => Out)))))
    (mkSpinlock true (Some 0%nat)).

Lemma spinlock_mutual_exclusion_witness :
  rtc spin_step init_conf contended /\ sees_held 0 (lk contended) = true.
Proof.
  assert (Hr : rtc spin_step init_conf contended).
  { eapply rtc_l; [by apply (step_enter 0)|].
    eapply rtc_l; [by apply (step_win 0)|].
    eapply rtc_l; [by apply (step_own 0)|].
    eapply rtc_l; [by apply (step_enter 1)|]. reflexivity. }
  split; [exact Hr|]. apply (spinlock_mutual_exclusion contended 0 1 Hr). reflexivity.
Defined.

(** [acquire] and [release] are critical-section entry and exit.  A call of
    [acquire] that returns is a path of the interleaving semantics from outside
    the lock to its critical section, and a call of [release] that returns a path
    from the critical section out. *)
Lemma acquire_release_paths fuel h l s s' f :
  (f h = Out -> spin_acquire fuel h l s = Ok tt s' ->
   exists g, (forall i, g i = goto h Critical f i) /\
     rtc spin_step (mkConf f (locks s l)) (mkConf g (locks s' l))) /\
  (f h = Critical -> spin_release h l s = Ok tt s' ->
   exists g, (forall i, g i = goto h Out f i) /\
     rtc spin_step (mkConf f (locks s l)) (mkConf g (locks s' l))).
Proof. split; intros; [by eapply spin_acquire_steps|by eapply spin_release_steps]. Qed.

Definition smp0 : smp := mkSmp (fun _ => mkHart 0 false true) (fun _ => mkSpinlock false None).

Definition smp_after (o : outcome smp unit) : smp := match o with Ok _ s => s | _ => smp0 end.

(** C37: interrupt-off nesting.  Any sequence of [push_off] and [pop_off] calls on a
    hart that starts with no call pending leaves interrupts off while some call is
    unmatched and restores exactly the interrupt state it started from when all
    are matched; a [pop_off] without a matching [push_off] panics. *)
Theorem push_pop_off_nesting h ops s :
  noff (harts s h) = 0 ->
  match depth 0 ops with
  | Some d => exists s', run_off h ops s = Ok tt s' /\ noff (harts s' h) = d /\
                sie (harts s' h) = (if d =? 0 then sie (harts s h) else false)
  | None => exists msg, run_off h ops s = Panic msg
  end.
Proof.
  intros H0. assert (Hn : nested 0 (sie (harts s h)) (harts s h)).
  { split; [lia|]. split; [done|]. split; [done|lia]. }
  pose proof (run_off_nested h ops 0 _ s Hn) as H.
  destruct (depth 0 ops) as [d|]; [|done].
  destruct H as (s' & -> & _ & Hd & Hs & _). eauto.
Qed.

Lemma push_pop_off_nesting_witness :
  exists s', run_off 1 [Push; Push; Pop; Pop] smp0 = Ok tt s' /\ noff (harts s' 1) = 0 /\
    sie (harts s' 1) = true.
Proof. apply (push_pop_off_nesting 1 [Push; Push; Pop; Pop] smp0). reflexivity. Defined.

(** C36: the lock interface of the rest of the kernel is implemented by the spinlocks.
    If a hart of the detailed machine holds exactly the locks the kernel model says
    its CPU holds, then taking a lock that no other hart has, or releasing one,
    does the same on both sides: the same panics, and again the same set of held
    locks, with [noff] counting them. *)
Theorem lock_interface_refined fuel h l s k :
  refines h s (held k) ->
  (locked (locks s l) = false \/ l ∈ held k ->
   match acquire l k with
   | Ok _ k' => exists s', spin_acquire fuel h l s = Ok tt s' /\ refines h s' (held k')
   | Panic m => spin_acquire fuel h l s = Panic m
   | _ => False
   end) /\
  match release l k with
  | Ok _ k' => exists s', spin_release h l s = Ok tt s' /\ refines h s' (held k')
  | Panic m => spin_release h l s = Panic m
  | _ => False
  end.
Proof. intros HR. split; [intros; by apply acquire_refines|by apply release_refines]. Qed.

Lemma lock_interface_refined_witness :
  refines 0 smp0 (held boot_state) /\
  exists s', spin_acquire 0 0 L_log smp0 = Ok tt s' /\ refines 0 s' [L_log].
Proof.
  assert (HR : refines 0 smp0 (held boot_state)).
  { split; [|split; [reflexivity|split; [done|constructor]]].
    intros l. symmetry. by apply bool_decide_eq_false, not_elem_of_nil. }
  split; [exact HR|].
  destruct (lock_interface_refined 0 0 L_log smp0 boot_state HR) as [H _].
  apply H. left. reflexivity.
Defined.

End Smp.
