(* ===== verification/CString.v ===== *)
(** kernel/string.c: the memory and string routines.

    [memset], [memcmp] and [memmove] act on byte-addressed memory, so that
    overlapping arguments are what they are; [None] is a fault.  The string
    routines take the bytes of the source array; the array is followed by its
    terminating NUL. *)

From stdpp Require Import prelude gmap strings.
From Stdlib Require Import ZArith Lia.
From S2P Require Import Prelude Bytes Params.

Local Open Scope Z_scope.

(** The loop [for (i = 0; i < n; i++) cdst[i] = c]; a byte store keeps the low
    8 bits of [c]. *)
Fixpoint memset_loop (m : memory) (cdst c : Z) (n : nat) : option memory :=
  match n with
  | O => Some m
  | S n' =>
      match m !! cdst with
      | Some _ => memset_loop (<[cdst := u8 c]> m) (cdst + 1) c n'
      | None => None
      end
  end.

Definition memset (m : memory) (dst c n : Z) : option memory := memset_loop m dst c (Z.to_nat n).

Fixpoint memcmp_loop (m : memory) (s1 s2 : Z) (n : nat) : option Z :=
  match n with
  | O => Some 0
  | S n' =>
      match m !! s1, m !! s2 with
      | Some b1, Some b2 => if b1 =? b2 then memcmp_loop m (s1 + 1) (s2 + 1) n' else Some (b1 - b2)
      | _, _ => None
      end
  end.

Definition memcmp (m : memory) (v1 v2 n : Z) : option Z := memcmp_loop m v1 v2 (Z.to_nat n).

(** [while (n-- > 0) *d++ = *s++;] *)
Fixpoint copy_up (m : memory) (d s : Z) (n : nat) : option memory :=
  match n with
  | O => Some m
  | S n' =>
      match m !! s, m !! d with
      | Some b, Some _ => copy_up (<[d := b]> m) (d + 1) (s + 1) n'
      | _, _ => None
      end
  end.

(** [while (n-- > 0) *--d = *--s;] *)
Fixpoint copy_down (m : memory) (d s : Z) (n : nat) : option memory :=
  match n with
  | O => Some m
  | S n' =>
      match m !! (s - 1), m !! (d - 1) with
      | Some b, Some _ => copy_down (<[d - 1 := b]> m) (d - 1) (s - 1) n'
      | _, _ => None
      end
  end.

Definition memmove (m : memory) (dst src n : Z) : option memory :=
  if n =? 0 then Some m
  else if (src <? dst) && (dst <? src + n) then copy_down m (dst + n) (src + n) (Z.to_nat n)
  else copy_up m dst src (Z.to_nat n).

(** The next character of a string, NUL past its end. *)
Definition char_at (s : list Z) : Z := hd 0 s.

Fixpoint strncmp (p q : list Z) (n : nat) : Z :=
  match n with
  | O => 0
  | S n' =>
      if negb (char_at p =? 0) && (char_at p =? char_at q) then strncmp (tl p) (tl q) n'
      else char_at p - char_at q
  end.

(** The bytes that [strncpy(s, t, n)] stores at [s]. *)
Fixpoint strncpy (t : list Z) (n : nat) : list Z :=
  match n with
  | O => []
  | S n' =>
      let c := char_at t in
      c :: (if c =? 0 then replicate n' 0 else strncpy (tl t) n')
  end.

(** The bytes that [safestrcpy(s, t, n)] stores at [s]: the copying loop stops
    after the NUL it copied or when one byte of room is left, and then stores a
    NUL of its own. *)
Fixpoint safestrcpy (t : list Z) (n : nat) : list Z :=
  match n with
  | O => []
  | S O => [0]
  | S n' =>
      let c := char_at t in
      c :: (if c =? 0 then [0] else safestrcpy (tl t) n')
  end.

Fixpoint strlen (s : list Z) : Z :=
  match s with
  | [] => 0
  | c :: s' => if c =? 0 then 0 else 1 + strlen s'
  end.

(** The string an array holds: its bytes up to the first NUL. *)
Fixpoint cstring (s : list Z) : list Z :=
  match s with
  | [] => []
  | c :: s' => if c =? 0 then [] else c :: cstring s'
  end.

(** ** memset, memmove, memcmp *)

Lemma mapped_cons m a n : mapped m a (S n) <-> is_Some (m !! a) /\ mapped m (a + 1) n.
Proof.
  unfold mapped. split.
  - intros H. split; [apply H; lia|]. intros i Hi. apply H. lia.
  - intros [Ha H] i Hi. destruct (decide (i = a)) as [->|]; [done|]. apply H. lia.
Qed.

Lemma mapped_insert m a n i b : mapped m a n -> mapped (<[i := b]> m) a n.
Proof.
  intros H j Hj. destruct (decide (i = j)) as [->|]; [by rewrite lookup_insert_eq; eauto|].
  rewrite lookup_insert_ne by done. by apply H.
Qed.

Lemma memset_loop_spec m a c n :
  mapped m a n -> memset_loop m a c n = Some (store_bytes m a (replicate n (u8 c))).
Proof.
  revert m a. induction n as [|n IH]; intros m a H; cbn [memset_loop replicate store_bytes]; [done|].
  apply mapped_cons in H as [[b ->] H]. apply IH. by apply mapped_insert.
Qed.

Lemma copy_up_spec m d s n l :
  load_bytes m s n = Some l -> mapped m d n -> (d <= s \/ s + Z.of_nat n <= d) ->
  copy_up m d s n = Some (store_bytes m d l).
Proof.
  revert m d s l. induction n as [|n IH]; intros m d s l Hl Hd Hov; cbn [copy_up].
  { simpl in Hl. by injection Hl as <-. }
  cbn [load_bytes] in Hl. destruct (m !! s) as [b|]; [|done].
  destruct (load_bytes m (s + 1) n) as [l'|] eqn:El; [|done]. injection Hl as <-.
  apply mapped_cons in Hd as [[b' ->] Hd]. cbn [store_bytes]. apply IH; [|by apply mapped_insert|lia].
  rewrite <- El. apply load_bytes_ext. intros i Hi. apply lookup_insert_ne. lia.
Qed.

(** Loading one byte more at the end. *)
Lemma load_bytes_snoc m a n l b :
  load_bytes m a n = Some l -> m !! (a + Z.of_nat n) = Some b ->
  load_bytes m a (S n) = Some (l ++ [b]).
Proof.
  intros Hl Hb. pose proof (length_load_bytes _ _ _ _ Hl) as Hlen.
  replace (S n) with (length (l ++ [b])) by (rewrite length_app; simpl; lia).
  apply load_bytes_Some. intros i Hi. rewrite length_app in Hi. simpl in Hi.
  destruct (decide (i = a + Z.of_nat n)) as [->|].
  - rewrite Hb, lookup_app_r by lia. by replace (Z.to_nat _ - _)%nat with 0%nat by lia.
  - rewrite lookup_app_l by lia. subst n. apply (proj1 (load_bytes_Some m a l) Hl). lia.
Qed.

Lemma store_bytes_snoc m a l b :
  store_bytes m a (l ++ [b]) = <[a + Z.of_nat (length l) := b]> (store_bytes m a l).
Proof.
  apply map_eq. intros i. rewrite lookup_insert, !lookup_store_bytes, length_app. simpl.
  destruct (decide (a + Z.of_nat (length l) = i)) as [<-|].
  - rewrite decide_True by lia. rewrite lookup_app_r by lia.
    by replace (Z.to_nat _ - _)%nat with 0%nat by lia.
  - case_decide; case_decide; try lia; [|done]. by rewrite lookup_app_l by lia.
Qed.

Lemma store_bytes_insert m a l i b :
  i < a \/ a + Z.of_nat (length l) <= i ->
  store_bytes (<[i := b]> m) a l = <[i := b]> (store_bytes m a l).
Proof.
  intros H. apply map_eq. intros j. rewrite lookup_insert, !lookup_store_bytes, lookup_insert.
  repeat case_decide; try done; lia.
Qed.

Lemma copy_down_spec m d s n l :
  load_bytes m s n = Some l -> mapped m d n -> s <= d ->
  copy_down m (d + Z.of_nat n) (s + Z.of_nat n) n = Some (store_bytes m d l).
Proof.
  revert m l. induction n as [|n IH]; intros m l Hl Hd Hov; cbn [copy_down].
  { simpl in Hl. by injection Hl as <-. }
  replace (s + Z.of_nat (S n) - 1) with (s + Z.of_nat n) by lia.
  replace (d + Z.of_nat (S n) - 1) with (d + Z.of_nat n) by lia.
  assert (Hlen := length_load_bytes _ _ _ _ Hl).
  destruct (exists_last (l := l)) as (l' & b & ->); [by destruct l|].
  rewrite length_app in Hlen. simpl in Hlen. assert (length l' = n) by lia. subst n.
  assert (Hl' := Hl).
  replace (S (length l')) with (length (l' ++ [b])) in Hl' by (rewrite length_app; simpl; lia).
  rewrite (proj1 (load_bytes_Some m s (l' ++ [b])) Hl') by (rewrite length_app; simpl; lia).
  rewrite lookup_app_r by lia. replace (Z.to_nat _ - _)%nat with 0%nat by lia. simpl.
  destruct (Hd (d + Z.of_nat (length l'))) as [b' ->]; [lia|].
  rewrite store_bytes_snoc, <- store_bytes_insert by lia. apply IH; [|..|done].
  - apply load_bytes_Some. intros i Hi. rewrite lookup_insert_ne by lia.
    rewrite (proj1 (load_bytes_Some m s (l' ++ [b])) Hl') by (rewrite length_app; simpl; lia).
    by rewrite lookup_app_l by lia.
  - apply mapped_insert. eapply mapped_sub; [exact Hd|lia|lia].
Qed.

Lemma memcmp_loop_spec m s1 s2 n l1 l2 :
  load_bytes m s1 n = Some l1 -> load_bytes m s2 n = Some l2 ->
  exists r, memcmp_loop m s1 s2 n = Some r /\
    (r = 0 <-> l1 = l2) /\
    (forall i b1 b2, take i l1 = take i l2 -> l1 !! i = Some b1 -> l2 !! i = Some b2 ->
       b1 <> b2 -> r = b1 - b2).
Proof.
  revert s1 s2 l1 l2. induction n as [|n IH]; intros s1 s2 l1 l2; cbn [load_bytes memcmp_loop].
  { intros [= <-] [= <-]. exists 0. split; [done|]. split; [done|]. intros [|i]; done. }
  destruct (m !! s1) as [b1|]; [|done]. destruct (m !! s2) as [b2|]; [|by destruct (load_bytes _ _ _)].
  destruct (load_bytes m (s1 + 1) n) as [l1'|] eqn:E1; [|done]. intros [= <-].
  destruct (load_bytes m (s2 + 1) n) as [l2'|] eqn:E2; [|done]. intros [= <-].
  destruct (Z.eqb_spec b1 b2) as [->|Hne].
  - destruct (IH _ _ _ _ E1 E2) as (r & Er & H0 & Hi). exists r. split; [done|]. split.
    + rewrite H0. split; [by intros ->|by intros [= ->]].
    + intros [|i] c1 c2; simpl; [naive_solver|]. intros [= Ht]. by apply Hi.
  - exists (b1 - b2). split; [done|]. split; [split; [lia|by intros [= -> _]]|].
    intros [|i] c1 c2; simpl; [by intros _ [= ->] [= ->]|]. by intros [= ->].
Qed.

(** ** Strings *)

Lemma cstring_id n : 0 ∉ n -> cstring n = n.
Proof.
  induction n as [|c n IH]; intros H0; [done|]. apply not_elem_of_cons in H0 as [Hc H0]. cbn [cstring].
  rewrite (proj2 (Z.eqb_neq c 0)) by done. by rewrite IH.
Qed.

Lemma strlen_cstring s : strlen s = Z.of_nat (length (cstring s)).
Proof. induction s as [|c s IH]; simpl; [done|]. destruct (c =? 0); simpl; lia. Qed.

Lemma strncmp_spec p q n : strncmp p q n = 0 <-> take n (cstring p) = take n (cstring q).
Proof.
  revert p q. induction n as [|n IH]; intros p q; [done|]. cbn [strncmp].
  destruct p as [|a p], q as [|b q]; cbn [char_at hd tl cstring].
  - simpl. done.
  - simpl. destruct (Z.eqb_spec b 0); [naive_solver lia|]. split; [lia|done].
  - destruct (Z.eqb_spec a 0) as [->|]; simpl; [done|].
    replace (a =? 0) with false by (symmetry; by apply Z.eqb_neq). split; [lia|done].
  - destruct (Z.eqb_spec a 0) as [->|Ha]; simpl.
    + destruct (Z.eqb_spec b 0) as [->|]; [done|]. split; [lia|done].
    + destruct (Z.eqb_spec a b) as [<-|Hab].
      * replace (a =? 0) with false by (symmetry; by apply Z.eqb_neq). simpl. rewrite IH.
        split; [by intros ->|by intros [= ->]].
      * destruct (Z.eqb_spec b 0) as [->|]; [split; [lia|done]|]. simpl.
        split; [lia|by intros [= -> _]].
Qed.

Lemma length_strncpy t n : length (strncpy t n) = n.
Proof.
  revert t. induction n as [|n IH]; intros t; cbn [strncpy length]; [done|]. f_equal.
  destruct (char_at t =? 0); [apply length_replicate|apply IH].
Qed.

Lemma cstring_replicate0 n : cstring (replicate n 0) = [].
Proof. by destruct n. Qed.

Lemma strncpy_cstring t n : cstring (strncpy t n) = take n (cstring t).
Proof.
  revert t. induction n as [|n IH]; intros t; cbn [strncpy]; [done|].
  destruct t as [|c t]; cbn [char_at hd tl cstring]; [done|].
  destruct (Z.eqb_spec c 0) as [->|Hc]; [done|]. cbn [cstring].
  replace (c =? 0) with false by (symmetry; by apply Z.eqb_neq). simpl. by rewrite IH.
Qed.

Lemma length_safestrcpy t n : (length (safestrcpy t n) <= n)%nat.
Proof.
  revert t. induction n as [|[|n] IH]; intros t; [done|done|].
  change (safestrcpy t (S (S n))) with
    (char_at t :: (if char_at t =? 0 then [0] else safestrcpy (tl t) (S n))).
  specialize (IH (tl t)). destruct (char_at t =? 0); simpl in *; lia.
Qed.

Lemma safestrcpy_cstring t n :
  (0 < n)%nat ->
  cstring (safestrcpy t n) = take (n - 1) (cstring t) /\
  exists j, safestrcpy t n !! j = Some 0.
Proof.
  revert t. induction n as [|[|n] IH]; intros t Hn; [lia| |].
  { split; [by rewrite take_0|by exists 0%nat]. }
  change (safestrcpy t (S (S n))) with
    (char_at t :: (if char_at t =? 0 then [0] else safestrcpy (tl t) (S n))).
  destruct t as [|c t]; cbn [char_at hd tl].
  { split; [done|by exists 0%nat]. }
  destruct (Z.eqb_spec c 0) as [->|Hc]; [split; [done|by exists 0%nat]|].
  destruct (IH t) as [IH1 [j Hj]]; [lia|]. cbn [cstring].
  replace (c =? 0) with false by (symmetry; by apply Z.eqb_neq). split.
  - rewrite IH1. simpl. by rewrite Nat.sub_0_r.
  - by exists (S j).
Qed.

(** ** Properties *)

Lemma memmove_ok m dst src n l :
  0 <= n -> load_bytes m src (Z.to_nat n) = Some l -> mapped m dst (Z.to_nat n) ->
  memmove m dst src n = Some (store_bytes m dst l).
Proof.
  intros Hn Hl Hd. unfold memmove. destruct (Z.eqb_spec n 0) as [->|Hne].
  { simpl in Hl. by injection Hl as <-. }
  destruct (Z.ltb_spec src dst), (Z.ltb_spec dst (src + n)); simpl;
    try (apply copy_up_spec; [done|done|lia]).
  rewrite <- (Z2Nat.id n Hn) at 1 2. by apply copy_down_spec; [| |lia].
Qed.

(** [memmove] copies correctly whatever the overlap.  If the source bytes read
    [l] before the call and the destination is mapped, the memory after the call is
    the old one with exactly [l] at the destination, although the loops move one
    byte at a time within the same memory. *)
Lemma memmove_overlap m dst src n l :
  0 <= n -> load_bytes m src (Z.to_nat n) = Some l -> mapped m dst (Z.to_nat n) ->
  memmove m dst src n = Some (store_bytes m dst l).
Proof. apply memmove_ok. Qed.

(** Stored names compare equal to themselves.  [strncpy(s, t, n)] fills exactly
    the [n] bytes of a directory entry's name field, and [strncmp] of any string
    with that field over [n] bytes is 0 exactly when the two strings agree on their
    first [n] characters. *)
Lemma strncpy_strncmp t t' n :
  length (strncpy t n) = n /\
  (strncmp t' (strncpy t n) n = 0 <-> take n (cstring t') = take n (cstring t)).
Proof.
  split; [apply length_strncpy|]. rewrite strncmp_spec, strncpy_cstring.
  by rewrite take_take, Nat.min_id.
Qed.

(** [safestrcpy] never overruns and always terminates the string.  For a buffer
    of [n] > 0 bytes it writes at most [n] bytes, one of them a NUL, and what the
    buffer then holds as a string is the first [n - 1] characters of the source. *)
Lemma safestrcpy_terminated t n :
  (0 < n)%nat ->
  (length (safestrcpy t n) <= n)%nat /\
  (exists j, safestrcpy t n !! j = Some 0) /\
  cstring (safestrcpy t n) = take (n - 1) (cstring t).
Proof.
  intros Hn. destruct (safestrcpy_cstring t n Hn). eauto using length_safestrcpy.
Qed.
