(* ===== verification/Kalloc.v ===== *)
(** kernel/kalloc.c: the physical page allocator.

    The free list is threaded through the free pages themselves: the first eight
    bytes of a free page hold the address of the next one.  [freelist_at] reads a
    memory as such a list, and the operations are related to a stack of pages. *)

From stdpp Require Import prelude gmap strings.
From Stdlib Require Import ZArith Lia.
From S2P Require Import Prelude Bytes Params State Spinlock CString.

Local Open Scope Z_scope.
Local Open Scope kernel_scope.

(** [memset] on physical memory. *)
Definition kmemset (dst c n : Z) : K unit :=
  fun s => match memset (mem s) dst c n with
           | Some m => Ok tt (s <| mem := m |>)
           | None => Panic "kerneltrap"
           end.

(** A page filled with one byte value. *)
Definition page_of (b : Z) : list Z := replicate 4096 b.

Section kalloc.
Context {L : Linker}.

Definition kfree (pa : Z) : K unit :=
  panic_if (negb (pa mod PGSIZE =? 0) || (pa <? end_) || (PHYSTOP <=? pa)) "kfree" ;;
  kmemset pa 1 PGSIZE ;;                 (* fill with junk to catch dangling refs *)
  acquire L_kmem ;;
  fl <- gets freelist ;;
  store64 pa fl ;;                       (* r->next = kmem.freelist *)
  modify (fun s => s <| freelist := pa |>) ;;
  release L_kmem.

Definition kalloc : K Z :=
  acquire L_kmem ;;
  r <- gets freelist ;;
  (if r =? 0 then ret tt
   else next <- load64 r ;; modify (fun s => s <| freelist := next |>)) ;;
  release L_kmem ;;
  when (negb (r =? 0)) (kmemset r 5 PGSIZE) ;;   (* fill with junk *)
  ret r.

(** The loop [for (; p + PGSIZE <= pa_end; p += PGSIZE) kfree(p)]. *)
Fixpoint freerange_loop (fuel : nat) (p pa_end : Z) : K unit :=
  if p + PGSIZE <=? pa_end then
    match fuel with
    | O => no_fuel
    | S n => kfree p ;; freerange_loop n (p + PGSIZE) pa_end
    end
  else ret tt.

Definition freerange (pa_start pa_end : Z) : K unit :=
  freerange_loop (Z.to_nat ((pa_end - PGROUNDUP pa_start) / PGSIZE)) (PGROUNDUP pa_start) pa_end.

Definition kinit : K unit := freerange end_ PHYSTOP.

(** ** What the free list represents *)

(** [r] is the head of a list of free pages [ps] in memory [m]. *)
Fixpoint freelist_at (m : memory) (r : Z) (ps : list Z) : Prop :=
  match ps with
  | [] => r = 0
  | p :: ps' => r = p /\ exists l, load_bytes m p 8 = Some l /\ freelist_at m (le_decode l) ps'
  end.

(** A page the allocator may manage: aligned, and between [end] and [PHYSTOP]. *)
Definition valid_page (p : Z) : Prop := p mod PGSIZE = 0 /\ end_ <= p < PHYSTOP.

Definition page_mapped (m : memory) (p : Z) : Prop := mapped m p 4096.

(** The allocator's invariant: the free list is [ps], without repetition. *)
Definition kmem_at (m : memory) (fl : Z) (ps : list Z) : Prop :=
  freelist_at m fl ps /\ NoDup ps /\ Forall valid_page ps /\ Forall (page_mapped m) ps.

Definition kmem_inv (s : kstate) (ps : list Z) : Prop := kmem_at (mem s) (freelist s) ps.

(** ** Clients of the allocator

    A client allocates pages, gives back pages it has, and stores into pages it
    has; [alloc] is what it has. *)
Inductive kop := Kalloc | Kfree (p : Z) | Kwrite (a : Z) (l : list Z).

Definition kop_ok (alloc : list Z) (o : kop) : Prop :=
  match o with
  | Kalloc => True
  | Kfree p => p ∈ alloc
  | Kwrite a l => exists p, p ∈ alloc /\ p <= a /\ a + Z.of_nat (length l) <= p + PGSIZE
  end.

Definition run_kop (o : kop) (alloc : list Z) : K (list Z) :=
  match o with
  | Kalloc => r <- kalloc ;; ret (if r =? 0 then alloc else r :: alloc)
  | Kfree p => kfree p ;; ret (remove Z.eq_dec p alloc)
  | Kwrite a l => store a l ;; ret alloc
  end.

(** A run in which every operation is one the client is entitled to. *)
Inductive kops_run : list kop -> list Z -> kstate -> list Z -> kstate -> Prop :=
| kops_nil alloc s : kops_run [] alloc s alloc s
| kops_cons o ops alloc s alloc1 s1 alloc2 s2 :
    kop_ok alloc o -> run_kop o alloc s = Ok alloc1 s1 ->
    kops_run ops alloc1 s1 alloc2 s2 -> kops_run (o :: ops) alloc s alloc2 s2.

(** The pages [all] are split between the free list and the client. *)
Definition kworld (all alloc : list Z) (s : kstate) : Prop :=
  exists ps, kmem_inv s ps /\ ps ++ alloc ≡ₚ all /\ NoDup all /\
    Forall valid_page all /\ Forall (page_mapped (mem s)) all /\ L_kmem ∉ held s.

(** The pages of the client that an operation may change. *)
Definition kop_touches (o : kop) (q : Z) : Prop :=
  match o with
  | Kalloc => False
  | Kfree p => q = p
  | Kwrite a l => q <= a < q + PGSIZE
  end.

(** The page at [p] has the same bytes in [m] and [m']. *)
Definition same_page (m m' : memory) (p : Z) : Prop :=
  forall i, p <= i < p + PGSIZE -> m' !! i = m !! i.

(** ** Lemmas *)

Context {LOk : LinkerOk L}.

Lemma valid_page_pos p : valid_page p -> 0 < p < 2 ^ 56 /\ p mod 4096 = 0.
Proof.
  intros [Ha Hr]. destruct (end_range (L := L)). unfold KERNBASE, PHYSTOP, PGSIZE in *. 
  unfold KERNBASE in *. lia.
Qed.

Lemma pages_disjoint p q i :
  valid_page p -> valid_page q -> p <> q -> p <= i < p + 4096 -> ~ (q <= i < q + 4096).
Proof.
  intros Hp%valid_page_pos Hq%valid_page_pos Hne Hi Hj.
  pose proof (Z.div_mod p 4096). pose proof (Z.div_mod q 4096). lia.
Qed.

Lemma freelist_at_frame m m' r ps :
  (forall p i, p ∈ ps -> p <= i < p + 8 -> m !! i = m' !! i) ->
  freelist_at m r ps -> freelist_at m' r ps.
Proof.
  revert r. induction ps as [|p ps IH]; intros r Hf; [done|]. intros [-> (l & Hl & H)].
  split; [done|]. exists l. split.
  - rewrite <- Hl. symmetry. apply load_bytes_ext. intros i Hi. apply (Hf p); [left|lia].
  - apply IH; [|done]. intros q i Hq. apply Hf. by right.
Qed.

Lemma kmemset_ok s p c :
  page_mapped (mem s) p ->
  kmemset p c PGSIZE s = Ok tt (s <| mem := store_bytes (mem s) p (page_of (u8 c)) |>).
Proof.
  intros H. unfold kmemset, memset. change (Z.to_nat PGSIZE) with 4096%nat.
  rewrite memset_loop_spec by done. reflexivity.
Qed.

Lemma length_page_of b : length (page_of b) = 4096%nat.
Proof. apply length_replicate. Qed.

Lemma lookup_page_of b i : (i < 4096)%nat -> page_of b !! i = Some b.
Proof. intros H. by apply lookup_replicate_2. Qed.

#[global] Opaque page_of.

(** The memory after [kfree(pa)] on the free list [fl]. *)
Definition kfree_mem (m : memory) (pa fl : Z) : memory :=
  store_bytes (store_bytes m pa (page_of 1)) pa (le_encode 8 fl).

Lemma kfree_ok s pa :
  valid_page pa -> page_mapped (mem s) pa -> L_kmem ∉ held s ->
  kfree pa s = Ok tt (s <| mem := kfree_mem (mem s) pa (freelist s) |> <| freelist := pa |>).
Proof.
  intros [Ha Hr] Hm Hl.
  assert (Hwp : wp (kfree pa) (fun _ s' => s' =
     s <| mem := kfree_mem (mem s) pa (freelist s) |> <| freelist := pa |>) s).
  { unfold kfree. wstep. wstep.
    { rewrite Ha. apply orb_false_iff. split; [|apply Z.leb_gt; lia].
      apply orb_false_iff. split; [done|]. apply Z.ltb_ge. lia. }
    wstep. eapply wp_eq; [by apply kmemset_ok|]. cbv beta. wsteps.
    eapply wp_eq.
    { apply store64_ok. rs. apply mapped_store. eapply mapped_sub; [exact Hm|lia|lia]. }
    cbv beta. wsteps. rs. st_eq s. }
  apply wp_inv in Hwp as ([] & s' & -> & ->). done.
Qed.

Lemma kalloc_empty s : freelist s = 0 -> L_kmem ∉ held s -> kalloc s = Ok 0 s.
Proof.
  intros Hf Hl. assert (Hwp : wp kalloc (fun r s' => r = 0 /\ s' = s) s).
  { unfold kalloc. wsteps. rs. rewrite Hf. simpl. wsteps. split; [done|]. rs. st_eq s. }
  apply wp_inv in Hwp as (r & s' & -> & -> & ->). done.
Qed.

Lemma kalloc_ok s p l :
  freelist s = p -> valid_page p -> page_mapped (mem s) p -> L_kmem ∉ held s ->
  load_bytes (mem s) p 8 = Some l ->
  kalloc s = Ok p (s <| mem := store_bytes (mem s) p (page_of 5) |>
                     <| freelist := le_decode l |>).
Proof.
  intros Hf Hv Hm Hl Hn. pose proof (valid_page_pos p Hv) as [Hp _].
  assert (Hwp : wp kalloc (fun r s' => r = p /\ s' =
    s <| mem := store_bytes (mem s) p (page_of 5) |> <| freelist := le_decode l |>) s).
  { unfold kalloc. wsteps. rs. rewrite Hf.
    replace (p =? 0) with false by (symmetry; apply Z.eqb_neq; lia). simpl. wsteps.
    eapply wp_eq; [apply load64_ok; rs; exact Hn|]. cbv beta. wsteps.
    eapply wp_eq; [apply kmemset_ok; rs; exact Hm|]. cbv beta. wsteps.
    split; [done|]. rs. st_eq s. }
  apply wp_inv in Hwp as (r & s' & -> & -> & ->). done.
Qed.

Lemma valid_pages_aligned_frame p q m l off :
  valid_page p -> valid_page q -> p <> q -> 0 <= off -> off + Z.of_nat (length l) <= 4096 ->
  same_page m (store_bytes m (p + off) l) q.
Proof.
  intros Hp Hq Hne Ho Hl i Hi. rewrite lookup_store_bytes. rewrite decide_False; [done|].
  intros Hc. apply (pages_disjoint p q i Hp Hq Hne); unfold PGSIZE in *; lia.
Qed.

Lemma kfree_mem_frame m p fl q :
  valid_page p -> valid_page q -> p <> q -> same_page m (kfree_mem m p fl) q.
Proof.
  intros Hp Hq Hne i Hi. unfold kfree_mem.
  pose proof (valid_pages_aligned_frame p q (store_bytes m p (page_of 1)) (le_encode 8 fl) 0
                Hp Hq Hne) as H1.
  pose proof (valid_pages_aligned_frame p q m (page_of 1) 0 Hp Hq Hne) as H2.
  rewrite Z.add_0_r in H1, H2. rewrite length_le_encode in H1. rewrite length_page_of in H2.
  rewrite H1 by (done || lia). apply H2; done || lia.
Qed.

Lemma same_page_freelist m m' r ps :
  (forall p, p ∈ ps -> same_page m m' p) -> freelist_at m r ps -> freelist_at m' r ps.
Proof.
  intros H. apply freelist_at_frame. intros p i Hp Hi. symmetry.
  apply (H p Hp). unfold PGSIZE. lia.
Qed.

Lemma mapped_kfree_mem m p fl q : page_mapped m q -> page_mapped (kfree_mem m p fl) q.
Proof. intros H. by do 2 apply mapped_store. Qed.

(** The memory after [kfree(p)] has [p] at the head of the list. *)
Lemma freelist_at_push m p r ps :
  valid_page p -> p ∉ ps -> Forall valid_page ps -> 0 <= r < 2 ^ 64 ->
  freelist_at m r ps -> freelist_at (kfree_mem m p r) p (p :: ps).
Proof.
  intros Hp Hn Hv Hr Hf. split; [done|]. exists (le_encode 8 r). split.
  - unfold kfree_mem. by rewrite <- (length_le_encode 8 r) at 2; rewrite load_store_same.
  - rewrite le_decode_encode_small by (simpl; lia). eapply same_page_freelist; [|done].
    intros q Hq. rewrite Forall_forall in Hv. apply kfree_mem_frame; [done|by apply Hv|].
    intros ->. done.
Qed.

Lemma freelist_at_range m r ps : Forall valid_page ps -> freelist_at m r ps -> 0 <= r < 2 ^ 64.
Proof.
  intros Hv H. destruct ps as [|p ps]; simpl in H; [lia|]. destruct H as [-> _].
  apply Forall_cons in Hv as [Hp _]. apply valid_page_pos in Hp. lia.
Qed.

Lemma kmem_at_kfree m fl ps p :
  kmem_at m fl ps -> valid_page p -> page_mapped m p -> p ∉ ps ->
  kmem_at (kfree_mem m p fl) p (p :: ps).
Proof.
  intros (Hf & Hnd & Hv & Hm) Hp Hpm Hn. split; [|split; [|split]].
  - apply freelist_at_push; try done. by eapply freelist_at_range.
  - by constructor.
  - by constructor.
  - constructor; [by apply mapped_kfree_mem|].
    eapply Forall_impl; [exact Hm|]. intros q. apply mapped_kfree_mem.
Qed.

Lemma kmem_inv_kfree s ps p :
  kmem_inv s ps -> valid_page p -> page_mapped (mem s) p -> p ∉ ps ->
  kmem_inv (s <| mem := kfree_mem (mem s) p (freelist s) |> <| freelist := p |>) (p :: ps).
Proof. intros. unfold kmem_inv. rs. by apply kmem_at_kfree. Qed.

Lemma store_page_frame m p b q :
  valid_page p -> valid_page q -> p <> q -> same_page m (store_bytes m p (page_of b)) q.
Proof.
  intros Hp Hq Hne. rewrite <- (Z.add_0_r p).
  apply valid_pages_aligned_frame; rewrite ?length_page_of; done.
Qed.

Lemma kmem_at_kalloc m fl p l ps :
  kmem_at m fl (p :: ps) -> load_bytes m p 8 = Some l ->
  kmem_at (store_bytes m p (page_of 5)) (le_decode l) ps.
Proof.
  intros ([_ (l' & Hl' & Hf)] & Hnd & Hv & Hm) Hl. rewrite Hl in Hl'. injection Hl' as <-.
  apply NoDup_cons in Hnd as [Hn Hnd]. apply Forall_cons in Hv as [Hp Hv].
  apply Forall_cons in Hm as [Hpm Hm].
  split; [|split; [|split]]; try done.
  - eapply same_page_freelist; [|done]. intros q Hq. rewrite Forall_forall in Hv.
    apply store_page_frame; auto. by intros ->.
  - eapply Forall_impl; [exact Hm|]. intros q Hq. by apply mapped_store.
Qed.

Lemma kmem_inv_kalloc s p l ps :
  kmem_inv s (p :: ps) -> load_bytes (mem s) p 8 = Some l ->
  kmem_inv (s <| mem := store_bytes (mem s) p (page_of 5) |> <| freelist := le_decode l |>) ps.
Proof. intros. unfold kmem_inv. rs. by eapply kmem_at_kalloc. Qed.

Lemma perm_remove (p : Z) l : NoDup l -> p ∈ l -> p :: remove Z.eq_dec p l ≡ₚ l.
Proof.
  induction 1 as [|x l Hx Hnd IH]; [by intros ?%not_elem_of_nil|]. intros Hp. simpl.
  destruct (Z.eq_dec p x) as [->|Hne].
  - rewrite notin_remove; [done|]. by rewrite <- list_elem_of_In.
  - apply elem_of_cons in Hp as [->|Hp]; [done|].
    rewrite Permutation_swap. by rewrite IH.
Qed.

Lemma kmem_at_store m fl ps a l p :
  kmem_at m fl ps -> valid_page p -> p ∉ ps -> p <= a -> a + Z.of_nat (length l) <= p + 4096 ->
  kmem_at (store_bytes m a l) fl ps.
Proof.
  intros (Hf & Hnd & Hv & Hm) Hp Hn H1 H2. split; [|split; [|split]]; try done.
  - eapply same_page_freelist; [|done]. intros q Hq. rewrite Forall_forall in Hv.
    replace a with (p + (a - p)) by lia.
    apply valid_pages_aligned_frame; try done; [by apply Hv|by intros ->|lia|lia].
  - eapply Forall_impl; [exact Hm|]. intros q. apply mapped_store.
Qed.

Lemma kmem_inv_store s ps a l p :
  kmem_inv s ps -> valid_page p -> p ∉ ps -> p <= a -> a + Z.of_nat (length l) <= p + 4096 ->
  kmem_inv (s <| mem := store_bytes (mem s) a l |>) ps.
Proof. intros. unfold kmem_inv. rs. by apply (kmem_at_store _ _ _ _ _ p). Qed.

Lemma kworld_kalloc all alloc s :
  kworld all alloc s ->
  exists alloc' s', run_kop Kalloc alloc s = Ok alloc' s' /\ kworld all alloc' s' /\
    (forall q, q ∈ alloc -> ~ kop_touches Kalloc q -> same_page (mem s) (mem s') q).
Proof.
  intros (ps & HI & Hp & Hnd & Hv & Hm & Hl). unfold run_kop. destruct ps as [|p ps].
  - destruct HI as (Hf & HI). run (kalloc_empty s Hf Hl).
    exists alloc, s. split; [done|]. split; [by exists []|done].
  - assert (Hin : p ∈ all) by (rewrite <- Hp; left).
    pose proof HI as ([Hf (l & Hload & _)] & _).
    rewrite Forall_forall in Hv, Hm. pose proof (valid_page_pos p (Hv p Hin)) as [Hpp _].
    run (kalloc_ok s p l Hf (Hv p Hin) (Hm p Hin) Hl Hload).
    eexists _, _. split; [done|]. rewrite (proj2 (Z.eqb_neq p 0)) by lia. split.
    2: { intros q Hq _. rs. apply store_page_frame; [by apply Hv|apply Hv; rewrite <- Hp; set_solver|].
         intros ->. rewrite <- Hp in Hnd. apply NoDup_cons in Hnd as [Hnd _]. set_solver. }
    exists ps. split; [by apply kmem_inv_kalloc|].
    split; [by rewrite <- Hp; simpl; rewrite Permutation_middle|]. rewrite !Forall_forall. rs.
    split; [done|]. split; [done|]. split; [|done].
    intros q Hq. apply mapped_store. by apply Hm.
Qed.

Lemma kworld_kfree all alloc s p :
  kworld all alloc s -> p ∈ alloc ->
  exists alloc' s', run_kop (Kfree p) alloc s = Ok alloc' s' /\ kworld all alloc' s' /\
    (forall q, q ∈ alloc -> ~ kop_touches (Kfree p) q -> same_page (mem s) (mem s') q).
Proof.
  intros (ps & HI & Hp & Hnd & Hv & Hm & Hl) Hin. unfold run_kop.
  assert (Hall : p ∈ all) by (rewrite <- Hp; apply elem_of_app; by right).
  rewrite <- Hp in Hnd. pose proof (proj1 (NoDup_app _ _) Hnd) as (Hnd1 & Hd & Hnd2).
  assert (Hps : p ∉ ps) by (intros H; by apply (Hd p H)).
  rewrite Forall_forall in Hv, Hm.
  run (kfree_ok s p (Hv p Hall) (Hm p Hall) Hl).
  eexists _, _. split; [done|]. split.
  2: { intros q Hq Hne. rs. apply kfree_mem_frame; [by apply Hv| |by intros ->].
       apply Hv. rewrite <- Hp. set_solver. }
  exists (p :: ps). split; [apply kmem_inv_kfree; auto|].
  split; [by rewrite <- Hp; simpl; rewrite Permutation_middle, perm_remove|].
  split; [by rewrite <- Hp|].
  rewrite !Forall_forall. rs. split; [done|]. split; [|done].
  intros q Hq. apply mapped_kfree_mem. by apply Hm.
Qed.

Lemma kworld_write all alloc s a l :
  kworld all alloc s -> kop_ok alloc (Kwrite a l) ->
  exists alloc' s', run_kop (Kwrite a l) alloc s = Ok alloc' s' /\ kworld all alloc' s' /\
    (forall q, q ∈ alloc -> ~ kop_touches (Kwrite a l) q -> same_page (mem s) (mem s') q).
Proof.
  intros (ps & HI & Hp & Hnd & Hv & Hm & Hl) (p & Hin & H1 & H2). unfold run_kop.
  assert (Hall : p ∈ all) by (rewrite <- Hp; apply elem_of_app; by right).
  assert (Hps : p ∉ ps).
  { intros H. rewrite <- Hp in Hnd. apply NoDup_app in Hnd as (_ & Hd & _). by apply (Hd p H). }
  rewrite Forall_forall in Hv, Hm. unfold PGSIZE in H2.
  assert (Hml : mapped (mem s) a (length l)).
  { eapply mapped_sub; [apply (Hm p Hall)|lia|lia]. }
  run (store_ok a l s Hml). eexists _, _. split; [done|]. split.
  2: { intros q Hq Hne. rs. destruct l as [|b l]; [done|]. replace a with (p + (a - p)) by lia.
       apply valid_pages_aligned_frame; [by apply Hv|apply Hv; rewrite <- Hp; set_solver| |lia|lia].
       intros ->. apply Hne. cbn [length] in *. unfold kop_touches, PGSIZE in *. lia. }
  exists ps. split; [by apply (kmem_inv_store s ps a l p); auto|].
  rewrite !Forall_forall. rs. do 3 (split; [done|]). split; [|done].
  intros q Hq. apply mapped_store. by apply Hm.
Qed.

Lemma kworld_op all alloc s o :
  kworld all alloc s -> kop_ok alloc o ->
  exists alloc' s', run_kop o alloc s = Ok alloc' s' /\ kworld all alloc' s' /\
    (forall q, q ∈ alloc -> ~ kop_touches o q -> same_page (mem s) (mem s') q).
Proof.
  destruct o; intros HI Ho; [by apply kworld_kalloc|by apply kworld_kfree|by apply kworld_write].
Qed.

Lemma freerange_loop_ok n p pa_end s ps :
  (Z.to_nat ((pa_end - p) / PGSIZE) <= n)%nat -> p mod PGSIZE = 0 -> end_ <= p ->
  pa_end <= PHYSTOP -> (forall i, p <= i < pa_end -> is_Some (mem s !! i)) ->
  kmem_inv s ps -> (forall q, q ∈ ps -> q < p) -> L_kmem ∉ held s ->
  exists s' ps', freerange_loop n p pa_end s = Ok tt s' /\ kmem_inv s' ps' /\ held s' = held s /\
    forall q, q ∈ ps' <-> q ∈ ps \/ (q mod PGSIZE = 0 /\ p <= q /\ q + PGSIZE <= pa_end).
Proof.
  revert p s ps. induction n as [|n IH]; intros p s ps Hn Ha He Hend Hm HI Hps Hl; cbn [freerange_loop];
    (destruct (Z.leb_spec (p + PGSIZE) pa_end) as [Hle|Hgt];
     [|exists s, ps; do 3 (split; [done|]); intros q; unfold PGSIZE in *; split;
       [by left|intros [|]; [done|lia]]]).
  - assert (1 <= (pa_end - p) / PGSIZE) by (apply Z.div_le_lower_bound; unfold PGSIZE in *; lia).
    lia.
  - assert (Hv : valid_page p) by (unfold valid_page, PGSIZE in *; lia).
    assert (Hpm : page_mapped (mem s) p).
    { intros i Hi. apply Hm. unfold PGSIZE in *. lia. }
    run (kfree_ok s p Hv Hpm Hl).
    destruct (IH (p + PGSIZE)
                (s <| mem := kfree_mem (mem s) p (freelist s) |> <| freelist := p |>) (p :: ps))
      as (s' & ps' & Hrun & HI' & Hh & Hq).
    + replace (pa_end - (p + PGSIZE)) with (pa_end - p + (-1) * PGSIZE) by lia.
      rewrite Z.div_add by (unfold PGSIZE; lia). lia.
    + unfold PGSIZE in *. rewrite <- Zplus_mod_idemp_r, Z_mod_same_full, Z.add_0_r. done.
    + unfold PGSIZE; lia.
    + done.
    + rs. intros i Hi. assert (mapped (kfree_mem (mem s) p (freelist s)) i 1) as H1.
      { do 2 apply mapped_store. intros j Hj. apply Hm. unfold PGSIZE in *; lia. }
      apply H1. lia.
    + apply kmem_inv_kfree; try done. intros H. specialize (Hps p H). lia.
    + intros q. rewrite elem_of_cons. unfold PGSIZE. intros [->|Hq%Hps]; lia.
    + by rs.
    + exists s', ps'. split; [done|]. split; [done|]. split; [by rewrite Hh; rs|].
      intros q. rewrite Hq, elem_of_cons. unfold PGSIZE in *. split.
      * intros [[->|]|]; [right; lia|by left|right; lia].
      * intros [|(Hqa & Hqb & Hqc)]; [by left; right|].
        destruct (decide (q = p)); [by left; left|].
        right. pose proof (Z.div_mod q 4096). pose proof (Z.div_mod p 4096). lia.
Qed.

Lemma kinit_ok s :
  freelist s = 0 -> held s = [] ->
  (forall i, end_ <= i < PHYSTOP -> is_Some (mem s !! i)) ->
  exists s' ps, kinit s = Ok tt s' /\ kmem_inv s' ps /\ held s' = [] /\
    forall p, p ∈ ps <-> valid_page p.
Proof.
  intros Hf Hh Hm. unfold kinit, freerange.
  destruct (end_range (L := L)) as [He1 He2]. unfold KERNBASE in *.
  destruct (PGROUNDUP_spec end_) as [Ha Hr];
    [unfold PHYSTOP, KERNBASE, PGSIZE in *; lia|].
  edestruct (freerange_loop_ok (Z.to_nat ((PHYSTOP - PGROUNDUP end_) / PGSIZE))
    (PGROUNDUP end_) PHYSTOP s []) as (s' & ps & Hrun & HI & Hh' & Hps);
    try done; [lia| | | | |].
  - intros i Hi. apply Hm. lia.
  - split; [done|]. by repeat split; constructor.
  - intros q Hq. by apply not_elem_of_nil in Hq.
  - rewrite Hh. apply not_elem_of_nil.
  - exists s', ps. split; [done|]. split; [done|]. split; [congruence|].
    intros p. rewrite Hps, elem_of_nil. unfold valid_page, PGSIZE in *. split.
    + intros [[]|]. lia.
    + intros [Hpa Hpr]. right. split; [done|].
      pose proof (Z.div_mod (PGROUNDUP end_) 4096). pose proof (Z.div_mod p 4096).
      assert (PHYSTOP = 4096 * 557056) by done. lia.
Qed.

(** C5: From any state in which the pages between [end] and [PHYSTOP] are
    split between the free list and a client, whatever sequence of [kalloc], [kfree] of
    pages it owns and stores into pages it owns the client performs, the two sides still
    partition exactly the same pages (none is handed out twice, none is lost), the next
    operation it is entitled to succeeds without a panic, and that operation leaves
    the bytes of every other page the client owns alone. *)
Theorem kalloc_clients_safe all ops alloc s alloc' s' :
  kworld all alloc s -> kops_run ops alloc s alloc' s' ->
  kworld all alloc' s' /\
  forall o, kop_ok alloc' o -> exists alloc'' s'',
    run_kop o alloc' s' = Ok alloc'' s'' /\ kworld all alloc'' s'' /\
    forall q, q ∈ alloc' -> ~ kop_touches o q -> same_page (mem s') (mem s'') q.
Proof.
  intros HW Hrun. induction Hrun as [alloc s|o ops alloc s alloc1 s1 alloc2 s2 Ho Hop _ IH].
  - split; [done|]. intros o. by apply kworld_op.
  - apply IH. destruct (kworld_op all alloc s o HW Ho) as (a & t & E & HW' & _).
    rewrite Hop in E. by injection E as -> ->.
Qed.

(** [kinit] run at boot, when the memory above the kernel is free, puts on the
    free list every page-aligned page between [end] and [PHYSTOP], each exactly once,
    and nothing else. *)
Lemma kinit_frees_all s :
  freelist s = 0 -> held s = [] ->
  (forall i, end_ <= i < PHYSTOP -> is_Some (mem s !! i)) ->
  exists s' ps, kinit s = Ok tt s' /\ kmem_inv s' ps /\ held s' = [] /\
    forall p, p ∈ ps <-> valid_page p.
Proof. apply kinit_ok. Qed.

End kalloc.

(** ** Witnesses: a kernel that leaves 32 free pages *)

Module Small.

#[export] Instance linker : Linker :=
  {| end_ := PHYSTOP - 32 * 4096; etext := KERNBASE + 8192; trampoline := KERNBASE + 4096;
     uservec_off := 0; userret_off := 256; usertrap_addr := KERNBASE; forkret_addr := KERNBASE;
     kernelvec_addr := KERNBASE |}.

#[export] Instance linker_ok : LinkerOk linker.
Proof. split; vm_compute; intuition congruence. Qed.

(** The state at boot, with the memory above the kernel. *)
Definition machine : kstate :=
  boot_state <| mem := store_bytes ∅ (PHYSTOP - 32 * 4096) (replicate (Z.to_nat (32 * 4096)) 0) |>.

Lemma machine_mapped i : end_ <= i < PHYSTOP -> is_Some (mem machine !! i).
Proof.
  unfold end_, linker. intros Hi. unfold machine. rs.
  rewrite lookup_store_bytes, length_replicate.
  rewrite decide_True by lia. apply lookup_lt_is_Some. rewrite length_replicate. lia.
Qed.

(** A page at the top of memory. *)
Definition page1 : Z := PHYSTOP - 4096.

Lemma page1_valid : valid_page page1.
Proof. by split. Qed.

Lemma booted : exists s p ps, kmem_inv s (p :: ps) /\ held s = [] /\ forall q, q ∈ p :: ps <-> valid_page q.
Proof.
  destruct (kinit_ok machine) as (s & ps & _ & HI & Hh & Hps);
    [reflexivity|reflexivity|apply machine_mapped|].
  destruct ps as [|p ps]; [|by exists s, p, ps].
  exfalso. apply (not_elem_of_nil page1), Hps, page1_valid.
Qed.

(** All of them are free. *)
Lemma booted_pages : exists s ps, kmem_inv s ps /\ (32 <= length ps)%nat.
Proof.
  destruct booted as (s & p & ps & HK & _ & Hps). exists s, (p :: ps). split; [done|].
  set (l := (fun k => PHYSTOP - 4096 * (k + 1)) <$> seqZ 0 32). change 32%nat with (length l).
  apply submseteq_length, NoDup_submseteq; [by compute_done|]. intros q Hq. apply Hps.
  assert (Hall : Forall (fun q => (q mod PGSIZE =? 0) && (end_ <=? q) && (q <? PHYSTOP) = true) l) by (by compute_done).
  rewrite Forall_forall in Hall. specialize (Hall q Hq). unfold valid_page. lia.
Qed.

Lemma page1_world : kworld [page1] [page1] machine.
Proof.
  exists []. split; [by repeat split; constructor|]. split; [done|].
  split; [apply NoDup_singleton|]. split; [apply Forall_singleton, page1_valid|].
  split; [|by apply not_elem_of_nil].
  constructor; [|done]. intros i Hi. apply machine_mapped. unfold page1, end_, linker in *. lia.
Qed.

Lemma kalloc_clients_safe_witness :
  kworld [page1] [page1] machine /\ kop_ok [page1] (Kfree page1) /\
  exists alloc'' s'', run_kop (Kfree page1) [page1] machine = Ok alloc'' s'' /\
    kworld [page1] alloc'' s'' /\
    forall q, q ∈ [page1] -> ~ kop_touches (Kfree page1) q ->
      same_page (mem machine) (mem s'') q.
Proof.
  split; [apply page1_world|]. split; [left|].
  destruct (kalloc_clients_safe [page1] [] [page1] machine [page1] machine) as [_ H].
  - apply page1_world.
  - constructor.
  - apply (H (Kfree page1)). left.
Defined.

End Small.
