(* ===== verification/Uart.v ===== *)
(** kernel/uart.c: the registers of the 16550a UART and polled output.

    The device is seen through its registers: a write to THR sends a byte
    ([uart_tx]), a read of RHR takes the oldest received byte ([uart_rx]), and a
    read of LSR reports whether input is waiting and, through [uart_busy], whether
    the transmitter can take another byte at that moment. *)

From stdpp Require Import prelude gmap strings.
From Stdlib Require Import ZArith Lia.
From S2P Require Import Prelude Bytes Params State Spinlock.

Local Open Scope Z_scope.
Local Open Scope kernel_scope.

Definition LSR_RX_READY : Z := Z.shiftl 1 0.
Definition LSR_TX_IDLE : Z := Z.shiftl 1 5.

(** [ReadReg(LSR)] *)
Definition read_lsr : K Z :=
  rx <- gets uart_rx ;;
  busy <- gets uart_busy ;;
  modify (fun s => s <| uart_busy := tail busy |>) ;;
  ret (Z.lor (match rx with [] => 0 | _ => LSR_RX_READY end)
         (if (default false (head busy) : bool) then 0 else LSR_TX_IDLE)).

(** [WriteReg(THR, c)] *)
Definition write_thr (c : Z) : K unit := modify (fun s => s <| uart_tx := uart_tx s ++ [u8 c] |>).

(** [ReadReg(RHR)] *)
Definition read_rhr : K Z :=
  rx <- gets uart_rx ;;
  modify (fun s => s <| uart_rx := tail rx |>) ;;
  ret (default 0 (head rx)).

(** Device registers that only take and return values. *)
Definition mmio_write (a v : Z) : K unit := modify (fun s => s <| mmio := <[a := v]> (mmio s) |>).
Definition mmio_read (a : Z) : K Z := m <- gets mmio ;; ret (default 0 (m !! a)).

(** [WriteReg(reg, v)] for the configuration registers *)
Definition uart_write_reg (reg v : Z) : K unit := mmio_write (UART0 + reg) (u8 v).

(** [while ((ReadReg(LSR) & LSR_TX_IDLE) == 0) ;] *)
Fixpoint wait_tx_idle (n : nat) : K unit :=
  lsr <- read_lsr ;;
  if Z.land lsr LSR_TX_IDLE =? 0 then
    match n with O => no_fuel | S n' => wait_tx_idle n' end
  else ret tt.

(** The [push_off]/[pop_off] pair around the write leaves the nesting count as it
    was; after [panicked] is set no CPU gets here again. *)
Definition uartputc_sync (c : Z) : K unit :=
  busy <- gets uart_busy ;;
  wait_tx_idle (length busy) ;;
  write_thr c.

Definition uartgetc : K Z :=
  lsr <- read_lsr ;;
  if negb (Z.land lsr LSR_RX_READY =? 0) then read_rhr else ret (-1).

Definition BACKSPACE : Z := 0x100.

Definition consputc (c : Z) : K unit :=
  if c =? BACKSPACE then
    uartputc_sync 8 ;; uartputc_sync 32 ;; uartputc_sync 8
  else uartputc_sync c.

(** ** Lemmas *)

(** What polled output leaves: the byte sent, and the polling done. *)
Fixpoint after_idle (busy : list bool) : list bool :=
  match busy with
  | [] => []
  | true :: busy' => after_idle busy'
  | false :: busy' => busy'
  end.

Lemma lsr_tx_bit (rx : list Z) (b : bool) :
  (Z.land (Z.lor (match rx with [] => 0 | _ => LSR_RX_READY end)
     (if b then 0 else LSR_TX_IDLE)) LSR_TX_IDLE =? 0) = b.
Proof. by destruct rx, b. Qed.

Lemma lsr_rx_bit (rx : list Z) (b : bool) :
  negb (Z.land (Z.lor (match rx with [] => 0 | _ => LSR_RX_READY end)
     (if b then 0 else LSR_TX_IDLE)) LSR_RX_READY =? 0) =
  match rx with [] => false | _ => true end.
Proof. by destruct rx, b. Qed.

Lemma read_lsr_ok s :
  read_lsr s =
    Ok (Z.lor (match uart_rx s with [] => 0 | _ => LSR_RX_READY end)
          (if default false (head (uart_busy s)) then 0 else LSR_TX_IDLE))
       (s <| uart_busy := tail (uart_busy s) |>).
Proof. reflexivity. Qed.

Lemma wait_tx_idle_ok n s :
  (length (uart_busy s) <= n)%nat ->
  wait_tx_idle n s = Ok tt (s <| uart_busy := after_idle (uart_busy s) |>).
Proof.
  revert s. induction n as [|n IH]; intros s Hn; cbn [wait_tx_idle];
    run (read_lsr_ok s); rewrite lsr_tx_bit.
  - destruct (uart_busy s) as [|b busy]; [done|simpl in Hn; lia].
  - destruct (uart_busy s) as [|[] busy] eqn:E; simpl; try reflexivity.
    rewrite IH by (rs; simpl in Hn; lia). rs. reflexivity.
Qed.

Definition uart_out (l : list Z) (s : kstate) : kstate :=
  s <| uart_busy := Nat.iter (length l) after_idle (uart_busy s) |>
    <| uart_tx := uart_tx s ++ l |>.

Lemma uart_out_nil s : uart_out [] s = s.
Proof. unfold uart_out. destruct s; cbn. unfold upd, set_uart_tx, set_uart_busy. by rewrite app_nil_r. Qed.

Lemma uart_out_app l1 l2 s : uart_out l2 (uart_out l1 s) = uart_out (l1 ++ l2) s.
Proof.
  unfold uart_out. rs. rewrite length_app, Nat.add_comm, Nat.iter_add, app_assoc. st_eq s.
Qed.

Lemma uartputc_sync_ok c s : uartputc_sync c s = Ok tt (uart_out [u8 c] s).
Proof.
  unfold uartputc_sync. rewrite bind_gets. run (wait_tx_idle_ok _ s (le_n _)). reflexivity.
Qed.

(** The bytes [consputc(c)] sends. *)
Definition cons_bytes (c : Z) : list Z := if c =? BACKSPACE then [8; 32; 8] else [u8 c].

Lemma consputc_ok c s : consputc c s = Ok tt (uart_out (cons_bytes c) s).
Proof.
  unfold consputc, cons_bytes. destruct (c =? BACKSPACE); [|apply uartputc_sync_ok].
  run (uartputc_sync_ok 8 s). run (uartputc_sync_ok 32 _). rewrite uartputc_sync_ok.
  by rewrite !uart_out_app.
Qed.

Lemma wp_consputc c (Q : unit -> kstate -> Prop) s :
  Q tt (uart_out (cons_bytes c) s) -> wp (consputc c) Q s.
Proof. intros. eapply wp_eq; [apply consputc_ok|done]. Qed.
