(* ===== verification/Printk.v ===== *)
(** kernel/printk.c: formatted output to the console.

    Formatting does not depend on what has been output, so the characters a call
    passes to [consputc] are computed first ([None] is a fault: a write past the
    end of [buf] or an argument that was not passed) and then sent in order. *)

From stdpp Require Import prelude gmap strings.
From Stdlib Require Import ZArith Lia Ascii.
From S2P Require Import Prelude Bytes Params State Spinlock CString Uart.

Local Open Scope Z_scope.
Local Open Scope kernel_scope.

(** [do { buf[i++] = digits[x % base]; } while ((x /= base) != 0);] *)
Fixpoint digit_loop (fuel : nat) (digits : list Z) (base x : Z) (buf : list Z) (i : nat)
  : option (list Z * nat) :=
  match fuel with
  | O => None
  | S n =>
      if decide (i < length buf)%nat then
        let buf' := <[i := digits !!! Z.to_nat (x mod base)]> buf in
        if x / base =? 0 then Some (buf', S i)
        else digit_loop n digits base (x / base) buf' (S i)
      else None
  end.

(** [while (--i >= 0) put(buf[i]);] *)
Fixpoint put_down (buf : list Z) (i : nat) : list Z :=
  match i with
  | O => []
  | S i' => buf !!! i' :: put_down buf i'
  end.

Definition printint (digits : list Z) (xx base : Z) (sign : bool) : option (list Z) :=
  let buf := replicate 20 0 in
  let sign' := sign && (xx <? 0) in
  let x := if sign' then u64 (- xx) else u64 xx in
  '(buf, i) ← digit_loop 64 digits base x buf 0;
  if sign' then
    if decide (i < length buf)%nat then
      Some (put_down (<[i := ch "-"]> buf) (S i))
    else None
  else Some (put_down buf i).

(** [for (i = 0; i < 16; i++, x <<= 4) put(digits[x >> 60]);] *)
Fixpoint ptr_loop (n : nat) (digits : list Z) (x : Z) : list Z :=
  match n with
  | O => []
  | S n' => digits !!! Z.to_nat (Z.shiftr x 60) :: ptr_loop n' digits (u64 (Z.shiftl x 4))
  end.

Definition printptr (digits : list Z) (x : Z) : list Z :=
  ch "0" :: ch "x" :: ptr_loop 16 digits x.

(** The variable arguments of a call. *)
Inductive arg := A_int (v : Z) | A_str (s : option (list Z)).

Definition va_int (ap : list arg) : option (Z * list arg) :=
  match ap with A_int v :: ap' => Some (v, ap') | _ => None end.

Definition va_str (ap : list arg) : option (option (list Z) * list arg) :=
  match ap with A_str v :: ap' => Some (v, ap') | _ => None end.

Definition kdigits : list Z := str "0123456789abcdef".

(** One conversion after a [%]: what it prints, the arguments left, and how many
    further characters of the format it used; [None] in the middle is [break]. *)
Definition conversion (c0 c1 c2 : Z) (ap : list arg) : option (option (list Z * list arg * nat)) :=
  let int (conv : Z -> Z) base sign k :=
    '(v, ap') ← va_int ap; out ← printint kdigits (conv v) base sign; Some (Some (out, ap', k)) in
  if c0 =? ch "d" then int s32 10 true 0%nat
  else if (c0 =? ch "l") && (c1 =? ch "d") then int s64 10 true 1%nat
  else if (c0 =? ch "l") && (c1 =? ch "l") && (c2 =? ch "d") then int s64 10 true 2%nat
  else if c0 =? ch "u" then int u32 10 false 0%nat
  else if (c0 =? ch "l") && (c1 =? ch "u") then int s64 10 false 1%nat
  else if (c0 =? ch "l") && (c1 =? ch "l") && (c2 =? ch "u") then int s64 10 false 2%nat
  else if c0 =? ch "x" then int u32 16 false 0%nat
  else if (c0 =? ch "l") && (c1 =? ch "x") then int s64 16 false 1%nat
  else if (c0 =? ch "l") && (c1 =? ch "l") && (c2 =? ch "x") then int s64 16 false 2%nat
  else if c0 =? ch "p" then
    '(v, ap') ← va_int ap; Some (Some (printptr kdigits (u64 v), ap', 0%nat))
  else if c0 =? ch "c" then
    '(v, ap') ← va_int ap; Some (Some ([u32 v], ap', 0%nat))
  else if c0 =? ch "s" then
    '(v, ap') ← va_str ap; Some (Some (cstring (default (str "(null)") v), ap', 0%nat))
  else if c0 =? ch "%" then Some (Some ([ch "%"], ap, 0%nat))
  else if c0 =? 0 then Some None
  else Some (Some ([ch "%"; c0], ap, 0%nat)).

(** [fmt[i]]: past the end is the terminating NUL. *)
Definition fmt_at (fmt : list Z) (i : nat) : Z := nth i fmt 0.

(** The loop over the format. *)
Fixpoint printk_loop (fuel : nat) (fmt : list Z) (i : nat) (ap : list arg) : option (list Z) :=
  match fuel with
  | O => None
  | S n =>
      let cx := fmt_at fmt i in
      if cx =? 0 then Some []
      else if negb (cx =? ch "%") then
        out ← printk_loop n fmt (S i) ap; Some (cx :: out)
      else
        let i := S i in
        let c0 := fmt_at fmt i in
        let c1 := if c0 =? 0 then 0 else fmt_at fmt (i + 1) in
        let c2 := if c1 =? 0 then 0 else fmt_at fmt (i + 2) in
        r ← conversion c0 c1 c2 ap;
        match r with
        | None => Some []
        | Some (out, ap', k) =>
            out' ← printk_loop n fmt (S (i + k)) ap'; Some (out ++ out')
        end
  end.

Definition printk_chars (fmt : list Z) (ap : list arg) : option (list Z) :=
  printk_loop (S (length fmt)) fmt 0 ap.

Definition printk (fmt : list Z) (ap : list arg) : K Z :=
  p <- gets panicking ;;
  when (negb p) (acquire L_pr) ;;
  match printk_chars fmt ap with
  | Some out => foreach out consputc
  | None => fault
  end ;;
  p <- gets panicking ;;
  when (negb p) (release L_pr) ;;
  ret 0.

(** ** Reading a number back *)

(** The value of a list of digit values, most significant first. *)
Definition number (base : Z) (ds : list Z) : Z := fold_left (fun acc d => acc * base + d) ds 0.

(** [out] is a numeral for [x] in [base], written with [digits] and without
    leading zeros. *)
Definition is_numeral (digits : list Z) (base x : Z) (out : list Z) : Prop :=
  exists ds, out = map (fun d => digits !!! Z.to_nat d) ds /\
    Forall (fun d => 0 <= d < base) ds /\ number base ds = x /\
    (ds = [0] \/ hd 0 ds <> 0).

(** ** Lemmas *)

Lemma put_down_snoc buf i d :
  (i < length buf)%nat -> put_down (<[i := d]> buf) (S i) = d :: put_down buf i.
Proof.
  intros Hi. cbn [put_down]. f_equal; [by apply list_lookup_total_insert_eq|].
  assert (H : forall k, (k <= i)%nat -> put_down (<[i := d]> buf) k = put_down buf k).
  { induction k as [|k IH]; intros Hk; [done|]. cbn [put_down].
    rewrite list_lookup_total_insert_ne by lia. f_equal. apply IH. lia. }
  by apply H.
Qed.

Lemma number_cons base d ds :
  number base (d :: ds) = d * base ^ Z.of_nat (length ds) + number base ds.
Proof.
  unfold number. cbn [fold_left].
  assert (H : forall acc, fold_left (fun a d => a * base + d) ds acc =
            acc * base ^ Z.of_nat (length ds) + fold_left (fun a d => a * base + d) ds 0).
  { induction ds as [|e ds IH]; intros acc; cbn [fold_left length].
    - rewrite Z.pow_0_r. lia.
    - rewrite IH, (IH (0 * base + e)).
      rewrite Nat2Z.inj_succ, Z.pow_succ_r by lia. ring. }
  rewrite H. simpl. lia.
Qed.

Lemma number_snoc base ds d : number base (ds ++ [d]) = number base ds * base + d.
Proof. unfold number. by rewrite fold_left_app. Qed.

(** The digits of [x]: the loop runs for as many as [x] has. *)
Lemma digit_loop_ok n digits base x buf i k :
  2 <= base -> 0 <= x < base ^ Z.of_nat k -> (0 < k <= n)%nat -> (i + k <= length buf)%nat ->
  exists ds buf' j,
    digit_loop n digits base x buf i = Some (buf', j) /\ (i < j <= i + k)%nat /\
    length buf' = length buf /\ length ds = (j - i)%nat /\
    put_down buf' j = map (fun d => digits !!! Z.to_nat d) ds ++ put_down buf i /\
    Forall (fun d => 0 <= d < base) ds /\ number base ds = x /\ (ds = [0] \/ hd 0 ds <> 0).
Proof.
  intros Hb. revert x buf i k. induction n as [|n IH]; intros x buf i k Hx Hk Hl; [lia|].
  cbn [digit_loop]. rewrite decide_True by lia.
  pose proof (Z.mod_pos_bound x base). pose proof (Z.div_mod x base).
  destruct (Z.eqb_spec (x / base) 0) as [Hq|Hq].
  - exists [x mod base], (<[i := digits !!! Z.to_nat (x mod base)]> buf), (S i).
    rewrite length_insert, put_down_snoc by lia. split_and!; try done; try lia.
    + simpl. lia.
    + repeat constructor; lia.
    + cbn. lia.
    + cbn. destruct (decide (x mod base = 0)) as [->|]; [by left|by right].
  - assert (0 <= x / base) by (apply Z.div_pos; lia).
    destruct (IH (x / base) (<[i := digits !!! Z.to_nat (x mod base)]> buf) (S i) (k - 1)%nat)
      as (ds & buf' & j & E & Hj & Hlen & Hd & Hp & Hf & Hnum & Hz).
    + split; [done|]. apply Z.div_lt_upper_bound; [lia|].
      rewrite <- Z.pow_succ_r by lia. replace (Z.succ (Z.of_nat (k - 1))) with (Z.of_nat k) by lia. lia.
    + destruct k as [|[|k]]; try lia. rewrite Z.pow_1_r in Hx. rewrite Z.div_small in Hq; lia.
    + rewrite length_insert. lia.
    + rewrite length_insert in Hlen. exists (ds ++ [x mod base]), buf', j.
      rewrite put_down_snoc in Hp by lia. split_and!; try done; try lia.
      * rewrite length_app. simpl. lia.
      * rewrite Hp, map_app, <- app_assoc. done.
      * apply Forall_app_2; [done|]. repeat constructor; lia.
      * rewrite number_snoc, Hnum. lia.
      * right. destruct Hz as [->|Hz]; [|by destruct ds]. cbn in Hnum. lia.
Qed.

Lemma printk_ok fmt ap out s :
  printk_chars fmt ap = Some out -> panicking s = false -> L_pr ∉ held s ->
  printk fmt ap s = Ok 0 (uart_out (concat (map cons_bytes out)) s).
Proof.
  intros Hout Hp Hl.
  assert (Hput : forall l s, foreach l consputc s = Ok tt (uart_out (concat (map cons_bytes l)) s)).
  { induction l as [|c l IH]; intros t; cbn [foreach map concat]; [by rewrite uart_out_nil|].
    run (consputc_ok c t). by rewrite IH, uart_out_app. }
  assert (Hwp : wp (printk fmt ap) (fun r s' => r = 0 /\
    s' = uart_out (concat (map cons_bytes out)) s) s).
  { unfold printk. wstep. wstep. rewrite Hp. cbn [negb when]. wsteps. rewrite Hout.
    eapply wp_eq; [apply Hput|]. cbv beta. wsteps. unfold uart_out. rs. rewrite Hp. cbn [negb when].
    wsteps. split; [done|]. rs. st_eq s. }
  apply wp_inv in Hwp as (r & s' & -> & -> & ->). done.
Qed.

Lemma printint_ok digits xx base sign :
  base = 10 \/ base = 16 -> - 2 ^ 63 <= xx < 2 ^ 64 -> (sign = true -> xx < 2 ^ 63) ->
  exists out,
    printint digits xx base sign =
      Some (if sign && (xx <? 0) then ch "-" :: out else out) /\
    is_numeral digits base (if sign && (xx <? 0) then - xx else u64 xx) out /\
    Z.of_nat (length (if sign && (xx <? 0) then ch "-" :: out else out)) <= 20.
Proof.
  intros Hb Hx Hs. unfold printint.
  set (neg := sign && (xx <? 0)).
  assert (Hn : neg = true -> xx < 0).
  { intros H. apply andb_true_iff in H as [_ H]. by apply Z.ltb_lt in H. }
  set (x := if neg then - xx else u64 xx).
  assert (Hxx : (if neg then u64 (- xx) else u64 xx) = x).
  { unfold x. destruct neg; [|done]. rewrite u64_small; [done|]. specialize (Hn eq_refl). lia. }
  rewrite Hxx.
  set (k := if neg then 19%nat else 20%nat).
  assert (Hk : 0 <= x < base ^ Z.of_nat k).
  { pose proof (u64_range xx). unfold x, k. destruct neg; [specialize (Hn eq_refl)|];
      destruct Hb as [-> | ->]; simpl; lia. }
  destruct (digit_loop_ok 64 digits base x (replicate 20 0) 0 k)
    as (ds & buf & j & E & Hj & Hl & Hd & Hp & Hf & Hnum & Hz).
  { destruct Hb; lia. }
  { done. }
  { unfold k; destruct neg; lia. }
  { rewrite length_replicate. unfold k; destruct neg; lia. }
  rewrite length_replicate in Hl. cbn [put_down] in Hp. rewrite app_nil_r in Hp.
  rewrite E. cbn [mbind option_bind]. unfold k in Hj.
  exists (map (fun d => digits !!! Z.to_nat d) ds). destruct neg.
  - rewrite decide_True by lia. rewrite put_down_snoc, Hp by lia.
    split; [done|]. split; [by exists ds|]. simpl. rewrite length_map. lia.
  - rewrite Hp. split; [done|]. split; [by exists ds|]. rewrite length_map. lia.
Qed.

(** ** Formats and their arguments *)

(** What a conversion needs of the arguments, and how many further characters it
    uses; [None] in the middle is the end of the format. *)
Inductive needs := N_int | N_str | N_nothing.

Definition conversion_needs (c0 c1 c2 : Z) : option (needs * nat) :=
  if c0 =? ch "d" then Some (N_int, 0%nat)
  else if (c0 =? ch "l") && (c1 =? ch "d") then Some (N_int, 1%nat)
  else if (c0 =? ch "l") && (c1 =? ch "l") && (c2 =? ch "d") then Some (N_int, 2%nat)
  else if c0 =? ch "u" then Some (N_int, 0%nat)
  else if (c0 =? ch "l") && (c1 =? ch "u") then Some (N_int, 1%nat)
  else if (c0 =? ch "l") && (c1 =? ch "l") && (c2 =? ch "u") then Some (N_int, 2%nat)
  else if c0 =? ch "x" then Some (N_int, 0%nat)
  else if (c0 =? ch "l") && (c1 =? ch "x") then Some (N_int, 1%nat)
  else if (c0 =? ch "l") && (c1 =? ch "l") && (c2 =? ch "x") then Some (N_int, 2%nat)
  else if c0 =? ch "p" then Some (N_int, 0%nat)
  else if c0 =? ch "c" then Some (N_int, 0%nat)
  else if c0 =? ch "s" then Some (N_str, 0%nat)
  else if c0 =? ch "%" then Some (N_nothing, 0%nat)
  else if c0 =? 0 then None
  else Some (N_nothing, 0%nat).

(** The kinds of argument that [fmt] reads from position [i] on. *)
Fixpoint fmt_needs (fuel : nat) (fmt : list Z) (i : nat) : option (list needs) :=
  match fuel with
  | O => None
  | S n =>
      let cx := fmt_at fmt i in
      if cx =? 0 then Some []
      else if negb (cx =? ch "%") then fmt_needs n fmt (S i)
      else
        let i := S i in
        let c0 := fmt_at fmt i in
        let c1 := if c0 =? 0 then 0 else fmt_at fmt (i + 1) in
        let c2 := if c1 =? 0 then 0 else fmt_at fmt (i + 2) in
        match conversion_needs c0 c1 c2 with
        | None => Some []
        | Some (k, j) => ks ← fmt_needs n fmt (S (i + j)); Some (k :: ks)
        end
  end.

(** The arguments supply what is needed. *)
Fixpoint supplies (ks : list needs) (ap : list arg) : bool :=
  match ks, ap with
  | [], _ => true
  | N_nothing :: ks', _ => supplies ks' ap
  | N_int :: ks', A_int _ :: ap' => supplies ks' ap'
  | N_str :: ks', A_str _ :: ap' => supplies ks' ap'
  | _, _ => false
  end.

(** The integer conversions never overrun their buffer. *)
Lemma printint_some (v base : Z) (sign : bool) :
  base = 10 \/ base = 16 -> - 2 ^ 63 <= v < 2 ^ 63 -> exists out, printint kdigits v base sign = Some out.
Proof.
  intros Hb Hv. destruct (printint_ok kdigits v base sign) as (out & -> & _); [done|lia|lia|]. eauto.
Qed.

Lemma swrap_range w x : 0 < w -> - 2 ^ (w - 1) <= swrap w x < 2 ^ (w - 1).
Proof.
  intros Hw. unfold swrap. pose proof (Z.mod_pos_bound (x + 2 ^ (w - 1)) (2 ^ w)).
  assert (2 ^ w = 2 * 2 ^ (w - 1)) by (rewrite <- Z.pow_succ_r by lia; f_equal; lia). lia.
Qed.

(** A conversion prints something whenever the argument it needs is there. *)
Lemma conversion_total c0 c1 c2 ks ap :
  match conversion_needs c0 c1 c2 with
  | None => conversion c0 c1 c2 ap = Some None
  | Some (k, j) => supplies (k :: ks) ap = true ->
      exists out ap', conversion c0 c1 c2 ap = Some (Some (out, ap', j)) /\ supplies ks ap' = true
  end.
Proof.
  unfold conversion_needs, conversion.
  assert (Hint : forall conv base sign j, base = 10 \/ base = 16 ->
            (forall v, - 2 ^ 63 <= conv v < 2 ^ 63) -> supplies (N_int :: ks) ap = true ->
            exists out ap', ('(v, ap') ← va_int ap; out ← printint kdigits (conv v) base sign;
              Some (Some (out, ap', j : nat))) = Some (Some (out, ap', j)) /\ supplies ks ap' = true).
  { intros conv base sign j Hb Hc Hs. destruct ap as [|[v|v] ap]; try done.
    destruct (printint_some (conv v) base sign Hb (Hc v)) as [out E]. exists out, ap.
    cbn [va_int mbind option_bind]. rewrite E. done. }
  pose proof (fun v => swrap_range 32 v ltac:(lia)) as H32. pose proof (fun v => swrap_range 64 v ltac:(lia)) as H64.
  pose proof u32_range as Hu.
  assert (Hr : forall v, - 2 ^ 63 <= s32 v < 2 ^ 63 /\ - 2 ^ 63 <= s64 v < 2 ^ 63 /\ - 2 ^ 63 <= u32 v < 2 ^ 63)
    by (intros v; specialize (H32 v); specialize (H64 v); specialize (Hu v);
        change (32 - 1) with 31 in H32; change (64 - 1) with 63 in H64; lia).
  clear H32 H64 Hu.
  repeat match goal with |- match (if ?b then _ else _) with _ => _ end => destruct b end;
    first [apply Hint; [tauto|apply Hr] | done | idtac];
    intros Hs; destruct ap as [|[v|v] ap']; try done; cbn; eauto.
Qed.

(** The whole format prints when the arguments supply what it needs. *)
Lemma printk_loop_total fuel fmt i ap ks :
  fmt_needs fuel fmt i = Some ks -> supplies ks ap = true -> exists out, printk_loop fuel fmt i ap = Some out.
Proof.
  revert i ap ks. induction fuel as [|n IH]; intros i ap ks; cbn [fmt_needs printk_loop]; [done|].
  destruct (_ =? 0); [eauto|]. destruct (negb _).
  - intros Hn Hs. destruct (IH _ _ _ Hn Hs) as [out ->]. cbn. eauto.
  - set (c1 := if _ =? 0 then 0 else fmt_at fmt (S i + 1)). set (c2 := if c1 =? 0 then 0 else _).
    pose proof (conversion_total (fmt_at fmt (S i)) c1 c2) as Hc.
    destruct (conversion_needs _ _ _) as [[k j]|].
    + intros (ks' & Hn & [= <-])%bind_Some Hs. destruct (Hc ks' ap Hs) as (out & ap' & -> & Hs').
      cbn [mbind option_bind]. destruct (IH _ _ _ Hn Hs') as [out' ->]. cbn. eauto.
    + intros _ _. rewrite (Hc [] ap). cbn. eauto.
Qed.

(** C40: [printint] never writes past its 20-byte buffer, and what it prints is the
    numeral of its argument: a minus sign for a negative number printed as signed,
    then the digits of the magnitude (of the 64-bit unsigned value otherwise) without
    leading zeros.  In particular the most negative [long long] is printed correctly. *)
Theorem printint_numeral digits xx base sign :
  base = 10 \/ base = 16 -> - 2 ^ 63 <= xx < 2 ^ 64 -> (sign = true -> xx < 2 ^ 63) ->
  exists out,
    printint digits xx base sign =
      Some (if sign && (xx <? 0) then ch "-" :: out else out) /\
    is_numeral digits base (if sign && (xx <? 0) then - xx else u64 xx) out /\
    Z.of_nat (length (if sign && (xx <? 0) then ch "-" :: out else out)) <= 20.
Proof. apply printint_ok. Qed.

Lemma printint_numeral_witness :
  exists out,
    printint kdigits (- 2 ^ 63) 10 true = Some (ch "-" :: out) /\
    is_numeral kdigits 10 (2 ^ 63) out /\ Z.of_nat (length (ch "-" :: out)) <= 20.
Proof.
  apply (printint_numeral kdigits (- 2 ^ 63) 10 true); [by left|lia|lia].
Defined.
