(* ===== verification/Sched.v ===== *)
(** kernel/proc.c: giving up the CPU, waiting and waking up, killing.

    A context switch is a [Switch] outcome: the state the thread leaves and a
    resumption.  Module [Wakeup] has the protocol of [sleep_prepare], [sleep] and
    [wakeup] under a condition lock, with any number of threads interleaved. *)

From stdpp Require Import prelude gmap strings.
From Stdlib Require Import ZArith Lia.
From S2P Require Import Prelude Bytes Params State Spinlock.

Local Open Scope Z_scope.
Local Open Scope kernel_scope.

Definition myproc : K (option nat) := gets cpu_proc.

(** [myproc()] where the result is dereferenced. *)
Definition curproc : K nat :=
  p <- myproc ;; match p with Some i => ret i | None => fault end.

(** [swtch]: run something else, and continue with the state it leaves. *)
Definition swtch : K unit := fun s => Switch s (fun s' => Ok tt s').

(** [intr_get()] with a lock held is 0 ([Smp.push_pop_off_nesting]); the saved
    [intena] belongs to the hart state of [Smp]. *)
Definition intr_get_locked : K bool := h <- gets held ;; ret (bool_decide (h = [])).

Definition sched : K unit :=
  i <- curproc ;;
  h <- holding (L_proc i) ;;
  panic_if (negb h) "sched p->lock" ;;
  hs <- gets held ;;
  panic_if (negb (Z.of_nat (length hs) =? 1)) "sched locks" ;;
  p <- getproc i ;;
  panic_if (bool_decide (p_state p = RUNNING)) "sched RUNNING" ;;
  on <- intr_get_locked ;;
  panic_if on "sched interruptible" ;;
  swtch.

Definition yield : K unit :=
  i <- curproc ;;
  acquire (L_proc i) ;;
  updproc i (fun p => p <| p_state := RUNNABLE |>) ;;
  sched ;;
  release (L_proc i).

Definition sleep_prepare (c : option chan) : K unit :=
  i <- curproc ;;
  acquire (L_proc i) ;;
  panic_if (bool_decide (c = None)) "sleep_prepare: zero chan" ;;
  updproc i (fun p => p <| p_chan := c |>) ;;
  release (L_proc i).

Definition sleep : K unit :=
  i <- curproc ;;
  acquire (L_proc i) ;;
  p <- getproc i ;;
  when (negb (bool_decide (p_chan p = None)))
    (updproc i (fun p => p <| p_state := SLEEPING |>) ;; sched) ;;
  release (L_proc i).

(** The body of [wakeup]'s loop, for one process. *)
Definition wakeup1 (c : option chan) (i : nat) : K unit :=
  acquire (L_proc i) ;;
  p <- getproc i ;;
  when (bool_decide (p_chan p = c))
    (updproc i (fun p => p <| p_chan := None |>) ;;
     when (bool_decide (p_state p = SLEEPING))
       (updproc i (fun p => p <| p_state := RUNNABLE |>))) ;;
  release (L_proc i).

Definition wakeup (c : option chan) : K unit := foreach (seq 0 NPROC) (wakeup1 c).

(** The scan of [kkill] from the processes [idx] on. *)
Fixpoint kkill_loop (idx : list nat) (pid : Z) : K Z :=
  match idx with
  | [] => ret (-1)
  | i :: idx' =>
      acquire (L_proc i) ;;
      p <- getproc i ;;
      if p_pid p =? pid then
        updproc i (fun p => p <| p_killed := true |>) ;;
        when (bool_decide (p_state p = SLEEPING))
          (updproc i (fun p => p <| p_state := RUNNABLE |>)) ;;
        release (L_proc i) ;;
        ret 0
      else release (L_proc i) ;; kkill_loop idx' pid
  end.

Definition kkill (pid : Z) : K Z := kkill_loop (seq 0 NPROC) pid.

Definition setkilled (i : nat) : K unit :=
  acquire (L_proc i) ;;
  updproc i (fun p => p <| p_killed := true |>) ;;
  release (L_proc i).

Definition killed (i : nat) : K bool :=
  acquire (L_proc i) ;;
  p <- getproc i ;;
  release (L_proc i) ;;
  ret (p_killed p).

(** One iteration of the [for (;;)] of [scheduler]: a scan of the table.  The
    result is [found]; when it is 0 the CPU waits for an interrupt. *)
Fixpoint scheduler_scan (idx : list nat) (found : bool) : K bool :=
  match idx with
  | [] => ret found
  | i :: idx' =>
      acquire (L_proc i) ;;
      p <- getproc i ;;
      if decide (p_state p = RUNNABLE) then
        updproc i (fun p => p <| p_state := RUNNING |>) ;;
        modify (fun s => s <| cpu_proc := Some i |>) ;;
        swtch ;;
        modify (fun s => s <| cpu_proc := None |>) ;;
        release (L_proc i) ;;
        scheduler_scan idx' true
      else release (L_proc i) ;; scheduler_scan idx' found
  end.

Definition scheduler_round : K bool := scheduler_scan (seq 0 NPROC) false.

(** ** Sleepers and wakers around a condition

    Any number of processes wait for a condition with
    [acquire(lk); while (!cond) { sleep_prepare(c); release(lk); sleep(); acquire(lk); }
     cond = 0; release(lk);]
    while any number of other threads (interrupt handlers included) do
    [acquire(lk); cond = 1; wakeup(c); release(lk);].  A step is one access to the
    condition lock or one critical section under a process lock; the operations on
    the process table are the ones above, run as the process in question. *)
Module Wakeup.

Inductive tid := Sleeper (i : nat) | Waker (w : nat).
#[export] Instance tid_eq_dec : EqDecision tid.
Proof. solve_decision. Defined.

Inductive pc :=
| S_start                (* about to acquire lk *)
| S_test                 (* holds lk, about to test the condition *)
| S_prepared             (* holds lk, has called sleep_prepare *)
| S_released             (* about to call sleep *)
| S_asleep               (* switched out in sleep *)
| S_got                  (* holds lk, has consumed the condition *)
| W_start | W_set        (* W_set: holds lk, about to set the condition *)
| W_wake (k : nat)       (* holds lk, in wakeup's loop at process k *)
| W_rel.

Record config := mkConfig {
  ks : kstate;
  cond : bool;
  owner : option tid;    (* who holds lk *)
  pcs : tid -> pc;
}.

Definition goto (t : tid) (x : pc) (f : tid -> pc) : tid -> pc :=
  fun t' => if decide (t' = t) then x else f t'.

(** The kernel state as process [i] sees it when it enters one of the operations. *)
Definition as_proc (i : nat) (s : kstate) : kstate := s <| cpu_proc := Some i |> <| held := [] |>.

Inductive step (c : chan) : config -> config -> Prop :=
| s_acquire i s b f :
    f (Sleeper i) = S_start ->
    step c (mkConfig s b None f) (mkConfig s b (Some (Sleeper i)) (goto (Sleeper i) S_test f))
| s_prepare i s s' o f :
    f (Sleeper i) = S_test -> sleep_prepare (Some c) (as_proc i s) = Ok tt s' ->
    step c (mkConfig s false o f) (mkConfig s' false o (goto (Sleeper i) S_prepared f))
| s_consume i s o f :
    f (Sleeper i) = S_test ->
    step c (mkConfig s true o f) (mkConfig s false o (goto (Sleeper i) S_got f))
| s_done i s b o f :
    f (Sleeper i) = S_got ->
    step c (mkConfig s b o f) (mkConfig s b None (goto (Sleeper i) S_start f))
| s_release i s b o f :
    f (Sleeper i) = S_prepared ->
    step c (mkConfig s b o f) (mkConfig s b None (goto (Sleeper i) S_released f))
| s_no_sleep i s s' b o f :
    f (Sleeper i) = S_released -> sleep (as_proc i s) = Ok tt s' ->
    step c (mkConfig s b o f) (mkConfig s' b o (goto (Sleeper i) S_start f))
| s_sleep i s s' k b o f :
    f (Sleeper i) = S_released -> sleep (as_proc i s) = Switch s' k ->
    step c (mkConfig s b o f) (mkConfig s' b o (goto (Sleeper i) S_asleep f))
| s_run i p s b o f :       (* the scheduler picks the process *)
    f (Sleeper i) = S_asleep -> procs s !! i = Some p -> p_state p = RUNNABLE ->
    step c (mkConfig s b o f)
      (mkConfig (s <| procs := alter (fun p => p <| p_state := RUNNING |>) i (procs s) |>) b o
         (goto (Sleeper i) S_start f))
| w_acquire w s b f :
    f (Waker w) = W_start ->
    step c (mkConfig s b None f) (mkConfig s b (Some (Waker w)) (goto (Waker w) W_set f))
| w_set w s b o f :
    f (Waker w) = W_set ->
    step c (mkConfig s b o f) (mkConfig s true o (goto (Waker w) (W_wake 0) f))
| w_wake w k s s' b o f :
    f (Waker w) = W_wake k -> (k < NPROC)%nat -> wakeup1 (Some c) k (s <| held := [] |>) = Ok tt s' ->
    step c (mkConfig s b o f) (mkConfig s' b o (goto (Waker w) (W_wake (S k)) f))
| w_end w s b o f :
    f (Waker w) = W_wake NPROC ->
    step c (mkConfig s b o f) (mkConfig s b o (goto (Waker w) W_rel f))
| w_release w s b o f :
    f (Waker w) = W_rel ->
    step c (mkConfig s b o f) (mkConfig s b None (goto (Waker w) W_start f))
| other_wakeup c' k s s' b o f :   (* a wakeup on another channel *)
    c' <> c -> (k < NPROC)%nat -> wakeup1 (Some c') k (s <| held := [] |>) = Ok tt s' ->
    step c (mkConfig s b o f) (mkConfig s' b o f)
| other_kill pid s s' r b o f :
    kkill pid (s <| held := [] |>) = Ok r s' ->
    step c (mkConfig s b o f) (mkConfig s' b o f).

(** At the start the lock is free, nobody sleeps and nobody is waiting. *)
Definition init (g : config) : Prop :=
  length (procs (ks g)) = NPROC /\ owner g = None /\
  (forall i p, procs (ks g) !! i = Some p -> p_state p <> SLEEPING) /\
  (forall i, pcs g (Sleeper i) = S_start) /\ (forall w, pcs g (Waker w) = W_start).

Definition reachable (c : chan) (g : config) : Prop :=
  exists g0, init g0 /\ rtc (step c) g0 g.

(** The program points that hold the condition lock. *)
Definition holds_lk (x : pc) : bool :=
  match x with S_test | S_prepared | S_got | W_set | W_wake _ | W_rel => true | _ => false end.

(** The program points of a sleeper that found the condition false. *)
Definition waiting (x : pc) : bool :=
  match x with S_prepared | S_released | S_asleep => true | _ => false end.

(** A waker has still to look at process [i]. *)
Definition coming (g : config) (i : nat) : Prop :=
  exists w k, pcs g (Waker w) = W_wake k /\ (k <= i)%nat.

(** Channel and state of one process, consistent with where it is. *)
Definition proc_ok (c : chan) (g : config) (i : nat) (p : proc) : Prop :=
  (p_state p = SLEEPING -> pcs g (Sleeper i) = S_asleep /\ p_chan p <> None) /\
  (waiting (pcs g (Sleeper i)) = true ->
     p_chan p = None \/ (p_chan p = Some c /\ (cond g = false \/ coming g i))).

Definition inv (c : chan) (g : config) : Prop :=
  length (procs (ks g)) = NPROC /\
  (forall t, holds_lk (pcs g t) = true -> owner g = Some t) /\
  (forall i p, procs (ks g) !! i = Some p -> proc_ok c g i p).

End Wakeup.

(** ** What the operations do to one process *)

Definition wake1 (c : option chan) (p : proc) : proc :=
  if decide (p_chan p = c) then
    if decide (p_state p = SLEEPING) then p <| p_chan := None |> <| p_state := RUNNABLE |>
    else p <| p_chan := None |>
  else p.

Definition kill1 (p : proc) : proc :=
  if decide (p_state p = SLEEPING) then p <| p_killed := true |> <| p_state := RUNNABLE |>
  else p <| p_killed := true |>.

(** No process lock is held, and the table has its size. *)
Definition no_plock (s : kstate) : Prop :=
  length (procs s) = NPROC /\ forall i, L_proc i ∉ held s.

(** ** Lemmas *)

Lemma wp_curproc i (Q : nat -> kstate -> Prop) s : cpu_proc s = Some i -> Q i s -> wp curproc Q s.
Proof. intros H HQ. unfold curproc, myproc. wsteps. rewrite H. by wsteps. Qed.

Lemma wp_getproc i p (Q : proc -> kstate -> Prop) s :
  procs s !! i = Some p -> Q p s -> wp (getproc i) Q s.
Proof. apply wp_get_at. Qed.

Lemma wp_updproc i f (Q : unit -> kstate -> Prop) s :
  Q tt (s <| procs := alter f i (procs s) |>) -> wp (updproc i f) Q s.
Proof. done. Qed.

Ltac wp_prim ::=
  lazymatch goal with
  | |- wp (acquire _) _ _ => apply wp_acquire; [try (rs; done)|]
  | |- wp (release _) _ _ => eapply wp_release; [rs; reflexivity|try (rs; done)|]
  | |- wp (holding _) _ _ => apply wp_holding
  | |- wp curproc _ _ => eapply wp_curproc; [rs; eassumption|]
  | |- wp (getproc _) _ _ => eapply wp_getproc; [rs; eassumption|]
  | |- wp (updproc _ _) _ _ => apply wp_updproc
  end.

(** A table scan that applies [f] to every entry under its lock. *)
Lemma foreach_procs_from (f : proc -> proc) body j k s :
  (forall i p t, procs t !! i = Some p -> L_proc i ∉ held t ->
     body i t = Ok tt (t <| procs := alter f i (procs t) |>)) ->
  (forall i, L_proc i ∉ held s) -> length (procs s) = (j + k)%nat ->
  foreach (seq j k) body s =
    Ok tt (s <| procs := imap (fun i p => if decide (j <= i)%nat then f p else p) (procs s) |>).
Proof.
  intros Hb. revert j s. induction k as [|k IH]; intros j s Hl Hlen; cbn [seq foreach].
  - assert (imap (fun i p => if decide (j <= i)%nat then f p else p) (procs s) = procs s) as ->.
    { apply list_eq. intros i. rewrite list_lookup_imap.
      destruct (procs s !! i) eqn:E; [|done]. apply lookup_lt_Some in E.
      simpl. by rewrite decide_False by lia. }
    unfold ret. f_equal. by destruct s.
  - destruct (lookup_lt_is_Some_2 (procs s) j) as [p Hp]; [lia|].
    run (Hb j p s Hp (Hl j)). rewrite IH; rs; [|done|rewrite length_alter; lia].
    assert (imap (fun i p => if decide (S j <= i)%nat then f p else p) (alter f j (procs s)) =
            imap (fun i p => if decide (j <= i)%nat then f p else p) (procs s)) as ->.
    { apply list_eq. intros i. rewrite !list_lookup_imap.
      destruct (decide (i = j)) as [->|Hne].
      - rewrite list_lookup_alter_eq, Hp. simpl.
        by rewrite decide_False, decide_True by lia.
      - rewrite list_lookup_alter_ne by done. destruct (procs s !! i); [|done]. simpl.
        destruct (decide (j <= i)%nat); [by rewrite decide_True by lia|by rewrite decide_False by lia]. }
    reflexivity.
Qed.

Lemma foreach_procs (f : proc -> proc) body s :
  (forall i p t, procs t !! i = Some p -> L_proc i ∉ held t ->
     body i t = Ok tt (t <| procs := alter f i (procs t) |>)) ->
  no_plock s ->
  foreach (seq 0 NPROC) body s = Ok tt (s <| procs := map f (procs s) |>).
Proof.
  intros Hb [Hlen Hl]. rewrite (foreach_procs_from f) by done.
  assert (imap (fun i p => if decide (0 <= i)%nat then f p else p) (procs s) = map f (procs s))
    as ->; [|done].
  apply list_eq. intros i. rewrite list_lookup_imap, list_lookup_fmap.
  destruct (procs s !! i); [|done]. cbn [fmap option_fmap option_map].
  by rewrite decide_True by lia.
Qed.

Lemma wakeup1_ok c i p s :
  procs s !! i = Some p -> L_proc i ∉ held s ->
  wakeup1 c i s = Ok tt (s <| procs := alter (wake1 c) i (procs s) |>).
Proof.
  intros Hp Hl. apply wp_to_eq. unfold wakeup1. wsteps. apply wp_when; intros Hc.
  - wsteps. apply wp_when; intros Hs; wsteps; split; try done; rs;
      rewrite ?alter_alter; rewrite (alter_eq _ (wake1 c) i _ p Hp); try st_eq s;
      unfold wake1; apply bool_decide_eq_true in Hc; rewrite decide_True by done.
    + apply bool_decide_eq_true in Hs. by rewrite decide_True.
    + apply bool_decide_eq_false in Hs. by rewrite decide_False.
  - wsteps. split; [done|]. rs. rewrite (alter_same (wake1 c) i _ p Hp); [st_eq s|].
    unfold wake1. apply bool_decide_eq_false in Hc. by rewrite decide_False.
Qed.

Lemma wakeup_ok c s :
  no_plock s -> wakeup c s = Ok tt (s <| procs := map (wake1 c) (procs s) |>).
Proof.
  intros H. unfold wakeup. apply foreach_procs; [|done]. intros i p t. apply wakeup1_ok.
Qed.

Lemma killed_ok i p s :
  procs s !! i = Some p -> L_proc i ∉ held s -> killed i s = Ok (p_killed p) s.
Proof.
  intros Hp Hl. apply wp_to_eq. unfold killed. wsteps. split; [done|]. rs. st_eq s.
Qed.

Lemma setkilled_ok i s :
  L_proc i ∉ held s ->
  setkilled i s = Ok tt (s <| procs := alter (fun p => p <| p_killed := true |>) i (procs s) |>).
Proof. intros Hl. apply wp_to_eq. unfold setkilled. wsteps. split; [done|]. rs. st_eq s. Qed.

Lemma sleep_prepare_ok c i s :
  cpu_proc s = Some i -> L_proc i ∉ held s ->
  sleep_prepare (Some c) s =
    Ok tt (s <| procs := alter (fun p => p <| p_chan := Some c |>) i (procs s) |>).
Proof.
  intros Hi Hl. apply wp_to_eq. unfold sleep_prepare. wsteps. split; [done|]. rs. st_eq s.
Qed.

Lemma bind_curproc {B : Type} i (f : nat -> K B) s :
  cpu_proc s = Some i -> bind curproc f s = f i s.
Proof. intros H. unfold bind, curproc, bind, myproc, gets. cbn. by rewrite H. Qed.

Lemma acquire_ok l s : l ∉ held s -> acquire l s = Ok tt (s <| held := l :: held s |>).
Proof. intros H. apply wp_to_eq. by wsteps. Qed.

Lemma release_ok l h s : held s = l :: h -> l ∉ h -> release l s = Ok tt (s <| held := h |>).
Proof. intros H Hl. apply wp_to_eq. by eapply wp_release. Qed.

(** [sched] switches exactly when the lock discipline is kept. *)
Lemma sched_switch i p s :
  cpu_proc s = Some i -> procs s !! i = Some p -> held s = [L_proc i] -> p_state p <> RUNNING ->
  sched s = Switch s (fun s' => Ok tt s').
Proof.
  intros Hi Hp Hh Hr. unfold sched. rewrite (bind_curproc i) by done.
  erewrite (bind_ok (holding _)) by reflexivity.
  rewrite bind_panic_if by (rewrite Hh, bool_decide_eq_true_2; [done|left]).
  rewrite bind_gets, bind_panic_if by (by rewrite Hh).
  erewrite (bind_ok (getproc i)) by (by apply get_at_ok).
  rewrite bind_panic_if by (by apply bool_decide_eq_false_2).
  erewrite (bind_ok intr_get_locked) by reflexivity.
  rewrite bind_panic_if by (by rewrite Hh). done.
Qed.

Lemma yield_switch i p s :
  cpu_proc s = Some i -> procs s !! i = Some p -> held s = [] ->
  yield s = Switch (s <| held := [L_proc i] |>
                      <| procs := alter (fun p => p <| p_state := RUNNABLE |>) i (procs s) |>)
                   (release (L_proc i)).
Proof.
  intros Hi Hp Hh. unfold yield. rewrite (bind_curproc i) by done.
  run (acquire_ok (L_proc i) s ltac:(rewrite Hh; apply not_elem_of_nil)).
  unfold updproc. rewrite bind_modify. unfold bind at 1.
  erewrite (sched_switch i); cycle 1; rs; try done.
  - by rewrite list_lookup_alter_eq, Hp.
  - by rewrite Hh.
  - done.
  - cbn. rewrite Hh. reflexivity.
Qed.

Lemma sleep_switch i p s :
  cpu_proc s = Some i -> procs s !! i = Some p -> held s = [] -> p_chan p <> None ->
  sleep s = Switch (s <| held := [L_proc i] |>
                      <| procs := alter (fun p => p <| p_state := SLEEPING |>) i (procs s) |>)
                   (release (L_proc i)).
Proof.
  intros Hi Hp Hh Hc. unfold sleep. rewrite (bind_curproc i) by done.
  run (acquire_ok (L_proc i) s ltac:(rewrite Hh; apply not_elem_of_nil)).
  erewrite (bind_ok (getproc i)); [|apply get_at_ok; rs; exact Hp].
  rewrite bool_decide_eq_false_2 by done. cbn [negb when].
  unfold bind at 1. unfold updproc. rewrite bind_modify.
  erewrite (sched_switch i); cycle 1; rs; try done.
  - by rewrite list_lookup_alter_eq, Hp.
  - by rewrite Hh.
  - done.
  - cbn. rewrite Hh. reflexivity.
Qed.

(** Process [i] is switched out, asleep on [d]. *)
Definition sleeps_on (i : nat) (d : chan) (s : kstate) : kstate :=
  s <| procs := alter (fun p => p <| p_state := SLEEPING |>) i
                  (alter (fun p => p <| p_chan := Some d |>) i (procs s)) |>
    <| held := [L_proc i] |>.

(** Process [i] has been switched to, and is about to return to [sleep]. *)
Record resumed (i : nat) (s : kstate) : Prop := {
  rm_held : held s = [L_proc i];
  rm_cpu : cpu_proc s = Some i;
  rm_proc : is_Some (procs s !! i);
}.

(** The process [i] runs, holding the locks [h]. *)
Definition on_cpu (i : nat) (h : list lockid) (s : kstate) : kstate := s <| cpu_proc := Some i |> <| held := h |>.

(** The code that waits for an event on [d] under a lock. *)
Lemma prepare_switch {A : Type} i d lk (k : K A) s :
  cpu_proc s = Some i -> held s = [lk] -> lk <> L_proc i -> is_Some (procs s !! i) ->
  exists k', (sleep_prepare (Some d) ;; release lk ;; sleep ;; k) s = Switch (sleeps_on i d s) k' /\
    forall s', resumed i s' -> k' s' = k (s' <| held := [] |>).
Proof.
  intros Hc Hh Hl [p Hp]. eexists. rewrite (bind_ok (sleep_prepare _) _ _ _ _ (sleep_prepare_ok d i s Hc ltac:(rewrite Hh; set_solver))).
  erewrite (bind_ok (release _)); [|apply (release_ok lk []); [by rs|apply not_elem_of_nil]].
  unfold bind at 1. erewrite (sleep_switch i); cycle 1; rs; [done|by rewrite list_lookup_alter_eq, Hp|done|done|].
  cbn [obind]. split; [unfold sleeps_on; f_equal; st_eq s|].
  intros s' [Hh' _ _]. by rewrite (release_ok _ [] s' Hh') by apply not_elem_of_nil.
Qed.

Lemma sleep_no_wait i p s :
  cpu_proc s = Some i -> procs s !! i = Some p -> L_proc i ∉ held s -> p_chan p = None ->
  sleep s = Ok tt s.
Proof.
  intros Hi Hp Hl Hc. apply wp_to_eq. unfold sleep. wsteps.
  rewrite Hc, bool_decide_eq_true_2 by done. cbn [negb when]. wsteps. split; [done|].
  rs. st_eq s.
Qed.

Lemma sleep_fault i s :
  cpu_proc s = Some i -> procs s !! i = None -> held s = [] -> sleep s = Panic "kerneltrap".
Proof.
  intros Hi Hp Hh. unfold sleep. rewrite (bind_curproc i) by done.
  run (acquire_ok (L_proc i) s ltac:(rewrite Hh; apply not_elem_of_nil)).
  apply bind_panic. unfold getproc, get_at. rs. by rewrite Hp.
Qed.

(** The scan of [kkill] stops at the first process with the pid. *)
Lemma kkill_loop_ok pid j k s :
  length (procs s) = (j + k)%nat -> (forall i, L_proc i ∉ held s) ->
  kkill_loop (seq j k) pid s =
    match list_find (fun p => p_pid p = pid) (drop j (procs s)) with
    | Some (i, _) => Ok 0 (s <| procs := alter kill1 (j + i)%nat (procs s) |>)
    | None => Ok (-1) s
    end.
Proof.
  revert j. induction k as [|k IH]; intros j Hlen Hl; cbn [seq kkill_loop].
  - by rewrite drop_ge by lia.
  - destruct (lookup_lt_is_Some_2 (procs s) j) as [p Hp]; [lia|].
    rewrite (drop_S _ _ _ Hp). cbn [list_find].
    run (acquire_ok (L_proc j) s (Hl j)).
    erewrite (bind_ok (getproc j)); [|apply get_at_ok; rs; exact Hp].
    destruct (Z.eqb_spec (p_pid p) pid) as [He|Hne].
    + rewrite decide_True by done. rewrite Nat.add_0_r. apply wp_to_eq.
      wsteps. apply wp_when; intros Hs; wsteps; split; try done; rs; rewrite ?alter_alter;
        rewrite (alter_eq _ kill1 j _ p Hp); try st_eq s; unfold kill1.
      * apply bool_decide_eq_true in Hs. by rewrite decide_True.
      * apply bool_decide_eq_false in Hs. by rewrite decide_False.
    + rewrite decide_False by done.
      erewrite (bind_ok (release (L_proc j))); [|eapply release_ok; [rs; done|done]].
      replace (s <| held := L_proc j :: held s |> <| held := held s |>) with s by st_eq s.
      rewrite IH by (done || lia). destruct (list_find _ _) as [[i q]|]; [|done].
      cbn. by rewrite Nat.add_succ_r.
Qed.

Lemma kkill_ok pid s :
  no_plock s ->
  kkill pid s = match list_find (fun p => p_pid p = pid) (procs s) with
                | Some (i, _) => Ok 0 (s <| procs := alter kill1 i (procs s) |>)
                | None => Ok (-1) s
                end.
Proof. intros [Hlen Hl]. unfold kkill. by rewrite kkill_loop_ok. Qed.

(** ** The sleep and wakeup protocol *)

Section wakeup_proofs.
Import Wakeup.
Context (c : chan).

Lemma wgoto_eq t x f : goto t x f t = x.
Proof. unfold goto. by rewrite decide_True. Qed.

Lemma wgoto_ne t t' x f : t' <> t -> goto t x f t' = f t'.
Proof. intros. unfold goto. by rewrite decide_False. Qed.

Lemma proc_ok_mono g g' i p :
  pcs g' (Sleeper i) = pcs g (Sleeper i) -> (coming g i -> coming g' i) ->
  (cond g' = true -> cond g = true \/ coming g' i) ->
  proc_ok c g i p -> proc_ok c g' i p.
Proof.
  intros Hpc Hc Hb [H1 H2]. unfold proc_ok. rewrite Hpc. split; [done|].
  intros Hw. destruct (H2 Hw) as [?|[? H]]; [by left|]. right. split; [done|].
  destruct (cond g') eqn:E; [|by left]. right.
  destruct (Hb eq_refl); [|done]. destruct H; [congruence|auto].
Qed.

Lemma coming_sleeper s b o f s' b' o' j x i :
  coming (mkConfig s b o f) i -> coming (mkConfig s' b' o' (goto (Sleeper j) x f)) i.
Proof. intros (w & k & H & Hk). exists w, k. cbn in *. by rewrite wgoto_ne. Qed.

(** A step of sleeper [j] that leaves the process table alone. *)
Lemma proc_ok_sleeper s s' b b' o o' f j x i p :
  f (Sleeper j) <> S_asleep -> (waiting x = true -> waiting (f (Sleeper j)) = true) ->
  (b' = true -> b = true) ->
  proc_ok c (mkConfig s b o f) i p -> proc_ok c (mkConfig s' b' o' (goto (Sleeper j) x f)) i p.
Proof.
  intros Ha Hx Hb H. destruct (decide (i = j)) as [->|Hne].
  - destruct H as [H1 H2]. unfold proc_ok in *. cbn in *. rewrite wgoto_eq. split.
    + intros Hs. by destruct (H1 Hs).
    + intros Hw. destruct (H2 (Hx Hw)) as [?|[? H]]; [by left|right]. split; [done|].
      destruct b'; [|by left]. destruct H as [H|H]; [by rewrite Hb in H|].
      right. by eapply coming_sleeper.
  - eapply proc_ok_mono; [| | |exact H]; cbn.
    + apply wgoto_ne. congruence.
    + apply coming_sleeper.
    + intros Hb'. left. auto.
Qed.

(** A step of waker [w] that leaves the process table alone. *)
Lemma proc_ok_waker s s' b b' o o' f w x i p :
  (forall k, f (Waker w) = W_wake k -> (i < k)%nat) ->
  (b' = true -> b = true \/ x = W_wake 0) ->
  proc_ok c (mkConfig s b o f) i p -> proc_ok c (mkConfig s' b' o' (goto (Waker w) x f)) i p.
Proof.
  intros Hk Hb H. eapply proc_ok_mono; [| | |exact H]; cbn.
  - by apply wgoto_ne.
  - intros (w' & k & Hw & Hle). cbn in Hw. exists w', k. cbn. rewrite wgoto_ne; [done|].
    intros [= ->]. specialize (Hk k Hw). lia.
  - intros E. destruct (Hb E) as [?| ->]; [by left|right]. exists w, 0%nat. cbn.
    rewrite wgoto_eq. split; [done|lia].
Qed.

Lemma as_proc_ok i s :
  cpu_proc (as_proc i s) = Some i /\ held (as_proc i s) = [] /\ procs (as_proc i s) = procs s.
Proof. unfold as_proc. by rs. Qed.

(** What the operations of a step do to the table. *)
Lemma prepare_procs i s s' :
  sleep_prepare (Some c) (as_proc i s) = Ok tt s' ->
  procs s' = alter (fun p => p <| p_chan := Some c |>) i (procs s).
Proof.
  destruct (as_proc_ok i s) as (H1 & H2 & H3).
  rewrite (sleep_prepare_ok c i) by (try done; rewrite H2; apply not_elem_of_nil).
  rewrite H3. intros [= <-]. by rs.
Qed.

Lemma sleep_ok_procs i s s' :
  sleep (as_proc i s) = Ok tt s' -> procs s' = procs s.
Proof.
  destruct (as_proc_ok i s) as (H1 & H2 & H3).
  destruct (procs s !! i) as [p|] eqn:Hp.
  - destruct (p_chan p) eqn:Hc.
    + rewrite (sleep_switch i p) by (rewrite ?H3; congruence). done.
    + rewrite (sleep_no_wait i p); rewrite ?H2, ?H3; try done; [|apply not_elem_of_nil].
      intros [= <-]. by rewrite H3.
  - rewrite (sleep_fault i) by (rewrite ?H3; done). done.
Qed.

Lemma sleep_switch_procs i s s' k :
  sleep (as_proc i s) = Switch s' k ->
  procs s' = alter (fun p => p <| p_state := SLEEPING |>) i (procs s) /\
  forall p, procs s !! i = Some p -> p_chan p <> None.
Proof.
  destruct (as_proc_ok i s) as (H1 & H2 & H3).
  destruct (procs s !! i) as [p|] eqn:Hp.
  - destruct (p_chan p) eqn:Hc.
    + rewrite (sleep_switch i p) by (rewrite ?H3; congruence). rewrite H3.
      intros [= <- _]. rs. split; [done|]. intros q [= <-]. congruence.
    + rewrite (sleep_no_wait i p); rewrite ?H2, ?H3; try done. apply not_elem_of_nil.
  - rewrite (sleep_fault i) by (rewrite ?H3; done). done.
Qed.

Lemma wakeup1_procs c' k s s' :
  (k < length (procs s))%nat -> wakeup1 c' k (s <| held := [] |>) = Ok tt s' ->
  procs s' = alter (wake1 c') k (procs s).
Proof.
  intros Hk. destruct (lookup_lt_is_Some_2 _ _ Hk) as [p Hp].
  rewrite (wakeup1_ok c' k p) by (rs; try done; apply not_elem_of_nil). intros [= <-]. by rs.
Qed.

Lemma kkill_procs pid s s' r :
  length (procs s) = NPROC -> kkill pid (s <| held := [] |>) = Ok r s' ->
  procs s' = procs s \/ exists i, procs s' = alter kill1 i (procs s).
Proof.
  intros Hl. rewrite kkill_ok by (split; rs; [done|intros; apply not_elem_of_nil]). rs.
  destruct (list_find _ _) as [[i q]|]; intros [= <- <-]; rs; [right; eauto|by left].
Qed.

(** Changes of a process that only take it further from sleeping. *)
Lemma proc_ok_change g i p p' :
  (p_state p' = SLEEPING -> p_state p = SLEEPING /\ p_chan p' = p_chan p) ->
  (p_chan p' = p_chan p \/ p_chan p' = None) ->
  proc_ok c g i p -> proc_ok c g i p'.
Proof.
  intros Hs Hc [H1 H2]. split.
  - intros H. destruct (Hs H) as [E ->]. auto.
  - intros Hw. destruct Hc as [->| ->]; [auto|by left].
Qed.

Lemma wake1_change c' p :
  (p_state (wake1 c' p) = SLEEPING -> p_state p = SLEEPING /\ p_chan (wake1 c' p) = p_chan p) /\
  (p_chan (wake1 c' p) = p_chan p \/ p_chan (wake1 c' p) = None).
Proof. unfold wake1. repeat case_decide; rs; naive_solver. Qed.

Lemma kill1_change p :
  (p_state (kill1 p) = SLEEPING -> p_state p = SLEEPING /\ p_chan (kill1 p) = p_chan p) /\
  (p_chan (kill1 p) = p_chan p \/ p_chan (kill1 p) = None).
Proof. unfold kill1. repeat case_decide; rs; naive_solver. Qed.

(** The lock is held by the thread whose program point says so. *)
Lemma holds_goto t x f o o' :
  (forall t', holds_lk (f t') = true -> o = Some t') ->
  (holds_lk x = true -> o' = Some t) -> (o' = o \/ o = None \/ o = Some t) ->
  forall t', holds_lk (goto t x f t') = true -> o' = Some t'.
Proof.
  intros H Hx Ho t'. unfold goto. case_decide as Hd; [by subst|]. intros Ht.
  destruct Ho as [->|[->| ->]]; [auto|by specialize (H t' Ht)|].
  specialize (H t' Ht). congruence.
Qed.

Lemma procs_alter (f : proc -> proc) (l : list proc) k i p :
  alter f k l !! i = Some p ->
  (i <> k /\ l !! i = Some p) \/ (i = k /\ exists q, l !! k = Some q /\ p = f q).
Proof.
  destruct (decide (i = k)) as [->|Hne].
  - rewrite list_lookup_alter_eq. destruct (l !! k) as [q|]; [|done]. intros [= <-]. right. eauto.
  - rewrite list_lookup_alter_ne by done. by left.
Qed.

Lemma inv_prepare s s' o f j :
  f (Sleeper j) = S_test -> sleep_prepare (Some c) (as_proc j s) = Ok tt s' ->
  (forall i p, procs s !! i = Some p -> proc_ok c (mkConfig s false o f) i p) ->
  forall i p, procs s' !! i = Some p ->
    proc_ok c (mkConfig s' false o (goto (Sleeper j) S_prepared f)) i p.
Proof.
  intros Hj Hop HI i p Hp. rewrite (prepare_procs j s s' Hop) in Hp.
  apply procs_alter in Hp as [[Hne Hp]|[-> (q & Hq & ->)]].
  - eapply proc_ok_mono; [| | |exact (HI i p Hp)]; cbn;
      [apply wgoto_ne; congruence|apply coming_sleeper|by left].
  - destruct (HI j q Hq) as [H1 _]. split; cbn; rs; rewrite wgoto_eq;
      [|by intros _; right; split; [|left]].
    intros E. destruct (H1 E) as [E' _]. cbn in E'. congruence.
Qed.

Lemma inv_sleep s s' k b o f j :
  f (Sleeper j) = S_released -> sleep (as_proc j s) = Switch s' k ->
  (forall i p, procs s !! i = Some p -> proc_ok c (mkConfig s b o f) i p) ->
  forall i p, procs s' !! i = Some p ->
    proc_ok c (mkConfig s' b o (goto (Sleeper j) S_asleep f)) i p.
Proof.
  intros Hj Hop HI i p Hp. destruct (sleep_switch_procs j s s' k Hop) as [E Hc]. rewrite E in Hp.
  apply procs_alter in Hp as [[Hne Hp]|[-> (q & Hq & ->)]].
  - eapply proc_ok_mono; [| | |exact (HI i p Hp)]; cbn;
      [apply wgoto_ne; congruence|apply coming_sleeper|by left].
  - destruct (HI j q Hq) as [_ H2]. split; cbn; rs; rewrite wgoto_eq;
      [intros _; split; [done|by apply Hc]|].
    intros _. destruct H2 as [?|[? H]]; [cbn; by rewrite Hj|by left|right].
    split; [done|]. destruct H as [|H]; [by left|right; by eapply coming_sleeper].
Qed.

Lemma inv_run s b o f j q :
  f (Sleeper j) = S_asleep -> procs s !! j = Some q ->
  (forall i p, procs s !! i = Some p -> proc_ok c (mkConfig s b o f) i p) ->
  forall s' i p, alter (fun p => p <| p_state := RUNNING |>) j (procs s) !! i = Some p ->
    proc_ok c (mkConfig s' b o (goto (Sleeper j) S_start f)) i p.
Proof.
  intros Hj Hq HI s' i p Hp. apply procs_alter in Hp as [[Hne Hp]|[-> (q' & Hq' & ->)]].
  - eapply proc_ok_mono; [| | |exact (HI i p Hp)]; cbn;
      [apply wgoto_ne; congruence|apply coming_sleeper|by left].
  - split; cbn; rs; rewrite wgoto_eq; done.
Qed.

Lemma inv_wake s s' b o f w k :
  f (Waker w) = W_wake k -> (k < length (procs s))%nat ->
  wakeup1 (Some c) k (s <| held := [] |>) = Ok tt s' ->
  (forall i p, procs s !! i = Some p -> proc_ok c (mkConfig s b o f) i p) ->
  forall i p, procs s' !! i = Some p ->
    proc_ok c (mkConfig s' b o (goto (Waker w) (W_wake (S k)) f)) i p.
Proof.
  intros Hw Hk Hop HI i p Hp. rewrite (wakeup1_procs _ _ _ _ Hk Hop) in Hp.
  apply procs_alter in Hp as [[Hne Hp]|[-> (q & Hq & ->)]].
  - eapply proc_ok_mono; [| | |exact (HI i p Hp)]; cbn; [by apply wgoto_ne| |by left].
    intros (w' & k' & H1 & H2). cbn in H1. unfold coming. cbn.
    destruct (decide (w' = w)) as [->|].
    + exists w, (S k). rewrite wgoto_eq. rewrite Hw in H1. injection H1 as ->. split; [done|lia].
    + exists w', k'. rewrite wgoto_ne by congruence. done.
  - pose proof (HI k q Hq) as [H1 H2]. cbn in *. destruct (wake1_change (Some c) q) as [Hs Hc].
    split; cbn; rewrite wgoto_ne by done.
    + intros E. destruct (Hs E) as [E1 E2]. rewrite E2. auto.
    + intros Hwt. left. unfold wake1 in *. case_decide as Hd; [by case_decide; rs|].
      destruct (H2 Hwt) as [|[E _]]; [done|congruence].
Qed.

Lemma step_length g g' :
  length (procs (ks g)) = NPROC -> step c g g' -> length (procs (ks g')) = NPROC.
Proof.
  intros Hl Hs. destruct Hs; cbn [ks] in *; try done.
  - by erewrite prepare_procs, length_alter by eassumption.
  - by erewrite sleep_ok_procs by eassumption.
  - edestruct sleep_switch_procs as [E _]; [eassumption|]. by rewrite E, length_alter.
  - rs. by rewrite length_alter.
  - rewrite (wakeup1_procs (Some c) k s s') by (done || lia). by rewrite length_alter.
  - rewrite (wakeup1_procs (Some c') k s s') by (done || lia). by rewrite length_alter.
  - edestruct kkill_procs as [E|[j E]]; [done|eassumption| |]; rewrite E; [done|].
    by rewrite length_alter.
Qed.

Lemma step_lock g g' :
  (forall t, holds_lk (pcs g t) = true -> owner g = Some t) -> step c g g' ->
  forall t, holds_lk (pcs g' t) = true -> owner g' = Some t.
Proof.
  intros Hlk Hs. destruct Hs; cbn [pcs owner] in *; try exact Hlk;
    (eapply holds_goto; [exact Hlk|cbn; try done|auto]);
    try (intros _; apply Hlk; by rewrite H);
    right; right; apply Hlk; by rewrite H.
Qed.

Lemma step_procs g g' :
  inv c g -> step c g g' -> forall i p, procs (ks g') !! i = Some p -> proc_ok c g' i p.
Proof.
  intros (Hlen & Hlk & HI) Hs. destruct Hs; cbn [ks cond owner pcs] in *; intros j x Hp.
  - eapply proc_ok_sleeper; cycle 3; [by apply HI|by rewrite H|done|done].
  - by eapply inv_prepare.
  - eapply proc_ok_sleeper; cycle 3; [by apply HI|by rewrite H|done|done].
  - eapply proc_ok_sleeper; cycle 3; [by apply HI|by rewrite H|done|done].
  - eapply proc_ok_sleeper; cycle 3; [by apply HI|by rewrite H|by rewrite H|done].
  - rewrite (sleep_ok_procs i s s') in Hp by done.
    eapply proc_ok_sleeper; cycle 3; [by apply HI|by rewrite H|done|done].
  - by eapply inv_sleep.
  - by eapply inv_run.
  - eapply proc_ok_waker; cycle 2; [by apply HI|by rewrite H|auto].
  - eapply proc_ok_waker; cycle 2; [by apply HI|by rewrite H|auto].
  - eapply inv_wake; try eassumption. lia.
  - eapply proc_ok_waker; cycle 2; [by apply HI| |auto]. rewrite H. intros k [= <-].
    apply lookup_lt_Some in Hp. lia.
  - eapply proc_ok_waker; cycle 2; [by apply HI|by rewrite H|auto].
  - rewrite (wakeup1_procs (Some c') k s s') in Hp by (done || lia).
    apply procs_alter in Hp as [[_ Hp]|[-> (q & Hq & ->)]]; [by apply HI|].
    destruct (wake1_change (Some c') q) as [Hs Hc].
    eapply (proc_ok_change _ _ q); [done|done|by apply HI].
  - destruct (kkill_procs pid s s' r Hlen H) as [E|[k E]]; rewrite E in Hp; [by apply HI|].
    apply procs_alter in Hp as [[_ Hp]|[-> (q & Hq & ->)]]; [by apply HI|].
    destruct (kill1_change q) as [Hs Hc].
    eapply (proc_ok_change _ _ q); [done|done|by apply HI].
Qed.

Lemma inv_init g : init g -> inv c g.
Proof.
  intros (Hlen & Ho & Hst & Hs & Hw). split; [done|]. split.
  - intros [i|w]; [by rewrite Hs|by rewrite Hw].
  - intros i p Hp. split; [intros E; by destruct (Hst i p Hp)|by rewrite Hs].
Qed.

Lemma inv_reachable g : reachable c g -> inv c g.
Proof.
  intros (g0 & Hi & Hr). apply inv_init in Hi. induction Hr as [|g1 g2 g3 Hs _ IH]; [done|].
  apply IH. split; [|split].
  - eapply step_length; [apply Hi|done].
  - eapply step_lock; [apply Hi|done].
  - by eapply step_procs.
Qed.

(** C4: No wakeup is lost.  In every interleaving of sleepers, wakers, kills and
    wakeups on other channels, a process that is asleep on the channel while the
    condition is true has a waker that still has to reach it in [wakeup]'s scan; so
    whenever the condition lock is free, nobody sleeps on a true condition. *)
Theorem no_lost_wakeup g i p :
  reachable c g -> procs (ks g) !! i = Some p -> p_state p = SLEEPING -> cond g = true ->
  coming g i /\ owner g <> None.
Proof.
  intros Hr Hp Hs Hc. destruct (inv_reachable g Hr) as (_ & Hlk & HI).
  destruct (HI i p Hp) as [H1 H2]. destruct (H1 Hs) as [Hpc Hch].
  destruct H2 as [?|[_ [?|Hcom]]]; [by rewrite Hpc|done|congruence|]. split; [done|].
  destruct Hcom as (w & k & Hw & _). rewrite (Hlk (Waker w)); [done|]. by rewrite Hw.
Qed.

End wakeup_proofs.

(** Process 0 goes to sleep on the log's channel, and a waker has set the condition. *)
Section wakeup_witness.
Import Wakeup.

Definition start : config :=
  mkConfig boot_state false None
    (fun t => match t with Sleeper _ => S_start | Waker _ => W_start end).

Lemma asleep_reachable :
  exists g, reachable Ch_log g /\ cond g = true /\
    exists p, procs (ks g) !! 0%nat = Some p /\ p_state p = SLEEPING.
Proof.
  eexists. split.
  - exists start. split.
    + split; [done|]. split; [done|]. split; [|done]. intros i p Hp.
      apply lookup_replicate in Hp as [-> _]. done.
    + eapply rtc_l; [by apply (s_acquire _ 0)|].
      eapply rtc_l; [eapply (s_prepare _ 0); [done|]; apply (sleep_prepare_ok _ 0); rs;
                     [done|apply not_elem_of_nil]|].
      eapply rtc_l; [by apply (s_release _ 0)|].
      eapply rtc_l; [eapply (s_sleep _ 0); [done|]; eapply (sleep_switch 0); by rs|].
      eapply rtc_l; [by apply (w_acquire _ 0)|].
      eapply rtc_l; [by apply (w_set _ 0)|]. apply rtc_refl.
  - split; [done|]. eexists. split; [rs; reflexivity|done].
Qed.

Lemma no_lost_wakeup_witness :
  exists g, reachable Ch_log g /\ cond g = true /\ coming g 0 /\ owner g <> None.
Proof.
  destruct asleep_reachable as (g & Hr & Hc & p & Hp & Hs). exists g.
  split; [exact Hr|]. split; [exact Hc|].
  exact (no_lost_wakeup Ch_log g 0 p Hr Hp Hs Hc).
Defined.

End wakeup_witness.

(** ** Switching *)

Lemma scheduler_scan_skip i idx found p s :
  procs s !! i = Some p -> p_state p <> RUNNABLE -> L_proc i ∉ held s ->
  scheduler_scan (i :: idx) found s = scheduler_scan idx found s.
Proof.
  intros Hp Hr Hl. cbn [scheduler_scan]. run (acquire_ok (L_proc i) s Hl).
  erewrite (bind_ok (getproc i)); [|apply get_at_ok; rs; exact Hp].
  rewrite decide_False by done.
  erewrite (bind_ok (release _)); [|eapply release_ok; [rs; done|done]].
  f_equal. st_eq s.
Qed.

Lemma scheduler_scan_run i idx found p s :
  procs s !! i = Some p -> p_state p = RUNNABLE -> L_proc i ∉ held s ->
  scheduler_scan (i :: idx) found s =
    Switch (s <| held := L_proc i :: held s |>
              <| procs := alter (fun p => p <| p_state := RUNNING |>) i (procs s) |>
              <| cpu_proc := Some i |>)
           (modify (fun s => s <| cpu_proc := None |>) ;;
            release (L_proc i) ;; scheduler_scan idx true).
Proof.
  intros Hp Hr Hl. cbn [scheduler_scan]. run (acquire_ok (L_proc i) s Hl).
  erewrite (bind_ok (getproc i)); [|apply get_at_ok; rs; exact Hp].
  rewrite decide_True by done. reflexivity.
Qed.

Lemma scheduler_scan_first i j k found p s :
  procs s !! i = Some p -> p_state p = RUNNABLE -> (forall n, L_proc n ∉ held s) ->
  (j <= i < j + k)%nat -> (j + k <= length (procs s))%nat ->
  (forall n q, (j <= n < i)%nat -> procs s !! n = Some q -> p_state q <> RUNNABLE) ->
  scheduler_scan (seq j k) found s =
  scheduler_scan (i :: seq (S i) (j + k - S i)) found s.
Proof.
  intros Hp Hr Hl. revert j. induction k as [|k IH]; intros j Hj Hlen Hn; [lia|].
  destruct (decide (j = i)) as [->|Hne].
  - cbn [seq]. by replace (i + S k - S i)%nat with k by lia.
  - cbn [seq]. destruct (lookup_lt_is_Some_2 (procs s) j) as [q Hq]; [lia|].
    rewrite (scheduler_scan_skip j _ found q) by (done || (apply (Hn j); done || lia)).
    rewrite IH by (try lia; intros n r Hnr; apply Hn; lia).
    by replace (S j + k)%nat with (j + S k)%nat by lia.
Qed.

(** C38: A scan of [scheduler] that starts with no lock held gives the CPU to the
    first runnable process [i]: that process is marked running, is the CPU's current
    process, and its lock is the only one held, so the resumed thread can release it.
    When the process comes back with only its lock held, the scheduler releases it,
    forgets the process and carries on with the processes after [i]. *)
Theorem scheduler_handoff s i p :
  no_plock s -> held s = [] -> procs s !! i = Some p -> p_state p = RUNNABLE ->
  (forall j q, (j < i)%nat -> procs s !! j = Some q -> p_state q <> RUNNABLE) ->
  exists t k,
    scheduler_round s = Switch t k /\ cpu_proc t = Some i /\ held t = [L_proc i] /\
    procs t = <[i := p <| p_state := RUNNING |>]> (procs s) /\
    (exists t', release (L_proc i) t = Ok tt t' /\ held t' = []) /\
    forall u, held u = [L_proc i] ->
      k u = scheduler_scan (seq (S i) (NPROC - S i)) true (u <| cpu_proc := None |> <| held := [] |>).
Proof.
  intros [Hlen Hl] Hh Hp Hr Hn. pose proof (lookup_lt_Some _ _ _ Hp) as Hi.
  unfold scheduler_round.
  rewrite (scheduler_scan_first i 0 NPROC false p) by
    (try done; try lia; intros n q Hnq; apply Hn; lia).
  rewrite (scheduler_scan_run i _ false p) by done. rewrite Hh. eexists _, _.
  split; [done|]. rs. do 2 (split; [done|]). split; [|split].
  - by apply alter_insert.
  - eexists. split; [apply (release_ok _ []); [by rs|apply not_elem_of_nil]|]. by rs.
  - intros u Hu. rewrite bind_modify.
    erewrite (bind_ok (release _)); [|apply (release_ok _ []); [by rs|apply not_elem_of_nil]].
    reflexivity.
Qed.

Lemma scheduler_handoff_witness :
  let s := boot_state <| procs := <[3%nat := zero_proc <| p_state := RUNNABLE |>]> (procs boot_state) |> in
  exists t k,
    scheduler_round s = Switch t k /\ cpu_proc t = Some 3%nat /\ held t = [L_proc 3] /\
    procs t = <[3%nat := zero_proc <| p_state := RUNNABLE |> <| p_state := RUNNING |>]> (procs s) /\
    (exists t', release (L_proc 3) t = Ok tt t' /\ held t' = []) /\
    forall u, held u = [L_proc 3] ->
      k u = scheduler_scan (seq 4 (NPROC - 4)) true (u <| cpu_proc := None |> <| held := [] |>).
Proof.
  intros s. apply (scheduler_handoff s 3); try reflexivity.
  - split; [reflexivity|]. intros i. apply not_elem_of_nil.
  - intros j q Hj Hq. assert (q = zero_proc) as ->; [|done].
    unfold s in Hq. rs_in Hq. rewrite list_lookup_insert_ne in Hq by lia.
    by apply lookup_replicate in Hq as [-> _].
Defined.

(** What the three ways of giving up the CPU do.  [yield] and [sleep] (after
    [sleep_prepare], no wakeup having come) switch away with the process runnable,
    respectively sleeping, and with its lock as the only lock held, which is what [sched]
    checks and [scheduler] relies on; when resumed they release that lock.  If the wakeup
    came before [sleep], it returns at once and changes nothing. *)
Lemma sleep_yield_switch s i p :
  cpu_proc s = Some i -> procs s !! i = Some p -> held s = [] ->
  yield s = Switch (s <| held := [L_proc i] |>
                      <| procs := <[i := p <| p_state := RUNNABLE |>]> (procs s) |>)
                   (release (L_proc i)) /\
  match p_chan p with
  | Some _ => sleep s = Switch (s <| held := [L_proc i] |>
                                  <| procs := <[i := p <| p_state := SLEEPING |>]> (procs s) |>)
                               (release (L_proc i))
  | None => sleep s = Ok tt s
  end /\
  (forall c, sleep_prepare (Some c) s =
     Ok tt (s <| procs := <[i := p <| p_chan := Some c |>]> (procs s) |>)) /\
  sleep_prepare None s = Panic "sleep_prepare: zero chan".
Proof.
  intros Hi Hp Hh. assert (Hn : L_proc i ∉ held s) by (rewrite Hh; apply not_elem_of_nil).
  split; [|split; [|split]].
  - rewrite (yield_switch i p) by done. by rewrite (alter_insert _ _ _ _ Hp).
  - destruct (p_chan p) eqn:Hc; [|by apply (sleep_no_wait i p)].
    rewrite (sleep_switch i p) by congruence. by rewrite (alter_insert _ _ _ _ Hp).
  - intros c. rewrite (sleep_prepare_ok c i) by done. by rewrite (alter_insert _ _ _ _ Hp).
  - unfold sleep_prepare. rewrite (bind_curproc i) by done. by run (acquire_ok _ s Hn).
Qed.

(** [wakeup(c)] makes every process that sleeps on [c] runnable, clears the
    channel of every process registered on it and leaves all others alone; [kkill(pid)]
    marks the first process with that pid killed, makes it runnable if it was asleep, and
    returns -1 and changes nothing if there is none. *)
Lemma wakeup_kkill_effect s c pid :
  no_plock s ->
  wakeup c s = Ok tt (s <| procs := map (wake1 c) (procs s) |>) /\
  kkill pid s = match list_find (fun p => p_pid p = pid) (procs s) with
                | Some (i, _) => Ok 0 (s <| procs := alter kill1 i (procs s) |>)
                | None => Ok (-1) s
                end.
Proof. intros H. split; [by apply wakeup_ok|by apply kkill_ok]. Qed.

