(* ===== verification/Sleeplock.v ===== *)
(** kernel/sleeplock.c: long-term locks for processes. *)

From stdpp Require Import prelude gmap strings.
From Stdlib Require Import ZArith Lia.
From S2P Require Import Prelude Bytes Params State Spinlock Sched.

Local Open Scope Z_scope.
Local Open Scope kernel_scope.

(** The sleep-lock a [struct sleeplock *] points to. *)
Definition get_sl (l : sleeplock_id) : K sleeplock :=
  match l with
  | SL_buf i => b <- getbuf i ;; ret (b_lock b)
  | SL_inode i => ip <- getinode i ;; ret (i_lock ip)
  | SL_uart => gets tx_lock
  end.

Definition upd_sl (l : sleeplock_id) (f : sleeplock -> sleeplock) : K unit :=
  match l with
  | SL_buf i => updbuf i (fun b => b <| b_lock ::= f |>)
  | SL_inode i => updinode i (fun ip => ip <| i_lock ::= f |>)
  | SL_uart => modify (fun s => s <| tx_lock ::= f |>)
  end.

Definition initsleeplock (l : sleeplock_id) : K unit := upd_sl l (fun _ => mkSleeplock false 0).

Section sleeplock.
Context {F : Fuel}.

Definition acquiresleep (l : sleeplock_id) : K unit :=
  acquire (L_sl l) ;;
  while_sleep sleep_fuel (lk <- get_sl l ;; ret (sl_locked lk))
    (sleep_prepare (Some (Ch_sl l)) ;;
     release (L_sl l) ;;
     sleep ;;
     acquire (L_sl l)) ;;
  upd_sl l (fun lk => lk <| sl_locked := true |>) ;;
  i <- curproc ;;
  p <- getproc i ;;
  upd_sl l (fun lk => lk <| sl_pid := p_pid p |>) ;;
  release (L_sl l).

Definition releasesleep (l : sleeplock_id) : K unit :=
  acquire (L_sl l) ;;
  upd_sl l (fun lk => lk <| sl_locked := false |> <| sl_pid := 0 |>) ;;
  wakeup (Some (Ch_sl l)) ;;
  release (L_sl l).

Definition holdingsleep (l : sleeplock_id) : K bool :=
  acquire (L_sl l) ;;
  lk <- get_sl l ;;
  r <- (if sl_locked lk then
          i <- curproc ;; p <- getproc i ;; ret (sl_pid lk =? p_pid p)
        else ret false) ;;
  release (L_sl l) ;;
  ret r.

(** The lock [l] in a state, and a state with that lock changed. *)
Definition sl_of (l : sleeplock_id) (s : kstate) : option sleeplock :=
  match l with
  | SL_buf i => b_lock <$> bufs s !! i
  | SL_inode i => i_lock <$> itable s !! i
  | SL_uart => Some (tx_lock s)
  end.

Definition set_sl (l : sleeplock_id) (x : sleeplock) (s : kstate) : kstate :=
  match l with
  | SL_buf i => s <| bufs := alter (fun b => b <| b_lock := x |>) i (bufs s) |>
  | SL_inode i => s <| itable := alter (fun ip => ip <| i_lock := x |>) i (itable s) |>
  | SL_uart => s <| tx_lock := x |>
  end.

(** No process waits for a wakeup, and the process table has its size. *)
Definition idle (s : kstate) : Prop :=
  length (procs s) = NPROC /\ Forall (fun p => p_chan p = None) (procs s).

(** ** Lemmas *)

Lemma get_sl_ok l x s : sl_of l s = Some x -> get_sl l s = Ok x s.
Proof.
  destruct l as [i|i|]; cbn; [| |by intros [= <-]].
  - intros H. apply fmap_Some in H as (b & Hb & ->). by run (get_at_ok bufs i b s Hb).
  - intros H. apply fmap_Some in H as (b & Hb & ->). by run (get_at_ok itable i b s Hb).
Qed.

Lemma upd_sl_ok l x f s : sl_of l s = Some x -> upd_sl l f s = Ok tt (set_sl l (f x) s).
Proof.
  destruct l as [i|i|]; cbn; [| |by intros [= <-]]; intros H; apply fmap_Some in H as (b & Hb & ->);
    unfold updbuf, updinode, modify; f_equal.
  - by rewrite (alter_eq _ (fun b' => b' <| b_lock := f (b_lock b) |>) _ _ b Hb).
  - by rewrite (alter_eq _ (fun b' => b' <| i_lock := f (i_lock b) |>) _ _ b Hb).
Qed.

Lemma sl_of_set l x y s : sl_of l s = Some y -> sl_of l (set_sl l x s) = Some x.
Proof.
  destruct l as [i|i|]; cbn; intros H; rs; [| |done]; rewrite list_lookup_alter_eq;
    apply fmap_Some in H as (b & -> & _); reflexivity.
Qed.

Lemma set_sl_set l x y s : set_sl l x (set_sl l y s) = set_sl l x s.
Proof.
  destruct l; cbn; rs; rewrite ?alter_alter; st_eq s.
Qed.

Lemma set_sl_same l x s : sl_of l s = Some x -> set_sl l x s = s.
Proof.
  destruct l as [i|i|]; cbn; [| |intros [= <-]; by destruct s]; intros H;
    apply fmap_Some in H as (b & Hb & ->); rewrite (alter_same _ _ _ b Hb) by (by destruct b);
    by destruct s.
Qed.

(** The rest of the state does not change with a sleep-lock. *)
Lemma set_sl_frame l x s :
  held (set_sl l x s) = held s /\ procs (set_sl l x s) = procs s /\
  cpu_proc (set_sl l x s) = cpu_proc s.
Proof. destruct l; cbn; by rs. Qed.

Lemma set_sl_held l x h s : set_sl l x (s <| held := h |>) = (set_sl l x s) <| held := h |>.
Proof. destruct l; cbn; rs; st_eq s. Qed.

Lemma set_sl_procs l x ps s : set_sl l x (s <| procs := ps |>) = (set_sl l x s) <| procs := ps |>.
Proof. destruct l; cbn; rs; st_eq s. Qed.

Lemma sl_of_held l h s : sl_of l (s <| held := h |>) = sl_of l s.
Proof. destruct l; cbn; by rs. Qed.

Lemma held_held (s : kstate) h h' : s <| held := h |> <| held := h' |> = s <| held := h' |>.
Proof. st_eq s. Qed.

Lemma while_sleep_done {S : Type} n (c : M S bool) body s :
  c s = Ok false s -> while_sleep n c body s = Ok tt s.
Proof. intros H. destruct n; cbn [while_sleep]; by run H. Qed.

Lemma map_wake1_idle c (l : list proc) :
  Forall (fun p => p_chan p = None) l -> map (wake1 (Some c)) l = l.
Proof.
  induction 1 as [|p l Hp _ IH]; [done|]. cbn. f_equal; [|done].
  unfold wake1. by rewrite Hp, decide_False.
Qed.

Lemma releasesleep_ok l x s :
  sl_of l s = Some x -> L_sl l ∉ held s -> no_plock s ->
  releasesleep l s =
    Ok tt (set_sl l (mkSleeplock false 0)
             (s <| procs := map (wake1 (Some (Ch_sl l))) (procs s) |>)).
Proof.
  intros Hl Hh [Hlen Hn]. unfold releasesleep. run (acquire_ok _ s Hh).
  set (s1 := s <| held := _ |>).
  assert (H1 : sl_of l s1 = Some x) by (unfold s1; by rewrite sl_of_held).
  run (upd_sl_ok l x _ s1 H1).
  destruct (set_sl_frame l (x <| sl_locked := false |> <| sl_pid := 0 |>) s1) as (F1 & F2 & F3).
  erewrite (bind_ok (wakeup _)); cycle 1.
  { apply wakeup_ok. split.
    - rewrite F2. unfold s1. by rs.
    - intros j. rewrite F1. unfold s1. rs. apply not_elem_of_cons. split; [done|apply Hn]. }
  rewrite (release_ok _ (held s)); [| |done].
  - rewrite F2. unfold s1. apply Ok_eq; [done|]. destruct l; cbn; rs; st_eq s.
  - rs. rewrite F1. unfold s1. by rs.
Qed.

Lemma releasesleep_idle l x s :
  sl_of l s = Some x -> L_sl l ∉ held s -> (forall i, L_proc i ∉ held s) -> idle s ->
  releasesleep l s = Ok tt (set_sl l (mkSleeplock false 0) s).
Proof.
  intros Hl Hh Hn [Hlen Hc]. rewrite (releasesleep_ok l x) by done.
  rewrite map_wake1_idle by done. 
  by replace (s <| procs := procs s |>) with s by (by destruct s).
Qed.

Lemma holdingsleep_ok l x i p s :
  sl_of l s = Some x -> L_sl l ∉ held s -> cpu_proc s = Some i -> procs s !! i = Some p ->
  holdingsleep l s = Ok (sl_locked x && (sl_pid x =? p_pid p)) s.
Proof.
  intros Hl Hh Hi Hp. unfold holdingsleep. run (acquire_ok _ s Hh).
  set (s1 := s <| held := _ |>).
  erewrite (bind_ok (get_sl l)) by (apply get_sl_ok; unfold s1; rewrite sl_of_held; exact Hl).
  erewrite (bind_ok _ _ s1 (sl_locked x && (sl_pid x =? p_pid p)) s1); cycle 1.
  { destruct (sl_locked x); [|done]. rewrite (bind_curproc i) by (unfold s1; by rs).
    by erewrite (bind_ok (getproc i)) by (apply get_at_ok; unfold s1; rs; exact Hp). }
  erewrite (bind_ok (release _)) by (apply (release_ok _ (held s)); [unfold s1; by rs|done]).
  unfold s1, ret. f_equal. st_eq s.
Qed.

(** The part of [acquiresleep] after its loop. *)
Lemma acquiresleep_tail l x i p s h :
  sl_of l s = Some x -> held s = L_sl l :: h -> L_sl l ∉ h ->
  cpu_proc s = Some i -> procs s !! i = Some p ->
  (upd_sl l (fun lk => lk <| sl_locked := true |>) ;;
   i <- curproc ;;
   p <- getproc i ;;
   upd_sl l (fun lk => lk <| sl_pid := p_pid p |>) ;;
   release (L_sl l)) s = Ok tt (set_sl l (mkSleeplock true (p_pid p)) (s <| held := h |>)).
Proof.
  intros H1 Hh Hn Hi Hp. run (upd_sl_ok l x _ s H1).
  destruct (set_sl_frame l (x <| sl_locked := true |>) s) as (F1 & F2 & F3).
  rewrite (bind_curproc i) by congruence.
  erewrite (bind_ok (getproc i)) by (apply get_at_ok; rewrite F2; exact Hp).
  erewrite (bind_ok (upd_sl l _)) by (eapply upd_sl_ok, sl_of_set, H1).
  rewrite set_sl_set, set_sl_held. apply release_ok; [|done].
  edestruct set_sl_frame as (-> & _). done.
Qed.

Lemma acquiresleep_ok l x i p s :
  sl_of l s = Some x -> sl_locked x = false -> L_sl l ∉ held s ->
  cpu_proc s = Some i -> procs s !! i = Some p ->
  acquiresleep l s = Ok tt (set_sl l (mkSleeplock true (p_pid p)) s).
Proof.
  intros Hl Hx Hh Hi Hp. unfold acquiresleep. run (acquire_ok _ s Hh).
  set (s1 := s <| held := _ |>).
  assert (H1 : sl_of l s1 = Some x) by (unfold s1; by rewrite sl_of_held).
  erewrite (bind_ok (while_sleep _ _ _)); cycle 1.
  { apply while_sleep_done. run (get_sl_ok l x s1 H1). by rewrite Hx. }
  rewrite (acquiresleep_tail l x i p s1 (held s)) by (done || unfold s1; by rs).
  unfold s1. by rewrite held_held, held_restore.
Qed.

(** ** Waiting *)

(** What [acquiresleep] of process [i] does in the state [s], if it sleeps at most [n] times: it takes the lock if that is
    free; otherwise it sleeps on the lock and, in whatever state it is resumed, starts again. *)
Fixpoint acquires (l : sleeplock_id) (i : nat) (n : nat) (s : kstate) (o : outcome kstate unit) : Prop :=
  exists x p, sl_of l s = Some x /\ procs s !! i = Some p /\
    if sl_locked x then
      match n with
      | O => o = NoFuel
      | S n' => exists k, o = Switch (sleeps_on i (Ch_sl l) s) k /\
          forall s', resumed i s' -> is_Some (sl_of l s') -> acquires l i n' (s' <| held := [] |>) (k s')
      end
    else o = Ok tt (set_sl l (mkSleeplock true (p_pid p)) s).

Lemma acquire_loop_ok l i n : forall s,
  held s = [L_sl l] -> cpu_proc s = Some i -> is_Some (procs s !! i) -> is_Some (sl_of l s) ->
  acquires l i n (s <| held := [] |>)
    ((while_sleep n (lk <- get_sl l ;; ret (sl_locked lk))
       (sleep_prepare (Some (Ch_sl l)) ;; release (L_sl l) ;; sleep ;; acquire (L_sl l)) ;;
      upd_sl l (fun lk => lk <| sl_locked := true |>) ;;
      i <- curproc ;;
      p <- getproc i ;;
      upd_sl l (fun lk => lk <| sl_pid := p_pid p |>) ;;
      release (L_sl l)) s).
Proof.
  assert (Htest : forall s x, sl_of l s = Some x -> (lk <- get_sl l ;; ret (sl_locked lk)) s = Ok (sl_locked x) s).
  { intros s x Hx. by erewrite (bind_ok (get_sl l)) by (by apply get_sl_ok). }
  induction n as [|n IH]; intros s Hh Hi [p Hp] [x Hx]; exists x, p; rewrite sl_of_held; rs; (split; [done|]); (split; [done|]);
    destruct (sl_locked x) eqn:E.
  - unfold bind at 1. cbn [while_sleep]. by rewrite (bind_ok _ _ _ _ _ (Htest s x Hx)), E.
  - erewrite (bind_ok (while_sleep _ _ _)) by (apply while_sleep_done; by rewrite (Htest s x Hx), E).
    apply (acquiresleep_tail l x i p s []); (done || apply not_elem_of_nil).
  - unfold bind at 1. cbn [while_sleep]. rewrite (bind_ok _ _ _ _ _ (Htest s x Hx)), E. unfold bind at 1.
    destruct (prepare_switch i (Ch_sl l) (L_sl l) (acquire (L_sl l)) s) as (k & -> & Hk); [done..|by eexists|].
    cbn [obind]. eexists. split; [unfold sleeps_on; f_equal; st_eq s|]. intros s' Hs' Hx'. cbv beta.
    rewrite (Hk s' Hs'), acquire_ok by (rs; apply not_elem_of_nil). cbn [obind]. destruct Hs' as [H1 H2 H3]. rs.
    replace (s' <| held := [] |>) with (s' <| held := [] |> <| held := [L_sl l] |> <| held := [] |>) by (by rewrite !held_held).
    apply IH; rs; rewrite ?sl_of_held; done.
  - erewrite (bind_ok (while_sleep _ _ _)) by (apply while_sleep_done; by rewrite (Htest s x Hx), E).
    apply (acquiresleep_tail l x i p s []); (done || apply not_elem_of_nil).
Qed.

Lemma acquiresleep_acquires l i s :
  held s = [] -> cpu_proc s = Some i -> is_Some (procs s !! i) -> is_Some (sl_of l s) ->
  acquires l i sleep_fuel s (acquiresleep l s).
Proof.
  intros Hh Hi Hp Hx. unfold acquiresleep. run (acquire_ok (L_sl l) s ltac:(rewrite Hh; apply not_elem_of_nil)). rewrite Hh.
  replace s with (s <| held := [L_sl l] |> <| held := [] |>) at 1 by (rewrite held_held, <- Hh; st_eq s).
  apply acquire_loop_ok; rs; rewrite ?sl_of_held; done.
Qed.

(** ** Mutual exclusion *)

(** Processes that use a sleep-lock: the state of the kernel, the processes that have returned from [acquiresleep] and not
    called [releasesleep], and those that are asleep in [acquiresleep], with the rest of it. *)
Record lsys := LSys { l_st : kstate; inside : list nat; queued : list (nat * K unit) }.

(** The process [i] has run, with outcome [o]: it is inside, or it waits. *)
Definition ran (i : nat) (o : outcome kstate unit) (ins : list nat) (w : list (nat * K unit)) : option lsys :=
  match o with
  | Ok _ s => Some (LSys s (i :: ins) w)
  | Switch s k => Some (LSys s ins ((i, k) :: w))
  | _ => None
  end.

Inductive lstep (l : sleeplock_id) : lsys -> lsys -> Prop :=
| l_acquire i s ins w y :
    is_Some (procs s !! i) -> ran i (acquiresleep l (on_cpu i [] s)) ins w = Some y -> lstep l (LSys s ins w) y
| l_resume i k s ins w1 w2 y :
    is_Some (procs s !! i) -> ran i (k (on_cpu i [L_proc i] s)) ins (w1 ++ w2) = Some y ->
    lstep l (LSys s ins (w1 ++ (i, k) :: w2)) y
| l_release i s s' ins1 ins2 w :
    releasesleep l (on_cpu i [] s) = Ok tt s' -> lstep l (LSys s (ins1 ++ i :: ins2) w) (LSys s' (ins1 ++ ins2) w)
| l_other s s' ins w :
    sl_of l s' = sl_of l s -> p_pid <$> procs s' = p_pid <$> procs s -> lstep l (LSys s ins w) (LSys s' ins w).

Inductive lreach (l : sleeplock_id) : lsys -> Prop :=
| l_init s : sl_of l s = Some (mkSleeplock false 0) -> length (procs s) = NPROC -> lreach l (LSys s [] [])
| l_step y y' : lreach l y -> lstep l y y' -> lreach l y'.

(** The lock is that of the process inside. *)
Definition lock_of (l : sleeplock_id) (s : kstate) (ins : list nat) : Prop :=
  exists x, sl_of l s = Some x /\
    match ins with
    | [] => sl_locked x = false
    | [i] => sl_locked x = true /\ p_pid <$> procs s !! i = Some (sl_pid x)
    | _ => False
    end.

Record linv (l : sleeplock_id) (y : lsys) : Prop := {
  li_lock : lock_of l (l_st y) (inside y);
  li_procs : length (procs (l_st y)) = NPROC;
  li_queued : Forall (fun w => exists n, forall s', resumed w.1 s' -> is_Some (sl_of l s') ->
    acquires l w.1 n (s' <| held := [] |>) (w.2 s')) (queued y);
}.

Lemma lock_of_ext l s s' ins :
  sl_of l s' = sl_of l s -> p_pid <$> procs s' = p_pid <$> procs s -> lock_of l s ins -> lock_of l s' ins.
Proof.
  intros E1 E2 (x & Hx & H). exists x. rewrite E1. split; [done|]. destruct ins as [|i [|]]; [done| |done].
  by rewrite <- list_lookup_fmap, E2, list_lookup_fmap.
Qed.

Lemma pids_alter (f : proc -> proc) i (ps : list proc) :
  (forall p, p_pid (f p) = p_pid p) -> p_pid <$> alter f i ps = p_pid <$> ps.
Proof.
  intros Hf. apply list_eq. intros j. rewrite !list_lookup_fmap. destruct (decide (i = j)) as [->|].
  - rewrite list_lookup_alter_eq. destruct (ps !! j); cbn; [by rewrite Hf|done].
  - by rewrite list_lookup_alter_ne.
Qed.

Lemma ran_inv l i n s o ins w y :
  acquires l i n s o -> lock_of l s ins -> length (procs s) = NPROC -> linv l (LSys s ins w) ->
  ran i o ins w = Some y -> linv l y.
Proof.
  intros Ha (x & Hx & Hins) Hlen [_ _ Hw] Hr. destruct n as [|n]; destruct Ha as (x' & p & Hx' & Hp & Ha);
    rewrite Hx in Hx'; injection Hx' as <-; destruct (sl_locked x) eqn:E.
  1: by rewrite Ha in Hr.
  2: destruct Ha as (k & Ha & Hk).
  all: rewrite Ha in Hr; injection Hr as <-.
  2: { split; cbn [l_st inside queued].
       - eapply (lock_of_ext l s); [by destruct l|unfold sleeps_on; rs; by rewrite !pids_alter|]. exists x. by rewrite E.
       - unfold sleeps_on. rs. by rewrite !length_alter.
       - constructor; [|done]. exists n. apply Hk. }
  all: destruct ins as [|j [|]]; [|by destruct Hins|done].
  all: destruct (set_sl_frame l (mkSleeplock true (p_pid p)) s) as (_ & F2 & _).
  all: split; cbn [l_st inside queued]; [|by rewrite F2|done].
  all: eexists; (split; [by eapply sl_of_set|]); cbn; by rewrite F2, Hp.
Qed.

Lemma lstep_inv l y y' : lstep l y y' -> linv l y -> linv l y'.
Proof.
  intros [i s ins w y0 Hp Hr|i k s ins w1 w2 y0 Hp Hr|i s s' ins1 ins2 w Hr|s s' ins w E1 E2] H; pose proof H as [Hl Hlen Hq]; cbn [l_st inside queued] in *.
  - assert (Hs : is_Some (sl_of l (on_cpu i [] s))) by (destruct Hl as (x & Hx & _); exists x; by destruct l).
    eapply (ran_inv l i); [apply (acquiresleep_acquires l i (on_cpu i [] s)); [reflexivity|reflexivity|exact Hp|exact Hs]| |exact Hlen|by split|exact Hr].
    eapply (lock_of_ext l s); [by destruct l|done|exact Hl].
  - apply Forall_app in Hq as [Hq1 [[n Hk] Hq2]%Forall_cons]. cbn [fst snd] in Hk.
    assert (Hs : is_Some (sl_of l s)) by (destruct Hl as (x & Hx & _); by exists x).
    set (s1 := on_cpu i [L_proc i] s) in *.
    assert (Hl1 : lock_of l (s1 <| held := [] |>) ins) by (eapply (lock_of_ext l s); try exact Hl; by destruct l).
    eapply (ran_inv l i n); [apply Hk| | | |exact Hr].
    + by split.
    + by destruct l.
    + done.
    + exact Hlen.
    + split; [done|exact Hlen|by apply Forall_app].
  - destruct Hl as (x & Hx & Hl).
    assert (E : releasesleep l (on_cpu i [] s) = Ok tt (set_sl l (mkSleeplock false 0)
             (on_cpu i [] s <| procs := map (wake1 (Some (Ch_sl l))) (procs s) |>))).
    { apply (releasesleep_ok l x); [by destruct l|unfold on_cpu; rs; apply not_elem_of_nil|]. split; [done|].
      intros j. unfold on_cpu. rs. apply not_elem_of_nil. }
    rewrite Hr in E. injection E as ->.
    assert (ins1 = [] /\ ins2 = []) as [-> ->] by (destruct ins1 as [|? [|]], ins2; by cbn in Hl).
    split; cbn [l_st inside queued]; [|rewrite (proj1 (proj2 (set_sl_frame _ _ _))); unfold on_cpu; rs; by rewrite length_map|done].
    eexists. split; [eapply (sl_of_set l _ x); by destruct l|done].
  - split; cbn [l_st inside queued]; [by eapply lock_of_ext| |done]. by rewrite <- (length_fmap p_pid), E2, length_fmap.
Qed.

Lemma lreach_inv l y : lreach l y -> linv l y.
Proof.
  induction 1 as [s Hx Hlen|y y' _ IH Hs]; [|by eapply lstep_inv]. split; [|done|constructor]. by exists (mkSleeplock false 0).
Qed.

(** C35: Sleep-locks exclude processes.  [acquiresleep] makes the caller the holder if the lock is free; if it
    is not, the caller sleeps on the lock, holding no other lock, and tests it again each time it is woken,
    in whatever state.  [holdingsleep] is true exactly for the holder, and [releasesleep] frees the lock and wakes
    exactly the processes that wait for it.  So, whichever processes acquire and release a lock, in whatever order and with whatever wakeups and
    other changes between, at most one of them is inside, and the lock is then taken and has its pid. *)
Theorem sleeplock_spec l :
  (forall x i p s, sl_of l s = Some x -> held s = [] -> length (procs s) = NPROC -> cpu_proc s = Some i -> procs s !! i = Some p ->
     acquires l i sleep_fuel s (acquiresleep l s) /\
     holdingsleep l s = Ok (sl_locked x && (sl_pid x =? p_pid p)) s /\
     releasesleep l s =
       Ok tt (set_sl l (mkSleeplock false 0) (s <| procs := map (wake1 (Some (Ch_sl l))) (procs s) |>))) /\
  forall y, lreach l y -> lock_of l (l_st y) (inside y).
Proof.
  split; [|intros y H%lreach_inv; apply H]. intros x i p s Hx Hh Hlen Hi Hp.
  assert (Hn : forall l', l' ∉ held s) by (intros; rewrite Hh; apply not_elem_of_nil). split_and!.
  - apply acquiresleep_acquires; (done || by eexists).
  - by apply (holdingsleep_ok l x i p).
  - by apply (releasesleep_ok l x).
Qed.

End sleeplock.

(** Process 0 takes the lock, process 1 waits for it, is woken too early and waits again. *)
Lemma sleeplock_spec_witness :
  exists s w, lreach (F := 2%nat) SL_uart (LSys s [0%nat] w) /\ map fst w = [1%nat] /\ lock_of SL_uart s [0%nat].
Proof.
  destruct (sleeplock_spec (F := 2%nat) SL_uart) as [Hops Hex].
  set (s1 := set_sl SL_uart (mkSleeplock true 0) (on_cpu 0 [] boot_state)).
  assert (R1 : lreach (F := 2%nat) SL_uart (LSys s1 [0%nat] [])).
  { eapply l_step; [by apply (l_init _ boot_state)|]. apply (l_acquire _ 0); [by eexists|].
    by rewrite (acquiresleep_ok SL_uart zero_sleeplock 0 zero_proc) by (reflexivity || apply not_elem_of_nil). }
  destruct (Hops (mkSleeplock true 0) 1%nat zero_proc (on_cpu 1 [] s1)) as [Ha _]; [reflexivity..|].
  destruct Ha as (x & p & [= <-] & _ & k & Ek & Hk). cbn [sl_locked] in *.
  set (s2 := sleeps_on 1 (Ch_sl SL_uart) (on_cpu 1 [] s1)) in *.
  assert (R2 : lreach (F := 2%nat) SL_uart (LSys s2 [0%nat] [(1%nat, k)])).
  { eapply l_step; [exact R1|]. apply (l_acquire _ 1); [by eexists|]. by rewrite Ek. }
  destruct (Hk (on_cpu 1 [L_proc 1] s2)) as (x & p' & [= <-] & _ & k' & Ek' & _); [by split; eexists|by eexists|].
  eexists _, [(1%nat, k')]. cut (lreach (F := 2%nat) SL_uart (LSys (sleeps_on 1 (Ch_sl SL_uart) ((on_cpu 1 [L_proc 1] s2) <| held := [] |>)) [0%nat] [(1%nat, k')])).
  { intros R3. split; [exact R3|]. split; [reflexivity|]. exact (Hex _ R3). }
  eapply l_step; [exact R2|]. apply (l_resume _ 1 k s2 [0%nat] [] []); [by eexists|]. by rewrite Ek'.
Defined.
