(* ===== verification/Vm.v ===== *)
(** kernel/vm.c: page tables and user memory, and [proc_mapstacks] of kernel/proc.c.

    Page tables are in physical memory, as the hardware sees them: a table is a
    page of 512 little-endian 64-bit entries, a [pte_t *] the address of one.
    Kernel-side source and destination buffers of the copy routines are byte
    lists; [copyin] and [copyinstr] return the bytes they stored before
    stopping along with their status. *)

From stdpp Require Import prelude gmap strings.
From Stdlib Require Import ZArith Lia.
From S2P Require Import Prelude Bytes Params State Spinlock CString Kalloc.

Local Open Scope Z_scope.
Local Open Scope kernel_scope.

(** [memmove] on physical memory. *)
Definition kmemmove (dst src n : Z) : K unit :=
  fun s => match memmove (mem s) dst src n with
           | Some m => Ok tt (s <| mem := m |>)
           | None => Panic "kerneltrap"
           end.

Section vm.
Context {L : Linker}.

(** The loop of [walk], from [level] down. *)
Fixpoint walk_loop (level : nat) (pagetable va : Z) (alloc : bool) : K Z :=
  match level with
  | O => ret (pagetable + 8 * PX 0 va)
  | S level' =>
      let pte := pagetable + 8 * PX (Z.of_nat level) va in
      v <- load64 pte ;;
      if has_flag v PTE_V then walk_loop level' (PTE2PA v) va alloc
      else if negb alloc then ret 0
      else
        p <- kalloc ;;
        if p =? 0 then ret 0
        else
          kmemset p 0 PGSIZE ;;
          store64 pte (Z.lor (PA2PTE p) PTE_V) ;;
          walk_loop level' p va alloc
  end.

Definition walk (pagetable va : Z) (alloc : bool) : K Z :=
  panic_if (MAXVA <=? va) "walk" ;;
  walk_loop 2 pagetable va alloc.

Definition walkaddr (pagetable va : Z) : K Z :=
  if MAXVA <=? va then ret 0
  else
    pte <- walk pagetable va false ;;
    if pte =? 0 then ret 0
    else
      v <- load64 pte ;;
      if negb (has_flag v PTE_V) then ret 0
      else if negb (has_flag v PTE_U) then ret 0
      else ret (PTE2PA v).

Fixpoint mappages_loop (fuel : nat) (pagetable a last pa perm : Z) : K Z :=
  match fuel with
  | O => no_fuel
  | S n =>
      pte <- walk pagetable a true ;;
      if pte =? 0 then ret (-1)
      else
        v <- load64 pte ;;
        panic_if (has_flag v PTE_V) "mappages: remap" ;;
        store64 pte (Z.lor (Z.lor (PA2PTE pa) perm) PTE_V) ;;
        if a =? last then ret 0
        else mappages_loop n pagetable (u64 (a + PGSIZE)) last (u64 (pa + PGSIZE)) perm
  end.

Definition mappages (pagetable va size pa perm : Z) : K Z :=
  panic_if (negb (va mod PGSIZE =? 0)) "mappages: va not aligned" ;;
  panic_if (negb (size mod PGSIZE =? 0)) "mappages: size not aligned" ;;
  panic_if (size =? 0) "mappages: size" ;;
  mappages_loop (Z.to_nat (size / PGSIZE)) pagetable va (u64 (va + size - PGSIZE)) pa perm.

Definition kvmmap (kpgtbl va pa sz perm : Z) : K unit :=
  r <- mappages kpgtbl va sz pa perm ;;
  panic_if (negb (r =? 0)) "kvmmap".

Definition proc_mapstacks (kpgtbl : Z) : K unit :=
  foreach (seq 0 NPROC) (fun i =>
    pa <- kalloc ;;
    panic_if (pa =? 0) "kalloc" ;;
    kvmmap kpgtbl (KSTACK (Z.of_nat i)) pa PGSIZE (Z.lor PTE_R PTE_W)).

Definition kvmmake : K Z :=
  kpgtbl <- kalloc ;;
  kmemset kpgtbl 0 PGSIZE ;;
  kvmmap kpgtbl UART0 UART0 PGSIZE (Z.lor PTE_R PTE_W) ;;
  kvmmap kpgtbl VIRTIO0 VIRTIO0 PGSIZE (Z.lor PTE_R PTE_W) ;;
  kvmmap kpgtbl PLIC PLIC 0x4000000 (Z.lor PTE_R PTE_W) ;;
  kvmmap kpgtbl KERNBASE KERNBASE (etext - KERNBASE) (Z.lor PTE_R PTE_X) ;;
  kvmmap kpgtbl etext etext (PHYSTOP - etext) (Z.lor PTE_R PTE_W) ;;
  kvmmap kpgtbl TRAMPOLINE trampoline PGSIZE (Z.lor PTE_R PTE_X) ;;
  proc_mapstacks kpgtbl ;;
  ret kpgtbl.

Definition kvminit : K unit :=
  kpgtbl <- kvmmake ;; modify (fun s => s <| kernel_pagetable := kpgtbl |>).

Definition uvmcreate : K Z :=
  pagetable <- kalloc ;;
  if pagetable =? 0 then ret 0
  else kmemset pagetable 0 PGSIZE ;; ret pagetable.

Fixpoint uvmunmap_loop (fuel : nat) (pagetable a bound : Z) (do_free : bool) : K unit :=
  if a <? bound then
    match fuel with
    | O => no_fuel
    | S n =>
        pte <- walk pagetable a false ;;
        (if pte =? 0 then ret tt
         else
           v <- load64 pte ;;
           if negb (has_flag v PTE_V) then ret tt
           else
             when do_free (kfree (PTE2PA v)) ;;
             store64 pte 0) ;;
        uvmunmap_loop n pagetable (u64 (a + PGSIZE)) bound do_free
    end
  else ret tt.

Definition uvmunmap (pagetable va npages : Z) (do_free : bool) : K unit :=
  panic_if (negb (va mod PGSIZE =? 0)) "uvmunmap: not aligned" ;;
  let bound := u64 (va + npages * PGSIZE) in
  uvmunmap_loop (Z.to_nat ((bound - va) / PGSIZE + 1)) pagetable va bound do_free.

Definition uvmdealloc (pagetable oldsz newsz : Z) : K Z :=
  if oldsz <=? newsz then ret oldsz
  else
    when (PGROUNDUP newsz <? PGROUNDUP oldsz)
      (let npages := s32 ((PGROUNDUP oldsz - PGROUNDUP newsz) / PGSIZE) in
       uvmunmap pagetable (PGROUNDUP newsz) (u64 npages) true) ;;
    ret newsz.

Fixpoint uvmalloc_loop (fuel : nat) (pagetable a oldsz newsz xperm : Z) : K Z :=
  if a <? newsz then
    match fuel with
    | O => no_fuel
    | S n =>
        m <- kalloc ;;
        if m =? 0 then uvmdealloc pagetable a oldsz ;; ret 0
        else
          kmemset m 0 PGSIZE ;;
          r <- mappages pagetable a PGSIZE m (Z.lor (Z.lor PTE_R PTE_U) xperm) ;;
          if negb (r =? 0) then kfree m ;; uvmdealloc pagetable a oldsz ;; ret 0
          else uvmalloc_loop n pagetable (u64 (a + PGSIZE)) oldsz newsz xperm
    end
  else ret newsz.

Definition uvmalloc (pagetable oldsz newsz xperm : Z) : K Z :=
  if newsz <? oldsz then ret oldsz
  else
    let oldsz := PGROUNDUP oldsz in
    uvmalloc_loop (Z.to_nat ((newsz - oldsz) / PGSIZE + 1)) pagetable oldsz oldsz newsz xperm.

(** [freewalk], for a table with at most [depth] levels. *)
Fixpoint freewalk (depth : nat) (pagetable : Z) : K unit :=
  match depth with
  | O => no_fuel
  | S depth' =>
      foreach (seq 0 512) (fun i =>
        let a := pagetable + 8 * Z.of_nat i in
        pte <- load64 a ;;
        if has_flag pte PTE_V && (Z.land pte (Z.lor (Z.lor PTE_R PTE_W) PTE_X) =? 0) then
          freewalk depth' (PTE2PA pte) ;; store64 a 0
        else panic_if (has_flag pte PTE_V) "freewalk: leaf") ;;
      kfree pagetable
  end.

Definition uvmfree (pagetable sz : Z) : K unit :=
  when (0 <? sz) (uvmunmap pagetable 0 (PGROUNDUP sz / PGSIZE) true) ;;
  freewalk 3 pagetable.

Fixpoint uvmcopy_loop (fuel : nat) (old new i sz : Z) : K Z :=
  if i <? sz then
    match fuel with
    | O => no_fuel
    | S n =>
        pte <- walk old i false ;;
        if pte =? 0 then uvmcopy_loop n old new (u64 (i + PGSIZE)) sz
        else
          v <- load64 pte ;;
          if negb (has_flag v PTE_V) then uvmcopy_loop n old new (u64 (i + PGSIZE)) sz
          else
            m <- kalloc ;;
            if m =? 0 then uvmunmap new 0 (i / PGSIZE) true ;; ret (-1)
            else
              kmemmove m (PTE2PA v) PGSIZE ;;
              r <- mappages new i PGSIZE m (PTE_FLAGS v) ;;
              if negb (r =? 0) then
                kfree m ;; uvmunmap new 0 (i / PGSIZE) true ;; ret (-1)
              else uvmcopy_loop n old new (u64 (i + PGSIZE)) sz
    end
  else ret 0.

Definition uvmcopy (old new sz : Z) : K Z :=
  uvmcopy_loop (Z.to_nat (sz / PGSIZE + 1)) old new 0 sz.

Definition uvmclear (pagetable va : Z) : K unit :=
  pte <- walk pagetable va false ;;
  panic_if (pte =? 0) "uvmclear" ;;
  v <- load64 pte ;;
  store64 pte (Z.land v (u64 (Z.lnot PTE_U))).

Definition ismapped (pagetable va : Z) : K bool :=
  pte <- walk pagetable va false ;;
  if pte =? 0 then ret false
  else v <- load64 pte ;; ret (has_flag v PTE_V).

(** The argument [read] of the source is not used by its body. *)
Definition vmfault (pagetable psz va : Z) : K Z :=
  if psz <=? va then ret 0
  else
    let va := PGROUNDDOWN va in
    b <- ismapped pagetable va ;;
    if (b : bool) then ret 0
    else
      m <- kalloc ;;
      if m =? 0 then ret 0
      else
        kmemset m 0 PGSIZE ;;
        r <- mappages pagetable va PGSIZE m (Z.lor (Z.lor PTE_W PTE_U) PTE_R) ;;
        if negb (r =? 0) then kfree m ;; ret 0
        else ret m.

(** The physical page for user address [va0], allocated now if it is still to be. *)
Definition user_page (pagetable psz va0 : Z) : K Z :=
  pa0 <- walkaddr pagetable va0 ;;
  if pa0 =? 0 then vmfault pagetable psz va0 else ret pa0.

Fixpoint copyout_loop (fuel : nat) (pagetable psz dstva : Z) (src : list Z) : K Z :=
  match src with
  | [] => ret 0
  | _ =>
      match fuel with
      | O => no_fuel
      | S n =>
          let va0 := PGROUNDDOWN dstva in
          if MAXVA <=? va0 then ret (-1)
          else
            pa0 <- user_page pagetable psz va0 ;;
            if pa0 =? 0 then ret (-1)
            else
              pte <- walk pagetable va0 false ;;
              v <- load64 pte ;;
              if negb (has_flag v PTE_W) then ret (-1)
              else
                let k := Z.to_nat (Z.min (PGSIZE - (dstva - va0)) (Z.of_nat (length src))) in
                store (pa0 + (dstva - va0)) (take k src) ;;
                copyout_loop n pagetable psz (u64 (va0 + PGSIZE)) (drop k src)
      end
  end.

Definition copyout (pagetable psz dstva : Z) (src : list Z) : K Z :=
  copyout_loop (length src) pagetable psz dstva src.

Fixpoint copyin_loop (fuel : nat) (pagetable psz srcva len : Z) (dst : list Z) : K (Z * list Z) :=
  if 0 <? len then
    match fuel with
    | O => no_fuel
    | S n' =>
        let va0 := PGROUNDDOWN srcva in
        pa0 <- user_page pagetable psz va0 ;;
        if pa0 =? 0 then ret (-1, dst)
        else
          let n := Z.min (PGSIZE - (srcva - va0)) len in
          l <- load (pa0 + (srcva - va0)) (Z.to_nat n) ;;
          copyin_loop n' pagetable psz (u64 (va0 + PGSIZE)) (len - n) (dst ++ l)
    end
  else ret (0, dst).

Definition copyin (pagetable psz srcva len : Z) : K (Z * list Z) :=
  copyin_loop (Z.to_nat len) pagetable psz srcva len [].

(** The inner loop of [copyinstr]: up to [n] bytes from physical address [p];
    what was stored, and whether the NUL was among it. *)
Fixpoint copystr_page (n : nat) (p : Z) : K (list Z * bool) :=
  match n with
  | O => ret ([], false)
  | S n' =>
      b <- load p 1 ;;
      if hd 0 b =? 0 then ret ([0], true)
      else r <- copystr_page n' (p + 1) ;; ret (hd 0 b :: fst r, snd r)
  end.

Fixpoint copyinstr_loop (fuel : nat) (pagetable psz srcva max : Z) (dst : list Z) : K (Z * list Z) :=
  if 0 <? max then
    match fuel with
    | O => no_fuel
    | S n' =>
        let va0 := PGROUNDDOWN srcva in
        pa0 <- user_page pagetable psz va0 ;;
        if pa0 =? 0 then ret (-1, dst)
        else
          let n := Z.min (PGSIZE - (srcva - va0)) max in
          r <- copystr_page (Z.to_nat n) (pa0 + (srcva - va0)) ;;
          if (snd r : bool) then ret (0, dst ++ fst r)
          else copyinstr_loop n' pagetable psz (u64 (va0 + PGSIZE)) (max - n) (dst ++ fst r)
    end
  else ret (-1, dst).

Definition copyinstr (pagetable psz srcva max : Z) : K (Z * list Z) :=
  copyinstr_loop (Z.to_nat max) pagetable psz srcva max [].

End vm.
