(* ===== verification/PageTable.v ===== *)
(** The page tables of kernel/vm.c as a map.

    [pt_inv m t] says that memory [m] holds, at [pt_root t], a three-level table
    whose second- and third-level pages are those of [t]; [leaf m t va] is the entry
    for a virtual address.  The lemmas give [walk], [mappages] and [uvmunmap] their
    effect on that map. *)

From stdpp Require Import prelude gmap strings.
From Stdlib Require Import ZArith Lia.
From S2P Require Import Prelude Bytes Params State Spinlock CString Kalloc Vm.

Local Open Scope Z_scope.
Local Open Scope kernel_scope.

(** The 64-bit word at address [a]. *)
Definition word (m : memory) (a : Z) : Z := le_decode (default [] (load_bytes m a 8)).

(** The pages of a page table: the root, the page that entry [i] of the root
    points to, and the page that entry [j] of that one points to. *)
Record ptree := mkPt { pt_root : Z; pt_l1 : gmap Z Z; pt_l0 : gmap (Z * Z) Z }.

Definition pt_pages (t : ptree) : list Z :=
  pt_root t :: (map_to_list (pt_l1 t)).*2 ++ (map_to_list (pt_l0 t)).*2.

(** Entry [a] refers to the table page [o], or is not valid. *)
Definition points (m : memory) (a : Z) (o : option Z) : Prop :=
  match o with
  | Some p => word m a = Z.lor (PA2PTE p) PTE_V
  | None => has_flag (word m a) PTE_V = false
  end.

(** The address of the leaf entry for [va], and the entry. *)
Definition pte_addr (t : ptree) (va : Z) : option Z :=
  p ← pt_l0 t !! (PX 2 va, PX 1 va); Some (p + 8 * PX 0 va).

Definition leaf (m : memory) (t : ptree) (va : Z) : Z :=
  match pte_addr t va with Some a => word m a | None => 0 end.

(** ** Arithmetic of virtual addresses *)

Lemma PX_div level va : 0 <= level -> PX level va = va / 2 ^ (12 + 9 * level) mod 512.
Proof.
  intros Hl. unfold PX, PXSHIFT, PGSHIFT. change PXMASK with (Z.ones 9).
  rewrite Z.land_ones, Z.shiftr_div_pow2 by lia. done.
Qed.

Lemma px_decomp va :
  0 <= va < MAXVA -> va / 4096 = PX 2 va * 2 ^ 18 + PX 1 va * 2 ^ 9 + PX 0 va.
Proof.
  intros Hv. change MAXVA with (2 ^ 38) in Hv. rewrite !PX_div by lia.
  change (12 + 9 * 0) with 12. change (12 + 9 * 1) with (12 + 9). change (12 + 9 * 2) with (12 + 18).
  rewrite !Z.pow_add_r, <- !Z.div_div by lia. change (2 ^ 12) with 4096.
  set (v := va / 4096). assert (0 <= v < 2 ^ 26).
  { split; [apply Z.div_pos; lia|]. apply Z.div_lt_upper_bound; lia. }
  change (2 ^ 18) with (512 * 512). rewrite <- (Z.div_div v 512 512) by lia. change (2 ^ 9) with 512.
  rewrite (Z.mod_small (v / 512 / 512)) by
    (split; [repeat apply Z.div_pos; lia|]; do 2 (apply Z.div_lt_upper_bound; [lia|]); lia).
  pose proof (Z.div_mod v 512). pose proof (Z.div_mod (v / 512) 512). lia.
Qed.

(** Two addresses with the same indices are in the same page. *)
Lemma px_inj va va' :
  0 <= va < MAXVA -> 0 <= va' < MAXVA ->
  PX 2 va = PX 2 va' -> PX 1 va = PX 1 va' -> PX 0 va = PX 0 va' -> va / 4096 = va' / 4096.
Proof. intros H H' E2 E1 E0. rewrite !px_decomp by done. congruence. Qed.

(** Virtual addresses stop below bit 38: the upper half of the root table is not used. *)
Lemma px2_low va : 0 <= va < MAXVA -> 0 <= PX 2 va < 256.
Proof.
  intros H. rewrite PX_div by lia. change (12 + 9 * 2) with 30. change MAXVA with (256 * 2 ^ 30) in H.
  assert (0 <= va / 2 ^ 30 < 256) by (split; [apply Z.div_pos; lia|apply Z.div_lt_upper_bound; lia]).
  rewrite Z.mod_small; lia.
Qed.

Lemma px_same_page va va' level : va / 4096 = va' / 4096 -> 0 <= level -> PX level va = PX level va'.
Proof.
  intros E Hl. rewrite !PX_div by done. rewrite Z.pow_add_r by lia.
  rewrite <- !Z.div_div by lia. change (2 ^ 12) with 4096. by rewrite E.
Qed.

(** ** Words *)

Lemma word_ext m m' a :
  (forall i, a <= i < a + 8 -> m !! i = m' !! i) -> word m a = word m' a.
Proof. intros H. unfold word. by rewrite (load_bytes_ext m m'). Qed.

Lemma word_store m a v :
  0 <= v < 2 ^ 64 -> word (store_bytes m a (le_encode 8 v)) a = v.
Proof.
  intros Hv. unfold word. rewrite <- (length_le_encode 8 v) at 2. rewrite load_store_same.
  cbn [default]. by apply le_decode_encode_small.
Qed.

Lemma word_store_other m a l a' :
  a' + 8 <= a \/ a + Z.of_nat (length l) <= a' -> word (store_bytes m a l) a' = word m a'.
Proof. intros H. unfold word. by rewrite load_store_other. Qed.

Lemma load64_word s a : mapped (mem s) a 8 -> load64 a s = Ok (word (mem s) a) s.
Proof.
  intros H. destruct (load_bytes_mapped _ _ _ H) as [l Hl].
  rewrite (load64_ok a l s Hl). unfold word. by rewrite Hl.
Qed.

(** A freshly zeroed page has zero words. *)
Lemma word_zero_page m p i :
  0 <= i < 512 -> word (store_bytes m p (page_of 0)) (p + 8 * i) = 0.
Proof.
  intros Hi. unfold word.
  assert (load_bytes (store_bytes m p (page_of 0)) (p + 8 * i) 8 = Some (replicate 8 0)) as ->.
  { apply (proj2 (load_bytes_Some _ _ (replicate 8 0))). intros j Hj.
    rewrite length_replicate in Hj.
    rewrite lookup_store_bytes, length_page_of, decide_True by lia.
    by rewrite lookup_page_of, lookup_replicate_2 by lia. }
  reflexivity.
Qed.

Section pagetable.
Context {L : Linker} {LOk : LinkerOk L}.

(** ** The invariant *)

Record pt_inv (m : memory) (t : ptree) : Prop := {
  pt_nodup : NoDup (pt_pages t);
  pt_valid : Forall valid_page (pt_pages t);
  pt_mapped : Forall (page_mapped m) (pt_pages t);
  pt_level2 : forall i, 0 <= i < 512 -> points m (pt_root t + 8 * i) (pt_l1 t !! i);
  pt_level1 : forall i p j, pt_l1 t !! i = Some p -> 0 <= j < 512 ->
    points m (p + 8 * j) (pt_l0 t !! (i, j));
  pt_dom : forall i j q, pt_l0 t !! (i, j) = Some q ->
    is_Some (pt_l1 t !! i) /\ 0 <= j < 512;
  pt_low : forall i p, pt_l1 t !! i = Some p -> 0 <= i < 256;
}.

Lemma pt_pages_l1 t i p : pt_l1 t !! i = Some p -> p ∈ pt_pages t.
Proof.
  intros H. unfold pt_pages. right. apply elem_of_app. left. apply list_elem_of_fmap.
  exists (i, p). split; [done|]. by apply elem_of_map_to_list.
Qed.

Lemma pt_pages_l0 t k p : pt_l0 t !! k = Some p -> p ∈ pt_pages t.
Proof.
  intros H. unfold pt_pages. right. apply elem_of_app. right. apply list_elem_of_fmap.
  exists (k, p). split; [done|]. by apply elem_of_map_to_list.
Qed.

Lemma pt_pages_root t : pt_root t ∈ pt_pages t.
Proof. left. Qed.

Lemma pt_page_valid m t p : pt_inv m t -> p ∈ pt_pages t -> valid_page p.
Proof. intros H. apply (proj1 (Forall_forall _ _) (pt_valid _ _ H)). Qed.

(** The word at index [i] of a table page can be accessed. *)
Lemma pt_entry_mapped m t p i :
  pt_inv m t -> p ∈ pt_pages t -> 0 <= i < 512 -> mapped m (p + 8 * i) 8.
Proof.
  intros H Hp Hi. pose proof (proj1 (Forall_forall _ _) (pt_mapped _ _ H) p Hp) as Hm.
  eapply mapped_sub; [exact Hm|lia|lia].
Qed.

(** Distinct table pages do not share words. *)
Lemma pt_pages_apart t m p q i j :
  pt_inv m t -> p ∈ pt_pages t -> q ∈ pt_pages t -> p <> q -> 0 <= i < 512 -> 0 <= j < 512 ->
  p + 8 * i + 8 <= q + 8 * j \/ q + 8 * j + 8 <= p + 8 * i.
Proof.
  intros H Hp Hq Hne Hi Hj.
  destruct (valid_page_pos p (pt_page_valid _ _ _ H Hp)) as [_ Ha].
  destruct (valid_page_pos q (pt_page_valid _ _ _ H Hq)) as [_ Hb].
  pose proof (Z.div_mod p 4096). pose proof (Z.div_mod q 4096). lia.
Qed.

(** ** Frames *)

Lemma same_page_word m m' p i : same_page m m' p -> 0 <= i < 512 -> word m' (p + 8 * i) = word m (p + 8 * i).
Proof. intros H Hi. apply word_ext. intros j Hj. apply H. unfold PGSIZE. lia. Qed.

Lemma same_page_mapped m m' p : same_page m m' p -> page_mapped m p -> page_mapped m' p.
Proof. intros H Hm i Hi. rewrite (H i) by (unfold PGSIZE; lia). by apply Hm. Qed.

Lemma same_page_trans m m' m'' p : same_page m m' p -> same_page m' m'' p -> same_page m m'' p.
Proof. intros H H' i Hi. rewrite H' by done. by apply H. Qed.

Lemma points_same m m' p i o :
  same_page m m' p -> 0 <= i < 512 -> points m (p + 8 * i) o -> points m' (p + 8 * i) o.
Proof. intros H Hi. unfold points. by rewrite (same_page_word m m'). Qed.

Lemma pt_inv_frame m m' t :
  (forall p, p ∈ pt_pages t -> same_page m m' p) -> pt_inv m t -> pt_inv m' t.
Proof.
  intros Hs H. split.
  - apply H.
  - apply H.
  - apply Forall_forall. intros p Hp. eapply same_page_mapped; [by apply Hs|].
    apply (proj1 (Forall_forall _ _) (pt_mapped _ _ H) p Hp).
  - intros i Hi. eapply points_same; [apply Hs, pt_pages_root|done|by apply H].
  - intros i p j Hp Hj. eapply points_same; [eapply Hs; eapply pt_pages_l1; eassumption|done|by apply H].
  - apply H.
  - apply H.
Qed.

Lemma leaf_frame m m' t va :
  (forall p, p ∈ pt_pages t -> same_page m m' p) -> leaf m' t va = leaf m t va.
Proof.
  intros Hs. unfold leaf, pte_addr. destruct (pt_l0 t !! (PX 2 va, PX 1 va)) as [p|] eqn:E; [|done].
  cbn. apply same_page_word; [eapply Hs; eapply pt_pages_l0; eassumption|apply PX_range].
Qed.

(** ** Looking up *)

Lemma table_pte p :
  valid_page p ->
  has_flag (Z.lor (PA2PTE p) PTE_V) PTE_V = true /\ PTE2PA (Z.lor (PA2PTE p) PTE_V) = p /\
  0 <= Z.lor (PA2PTE p) PTE_V < 2 ^ 64.
Proof.
  intros Hp. destruct (valid_page_pos p Hp) as [Hr Ha]. split; [|split].
  - unfold has_flag. apply negb_true_iff, Z.eqb_neq. intros H.
    assert (Z.testbit (Z.land (Z.lor (PA2PTE p) PTE_V) PTE_V) 0 = true) as Hb.
    { rewrite Z.land_spec, Z.lor_spec. change (Z.testbit PTE_V 0) with true. by rewrite orb_true_r. }
    rewrite H in Hb. done.
  - apply PTE2PA_PA2PTE; [lia|done|]. done.
  - apply lor_range; [apply u64_range|done].
Qed.

Lemma walk_level_some level pt va alloc p s :
  mapped (mem s) (pt + 8 * PX (Z.of_nat (S level)) va) 8 ->
  points (mem s) (pt + 8 * PX (Z.of_nat (S level)) va) (Some p) -> valid_page p ->
  walk_loop (S level) pt va alloc s = walk_loop level p va alloc s.
Proof.
  intros Hm Hp Hv. cbn [walk_loop]. run (load64_word s _ Hm). rewrite Hp.
  destruct (table_pte p Hv) as (-> & -> & _). done.
Qed.

Lemma walk_level_none level pt va s :
  mapped (mem s) (pt + 8 * PX (Z.of_nat (S level)) va) 8 ->
  points (mem s) (pt + 8 * PX (Z.of_nat (S level)) va) None ->
  walk_loop (S level) pt va false s = Ok 0 s.
Proof. intros Hm Hp. cbn [walk_loop]. run (load64_word s _ Hm). rewrite Hp. done. Qed.

(** [walk] without [alloc] looks the address up. *)
Lemma walk_lookup s t va :
  pt_inv (mem s) t -> 0 <= va < MAXVA ->
  walk (pt_root t) va false s = Ok (default 0 (pte_addr t va)) s.
Proof.
  intros H Hv. unfold walk. rewrite bind_panic_if by (apply Z.leb_gt; lia).
  pose proof (PX_range 2 va) as H2. pose proof (PX_range 1 va) as H1.
  pose proof (pt_level2 _ _ H _ H2) as P2. unfold pte_addr.
  assert (M2 := pt_entry_mapped _ _ _ _ H (pt_pages_root t) H2).
  destruct (pt_l1 t !! PX 2 va) as [p1|] eqn:E1.
  - pose proof (pt_pages_l1 _ _ _ E1) as Hp1.
    rewrite (walk_level_some 1 _ va false p1) by (done || (eapply pt_page_valid; eassumption)).
    pose proof (pt_level1 _ _ H _ _ _ E1 H1) as P1.
    assert (M1 := pt_entry_mapped _ _ _ _ H Hp1 H1).
    destruct (pt_l0 t !! (PX 2 va, PX 1 va)) as [p0|] eqn:E0.
    + pose proof (pt_pages_l0 _ _ _ E0) as Hp0.
      rewrite (walk_level_some 0 _ va false p0) by (done || (eapply pt_page_valid; eassumption)). done.
    + by rewrite (walk_level_none 0).
  - rewrite (walk_level_none 1) by done.
    destruct (pt_l0 t !! (PX 2 va, PX 1 va)) as [p0|] eqn:E0; [|done].
    destruct (pt_dom _ _ H _ _ _ E0) as [[? ?] _]. congruence.
Qed.

(** ** The pages of a table are distinct *)

Lemma map_values_inj {K : Type} `{Countable K} (m : gmap K Z) i j x :
  NoDup (map_to_list m).*2 -> m !! i = Some x -> m !! j = Some x -> i = j.
Proof.
  intros Hnd Hi%elem_of_map_to_list Hj%elem_of_map_to_list.
  apply list_elem_of_lookup_1 in Hi as [a Ha]. apply list_elem_of_lookup_1 in Hj as [b Hb].
  assert (a = b) as ->; [|congruence].
  eapply (NoDup_lookup _ a b x Hnd); rewrite list_lookup_fmap; [by rewrite Ha|by rewrite Hb].
Qed.

Lemma map_values_elem {K : Type} `{Countable K} (m : gmap K Z) i x :
  m !! i = Some x -> x ∈ (map_to_list m).*2.
Proof.
  intros Hi%elem_of_map_to_list. apply list_elem_of_fmap. by exists (i, x).
Qed.

Lemma pt_distinct t :
  NoDup (pt_pages t) ->
  (forall i p, pt_l1 t !! i = Some p -> p <> pt_root t) /\
  (forall k p, pt_l0 t !! k = Some p -> p <> pt_root t) /\
  (forall i k p q, pt_l1 t !! i = Some p -> pt_l0 t !! k = Some q -> q <> p) /\
  (forall i j p, pt_l1 t !! i = Some p -> pt_l1 t !! j = Some p -> i = j) /\
  (forall k k' p, pt_l0 t !! k = Some p -> pt_l0 t !! k' = Some p -> k = k').
Proof.
  unfold pt_pages. intros Hnd. apply NoDup_cons in Hnd as [Hr Hnd].
  rewrite elem_of_app in Hr. apply NoDup_app in Hnd as (Hnd1 & Hd & Hnd0).
  split; [|split; [|split; [|split]]].
  - intros i p Hp ->. apply Hr. left. by eapply map_values_elem.
  - intros k p Hp ->. apply Hr. right. by eapply map_values_elem.
  - intros i k p q Hp Hq ->. eapply Hd; by eapply map_values_elem.
  - intros i j p. by apply map_values_inj.
  - intros k k' p. by apply map_values_inj.
Qed.

(** ** Writing a leaf entry *)

(** A store to an entry of page [p] leaves the words of other pages alone. *)
Lemma points_store m t p i v q j o :
  pt_inv m t -> p ∈ pt_pages t -> q ∈ pt_pages t -> p <> q -> 0 <= i < 512 -> 0 <= j < 512 ->
  points m (q + 8 * j) o -> points (store_bytes m (p + 8 * i) (le_encode 8 v)) (q + 8 * j) o.
Proof.
  intros H Hp Hq Hne Hi Hj. unfold points. rewrite word_store_other; [done|].
  rewrite length_le_encode. destruct (pt_pages_apart t m p q i j H Hp Hq Hne Hi Hj); lia.
Qed.

Lemma mapped_store_pages m a l t : Forall (page_mapped m) (pt_pages t) ->
  Forall (page_mapped (store_bytes m a l)) (pt_pages t).
Proof. intros H. eapply Forall_impl; [exact H|]. intros p. apply mapped_store. Qed.

Lemma leaf_store_inv m t va a v :
  pt_inv m t -> pte_addr t va = Some a -> pt_inv (store_bytes m a (le_encode 8 v)) t.
Proof.
  intros H Ha. destruct (pt_distinct t (pt_nodup _ _ H)) as (D1 & D2 & D3 & _ & _).
  unfold pte_addr in Ha. destruct (pt_l0 t !! (PX 2 va, PX 1 va)) as [p0|] eqn:E0; [|done].
  injection Ha as <-. pose proof (pt_pages_l0 _ _ _ E0) as Hp0.
  split; try apply H.
  - apply mapped_store_pages, H.
  - intros i Hi. apply (points_store m t); try done; [apply pt_pages_root|by eapply D2|apply PX_range|by apply H].
  - intros i p j Hp Hj. pose proof (pt_pages_l1 _ _ _ Hp).
    apply (points_store m t); try done; [by eapply D3|apply PX_range|by apply H].
Qed.

Lemma leaf_store m t va va' a v :
  pt_inv m t -> 0 <= va < MAXVA -> 0 <= va' < MAXVA -> 0 <= v < 2 ^ 64 -> pte_addr t va = Some a ->
  leaf (store_bytes m a (le_encode 8 v)) t va' =
    if decide (va / 4096 = va' / 4096) then v else leaf m t va'.
Proof.
  intros H Hv Hv' Hr Ha. destruct (pt_distinct t (pt_nodup _ _ H)) as (_ & _ & _ & _ & D).
  unfold leaf. unfold pte_addr in *.
  destruct (pt_l0 t !! (PX 2 va, PX 1 va)) as [p|] eqn:E; [|done]. injection Ha as <-.
  case_decide as Hd.
  - rewrite <- !(px_same_page va va') by (done || lia). rewrite E. cbn. by apply word_store.
  - destruct (pt_l0 t !! (PX 2 va', PX 1 va')) as [q|] eqn:E'; [|done]. cbn.
    apply word_store_other. rewrite length_le_encode.
    pose proof (PX_range 0 va). pose proof (PX_range 0 va').
    destruct (decide (q = p)) as [->|Hne].
    + pose proof (D _ _ _ E E') as [= E2 E1].
      destruct (decide (PX 0 va = PX 0 va')) as [E0|]; [|lia].
      by destruct (Hd (px_inj va va' Hv Hv' E2 E1 E0)).
    + destruct (pt_pages_apart t m p q (PX 0 va) (PX 0 va') H); try done; try lia.
      * by eapply pt_pages_l0.
      * by eapply pt_pages_l0.
Qed.

(** ** Adding a table page *)

(** The memory after [walk] has allocated page [p] for the entry at [a]. *)
Definition newtable_mem (m : memory) (p a : Z) : memory :=
  store_bytes (store_bytes (store_bytes m p (page_of 5)) p (page_of 0)) a
    (le_encode 8 (Z.lor (PA2PTE p) PTE_V)).

(** [m'] is [m] with a zeroed table page [p], entry [i] of page [q] referring to it. *)
Record newtable (m m' : memory) (p q i : Z) : Prop := {
  nt_word : word m' (q + 8 * i) = Z.lor (PA2PTE p) PTE_V;
  nt_zero : forall j, 0 <= j < 512 -> word m' (p + 8 * j) = 0;
  nt_other : forall j, 0 <= j < 512 -> j <> i -> word m' (q + 8 * j) = word m (q + 8 * j);
  nt_same : forall r, valid_page r -> r <> p -> r <> q -> same_page m m' r;
  nt_mapped : forall r, page_mapped m r -> page_mapped m' r;
}.

Lemma newtable_spec m p q i :
  valid_page p -> valid_page q -> p <> q -> 0 <= i < 512 ->
  newtable m (newtable_mem m p (q + 8 * i)) p q i.
Proof.
  intros Hp Hq Hne Hi. unfold newtable_mem.
  destruct (valid_page_pos p Hp) as [_ Ha]. destruct (valid_page_pos q Hq) as [_ Hb].
  pose proof (Z.div_mod p 4096). pose proof (Z.div_mod q 4096).
  split; [apply word_store, table_pte, Hp|..].
  - intros j Hj. rewrite word_store_other by (rewrite length_le_encode; lia). by apply word_zero_page.
  - intros j Hj Hji. rewrite word_store_other by (rewrite length_le_encode; lia).
    by rewrite !word_store_other by (rewrite length_page_of; lia).
  - intros r Hr Hrp Hrq. eapply same_page_trans; [apply (store_page_frame m p 5 r); auto|].
    eapply same_page_trans; [apply (store_page_frame _ p 0 r); auto|].
    apply valid_pages_aligned_frame; auto; rewrite ?length_le_encode; lia.
  - intros r Hr. by do 3 apply mapped_store.
Qed.

Lemma newtable_kmem m fl p ps q i l :
  kmem_at m fl (p :: ps) -> valid_page q -> q ∉ ps -> 0 <= i < 512 ->
  load_bytes m p 8 = Some l -> kmem_at (newtable_mem m p (q + 8 * i)) (le_decode l) ps.
Proof.
  intros HK Hq Hqps Hi Hl. pose proof HK as (_ & Hnd & Hv & _).
  apply NoDup_cons in Hnd as [Hp _]. apply Forall_cons in Hv as [Hvp _]. unfold newtable_mem.
  apply (kmem_at_store _ _ _ _ _ q); [|done|done|lia|rewrite length_le_encode; lia].
  apply (kmem_at_store _ _ _ _ _ p); [|done|done|lia|by rewrite length_page_of].
  by eapply kmem_at_kalloc.
Qed.

(** The page table [t] with the free pages [ps]. *)
Definition vm_ok (s : kstate) (ps : list Z) (t : ptree) : Prop :=
  kmem_inv s ps /\ pt_inv (mem s) t /\ (forall p, p ∈ ps -> p ∉ pt_pages t) /\ L_kmem ∉ held s.

(** [s'] is [s] after table pages have been added to [t], taken from [ps]; the
    entries of the new table are [lf], and all other pages are unchanged. *)
Record grown (s : kstate) (ps : list Z) (t : ptree) (s' : kstate) (ps' : list Z) (t' : ptree)
    (lf : Z -> Z) : Prop := {
  gr_only : s' = s <| mem := mem s' |> <| freelist := freelist s' |>;
  gr_ok : vm_ok s' ps' t';
  gr_root : pt_root t' = pt_root t;
  gr_used : exists us, ps = us ++ ps' /\ pt_pages t' ≡ₚ us ++ pt_pages t;
  gr_leaf : forall va, 0 <= va < MAXVA -> leaf (mem s') t' va = lf va;
  gr_frame : forall q, valid_page q -> q ∉ ps -> q ∉ pt_pages t -> same_page (mem s) (mem s') q;
  gr_addr : forall va a, pte_addr t va = Some a -> pte_addr t' va = Some a;
}.

Lemma grown_refl s ps t : vm_ok s ps t -> grown s ps t s ps t (leaf (mem s) t).
Proof.
  intros H. split; try done.
  - by destruct s.
  - by exists [].
Qed.

Lemma grown_trans s ps t s1 ps1 t1 s2 ps2 t2 lf1 lf2 :
  grown s ps t s1 ps1 t1 lf1 -> grown s1 ps1 t1 s2 ps2 t2 lf2 -> grown s ps t s2 ps2 t2 lf2.
Proof.
  intros G1 G2. destruct (gr_used _ _ _ _ _ _ _ G1) as (us1 & E1 & P1).
  destruct (gr_used _ _ _ _ _ _ _ G2) as (us2 & E2 & P2). split.
  - rewrite (gr_only _ _ _ _ _ _ _ G2), (gr_only _ _ _ _ _ _ _ G1) at 1. rs. st_eq s.
  - apply G2.
  - rewrite (gr_root _ _ _ _ _ _ _ G2). apply G1.
  - exists (us1 ++ us2). split; [by rewrite E1, E2, app_assoc|].
    rewrite P2, P1, !app_assoc. by rewrite (Permutation_app_comm us2 us1).
  - apply G2.
  - intros q Hq Hps Ht. eapply same_page_trans; [by apply G1|]. apply G2; [done| |].
    + intros Hin. apply Hps. rewrite E1. apply elem_of_app. by right.
    + rewrite P1. rewrite elem_of_app. intros [Hin|Hin]; [|done].
      apply Hps. rewrite E1. apply elem_of_app. by left.
  - intros va a Ha. by apply G2, G1.
Qed.

Lemma grown_few s ps t s' ps' t' lf : grown s ps t s' ps' t' lf -> (length (pt_pages t') + length ps' = length (pt_pages t) + length ps)%nat.
Proof. intros G. destruct (gr_used _ _ _ _ _ _ _ G) as (us & -> & ->). rewrite !length_app. lia. Qed.

Lemma grown_ext s ps t s' ps' t' lf lf' :
  grown s ps t s' ps' t' lf -> (forall va, 0 <= va < MAXVA -> lf va = lf' va) ->
  grown s ps t s' ps' t' lf'.
Proof.
  intros G E. split; try apply G. intros va Hva. rewrite <- E by done. by apply G.
Qed.

Lemma map_to_list_values_insert {K : Type} `{Countable K} (m : gmap K Z) i p :
  m !! i = None -> (map_to_list (<[i := p]> m)).*2 ≡ₚ p :: (map_to_list m).*2.
Proof. intros Hi. by rewrite map_to_list_insert. Qed.

Section newtable.
Context (s : kstate) (p : Z) (ps : list Z) (t : ptree) (q i next : Z) (m' : memory).
Hypothesis H : vm_ok s (p :: ps) t.
Hypothesis Hq : q ∈ pt_pages t.
Hypothesis Hi : 0 <= i < 512.
Hypothesis HK : kmem_at m' next ps.
Hypothesis HN : newtable (mem s) m' p q i.

Let s' : kstate := s <| mem := m' |> <| freelist := next |>.

Lemma newtable_page :
  valid_page p /\ (p ∉ ps) /\ (p ∉ pt_pages t) /\ p <> q /\ page_mapped (mem s) p.
Proof.
  destruct H as ((_ & Hnd & Hv & Hm) & HT & Hd & _).
  apply NoDup_cons in Hnd as [Hp _]. apply Forall_cons in Hv as [Hvp _].
  apply Forall_cons in Hm as [Hmp _]. assert (Hpt : p ∉ pt_pages t) by (apply Hd; left).
  split; [done|]. split; [done|]. split; [done|]. split; [|done]. intros ->. exact (Hpt Hq).
Qed.

Lemma newtable_same r : r ∈ pt_pages t -> r <> q -> same_page (mem s) m' r.
Proof.
  intros Hr Hne. destruct newtable_page as (_ & _ & Hpt & _). destruct H as (_ & HT & _).
  apply HN; [by eapply pt_page_valid| |done]. intros ->. exact (Hpt Hr).
Qed.

(** The parts of [grown] that do not depend on the level of the new page. *)
Lemma newtable_grown t' :
  pt_root t' = pt_root t -> pt_pages t' ≡ₚ p :: pt_pages t ->
  (NoDup (pt_pages t') -> Forall valid_page (pt_pages t') ->
   Forall (page_mapped m') (pt_pages t') -> pt_inv m' t') ->
  (forall va, leaf m' t' va = leaf (mem s) t va) ->
  (forall va a, pte_addr t va = Some a -> pte_addr t' va = Some a) ->
  grown s (p :: ps) t s' ps t' (leaf (mem s) t).
Proof.
  intros Hroot Hpages Hinv Hleaf Haddr.
  destruct newtable_page as (Hvp & Hp & Hpt & Hpq & Hmp). pose proof H as (_ & HT & Hd & Hlk).
  unfold s'. split; rs; [done|..|done|by exists [p]|done| |done].
  - split; [done|]. split; rs.
    + apply Hinv; rewrite Hpages.
      * constructor; [done|apply HT].
      * constructor; [done|apply HT].
      * constructor; [by apply HN|].
        eapply Forall_impl; [exact (pt_mapped _ _ HT)|apply HN].
    + split; [|done]. intros r Hr. rewrite Hpages. apply not_elem_of_cons.
      split; [intros ->; exact (Hp Hr)|]. apply Hd. by right.
  - intros r Hr Hrp Hrt. apply not_elem_of_cons in Hrp as [Hrp _].
    apply HN; [done|done|]. intros ->. exact (Hrt Hq).
Qed.

End newtable.

(** A new second-level page for entry [i] of the root. *)
Lemma new_l1 s p ps t i next m' :
  vm_ok s (p :: ps) t -> 0 <= i < 256 -> pt_l1 t !! i = None ->
  kmem_at m' next ps -> newtable (mem s) m' p (pt_root t) i ->
  grown s (p :: ps) t (s <| mem := m' |> <| freelist := next |>) ps
    (mkPt (pt_root t) (<[i := p]> (pt_l1 t)) (pt_l0 t)) (leaf (mem s) t).
Proof.
  intros H Hi Hn HK HN. set (t' := mkPt _ _ _). pose proof H as (_ & HT & _).
  pose proof (pt_pages_root t) as Hr. pose proof (newtable_same s p ps t _ i m' H Hr HN) as Hsame.
  destruct (pt_distinct t (pt_nodup _ _ HT)) as (D1 & D2 & _).
  apply (newtable_grown s p ps t (pt_root t) i next m'); try done.
  - unfold pt_pages, t'. cbn [pt_root pt_l1 pt_l0]. rewrite map_to_list_values_insert by done.
    cbn. by rewrite Permutation_swap.
  - intros M1 M2 M3. split; try done.
    + intros j Hj. cbn [pt_l1 pt_root t']. destruct (decide (j = i)) as [->|Hji].
      * rewrite lookup_insert_eq. apply HN.
      * rewrite lookup_insert_ne by done. pose proof (pt_level2 _ _ HT j Hj) as P.
        unfold points in *. by rewrite (nt_other _ _ _ _ _ HN).
    + intros k r j Hk Hj. cbn [pt_l1 pt_l0 t'] in *. destruct (decide (k = i)) as [->|Hki].
      * rewrite lookup_insert_eq in Hk. injection Hk as <-.
        destruct (pt_l0 t !! (i, j)) as [x|] eqn:E; [destruct (pt_dom _ _ HT _ _ _ E) as [[? ?] _]; congruence|].
        unfold points. by rewrite (nt_zero _ _ _ _ _ HN).
      * rewrite lookup_insert_ne in Hk by done. eapply points_same; [|done|by apply HT].
        apply Hsame; [by eapply pt_pages_l1|by eapply D1].
    + intros k j r Hk. cbn [pt_l1 t']. destruct (pt_dom _ _ HT _ _ _ Hk) as [Hs ?]. split; [|done].
      destruct (decide (k = i)) as [->|]; [by rewrite lookup_insert_eq|by rewrite lookup_insert_ne].
    + intros k r. cbn [pt_l1 t']. intros [[<- _]|[_ Hk]]%lookup_insert_Some; [done|by eapply pt_low].
  - intros va. unfold leaf, pte_addr. cbn [pt_l0 t'].
    destruct (pt_l0 t !! (PX 2 va, PX 1 va)) as [x|] eqn:E; [|done]. cbn.
    apply same_page_word; [|apply PX_range]. apply Hsame; [by eapply pt_pages_l0|by eapply D2].
Qed.

(** A new third-level page for entry [j] of the second-level page of entry [i]. *)
Lemma new_l0 s p ps t i q j next m' :
  vm_ok s (p :: ps) t -> 0 <= j < 512 -> pt_l1 t !! i = Some q -> pt_l0 t !! (i, j) = None ->
  kmem_at m' next ps -> newtable (mem s) m' p q j ->
  grown s (p :: ps) t (s <| mem := m' |> <| freelist := next |>) ps
    (mkPt (pt_root t) (pt_l1 t) (<[(i, j) := p]> (pt_l0 t))) (leaf (mem s) t).
Proof.
  intros H Hj Hq Hn HK HN. set (t' := mkPt _ _ _). pose proof H as (_ & HT & _).
  pose proof (pt_pages_l1 _ _ _ Hq) as Hqt.
  pose proof (newtable_same s p ps t _ j m' H Hqt HN) as Hsame.
  destruct (pt_distinct t (pt_nodup _ _ HT)) as (D1 & D2 & D3 & D4 & _).
  apply (newtable_grown s p ps t q j next m'); try done.
  - unfold pt_pages, t'. cbn [pt_root pt_l1 pt_l0]. rewrite map_to_list_values_insert by done.
    by rewrite Permutation_app_comm, <- app_comm_cons, Permutation_app_comm, Permutation_swap.
  - intros M1 M2 M3. split; try done.
    + intros k Hk. cbn [pt_l1 pt_root t']. eapply points_same; [|done|by apply HT].
      apply Hsame; [apply pt_pages_root|]. intros E. by apply (D1 _ _ Hq).
    + intros k r l Hk Hl. cbn [pt_l1 pt_l0 t'] in *.
      destruct (decide (k = i)) as [->|Hki].
      * replace r with q in * by congruence. destruct (decide (l = j)) as [->|Hlj].
        -- rewrite lookup_insert_eq. apply HN.
        -- rewrite lookup_insert_ne by congruence. pose proof (pt_level1 _ _ HT i q l Hq Hl) as P.
           unfold points in *. by rewrite (nt_other _ _ _ _ _ HN).
      * rewrite lookup_insert_ne by congruence. eapply points_same; [|done|by apply HT].
        apply Hsame; [by eapply pt_pages_l1|]. intros ->. by apply Hki, (D4 _ _ q).
    + intros k l r Hk. cbn [pt_l1 pt_l0 t'] in *.
      destruct (decide ((k, l) = (i, j))) as [[= -> ->]|Hne]; [split; [by rewrite Hq|done]|].
      rewrite lookup_insert_ne in Hk by congruence. by apply (pt_dom _ _ HT _ _ _ Hk).
    + apply HT.
  - intros va. unfold leaf, pte_addr. cbn [pt_l0 t'].
    destruct (decide ((i, j) = (PX 2 va, PX 1 va))) as [E|Hne].
    + rewrite <- E, lookup_insert_eq, Hn. cbn. apply HN, PX_range.
    + rewrite lookup_insert_ne by done.
      destruct (pt_l0 t !! (PX 2 va, PX 1 va)) as [x|] eqn:E; [|done]. cbn.
      apply same_page_word; [|apply PX_range].
      apply Hsame; [by eapply pt_pages_l0|]. intros ->. by apply (D3 _ _ _ _ Hq E).
  - intros va a. unfold pte_addr. cbn [pt_l0 t'].
    destruct (pt_l0 t !! (PX 2 va, PX 1 va)) as [x|] eqn:E; [|done].
    rewrite lookup_insert_ne by congruence. by rewrite E.
Qed.

(** One level of [walk] with [alloc], when the entry is not valid. *)
Lemma walk_level_alloc level t q va s ps :
  vm_ok s ps t -> q ∈ pt_pages t -> valid_page q ->
  points (mem s) (q + 8 * PX (Z.of_nat (S level)) va) None ->
  walk_loop (S level) q va true s =
    match ps with
    | [] => Ok 0 s
    | p :: _ =>
        match load_bytes (mem s) p 8 with
        | Some l =>
            walk_loop level p va true
              (s <| mem := newtable_mem (mem s) p (q + 8 * PX (Z.of_nat (S level)) va) |>
                 <| freelist := le_decode l |>)
        | None => Ok 0 s
        end
    end.
Proof.
  intros (HK & HT & Hd & Hlk) Hq Hvq HP.
  assert (Hm := pt_entry_mapped _ _ _ _ HT Hq (PX_range (Z.of_nat (S level)) va)).
  cbn [walk_loop]. run (load64_word s _ Hm). rewrite HP. cbn [negb].
  set (a := q + 8 * PX (Z.of_nat (S level)) va) in *.
  destruct ps as [|p ps].
  - destruct HK as (Hf & _). by run (kalloc_empty s Hf Hlk).
  - destruct HK as ([Hf (l & Hl & _)] & Hnd & Hv & Hmp).
    apply Forall_cons in Hv as [Hvp _]. apply Forall_cons in Hmp as [Hmp _]. rewrite Hl.
    run (kalloc_ok s p l Hf Hvp Hmp Hlk Hl).
    pose proof (valid_page_pos p Hvp) as [Hpp _]. rewrite (proj2 (Z.eqb_neq p 0)) by lia.
    erewrite (bind_ok (kmemset _ _ _)); [|apply kmemset_ok; rs; by apply mapped_store].
    erewrite (bind_ok (store64 _ _)); [|apply store64_ok; rs; by do 2 apply mapped_store].
    change (u8 0) with 0. unfold newtable_mem. rs.
    match goal with |- _ ?x = _ ?y => replace y with x by st_eq s end. done.
Qed.

(** The top level of [walk] with [alloc]. *)
Lemma walk_alloc2 s ps t va :
  vm_ok s ps t -> 0 <= va < MAXVA ->
  (ps = [] /\ walk_loop 2 (pt_root t) va true s = Ok 0 s) \/
  exists s1 ps1 t1 p1, grown s ps t s1 ps1 t1 (leaf (mem s) t) /\ (length ps <= 1 + length ps1)%nat /\
    pt_l1 t1 !! PX 2 va = Some p1 /\
    walk_loop 2 (pt_root t) va true s = walk_loop 1 p1 va true s1.
Proof.
  intros H Hva. pose proof H as (HK & HT & Hd & _). pose proof (pt_pages_root t) as Hr.
  pose proof (pt_page_valid _ _ _ HT Hr) as Hvr. pose proof (PX_range 2 va) as R2.
  pose proof (pt_level2 _ _ HT _ R2) as P. assert (M := pt_entry_mapped _ _ _ _ HT Hr R2).
  destruct (pt_l1 t !! PX 2 va) as [p1|] eqn:E.
  - right. exists s, ps, t, p1. split; [by apply grown_refl|]. split; [lia|]. split; [done|].
    apply walk_level_some; try done. eapply pt_page_valid; [exact HT|eapply pt_pages_l1; eassumption].
  - rewrite (walk_level_alloc 1 t) with (ps := ps) by done. destruct ps as [|p ps]; [by left|right].
    pose proof HK as ([_ (l & Hl & _)] & _ & Hv & _). rewrite Hl.
    apply Forall_cons in Hv as [Hvp _].
    assert (p <> pt_root t) by (intros ->; apply (Hd (pt_root t)); [left|done]).
    eexists _, ps, (mkPt (pt_root t) (<[PX 2 va := p]> (pt_l1 t)) (pt_l0 t)), p.
    split; [|split; [simpl; lia|split; [apply lookup_insert_eq|reflexivity]]].
    eapply new_l1; [exact H|by apply px2_low|done| |by apply newtable_spec].
    eapply newtable_kmem; [exact HK|done| |done|done]. intros Hin. apply (Hd (pt_root t)); [by right|done].
Qed.

Lemma walk_alloc1 s ps t va p1 :
  vm_ok s ps t -> pt_l1 t !! PX 2 va = Some p1 ->
  (ps = [] /\ walk_loop 1 p1 va true s = Ok 0 s) \/
  exists s1 ps1 t1 a, grown s ps t s1 ps1 t1 (leaf (mem s) t) /\ (length ps <= 1 + length ps1)%nat /\
    pte_addr t1 va = Some a /\ walk_loop 1 p1 va true s = Ok a s1.
Proof.
  intros H Hp1. pose proof H as (HK & HT & Hd & _). pose proof (pt_pages_l1 _ _ _ Hp1) as Hr.
  pose proof (pt_page_valid _ _ _ HT Hr) as Hvr. pose proof (PX_range 1 va) as R1.
  pose proof (pt_level1 _ _ HT _ _ _ Hp1 R1) as P. assert (M := pt_entry_mapped _ _ _ _ HT Hr R1).
  destruct (pt_l0 t !! (PX 2 va, PX 1 va)) as [p0|] eqn:E.
  - right. exists s, ps, t, (p0 + 8 * PX 0 va). split; [by apply grown_refl|].
    split; [lia|]. unfold pte_addr. rewrite E. split; [done|].
    rewrite (walk_level_some 0 p1 va true p0); try done. eapply pt_page_valid; [exact HT|eapply pt_pages_l0; eassumption].
  - rewrite (walk_level_alloc 0 t) with (ps := ps) by done. destruct ps as [|p ps]; [by left|right].
    pose proof HK as ([_ (l & Hl & _)] & _ & Hv & _). rewrite Hl.
    apply Forall_cons in Hv as [Hvp _].
    assert (p <> p1) by (intros ->; apply (Hd p1); [left|done]).
    eexists _, ps, (mkPt (pt_root t) (pt_l1 t) (<[(PX 2 va, PX 1 va) := p]> (pt_l0 t))), _.
    split; [|split; [simpl; lia|split; [|reflexivity]]].
    + eapply (new_l0 s p ps t (PX 2 va) p1 (PX 1 va)); [exact H|done|done|done| |by apply newtable_spec].
      eapply newtable_kmem; [exact HK|done| |done|done]. intros Hin. apply (Hd p1); [by right|done].
    + unfold pte_addr. cbn [pt_l0]. by rewrite lookup_insert_eq.
Qed.

(** [walk] with [alloc]: it returns the address of the entry, having added the
    table pages that were missing, or 0 if the free list ran out. *)
Lemma walk_alloc s ps t va :
  vm_ok s ps t -> 0 <= va < MAXVA ->
  exists s' ps' t' r, walk (pt_root t) va true s = Ok r s' /\
    grown s ps t s' ps' t' (leaf (mem s) t) /\ (length ps <= 2 + length ps')%nat /\
    ((r = 0 /\ ps' = []) \/ (r <> 0 /\ pte_addr t' va = Some r)).
Proof.
  intros H Hv. unfold walk. rewrite bind_panic_if by (apply Z.leb_gt; lia).
  destruct (walk_alloc2 s ps t va H Hv) as [[-> E]|(s1 & ps1 & t1 & p1 & G1 & L1 & E1 & E)].
  { exists s, [], t, 0. split; [done|]. split; [by apply grown_refl|]. split; [simpl; lia|by left]. }
  rewrite E. pose proof (gr_ok _ _ _ _ _ _ _ G1) as H1.
  destruct (walk_alloc1 s1 ps1 t1 va p1 H1 E1) as [[-> E']|(s2 & ps2 & t2 & a & G2 & L2 & Ha & E')].
  { exists s1, [], t1, 0. split; [done|]. split; [done|]. split; [cbn [length] in *; lia|by left]. }
  exists s2, ps2, t2, a. split; [done|]. split.
  - eapply grown_ext; [by eapply grown_trans|]. intros va' Hva'. by apply G1.
  - split; [lia|]. right. split; [|done]. unfold pte_addr in Ha.
    destruct (pt_l0 t2 !! (PX 2 va, PX 1 va)) as [p0|] eqn:E0; [|done]. injection Ha as <-.
    destruct (gr_ok _ _ _ _ _ _ _ G2) as (_ & HT & _).
    destruct (valid_page_pos p0) as [Hp _]; [eapply pt_page_valid; [exact HT|eapply pt_pages_l0; eassumption]|].
    pose proof (PX_range 0 va). lia.
Qed.

(** ** Reading and writing leaf entries *)

Lemma pte_addr_nonzero m t va a :
  pt_inv m t -> pte_addr t va = Some a -> a <> 0 /\ mapped m a 8.
Proof.
  intros HT Ha. unfold pte_addr in Ha.
  destruct (pt_l0 t !! (PX 2 va, PX 1 va)) as [p0|] eqn:E0; [|done]. injection Ha as <-.
  pose proof (pt_pages_l0 _ _ _ E0) as Hp0. pose proof (PX_range 0 va) as R0.
  destruct (valid_page_pos p0) as [Hp _]; [by eapply pt_page_valid|]. split; [lia|].
  by eapply pt_entry_mapped.
Qed.

(** Looking an entry up and loading it. *)
Lemma walk_load {B : Type} s t va (k : Z -> Z -> K B) (none : K B) :
  pt_inv (mem s) t -> 0 <= va < MAXVA ->
  (pte <- walk (pt_root t) va false ;;
   if pte =? 0 then none else v <- load64 pte ;; k pte v) s =
  match pte_addr t va with
  | Some a => k a (leaf (mem s) t va) s
  | None => none s
  end.
Proof.
  intros HT Hva. run (walk_lookup s t va HT Hva). unfold leaf.
  destruct (pte_addr t va) as [a|] eqn:Ha; [|done]. change (default 0 (Some a)) with a.
  destruct (pte_addr_nonzero _ _ _ _ HT Ha) as [Hn Hm].
  rewrite (proj2 (Z.eqb_neq a 0)) by done. by run (load64_word s a Hm).
Qed.

Lemma leaf_none m t va : pte_addr t va = None -> leaf m t va = 0.
Proof. unfold leaf. by intros ->. Qed.

Lemma walkaddr_ok s t va :
  pt_inv (mem s) t -> 0 <= va ->
  walkaddr (pt_root t) va s =
    Ok (if (va <? MAXVA) && has_flag (leaf (mem s) t va) PTE_V && has_flag (leaf (mem s) t va) PTE_U
        then PTE2PA (leaf (mem s) t va) else 0) s.
Proof.
  intros HT Hva. unfold walkaddr. rewrite Z.leb_antisym.
  destruct (Z.ltb_spec va MAXVA); cbn [negb andb]; [|done].
  rewrite (walk_load s t va (fun _ v => if negb (has_flag v PTE_V) then ret 0
     else if negb (has_flag v PTE_U) then ret 0 else ret (PTE2PA v)) (ret 0)) by done.
  destruct (pte_addr t va) eqn:Ha; [|by rewrite (leaf_none _ _ _ Ha)].
  by destruct (has_flag _ PTE_V), (has_flag _ PTE_U).
Qed.

Lemma ismapped_ok s t va :
  pt_inv (mem s) t -> 0 <= va < MAXVA ->
  ismapped (pt_root t) va s = Ok (has_flag (leaf (mem s) t va) PTE_V) s.
Proof.
  intros HT Hva. unfold ismapped.
  rewrite (walk_load s t va (fun _ v => ret (has_flag v PTE_V)) (ret false)) by done.
  destruct (pte_addr t va) eqn:Ha; [done|by rewrite (leaf_none _ _ _ Ha)].
Qed.

(** The map [lf] with entry [v] for the page of [va]. *)
Definition set_leaf (va v : Z) (lf : Z -> Z) : Z -> Z :=
  fun va' => if decide (va / 4096 = va' / 4096) then v else lf va'.

Lemma grown_store s ps t va a v :
  vm_ok s ps t -> 0 <= va < MAXVA -> 0 <= v < 2 ^ 64 -> pte_addr t va = Some a ->
  grown s ps t (s <| mem := store_bytes (mem s) a (le_encode 8 v) |>) ps t
    (set_leaf va v (leaf (mem s) t)).
Proof.
  intros H Hva Hv Ha. pose proof H as (HK & HT & Hd & Hlk).
  pose proof Ha as Ha'. unfold pte_addr in Ha'.
  destruct (pt_l0 t !! (PX 2 va, PX 1 va)) as [p0|] eqn:E0; [|done]. injection Ha' as Ea.
  pose proof (pt_pages_l0 _ _ _ E0) as Hp0. pose proof (pt_page_valid _ _ _ HT Hp0) as Hv0.
  pose proof (PX_range 0 va) as R0. split; rs.
  - st_eq s.
  - split; [|split; [|split]]; rs; try done.
    + unfold kmem_inv. rs. apply (kmem_at_store _ _ _ _ _ p0); [done|done| |lia|].
      * intros Hin. exact (Hd p0 Hin Hp0).
      * rewrite length_le_encode. lia.
    + by eapply leaf_store_inv.
  - done.
  - by exists [].
  - intros va' Hva'. by rewrite (leaf_store _ _ va).
  - intros q Hq _ Hqt. rewrite <- Ea.
    apply valid_pages_aligned_frame; try done; try lia; [by intros ->|].
    rewrite length_le_encode. lia.
  - done.
Qed.

(** ** Mapping a range *)

(** The entry [mappages] writes. *)
Definition mk_pte (pa perm : Z) : Z := Z.lor (Z.lor (PA2PTE pa) perm) PTE_V.

(** The map [lf] with [n] pages from [a] on mapped to those from [pa] on. *)
Definition map_leaves (a pa perm n : Z) (lf : Z -> Z) : Z -> Z :=
  fun va => if decide (a <= va < a + n * 4096) then mk_pte (pa + (va / 4096 * 4096 - a)) perm
            else lf va.

Lemma mk_pte_range pa perm : 0 <= perm < 1024 -> 0 <= mk_pte pa perm < 2 ^ 64.
Proof. intros H. repeat apply lor_range; [apply u64_range|lia|done]. Qed.

Lemma map_leaves_0 a pa perm lf va : map_leaves a pa perm 0 lf va = lf va.
Proof. unfold map_leaves. rewrite decide_False by lia. done. Qed.

Lemma map_leaves_cons a pa perm n lf va :
  a mod 4096 = 0 -> 0 <= n ->
  map_leaves (a + 4096) (pa + 4096) perm n (set_leaf a (mk_pte pa perm) lf) va =
  map_leaves a pa perm (n + 1) lf va.
Proof.
  intros Ha Hn. unfold map_leaves, set_leaf. pose proof (Z.div_mod a 4096).
  pose proof (Z.div_mod va 4096). pose proof (Z.mod_pos_bound va 4096).
  destruct (decide (a / 4096 = va / 4096)) as [E|E].
  - rewrite decide_False by lia. rewrite decide_True by lia. f_equal. lia.
  - destruct (decide (a + 4096 <= va < a + 4096 + n * 4096)).
    + rewrite decide_True by lia. f_equal. lia.
    + rewrite decide_False by lia. done.
Qed.

(** One iteration of [mappages]. *)
Lemma mappages_step n last s ps t a pa perm :
  vm_ok s ps t -> 0 <= a < MAXVA -> 0 <= perm < 1024 ->
  has_flag (leaf (mem s) t a) PTE_V = false ->
  exists s' ps' t', (length ps <= 2 + length ps')%nat /\
    ((ps' = [] /\ grown s ps t s' ps' t' (leaf (mem s) t) /\
     mappages_loop (S n) (pt_root t) a last pa perm s = Ok (-1) s') \/
    (grown s ps t s' ps' t' (set_leaf a (mk_pte pa perm) (leaf (mem s) t)) /\
     mappages_loop (S n) (pt_root t) a last pa perm s =
       if a =? last then Ok 0 s'
       else mappages_loop n (pt_root t) (u64 (a + PGSIZE)) last (u64 (pa + PGSIZE)) perm s')).
Proof.
  intros H Ha Hperm Hno. cbn [mappages_loop].
  destruct (walk_alloc s ps t a H Ha) as (s1 & ps1 & t1 & r & E & G & Hlen & Hr). run E.
  destruct Hr as [[-> ->]|[Hr Hpte]].
  { exists s1, [], t1. split; [done|]. left. done. }
  rewrite (proj2 (Z.eqb_neq r 0)) by done.
  pose proof (gr_ok _ _ _ _ _ _ _ G) as H1. pose proof H1 as (_ & HT1 & _).
  destruct (pte_addr_nonzero _ _ _ _ HT1 Hpte) as [_ Hm].
  run (load64_word s1 r Hm).
  assert (El : word (mem s1) r = leaf (mem s) t a).
  { rewrite <- (gr_leaf _ _ _ _ _ _ _ G) by done. unfold leaf. by rewrite Hpte. }
  rewrite El, bind_panic_if by done. fold (mk_pte pa perm). run (store64_ok r _ s1 Hm).
  pose proof (grown_store s1 ps1 t1 a r _ H1 Ha (mk_pte_range pa perm Hperm) Hpte) as G2.
  eexists _, ps1, t1. split; [done|]. right. split.
  - eapply grown_ext; [eapply grown_trans; [exact G|exact G2]|].
    intros va Hva. unfold set_leaf. case_decide; [done|]. by apply (gr_leaf _ _ _ _ _ _ _ G).
  - by destruct (a =? last).
Qed.

Lemma mappages_loop_ok n s ps t a pa perm :
  vm_ok s ps t -> a mod 4096 = 0 -> 0 <= a -> a + Z.of_nat n * 4096 <= MAXVA -> (0 < n)%nat ->
  0 <= perm < 1024 -> 0 <= pa -> pa + Z.of_nat n * 4096 < 2 ^ 64 ->
  (forall va, a <= va < a + Z.of_nat n * 4096 -> has_flag (leaf (mem s) t va) PTE_V = false) ->
  exists s' ps' t' r k,
    mappages_loop n (pt_root t) a (a + (Z.of_nat n - 1) * 4096) pa perm s = Ok r s' /\
    grown s ps t s' ps' t' (map_leaves a pa perm k (leaf (mem s) t)) /\ (length ps <= 2 * n + length ps')%nat /\
    ((r = 0 /\ k = Z.of_nat n) \/ (r = -1 /\ 0 <= k < Z.of_nat n /\ ps' = [])).
Proof.
  change MAXVA with (2 ^ 38).
  revert s ps t a pa. induction n as [|n IH]; intros s ps t a pa H Ha Ha0 Hmax Hn Hperm Hpa Hpm Hno; [lia|].
  destruct (mappages_step n (a + (Z.of_nat (S n) - 1) * 4096) s ps t a pa perm H) as
    (s1 & ps1 & t1 & Hlen & [(-> & G & E)|(G & E)]); try done.
  - change MAXVA with (2 ^ 38). lia.
  - apply Hno. lia.
  - exists s1, [], t1, (-1), 0. split; [done|]. split; [|split; [cbn [length] in *; lia|right; split_and!; done || lia]].
    eapply grown_ext; [exact G|]. intros va Hva. by rewrite map_leaves_0.
  - rewrite E. destruct (Z.eqb_spec a (a + (Z.of_nat (S n) - 1) * 4096)) as [Hlast|Hlast].
    + exists s1, ps1, t1, 0, 1. split; [done|]. split; [|split; [lia|left; lia]].
      eapply grown_ext; [exact G|]. intros va Hva.
      rewrite <- (map_leaves_cons a pa perm 0) by (done || lia). by rewrite map_leaves_0.
    + unfold PGSIZE. rewrite !u64_small by lia. rewrite <- (gr_root _ _ _ _ _ _ _ G).
      destruct (IH s1 ps1 t1 (a + 4096) (pa + 4096)) as (s2 & ps2 & t2 & r & k & E2 & G2 & Hlen2 & Hr);
        try lia; [apply G| | |].
      * rewrite <- Zplus_mod_idemp_r, Z_mod_same_full, Z.add_0_r. done.
      * intros va Hva. rewrite (gr_leaf _ _ _ _ _ _ _ G) by (change MAXVA with (2 ^ 38); lia).
        unfold set_leaf. rewrite decide_False; [apply Hno; lia|].
        pose proof (Z.div_mod va 4096). pose proof (Z.mod_pos_bound va 4096).
        pose proof (Z.div_mod a 4096). lia.
      * exists s2, ps2, t2, r, (k + 1). split; [|split; [|split; [lia|]]].
        -- rewrite <- E2. f_equal. lia.
        -- eapply grown_ext; [eapply grown_trans; [exact G|exact G2]|]. intros va Hva.
           rewrite <- map_leaves_cons by lia. unfold map_leaves. case_decide; [done|].
           by apply (gr_leaf _ _ _ _ _ _ _ G).
        -- destruct Hr as [[-> ->]|(-> & ? & ->)]; [left|right]; split_and!; done || lia.
Qed.

(** ** Creating a table *)

Lemma empty_table_inv m p :
  valid_page p -> page_mapped m p -> pt_inv (store_bytes m p (page_of 0)) (mkPt p ∅ ∅).
Proof.
  intros Hp Hm. assert (E : pt_pages (mkPt p ∅ ∅) = [p]).
  { unfold pt_pages. cbn [pt_root pt_l1 pt_l0]. by rewrite !map_to_list_empty. }
  split; rewrite ?E.
  - apply NoDup_singleton.
  - by apply Forall_singleton.
  - apply Forall_singleton. by apply mapped_store.
  - intros i Hi. cbn [pt_l1 pt_root]. rewrite lookup_empty. unfold points.
    by rewrite word_zero_page.
  - intros i q j. cbn [pt_l1]. by rewrite lookup_empty.
  - intros i j q. cbn [pt_l0]. by rewrite lookup_empty.
  - intros i q. cbn [pt_l1]. by rewrite lookup_empty.
Qed.

Lemma uvmcreate_ok s p ps :
  kmem_inv s (p :: ps) -> L_kmem ∉ held s ->
  exists m fl,
    uvmcreate s = Ok p (s <| mem := m |> <| freelist := fl |>) /\
    vm_ok (s <| mem := m |> <| freelist := fl |>) ps (mkPt p ∅ ∅) /\
    (forall q, valid_page q -> q <> p -> same_page (mem s) m q).
Proof.
  intros HK Hl. pose proof HK as ([Hf (l & Hn & _)] & Hnd & Hv & Hm).
  apply NoDup_cons in Hnd as [Hp _]. apply Forall_cons in Hv as [Hvp _].
  apply Forall_cons in Hm as [Hmp _]. pose proof (valid_page_pos p Hvp) as [Hpp _].
  set (m1 := store_bytes (mem s) p (page_of 5)).
  exists (store_bytes m1 p (page_of 0)), (le_decode l). split; [|split].
  - unfold uvmcreate. run (kalloc_ok s p l Hf Hvp Hmp Hl Hn).
    rewrite (proj2 (Z.eqb_neq p 0)) by lia. fold m1.
    erewrite (bind_ok (kmemset _ _ _)); [|apply kmemset_ok; rs; by apply mapped_store].
    change (u8 0) with 0. rs. unfold ret.
    match goal with |- Ok _ ?x = Ok _ ?y => replace y with x by st_eq s end. done.
  - split; [|split; [|split]]; rs; [..|done].
    + unfold kmem_inv. rs. apply (kmem_at_store _ _ _ _ _ p); [|done|done|lia|by rewrite length_page_of].
      by eapply kmem_at_kalloc.
    + apply empty_table_inv; [done|by apply mapped_store].
    + intros q Hq. unfold pt_pages. cbn [pt_root pt_l1 pt_l0]. rewrite !map_to_list_empty. cbn.
      intros E%list_elem_of_singleton. subst q. exact (Hp Hq).
  - intros q Hq Hne.
    eapply same_page_trans; [apply (store_page_frame (mem s) p 5)|apply (store_page_frame m1 p 0)];
      congruence.
Qed.

Lemma leaf_empty m p va : leaf m (mkPt p ∅ ∅) va = 0.
Proof. unfold leaf, pte_addr. cbn [pt_l0]. by rewrite lookup_empty. Qed.

(** What [walkaddr] and the copy routines see of an entry that [mappages] wrote. *)
Lemma mk_pte_spec pa perm :
  0 <= pa < 2 ^ 56 -> pa mod 4096 = 0 -> 0 <= perm < 1024 ->
  PTE2PA (mk_pte pa perm) = pa /\ has_flag (mk_pte pa perm) PTE_V = true /\
  (forall k, 0 < k < 10 -> has_flag (mk_pte pa perm) (2 ^ k) = has_flag perm (2 ^ k)).
Proof.
  intros Hp Ha Hperm. unfold mk_pte. split; [|split].
  - rewrite <- Z.lor_assoc. apply PTE2PA_PA2PTE; [done|done|].
    apply (lor_range 10); [done|done].
  - change PTE_V with (2 ^ 0) at 2. rewrite has_flag_spec, Z.lor_spec. apply orb_true_r.
  - intros k Hk. rewrite !has_flag_spec, !Z.lor_spec. unfold PA2PTE, wrap.
    rewrite Z.mod_pow2_bits_low by lia. rewrite Z.shiftl_spec_low by lia. cbn [orb].
    change PTE_V with (2 ^ 0). rewrite Z.pow2_bits_false by lia. apply orb_false_r.
Qed.

Lemma mappages_ok s ps t va size pa perm :
  vm_ok s ps t -> va mod PGSIZE = 0 -> size mod PGSIZE = 0 -> 0 < size -> 0 <= va ->
  va + size <= MAXVA -> 0 <= perm < 1024 -> 0 <= pa -> pa + size <= 2 ^ 56 ->
  (forall a, va <= a < va + size -> has_flag (leaf (mem s) t a) PTE_V = false) ->
  exists s' ps' t' r k,
    mappages (pt_root t) va size pa perm s = Ok r s' /\
    grown s ps t s' ps' t' (map_leaves va pa perm k (leaf (mem s) t)) /\
    (Z.of_nat (length ps) <= 2 * (size / PGSIZE) + Z.of_nat (length ps')) /\
    ((r = 0 /\ k = size / PGSIZE) \/ (r = -1 /\ 0 <= k < size / PGSIZE /\ ps' = [])).
Proof.
  unfold PGSIZE. intros H Hva Hsz Hpos Hva0 Hmax Hperm Hpa0 Hpam Hno. unfold mappages.
  assert (Hn : size = size / 4096 * 4096) by (pose proof (Z.div_mod size 4096); lia).
  rewrite bind_panic_if by (unfold PGSIZE; by rewrite Hva).
  rewrite bind_panic_if by (unfold PGSIZE; by rewrite Hsz).
  rewrite bind_panic_if by (apply Z.eqb_neq; lia).
  change MAXVA with (2 ^ 38) in Hmax. unfold PGSIZE. rewrite u64_small by lia.
  replace (va + size - 4096) with (va + (Z.of_nat (Z.to_nat (size / 4096)) - 1) * 4096) by lia.
  destruct (mappages_loop_ok (Z.to_nat (size / 4096)) s ps t va pa perm)
    as (s' & ps' & t' & r & k & E & G & Hl & Hr); try done; try (change MAXVA with (2 ^ 38)); try lia.
  { intros a Hr. apply Hno. lia. }
  rewrite Z2Nat.id in Hr by lia. exists s', ps', t', r, k. split_and!; done || lia.
Qed.

(** C6: [mappages] maps exactly the pages it is asked for: if it returns 0, the
    page-table entry of every page of the range holds the corresponding physical page with
    the permissions and the valid bit (so that [walkaddr] translates user-accessible
    ones), and every other address is mapped as before.  If it returns -1, the free list
    is empty and a proper prefix of the range has been mapped.  Either way the table is
    well formed, the pages it gained come from the free list, and no page outside the
    table and the free list is touched. *)
Theorem mappages_spec s ps t va size pa perm :
  vm_ok s ps t -> va mod PGSIZE = 0 -> size mod PGSIZE = 0 -> 0 < size -> 0 <= va ->
  va + size <= MAXVA -> 0 <= perm < 1024 -> pa mod PGSIZE = 0 -> 0 <= pa -> pa + size <= 2 ^ 56 ->
  (forall a, va <= a < va + size -> has_flag (leaf (mem s) t a) PTE_V = false) ->
  exists s' ps' t' r k,
    mappages (pt_root t) va size pa perm s = Ok r s' /\
    grown s ps t s' ps' t' (map_leaves va pa perm k (leaf (mem s) t)) /\
    ((r = 0 /\ k = size / PGSIZE) \/ (r = -1 /\ 0 <= k < size / PGSIZE /\ ps' = [])) /\
    (r = 0 -> has_flag perm PTE_U = true -> forall a, va <= a < va + size ->
       walkaddr (pt_root t) a s' = Ok (pa + (a / PGSIZE * PGSIZE - va)) s').
Proof.
  unfold PGSIZE. intros H Hva Hsz Hpos Hva0 Hmax Hperm Hpa Hpa0 Hpam Hno.
  destruct (mappages_ok s ps t va size pa perm) as (s' & ps' & t' & r & k & E & G & _ & Hr); try done.
  change MAXVA with (2 ^ 38) in Hmax. unfold PGSIZE in Hr.
  exists s', ps', t', r, k. split; [done|]. split; [done|]. split; [done|].
  intros -> HU a Har. destruct Hr as [[_ ->]|[]]; [|done].
  assert (Hn : size = size / 4096 * 4096) by (pose proof (Z.div_mod size 4096); lia).
  rewrite <- (gr_root _ _ _ _ _ _ _ G). destruct (gr_ok _ _ _ _ _ _ _ G) as (_ & HT & _).
  rewrite walkaddr_ok by (done || lia).
  rewrite (gr_leaf _ _ _ _ _ _ _ G) by (change MAXVA with (2 ^ 38); lia).
  unfold map_leaves. rewrite decide_True by lia.
  pose proof (Z.div_mod a 4096). pose proof (Z.mod_pos_bound a 4096).
  destruct (mk_pte_spec (pa + (a / 4096 * 4096 - va)) perm) as (E1 & E2 & E3); [| |done|].
  - pose proof (Z.div_mod va 4096). lia.
  - pose proof (Z.div_mod va 4096). pose proof (Z.div_mod pa 4096).
    replace (pa + (a / 4096 * 4096 - va)) with ((pa / 4096 + (a / 4096 - va / 4096)) * 4096) by lia.
    apply Z.mod_mul. lia.
  - rewrite E1, E2. change PTE_U with (2 ^ 4) in *. rewrite (E3 4) by lia. rewrite HU.
    rewrite (proj2 (Z.ltb_lt a MAXVA)); [done|]. change MAXVA with (2 ^ 38). lia.
Qed.

End pagetable.

Section witnesses.
Import Small.

(** A fresh page table of the small kernel. *)
Lemma small_table :
  exists s ps p, vm_ok s ps (mkPt p ∅ ∅) /\ held s = [].
Proof.
  destruct booted as (s & p & ps & HK & Hh & _).
  destruct (uvmcreate_ok s p ps HK) as (m & fl & _ & H & _);
    [rewrite Hh; apply not_elem_of_nil|].
  exists (s <| mem := m |> <| freelist := fl |>), ps, p. split; [exact H|]. by rs.
Qed.

Lemma mappages_spec_witness :
  exists s ps t s' ps' t' r k,
    vm_ok s ps t /\
    mappages (pt_root t) 0 8192 0x80000000 (Z.lor PTE_R PTE_U) s = Ok r s' /\
    grown s ps t s' ps' t'
      (map_leaves 0 0x80000000 (Z.lor PTE_R PTE_U) k (leaf (mem s) t)) /\
    ((r = 0 /\ k = 2) \/ (r = -1 /\ 0 <= k < 2 /\ ps' = [])).
Proof.
  destruct small_table as (s & ps & p & H & Hh).
  destruct (mappages_spec s ps (mkPt p ∅ ∅) 0 8192 0x80000000 (Z.lor PTE_R PTE_U) H)
    as (s' & ps' & t' & r & k & E & G & Hr & _);
    try (intros; by rewrite leaf_empty); try done.
  by exists s, ps, (mkPt p ∅ ∅), s', ps', t', r, k.
Defined.

End witnesses.
