(* ===== verification/User.v ===== *)
(** User address spaces (kernel/vm.c): what a user process sees of its memory, the
    pages it owns, and what the routines of vm.c do to them.

    [ubyte] is the byte a user address refers to, a page that is allocated only at
    its first use counting as zeroes already; [usteps] says that the pages of the
    address space and the free list are conserved and that nothing else is touched. *)

From stdpp Require Import prelude gmap strings.
From Stdlib Require Import ZArith Lia.
From S2P Require Import Prelude Bytes Params State Spinlock CString Kalloc Vm PageTable.

Local Open Scope Z_scope.
Local Open Scope kernel_scope.

(** The entry [v] is valid; it is one that the user may access. *)
Abbreviation valid v := (has_flag v PTE_V).
Definition user_pte (v : Z) : bool := valid v && has_flag v PTE_U.

(** The page of a user address, when it is to be allocated at its first use. *)
Definition lazy (psz va : Z) : bool := va / PGSIZE * PGSIZE <? psz.

(** What is mapped at [va]: the permissions of its page, and the byte. *)
Definition uview (m : memory) (t : ptree) (va : Z) : option (Z * option Z) :=
  let v := leaf m t va in
  if valid v then Some (PTE_FLAGS v, m !! (PTE2PA v + va mod PGSIZE)) else None.

(** The byte at user address [va] of a process of size [psz], and whether the user
    may write to it.  Nothing above is the user's. *)
Definition ubyte (m : memory) (t : ptree) (psz va : Z) : option Z :=
  if (0 <=? va) && (va <? TRAPFRAME) then
    match uview m t va with
    | Some (fl, b) => if has_flag fl PTE_U then b else None
    | None => if lazy psz va then Some 0 else None
    end
  else None.

Definition uwritable (m : memory) (t : ptree) (psz va : Z) : bool :=
  (0 <=? va) && (va <? TRAPFRAME) &&
  match uview m t va with
  | Some (fl, _) => has_flag fl PTE_U && has_flag fl PTE_W
  | None => lazy psz va
  end.

(** The page of [va] has been allocated. *)
Definition present (m : memory) (t : ptree) (va : Z) : bool :=
  (0 <=? va) && (va <? TRAPFRAME) && valid (leaf m t va).

(** The pages of an address space: those of its table, and those mapped below the
    trap frame. *)
Definition owns (m : memory) (t : ptree) (q : Z) : Prop :=
  q ∈ pt_pages t \/
  exists va, 0 <= va < TRAPFRAME /\ valid (leaf m t va) = true /\ PTE2PA (leaf m t va) = q.

(** A loaded byte, and the flags of an entry that [mappages] writes. *)
Lemma load_bytes_lookup m a n l i :
  load_bytes m a n = Some l -> 0 <= i < Z.of_nat n -> m !! (a + i) = l !! Z.to_nat i.
Proof.
  intros Hl Hi. pose proof (length_load_bytes _ _ _ _ Hl) as <-.
  rewrite (proj1 (load_bytes_Some m a l) Hl) by lia. f_equal. lia.
Qed.

Lemma mk_pte_flags pa perm : 0 <= perm < 1024 -> PTE_FLAGS (mk_pte pa perm) = Z.lor perm PTE_V.
Proof.
  intros H. unfold mk_pte. rewrite <- Z.lor_assoc. apply PA2PTE_flags.
  by apply (lor_range 10).
Qed.

Section user.
Context {L : Linker} {LOk : LinkerOk L}.

Record uvm_ok (s : kstate) (ps : list Z) (t : ptree) : Prop := {
  uv_vm : vm_ok s ps t;
  uv_page : forall va, 0 <= va < TRAPFRAME -> valid (leaf (mem s) t va) = true ->
    let p := PTE2PA (leaf (mem s) t va) in
    valid_page p /\ page_mapped (mem s) p /\ p ∉ ps /\ p ∉ pt_pages t;
  uv_inj : forall va va', 0 <= va < TRAPFRAME -> 0 <= va' < TRAPFRAME ->
    valid (leaf (mem s) t va) = true -> valid (leaf (mem s) t va') = true ->
    PTE2PA (leaf (mem s) t va) = PTE2PA (leaf (mem s) t va') -> va / PGSIZE = va' / PGSIZE;
  uv_high : forall va, TRAPFRAME <= va < MAXVA -> user_pte (leaf (mem s) t va) = false;
}.

(** From [s], [ps], [t] to [s'], [ps'], [t']: only memory and the free list change;
    a page that is free or owned stays one of the two; other pages keep their contents; what is
    mapped above user memory stays mapped. *)
Record ustep (s : kstate) (ps : list Z) (t : ptree) (s' : kstate) (ps' : list Z) (t' : ptree)
    : Prop := {
  us_only : s' = s <| mem := mem s' |> <| freelist := freelist s' |>;
  us_ok : uvm_ok s' ps' t';
  us_root : pt_root t' = pt_root t;
  us_conserve : forall q, (q ∈ ps' \/ owns (mem s') t' q) <-> (q ∈ ps \/ owns (mem s) t q);
  us_frame : forall q, valid_page q -> q ∉ ps -> ~ owns (mem s) t q ->
    same_page (mem s) (mem s') q;
  us_high : forall va, TRAPFRAME <= va < MAXVA -> leaf (mem s') t' va = leaf (mem s) t va;
}.

Lemma same_page_refl m p : same_page m m p.
Proof. by intros i _. Qed.

Lemma ustep_refl s ps t : uvm_ok s ps t -> ustep s ps t s ps t.
Proof. intros H. split; try done. by destruct s. Qed.

Lemma ustep_trans s ps t s1 ps1 t1 s2 ps2 t2 :
  ustep s ps t s1 ps1 t1 -> ustep s1 ps1 t1 s2 ps2 t2 -> ustep s ps t s2 ps2 t2.
Proof.
  intros U1 U2. split.
  - rewrite (us_only _ _ _ _ _ _ U2), (us_only _ _ _ _ _ _ U1) at 1. rs. st_eq s.
  - apply U2.
  - rewrite (us_root _ _ _ _ _ _ U2). apply U1.
  - intros q. by rewrite (us_conserve _ _ _ _ _ _ U2), (us_conserve _ _ _ _ _ _ U1).
  - intros q Hq H1 H2. pose proof (us_conserve _ _ _ _ _ _ U1 q) as C.
    eapply same_page_trans; [by apply U1|]. apply U2; tauto.
  - intros va Hva. rewrite (us_high _ _ _ _ _ _ U2) by done. by apply U1.
Qed.

(** ** Address spaces that do not overlap *)

Definition disjoint_spaces (m : memory) (t t2 : ptree) : Prop :=
  forall q, owns m t q -> owns m t2 q -> False.

Lemma owns_valid s ps t q : uvm_ok s ps t -> owns (mem s) t q ->
  valid_page q /\ page_mapped (mem s) q /\ q ∉ ps.
Proof.
  intros H [Hq|(va & Hva & Hv & <-)].
  - destruct (uv_vm _ _ _ H) as (_ & HT & Hd & _). split_and!.
    + by eapply pt_page_valid.
    + pose proof (pt_mapped _ _ HT) as Hm. rewrite Forall_forall in Hm. by apply Hm.
    + intros Hin. by apply (Hd q).
  - by destruct (uv_page _ _ _ H va Hva Hv) as (? & ? & ? & ?).
Qed.

Lemma leaf_same m m' t va :
  (forall q, owns m t q -> same_page m m' q) -> leaf m' t va = leaf m t va.
Proof. intros H. apply leaf_frame. intros p Hp. apply H. by left. Qed.

Lemma owns_same m m' t q :
  (forall q, owns m t q -> same_page m m' q) -> owns m' t q <-> owns m t q.
Proof.
  intros H. unfold owns. by setoid_rewrite (leaf_same m m' t _ H).
Qed.

Lemma page_byte m m' p i :
  same_page m m' p -> 0 <= i < PGSIZE -> m' !! (p + i) = m !! (p + i).
Proof. intros H Hi. apply H. lia. Qed.

Lemma mod_page va : 0 <= va mod PGSIZE < PGSIZE.
Proof. by apply Z.mod_pos_bound. Qed.

Lemma div_page va a : va mod PGSIZE = 0 -> va <= a < va + PGSIZE -> a / PGSIZE = va / PGSIZE.
Proof.
  unfold PGSIZE. intros H Ha. pose proof (Z.div_mod va 4096). pose proof (Z.div_mod a 4096).
  pose proof (Z.mod_pos_bound a 4096). lia.
Qed.

Lemma aligned_next a b : a mod PGSIZE = 0 -> b mod PGSIZE = 0 -> a < b -> a + PGSIZE <= b.
Proof. unfold PGSIZE. intros Ha Hb H. pose proof (Z.div_mod a 4096). pose proof (Z.div_mod b 4096). lia. Qed.

(** A user entry is below the trap frame. *)
Lemma user_low s ps t va :
  uvm_ok s ps t -> 0 <= va < MAXVA -> user_pte (leaf (mem s) t va) = true -> va < TRAPFRAME.
Proof.
  intros H Hva Hu. destruct (Z_lt_ge_dec va TRAPFRAME); [done|].
  rewrite (uv_high _ _ _ H va) in Hu by lia. done.
Qed.

Lemma uview_same m m' t va :
  (forall q, owns m t q -> same_page m m' q) -> 0 <= va < TRAPFRAME ->
  uview m' t va = uview m t va.
Proof.
  intros Hs Hva. unfold uview. rewrite (leaf_same _ _ _ _ Hs).
  destruct (valid _) eqn:Hv; [|done]. rewrite (page_byte m m'); [done| |apply mod_page].
  apply Hs. right. by exists va.
Qed.

Lemma pt_inv_same m m' t :
  (forall q, owns m t q -> same_page m m' q) -> pt_inv m t -> pt_inv m' t.
Proof. intros Hs. apply pt_inv_frame. intros p Hp. apply Hs. by left. Qed.

(** An address space whose pages keep their contents and do not become free. *)
Lemma uvm_frame s ps t s' ps' :
  uvm_ok s ps t -> kmem_inv s' ps' -> L_kmem ∉ held s' ->
  (forall q, owns (mem s) t q -> same_page (mem s) (mem s') q) ->
  (forall q, q ∈ ps' -> owns (mem s) t q -> False) -> uvm_ok s' ps' t.
Proof.
  intros H HK Hl Hs Hf. destruct (uv_vm _ _ _ H) as (_ & HT & _ & _). split.
  - split; [done|]. split; [by eapply pt_inv_same|]. split; [|done].
    intros p Hp Hp2. apply (Hf p); [done|by left].
  - intros va Hva. rewrite (leaf_same _ _ _ _ Hs). intros Hv p.
    destruct (uv_page _ _ _ H va Hva Hv) as (? & Hm & ? & ?). split_and!; try done.
    + eapply same_page_mapped; [|exact Hm]. apply Hs. right. by exists va.
    + intros Hp. apply (Hf p); [done|]. right. by exists va.
  - intros va va' Hva Hva'. rewrite !(leaf_same _ _ _ _ Hs). by apply H.
  - intros va Hva. rewrite (leaf_same _ _ _ _ Hs). by apply H.
Qed.

(** What happens in one address space does not concern another. *)
Lemma ustep_other s ps t s' ps' t' t2 :
  ustep s ps t s' ps' t' -> uvm_ok s ps t2 -> disjoint_spaces (mem s) t t2 ->
  uvm_ok s' ps' t2 /\ disjoint_spaces (mem s') t' t2 /\
  (forall q, owns (mem s) t2 q -> same_page (mem s) (mem s') q).
Proof.
  intros U H2 Hd.
  assert (Hs : forall q, owns (mem s) t2 q -> same_page (mem s) (mem s') q).
  { intros q Hq. destruct (owns_valid _ _ _ _ H2 Hq) as (? & ? & ?).
    apply U; try done. intros Hq'. exact (Hd q Hq' Hq). }
  assert (Hf : forall q, q ∈ ps' \/ owns (mem s') t' q -> owns (mem s) t2 q -> False).
  { intros q Hq Hq2. apply (us_conserve _ _ _ _ _ _ U) in Hq as [Hq|Hq]; [|exact (Hd q Hq Hq2)].
    by destruct (owns_valid _ _ _ _ H2 Hq2) as (? & ? & ?). }
  destruct (us_ok _ _ _ _ _ _ U) as [(HK & _ & _ & Hl) _ _ _].
  split; [|split; [|done]].
  - eapply uvm_frame; try done. intros q Hq. apply Hf. by left.
  - intros q Hq Hq2. apply (owns_same _ _ _ _ Hs) in Hq2. apply (Hf q); [by right|done].
Qed.

(** A new, empty address space. *)
Lemma empty_space s ps p : vm_ok s ps (mkPt p ∅ ∅) -> uvm_ok s ps (mkPt p ∅ ∅).
Proof.
  intros H. split; [done|..]; intros; unfold user_pte in *; rewrite leaf_empty in *; done.
Qed.

Lemma owns_empty m p q : owns m (mkPt p ∅ ∅) q -> q = p.
Proof.
  intros [Hq|(va & _ & Hv & _)]; [|by rewrite leaf_empty in Hv].
  unfold pt_pages in Hq. cbn [pt_root pt_l1 pt_l0] in Hq. rewrite !map_to_list_empty in Hq.
  by apply list_elem_of_singleton in Hq.
Qed.

Lemma uvmcreate_space s p ps :
  kmem_inv s (p :: ps) -> L_kmem ∉ held s ->
  exists s', uvmcreate s = Ok p s' /\ held s' = held s /\ uvm_ok s' ps (mkPt p ∅ ∅) /\
    forall t, uvm_ok s (p :: ps) t -> uvm_ok s' ps t /\ disjoint_spaces (mem s') (mkPt p ∅ ∅) t.
Proof.
  intros HK Hl. destruct (uvmcreate_ok s p ps HK Hl) as (m & fl & E & Hvm & Hs).
  eexists. split; [exact E|]. split; [done|]. split; [by apply empty_space|]. intros t H.
  pose proof (fun q => owns_valid s (p :: ps) t q H) as Hv.
  assert (Hs' : forall q, owns (mem s) t q -> same_page (mem s) m q).
  { intros q Hq. destruct (Hv q Hq) as (? & _ & [? _]%not_elem_of_cons). by apply Hs. }
  destruct Hvm as (HK' & _ & _ & Hl'). split.
  - eapply uvm_frame; try done. intros q Hq Ho. destruct (Hv q Ho) as (_ & _ & [_ ?]%not_elem_of_cons). done.
  - intros q Hq Ho. apply owns_empty in Hq as ->. rs_in Ho. apply (owns_same _ _ _ _ Hs') in Ho.
    destruct (Hv p Ho) as (_ & _ & [? _]%not_elem_of_cons). done.
Qed.

(** ** Changing one entry *)

Lemma set_leaf_in va v lf va' : va' / PGSIZE = va / PGSIZE -> set_leaf va v lf va' = v.
Proof. intros E. unfold set_leaf. by rewrite decide_True. Qed.

Lemma set_leaf_out va v lf va' : va' / PGSIZE <> va / PGSIZE -> set_leaf va v lf va' = lf va'.
Proof. intros E. unfold set_leaf. rewrite decide_False; [done|]. by intros E'; apply E. Qed.

(** The page the entry [v] maps. *)
Definition pte_page (v q : Z) : Prop := valid v = true /\ q = PTE2PA v.

Lemma leaf_page m t va va' : va / PGSIZE = va' / PGSIZE -> leaf m t va = leaf m t va'.
Proof.
  intros E. unfold leaf, pte_addr. by rewrite !(px_same_page va va') by done.
Qed.

Lemma low_maxva a : 0 <= a < TRAPFRAME -> 0 <= a < MAXVA.
Proof. unfold TRAPFRAME, TRAMPOLINE, PGSIZE. lia. Qed.

(** The entry for [va] changes to [v]; the page it mapped becomes free, and the one
    it maps was free. *)
Section set_entry.
Context (s : kstate) (ps : list Z) (t : ptree) (s' : kstate) (ps' : list Z) (t' : ptree).
Context (va v : Z).
Let old := leaf (mem s) t va.
Hypothesis H : uvm_ok s ps t.
Hypothesis Hva : 0 <= va < TRAPFRAME.
Hypothesis Honly : s' = s <| mem := mem s' |> <| freelist := freelist s' |>.
Hypothesis Hroot : pt_root t' = pt_root t.
Hypothesis Hvm : vm_ok s' ps' t'.
Hypothesis Hleaf : forall a, 0 <= a < MAXVA -> leaf (mem s') t' a = set_leaf va v (leaf (mem s) t) a.
Hypothesis Hcon : forall q, (q ∈ ps' \/ q ∈ pt_pages t' \/ pte_page v q) <->
  (q ∈ ps \/ q ∈ pt_pages t \/ pte_page old q).
Hypothesis Hframe : forall q, valid_page q -> q ∉ ps -> q ∉ pt_pages t -> ~ pte_page old q ->
  same_page (mem s) (mem s') q.
Hypothesis Hnew : forall p, pte_page v p ->
  valid_page p /\ page_mapped (mem s') p /\ p ∉ ps' /\ p ∉ pt_pages t' /\
  (p ∈ ps \/ pte_page old p).

Lemma entry_other a :
  0 <= a < TRAPFRAME -> a / PGSIZE <> va / PGSIZE -> valid (leaf (mem s) t a) = true ->
  let p := PTE2PA (leaf (mem s) t a) in
  valid_page p /\ page_mapped (mem s) p /\ p ∉ ps /\ p ∉ pt_pages t /\ ~ pte_page old p /\
  same_page (mem s) (mem s') p.
Proof.
  intros Ha Hne Hv p. destruct (uv_page _ _ _ H a Ha Hv) as (? & ? & ? & ?).
  assert (~ pte_page old p).
  { intros [Ho Ep]. apply Hne. by apply (uv_inj _ _ _ H). }
  split_and!; try done. by apply Hframe.
Qed.

Lemma high_page a : TRAPFRAME <= a -> a / PGSIZE <> va / PGSIZE.
Proof.
  intros Ha E. change TRAPFRAME with (67108862 * PGSIZE) in *.
  apply (Z.div_le_mono _ _ PGSIZE) in Ha; [|done]. rewrite Z.div_mul in Ha by done.
  assert (va / PGSIZE < 67108862) by (apply Z.div_lt_upper_bound; [done|lia]). lia.
Qed.

Lemma entry_uvm_ok : uvm_ok s' ps' t'.
Proof.
  split; [done|..].
  - intros a Ha. rewrite Hleaf by (by apply low_maxva).
    destruct (decide (a / PGSIZE = va / PGSIZE)) as [E|E].
    + rewrite set_leaf_in by done. intros Hv. destruct (Hnew (PTE2PA v)) as (? & ? & ? & ? & ?); done.
    + rewrite set_leaf_out by done. intros Hv.
      destruct (entry_other a Ha E Hv) as (? & Hm & Hps & Hpt & Ho & Hsame). split_and!; try done.
      * by eapply same_page_mapped.
      * intros Hin. destruct (proj1 (Hcon _) (or_introl Hin)) as [?|[?|?]]; done.
      * intros Hin. destruct (proj1 (Hcon _) (or_intror (or_introl Hin))) as [?|[?|?]]; done.
  - assert (X : forall a, 0 <= a < TRAPFRAME -> a / PGSIZE <> va / PGSIZE ->
      valid (leaf (mem s) t a) = true -> valid v = true -> PTE2PA v <> PTE2PA (leaf (mem s) t a)).
    { intros a Ha E Hv Hvv Ep. destruct (entry_other a Ha E Hv) as (_ & _ & Hps & _ & Ho & _).
      rewrite <- Ep in Hps, Ho. destruct (Hnew (PTE2PA v)) as (_ & _ & _ & _ & [?|?]); done. }
    intros a a' Ha Ha'. rewrite !Hleaf by (by apply low_maxva).
    destruct (decide (a / PGSIZE = va / PGSIZE)) as [E|E];
    destruct (decide (a' / PGSIZE = va / PGSIZE)) as [E'|E'];
      rewrite ?(set_leaf_in va v _ a), ?(set_leaf_in va v _ a') by done;
      rewrite ?(set_leaf_out va v _ a), ?(set_leaf_out va v _ a') by done; [congruence|..].
    + intros Hv Hv' Ep. by destruct (X a' Ha' E' Hv' Hv).
    + intros Hv Hv' Ep. by destruct (X a Ha E Hv Hv').
    + by apply H.
  - intros a Ha. rewrite Hleaf by (change TRAPFRAME with 274877898752 in Ha; lia).
    rewrite set_leaf_out by (apply high_page; lia). by apply H.
Qed.

Lemma entry_owns q : owns (mem s') t' q <->
  q ∈ pt_pages t' \/ pte_page v q \/
  exists a, 0 <= a < TRAPFRAME /\ a / PGSIZE <> va / PGSIZE /\ pte_page (leaf (mem s) t a) q.
Proof.
  unfold owns. split.
  - intros [Hq|(a & Ha & Hv & Hq)]; [by left|right].
    rewrite Hleaf in Hv, Hq by (by apply low_maxva).
    destruct (decide (a / PGSIZE = va / PGSIZE)) as [E|E].
    + rewrite set_leaf_in in Hv, Hq by done. by left.
    + rewrite set_leaf_out in Hv, Hq by done. right. by exists a.
  - intros [Hq|[[Hv Hq]|(a & Ha & E & Hv & Hq)]]; [by left|right..].
    + exists va. rewrite Hleaf, set_leaf_in by (done || by apply low_maxva). done.
    + exists a. rewrite Hleaf, set_leaf_out by (done || by apply low_maxva). done.
Qed.

Lemma old_owns q : owns (mem s) t q <->
  q ∈ pt_pages t \/ pte_page old q \/
  exists a, 0 <= a < TRAPFRAME /\ a / PGSIZE <> va / PGSIZE /\ pte_page (leaf (mem s) t a) q.
Proof.
  unfold owns. split.
  - intros [Hq|(a & Ha & Hv & Hq)]; [by left|right].
    destruct (decide (a / PGSIZE = va / PGSIZE)) as [E|E]; [|right; by exists a].
    left. unfold old. by rewrite <- (leaf_page _ _ a va E).
  - intros [Hq|[[Hv Hq]|(a & Ha & E & Hv & Hq)]]; [by left|right..]; eauto.
Qed.

Lemma entry_ustep : ustep s ps t s' ps' t'.
Proof.
  split; [done|apply entry_uvm_ok|done|..].
  - intros q. rewrite entry_owns, old_owns. pose proof (Hcon q). tauto.
  - intros q Hq Hps Ho. rewrite old_owns in Ho. apply Hframe; tauto.
  - intros a Ha. rewrite Hleaf by (change TRAPFRAME with 274877898752 in Ha; lia).
    apply set_leaf_out, high_page. lia.
Qed.

Lemma entry_view a :
  0 <= a < TRAPFRAME -> a / PGSIZE <> va / PGSIZE -> uview (mem s') t' a = uview (mem s) t a.
Proof.
  intros Ha E. unfold uview. rewrite Hleaf, set_leaf_out by (done || by apply low_maxva).
  destruct (valid _) eqn:Hv; [|done].
  destruct (entry_other a Ha E Hv) as (_ & _ & _ & _ & _ & Hs).
  by rewrite (page_byte _ _ _ _ Hs (mod_page a)).
Qed.

End set_entry.

(** ** Allocating a page *)

(** The view [w] with the page of [va] mapped with permissions [fl] to the bytes [l]. *)
Definition with_page (va fl : Z) (l : list Z) (w : Z -> option (Z * option Z))
    : Z -> option (Z * option Z) :=
  fun a => if decide (a / PGSIZE = va / PGSIZE) then Some (fl, l !! Z.to_nat (a mod PGSIZE)) else w a.

(** What an address space looks like after a step. *)
Definition uchange (s : kstate) (ps : list Z) (t : ptree) (s' : kstate) (ps' : list Z) (t' : ptree)
    (w : Z -> option (Z * option Z)) : Prop :=
  ustep s ps t s' ps' t' /\ forall a, 0 <= a < TRAPFRAME -> uview (mem s') t' a = w a.

Lemma kalloc_fill s p ps t l next :
  uvm_ok s (p :: ps) t -> length l = 4096%nat -> load_bytes (mem s) p 8 = Some next ->
  let s1 := s <| mem := store_bytes (store_bytes (mem s) p (page_of 5)) p l |>
              <| freelist := le_decode next |> in
  vm_ok s1 ps t /\ (forall q, valid_page q -> q <> p -> same_page (mem s) (mem s1) q) /\
  (forall a, leaf (mem s1) t a = leaf (mem s) t a).
Proof.
  intros H Hl Hn s1. destruct (uv_vm _ _ _ H) as (HK & HT & Hd & Hlk).
  pose proof HK as (_ & Hnd & Hv & _).
  apply NoDup_cons in Hnd as [Hp _]. apply Forall_cons in Hv as [Hvp _].
  assert (Hf : forall q, valid_page q -> q <> p -> same_page (mem s) (mem s1) q).
  { intros q Hq Hne. unfold s1. rs. eapply same_page_trans; [apply (store_page_frame _ p 5); congruence|].
    pose proof (valid_pages_aligned_frame p q (store_bytes (mem s) p (page_of 5)) l 0) as X.
    rewrite Z.add_0_r in X. apply X; congruence || lia. }
  assert (Ht : forall q, q ∈ pt_pages t -> same_page (mem s) (mem s1) q).
  { intros q Hq. apply Hf; [by eapply pt_page_valid|]. intros ->. apply (Hd p); [left|done]. }
  split; [|split; [done|intros a; by apply leaf_frame]].
  split; [|split; [by eapply pt_inv_frame|split; [|done]]].
  - unfold kmem_inv, s1. rs. apply (kmem_at_store _ _ _ _ _ p); [|done|done|lia|lia].
    by eapply kmem_at_kalloc.
  - intros q Hq. apply Hd. by right.
Qed.

Lemma map_leaves_1 va pa perm lf a :
  va mod PGSIZE = 0 -> map_leaves va pa perm 1 lf a = set_leaf va (mk_pte pa perm) lf a.
Proof.
  unfold map_leaves, set_leaf, PGSIZE. intros Hva.
  pose proof (Z.div_mod va 4096). pose proof (Z.div_mod a 4096). pose proof (Z.mod_pos_bound a 4096).
  destruct (decide (va / 4096 = a / 4096)).
  - rewrite decide_True by lia. f_equal. lia.
  - rewrite decide_False by lia. done.
Qed.

Lemma set_leaf_id va m t a : set_leaf va (leaf m t va) (leaf m t) a = leaf m t a.
Proof. unfold set_leaf. case_decide as E; [|done]. by apply leaf_page. Qed.

(** Mapping the page [p], just taken from the free list and filled, at [va]. *)
Section map_page.
Context (s : kstate) (p : Z) (ps : list Z) (t : ptree) (va perm : Z) (l : list Z).
Context (s1 s2 : kstate) (ps2 : list Z) (t2 : ptree).
Hypothesis H : uvm_ok s (p :: ps) t.
Hypothesis Hva : 0 <= va < TRAPFRAME.
Hypothesis Hno : valid (leaf (mem s) t va) = false.
Hypothesis Honly : s1 = s <| mem := mem s1 |> <| freelist := freelist s1 |>.
Hypothesis Hf : forall q, valid_page q -> q <> p -> same_page (mem s) (mem s1) q.
Hypothesis Hl1 : forall a, leaf (mem s1) t a = leaf (mem s) t a.
Hypothesis Hp1 : load_bytes (mem s1) p (length l) = Some l.
Hypothesis Hlen : length l = 4096%nat.

Lemma free_head : valid_page p /\ page_mapped (mem s) p /\ p ∉ ps /\ p ∉ pt_pages t.
Proof.
  destruct (uv_vm _ _ _ H) as ((_ & Hnd & Hv & Hm) & _ & Hd & _).
  apply NoDup_cons in Hnd as [Hp _]. apply Forall_cons in Hv as [Hvp _].
  apply Forall_cons in Hm as [Hmp _]. split_and!; try done. apply Hd. left.
Qed.

Lemma map_frame lf q :
  grown s1 ps t s2 ps2 t2 lf -> valid_page q -> q ∉ ps -> q ∉ pt_pages t -> q <> p ->
  same_page (mem s) (mem s2) q.
Proof. intros G Hq H1 H2 H3. eapply same_page_trans; [by apply Hf|]. by apply G. Qed.

Lemma map_only lf :
  grown s1 ps t s2 ps2 t2 lf -> s2 = s <| mem := mem s2 |> <| freelist := freelist s2 |>.
Proof. intros G. rewrite (gr_only _ _ _ _ _ _ _ G), Honly at 1. rs. st_eq s. Qed.

Lemma map_page_done :
  0 <= perm < 1024 ->
  grown s1 ps t s2 ps2 t2 (set_leaf va (mk_pte p perm) (leaf (mem s1) t)) ->
  uchange s (p :: ps) t s2 ps2 t2 (with_page va (Z.lor perm PTE_V) l (uview (mem s) t)).
Proof.
  intros Hperm G. destruct free_head as (Hvp & Hmp & Hp & Hpt).
  destruct (valid_page_pos p Hvp) as [Hpr Hpa].
  destruct (mk_pte_spec p perm) as (E1 & E2 & E3); [lia|done|done|].
  destruct (gr_used _ _ _ _ _ _ _ G) as (us & Eps & Ept).
  assert (Hs : same_page (mem s1) (mem s2) p) by (by apply G).
  assert (Hleaf : forall a, 0 <= a < MAXVA ->
    leaf (mem s2) t2 a = set_leaf va (mk_pte p perm) (leaf (mem s) t) a).
  { intros a Ha. rewrite (gr_leaf _ _ _ _ _ _ _ G) by done. unfold set_leaf. by rewrite !Hl1. }
  assert (Hload : load_bytes (mem s2) p 4096 = Some l).
  { rewrite <- Hp1, Hlen. apply load_bytes_ext. intros i Hi. apply Hs. unfold PGSIZE. lia. }
  assert (Hcon : forall q, (q ∈ ps2 \/ q ∈ pt_pages t2 \/ pte_page (mk_pte p perm) q) <->
    (q ∈ p :: ps \/ q ∈ pt_pages t \/ pte_page (leaf (mem s) t va) q)).
  { intros q. unfold pte_page. rewrite E1, E2, Hno, Ept, Eps, elem_of_cons, !elem_of_app. naive_solver. }
  assert (Hfr : forall q, valid_page q -> q ∉ p :: ps -> q ∉ pt_pages t ->
    ~ pte_page (leaf (mem s) t va) q -> same_page (mem s) (mem s2) q).
  { intros q Hq Hps Ht _. apply not_elem_of_cons in Hps as [? ?]. by apply (map_frame _ q G). }
  split.
  - eapply entry_ustep; [exact H|exact Hva| | | |exact Hleaf|exact Hcon|exact Hfr|].
    + by eapply map_only.
    + apply G.
    + apply G.
    + intros q [_ ->]. rewrite E1. split_and!; [done| | | |by left; left].
      * intros i Hi. replace i with (p + (i - p)) by lia.
        rewrite (load_bytes_lookup _ _ _ _ (i - p) Hload) by lia. apply lookup_lt_is_Some. lia.
      * rewrite Eps in Hp. intros Hin. apply Hp. apply elem_of_app. by right.
      * rewrite Ept, elem_of_app. intros [Hin|Hin]; [|done]. apply Hp. rewrite Eps. apply elem_of_app. by left.
  - intros a Ha. unfold with_page. case_decide as E.
    + unfold uview. rewrite Hleaf, set_leaf_in, E2, E1 by (done || by apply low_maxva).
      rewrite mk_pte_flags by done.
      by rewrite (load_bytes_lookup _ _ _ _ (a mod PGSIZE) Hload) by (apply mod_page).
    + exact (entry_view _ _ _ _ _ _ _ H Hva Hleaf Hfr a Ha E).
Qed.

(** The table could not be extended: the page goes back to the free list. *)
Lemma map_page_undone :
  grown s1 ps t s2 ps2 t2 (leaf (mem s1) t) ->
  let s3 := s2 <| mem := kfree_mem (mem s2) p (freelist s2) |> <| freelist := p |> in
  kfree p s2 = Ok tt s3 /\ uchange s (p :: ps) t s3 (p :: ps2) t2 (uview (mem s) t).
Proof.
  intros G s3. destruct free_head as (Hvp & Hmp & Hp & Hpt).
  destruct (gr_used _ _ _ _ _ _ _ G) as (us & Eps & Ept).
  destruct (gr_ok _ _ _ _ _ _ _ G) as (HK & HT & Hd & Hlk).
  assert (Hp2 : p ∉ ps2 /\ p ∉ pt_pages t2).
  { rewrite Ept, elem_of_app. rewrite Eps, elem_of_app in Hp. tauto. }
  destruct Hp2 as [Hps2 Hpt2].
  assert (Hm2 : page_mapped (mem s2) p).
  { intros i Hi. rewrite (gr_frame _ _ _ _ _ _ _ G p) by (done || unfold PGSIZE; lia).
    replace i with (p + (i - p)) by lia.
    rewrite (load_bytes_lookup _ _ _ _ (i - p) Hp1) by lia. apply lookup_lt_is_Some. lia. }
  split; [by apply kfree_ok|].
  assert (Hs3 : forall q, valid_page q -> q <> p -> same_page (mem s2) (mem s3) q).
  { intros q Hq Hne. unfold s3. rs. apply kfree_mem_frame; congruence. }
  assert (Ht3 : forall q, q ∈ pt_pages t2 -> same_page (mem s2) (mem s3) q).
  { intros q Hq. apply Hs3; [by eapply pt_page_valid|]. by intros ->. }
  assert (Hleaf : forall a, 0 <= a < MAXVA ->
    leaf (mem s3) t2 a = set_leaf va (leaf (mem s) t va) (leaf (mem s) t) a).
  { intros a Ha. rewrite set_leaf_id, (leaf_frame (mem s2)) by done.
    rewrite (gr_leaf _ _ _ _ _ _ _ G) by done. apply Hl1. }
  assert (Hfr : forall q, valid_page q -> q ∉ p :: ps -> q ∉ pt_pages t ->
    ~ pte_page (leaf (mem s) t va) q -> same_page (mem s) (mem s3) q).
  { intros q Hq Hps Ht _. apply not_elem_of_cons in Hps as [? ?].
    eapply same_page_trans; [by apply (map_frame _ q G)|by apply Hs3]. }
  split.
  - eapply entry_ustep; [exact H|exact Hva| | | |exact Hleaf| |exact Hfr|].
    + unfold s3. rewrite (map_only _ G). rs. st_eq s.
    + apply G.
    + split; [by apply kmem_inv_kfree|]. split; [by eapply pt_inv_frame|]. split; [|done].
      intros q [->|Hq]%elem_of_cons; [done|by apply Hd].
    + intros q. unfold pte_page. rewrite Hno, Ept, Eps, !elem_of_cons, !elem_of_app. naive_solver.
    + intros q [? _]. congruence.
  - intros a Ha. destruct (decide (a / PGSIZE = va / PGSIZE)) as [E|E].
    + unfold uview. rewrite Hleaf, set_leaf_in by (done || by apply low_maxva).
      by rewrite (leaf_page _ _ a va E), Hno.
    + exact (entry_view _ _ _ _ _ _ _ H Hva Hleaf Hfr a Ha E).
Qed.

End map_page.

(** [kalloc], filling the page, [mappages], and [kfree] if that fails. *)
Lemma alloc_page {B : Type} s ps t va perm (fill : Z -> K unit) l (e1 e2 : K B) (k : Z -> K B) :
  uvm_ok s ps t -> va mod PGSIZE = 0 -> 0 <= va < TRAPFRAME -> 0 <= perm < 1024 ->
  valid (leaf (mem s) t va) = false -> length l = 4096%nat ->
  (forall p ps1 s1, ps = p :: ps1 -> page_mapped (mem s1) p ->
     (forall q, valid_page q -> q ∉ ps -> same_page (mem s) (mem s1) q) ->
     fill p s1 = Ok tt (s1 <| mem := store_bytes (mem s1) p l |>)) ->
  let body := (m <- kalloc ;;
               if m =? 0 then e1
               else fill m ;; r <- mappages (pt_root t) va PGSIZE m perm ;;
                    if negb (r =? 0) then kfree m ;; e2 else k m) in
  exists s' ps' t', (length (pt_pages t') <= 2 + length (pt_pages t))%nat /\
    ((exists m, body s = k m s' /\ m <> 0 /\
       uchange s ps t s' ps' t' (with_page va (Z.lor perm PTE_V) l (uview (mem s) t)) /\
       leaf (mem s') t' va = mk_pte m perm /\ valid_page m) \/
    ((body s = e1 s' \/ body s = e2 s') /\ (length ps' <= 1)%nat /\
     uchange s ps t s' ps' t' (uview (mem s) t))).
Proof.
  intros H Hal Hva Hperm Hno Hlen Hfill body.
  destruct (uv_vm _ _ _ H) as (HK & HT & Hd & Hlk). unfold body. destruct ps as [|p ps].
  { exists s, [], t. split; [lia|]. right. pose proof HK as (Hf & _). split; [|split; [simpl; lia|]].
    - left. by run (kalloc_empty s Hf Hlk).
    - split; [by apply ustep_refl|done]. }
  destruct (free_head s p ps t H) as (Hvp & Hmp & Hp & Hpt).
  pose proof HK as ([Hf (next & Hnext & _)] & _). destruct (valid_page_pos p Hvp) as [Hpr Hpa].
  run (kalloc_ok s p next Hf Hvp Hmp Hlk Hnext). rewrite (proj2 (Z.eqb_neq p 0)) by lia.
  erewrite (bind_ok (fill p)).
  2: { apply (Hfill p ps); [done| |]; rs.
       - by apply mapped_store.
       - intros q Hq Hps. apply not_elem_of_cons in Hps as [? ?]. apply store_page_frame; congruence. }
  destruct (kalloc_fill s p ps t l next H Hlen Hnext) as (Hvm & Hfr & Hl1).
  match goal with |- context [bind _ _ ?x] => set (s1 := x) end.
  match type of Hvm with vm_ok ?x _ _ => assert (E1 : s1 = x) by (unfold s1; rs; st_eq s) end.
  rewrite <- E1 in Hvm, Hfr, Hl1.
  destruct (mappages_ok s1 ps t va PGSIZE p perm) as (s2 & ps2 & t2 & r & n & E & G & Hlen2 & Hr); try done.
  - lia.
  - change TRAPFRAME with (MAXVA - 8192) in Hva. unfold PGSIZE. lia.
  - lia.
  - unfold PGSIZE. pose proof (Z.div_mod p 4096). lia.
  - intros a Ha. rewrite Hl1, (leaf_page _ _ a va); [done|]. by apply div_page.
  - assert (Honly : s1 = s <| mem := mem s1 |> <| freelist := freelist s1 |>)
      by (rewrite E1; rs; st_eq s).
    assert (Hp1 : load_bytes (mem s1) p (length l) = Some l) by (rewrite E1; rs; apply load_store_same).
    exists (if r =? 0 then s2 else s2 <| mem := kfree_mem (mem s2) p (freelist s2) |> <| freelist := p |>),
      (if r =? 0 then ps2 else p :: ps2), t2. split; [pose proof (grown_few _ _ _ _ _ _ _ G); change (PGSIZE / PGSIZE) with 1 in Hlen2; lia|]. run E. change (PGSIZE / PGSIZE) with 1 in Hr.
    destruct Hr as [[-> ->]|(-> & Hn & ->)]; [left|right]; cbn [Z.eqb negb].
    + exists p. split; [done|]. split; [lia|].
      assert (G' : grown s1 ps t s2 ps2 t2 (set_leaf va (mk_pte p perm) (leaf (mem s1) t))).
      { eapply grown_ext; [exact G|]. intros a Ha. by apply map_leaves_1. }
      split; [by eapply map_page_done|]. split; [|done].
      rewrite (gr_leaf _ _ _ _ _ _ _ G') by (by apply low_maxva). by rewrite set_leaf_in.
    + assert (G' : grown s1 ps t s2 [] t2 (leaf (mem s1) t)).
      { eapply grown_ext; [exact G|]. intros a Ha. replace n with 0 by lia. apply map_leaves_0. }
      destruct (map_page_undone s p ps t va l s1 s2 [] t2) as (Ek & HU); try done.
      split; [right; by run Ek|]. split; [simpl; lia|done].
Qed.

(** ** Translating a user address, allocating its page if it is still to be *)

(** The user sees the same memory, of which more may have been allocated. *)
Record same_bytes (m : memory) (t : ptree) (m' : memory) (t' : ptree) (psz : Z) : Prop := {
  sb_byte : forall a, ubyte m' t' psz a = ubyte m t psz a;
  sb_write : forall a, uwritable m' t' psz a = uwritable m t psz a;
  sb_present : forall a, present m t a = true -> present m' t' a = true;
  sb_new : forall a, present m' t' a = true -> present m t a = true \/ lazy psz a = true;
}.

Lemma same_bytes_refl m t psz : same_bytes m t m t psz.
Proof. split; [done|done|done|by left]. Qed.

Lemma same_bytes_trans m t m1 t1 m2 t2 psz :
  same_bytes m t m1 t1 psz -> same_bytes m1 t1 m2 t2 psz -> same_bytes m t m2 t2 psz.
Proof.
  intros H1 H2. split; intros a.
  - rewrite (sb_byte _ _ _ _ _ H2). apply H1.
  - rewrite (sb_write _ _ _ _ _ H2). apply H1.
  - intros Ha. by apply H2, H1.
  - intros Ha. destruct (sb_new _ _ _ _ _ H2 a Ha) as [Ha1|?]; [by apply H1|by right].
Qed.

Lemma present_view m t a :
  present m t a = (0 <=? a) && (a <? TRAPFRAME) && match uview m t a with Some _ => true | None => false end.
Proof. unfold present, uview. by destruct (valid _). Qed.

Lemma low_bool a : (0 <=? a) && (a <? TRAPFRAME) = true <-> 0 <= a < TRAPFRAME.
Proof. rewrite andb_true_iff, Z.leb_le, Z.ltb_lt. done. Qed.

Lemma same_bytes_views m t m' t' psz :
  (forall a, 0 <= a < TRAPFRAME -> uview m' t' a = uview m t a) -> same_bytes m t m' t' psz.
Proof.
  intros H. split; intros a; rewrite ?present_view; unfold ubyte, uwritable;
    (destruct ((0 <=? a) && (a <? TRAPFRAME)) eqn:E; [|by auto]); rewrite H by (by apply low_bool); auto.
Qed.

Lemma flag_flags v k : 0 <= k < 10 -> has_flag (PTE_FLAGS v) (2 ^ k) = has_flag v (2 ^ k).
Proof.
  intros H. rewrite !has_flag_spec. unfold PTE_FLAGS. change 0x3FF with (Z.ones 10).
  rewrite Z.land_spec, Z.ones_spec_low by lia. apply andb_true_r.
Qed.

Definition fault_perm : Z := Z.lor (Z.lor PTE_W PTE_U) PTE_R.

(** Allocating a page the user already counts on changes nothing for it. *)
Lemma same_bytes_fault m t m' t' psz va :
  lazy psz va = true -> valid (leaf m t va) = false ->
  (forall a, 0 <= a < TRAPFRAME ->
     uview m' t' a = with_page va (Z.lor fault_perm PTE_V) (page_of 0) (uview m t) a) ->
  same_bytes m t m' t' psz.
Proof.
  intros Hz Hno H. split; intros a; rewrite ?present_view; unfold ubyte, uwritable;
    (destruct ((0 <=? a) && (a <? TRAPFRAME)) eqn:E; [|by auto]); apply low_bool in E;
    rewrite H by done; unfold with_page; (case_decide as Ep; [|by auto]);
    [| |done|right; unfold lazy, PGSIZE in *; by rewrite Ep];
    (replace (uview m t a) with (@None (Z * option Z)) by
      (unfold uview; by rewrite (leaf_page _ _ a va), Hno));
    replace (lazy psz a) with true by (unfold lazy, PGSIZE in *; by rewrite Ep); [|done].
  pose proof (mod_page a). unfold PGSIZE in *. by rewrite lookup_page_of by lia.
Qed.

Lemma ubyte_leaf m t psz a :
  0 <= a < TRAPFRAME -> valid (leaf m t a) = true ->
  ubyte m t psz a = (if has_flag (leaf m t a) PTE_U then m !! (PTE2PA (leaf m t a) + a mod PGSIZE) else None)
  /\ uwritable m t psz a = has_flag (leaf m t a) PTE_U && has_flag (leaf m t a) PTE_W.
Proof.
  intros Ha Hv. unfold ubyte, uwritable, uview. rewrite (proj2 (low_bool a) Ha), Hv.
  change PTE_U with (2 ^ 4). change PTE_W with (2 ^ 2). by rewrite !flag_flags by lia.
Qed.

Lemma lazy_aligned psz va : va mod PGSIZE = 0 -> lazy psz va = (va <? psz).
Proof.
  intros H. unfold lazy. unfold PGSIZE in *. f_equal. pose proof (Z.div_mod va 4096). lia.
Qed.

Lemma aligned_down va : 0 <= va < 2 ^ 64 -> va mod PGSIZE = 0 -> PGROUNDDOWN va = va.
Proof. intros H Hal. rewrite PGROUNDDOWN_spec by done. lia. Qed.

(** Memory ran out allocating the page of [va]. *)
Definition no_memory (ps' : list Z) (m : memory) (t : ptree) (va : Z) : Prop :=
  (length ps' <= 1)%nat /\ present m t va = false.

(** The result [r] of looking the page [va] up: its physical page, which the table
    now maps, or 0 when the user has no such page or memory has run out. *)
Definition translated (s : kstate) (ps : list Z) (t : ptree) (psz va : Z)
    (s' : kstate) (ps' : list Z) (t' : ptree) (r : Z) : Prop :=
  ustep s ps t s' ps' t' /\ same_bytes (mem s) t (mem s') t' psz /\
  ((r = 0 /\ (ubyte (mem s) t psz va = None \/ no_memory ps' (mem s) t va)) \/
   (r <> 0 /\ 0 <= va < TRAPFRAME /\ user_pte (leaf (mem s') t' va) = true /\
    r = PTE2PA (leaf (mem s') t' va))).

Lemma vmfault_ok s ps t psz va :
  uvm_ok s ps t -> psz <= TRAPFRAME -> va mod PGSIZE = 0 -> 0 <= va < 2 ^ 64 ->
  (va < TRAPFRAME -> user_pte (leaf (mem s) t va) = false) ->
  exists s' ps' t' r,
    vmfault (pt_root t) psz va s = Ok r s' /\ translated s ps t psz va s' ps' t' r.
Proof.
  intros H Hpsz Hal Hva Hu. destruct (uv_vm _ _ _ H) as (HK & HT & Hd & Hlk).
  assert (Hfail : ubyte (mem s) t psz va = None -> exists s' ps' t' r,
    @Ok kstate Z 0 s = Ok r s' /\ translated s ps t psz va s' ps' t' r).
  { intros Hn. exists s, ps, t, 0. split; [done|]. split; [by apply ustep_refl|]. split; [apply same_bytes_refl|].
    left. by split; [|left]. }
  unfold vmfault. destruct (Z.leb_spec psz va) as [Hlt|Hlt].
  { apply Hfail. unfold ubyte. destruct ((0 <=? va) && (va <? TRAPFRAME)) eqn:E; [|done].
    apply low_bool in E. specialize (Hu (proj2 E)). unfold user_pte in Hu. unfold uview.
    destruct (valid (leaf (mem s) t va)); cbn [andb] in Hu.
    - change PTE_U with (2 ^ 4) in *. by rewrite flag_flags, Hu by lia.
    - by rewrite lazy_aligned, (proj2 (Z.ltb_ge va psz)). }
  rewrite aligned_down by done. assert (Hlow : 0 <= va < TRAPFRAME) by lia.
  run (ismapped_ok s t va HT (low_maxva va Hlow)). specialize (Hu (proj2 Hlow)).
  destruct (valid (leaf (mem s) t va)) eqn:Hv.
  { apply Hfail. destruct (ubyte_leaf (mem s) t psz va Hlow Hv) as [-> _]. unfold user_pte in Hu.
    rewrite Hv in Hu. cbn [andb] in Hu. by rewrite Hu. }
  destruct (alloc_page s ps t va fault_perm (fun p => kmemset p 0 PGSIZE) (page_of 0) (ret 0) (ret 0) ret)
    as (s' & ps' & t' & _ & [(p & E & Hp & [HU Hw] & Hl & Hvp)|(E & Hn & [HU Hw])]);
    try done; [intros; by apply kmemset_ok| |].
  - exists s', ps', t', p. split; [exact E|]. split; [done|]. split.
    + eapply same_bytes_fault; [|exact Hv|exact Hw]. rewrite lazy_aligned by done. by apply Z.ltb_lt.
    + right. rewrite Hl. destruct (valid_page_pos p Hvp) as [Hpr Hpa].
      destruct (mk_pte_spec p fault_perm) as (E1 & E2 & E3); [lia|done|done|].
      split; [lia|]. split; [lia|]. split; [|done]. unfold user_pte. rewrite E2. change PTE_U with (2 ^ 4).
      by rewrite E3.
  - exists s', ps', t', 0. split; [by destruct E|]. split; [done|].
    split; [by apply same_bytes_views|]. left. split; [done|right]. split; [done|].
    unfold present. by rewrite Hv, andb_false_r.
Qed.

Lemma user_page_ok s ps t psz va :
  uvm_ok s ps t -> psz <= TRAPFRAME -> va mod PGSIZE = 0 -> 0 <= va < 2 ^ 64 ->
  exists s' ps' t' r,
    user_page (pt_root t) psz va s = Ok r s' /\ translated s ps t psz va s' ps' t' r.
Proof.
  intros H Hpsz Hal Hva. destruct (uv_vm _ _ _ H) as (HK & HT & Hd & Hlk).
  unfold user_page. run (walkaddr_ok s t va HT (proj1 Hva)).
  destruct (_ && _ && _) eqn:Eu.
  - rewrite <- andb_assoc in Eu. apply andb_true_iff in Eu as [Hlt%Z.ltb_lt Hu].
    pose proof (user_low s ps t va H (conj (proj1 Hva) Hlt) Hu) as Hlow.
    pose proof Hu as Hv. apply andb_true_iff in Hv as [Hv _].
    destruct (uv_page _ _ _ H va) as (Hvp & _); [lia|done|].
    pose proof (valid_page_pos _ Hvp) as [Hp _]. rewrite (proj2 (Z.eqb_neq _ 0)) by lia.
    exists s, ps, t, (PTE2PA (leaf (mem s) t va)).
    split; [done|]. split; [by apply ustep_refl|]. split; [apply same_bytes_refl|]. right. split_and!; done || lia.
  - cbn [Z.eqb]. apply vmfault_ok; try done. intros Hlow. rewrite <- andb_assoc in Eu.
    assert (va < MAXVA) as Hm by (change TRAPFRAME with (MAXVA - 8192) in Hlow; lia).
    by rewrite (proj2 (Z.ltb_lt va MAXVA) Hm) in Eu.
Qed.

(** ** Bytes of a page *)

(** The user memory from [va] on starts with [l]. *)
Definition holds_bytes (m : memory) (t : ptree) (psz va : Z) (l : list Z) : Prop :=
  forall i, (i < length l)%nat -> ubyte m t psz (va + Z.of_nat i) = l !! i.

Lemma in_page va off :
  va mod PGSIZE = 0 -> 0 <= off < PGSIZE ->
  (va + off) / PGSIZE = va / PGSIZE /\ (va + off) mod PGSIZE = off.
Proof.
  intros Hal Ho. pose proof (div_page va (va + off) Hal ltac:(lia)) as E. split; [done|].
  pose proof (Z.div_mod (va + off) PGSIZE ltac:(done)). pose proof (Z.div_mod va PGSIZE ltac:(done)).
  rewrite E in *. lia.
Qed.

Lemma page_low va off : va mod PGSIZE = 0 -> 0 <= off < PGSIZE -> va < TRAPFRAME -> va + off < TRAPFRAME.
Proof.
  intros Hal Ho H. change TRAPFRAME with (67108862 * PGSIZE) in *. unfold PGSIZE in *.
  pose proof (Z.div_mod va 4096). lia.
Qed.

Lemma present_page m t va off :
  va mod PGSIZE = 0 -> 0 <= va -> 0 <= off < PGSIZE -> present m t va = false ->
  present m t (va + off) = false.
Proof.
  intros Hal H0 Ho. unfold present. destruct (in_page va off Hal Ho) as [Ep _].
  rewrite (leaf_page _ _ (va + off) va Ep). destruct (valid _); [|by rewrite !andb_false_r].
  rewrite !andb_true_r, (proj2 (Z.leb_le 0 va)), (proj2 (Z.leb_le 0 (va + off))) by lia.
  cbn [andb]. rewrite !Z.ltb_ge. lia.
Qed.

(** Whether a byte is accessible depends on its page. *)
Lemma ubyte_none s ps t psz va off :
  uvm_ok s ps t -> va mod PGSIZE = 0 -> 0 <= va -> 0 <= off < PGSIZE ->
  ubyte (mem s) t psz va = None ->
  ubyte (mem s) t psz (va + off) = None /\ uwritable (mem s) t psz (va + off) = false.
Proof.
  intros H Hal H0 Ho Hn. destruct (in_page va off Hal Ho) as [Ep Eo].
  destruct (Z_lt_ge_dec (va + off) TRAPFRAME) as [Hlt|Hge].
  2: { unfold ubyte, uwritable. rewrite (proj2 (Z.ltb_ge (va + off) TRAPFRAME)), andb_false_r by lia. done. }
  assert (Hlow : 0 <= va + off < TRAPFRAME) by lia. assert (Hlow' : 0 <= va < TRAPFRAME) by lia.
  destruct (valid (leaf (mem s) t va)) eqn:Hv.
  - pose proof Hv as Hv'. rewrite <- (leaf_page _ _ (va + off) va Ep) in Hv'.
    destruct (ubyte_leaf _ _ psz _ Hlow Hv') as [-> ->].
    destruct (ubyte_leaf _ _ psz _ Hlow' Hv) as [E _]. rewrite (leaf_page _ _ (va + off) va Ep).
    rewrite Hn in E. destruct (has_flag _ PTE_U); [|done].
    destruct (uv_page _ _ _ H va Hlow' Hv) as (_ & Hm & _).
    destruct (Hm (PTE2PA (leaf (mem s) t va) + va mod PGSIZE)); [|congruence].
    pose proof (mod_page va). unfold PGSIZE in *. lia.
  - unfold ubyte, uwritable, uview, lazy in *. rewrite (proj2 (low_bool _) Hlow).
    rewrite (proj2 (low_bool _) Hlow') in Hn. rewrite (leaf_page _ _ (va + off) va Ep), Ep, Hv in *.
    by destruct (_ <? psz).
Qed.

Section page.
Context (s : kstate) (ps : list Z) (t : ptree) (psz va off : Z).
Let p := PTE2PA (leaf (mem s) t va).
Hypothesis H : uvm_ok s ps t.
Hypothesis Hal : va mod PGSIZE = 0.
Hypothesis Hlow : 0 <= va < TRAPFRAME.
Hypothesis Hu : user_pte (leaf (mem s) t va) = true.
Hypothesis Hoff : 0 <= off.

Lemma page_byte_at a m' :
  a / PGSIZE = va / PGSIZE -> leaf m' t a = leaf (mem s) t a -> 0 <= a < TRAPFRAME ->
  ubyte m' t psz a = m' !! (p + a mod PGSIZE) /\
  uwritable m' t psz a = has_flag (leaf (mem s) t va) PTE_W.
Proof.
  intros Ea El Ha. apply andb_true_iff in Hu as [Hv HU].
  destruct (ubyte_leaf m' t psz a Ha) as [-> ->]; [by rewrite El, (leaf_page _ _ a va)|].
  by rewrite El, (leaf_page _ _ a va), HU.
Qed.

Lemma page_mapped_at n : off + Z.of_nat n <= PGSIZE -> mapped (mem s) (p + off) n.
Proof.
  intros Hn. apply andb_true_iff in Hu as [Hv _]. destruct (uv_page _ _ _ H va Hlow Hv) as (_ & Hm & _).
  eapply mapped_sub; [exact Hm|lia|unfold PGSIZE in *; fold p; lia].
Qed.

Lemma page_load n :
  off + Z.of_nat n <= PGSIZE ->
  exists l, load_bytes (mem s) (p + off) n = Some l /\ length l = n /\
    holds_bytes (mem s) t psz (va + off) l.
Proof.
  intros Hn. destruct (load_bytes_mapped _ _ _ (page_mapped_at n Hn)) as [l Hl].
  exists l. pose proof (length_load_bytes _ _ _ _ Hl) as Hlen. split_and!; try done.
  intros i Hi. rewrite <- Z.add_assoc. destruct (in_page va (off + Z.of_nat i) Hal) as [Ep Eo]; [lia|].
  destruct (page_byte_at (va + (off + Z.of_nat i)) (mem s) Ep eq_refl) as [-> _].
  { split; [lia|]. apply page_low; [done|lia|lia]. }
  rewrite Eo, Z.add_assoc, (load_bytes_lookup _ _ _ _ (Z.of_nat i) Hl) by lia. f_equal. lia.
Qed.

Lemma page_byte_off :
  off < PGSIZE ->
  ubyte (mem s) t psz (va + off) = mem s !! (p + off) /\
  uwritable (mem s) t psz (va + off) = has_flag (leaf (mem s) t va) PTE_W /\
  present (mem s) t (va + off) = true.
Proof.
  intros Ho. destruct (in_page va off Hal) as [Ep Eo]; [lia|].
  assert (Hl : 0 <= va + off < TRAPFRAME) by (split; [lia|apply page_low; done || lia]).
  destruct (page_byte_at (va + off) (mem s) Ep eq_refl Hl) as [-> ->]. rewrite Eo.
  split_and!; try done. unfold present. rewrite (proj2 (low_bool _) Hl), (leaf_page _ _ _ _ Ep).
  by apply andb_true_iff in Hu as [-> _].
Qed.

(** The byte function [f] with [l] stored at [a0]. *)
Definition with_bytes (a0 : Z) (l : list Z) (f : Z -> option Z) : Z -> option Z :=
  fun a => if decide (a0 <= a < a0 + Z.of_nat (length l)) then l !! Z.to_nat (a - a0) else f a.

Lemma page_store l :
  off + Z.of_nat (length l) <= PGSIZE ->
  let s' := s <| mem := store_bytes (mem s) (p + off) l |> in
  ustep s ps t s' ps t /\
  (forall a, ubyte (mem s') t psz a = with_bytes (va + off) l (ubyte (mem s) t psz) a) /\
  (forall a, uwritable (mem s') t psz a = uwritable (mem s) t psz a) /\
  (forall a, present (mem s) t a = true <-> present (mem s') t a = true).
Proof.
  intros Hn s'. destruct (uv_vm _ _ _ H) as (HK & HT & Hd & Hlk).
  pose proof Hu as [Hv _]%andb_true_iff. destruct (uv_page _ _ _ H va Hlow Hv) as (Hvp & Hm & Hps & Hpt).
  fold p in Hvp, Hm, Hps, Hpt.
  assert (Hs : forall q, valid_page q -> q <> p -> same_page (mem s) (mem s') q).
  { intros q Hq Hne. unfold s'. rs. by apply valid_pages_aligned_frame. }
  assert (Ht : forall q, q ∈ pt_pages t -> same_page (mem s) (mem s') q).
  { intros q Hq. apply Hs; [by eapply pt_page_valid|]. by intros ->. }
  assert (El : forall a, leaf (mem s') t a = leaf (mem s) t a) by (intros a; by apply leaf_frame).
  assert (Hleaf : forall a, 0 <= a < MAXVA ->
    leaf (mem s') t a = set_leaf va (leaf (mem s) t va) (leaf (mem s) t) a).
  { intros a _. by rewrite set_leaf_id. }
  assert (Hfr : forall q, valid_page q -> q ∉ ps -> q ∉ pt_pages t ->
    ~ pte_page (leaf (mem s) t va) q -> same_page (mem s) (mem s') q).
  { intros q Hq _ _ Hne. apply Hs; [done|]. intros ->. by apply Hne. }
  assert (Hb : forall a, 0 <= a < TRAPFRAME -> a / PGSIZE = va / PGSIZE ->
    ubyte (mem s') t psz a = with_bytes (va + off) l (ubyte (mem s) t psz) a /\
    uwritable (mem s') t psz a = uwritable (mem s) t psz a).
  { intros a Ha Ea. destruct (page_byte_at a (mem s') Ea (El a) Ha) as [-> ->].
    destruct (page_byte_at a (mem s) Ea eq_refl Ha) as [E ->]. split; [|done].
    unfold with_bytes. rewrite E. unfold s'. rs. rewrite lookup_store_bytes.
    pose proof (Z.div_mod a PGSIZE ltac:(done)). pose proof (Z.div_mod va PGSIZE ltac:(done)).
    case_decide; case_decide; try lia; [f_equal; lia|done]. }
  assert (Hb' : forall a, ubyte (mem s') t psz a = with_bytes (va + off) l (ubyte (mem s) t psz) a /\
    uwritable (mem s') t psz a = uwritable (mem s) t psz a).
  { intros a. destruct (decide (0 <= a < TRAPFRAME /\ a / PGSIZE = va / PGSIZE)) as [[? ?]|Ho]; [by apply Hb|].
    assert (with_bytes (va + off) l (ubyte (mem s) t psz) a = ubyte (mem s) t psz a) as ->.
    { unfold with_bytes. rewrite decide_False; [done|]. intros Hr. apply Ho.
      destruct (in_page va (a - va) Hal) as [Ep _]; [lia|].
      pose proof (page_low va (a - va) Hal ltac:(lia) ltac:(lia)).
      replace (va + (a - va)) with a in * by lia. split; [lia|done]. }
    unfold ubyte, uwritable. destruct ((0 <=? a) && (a <? TRAPFRAME)) eqn:Ea; [|done].
    apply low_bool in Ea. rewrite (entry_view _ _ _ _ _ _ _ H Hlow Hleaf Hfr a Ea); [done|tauto]. }
  split; [|split; [|split]]; [|intros a; apply Hb'..|intros a; unfold present; by rewrite El].
  eapply entry_ustep; [exact H|exact Hlow| |done| |exact Hleaf| |exact Hfr|].
  - unfold s'. rs. st_eq s.
  - split; [|split; [by eapply pt_inv_frame|done]].
    apply (kmem_inv_store _ _ _ _ p); try done; [lia|unfold PGSIZE in Hn; lia].
  - done.
  - intros q [_ ->]. split_and!; try done; [|by right]. by apply mapped_store.
Qed.

End page.

(** ** The copy routines *)

(** Splitting an address into page and offset. *)
Lemma page_split va :
  0 <= va < 2 ^ 64 ->
  let va0 := PGROUNDDOWN va in
  va0 mod PGSIZE = 0 /\ 0 <= va0 < 2 ^ 64 /\ 0 <= va - va0 < PGSIZE.
Proof.
  intros Hva va0. pose proof (PGROUNDDOWN_aligned va Hva) as Ha. unfold va0 in *.
  rewrite PGROUNDDOWN_spec in * by done. pose proof (mod_page va). unfold PGSIZE in *.
  pose proof (Z.div_mod va 4096). pose proof (Z.div_pos va 4096). split; [done|]. lia.
Qed.

Lemma next_page va : 0 <= va < TRAPFRAME -> u64 (va + PGSIZE) = va + PGSIZE /\ va + PGSIZE < 2 ^ 64.
Proof. change TRAPFRAME with 274877898752. unfold PGSIZE. intros H. rewrite u64_small; lia. Qed.

Lemma holds_app m t psz va l1 l2 :
  holds_bytes m t psz va l1 -> holds_bytes m t psz (va + Z.of_nat (length l1)) l2 ->
  holds_bytes m t psz va (l1 ++ l2).
Proof.
  intros H1 H2 i Hi. rewrite length_app in Hi. destruct (decide (i < length l1)%nat).
  - rewrite lookup_app_l by done. by apply H1.
  - rewrite lookup_app_r by lia. rewrite <- H2 by lia. f_equal. lia.
Qed.

Lemma holds_same m t m' t' psz va l :
  same_bytes m t m' t' psz -> holds_bytes m' t' psz va l -> holds_bytes m t psz va l.
Proof. intros Hs H i Hi. rewrite <- (sb_byte _ _ _ _ _ Hs). by apply H. Qed.

Lemma copyin_loop_ok n s ps t psz va len dst :
  uvm_ok s ps t -> psz <= TRAPFRAME -> 0 <= va < 2 ^ 64 -> 0 <= len <= Z.of_nat n ->
  exists s' ps' t' r l,
    copyin_loop n (pt_root t) psz va len dst s = Ok (r, dst ++ l) s' /\
    ustep s ps t s' ps' t' /\ same_bytes (mem s) t (mem s') t' psz /\
    holds_bytes (mem s) t psz va l /\
    ((r = 0 /\ Z.of_nat (length l) = len) \/
     (r = -1 /\ Z.of_nat (length l) < len /\
      (ubyte (mem s) t psz (va + Z.of_nat (length l)) = None \/
       no_memory ps' (mem s) t (va + Z.of_nat (length l))))).
Proof.
  revert s ps t va len dst. induction n as [|n IH]; intros s ps t va len dst H Hpsz Hva Hlen.
  { exists s, ps, t, 0, []. assert (len = 0) as -> by lia. cbn. rewrite app_nil_r.
    split; [done|]. split; [by apply ustep_refl|]. split; [apply same_bytes_refl|]. split; [intros i; simpl; lia|by left]. }
  cbn [copyin_loop]. destruct (Z.ltb_spec 0 len) as [Hpos|Hpos].
  2: { exists s, ps, t, 0, []. assert (len = 0) as -> by lia. rewrite app_nil_r.
    split; [done|]. split; [by apply ustep_refl|]. split; [apply same_bytes_refl|]. split; [intros i; simpl; lia|by left]. }
  destruct (page_split va Hva) as (Hal & Hr0 & Hoff). set (va0 := PGROUNDDOWN va) in *.
  destruct (user_page_ok s ps t psz va0 H Hpsz Hal Hr0) as (s1 & ps1 & t1 & pa & E & U1 & B1 & Hpa).
  run E. destruct Hpa as [(-> & Hn)|(Hne & Hlow & Hu & ->)].
  { exists s1, ps1, t1, (-1), []. rewrite app_nil_r. split; [done|]. split_and!; try done.
    { intros i. simpl. lia. }
    right. cbn [length]. split_and!; [done|lia|].
    replace (va + Z.of_nat 0) with (va0 + (va - va0)) by lia.
    destruct Hn as [Hn|[Hn Hp]]; [left|right]; [eapply ubyte_none; done || lia|].
    split; [done|]. apply present_page; done || lia. }
  rewrite (proj2 (Z.eqb_neq _ 0)) by done.
  set (k := Z.min (PGSIZE - (va - va0)) len).
  pose proof (us_ok _ _ _ _ _ _ U1) as H1.
  destruct (page_load s1 ps1 t1 psz va0 (va - va0) H1 Hal Hlow Hu (proj1 Hoff) (Z.to_nat k))
    as (l1 & El & Hl1 & Hb1); [lia|].
  replace (va0 + (va - va0)) with va in Hb1 by lia.
  run (load_ok _ _ _ s1 El). destruct (next_page va0 Hlow) as [-> Hnp].
  rewrite <- (us_root _ _ _ _ _ _ U1).
  destruct (IH s1 ps1 t1 (va0 + PGSIZE) (len - k) (dst ++ l1) H1 Hpsz)
    as (s2 & ps2 & t2 & r & l2 & E2 & U2 & B2 & Hb2 & Hr); [unfold PGSIZE in *; lia..|].
  exists s2, ps2, t2, r, (l1 ++ l2). rewrite app_assoc. split; [done|].
  split; [by eapply ustep_trans|]. split; [by eapply same_bytes_trans|].
  assert (Hnext : l2 = [] /\ len = k \/ va0 + PGSIZE = va + Z.of_nat (length l1)).
  { destruct (decide (len = k)); [left|right; lia]. split; [|done]. apply nil_length_inv. lia. }
  split.
  - apply holds_app; [by eapply holds_same|]. destruct Hnext as [[-> _]|Hnext]; [intros i; simpl; lia|].
    rewrite <- Hnext. by eapply holds_same.
  - rewrite length_app. destruct Hr as [[-> Hr]|(-> & Hr & Hn)]; [left; split; [done|lia]|].
    right. split; [done|]. split; [lia|]. destruct Hnext as [[-> ?]|Hnext]; [simpl in Hr; lia|].
    rewrite Nat2Z.inj_add, Z.add_assoc, <- Hnext. rewrite <- (sb_byte _ _ _ _ _ B1).
    destruct Hn as [Hn|[Hn Hp]]; [by left|right]. split; [done|].
    destruct (present (mem s) t _) eqn:Ep; [|done]. apply (sb_present _ _ _ _ _ B1) in Ep. congruence.
Qed.

Lemma with_bytes_nil a0 f a : with_bytes a0 [] f a = f a.
Proof. unfold with_bytes. rewrite decide_False; [done|]. simpl. lia. Qed.

Lemma with_bytes_app a0 l1 l2 f a :
  with_bytes (a0 + Z.of_nat (length l1)) l2 (with_bytes a0 l1 f) a = with_bytes a0 (l1 ++ l2) f a.
Proof.
  unfold with_bytes. rewrite length_app. repeat case_decide; try lia.
  - rewrite lookup_app_r by lia. f_equal. lia.
  - by rewrite lookup_app_l by lia.
  - done.
Qed.

Lemma with_bytes_ext a0 l f g a : (forall a, f a = g a) -> with_bytes a0 l f a = with_bytes a0 l g a.
Proof. intros E. unfold with_bytes. by rewrite E. Qed.

(** The outcome [r] of storing [l] at the user address [va]: [k] bytes were stored. *)
Definition copied_out (s : kstate) (ps : list Z) (t : ptree) (psz va : Z) (l : list Z)
    (s' : kstate) (ps' : list Z) (t' : ptree) (r : Z) (k : nat) : Prop :=
  ustep s ps t s' ps' t' /\
  (forall a, ubyte (mem s') t' psz a = with_bytes va (take k l) (ubyte (mem s) t psz) a) /\
  (forall a, uwritable (mem s') t' psz a = uwritable (mem s) t psz a) /\
  (forall a, present (mem s) t a = true -> present (mem s') t' a = true) /\
  (forall a, present (mem s') t' a = true -> present (mem s) t a = true \/ lazy psz a = true) /\
  (forall i, (i < k)%nat -> uwritable (mem s) t psz (va + Z.of_nat i) = true /\
     present (mem s') t' (va + Z.of_nat i) = true) /\
  ((r = 0 /\ k = length l) \/
   (r = -1 /\ (k < length l)%nat /\
    (uwritable (mem s) t psz (va + Z.of_nat k) = false \/
     no_memory ps' (mem s) t (va + Z.of_nat k)))).

(** A page stored, then the rest. *)
Lemma copied_out_step s ps t psz va l1 l2 s1 ps1 t1 s2 ps2 t2 s3 ps3 t3 r k :
  ustep s ps t s1 ps1 t1 -> same_bytes (mem s) t (mem s1) t1 psz ->
  copied_out s1 ps1 t1 psz va l1 s2 ps2 t2 0 (length l1) ->
  (copied_out s2 ps2 t2 psz (va + Z.of_nat (length l1)) l2 s3 ps3 t3 r k \/
   l2 = [] /\ r = 0 /\ k = 0%nat /\ s3 = s2 /\ ps3 = ps2 /\ t3 = t2) ->
  copied_out s ps t psz va (l1 ++ l2) s3 ps3 t3 r (length l1 + k).
Proof.
  intros U1 B1 (U2 & V2 & W2 & P2 & N2 & Hw2 & _) H3. rewrite take_ge in V2 by lia.
  assert (Hv : forall a, ubyte (mem s2) t2 psz a = with_bytes va l1 (ubyte (mem s) t psz) a).
  { intros a. rewrite V2. apply with_bytes_ext. apply B1. }
  assert (Hww : forall a, uwritable (mem s2) t2 psz a = uwritable (mem s) t psz a).
  { intros a. rewrite W2. apply B1. }
  assert (Hpp : forall a, present (mem s) t a = true -> present (mem s2) t2 a = true).
  { intros a Ha. by apply P2, B1. }
  assert (Hnn : forall a, present (mem s2) t2 a = true -> present (mem s) t a = true \/ lazy psz a = true).
  { intros a Ha. destruct (N2 a Ha) as [Ha1|?]; [by apply B1|by right]. }
  assert (Hw : forall i, (i < length l1)%nat -> uwritable (mem s) t psz (va + Z.of_nat i) = true /\
    present (mem s2) t2 (va + Z.of_nat i) = true).
  { intros i Hi. rewrite <- (sb_write _ _ _ _ _ B1). by apply Hw2. }
  destruct H3 as [(U3 & V3 & W3 & P3 & N3 & Hw3 & Hr)|(-> & -> & -> & -> & -> & ->)].
  - split; [by eapply ustep_trans; [|eapply ustep_trans]|]. split_and!.
    + intros a. rewrite V3, take_app_add. rewrite <- with_bytes_app. by apply with_bytes_ext.
    + intros a. by rewrite W3.
    + intros a Ha. by apply P3, Hpp.
    + intros a Ha. destruct (N3 a Ha) as [Ha1|?]; [by apply Hnn|by right].
    + intros i Hi. destruct (decide (i < length l1)%nat).
      { split; [by apply Hw|by apply P3, Hw]. }
      rewrite <- Hww. destruct (Hw3 (i - length l1)%nat) as [Hi1 Hi2]; [lia|].
      replace (va + Z.of_nat i) with (va + Z.of_nat (length l1) + Z.of_nat (i - length l1)) by lia. done.
    + rewrite length_app. destruct Hr as [[-> ->]|(-> & Hk & Hr)]; [by left|right].
      split; [done|]. split; [lia|]. rewrite Nat2Z.inj_add, Z.add_assoc, <- Hww.
      destruct Hr as [Hr|[Hr Hp]]; [by left|right]. split; [done|].
      destruct (present (mem s) t _) eqn:Ep; [|done]. apply Hpp in Ep. congruence.
  - rewrite app_nil_r, Nat.add_0_r. split; [by eapply ustep_trans|]. split_and!; try done.
    + intros a. by rewrite take_ge by lia.
    + by left.
Qed.

Lemma copied_out_none s ps t psz va l s' ps' t' r :
  ustep s ps t s' ps' t' -> same_bytes (mem s) t (mem s') t' psz ->
  (r = 0 /\ l = [] \/ r = -1 /\ l <> [] /\
    (uwritable (mem s) t psz va = false \/ no_memory ps' (mem s) t va)) ->
  copied_out s ps t psz va l s' ps' t' r 0.
Proof.
  intros U B Hr. split; [done|]. split; [intros a; cbn [take]; rewrite with_bytes_nil; apply B|].
  split; [apply B|]. split; [apply B|]. split; [apply B|]. split; [lia|].
  destruct Hr as [[-> ->]|(-> & Hl & Hr)]; [by left|right]. rewrite Z.add_0_r.
  split; [done|]. split; [|done]. destruct l; [done|simpl; lia].
Qed.

(** Loading the entry of a page that is mapped. *)
Lemma load_entry {B : Type} s ps t va (k : Z -> K B) :
  uvm_ok s ps t -> 0 <= va < TRAPFRAME -> user_pte (leaf (mem s) t va) = true ->
  (pte <- walk (pt_root t) va false ;; v <- load64 pte ;; k v) s = k (leaf (mem s) t va) s.
Proof.
  intros H Hlow Hu. destruct (uv_vm _ _ _ H) as (_ & HT & _).
  run (walk_lookup s t va HT (low_maxva _ Hlow)). unfold leaf in *.
  destruct (pte_addr t va) as [a|] eqn:Ea; [|done]. change (default 0 (Some a)) with a.
  destruct (pte_addr_nonzero _ _ _ _ HT Ea) as [_ Hm]. by run (load64_word s a Hm).
Qed.

Lemma page_out s ps t psz va off l :
  uvm_ok s ps t -> va mod PGSIZE = 0 -> 0 <= va < TRAPFRAME ->
  user_pte (leaf (mem s) t va) = true -> has_flag (leaf (mem s) t va) PTE_W = true -> 0 <= off ->
  off + Z.of_nat (length l) <= PGSIZE ->
  exists s', store (PTE2PA (leaf (mem s) t va) + off) l s = Ok tt s' /\
    copied_out s ps t psz (va + off) l s' ps t 0 (length l).
Proof.
  intros H Hal Hlow Hu Hw Hoff Hl. eexists. split.
  { apply store_ok. by eapply page_mapped_at. }
  destruct (page_store s ps t psz va off H Hal Hlow Hu Hoff l Hl) as (U & Hb & Hww & Hp).
  split; [done|]. split; [intros a; by rewrite take_ge by lia|]. split; [done|]. split; [intros a; apply Hp|].
  split; [intros a Ha; left; by apply Hp|].
  split; [|by left]. intros i Hi. rewrite <- Z.add_assoc.
  destruct (page_byte_off s t psz va (off + Z.of_nat i) Hal Hlow Hu) as (_ & -> & Hpr); [lia..|].
  split; [done|by apply Hp].
Qed.

Lemma copyout_loop_ok n s ps t psz va l :
  uvm_ok s ps t -> psz <= TRAPFRAME -> 0 <= va < 2 ^ 64 -> (length l <= n)%nat ->
  exists s' ps' t' r k,
    copyout_loop n (pt_root t) psz va l s = Ok r s' /\ copied_out s ps t psz va l s' ps' t' r k.
Proof.
  revert s ps t va l. induction n as [|n IH]; intros s ps t va l H Hpsz Hva Hlen;
    (destruct l as [|b l];
     [exists s, ps, t, 0, 0%nat; split; [done|]; by apply copied_out_none; [apply ustep_refl|apply same_bytes_refl|left]|]).
  { simpl in Hlen. lia. }
  cbn [copyout_loop]. set (src := b :: l) in *. assert (Hsrc : src <> []) by done.
  destruct (page_split va Hva) as (Hal & Hr0 & Hoff). set (va0 := PGROUNDDOWN va) in *.
  replace va with (va0 + (va - va0)) by lia. set (off := va - va0) in *. clearbody off va0.
  replace (va0 + off - va0) with off by lia.
  destruct (Z.leb_spec MAXVA va0) as [Hbig|Hsmall].
  { exists s, ps, t, (-1), 0%nat. split; [done|].
    apply copied_out_none; [by apply ustep_refl|apply same_bytes_refl|right]. split; [done|]. split; [done|left].
    unfold uwritable. rewrite (proj2 (Z.ltb_ge _ TRAPFRAME)), andb_false_r; [done|].
    change TRAPFRAME with (MAXVA - 8192). lia. }
  destruct (user_page_ok s ps t psz va0 H Hpsz Hal Hr0) as (s1 & ps1 & t1 & pa & E & U1 & B1 & Hpa).
  run E. destruct Hpa as [(-> & Hn)|(Hne & Hlow & Hu & ->)].
  { exists s1, ps1, t1, (-1), 0%nat. split; [done|]. apply copied_out_none; [done|done|right].
    split; [done|]. split; [done|]. destruct Hn as [Hn|[Hn Hp]]; [left|right].
    - eapply ubyte_none; done || lia.
    - split; [done|]. apply present_page; done || lia. }
  rewrite (proj2 (Z.eqb_neq _ 0)) by done. pose proof (us_ok _ _ _ _ _ _ U1) as H1.
  rewrite <- (us_root _ _ _ _ _ _ U1), (load_entry s1 ps1 t1 va0) by done.
  destruct (has_flag (leaf (mem s1) t1 va0) PTE_W) eqn:Hw; cbn [negb].
  2: { exists s1, ps1, t1, (-1), 0%nat. split; [done|]. apply copied_out_none; [done|done|right].
       split; [done|]. split; [done|left]. rewrite <- (sb_write _ _ _ _ _ B1).
       destruct (page_byte_off s1 t1 psz va0 off Hal Hlow Hu (proj1 Hoff) (proj2 Hoff)) as (_ & -> & _). done. }
  set (k := Z.to_nat (Z.min (PGSIZE - off) (Z.of_nat (length src)))).
  assert (Hk : length (take k src) = k) by (rewrite length_take; lia).
  destruct (page_out s1 ps1 t1 psz va0 off (take k src) H1 Hal Hlow Hu Hw (proj1 Hoff)) as (s2 & E2 & C2); [lia|].
  run E2. destruct (next_page va0 Hlow) as [-> Hnp]. pose proof C2 as (U2 & _).
  assert (Hk0 : (0 < k)%nat) by (unfold k, src; cbn [length]; unfold PGSIZE in *; lia).
  destruct (IH s2 ps1 t1 (va0 + PGSIZE) (drop k src) (us_ok _ _ _ _ _ _ U2) Hpsz)
    as (s3 & ps3 & t3 & r & k3 & E3 & C3); [unfold PGSIZE in *; lia|rewrite length_drop; lia|].
  pose proof (fun s3 ps3 t3 r k3 => copied_out_step s ps t psz (va0 + off) (take k src) (drop k src)
    s1 ps1 t1 s2 ps1 t1 s3 ps3 t3 r k3 U1 B1 C2) as Hstep. rewrite take_drop, Hk in Hstep.
  destruct (decide (k = length src)) as [Hall|Hall].
  - exists s2, ps1, t1, 0, (k + 0)%nat. rewrite drop_ge in * by lia. split; [by destruct n|].
    apply (Hstep s2 ps1 t1 0 0%nat). by right.
  - exists s3, ps3, t3, r, (k + k3)%nat. split; [done|]. apply Hstep. left.
    by replace (va0 + off + Z.of_nat k) with (va0 + PGSIZE) by lia.
Qed.

(** [copyin] of bytes that are there and whose pages are allocated. *)
Lemma copyin_present s ps t psz va l :
  uvm_ok s ps t -> psz <= TRAPFRAME -> 0 <= va < 2 ^ 64 -> holds_bytes (mem s) t psz va l ->
  (forall i, (i < length l)%nat -> present (mem s) t (va + Z.of_nat i) = true) ->
  exists s' ps' t',
    copyin (pt_root t) psz va (Z.of_nat (length l)) s = Ok (0, l) s' /\
    ustep s ps t s' ps' t' /\ same_bytes (mem s) t (mem s') t' psz.
Proof.
  intros H Hpsz Hva Hl Hp.
  destruct (copyin_loop_ok (Z.to_nat (Z.of_nat (length l))) s ps t psz va (Z.of_nat (length l)) [] H Hpsz Hva)
    as (s' & ps' & t' & r & l' & E & U & B & Hl' & Hr); [lia|].
  exists s', ps', t'. split; [|done]. unfold copyin. rewrite E. cbn [app].
  destruct Hr as [[-> Hlen]|(-> & Hlen & Hr)].
  - f_equal. f_equal. apply list_eq. intros i. destruct (decide (i < length l)%nat) as [Hi|Hi].
    + rewrite <- Hl by done. symmetry. apply Hl'. lia.
    + rewrite !lookup_ge_None_2 by lia. done.
  - destruct Hr as [Hr|[_ Hr]]; [|rewrite Hp in Hr by lia; done].
    rewrite Hl in Hr by lia. apply lookup_ge_None in Hr. lia.
Qed.

(** C11: What the kernel copies out to a user process is what it reads back.  [copyout]
    stores a prefix of the bytes at the user's addresses, across pages, and changes no
    other byte and no permission the user sees: allocating lazily allocated pages on the
    way is invisible.  It returns 0 when all of them were stored; it returns -1 only at an
    address the user may not write or when no memory is left for its page.  After a 0,
    [copyin] from the same address returns exactly the bytes, and cannot fail.  Pages of
    the process and free pages are conserved, and no other page is touched. *)
Theorem copyout_copyin s ps t psz va l :
  uvm_ok s ps t -> psz <= TRAPFRAME -> 0 <= va < 2 ^ 64 ->
  exists s1 ps1 t1 r k,
    copyout (pt_root t) psz va l s = Ok r s1 /\ copied_out s ps t psz va l s1 ps1 t1 r k /\
    (r = 0 -> exists s2 ps2 t2,
       copyin (pt_root t) psz va (Z.of_nat (length l)) s1 = Ok (0, l) s2 /\
       ustep s1 ps1 t1 s2 ps2 t2 /\ same_bytes (mem s1) t1 (mem s2) t2 psz).
Proof.
  intros H Hpsz Hva. destruct (copyout_loop_ok (length l) s ps t psz va l H Hpsz Hva)
    as (s1 & ps1 & t1 & r & k & E & C); [lia|].
  exists s1, ps1, t1, r, k. split; [done|]. split; [done|]. intros ->.
  destruct C as (U & V & _ & _ & _ & Hw & [[_ ->]|[]]); [|done].
  rewrite <- (us_root _ _ _ _ _ _ U). apply copyin_present; [apply U|done|done| |].
  - intros i Hi. rewrite V, take_ge by lia. unfold with_bytes. rewrite decide_True by lia. f_equal. lia.
  - intros i Hi. by apply Hw.
Qed.

End user.

Section witnesses.
Import Small.

(** An empty address space of the small kernel. *)
Lemma small_space : exists s ps p, uvm_ok s ps (mkPt p ∅ ∅) /\ held s = [].
Proof.
  destruct small_table as (s & ps & p & H & Hh). exists s, ps, p. split; [|done].
  by apply empty_space.
Qed.

Lemma copyout_copyin_witness :
  exists s ps t s1 ps1 t1 r k,
    uvm_ok s ps t /\ copyout (pt_root t) 8192 4094 [1; 2; 3; 4] s = Ok r s1 /\
    copied_out s ps t 8192 4094 [1; 2; 3; 4] s1 ps1 t1 r k.
Proof.
  destruct small_space as (s & ps & p & H & Hh).
  destruct (copyout_copyin s ps (mkPt p ∅ ∅) 8192 4094 [1; 2; 3; 4] H)
    as (s1 & ps1 & t1 & r & k & E & C & _); [done|done|].
  by exists s, ps, (mkPt p ∅ ∅), s1, ps1, t1, r, k.
Defined.

End witnesses.
