(* ===== verification/Uvm.v ===== *)
(** Growing, shrinking and copying user address spaces (kernel/vm.c): [uvmunmap],
    [uvmalloc], [uvmdealloc] and [uvmcopy]. *)

From stdpp Require Import prelude gmap strings.
From Stdlib Require Import ZArith Lia.
From S2P Require Import Prelude Bytes Params State Spinlock CString Kalloc Vm PageTable User.

Local Open Scope Z_scope.
Local Open Scope kernel_scope.

(** The view [w] with nothing mapped from [lo] to [hi]. *)
Definition without_pages (lo hi : Z) (w : Z -> option (Z * option Z)) : Z -> option (Z * option Z) :=
  fun a => if decide (lo <= a < hi) then None else w a.

Section uvm.
Context {L : Linker} {LOk : LinkerOk L}.

Lemma uchange_refl s ps t : uvm_ok s ps t -> uchange s ps t s ps t (uview (mem s) t).
Proof. intros H. split; [by apply ustep_refl|done]. Qed.

Lemma uchange_ext s ps t s' ps' t' w w' :
  uchange s ps t s' ps' t' w -> (forall a, 0 <= a < TRAPFRAME -> w a = w' a) ->
  uchange s ps t s' ps' t' w'.
Proof. intros [U V] E. split; [done|]. intros a Ha. by rewrite V, E. Qed.

(** ** Unmapping *)

(** Freeing the page mapped at [va] and clearing its entry. *)
Lemma unmap_page s ps t va :
  uvm_ok s ps t -> va mod PGSIZE = 0 -> 0 <= va < TRAPFRAME -> valid (leaf (mem s) t va) = true ->
  exists a s', pte_addr t va = Some a /\
    (kfree (PTE2PA (leaf (mem s) t va)) ;; store64 a 0) s = Ok tt s' /\
    uchange s ps t s' (PTE2PA (leaf (mem s) t va) :: ps) t
      (without_pages va (va + PGSIZE) (uview (mem s) t)).
Proof.
  intros H Hal Hva Hv. destruct (uv_vm _ _ _ H) as (HK & HT & Hd & Hlk).
  destruct (uv_page _ _ _ H va Hva Hv) as (Hvp & Hmp & Hps & Hpt).
  set (p := PTE2PA (leaf (mem s) t va)) in *.
  destruct (pte_addr t va) as [a|] eqn:Ea; [|by rewrite leaf_none in Hv].
  set (s1 := s <| mem := kfree_mem (mem s) p (freelist s) |> <| freelist := p |>).
  assert (Hs1 : forall q, valid_page q -> q <> p -> same_page (mem s) (mem s1) q).
  { intros q Hq Hne. unfold s1. rs. apply kfree_mem_frame; congruence. }
  assert (Ht1 : forall q, q ∈ pt_pages t -> same_page (mem s) (mem s1) q).
  { intros q Hq. apply Hs1; [by eapply pt_page_valid|]. by intros ->. }
  assert (Hvm1 : vm_ok s1 (p :: ps) t).
  { split; [by apply kmem_inv_kfree|]. split; [by eapply pt_inv_frame|]. split; [|done].
    intros q [->|Hq]%elem_of_cons; [done|by apply Hd]. }
  pose proof Hvm1 as (_ & HT1 & _). destruct (pte_addr_nonzero _ _ _ _ HT1 Ea) as [_ Hma].
  exists a. eexists. split; [done|]. split.
  { run (kfree_ok s p Hvp Hmp Hlk). apply (store64_ok a 0 s1 Hma). }
  pose proof (grown_store s1 (p :: ps) t va a 0 Hvm1 (low_maxva _ Hva) ltac:(lia) Ea) as G.
  set (s2 := s1 <| mem := store_bytes (mem s1) a (le_encode 8 0) |>) in *.
  assert (Hleaf : forall b, 0 <= b < MAXVA -> leaf (mem s2) t b = set_leaf va 0 (leaf (mem s) t) b).
  { intros b Hb. rewrite (gr_leaf _ _ _ _ _ _ _ G) by done. unfold set_leaf.
    by rewrite !(leaf_frame (mem s) (mem s1)). }
  assert (Hfr : forall q, valid_page q -> q ∉ ps -> q ∉ pt_pages t ->
    ~ pte_page (leaf (mem s) t va) q -> same_page (mem s) (mem s2) q).
  { intros q Hq Hqps Hqt Hne. assert (q <> p) by (intros ->; by apply Hne).
    eapply same_page_trans; [by apply Hs1|]. apply G; try done. by apply not_elem_of_cons. }
  split.
  - eapply entry_ustep; [exact H|exact Hva| |done|apply G|exact Hleaf| |exact Hfr|].
    + unfold s2, s1. rs. st_eq s.
    + intros q. unfold pte_page. rewrite Hv, elem_of_cons. change (valid 0) with false. fold p. naive_solver.
    + by intros q [? _].
  - intros b Hb. unfold without_pages. case_decide as Hr.
    + unfold uview. rewrite Hleaf, set_leaf_in; [done|by apply div_page|by apply low_maxva].
    + apply (entry_view _ _ _ _ _ _ _ H Hva Hleaf Hfr b Hb). intros E. apply Hr.
      unfold PGSIZE in *. pose proof (Z.div_mod b 4096). pose proof (Z.div_mod va 4096).
      pose proof (Z.mod_pos_bound b 4096). lia.
Qed.

Lemma without_same lo hi w a : ~ (lo <= a < hi) -> without_pages lo hi w a = w a.
Proof. intros H. unfold without_pages. by rewrite decide_False. Qed.

Lemma uview_page m t a b :
  valid (leaf m t a) = false -> a mod PGSIZE = 0 -> a <= b < a + PGSIZE -> uview m t b = None.
Proof.
  intros Hv Hal Hb. unfold uview. by rewrite (leaf_page _ _ b a), Hv by (by apply div_page).
Qed.

(** One iteration of [uvmunmap]. *)
Lemma unmap_step s ps t a :
  uvm_ok s ps t -> a mod PGSIZE = 0 -> 0 <= a < TRAPFRAME ->
  exists s1 ps1,
    (forall k : K unit, (pte <- walk (pt_root t) a false ;;
       (if pte =? 0 then ret tt
        else v <- load64 pte ;;
             if negb (valid v) then ret tt else when true (kfree (PTE2PA v)) ;; store64 pte 0) ;; k) s = k s1) /\
    uchange s ps t s1 ps1 t (without_pages a (a + PGSIZE) (uview (mem s) t)) /\
    (length ps1 <= S (length ps))%nat.
Proof.
  intros H Hal Hlow. destruct (uv_vm _ _ _ H) as (_ & HT & _).
  destruct (valid (leaf (mem s) t a)) eqn:Hv.
  - destruct (unmap_page s ps t a H Hal Hlow Hv) as (pa & s1 & Ea & E & C).
    exists s1, (PTE2PA (leaf (mem s) t a) :: ps). split; [|split; [done|simpl; lia]]. intros k.
    run (walk_lookup s t a HT (low_maxva a Hlow)). rewrite Ea. change (default 0 (Some pa)) with pa.
    destruct (pte_addr_nonzero _ _ _ _ HT Ea) as [Hn Hm]. rewrite (proj2 (Z.eqb_neq pa 0)) by done.
    erewrite bind_ok; [reflexivity|]. run (load64_word s pa Hm).
    assert (El : word (mem s) pa = leaf (mem s) t a) by (unfold leaf; by rewrite Ea).
    rewrite El, Hv. exact E.
  - exists s, ps. split; [|split; [|lia]].
    + intros k. run (walk_lookup s t a HT (low_maxva a Hlow)).
      destruct (pte_addr t a) as [pa|] eqn:Ea; [|done]. change (default 0 (Some pa)) with pa.
      destruct (pte_addr_nonzero _ _ _ _ HT Ea) as [Hn Hm]. rewrite (proj2 (Z.eqb_neq pa 0)) by done.
      erewrite bind_ok; [reflexivity|]. run (load64_word s pa Hm).
      assert (El : word (mem s) pa = leaf (mem s) t a) by (unfold leaf; by rewrite Ea).
      by rewrite El, Hv.
    + eapply uchange_ext; [by apply uchange_refl|]. intros b Hb'. unfold without_pages.
      case_decide; [|done]. by apply (uview_page _ _ a).
Qed.

Lemma uvmunmap_loop_ok n s ps t a bound :
  uvm_ok s ps t -> a mod PGSIZE = 0 -> 0 <= a -> bound mod PGSIZE = 0 -> bound <= TRAPFRAME ->
  bound - a <= Z.of_nat n * PGSIZE ->
  exists s' ps', uvmunmap_loop n (pt_root t) a bound true s = Ok tt s' /\
    uchange s ps t s' ps' t (without_pages a bound (uview (mem s) t)) /\
    (Z.of_nat (length ps') <= Z.of_nat (length ps) + Z.max 0 (bound - a) / PGSIZE).
Proof.
  revert s ps a. induction n as [|n IH]; intros s ps a H Hal H0 Hbal Hb Hn;
    cbn [uvmunmap_loop]; destruct (Z.ltb_spec a bound) as [Hlt|Hge]; try lia.
  1, 3: exists s, ps; split; [done|]; split; [|rewrite Z.max_l by lia; change (0 / PGSIZE) with 0; lia];
    eapply uchange_ext; [by apply uchange_refl|]; intros b _; rewrite without_same by lia; done.
  assert (Hlow : 0 <= a < TRAPFRAME) by lia.
  destruct (uv_vm _ _ _ H) as (_ & HT & _).
  destruct (unmap_step s ps t a H Hal Hlow) as (s1 & ps1 & E1 & [U1 V1] & Hl1). rewrite E1.
  destruct (next_page a Hlow) as [-> _].
  destruct (IH s1 ps1 (a + PGSIZE)) as (s2 & ps2 & E2 & [U2 V2] & Hl2); try done; try lia.
  - apply U1.
  - by rewrite <- Zplus_mod_idemp_r, Z_mod_same_full, Z.add_0_r.
  - unfold PGSIZE. lia.
  - assert (a + PGSIZE <= bound).
    { by apply aligned_next. }
    exists s2, ps2. split; [done|]. split.
    + split; [by eapply ustep_trans|]. intros b Hb'. rewrite V2 by done. unfold without_pages in *.
      rewrite V1 by done. unfold PGSIZE in *. repeat case_decide; done || lia.
    + unfold PGSIZE in *. rewrite Z.max_r in * by lia.
      replace (bound - a) with ((bound - (a + 4096)) + 1 * 4096) by lia. rewrite Z.div_add; lia.
Qed.

Lemma uvmunmap_ok s ps t va npages :
  uvm_ok s ps t -> va mod PGSIZE = 0 -> 0 <= va -> 0 <= npages -> va + npages * PGSIZE <= TRAPFRAME ->
  exists s' ps', uvmunmap (pt_root t) va npages true s = Ok tt s' /\
    uchange s ps t s' ps' t (without_pages va (va + npages * PGSIZE) (uview (mem s) t)) /\
    Z.of_nat (length ps') <= Z.of_nat (length ps) + npages.
Proof.
  intros H Hal H0 Hnp Hmax. unfold uvmunmap. rewrite bind_panic_if by (by rewrite Hal).
  change TRAPFRAME with 274877898752 in Hmax. unfold PGSIZE in *. rewrite u64_small by lia.
  replace (va + npages * 4096 - va) with (npages * 4096) by lia. rewrite Z.div_mul by lia.
  destruct (uvmunmap_loop_ok (Z.to_nat (npages + 1)) s ps t va (va + npages * 4096))
    as (s' & ps' & E & C & Hl); try done; unfold PGSIZE in *.
  - by rewrite Z.mod_add by lia.
  - lia.
  - exists s', ps'. split; [done|]. split; [done|].
    replace (va + npages * 4096 - va) with (npages * 4096) in Hl by lia.
    rewrite Z.max_r, Z.div_mul in Hl by lia. done.
Qed.

(** ** Growing and shrinking *)

Lemma roundup_low sz :
  0 <= sz <= TRAPFRAME ->
  PGROUNDUP sz mod PGSIZE = 0 /\ sz <= PGROUNDUP sz < sz + PGSIZE /\ PGROUNDUP sz <= TRAPFRAME.
Proof.
  intros H. change TRAPFRAME with 274877898752 in *.
  destruct (PGROUNDUP_spec sz) as [Ha Hr]; [unfold PGSIZE; lia|]. split; [done|]. split; [done|].
  unfold PGSIZE in *. pose proof (Z.div_mod (PGROUNDUP sz) 4096). lia.
Qed.

Lemma uvmdealloc_ok s ps t oldsz newsz :
  uvm_ok s ps t -> 0 <= newsz <= TRAPFRAME -> 0 <= oldsz <= TRAPFRAME ->
  exists s' ps', uvmdealloc (pt_root t) oldsz newsz s = Ok (Z.min oldsz newsz) s' /\
    uchange s ps t s' ps' t (without_pages (PGROUNDUP newsz) (PGROUNDUP oldsz) (uview (mem s) t)) /\
    Z.of_nat (length ps') <= Z.of_nat (length ps) + Z.max 0 (PGROUNDUP oldsz - PGROUNDUP newsz) / PGSIZE.
Proof.
  intros H Hn Ho. unfold uvmdealloc.
  destruct (roundup_low oldsz Ho) as (Hao & Hro & Hto). destruct (roundup_low newsz Hn) as (Han & Hrn & Htn).
  assert (Hstay : PGROUNDUP oldsz <= PGROUNDUP newsz ->
    uchange s ps t s ps t (without_pages (PGROUNDUP newsz) (PGROUNDUP oldsz) (uview (mem s) t)) /\
    Z.of_nat (length ps) <= Z.of_nat (length ps) + Z.max 0 (PGROUNDUP oldsz - PGROUNDUP newsz) / PGSIZE).
  { intros Hle. rewrite Z.max_l by lia. split; [|change (0 / PGSIZE) with 0; lia].
    eapply uchange_ext; [by apply uchange_refl|]. intros b _. rewrite without_same by lia. done. }
  destruct (Z.leb_spec oldsz newsz) as [Hle|Hgt].
  { exists s, ps. rewrite Z.min_l by done. split; [done|]. apply Hstay.
    unfold PGSIZE in *. pose proof (Z.div_mod (PGROUNDUP oldsz) 4096).
    pose proof (Z.div_mod (PGROUNDUP newsz) 4096). lia. }
  rewrite Z.min_r by lia. destruct (Z.ltb_spec (PGROUNDUP newsz) (PGROUNDUP oldsz)) as [Hlt|Hge].
  2: { exists s, ps. split; [done|]. apply Hstay. lia. }
  set (n := (PGROUNDUP oldsz - PGROUNDUP newsz) / PGSIZE).
  assert (Hn' : PGROUNDUP oldsz = PGROUNDUP newsz + n * PGSIZE /\ 0 <= n < 2 ^ 31).
  { unfold n. unfold PGSIZE in *. pose proof (Z.div_mod (PGROUNDUP oldsz) 4096).
    pose proof (Z.div_mod (PGROUNDUP newsz) 4096).
    change TRAPFRAME with 274877898752 in *.
    Z.div_mod_to_equations. lia. }
  destruct Hn' as [Ed Hn31]. rewrite s32_small, u64_small by lia.
  destruct (uvmunmap_ok s ps t (PGROUNDUP newsz) n H) as (s' & ps' & E & C & Hl); try done; try lia.
  exists s', ps'. cbn [when]. run E. split; [done|]. rewrite Ed at 1. split; [done|].
  rewrite Z.max_r by lia. fold n. done.
Qed.

(** The view [w] with zeroes from [lo] to [hi]. *)
Definition with_zeroes (lo hi fl : Z) (w : Z -> option (Z * option Z)) : Z -> option (Z * option Z) :=
  fun a => if decide (lo <= a < hi) then Some (fl, Some 0) else w a.

Lemma with_page_zeroes va fl w a :
  va mod PGSIZE = 0 -> with_page va fl (page_of 0) w a = with_zeroes va (va + PGSIZE) fl w a.
Proof.
  intros Hal. unfold with_page, with_zeroes. pose proof (mod_page a).
  case_decide as E; unfold PGSIZE in *.
  - rewrite decide_True, lookup_page_of; [done|lia|].
    pose proof (Z.div_mod a 4096). pose proof (Z.div_mod va 4096). lia.
  - rewrite decide_False; [done|]. intros Hr. apply E. by apply div_page.
Qed.

Lemma unmapped_leaf m t va : 0 <= va < TRAPFRAME -> uview m t va = None -> valid (leaf m t va) = false.
Proof. intros _. unfold uview. by destruct (valid _). Qed.

(** The permissions of the pages [uvmalloc] maps. *)
Definition heap_perm (xperm : Z) : Z := Z.lor (Z.lor PTE_R PTE_U) xperm.

Definition grow_post (s : kstate) (ps : list Z) (t : ptree) (a oldsz newsz xperm : Z)
    (s' : kstate) (ps' : list Z) (t' : ptree) (r : Z) : Prop :=
  (r = newsz /\ uchange s ps t s' ps' t'
     (with_zeroes a (PGROUNDUP newsz) (Z.lor (heap_perm xperm) PTE_V) (uview (mem s) t))) \/
  (r = 0 /\ uchange s ps t s' ps' t' (without_pages oldsz a (uview (mem s) t)) /\
   Z.of_nat (length ps') <= 1 + (PGROUNDUP newsz - oldsz) / PGSIZE).

Lemma uvmalloc_fail s ps t s1 ps1 t1 a oldsz newsz :
  uchange s ps t s1 ps1 t1 (uview (mem s) t) -> (length ps1 <= 1)%nat ->
  a mod PGSIZE = 0 -> oldsz mod PGSIZE = 0 -> 0 <= oldsz <= a -> a <= PGROUNDUP newsz <= TRAPFRAME ->
  exists s' ps', (uvmdealloc (pt_root t) a oldsz ;; ret 0) s1 = Ok 0 s' /\
    uchange s ps t s' ps' t1 (without_pages oldsz a (uview (mem s) t)) /\
    Z.of_nat (length ps') <= 1 + (PGROUNDUP newsz - oldsz) / PGSIZE.
Proof.
  intros [U V] Hl Ha Ho H0 Hn. rewrite <- (us_root _ _ _ _ _ _ U).
  destruct (uvmdealloc_ok s1 ps1 t1 a oldsz (us_ok _ _ _ _ _ _ U)) as (s' & ps' & E & [U' V'] & Hl'); [lia..|].
  run E. exists s', ps'. split; [done|]. change TRAPFRAME with 274877898752 in *.
  rewrite !PGROUNDUP_aligned_id in V', Hl' by (done || unfold PGSIZE; lia). split.
  - split; [by eapply ustep_trans|]. intros b Hb. rewrite V' by done. unfold without_pages.
    by rewrite V.
  - rewrite Z.max_r in Hl' by lia.
    pose proof (Z.div_le_mono (a - oldsz) (PGROUNDUP newsz - oldsz) PGSIZE ltac:(done) ltac:(lia)). lia.
Qed.

Lemma uvmalloc_loop_ok n s ps t a oldsz newsz xperm :
  uvm_ok s ps t -> a mod PGSIZE = 0 -> oldsz mod PGSIZE = 0 -> 0 <= oldsz <= a ->
  0 <= newsz <= TRAPFRAME -> newsz - a <= Z.of_nat n * PGSIZE -> 0 <= xperm < 1024 ->
  a <= PGROUNDUP newsz ->
  (forall b, a <= b < PGROUNDUP newsz -> uview (mem s) t b = None) ->
  exists s' ps' t' r,
    uvmalloc_loop n (pt_root t) a oldsz newsz xperm s = Ok r s' /\
    grow_post s ps t a oldsz newsz xperm s' ps' t' r.
Proof.
  revert s ps t a. induction n as [|n IH]; intros s ps t a H Hal Ho H0 Hnew Hn Hx Ha Hno;
    cbn [uvmalloc_loop]; destruct (Z.ltb_spec a newsz) as [Hlt|Hge]; try lia;
    destruct (roundup_low newsz Hnew) as (Hna & Hnr & Hnt).
  1, 3: exists s, ps, t, newsz; split; [done|]; left; split; [done|];
    eapply uchange_ext; [by apply uchange_refl|]; intros b _; unfold with_zeroes; rewrite decide_False; [done|];
    unfold PGSIZE in *; pose proof (Z.div_mod a 4096); pose proof (Z.div_mod (PGROUNDUP newsz) 4096); lia.
  assert (Hlow : 0 <= a < TRAPFRAME) by lia.
  assert (Hp : 0 <= heap_perm xperm < 1024) by (by apply (lor_range 10)).
  assert (Hnext : a + PGSIZE <= PGROUNDUP newsz).
  { apply aligned_next; done || lia. }
  destruct (alloc_page s ps t a (heap_perm xperm) (fun p => kmemset p 0 PGSIZE) (page_of 0)
      (uvmdealloc (pt_root t) a oldsz ;; ret 0) (uvmdealloc (pt_root t) a oldsz ;; ret 0)
      (fun _ => uvmalloc_loop n (pt_root t) (u64 (a + PGSIZE)) oldsz newsz xperm))
    as (s1 & ps1 & t1 & _ & [(p & E & _ & [U1 V1] & _)|(E & Hl & C)]); try done.
  - apply unmapped_leaf; [done|]. apply Hno. lia.
  - intros. by apply kmemset_ok.
  - destruct (next_page a Hlow) as [Hnp _].
    assert (V1' : forall b, 0 <= b < TRAPFRAME -> uview (mem s1) t1 b =
      with_zeroes a (a + PGSIZE) (Z.lor (heap_perm xperm) PTE_V) (uview (mem s) t) b).
    { intros b Hb. rewrite V1 by done. by apply with_page_zeroes. }
    destruct (IH s1 ps1 t1 (a + PGSIZE)) as (s2 & ps2 & t2 & r & E2 & C2); try done; try lia.
    + apply U1.
    + by rewrite <- Zplus_mod_idemp_r, Z_mod_same_full, Z.add_0_r.
    + intros b Hb. unfold PGSIZE in *. rewrite V1' by lia. unfold with_zeroes, PGSIZE.
      rewrite decide_False by lia. apply Hno. lia.
    + exists s2, ps2, t2, r. split.
      { etransitivity; [exact E|]. by rewrite Hnp, <- (us_root _ _ _ _ _ _ U1). }
      destruct C2 as [[-> [U2 V2]]|(-> & [U2 V2] & Hl2)]; [left|right]; (split; [done|]).
      * split; [by eapply ustep_trans|]. intros b Hb. rewrite V2 by done. unfold with_zeroes in *.
        rewrite V1' by done. unfold PGSIZE in *. repeat case_decide; done || lia.
      * split; [|done]. split; [by eapply ustep_trans|]. intros b Hb. rewrite V2 by done.
        unfold without_pages, with_zeroes in *. rewrite V1' by done. unfold PGSIZE in *.
        repeat case_decide; try done; try lia. rewrite Hno by lia. done.
  - destruct (uvmalloc_fail s ps t s1 ps1 t1 a oldsz newsz C Hl) as (s2 & ps2 & E2 & C2 & Hl2); try done; try lia.
    exists s2, ps2, t1, 0. split; [|by right]. destruct E as [E|E]; (etransitivity; [exact E|done]).
Qed.

Lemma uvmalloc_ok s ps t oldsz newsz xperm :
  uvm_ok s ps t -> 0 <= oldsz <= newsz -> newsz <= TRAPFRAME -> 0 <= xperm < 1024 ->
  (forall b, PGROUNDUP oldsz <= b < PGROUNDUP newsz -> uview (mem s) t b = None) ->
  exists s' ps' t' r,
    uvmalloc (pt_root t) oldsz newsz xperm s = Ok r s' /\
    grow_post s ps t (PGROUNDUP oldsz) (PGROUNDUP oldsz) newsz xperm s' ps' t' r.
Proof.
  intros H Ho Hn Hx Hno. unfold uvmalloc. rewrite (proj2 (Z.ltb_ge newsz oldsz)) by lia.
  destruct (roundup_low oldsz) as (Hao & Hro & Hto); [lia|].
  destruct (roundup_low newsz) as (Han & Hrn & Htn); [lia|].
  apply uvmalloc_loop_ok; try done; try lia; unfold PGSIZE in *.
  - Z.div_mod_to_equations. lia.
  - pose proof (Z.div_mod (PGROUNDUP oldsz) 4096). pose proof (Z.div_mod (PGROUNDUP newsz) 4096). lia.
Qed.

(** C30: Growing a process and shrinking it again.  [uvmalloc] returns the new size when
    every page between the rounded sizes is mapped with the permissions it was asked for,
    full of zeroes, and everything else is as before; [uvmdealloc] then brings back
    exactly what was there before.  When [uvmalloc] returns 0 it has undone what it did:
    the user's view is unchanged, and there are fewer free pages than it needed.  Pages
    are conserved in every case. *)
Theorem uvmalloc_uvmdealloc s ps t oldsz newsz xperm :
  uvm_ok s ps t -> 0 <= oldsz <= newsz -> newsz <= TRAPFRAME -> 0 <= xperm < 1024 ->
  (forall b, PGROUNDUP oldsz <= b < PGROUNDUP newsz -> uview (mem s) t b = None) ->
  exists s1 ps1 t1 r,
    uvmalloc (pt_root t) oldsz newsz xperm s = Ok r s1 /\
    ((r = newsz /\
      uchange s ps t s1 ps1 t1 (with_zeroes (PGROUNDUP oldsz) (PGROUNDUP newsz)
        (Z.lor (heap_perm xperm) PTE_V) (uview (mem s) t)) /\
      exists s2 ps2, uvmdealloc (pt_root t) newsz oldsz s1 = Ok oldsz s2 /\
        uchange s ps t s2 ps2 t1 (uview (mem s) t)) \/
     (r = 0 /\ uchange s ps t s1 ps1 t1 (uview (mem s) t) /\
      Z.of_nat (length ps1) <= 1 + (PGROUNDUP newsz - PGROUNDUP oldsz) / PGSIZE)).
Proof.
  intros H Ho Hn Hx Hno.
  destruct (uvmalloc_ok s ps t oldsz newsz xperm H Ho Hn Hx Hno) as (s1 & ps1 & t1 & r & E & C).
  exists s1, ps1, t1, r. split; [done|]. destruct C as [[-> C]|(-> & C & Hl)]; [left|right].
  - split; [done|]. split; [done|]. destruct C as [U V].
    destruct (uvmdealloc_ok s1 ps1 t1 newsz oldsz (us_ok _ _ _ _ _ _ U)) as (s2 & ps2 & E2 & [U2 V2] & _); [lia..|].
    rewrite (us_root _ _ _ _ _ _ U), Z.min_r in E2 by lia.
    exists s2, ps2. split; [done|]. split; [by eapply ustep_trans|]. intros b Hb. rewrite V2 by done.
    unfold without_pages, with_zeroes in *. rewrite V by done. case_decide; [|done]. by rewrite Hno.
  - split; [done|]. split; [|done]. eapply uchange_ext; [exact C|]. intros b _. apply without_same. lia.
Qed.

(** ** Copying an address space *)

(** The view [w] with what [w0] has from [lo] to [hi]. *)
Definition with_copy (lo hi : Z) (w0 w : Z -> option (Z * option Z)) : Z -> option (Z * option Z) :=
  fun a => if decide (lo <= a < hi) then w0 a else w a.

Definition copy_post (s : kstate) (ps : list Z) (told tnew : ptree) (i sz : Z)
    (s' : kstate) (ps' : list Z) (t' : ptree) (r : Z) : Prop :=
  (r = 0 /\ uchange s ps tnew s' ps' t'
     (with_copy i (PGROUNDUP sz) (uview (mem s) told) (uview (mem s) tnew))) \/
  (r = -1 /\ uchange s ps tnew s' ps' t' (without_pages 0 (PGROUNDUP sz) (uview (mem s) tnew)) /\
   Z.of_nat (length ps') <= 1 + PGROUNDUP sz / PGSIZE).

(** How many pages the table may grow by when [n] pages are mapped. *)
Definition few_tables (t t' : ptree) (n : nat) : Prop := (length (pt_pages t') <= 2 * n + length (pt_pages t))%nat.

Lemma uvmcopy_fail s ps t s1 ps1 t1 i sz :
  uchange s ps t s1 ps1 t1 (uview (mem s) t) -> (length ps1 <= 1)%nat ->
  i mod PGSIZE = 0 -> 0 <= i <= PGROUNDUP sz -> PGROUNDUP sz <= TRAPFRAME ->
  (forall b, i <= b < PGROUNDUP sz -> uview (mem s) t b = None) ->
  exists s' ps', (uvmunmap (pt_root t) 0 (i / PGSIZE) true ;; ret (-1)) s1 = Ok (-1) s' /\
    uchange s ps t s' ps' t1 (without_pages 0 (PGROUNDUP sz) (uview (mem s) t)) /\
    Z.of_nat (length ps') <= 1 + PGROUNDUP sz / PGSIZE.
Proof.
  intros [U V] Hl Hal Hi Hsz Hno. rewrite <- (us_root _ _ _ _ _ _ U).
  assert (Ei : i / PGSIZE * PGSIZE = i) by (unfold PGSIZE in *; pose proof (Z.div_mod i 4096); lia).
  destruct (uvmunmap_ok s1 ps1 t1 0 (i / PGSIZE) (us_ok _ _ _ _ _ _ U))
    as (s' & ps' & E & [U' V'] & Hl'); try done; try lia.
  { apply Z.div_pos; [lia|done]. }
  run E. exists s', ps'. split; [done|]. split.
  - split; [by eapply ustep_trans|]. intros b Hb. rewrite V' by done. unfold without_pages.
    rewrite V, Z.add_0_l, Ei by done. repeat case_decide; try done; try lia. apply Hno. lia.
  - pose proof (Z.div_le_mono i (PGROUNDUP sz) PGSIZE ltac:(done) ltac:(lia)). lia.
Qed.

(** The page that [uvmcopy] copies. *)
Lemma copied_page s ps told va :
  uvm_ok s ps told -> 0 <= va < TRAPFRAME -> va mod PGSIZE = 0 -> valid (leaf (mem s) told va) = true ->
  let v := leaf (mem s) told va in
  exists l, load_bytes (mem s) (PTE2PA v) 4096 = Some l /\ length l = 4096%nat /\
    0 <= PTE_FLAGS v < 1024 /\
    (forall b, va <= b < va + PGSIZE -> uview (mem s) told b =
       Some (Z.lor (PTE_FLAGS v) PTE_V, l !! Z.to_nat (b mod PGSIZE))) /\
    (forall p s1, page_mapped (mem s1) p -> same_page (mem s) (mem s1) (PTE2PA v) ->
       kmemmove p (PTE2PA v) PGSIZE s1 = Ok tt (s1 <| mem := store_bytes (mem s1) p l |>)).
Proof.
  intros H Hva Hal Hv v. destruct (uv_page _ _ _ H va Hva Hv) as (Hvp & Hm & _). fold v in Hvp, Hm, Hv.
  destruct (load_bytes_mapped _ _ _ Hm) as [l Hl]. exists l. split; [done|].
  split; [by eapply length_load_bytes|]. split; [|split].
  - unfold PTE_FLAGS. change 0x3FF with (Z.ones 10). rewrite Z.land_ones by lia. apply Z.mod_pos_bound. lia.
  - intros b Hb. unfold uview. rewrite (leaf_page _ _ b va) by (by apply div_page). fold v. rewrite Hv.
    rewrite (load_bytes_lookup _ _ _ _ (b mod PGSIZE) Hl) by apply mod_page. f_equal. f_equal.
    apply Z.bits_inj'. intros k Hk. rewrite Z.lor_spec. change PTE_V with (2 ^ 0).
    rewrite Z.pow2_bits_eqb by lia. destruct (Z.eqb_spec 0 k) as [<-|]; [|by rewrite orb_false_r].
    change PTE_V with (2 ^ 0) in Hv. rewrite <- flag_flags, has_flag_spec in Hv by lia. by rewrite Hv.
  - intros p s1 Hp Hs. unfold kmemmove. rewrite (memmove_ok _ _ _ _ l); try done.
    rewrite <- Hl. apply load_bytes_ext. intros j Hj. apply Hs. change (Z.to_nat PGSIZE) with 4096%nat in Hj.
    unfold PGSIZE. lia.
Qed.

(** One iteration of [uvmcopy]. *)
Lemma uvmcopy_step n s ps told tnew i sz :
  uvm_ok s ps told -> uvm_ok s ps tnew -> disjoint_spaces (mem s) tnew told ->
  i mod PGSIZE = 0 -> 0 <= i < sz -> sz <= TRAPFRAME ->
  (forall b, i <= b < PGROUNDUP sz -> uview (mem s) tnew b = None) ->
  exists s1 ps1 t1, few_tables tnew t1 1 /\
    ((uvmcopy_loop (S n) (pt_root told) (pt_root tnew) i sz s =
       uvmcopy_loop n (pt_root told) (pt_root tnew) (u64 (i + PGSIZE)) sz s1 /\
     uchange s ps tnew s1 ps1 t1
       (with_copy i (i + PGSIZE) (uview (mem s) told) (uview (mem s) tnew))) \/
    (uvmcopy_loop (S n) (pt_root told) (pt_root tnew) i sz s =
       (uvmunmap (pt_root tnew) 0 (i / PGSIZE) true ;; ret (-1)) s1 /\
     uchange s ps tnew s1 ps1 t1 (uview (mem s) tnew) /\ (length ps1 <= 1)%nat)).
Proof.
  intros Ho Hn Hd Hal Hi Hsz Hno. cbn [uvmcopy_loop]. rewrite (proj2 (Z.ltb_lt i sz)) by lia.
  assert (Hlow : 0 <= i < TRAPFRAME) by lia. destruct (uv_vm _ _ _ Ho) as (_ & HT & _).
  destruct (roundup_low sz) as (Hra & Hr & _); [lia|].
  assert (Hnext : i + PGSIZE <= PGROUNDUP sz).
  { apply aligned_next; done || lia. }
  rewrite (walk_load s told i _ _ HT (low_maxva i Hlow)).
  destruct (valid (leaf (mem s) told i)) eqn:Hv; cbn [negb].
  2: { exists s, ps, tnew. split; [unfold few_tables; lia|]. left. split; [by destruct (pte_addr told i)|].
       eapply uchange_ext; [by apply uchange_refl|]. intros b _. unfold with_copy. case_decide; [|done].
       rewrite (uview_page _ told i) by done. apply Hno. lia. }
  destruct (pte_addr told i) eqn:Ea; [|by rewrite leaf_none in Hv].
  destruct (copied_page s ps told i Ho Hlow Hal Hv) as (l & Hl & Hlen & Hfl & Hview & Hmove).
  destruct (alloc_page s ps tnew i (PTE_FLAGS (leaf (mem s) told i))
     (fun p => kmemmove p (PTE2PA (leaf (mem s) told i)) PGSIZE) l
     (uvmunmap (pt_root tnew) 0 (i / PGSIZE) true ;; ret (-1))
     (uvmunmap (pt_root tnew) 0 (i / PGSIZE) true ;; ret (-1))
     (fun _ => uvmcopy_loop n (pt_root told) (pt_root tnew) (u64 (i + PGSIZE)) sz))
    as (s1 & ps1 & t1 & Hfew & [(p & E & _ & C & _)|(E & Hl1 & C)]); try done.
  - apply unmapped_leaf; [done|]. apply Hno. lia.
  - intros p ps1 s1 _ Hp Hs. apply Hmove; [done|]. destruct (uv_page _ _ _ Ho i Hlow Hv) as (? & _ & ? & _).
    by apply Hs.
  - exists s1, ps1, t1. split; [exact Hfew|]. left. split; [exact E|]. eapply uchange_ext; [exact C|]. intros b Hb.
    unfold with_page, with_copy. destruct (decide (i <= b < i + PGSIZE)) as [Hb'|Hb'].
    + by rewrite decide_True, Hview by (done || by apply div_page).
    + rewrite decide_False; [done|]. intros Eb. apply Hb'. unfold PGSIZE in *.
      pose proof (Z.div_mod b 4096). pose proof (Z.div_mod i 4096). pose proof (Z.mod_pos_bound b 4096). lia.
  - exists s1, ps1, t1. split; [exact Hfew|]. right. split; [|done]. by destruct E as [E|E].
Qed.

Lemma uvmcopy_loop_ok n s ps told tnew i sz :
  uvm_ok s ps told -> uvm_ok s ps tnew -> disjoint_spaces (mem s) tnew told ->
  i mod PGSIZE = 0 -> 0 <= i <= PGROUNDUP sz -> 0 <= sz <= TRAPFRAME -> sz - i <= Z.of_nat n * PGSIZE ->
  (forall b, i <= b < PGROUNDUP sz -> uview (mem s) tnew b = None) ->
  exists s' ps' t' r,
    uvmcopy_loop n (pt_root told) (pt_root tnew) i sz s = Ok r s' /\
    copy_post s ps told tnew i sz s' ps' t' r /\ few_tables tnew t' n.
Proof.
  revert s ps tnew i. induction n as [|n IH]; intros s ps tnew i Ho Hn Hd Hal Hi Hsz Hfuel Hno;
    destruct (roundup_low sz Hsz) as (Hra & Hr & Ht); (destruct (Z_lt_ge_dec i sz) as [Hlt|Hge]; [try lia|]).
  1, 3: exists s, ps, tnew, 0; split; [cbn [uvmcopy_loop]; by rewrite (proj2 (Z.ltb_ge i sz)) by lia|];
    split; [|unfold few_tables; lia]; left; split; [done|]; eapply uchange_ext; [by apply uchange_refl|]; intros b _; unfold with_copy;
    rewrite decide_False; [done|]; unfold PGSIZE in *; pose proof (Z.div_mod i 4096);
    pose proof (Z.div_mod (PGROUNDUP sz) 4096); lia.
  destruct (uvmcopy_step n s ps told tnew i sz) as (s1 & ps1 & t1 & Hfew & [(E & [U V])|(E & C & Hl)]); try done; try lia.
  - assert (Hlow : 0 <= i < TRAPFRAME) by lia. destruct (next_page i Hlow) as [Hnp _].
    assert (Hnext : i + PGSIZE <= PGROUNDUP sz).
    { apply aligned_next; done || lia. }
    destruct (ustep_other _ _ _ _ _ _ told U Ho Hd) as (Ho1 & Hd1 & Hs1).
    destruct (IH s1 ps1 t1 (i + PGSIZE)) as (s2 & ps2 & t2 & r & E2 & C2 & Hfew2); try done; try lia.
    + apply U.
    + by rewrite <- Zplus_mod_idemp_r, Z_mod_same_full, Z.add_0_r.
    + intros b Hb. unfold PGSIZE in *. rewrite V by lia. unfold with_copy. rewrite decide_False by lia. apply Hno. lia.
    + exists s2, ps2, t2, r. split; [by rewrite E, Hnp, <- E2, (us_root _ _ _ _ _ _ U)|].
      split; [|unfold few_tables in *; lia].
      destruct C2 as [[-> [U2 V2]]|(-> & [U2 V2] & Hl2)]; [left|right]; (split; [done|]);
        [|split; [|done]]; (split; [by eapply ustep_trans|]); intros b Hb; rewrite V2 by done;
        unfold with_copy, without_pages in *; rewrite V by done; unfold PGSIZE in *.
      * rewrite (uview_same (mem s) (mem s1) told) by done. repeat case_decide; done || lia.
      * repeat case_decide; done || lia.
  - destruct (uvmcopy_fail s ps tnew s1 ps1 t1 i sz C Hl) as (s2 & ps2 & E2 & C2 & Hl2); try done; try lia.
    exists s2, ps2, t1, (-1). split; [by rewrite E|]. split; [by right|unfold few_tables in *; lia].
Qed.

Lemma uvmcopy_space s ps told tnew sz :
  uvm_ok s ps told -> uvm_ok s ps tnew -> disjoint_spaces (mem s) tnew told -> 0 <= sz <= TRAPFRAME ->
  (forall a, 0 <= a < TRAPFRAME -> uview (mem s) tnew a = None) ->
  (forall a, PGROUNDUP sz <= a < TRAPFRAME -> uview (mem s) told a = None) ->
  exists s1 ps1 t1 r,
    uvmcopy (pt_root told) (pt_root tnew) sz s = Ok r s1 /\ ustep s ps tnew s1 ps1 t1 /\
    uvm_ok s1 ps1 told /\ disjoint_spaces (mem s1) t1 told /\
    (forall a, 0 <= a < TRAPFRAME -> uview (mem s1) told a = uview (mem s) told a) /\
    ((r = 0 /\ forall a, 0 <= a < TRAPFRAME -> uview (mem s1) t1 a = uview (mem s) told a) \/
     (r = -1 /\ (forall a, 0 <= a < TRAPFRAME -> uview (mem s1) t1 a = None) /\
      Z.of_nat (length ps1) <= 1 + PGROUNDUP sz / PGSIZE)) /\
    (forall s2 ps2 t2, ustep s1 ps1 t1 s2 ps2 t2 ->
       forall a, 0 <= a < TRAPFRAME -> uview (mem s2) told a = uview (mem s) told a) /\
    (forall s2 ps2 t2, ustep s1 ps1 told s2 ps2 t2 ->
       forall a, 0 <= a < TRAPFRAME -> uview (mem s2) t1 a = uview (mem s1) t1 a) /\
    few_tables tnew t1 (Z.to_nat (sz / PGSIZE + 1)).
Proof.
  intros Ho Hn Hd Hsz Hempty Hhigh. destruct (roundup_low sz Hsz) as (Hra & Hr & Ht).
  destruct (uvmcopy_loop_ok (Z.to_nat (sz / PGSIZE + 1)) s ps told tnew 0 sz)
    as (s1 & ps1 & t1 & r & E & C & Hfew); try done; try lia.
  { unfold PGSIZE in *. Z.div_mod_to_equations. lia. }
  { intros b Hb. apply Hempty. lia. }
  assert (U : ustep s ps tnew s1 ps1 t1) by (by destruct C as [(_ & U & _)|(_ & [U _] & _)]).
  destruct (ustep_other _ _ _ _ _ _ told U Ho Hd) as (Ho1 & Hd1 & Hs1).
  assert (Hv : forall a, 0 <= a < TRAPFRAME -> uview (mem s1) told a = uview (mem s) told a).
  { intros a Ha. by apply uview_same. }
  exists s1, ps1, t1, r. split; [done|]. do 4 (split; [done|]). split; [|split; [|split; [|done]]].
  - destruct C as [(-> & _ & V)|(-> & [_ V] & Hl)]; [left|right]; (split; [done|]); [|split; [|done]];
      intros a Ha; rewrite V by done; unfold with_copy, without_pages; case_decide; try done; [|by apply Hempty].
    rewrite Hempty, Hhigh by (done || lia). done.
  - intros s2 ps2 t2 U2 a Ha. destruct (ustep_other _ _ _ _ _ _ told U2 Ho1 Hd1) as (_ & _ & Hs2).
    rewrite <- Hv by done. by apply uview_same.
  - intros s2 ps2 t2 U2 a Ha.
    destruct (ustep_other _ _ _ _ _ _ t1 U2 (us_ok _ _ _ _ _ _ U)) as (_ & _ & Hs2); [|by apply uview_same].
    intros q Hq Hq'. exact (Hd1 q Hq' Hq).
Qed.

(** C12: Fork gives the child a copy that is its own.  [uvmcopy] into an empty address
    space returns 0 when the child has, at every address, the permissions and the byte
    the parent has there, in pages of its own; pages the parent has not touched yet are
    left to be allocated later in both.  It returns -1 when memory ran out, with the
    child empty again.  The parent's view never changes.  Whatever is then done in one
    of the two address spaces is not seen in the other. *)
Theorem uvmcopy_isolates s ps told tnew sz :
  uvm_ok s ps told -> uvm_ok s ps tnew -> disjoint_spaces (mem s) tnew told -> 0 <= sz <= TRAPFRAME ->
  (forall a, 0 <= a < TRAPFRAME -> uview (mem s) tnew a = None) ->
  (forall a, PGROUNDUP sz <= a < TRAPFRAME -> uview (mem s) told a = None) ->
  exists s1 ps1 t1 r,
    uvmcopy (pt_root told) (pt_root tnew) sz s = Ok r s1 /\ ustep s ps tnew s1 ps1 t1 /\
    uvm_ok s1 ps1 told /\ disjoint_spaces (mem s1) t1 told /\
    (forall a, 0 <= a < TRAPFRAME -> uview (mem s1) told a = uview (mem s) told a) /\
    ((r = 0 /\ forall a, 0 <= a < TRAPFRAME -> uview (mem s1) t1 a = uview (mem s) told a) \/
     (r = -1 /\ (forall a, 0 <= a < TRAPFRAME -> uview (mem s1) t1 a = None) /\
      Z.of_nat (length ps1) <= 1 + PGROUNDUP sz / PGSIZE)) /\
    (forall s2 ps2 t2, ustep s1 ps1 t1 s2 ps2 t2 ->
       forall a, 0 <= a < TRAPFRAME -> uview (mem s2) told a = uview (mem s) told a) /\
    (forall s2 ps2 t2, ustep s1 ps1 told s2 ps2 t2 ->
       forall a, 0 <= a < TRAPFRAME -> uview (mem s2) t1 a = uview (mem s1) t1 a).
Proof.
  intros Ho Hn Hd Hsz He Hh. destruct (uvmcopy_space s ps told tnew sz Ho Hn Hd Hsz He Hh) as (s1 & ps1 & t1 & r & H1 & H2 & H3 & H4 & H5 & H6 & H7 & H8 & _).
  by exists s1, ps1, t1, r.
Qed.

End uvm.

Section witnesses.
Import Small.

Lemma uvmalloc_uvmdealloc_witness :
  exists s ps t s1 ps1 t1 r,
    uvm_ok s ps t /\ uvmalloc (pt_root t) 0 8192 PTE_W s = Ok r s1 /\
    ustep s ps t s1 ps1 t1.
Proof.
  destruct small_space as (s & ps & p & H & Hh).
  destruct (uvmalloc_uvmdealloc s ps (mkPt p ∅ ∅) 0 8192 PTE_W H)
    as (s1 & ps1 & t1 & r & E & [(_ & [U _] & _)|(_ & [U _] & _)]); try done.
  - by exists s, ps, (mkPt p ∅ ∅), s1, ps1, t1, r.
  - by exists s, ps, (mkPt p ∅ ∅), s1, ps1, t1, r.
Defined.

(** Two empty address spaces. *)
Lemma small_spaces : exists s ps t t2,
  uvm_ok s ps t /\ uvm_ok s ps t2 /\ disjoint_spaces (mem s) t2 t /\
  (forall a, uview (mem s) t a = None) /\ (forall a, uview (mem s) t2 a = None) /\ held s = [].
Proof.
  destruct booted as (s & p & ps & HK & Hh & Hps).
  destruct (uvmcreate_space s p ps HK) as (s1 & _ & Hh1 & H1 & _); [rewrite Hh; apply not_elem_of_nil|].
  assert (exists p2 ps2, ps = p2 :: ps2) as (p2 & ps2 & ->).
  { destruct ps as [|p2 ps2]; [|by eexists _, _]. exfalso.
    assert (page1 ∈ [p] /\ page1 - 4096 ∈ [p]) as [Ha Hb] by (split; by apply Hps).
    apply list_elem_of_singleton in Ha, Hb. unfold page1 in *. lia. }
  destruct (uv_vm _ _ _ H1) as (HK1 & _).
  destruct (uvmcreate_space s1 p2 ps2 HK1) as (s2 & _ & Hh2 & H2 & Hother);
    [rewrite Hh1, Hh; apply not_elem_of_nil|].
  destruct (Hother _ H1) as [H1' Hd]. exists s2, ps2, (mkPt p ∅ ∅), (mkPt p2 ∅ ∅).
  split_and!; try done. congruence.
Qed.

Lemma uvmcopy_isolates_witness :
  exists s ps t t2 s1 r, uvm_ok s ps t /\ uvmcopy (pt_root t) (pt_root t2) 8192 s = Ok r s1.
Proof.
  destruct small_spaces as (s & ps & t & t2 & H & H2 & Hd & Hv & Hv2 & _).
  destruct (uvmcopy_isolates s ps t t2 8192 H H2 Hd) as (s1 & ps1 & t1 & r & E & _); try done.
  by exists s, ps, t, t2, s1, r.
Defined.

End witnesses.
