(* ===== verification/Disk.v ===== *)
(** The disk as the block layer uses it: what [virtio_disk_rw] of
    kernel/virtio_disk.c promises to its callers.

    The driver itself, with its descriptor rings, its interrupt handler and the
    sleeping in between, is in the file Virtio. *)

From stdpp Require Import prelude gmap strings.
From Stdlib Require Import ZArith Lia.
From S2P Require Import Prelude Bytes Params State.

Local Open Scope Z_scope.
Local Open Scope kernel_scope.

(** Write the buffer's data to its block, or read the block into the buffer.  A
    block the disk does not have makes the device report an error. *)
Definition disk_rw (i : nat) (write : bool) : K unit :=
  b <- getbuf i ;;
  d <- gets disk ;;
  match d !! b_blockno b with
  | None => panic "virtio_disk_intr status"
  | Some data =>
      if write then
        modify (fun s => s <| disk := <[b_blockno b := b_data b]> (disk s) |>
                           <| dtrace := dtrace s ++ [(b_blockno b, b_data b)] |>)
      else updbuf i (fun b => b <| b_data := data |>)
  end.
