(* ===== verification/Bio.v ===== *)
(** kernel/bio.c: the buffer cache.

    [bufs] has the array [bcache.buf] and, at index [NBUF], [bcache.head]; the
    recently-used list is threaded through [b_prev] and [b_next] as in the code. *)

From stdpp Require Import prelude gmap strings.
From Stdlib Require Import ZArith Lia.
From S2P Require Import Prelude Bytes Params State Spinlock Sched Sleeplock Disk.

Local Open Scope Z_scope.
Local Open Scope kernel_scope.

(** The index of [bcache.head]. *)
Abbreviation HEAD := NBUF.

Definition binit : K unit :=
  updbuf HEAD (fun b => b <| b_prev := HEAD |> <| b_next := HEAD |>) ;;
  foreach (seq 0 NBUF) (fun i =>
    h <- getbuf HEAD ;;
    updbuf i (fun b => b <| b_next := b_next h |> <| b_prev := HEAD |>) ;;
    initsleeplock (SL_buf i) ;;
    updbuf (b_next h) (fun b => b <| b_prev := i |>) ;;
    updbuf HEAD (fun b => b <| b_next := i |>)).

(** [b->data] of a buffer, and storing to it. *)
Definition bdata (i : nat) : K (list Z) := b <- getbuf i ;; ret (b_data b).
Definition set_bdata (i : nat) (f : list Z -> list Z) : K unit :=
  updbuf i (fun b => b <| b_data := f (b_data b) |>).

Section bio.
Context {F : Fuel}.

(** [for (b = bcache.head.next; b != &bcache.head; b = b->next)] up to the buffer
    that holds the block. *)
Fixpoint find_cached (fuel : nat) (i : nat) (dev blockno : Z) : K (option nat) :=
  if decide (i = HEAD) then ret None
  else
    match fuel with
    | O => no_fuel
    | S n =>
        b <- getbuf i ;;
        if (b_dev b =? dev) && (b_blockno b =? blockno) then ret (Some i)
        else find_cached n (b_next b) dev blockno
    end.

(** [for (b = bcache.head.prev; b != &bcache.head; b = b->prev)] up to an unused
    buffer. *)
Fixpoint find_unused (fuel : nat) (i : nat) : K (option nat) :=
  if decide (i = HEAD) then ret None
  else
    match fuel with
    | O => no_fuel
    | S n =>
        b <- getbuf i ;;
        if b_refcnt b =? 0 then ret (Some i) else find_unused n (b_prev b)
    end.

Definition bget (dev blockno : Z) : K nat :=
  acquire L_bcache ;;
  h <- getbuf HEAD ;;
  c <- find_cached (S NBUF) (b_next h) dev blockno ;;
  match c with
  | Some i =>
      updbuf i (fun b => b <| b_refcnt := u32 (b_refcnt b + 1) |>) ;;
      release L_bcache ;;
      acquiresleep (SL_buf i) ;;
      ret i
  | None =>
      c <- find_unused (S NBUF) (b_prev h) ;;
      match c with
      | Some i =>
          updbuf i (fun b => b <| b_dev := dev |> <| b_blockno := blockno |>
                               <| b_valid := false |> <| b_refcnt := 1 |>) ;;
          release L_bcache ;;
          acquiresleep (SL_buf i) ;;
          ret i
      | None => panic "bget: no buffers"
      end
  end.

Definition bread (dev blockno : Z) : K nat :=
  i <- bget dev blockno ;;
  b <- getbuf i ;;
  when (negb (b_valid b))
    (disk_rw i false ;;
     updbuf i (fun b => b <| b_valid := true |>)) ;;
  ret i.

Definition bwrite (i : nat) : K unit :=
  h <- holdingsleep (SL_buf i) ;;
  panic_if (negb h) "bwrite" ;;
  disk_rw i true.

Definition brelse (i : nat) : K unit :=
  h <- holdingsleep (SL_buf i) ;;
  panic_if (negb h) "brelse" ;;
  releasesleep (SL_buf i) ;;
  acquire L_bcache ;;
  updbuf i (fun b => b <| b_refcnt := u32 (b_refcnt b - 1) |>) ;;
  b <- getbuf i ;;
  when (b_refcnt b =? 0)
    (updbuf (b_next b) (fun x => x <| b_prev := b_prev b |>) ;;
     updbuf (b_prev b) (fun x => x <| b_next := b_next b |>) ;;
     h <- getbuf HEAD ;;
     updbuf i (fun x => x <| b_next := b_next h |> <| b_prev := HEAD |>) ;;
     updbuf (b_next h) (fun x => x <| b_prev := i |>) ;;
     updbuf HEAD (fun x => x <| b_next := i |>)) ;;
  release L_bcache.

Definition bpin (i : nat) : K unit :=
  acquire L_bcache ;;
  updbuf i (fun b => b <| b_refcnt := u32 (b_refcnt b + 1) |>) ;;
  release L_bcache.

Definition bunpin (i : nat) : K unit :=
  acquire L_bcache ;;
  updbuf i (fun b => b <| b_refcnt := u32 (b_refcnt b - 1) |>) ;;
  release L_bcache.

End bio.
