(* ===== verification/Cache.v ===== *)
(** The buffer cache of Bio as the log and the file system see it: the contents of
    every block, which blocks are referenced, and which this process holds.

    [cache s V R H] says that the blocks of the disk have the logical contents [V]
    (what a [bread] would return), that block [b] has [R b] references besides
    those of the buffers the running process holds, and that the process holds the
    buffers [H] (block to buffer index).  The linked list of the code appears only
    in the proofs. *)

From stdpp Require Import prelude gmap strings.
From Stdlib Require Import ZArith Lia.
From S2P Require Import Prelude Bytes Params State Spinlock Sched Sleeplock Disk Bio.

Local Open Scope Z_scope.
Local Open Scope kernel_scope.

(** ** Doubly linked lists *)

(** Following [nx] from [a] passes through [l] and arrives at [b]; [pv] is its
    inverse along the way. *)
Fixpoint chain (nx pv : nat -> option nat) (a : nat) (l : list nat) (b : nat) : Prop :=
  match l with
  | [] => nx a = Some b /\ pv b = Some a
  | x :: l' => nx a = Some x /\ pv x = Some a /\ chain nx pv x l' b
  end.

Definition nxt (bs : list buf) (i : nat) : option nat := b_next <$> bs !! i.
Definition prv (bs : list buf) (i : nat) : option nat := b_prev <$> bs !! i.

(** [bcache.head] and the buffers in recently-used order. *)
Definition ring (bs : list buf) (l : list nat) : Prop :=
  chain (nxt bs) (prv bs) HEAD l HEAD /\ l ≡ₚ seq 0 NBUF.

Lemma chain_app nx pv a l1 x l2 b :
  chain nx pv a (l1 ++ x :: l2) b <-> chain nx pv a l1 x /\ chain nx pv x l2 b.
Proof. revert a. induction l1 as [|y l1 IH]; intros a; cbn; [tauto|]. rewrite IH. tauto. Qed.

Lemma chain_frame nx pv nx' pv' a l b :
  (forall i, i = a \/ i ∈ l -> nx' i = nx i) -> (forall i, i ∈ l \/ i = b -> pv' i = pv i) ->
  chain nx pv a l b -> chain nx' pv' a l b.
Proof.
  revert a. induction l as [|x l IH]; intros a Hn Hp; cbn.
  - rewrite Hn, Hp by auto. done.
  - intros (H1 & H2 & H3). rewrite Hn by auto. rewrite Hp by (left; by left). split_and!; [done..|].
    apply IH; [| |done].
    + intros i [->|Hi]; apply Hn; right; [by left|by right].
    + intros i [Hi| ->]; apply Hp; [left; by right|by right].
Qed.

Lemma last_elem {A : Type} (a d : A) l : l <> [] -> List.last (a :: l) d ∈ l.
Proof.
  revert a. induction l as [|x l IH]; intros a Hl; [done|].
  change (List.last (a :: x :: l) d) with (List.last (x :: l) d).
  destruct l as [|y l]; [by left|]. right. by apply IH.
Qed.

(** The neighbours of an element. *)
Lemma chain_ends nx pv a l b :
  chain nx pv a l b ->
  nx a = Some (hd b l) /\ pv b = Some (List.last (a :: l) a).
Proof.
  revert a. induction l as [|x l IH]; intros a; [cbn; tauto|]. intros (H1 & H2 & H3).
  destruct (IH x H3) as [_ E]. split; [done|]. rewrite E. f_equal.
  destruct l; [done|]. cbn. clear. revert n. induction l as [|y l IH]; intros n; [done|apply IH].
Qed.

(** Taking [i] out of a list: its neighbours are linked to each other. *)
Lemma chain_unlink nx pv nx' pv' a l1 i l2 b :
  NoDup (i :: l1 ++ l2) -> a ∉ i :: l1 ++ l2 -> b ∉ i :: l1 ++ l2 ->
  chain nx pv a (l1 ++ i :: l2) b ->
  (forall p n, pv i = Some p -> nx i = Some n ->
     nx' p = Some n /\ pv' n = Some p /\
     (forall j, j <> p -> j <> i -> nx' j = nx j) /\ (forall j, j <> n -> j <> i -> pv' j = pv j)) ->
  chain nx' pv' a (l1 ++ l2) b.
Proof.
  intros Hnd Ha Hb Hc Hu. apply chain_app in Hc as [H1 H2].
  destruct (chain_ends _ _ _ _ _ H1) as [_ Hp]. destruct (chain_ends _ _ _ _ _ H2) as [Hn _].
  destruct (Hu _ _ Hp Hn) as (Hn' & Hp' & Hnf & Hpf). clear Hu.
  apply NoDup_cons in Hnd as [Hi Hnd]. apply NoDup_app in Hnd as (Hnd1 & Hdis & Hnd2).
  rewrite not_elem_of_app in Hi. rewrite not_elem_of_cons, not_elem_of_app in Ha, Hb.
  destruct Hi as [Hi1 Hi2]. destruct Ha as (Hai & Ha1 & Ha2). destruct Hb as (Hbi & Hb1 & Hb2).
  set (p := List.last (a :: l1) a) in *. set (n := hd b l2) in *.
  assert (Htail : forall q, nx' q = Some n -> pv' n = Some q ->
            chain nx' pv' q l2 b).
  { intros q Hq1 Hq2. destruct l2 as [|y l2]; [done|]. cbn in H2, Hq1. subst n. cbn in *.
    destruct H2 as (_ & _ & H2). split_and!; [done..|].
    apply NoDup_cons in Hnd2 as [Hy _].
    eapply chain_frame; [| |exact H2].
    - intros j Hj. assert (j ∈ y :: l2) as Hj' by (destruct Hj as [->|]; [by left|by right]).
      apply Hnf; [|set_solver].
      intros ->. destruct (decide (l1 = [])) as [->|Hl1]; [by apply Ha2|].
      apply (Hdis p); [|done]. by apply last_elem.
    - intros j Hj. apply Hpf; [|set_solver]. set_solver. }
  destruct (decide (l1 = [])) as [->|Hne].
  { apply Htail; done. }
  destruct (exists_last Hne) as (l1' & z & ->). rewrite <- app_assoc in *. cbn [app] in *.
  apply chain_app in H1 as [H1 Hz]. cbn in Hz. destruct Hz as [Hz1 Hz2].
  assert (p = z) as Hpz. { rewrite Hz2 in Hp. congruence. }
  clearbody p n. subst p.
  apply chain_app. split; [|by apply Htail].
  eapply chain_frame; [| |exact H1].
  - intros j Hj. apply Hnf; [|set_solver]. rewrite NoDup_app in Hnd1. set_solver.
  - intros j Hj. apply Hpf; [|set_solver].
    intros ->. assert (n ∈ l1' ++ [z]) as Hn1 by set_solver.
    destruct l2 as [|y l2]; [|].
    + cbn in *. assert (n = b) as ->; [|set_solver]. destruct H2. congruence.
    + assert (n = y) as -> by (cbn in H2; destruct H2; congruence). set_solver.
Qed.

(** Putting [i] in after [a]. *)
Lemma chain_link nx pv nx' pv' a i l b :
  i ∉ l -> a ∉ i :: l -> b ∉ i :: l -> NoDup l ->
  chain nx pv a l b ->
  (forall n, nx a = Some n ->
     nx' a = Some i /\ nx' i = Some n /\ pv' i = Some a /\ pv' n = Some i /\
     (forall j, j <> a -> j <> i -> nx' j = nx j) /\ (forall j, j <> n -> j <> i -> pv' j = pv j)) ->
  chain nx' pv' a (i :: l) b.
Proof.
  intros Hi Ha Hb Hnd Hc Hu. destruct (chain_ends _ _ _ _ _ Hc) as [Hn _].
  destruct (Hu _ Hn) as (H1 & H2 & H3 & H4 & Hnf & Hpf). cbn. split_and!; [done..|].
  destruct l as [|y l]; [done|]. cbn in *. destruct Hc as (_ & _ & Hc). split_and!; [done..|].
  apply NoDup_cons in Hnd as [Hy Hnd].
  eapply chain_frame; [| |exact Hc]; intros j Hj; [apply Hnf|apply Hpf]; set_solver.
Qed.

Lemma chain_reverse nx pv a l b : chain nx pv a l b -> chain pv nx b (reverse l) a.
Proof.
  revert a. induction l as [|x l IH]; intros a; cbn [chain]; [cbn; tauto|]. intros (H1 & H2 & H3).
  rewrite reverse_cons. apply chain_app. split; [by apply IH|]. cbn. done.
Qed.

(** ** Links of buffers *)

Lemma nxt_alter_if f k bs j :
  nxt (alter f k bs) j = if decide (j = k) then (fun x => b_next (f x)) <$> bs !! k else nxt bs j.
Proof.
  unfold nxt. case_decide as Hj; [subst; rewrite list_lookup_alter_eq; by destruct (bs !! k)|].
  by rewrite list_lookup_alter_ne.
Qed.

Lemma prv_alter_if f k bs j :
  prv (alter f k bs) j = if decide (j = k) then (fun x => b_prev (f x)) <$> bs !! k else prv bs j.
Proof.
  unfold prv. case_decide as Hj; [subst; rewrite list_lookup_alter_eq; by destruct (bs !! k)|].
  by rewrite list_lookup_alter_ne.
Qed.

(** A change of the buffers that leaves the links alone. *)
Lemma ring_frame bs bs' l :
  (forall i, nxt bs' i = nxt bs i) -> (forall i, prv bs' i = prv bs i) -> ring bs l -> ring bs' l.
Proof. intros Hn Hp [Hc Hl]. split; [|done]. eapply chain_frame; eauto. Qed.

Lemma nxt_alter f k bs j : (forall x, b_next (f x) = b_next x) -> nxt (alter f k bs) j = nxt bs j.
Proof.
  intros Hf. rewrite nxt_alter_if. case_decide as Hj; [subst|done]. unfold nxt.
  destruct (bs !! k); cbn; [by rewrite Hf|done].
Qed.

Lemma prv_alter f k bs j : (forall x, b_prev (f x) = b_prev x) -> prv (alter f k bs) j = prv bs j.
Proof.
  intros Hf. rewrite prv_alter_if. case_decide as Hj; [subst|done]. unfold prv.
  destruct (bs !! k); cbn; [by rewrite Hf|done].
Qed.

(** A buffer without its links. *)
Definition payload (x : buf) : buf := x <| b_prev := 0%nat |> <| b_next := 0%nat |>.

Lemma map_payload_alter f k (bs : list buf) :
  (forall x, payload (f x) = payload x) -> map payload (alter f k bs) = map payload bs.
Proof.
  intros Hf. apply list_eq. intros j. rewrite !list_lookup_fmap.
  destruct (decide (j = k)) as [->|Hj]; [rewrite list_lookup_alter_eq|by rewrite list_lookup_alter_ne].
  destruct (bs !! k); cbn; [by rewrite Hf|done].
Qed.

(** What [brelse] does to the list when the buffer becomes unused. *)
Definition to_front (i : nat) (n p : nat) (bs : list buf) : list buf :=
  let bs1 := alter (fun x => x <| b_prev := p |>) n bs in
  let bs2 := alter (fun x => x <| b_next := n |>) p bs1 in
  match bs2 !! HEAD with
  | Some h =>
      let bs3 := alter (fun x => x <| b_next := b_next h |> <| b_prev := HEAD |>) i bs2 in
      let bs4 := alter (fun x => x <| b_prev := i |>) (b_next h) bs3 in
      alter (fun x => x <| b_next := i |>) HEAD bs4
  | None => bs2
  end.

Lemma to_front_payload i n p bs : map payload (to_front i n p bs) = map payload bs.
Proof.
  unfold to_front. destruct (_ !! HEAD); rewrite ?map_payload_alter; done.
Qed.

Lemma ring_lookup bs l i : ring bs l -> i ∈ l \/ i = HEAD -> is_Some (bs !! i).
Proof.
  intros [Hc _] Hi.
  assert (exists j, nxt bs i = Some j) as [j Hj].
  { destruct Hi as [Hi| ->]; [|destruct (chain_ends _ _ _ _ _ Hc) as [-> _]; eauto].
    apply list_elem_of_split in Hi as (l1 & l2 & ->). apply chain_app in Hc as [_ Hc].
    destruct (chain_ends _ _ _ _ _ Hc) as [-> _]. eauto. }
  unfold nxt in Hj. destruct (bs !! i); [eauto|done].
Qed.

Lemma ring_elem bs l i : ring bs l -> i ∈ l <-> (i < NBUF)%nat.
Proof. intros [_ ->]. rewrite elem_of_seq. lia. Qed.

Lemma is_Some_alter {A : Type} (f : A -> A) k j (l : list A) :
  is_Some (l !! j) -> is_Some (alter f k l !! j).
Proof. rewrite !lookup_lt_is_Some. by rewrite length_alter. Qed.

Lemma nxt_is_Some bs i j : nxt bs i = Some j -> is_Some (bs !! i).
Proof. unfold nxt. destruct (bs !! i); [eauto|done]. Qed.

Lemma prv_is_Some bs i j : prv bs i = Some j -> is_Some (bs !! i).
Proof. unfold prv. destruct (bs !! i); [eauto|done]. Qed.

Lemma fmap_const_Some {A B : Type} (f : A -> B) (o : option A) (b : B) :
  (forall x, f x = b) -> is_Some o -> f <$> o = Some b.
Proof. intros Hf [a ->]. cbn. by rewrite Hf. Qed.

(** The neighbours of a buffer in the list point back at it. *)
Lemma ring_neighbours bs l1 i l2 n p :
  ring bs (l1 ++ i :: l2) -> nxt bs i = Some n -> prv bs i = Some p ->
  nxt bs p = Some i /\ prv bs n = Some i /\ p <> i /\ n <> i.
Proof.
  intros [Hc Hl] Hn Hp.
  assert (NoDup (HEAD :: l1 ++ i :: l2)) as Hnd.
  { rewrite Hl. apply NoDup_cons. split; [rewrite elem_of_seq; lia|apply NoDup_seq]. }
  assert (i <> HEAD) by (intros ->; apply NoDup_cons in Hnd as [Hnd _]; set_solver).
  apply chain_app in Hc as [H1 H2].
  assert (n <> i /\ prv bs n = Some i) as [? ?].
  { destruct l2 as [|y l2]; cbn in H2; destruct H2 as [E H2]; rewrite E in Hn; injection Hn as <-.
    - split; [done|tauto].
    - split; [|tauto]. intros ->. rewrite NoDup_cons, NoDup_app, !NoDup_cons in Hnd. set_solver. }
  assert (p <> i /\ nxt bs p = Some i) as [? ?].
  { destruct (decide (l1 = [])) as [->|Hne].
    - cbn in H1. destruct H1 as [H1 E]. rewrite E in Hp. injection Hp as <-. done.
    - destruct (exists_last Hne) as (l1' & z & ->). apply chain_app in H1 as [_ [H1 E]].
      rewrite E in Hp. injection Hp as <-. split; [|done].
      intros ->. rewrite NoDup_cons, NoDup_app in Hnd. set_solver. }
  done.
Qed.

Lemma ring_to_front bs l1 i l2 n p :
  ring bs (l1 ++ i :: l2) -> nxt bs i = Some n -> prv bs i = Some p ->
  ring (to_front i n p bs) (i :: l1 ++ l2).
Proof.
  intros Hr Hn Hp. pose proof Hr as [Hc Hl].
  destruct (ring_neighbours _ _ _ _ _ _ Hr Hn Hp) as (Hnp & Hpn & Hpi & Hni).
  assert (NoDup (i :: l1 ++ l2)) as Hnd by (rewrite Permutation_middle, Hl; apply NoDup_seq).
  assert (HEAD ∉ i :: l1 ++ l2) as HH by (rewrite Permutation_middle, Hl, elem_of_seq; lia).
  split; [|by rewrite Permutation_middle].
  unfold to_front.
  set (bs1 := alter (fun x => x <| b_prev := p |>) n bs).
  set (bs2 := alter (fun x => x <| b_next := n |>) p bs1).
  assert (HS : forall j, is_Some (bs !! j) -> is_Some (bs2 !! j)) by (intros; by do 2 apply is_Some_alter).
  assert (chain (nxt bs2) (prv bs2) HEAD (l1 ++ l2) HEAD) as Hc2.
  { eapply chain_unlink; [exact Hnd|exact HH|exact HH|exact Hc|].
    intros p' n' Hp' Hn'. assert (p' = p) as -> by congruence. assert (n' = n) as -> by congruence.
    unfold bs2, bs1. split; [|split; [|split]].
    - rewrite nxt_alter_if, decide_True by done. apply fmap_const_Some; [done|].
      apply is_Some_alter. by eapply nxt_is_Some.
    - rewrite prv_alter by done. rewrite prv_alter_if, decide_True by done. apply fmap_const_Some; [done|].
      by eapply prv_is_Some.
    - intros j Hj _. rewrite nxt_alter_if, decide_False by done. by rewrite nxt_alter.
    - intros j Hj _. rewrite prv_alter by done. by rewrite prv_alter_if, decide_False by done. }
  apply NoDup_cons in Hnd as [Hi Hnd].
  destruct (chain_ends _ _ _ _ _ Hc2) as [Hhn _]. set (hn := hd HEAD (l1 ++ l2)) in *.
  destruct (nxt_is_Some _ _ _ Hhn) as [h Eh]. rewrite Eh.
  assert (b_next h = hn) as Hh by (unfold nxt in Hhn; rewrite Eh in Hhn; by injection Hhn).
  rewrite Hh. assert (hn <> i) as Hhi by (subst hn; destruct (l1 ++ l2); set_solver).
  assert (is_Some (bs2 !! i)) as Hi2 by (apply HS; by eapply nxt_is_Some).
  assert (is_Some (bs2 !! hn)) as Hhn2.
  { subst hn. destruct (l1 ++ l2) as [|y l]; [exists h; exact Eh|]. cbn in Hc2.
    destruct Hc2 as (_ & E' & _). by eapply prv_is_Some. }
  eapply chain_link; [exact Hi|exact HH|exact HH|exact Hnd|exact Hc2|].
  intros n' E. assert (n' = hn) as -> by congruence. assert (HEAD <> i) by set_solver.
  split_and!.
  - rewrite nxt_alter_if, decide_True by done. apply fmap_const_Some; [done|]. do 2 apply is_Some_alter. eauto.
  - rewrite nxt_alter_if, decide_False by done. rewrite nxt_alter by done.
    rewrite nxt_alter_if, decide_True by done. by apply fmap_const_Some.
  - rewrite prv_alter by done. rewrite prv_alter_if, decide_False by done.
    rewrite prv_alter_if, decide_True by done. by apply fmap_const_Some.
  - rewrite prv_alter by done. rewrite prv_alter_if, decide_True by done.
    apply fmap_const_Some; [done|]. by apply is_Some_alter.
  - intros j Hj1 Hj2. rewrite nxt_alter_if, decide_False by done. rewrite nxt_alter by done.
    by rewrite nxt_alter_if, decide_False by done.
  - intros j Hj1 Hj2. rewrite prv_alter by done. rewrite prv_alter_if, decide_False by done.
    by rewrite prv_alter_if, decide_False by done.
Qed.

(** ** The two scans of [bget] *)

Definition is_block (bs : list buf) (dev blockno : Z) (i : nat) : bool :=
  match bs !! i with Some x => (b_dev x =? dev) && (b_blockno x =? blockno) | None => false end.

Definition is_unused (bs : list buf) (i : nat) : bool :=
  match bs !! i with Some x => b_refcnt x =? 0 | None => false end.

Lemma find_cached_chain fuel l a dev blockno s :
  chain (nxt (bufs s)) (prv (bufs s)) a l HEAD -> HEAD ∉ l -> (length l < fuel)%nat ->
  find_cached fuel (hd HEAD l) dev blockno s = Ok (List.find (is_block (bufs s) dev blockno) l) s.
Proof.
  revert a fuel. induction l as [|x l IH]; intros a fuel Hc HH Hf; cbn [hd].
  - destruct fuel; cbn [find_cached]; by rewrite decide_True.
  - destruct fuel as [|fuel]; [cbn in Hf; lia|]. cbn [find_cached]. destruct Hc as (_ & _ & Hc).
    rewrite decide_False by set_solver. destruct (chain_ends _ _ _ _ _ Hc) as [Hn _].
    destruct (nxt_is_Some _ _ _ Hn) as [y Hy].
    erewrite bind_ok by (by apply get_at_ok). cbn [List.find]. unfold is_block at 1. rewrite Hy.
    destruct ((b_dev y =? dev) && (b_blockno y =? blockno)) eqn:E; [done|].
    assert (b_next y = hd HEAD l) as -> by (unfold nxt in Hn; rewrite Hy in Hn; by injection Hn).
    eapply IH; [done|set_solver|cbn in Hf; lia].
Qed.

Lemma find_unused_chain fuel l a s :
  chain (prv (bufs s)) (nxt (bufs s)) a l HEAD -> HEAD ∉ l -> (length l < fuel)%nat ->
  find_unused fuel (hd HEAD l) s = Ok (List.find (is_unused (bufs s)) l) s.
Proof.
  revert a fuel. induction l as [|x l IH]; intros a fuel Hc HH Hf; cbn [hd].
  - destruct fuel; cbn [find_unused]; by rewrite decide_True.
  - destruct fuel as [|fuel]; [cbn in Hf; lia|]. cbn [find_unused]. destruct Hc as (_ & _ & Hc).
    rewrite decide_False by set_solver. destruct (chain_ends _ _ _ _ _ Hc) as [Hn _].
    destruct (prv_is_Some _ _ _ Hn) as [y Hy].
    erewrite bind_ok by (by apply get_at_ok). cbn [List.find]. unfold is_unused at 1. rewrite Hy.
    destruct (b_refcnt y =? 0) eqn:E; [done|].
    assert (b_prev y = hd HEAD l) as -> by (unfold prv in Hn; rewrite Hy in Hn; by injection Hn).
    eapply IH; [done|set_solver|cbn in Hf; lia].
Qed.

(** With unique blocks, the scan finds the buffer of the block, if there is one. *)
Lemma ring_length bs l : ring bs l -> length l = NBUF.
Proof. intros [_ ->]. apply length_seq. Qed.

Lemma ring_head bs l : ring bs l -> HEAD ∉ l.
Proof. intros [_ ->]. rewrite elem_of_seq. lia. Qed.

Lemma scan_cached l dev blockno h s :
  ring (bufs s) l -> bufs s !! HEAD = Some h ->
  find_cached (S NBUF) (b_next h) dev blockno s = Ok (List.find (is_block (bufs s) dev blockno) l) s.
Proof.
  intros Hr Hh. pose proof Hr as [Hc _]. destruct (chain_ends _ _ _ _ _ Hc) as [Hn _].
  unfold nxt in Hn. rewrite Hh in Hn. injection Hn as ->.
  eapply find_cached_chain; [exact Hc|by eapply ring_head|].
  rewrite (ring_length _ _ Hr). lia.
Qed.

Lemma scan_unused l h s :
  ring (bufs s) l -> bufs s !! HEAD = Some h ->
  find_unused (S NBUF) (b_prev h) s = Ok (List.find (is_unused (bufs s)) (reverse l)) s.
Proof.
  intros Hr Hh. pose proof Hr as [Hc _]. apply chain_reverse in Hc.
  destruct (chain_ends _ _ _ _ _ Hc) as [Hn _].
  unfold prv in Hn. rewrite Hh in Hn. injection Hn as ->.
  eapply find_unused_chain; [exact Hc| |].
  - rewrite elem_of_reverse. by eapply ring_head.
  - rewrite length_reverse, (ring_length _ _ Hr). lia.
Qed.

(** ** The cache as its clients see it *)

(** Process [pid] runs, nobody waits for a wakeup, and none of the locks that the
    cache and [printk] take is held. *)
Definition quiet_lock (l : lockid) : Prop :=
  match l with L_bcache | L_pr | L_proc _ | L_sl _ => False | _ => True end.

Record fs_env (pid : Z) (s : kstate) : Prop := {
  env_idle : idle s;
  env_running : exists i p, cpu_proc s = Some i /\ procs s !! i = Some p /\ p_pid p = pid;
  env_quiet : Forall quiet_lock (held s);
}.

Definition refs (R : gmap Z nat) (b : Z) : Z := Z.of_nat (default 0%nat (R !! b)).

(** What a buffer with a block of the disk looks like. *)
Record buf_ok (pid : Z) (V : gmap Z (list Z)) (R : gmap Z nat) (h : option nat) (i : nat) (x : buf) : Prop := {
  bo_refcnt : b_refcnt x = refs R (b_blockno x) + match h with Some _ => 1 | None => 0 end;
  bo_lock : match h with
            | Some _ => b_lock x = mkSleeplock true pid
            | None => sl_locked (b_lock x) = false
            end;
  bo_data : b_valid x = true -> V !! b_blockno x = Some (b_data x);
  bo_valid : b_refcnt x <> 0 -> b_valid x = true;
}.

Record cache (pid : Z) (s : kstate) (V : gmap Z (list Z)) (R : gmap Z nat) (H : gmap Z nat) : Prop := {
  c_ring : exists l, ring (bufs s) l;
  c_buf : forall i x, (i < NBUF)%nat -> bufs s !! i = Some x -> b_dev x = ROOTDEV ->
    buf_ok pid V R (H !! b_blockno x) i x;
  c_other : forall i x, (i < NBUF)%nat -> bufs s !! i = Some x -> b_dev x <> ROOTDEV ->
    b_refcnt x = 0 /\ sl_locked (b_lock x) = false;
  c_uniq : forall i j x y, (i < NBUF)%nat -> (j < NBUF)%nat -> bufs s !! i = Some x -> bufs s !! j = Some y ->
    b_dev x = ROOTDEV -> b_dev y = ROOTDEV -> b_blockno x = b_blockno y -> i = j;
  c_refs : forall b, refs R b <> 0 -> exists i x,
    (i < NBUF)%nat /\ bufs s !! i = Some x /\ b_dev x = ROOTDEV /\ b_blockno x = b;
  c_held : forall b i, H !! b = Some i -> exists x,
    (i < NBUF)%nat /\ bufs s !! i = Some x /\ b_dev x = ROOTDEV /\ b_blockno x = b;
  c_clean : forall b, refs R b = 0 -> H !! b = None -> disk s !! b = V !! b;
  c_dom : forall b, is_Some (disk s !! b) <-> is_Some (V !! b);
  c_len : forall b d, V !! b = Some d -> length d = 1024%nat;
  c_small : forall b, refs R b < 2 ^ 31;
}.

Lemma insert_cases {A : Type} i j (x y z : A) (l : list A) :
  l !! i = Some z -> <[i := x]> l !! j = Some y -> (j = i /\ y = x) \/ (j <> i /\ l !! j = Some y).
Proof.
  intros Hi. destruct (decide (j = i)) as [->|Hne].
  - rewrite list_lookup_insert_eq by (by eapply lookup_lt_Some). naive_solver.
  - rewrite list_lookup_insert_ne by done. naive_solver.
Qed.

(** A buffer that keeps its links keeps the list. *)
Lemma ring_insert bs l i x x' :
  bs !! i = Some x -> b_prev x' = b_prev x -> b_next x' = b_next x -> ring bs l -> ring (<[i := x']> bs) l.
Proof.
  intros Hx Hp Hn. assert (i < length bs)%nat by (by eapply lookup_lt_Some).
  apply ring_frame; intros j; unfold nxt, prv; (destruct (decide (j = i)) as [->|Hne];
    [rewrite list_lookup_insert_eq by done; rewrite Hx; cbn; congruence|by rewrite list_lookup_insert_ne]).
Qed.

(** No buffer has block [b]. *)
Definition uncached (bs : list buf) (b : Z) : Prop :=
  forall j y, (j < NBUF)%nat -> bs !! j = Some y -> b_dev y = ROOTDEV -> b_blockno y <> b.

(** A buffer becomes the held buffer of block [b]: it had the block, or it was
    unused and the block was nowhere. *)
Lemma cache_take pid s V R H b d i x x' :
  cache pid s V R H -> (i < NBUF)%nat -> bufs s !! i = Some x ->
  (b_dev x = ROOTDEV /\ b_blockno x = b) \/
  (b_refcnt x = 0 /\ uncached (bufs s) b) ->
  H !! b = None -> V !! b = Some d ->
  b_dev x' = ROOTDEV -> b_blockno x' = b -> b_valid x' = true -> b_data x' = d ->
  b_refcnt x' = refs R b + 1 -> b_lock x' = mkSleeplock true pid ->
  b_prev x' = b_prev x -> b_next x' = b_next x ->
  cache pid (s <| bufs := <[i := x']> (bufs s) |>) V R (<[b := i]> H).
Proof.
  intros HC Hi Hx Hcase Hb Hd E1 E2 E3 E4 E5 E6 E7 E8.
  assert (Hother : forall j y, (j < NBUF)%nat -> j <> i -> bufs s !! j = Some y -> b_dev y = ROOTDEV ->
            b_blockno y <> b).
  { intros j y Hj Hji Hy Hdy Hby. destruct Hcase as [[? ?]|[_ Hf]].
    - apply Hji. eapply (c_uniq _ _ _ _ _ HC); eauto. congruence.
    - by eapply Hf. }
  assert (Hlk := fun j y => insert_cases i j x' y x (bufs s) Hx).
  assert (Hlt : (i < length (bufs s))%nat) by (by eapply lookup_lt_Some).
  assert (Hkeep : forall c, c <> b -> (refs R c <> 0 \/ is_Some (H !! c)) -> forall j y,
            (j < NBUF)%nat -> bufs s !! j = Some y -> b_dev y = ROOTDEV -> b_blockno y = c -> j <> i).
  { intros c Hc Hr j y Hj Hy Hdy Hby ->. assert (y = x) as -> by congruence.
    destruct Hcase as [[? ?]|[Hx0 _]]; [congruence|].
    pose proof (bo_refcnt _ _ _ _ _ _ (c_buf _ _ _ _ _ HC i x Hi Hx Hdy)) as Er. rewrite Hx0, Hby in Er.
    unfold refs in *. destruct Hr as [Hr|[k Hk]]; [destruct (H !! c); lia|rewrite Hk in Er; lia]. }
  split; rs.
  - destruct (c_ring _ _ _ _ _ HC) as [l Hl]. exists l. by apply (ring_insert _ _ _ x).
  - intros j y Hj Hy Hdy. apply Hlk in Hy as [[-> ->]|[Hne Hy]].
    + rewrite E2, lookup_insert_eq. split; rewrite ?E2, ?E4; try done; congruence.
    + rewrite lookup_insert_ne by (symmetry; by eapply Hother). by apply (c_buf _ _ _ _ _ HC).
  - intros j y Hj Hy Hdy. apply Hlk in Hy as [[-> ->]|[Hne Hy]]; [done|].
    by eapply (c_other _ _ _ _ _ HC).
  - intros j k y z Hj Hk Hy Hz Hdy Hdz Heq.
    apply Hlk in Hy as [[-> ->]|[Hne Hy]]; apply Hlk in Hz as [[-> ->]|[Hnz Hz]]; [done| | |].
    + exfalso. eapply (Hother k z); eauto. congruence.
    + exfalso. eapply (Hother j y); eauto. congruence.
    + by eapply (c_uniq _ _ _ _ _ HC).
  - intros c Hc. destruct (decide (c = b)) as [->|Hcb].
    + exists i, x'. rewrite list_lookup_insert_eq by done. done.
    + destruct (c_refs _ _ _ _ _ HC c Hc) as (j & y & Hj & Hy & Hdy & Hby). exists j, y.
      rewrite list_lookup_insert_ne by (symmetry; eapply (Hkeep c); eauto). done.
  - intros c k Hc. destruct (decide (c = b)) as [->|Hcb].
    + rewrite lookup_insert_eq in Hc. injection Hc as <-. exists x'.
      rewrite list_lookup_insert_eq by done. done.
    + rewrite lookup_insert_ne in Hc by done. destruct (c_held _ _ _ _ _ HC c k Hc) as (y & Hj & Hy & Hdy & Hby).
      exists y. rewrite list_lookup_insert_ne by (symmetry; eapply (Hkeep c); eauto). done.
  - intros c Hc Hn. apply (c_clean _ _ _ _ _ HC); [done|].
    destruct (decide (c = b)) as [->|]; [done|]. by rewrite lookup_insert_ne in Hn.
  - apply (c_dom _ _ _ _ _ HC).
  - apply (c_len _ _ _ _ _ HC).
  - apply (c_small _ _ _ _ _ HC).
Qed.

(** A change of the held buffer of block [b], and of what is known about [b]. *)
Lemma cache_change pid s s' V V' R R' H H' b i x x' :
  cache pid s V R H -> H !! b = Some i -> bufs s !! i = Some x ->
  bufs s' = <[i := x']> (bufs s) ->
  b_dev x' = b_dev x -> b_blockno x' = b_blockno x -> b_prev x' = b_prev x -> b_next x' = b_next x ->
  (forall c, c <> b -> V' !! c = V !! c /\ R' !! c = R !! c /\ H' !! c = H !! c /\ disk s' !! c = disk s !! c) ->
  (forall k, H' !! b = Some k -> k = i) ->
  buf_ok pid V' R' (H' !! b) i x' ->
  (refs R' b = 0 -> H' !! b = None -> disk s' !! b = V' !! b) ->
  (exists d, V' !! b = Some d /\ length d = 1024%nat) -> is_Some (disk s' !! b) -> refs R' b < 2 ^ 31 ->
  cache pid s' V' R' H'.
Proof.
  intros HC Hb Hx Es Ed Eb Ep En Hsame Hk Hok Hcl (d & HV & Hlen) Hdb Hsm.
  destruct (c_held _ _ _ _ _ HC b i Hb) as (x0 & Hi & Hx0 & Hdx & Hbx).
  assert (x0 = x) as -> by congruence.
  assert (Hlk := fun j y => insert_cases i j x' y x (bufs s) Hx). rewrite <- Es in Hlk.
  assert (Hi' : bufs s' !! i = Some x')
    by (rewrite Es; apply list_lookup_insert_eq; by eapply lookup_lt_Some).
  assert (Hj' : forall j y, j <> i -> bufs s !! j = Some y -> bufs s' !! j = Some y)
    by (intros j y Hj Hy; rewrite Es; by rewrite list_lookup_insert_ne).
  assert (Hother : forall j y, (j < NBUF)%nat -> j <> i -> bufs s !! j = Some y -> b_dev y = ROOTDEV ->
            b_blockno y <> b).
  { intros j y Hj Hji Hy Hdy Hby. apply Hji. eapply (c_uniq _ _ _ _ _ HC); eauto. congruence. }
  assert (Hrefs : forall c, c <> b -> refs R' c = refs R c)
    by (intros c Hc; unfold refs; by destruct (Hsame c Hc) as (_ & -> & _)).
  split.
  - rewrite Es. destruct (c_ring _ _ _ _ _ HC) as [l Hl]. exists l. by apply (ring_insert _ _ _ x).
  - intros j y Hj Hy Hdy. apply Hlk in Hy as [[-> ->]|[Hne Hy]].
    + rewrite Eb, Hbx. done.
    + assert (Hc := Hother _ _ Hj Hne Hy Hdy). destruct (Hsame _ Hc) as (EV & ER & EH & _).
      rewrite EH. destruct (c_buf _ _ _ _ _ HC j y Hj Hy Hdy) as [O1 O2 O3 O4].
      split; [by rewrite Hrefs|done|by rewrite EV|done].
  - intros j y Hj Hy Hdy. apply Hlk in Hy as [[-> ->]|[Hne Hy]]; [congruence|].
    by eapply (c_other _ _ _ _ _ HC).
  - intros j k y z Hj Hk' Hy Hz Hdy Hdz Heq.
    apply Hlk in Hy as [[-> ->]|[Hne Hy]]; apply Hlk in Hz as [[-> ->]|[Hnz Hz]]; [done| | |].
    + exfalso. eapply (Hother k z); eauto. congruence.
    + exfalso. eapply (Hother j y); eauto. congruence.
    + by eapply (c_uniq _ _ _ _ _ HC).
  - intros c Hc. destruct (decide (c = b)) as [->|Hcb].
    + exists i, x'. split_and!; [done|done|congruence|congruence].
    + rewrite Hrefs in Hc by done.
      destruct (c_refs _ _ _ _ _ HC c Hc) as (j & y & Hj & Hy & Hdy & Hby). exists j, y.
      split_and!; [done| |done|done]. apply Hj'; [|done]. intros ->. congruence.
  - intros c k Hc. destruct (decide (c = b)) as [->|Hcb].
    + rewrite (Hk k Hc). exists x'. split_and!; [done|done|congruence|congruence].
    + destruct (Hsame c Hcb) as (_ & _ & EH & _). rewrite EH in Hc.
      destruct (c_held _ _ _ _ _ HC c k Hc) as (y & Hj & Hy & Hdy & Hby).
      exists y. split_and!; [done| |done|done]. apply Hj'; [|done]. intros ->. congruence.
  - intros c Hc Hn. destruct (decide (c = b)) as [->|Hcb]; [by apply Hcl|].
    destruct (Hsame c Hcb) as (-> & _ & EH & ->). rewrite Hrefs in Hc by done.
    apply (c_clean _ _ _ _ _ HC); [done|]. by rewrite <- EH.
  - intros c. destruct (decide (c = b)) as [->|Hcb]; [by rewrite HV|].
    destruct (Hsame c Hcb) as (-> & _ & _ & ->). apply (c_dom _ _ _ _ _ HC).
  - intros c d' Hd'. destruct (decide (c = b)) as [->|Hcb]; [congruence|].
    destruct (Hsame c Hcb) as (E & _). rewrite E in Hd'. by eapply (c_len _ _ _ _ _ HC).
  - intros c. destruct (decide (c = b)) as [->|Hcb]; [done|]. rewrite Hrefs by done.
    apply (c_small _ _ _ _ _ HC).
Qed.

(** The order of the list does not matter. *)
Lemma cache_links pid s s' V R H l :
  cache pid s V R H -> map payload (bufs s') = map payload (bufs s) -> ring (bufs s') l ->
  disk s' = disk s -> cache pid s' V R H.
Proof.
  intros HC Hp Hl Hd.
  assert (Hlk : forall j y, bufs s' !! j = Some y -> exists x, bufs s !! j = Some x /\ payload y = payload x).
  { intros j y Hy. assert (map payload (bufs s') !! j = Some (payload y)) as E
      by (by rewrite list_lookup_fmap, Hy). rewrite Hp, list_lookup_fmap in E.
    destruct (bufs s !! j) as [x|]; [|done]. exists x. cbn in E. split; congruence. }
  assert (Hlk' : forall j x, bufs s !! j = Some x -> exists y, bufs s' !! j = Some y /\ payload y = payload x).
  { intros j x Hx. assert (map payload (bufs s) !! j = Some (payload x)) as E
      by (by rewrite list_lookup_fmap, Hx). rewrite <- Hp, list_lookup_fmap in E.
    destruct (bufs s' !! j) as [y|]; [|done]. exists y. cbn in E. split; congruence. }
  assert (HP : forall x y, payload y = payload x -> b_dev y = b_dev x /\ b_blockno y = b_blockno x /\
     b_refcnt y = b_refcnt x /\ b_lock y = b_lock x /\ b_valid y = b_valid x /\ b_data y = b_data x).
  { intros [] []. unfold payload. cbn. intros [=]. done. }
  split; rewrite ?Hd.
  - by exists l.
  - intros i y Hi Hy Hdy. destruct (Hlk i y Hy) as (x & Hx & E). destruct (HP _ _ E) as (E1 & E2 & E3 & E4 & E5 & E6).
    destruct (c_buf _ _ _ _ _ HC i x Hi Hx) as [O1 O2 O3 O4]; [congruence|].
    rewrite E2. split; rewrite ?E2, ?E3, ?E4, ?E5, ?E6; done.
  - intros i y Hi Hy Hdy. destruct (Hlk i y Hy) as (x & Hx & E). destruct (HP _ _ E) as (E1 & E2 & E3 & E4 & E5 & E6).
    rewrite E3, E4. eapply (c_other _ _ _ _ _ HC); eauto. congruence.
  - intros i j y z Hi Hj Hy Hz Hdy Hdz Heq.
    destruct (Hlk i y Hy) as (x & Hx & E). destruct (Hlk j z Hz) as (w & Hw & E').
    destruct (HP _ _ E) as (? & ? & _). destruct (HP _ _ E') as (? & ? & _).
    eapply (c_uniq _ _ _ _ _ HC); eauto; congruence.
  - intros b Hb. destruct (c_refs _ _ _ _ _ HC b Hb) as (i & x & Hi & Hx & Hdx & Hbx).
    destruct (Hlk' i x Hx) as (y & Hy & E). destruct (HP _ _ E) as (? & ? & _).
    exists i, y. split_and!; congruence.
  - intros b i Hb. destruct (c_held _ _ _ _ _ HC b i Hb) as (x & Hi & Hx & Hdx & Hbx).
    destruct (Hlk' i x Hx) as (y & Hy & E). destruct (HP _ _ E) as (? & ? & _).
    exists y. split_and!; congruence.
  - apply (c_clean _ _ _ _ _ HC).
  - apply (c_dom _ _ _ _ _ HC).
  - apply (c_len _ _ _ _ _ HC).
  - apply (c_small _ _ _ _ _ HC).
Qed.

(** ** Operations *)

(** The held buffer of a block. *)
Lemma cache_held pid s V R H b i :
  cache pid s V R H -> H !! b = Some i ->
  exists x, (i < NBUF)%nat /\ bufs s !! i = Some x /\ b_dev x = ROOTDEV /\ b_blockno x = b /\
    V !! b = Some (b_data x) /\ b_lock x = mkSleeplock true pid /\ b_valid x = true /\
    b_refcnt x = refs R b + 1.
Proof.
  intros HC Hb. destruct (c_held _ _ _ _ _ HC b i Hb) as (x & Hi & Hx & Hdx & Hbx).
  exists x. destruct (c_buf _ _ _ _ _ HC i x Hi Hx Hdx) as [O1 O2 O3 O4]. rewrite Hbx, Hb in *.
  assert (b_refcnt x <> 0) by (rewrite O1; unfold refs; lia). split_and!; auto.
Qed.

Lemma quiet_bcache h : Forall quiet_lock h -> L_bcache ∉ h.
Proof. intros Hq Hin. by apply (proj1 (Forall_forall _ _) Hq) in Hin. Qed.

Lemma quiet_sl h l : Forall quiet_lock h -> L_sl l ∉ h.
Proof. intros Hq Hin. by apply (proj1 (Forall_forall _ _) Hq) in Hin. Qed.

Lemma quiet_pr h : Forall quiet_lock h -> L_pr ∉ h.
Proof. intros Hq Hin. by apply (proj1 (Forall_forall _ _) Hq) in Hin. Qed.

Lemma quiet_proc h i : Forall quiet_lock h -> L_proc i ∉ h.
Proof. intros Hq Hin. by apply (proj1 (Forall_forall _ _) Hq) in Hin. Qed.

(** A state that differs in the buffers, the disk and what the log and the file
    system own. *)
Lemma fs_env_frame pid s s' :
  procs s' = procs s -> cpu_proc s' = cpu_proc s -> held s' = held s -> fs_env pid s -> fs_env pid s'.
Proof. intros E1 E2 E3 [H1 H2 H3]. split; unfold idle in *; rewrite ?E1, ?E2, ?E3; done. Qed.

(** A block that is referenced nowhere leaves a buffer unused, as long as fewer
    than [NBUF] blocks are in use. *)
Lemma unused_buffer pid s V R H l :
  cache pid s V R H -> ring (bufs s) l -> (size (dom R ∪ dom H) < NBUF)%nat ->
  exists i, List.find (is_unused (bufs s)) (reverse l) = Some i.
Proof.
  intros HC Hl Hsz. destruct (List.find _ _) as [i|] eqn:E; [eauto|]. exfalso.
  assert (Hused : forall i, (i < NBUF)%nat -> exists x, bufs s !! i = Some x /\ b_refcnt x <> 0).
  { intros i Hi. destruct (ring_lookup _ _ i Hl) as [x Hx]; [left; by apply (ring_elem _ _ i Hl)|].
    exists x. split; [done|]. assert (is_unused (bufs s) i = false) as Hu.
    { eapply List.find_none; [exact E|]. apply list_elem_of_In, elem_of_reverse. by apply (ring_elem _ _ i Hl). }
    unfold is_unused in Hu. rewrite Hx in Hu. by apply Z.eqb_neq. }
  set (blk i := default 0 (b_blockno <$> bufs s !! i)).
  assert (blk <$> seq 0 NBUF ⊆+ elements (dom R ∪ dom H)) as Hsub.
  { apply NoDup_submseteq.
    - apply NoDup_fmap_2_strong; [|apply NoDup_seq].
      intros i j Hi%elem_of_seq Hj%elem_of_seq Hij.
      destruct (Hused i) as (x & Hx & Hrx); [lia|]. destruct (Hused j) as (y & Hy & Hry); [lia|].
      unfold blk in Hij. rewrite Hx, Hy in Hij. cbn in Hij.
      destruct (decide (b_dev x = ROOTDEV)) as [|Hd1];
        [|by destruct (c_other _ _ _ _ _ HC i x); [lia|..]].
      destruct (decide (b_dev y = ROOTDEV)) as [|Hd2];
        [|by destruct (c_other _ _ _ _ _ HC j y); [lia|..]].
      eapply (c_uniq _ _ _ _ _ HC i j x y); eauto; lia.
    - intros b (i & -> & Hi%elem_of_seq)%list_elem_of_fmap.
      destruct (Hused i) as (x & Hx & Hrx); [lia|]. unfold blk. rewrite Hx. cbn.
      destruct (decide (b_dev x = ROOTDEV)) as [|Hd1];
        [|by destruct (c_other _ _ _ _ _ HC i x); [lia|..]].
      destruct (c_buf _ _ _ _ _ HC i x) as [O1 _ _ _]; [lia|done..|].
      apply elem_of_elements, elem_of_union. rewrite !elem_of_dom. unfold refs in O1.
      destruct (H !! b_blockno x); [right; eauto|].
      destruct (R !! b_blockno x); [left; eauto|cbn in O1; lia]. }
  apply submseteq_length in Hsub. rewrite length_fmap, length_seq in Hsub.
  unfold size, set_size in Hsz. cbn in Hsz. lia.
Qed.

(** The scan for a block. *)
Lemma find_block bs l b :
  ring bs l ->
  match List.find (is_block bs ROOTDEV b) l with
  | Some i => exists x, (i < NBUF)%nat /\ bs !! i = Some x /\ b_dev x = ROOTDEV /\ b_blockno x = b
  | None => uncached bs b
  end.
Proof.
  intros Hl. destruct (List.find _ _) as [i|] eqn:E.
  - apply List.find_some in E as [Hi Hb]. unfold is_block in Hb. destruct (bs !! i) as [x|]; [|done].
    apply andb_true_iff in Hb as [H1%Z.eqb_eq H2%Z.eqb_eq]. exists x.
    split_and!; try done. apply (ring_elem _ _ i Hl). by apply list_elem_of_In.
  - intros j y Hj Hy Hd Hb.
    assert (is_block bs ROOTDEV b j = false) as Hf.
    { eapply List.find_none; [exact E|]. apply list_elem_of_In. by apply (ring_elem _ _ j Hl). }
    unfold is_block in Hf. rewrite Hy, Hd, Hb, !Z.eqb_refl in Hf. done.
Qed.

Section ops.
Context {F : Fuel}.

Lemma getbuf_ok i x s : bufs s !! i = Some x -> getbuf i s = Ok x s.
Proof. apply get_at_ok. Qed.

Lemma updbuf_ok i f x s :
  bufs s !! i = Some x -> updbuf i f s = Ok tt (s <| bufs := <[i := f x]> (bufs s) |>).
Proof. intros Hx. unfold updbuf, modify. by rewrite (alter_insert f i (bufs s) x Hx). Qed.

(** The end of [bget]: release the cache lock and lock the buffer. *)
Lemma bget_lock pid i x s h :
  fs_env pid (s <| held := h |>) -> held s = L_bcache :: h -> bufs s !! i = Some x ->
  sl_locked (b_lock x) = false ->
  (release L_bcache ;; acquiresleep (SL_buf i) ;; ret i) s =
    Ok i (s <| held := h |> <| bufs := <[i := x <| b_lock := mkSleeplock true pid |>]> (bufs s) |>).
Proof.
  intros [He (p & pr & Hp & Hpr & <-) Hq] Hh Hx Hl. rs_in Hp. rs_in Hpr. rs_in Hq.
  erewrite bind_ok by (eapply release_ok; [exact Hh|by apply quiet_bcache]).
  erewrite bind_ok.
  2: { eapply (acquiresleep_ok (SL_buf i) (b_lock x) p pr); cbn; rs; try done.
       - by rewrite Hx.
       - by apply quiet_sl. }
  apply Ok_eq; [done|]. cbn [set_sl]. rs.
  by rewrite (alter_insert _ i (bufs s) x Hx).
Qed.

(** [bget] of a block that is cached or for which there is room: the buffer [x]
    it chose and what it made of it. *)
Lemma bget_ok pid b d s V R H :
  cache pid s V R H -> fs_env pid s -> V !! b = Some d -> H !! b = None ->
  refs R b <> 0 \/ (size (dom R ∪ dom H) < NBUF)%nat ->
  exists i x x', (i < NBUF)%nat /\ bufs s !! i = Some x /\
    bget ROOTDEV b s = Ok i (s <| bufs := <[i := x']> (bufs s) |>) /\
    ((b_dev x = ROOTDEV /\ b_blockno x = b) \/ (b_refcnt x = 0 /\ uncached (bufs s) b)) /\
    b_dev x' = ROOTDEV /\ b_blockno x' = b /\ b_refcnt x' = refs R b + 1 /\
    b_lock x' = mkSleeplock true pid /\ b_prev x' = b_prev x /\ b_next x' = b_next x /\
    (b_valid x' = true -> b_data x' = d) /\ (b_valid x' = false -> refs R b = 0).
Proof.
  intros HC HE Hd Hb Hroom. destruct (c_ring _ _ _ _ _ HC) as [l Hl].
  destruct (ring_lookup _ _ HEAD Hl) as [h Hh]; [by right|].
  pose proof (quiet_bcache _ (env_quiet _ _ HE)) as Hq.
  set (s1 := s <| held := L_bcache :: held s |>).
  assert (HE1 : forall bs, fs_env pid ((s1 <| bufs := bs |>) <| held := held s |>))
    by (intros bs; by apply (fs_env_frame pid s)).
  assert (Hfin : forall bs, s1 <| bufs := bs |> <| held := held s |> = s <| bufs := bs |>)
    by (intros bs; unfold s1; destruct s; reflexivity).
  unfold bget. run (acquire_ok _ s Hq). fold s1.
  erewrite bind_ok by (apply (getbuf_ok HEAD h s1); unfold s1; by rs).
  erewrite bind_ok by (apply (scan_cached l); unfold s1; by rs).
  change (bufs s1) with (bufs s). pose proof (find_block (bufs s) l b Hl) as Hf.
  destruct (List.find (is_block _ _ _) l) as [i|] eqn:Ef.
  - destruct Hf as (x & Hi & Hx & Hdx & Hbx).
    destruct (c_buf _ _ _ _ _ HC i x Hi Hx Hdx) as [O1 O2 O3 O4]. rewrite Hbx, Hb in *.
    set (x1 := x <| b_refcnt := u32 (b_refcnt x + 1) |>).
    exists i, x, (x1 <| b_lock := mkSleeplock true pid |>).
    split; [done|]. split; [done|]. split; [|split; [by left|]].
    + erewrite bind_ok by (by apply (updbuf_ok i _ x s1)). fold x1.
      rewrite (bget_lock pid i x1 _ (held s)); rs; [|apply HE1|done|by apply list_lookup_insert_eq; eapply lookup_lt_Some|done].
      rewrite list_insert_insert_eq, Hfin. done.
    + unfold x1. rs. split_and!; try done.
      * rewrite O1. pose proof (c_small _ _ _ _ _ HC b). rewrite u32_small; unfold refs in *; lia.
      * intros Hv. specialize (O3 Hv). congruence.
      * intros Hv. destruct (Z.eq_dec (b_refcnt x) 0) as [Hz|Hz]; [lia|]. rewrite O4 in Hv; done.
  - assert (refs R b = 0) as Hr0.
    { destruct (Z.eq_dec (refs R b) 0) as [|Hr]; [done|]. exfalso.
      destruct (c_refs _ _ _ _ _ HC b Hr) as (i & x & Hi & Hx & Hdx & Hbx). by eapply (Hf i x). }
    destruct Hroom as [|Hroom]; [done|].
    destruct (unused_buffer _ _ _ _ _ _ HC Hl Hroom) as [i Hu].
    erewrite bind_ok by (apply (scan_unused l); unfold s1; by rs).
    change (bufs s1) with (bufs s). rewrite Hu.
    apply List.find_some in Hu as [Hin Hux]. apply list_elem_of_In, elem_of_reverse, (ring_elem _ _ _ Hl) in Hin.
    unfold is_unused in Hux. destruct (bufs s !! i) as [x|] eqn:Hx; [|done]. apply Z.eqb_eq in Hux.
    assert (sl_locked (b_lock x) = false) as Hlk.
    { destruct (decide (b_dev x = ROOTDEV)) as [Hdx|Hdx]; [|by apply (c_other _ _ _ _ _ HC i x)].
      destruct (c_buf _ _ _ _ _ HC i x Hin Hx Hdx) as [O1 O2 _ _].
      destruct (H !! b_blockno x); [unfold refs in *; lia|done]. }
    set (x1 := x <| b_dev := ROOTDEV |> <| b_blockno := b |> <| b_valid := false |> <| b_refcnt := 1 |>).
    exists i, x, (x1 <| b_lock := mkSleeplock true pid |>).
    split; [done|]. split; [done|]. split; [|split; [by right|]].
    + erewrite bind_ok by (by apply (updbuf_ok i _ x s1)). fold x1.
      rewrite (bget_lock pid i x1 _ (held s)); rs; [|apply HE1|done|by apply list_lookup_insert_eq; eapply lookup_lt_Some|done].
      rewrite list_insert_insert_eq, Hfin. done.
    + unfold x1. rs. rewrite Hr0. done.
Qed.

(** [bread] returns the held buffer of the block, with its contents. *)
Lemma bread_ok pid b d s V R H :
  cache pid s V R H -> fs_env pid s -> V !! b = Some d -> H !! b = None ->
  refs R b <> 0 \/ (size (dom R ∪ dom H) < NBUF)%nat ->
  exists i bs, bread ROOTDEV b s = Ok i (s <| bufs := bs |>) /\
    cache pid (s <| bufs := bs |>) V R (<[b := i]> H).
Proof.
  intros HC HE Hd Hb Hroom.
  destruct (bget_ok pid b d s V R H HC HE Hd Hb Hroom)
    as (i & x & x' & Hi & Hx & Hg & Hcase & E1 & E2 & E3 & E4 & E5 & E6 & E7 & E8).
  assert (Hx' : <[i := x']> (bufs s) !! i = Some x') by (apply list_lookup_insert_eq; by eapply lookup_lt_Some).
  unfold bread. run Hg. erewrite bind_ok by (apply getbuf_ok; rs; exact Hx').
  destruct (b_valid x') eqn:Ev.
  - eexists i, _. split; [reflexivity|]. eapply cache_take; eauto.
  - cbn [negb when]. assert (disk s !! b = Some d) as Hdd
      by (rewrite (c_clean _ _ _ _ _ HC); auto).
    set (s1 := s <| bufs := _ |>).
    assert (disk_rw i false s1 = Ok tt (s1 <| bufs := <[i := x' <| b_data := d |>]> (bufs s1) |>)) as Hrw.
    { unfold disk_rw. erewrite bind_ok by (by apply getbuf_ok). rewrite bind_gets. unfold s1. rs.
      rewrite E2, Hdd. by rewrite (updbuf_ok i _ x') by (by rs). }
    eexists i, _. split.
    + unfold when. erewrite bind_ok.
      2: { run Hrw. apply (updbuf_ok i _ (x' <| b_data := d |>)). unfold s1. rs.
           apply list_lookup_insert_eq. rewrite length_insert. by eapply lookup_lt_Some. }
      unfold s1. rs. rewrite !list_insert_insert_eq. unfold ret. reflexivity.
    + eapply cache_take; rs; eauto.
Qed.

Lemma bdata_ok pid s V R H b i d :
  cache pid s V R H -> H !! b = Some i -> V !! b = Some d -> bdata i s = Ok d s.
Proof.
  intros HC Hb Hd. destruct (cache_held _ _ _ _ _ _ _ HC Hb) as (x & _ & Hx & _ & _ & Hv & _).
  unfold bdata. erewrite bind_ok by (by apply getbuf_ok). unfold ret. congruence.
Qed.

(** Storing to the data of a held buffer changes the contents of its block. *)
Lemma set_bdata_ok pid s V R H b i d f :
  cache pid s V R H -> H !! b = Some i -> V !! b = Some d -> length (f d) = 1024%nat ->
  exists bs, set_bdata i f s = Ok tt (s <| bufs := bs |>) /\
    cache pid (s <| bufs := bs |>) (<[b := f d]> V) R H.
Proof.
  intros HC Hb Hd Hlen.
  destruct (cache_held _ _ _ _ _ _ _ HC Hb) as (x & Hi & Hx & Hdx & Hbx & Hv & Hlk & Hval & Hr).
  assert (b_data x = d) as Ed by congruence.
  eexists. split; [by apply (updbuf_ok i _ x)|]. cbv beta. rewrite Ed.
  eapply (cache_change pid s _ V _ R R H H b i x); try done; rs; try done.
  - intros c Hc. rewrite lookup_insert_ne by done. done.
  - intros k Hk. congruence.
  - rewrite Hb. split; rs; [by rewrite Hbx|done| |done]. intros _. by rewrite Hbx, lookup_insert_eq.
  - by rewrite Hb.
  - rewrite lookup_insert_eq. eauto.
  - apply (c_dom _ _ _ _ _ HC). eauto.
  - apply (c_small _ _ _ _ _ HC).
Qed.

(** The held buffer is held in the sense of [holdingsleep]. *)
Lemma holding_buf pid s V R H b i :
  cache pid s V R H -> fs_env pid s -> H !! b = Some i -> holdingsleep (SL_buf i) s = Ok true s.
Proof.
  intros HC [_ (p & pr & Hp & Hpr & Hpid) Hq] Hb.
  destruct (cache_held _ _ _ _ _ _ _ HC Hb) as (x & _ & Hx & _ & _ & _ & Hlk & _).
  erewrite holdingsleep_ok; [|cbn; by rewrite Hx|by apply quiet_sl|exact Hp|exact Hpr].
  rewrite Hlk. cbn. by rewrite Hpid, Z.eqb_refl.
Qed.

Lemma bwrite_ok pid s V R H b i d :
  cache pid s V R H -> fs_env pid s -> H !! b = Some i -> V !! b = Some d ->
  let s' := s <| disk := <[b := d]> (disk s) |> <| dtrace := dtrace s ++ [(b, d)] |> in
  bwrite i s = Ok tt s' /\ cache pid s' V R H.
Proof.
  intros HC HE Hb Hd.
  destruct (cache_held _ _ _ _ _ _ _ HC Hb) as (x & Hi & Hx & Hdx & Hbx & Hv & Hlk & Hval & Hr).
  assert (b_data x = d) as Ed by congruence.
  destruct (proj2 (c_dom _ _ _ _ _ HC b)) as [d0 Hd0]; [eauto|]. split.
  - unfold bwrite. run (holding_buf _ _ _ _ _ _ _ HC HE Hb). rewrite bind_panic_if by done.
    unfold disk_rw. erewrite bind_ok by (by apply getbuf_ok). rewrite bind_gets.
    rewrite Hbx, Hd0, Ed. done.
  - eapply (cache_change pid s _ V V R R H H b i x x); try done; rs; try done.
    + by rewrite list_insert_id.
    + intros c Hc. by rewrite lookup_insert_ne.
    + intros k Hk. congruence.
    + rewrite Hb. pose proof (c_buf _ _ _ _ _ HC i x Hi Hx Hdx) as O. by rewrite Hbx, Hb in O.
    + by rewrite Hb.
    + exists d. split; [done|]. by eapply (c_len _ _ _ _ _ HC).
    + rewrite lookup_insert_eq. eauto.
    + apply (c_small _ _ _ _ _ HC).
Qed.

(** The moves of the linked list in [brelse]. *)
Lemma move_front i x l s :
  ring (bufs s) l -> (i < NBUF)%nat -> bufs s !! i = Some x ->
  (updbuf (b_next x) (fun y => y <| b_prev := b_prev x |>) ;;
   updbuf (b_prev x) (fun y => y <| b_next := b_next x |>) ;;
   h <- getbuf HEAD ;;
   updbuf i (fun y => y <| b_next := b_next h |> <| b_prev := HEAD |>) ;;
   updbuf (b_next h) (fun y => y <| b_prev := i |>) ;;
   updbuf HEAD (fun y => y <| b_next := i |>)) s =
    Ok tt (s <| bufs := to_front i (b_next x) (b_prev x) (bufs s) |>) /\
  exists l', ring (to_front i (b_next x) (b_prev x) (bufs s)) l'.
Proof.
  intros Hl Hi Hx. split.
  - unfold updbuf. rewrite !bind_modify. rs. unfold to_front.
    set (bs2 := alter _ (b_prev x) _).
    assert (is_Some (bs2 !! HEAD)) as [h Hh].
    { do 2 apply is_Some_alter. apply (ring_lookup _ _ _ Hl). by right. }
    erewrite bind_ok by (apply getbuf_ok; rs; exact Hh). rewrite !bind_modify. rewrite Hh.
    apply Ok_eq; [done|]. rs. by destruct s.
  - apply (ring_elem _ _ i Hl), list_elem_of_split in Hi as (l1 & l2 & ->).
    exists (i :: l1 ++ l2). apply ring_to_front; [done|..].
    + unfold nxt. by rewrite Hx.
    + unfold prv. by rewrite Hx.
Qed.

(** [brelse] lets go of a buffer: one that is still referenced, or whose contents
    are on the disk. *)
Lemma brelse_ok pid s V R H b i :
  cache pid s V R H -> fs_env pid s -> H !! b = Some i ->
  refs R b <> 0 \/ disk s !! b = V !! b ->
  exists bs, brelse i s = Ok tt (s <| bufs := bs |>) /\ cache pid (s <| bufs := bs |>) V R (delete b H).
Proof.
  intros HC HE Hb Hclean.
  destruct (cache_held _ _ _ _ _ _ _ HC Hb) as (x & Hi & Hx & Hdx & Hbx & Hv & Hlk & Hval & Hr).
  pose proof (env_quiet _ _ HE) as Hq.
  assert (Hlt : (i < length (bufs s))%nat) by (by eapply lookup_lt_Some).
  set (x1 := x <| b_lock := mkSleeplock false 0 |> <| b_refcnt := refs R b |>).
  set (bs1 := <[i := x1]> (bufs s)).
  assert (HC1 : cache pid (s <| bufs := bs1 |>) V R (delete b H)).
  { eapply (cache_change pid s _ V V R R H _ b i x x1); try done; rs; try done.
    - intros c Hc. by rewrite lookup_delete_ne.
    - intros k. by rewrite lookup_delete_eq.
    - rewrite lookup_delete_eq. unfold x1. split; rs; [by rewrite Hbx; lia|done|by rewrite Hbx|done].
    - intros Hz _. destruct Hclean; [done|]. done.
    - rewrite Hv. eexists. split; [done|]. by eapply (c_len _ _ _ _ _ HC).
    - apply (c_dom _ _ _ _ _ HC). eauto.
    - apply (c_small _ _ _ _ _ HC). }
  assert (Hx1 : bs1 !! i = Some x1) by (by apply list_lookup_insert_eq).
  unfold brelse. run (holding_buf _ _ _ _ _ _ _ HC HE Hb). rewrite bind_panic_if by done.
  erewrite bind_ok.
  2: { apply (releasesleep_idle (SL_buf i) (b_lock x)); [cbn; by rewrite Hx|by apply quiet_sl| |by apply HE].
       intros j. by apply quiet_proc. }
  cbn [set_sl]. rewrite (alter_insert _ i (bufs s) x Hx).
  erewrite bind_ok by (apply acquire_ok; rs; by apply quiet_bcache).
  erewrite bind_ok.
  2: { apply (updbuf_ok i _ (x <| b_lock := mkSleeplock false 0 |>)). rs. by apply list_lookup_insert_eq. }
  rs. rewrite list_insert_insert_eq.
  assert (u32 (b_refcnt x - 1) = refs R b) as Er.
  { rewrite Hr. pose proof (c_small _ _ _ _ _ HC b). rewrite u32_small; unfold refs in *; lia. }
  rewrite Er. fold x1 bs1. erewrite bind_ok by (apply getbuf_ok; rs; exact Hx1).
  destruct (b_refcnt x1 =? 0) eqn:Ez.
  - destruct (c_ring _ _ _ _ _ HC1) as [l Hl]. rs_in Hl.
    destruct (move_front i x1 l (s <| bufs := bs1 |> <| held := L_bcache :: held s |>)) as [Hm [l' Hl']];
      rs; try done. rs_in Hl'.
    eexists. split; [|eapply cache_links; [exact HC1| |rs; exact Hl'|done]; rs; apply to_front_payload].
    cbn [when]. match goal with |- bind ?m _ ?t = _ => replace t with
      (s <| bufs := bs1 |> <| held := L_bcache :: held s |>) by (by destruct s) end.
    run Hm. rs. rewrite (release_ok _ (held s)) by (first [by apply quiet_bcache | by rs]). apply Ok_eq; [done|].
    by destruct s.
  - eexists. split; [|exact HC1]. cbn [when]. rewrite bind_ret.
    rewrite (release_ok _ (held s)) by (first [by apply quiet_bcache | by rs]). apply Ok_eq; [done|]. by destruct s.
Qed.

(** A reference count changes under the cache lock. *)
Lemma refcnt_change pid s V R R' H b i x g :
  cache pid s V R H -> fs_env pid s -> H !! b = Some i -> bufs s !! i = Some x ->
  (forall c, c <> b -> R' !! c = R !! c) -> g (b_refcnt x) = refs R' b + 1 -> refs R' b < 2 ^ 31 ->
  exists bs,
    (acquire L_bcache ;; updbuf i (fun b => b <| b_refcnt := g (b_refcnt b) |>) ;; release L_bcache) s =
      Ok tt (s <| bufs := bs |>) /\
    cache pid (s <| bufs := bs |>) V R' H.
Proof.
  intros HC HE Hb Hx HR Hg Hsm.
  destruct (cache_held _ _ _ _ _ _ _ HC Hb) as (y & Hi & Hy & Hdx & Hbx & Hv & Hlk & Hval & Hr).
  assert (y = x) as -> by congruence.
  pose proof (quiet_bcache _ (env_quiet _ _ HE)) as Hq.
  exists (<[i := x <| b_refcnt := g (b_refcnt x) |>]> (bufs s)). split.
  - run (acquire_ok _ s Hq). erewrite bind_ok by (apply (updbuf_ok i _ x); by rs).
    rewrite (release_ok _ (held s)) by (first [exact Hq | by rs]). apply Ok_eq; [done|]. rs. by destruct s.
  - eapply (cache_change pid s _ V V R R' H H b i x); try done; rs; try done.
    + intros c Hc. by rewrite HR.
    + intros k Hk. congruence.
    + rewrite Hb. split; rs; [by rewrite Hbx|done|by rewrite Hbx|done].
    + by rewrite Hb.
    + rewrite Hv. eexists. split; [done|]. by eapply (c_len _ _ _ _ _ HC).
    + apply (c_dom _ _ _ _ _ HC). eauto.
Qed.

Definition ref (b : Z) (R : gmap Z nat) : gmap Z nat := <[b := S (default 0%nat (R !! b))]> R.
Definition unref (b : Z) (R : gmap Z nat) : gmap Z nat :=
  match R !! b with Some (S (S n)) => <[b := S n]> R | _ => delete b R end.

Lemma refs_ref b R : refs (ref b R) b = refs R b + 1.
Proof. unfold refs, ref. rewrite lookup_insert_eq. cbn [from_option id]. lia. Qed.

Lemma refs_unref b R : refs R b <> 0 -> refs (unref b R) b = refs R b - 1.
Proof.
  unfold refs, unref. destruct (R !! b) as [[|[|n]]|] eqn:E; cbn [from_option id]; intros H; try lia.
  - by rewrite lookup_delete_eq.
  - rewrite lookup_insert_eq. cbn [from_option id]. lia.
Qed.

Lemma lookup_ref_ne b c R : c <> b -> ref b R !! c = R !! c.
Proof. intros. unfold ref. by rewrite lookup_insert_ne. Qed.

Lemma lookup_unref_ne b c R : c <> b -> unref b R !! c = R !! c.
Proof.
  intros. unfold unref. destruct (R !! b) as [[|[|n]]|];
    by rewrite ?lookup_delete_ne, ?lookup_insert_ne.
Qed.

Lemma bpin_ok pid s V R H b i :
  cache pid s V R H -> fs_env pid s -> H !! b = Some i -> refs R b + 1 < 2 ^ 31 ->
  exists bs, bpin i s = Ok tt (s <| bufs := bs |>) /\ cache pid (s <| bufs := bs |>) V (ref b R) H.
Proof.
  intros HC HE Hb Hsm. destruct (cache_held _ _ _ _ _ _ _ HC Hb) as (x & _ & Hx & _ & _ & _ & _ & _ & Hr).
  apply (refcnt_change pid s V R (ref b R) H b i x (fun n => u32 (n + 1))); try done.
  - intros c Hc. by apply lookup_ref_ne.
  - rewrite refs_ref, Hr. rewrite u32_small; unfold refs in *; lia.
  - by rewrite refs_ref.
Qed.

Lemma bunpin_ok pid s V R H b i :
  cache pid s V R H -> fs_env pid s -> H !! b = Some i -> refs R b <> 0 ->
  exists bs, bunpin i s = Ok tt (s <| bufs := bs |>) /\ cache pid (s <| bufs := bs |>) V (unref b R) H.
Proof.
  intros HC HE Hb Hne. destruct (cache_held _ _ _ _ _ _ _ HC Hb) as (x & _ & Hx & _ & _ & _ & _ & _ & Hr).
  pose proof (c_small _ _ _ _ _ HC b).
  apply (refcnt_change pid s V R (unref b R) H b i x (fun n => u32 (n - 1))); try done.
  - intros c Hc. by apply lookup_unref_ne.
  - rewrite refs_unref, Hr by done. rewrite u32_small; unfold refs in *; lia.
  - rewrite refs_unref by done. lia.
Qed.

(** All buffers are in use, and none has the block. *)
Lemma bread_full dev b s l :
  ring (bufs s) l -> L_bcache ∉ held s ->
  (forall i x, (i < NBUF)%nat -> bufs s !! i = Some x ->
     b_refcnt x <> 0 /\ ~ (b_dev x = dev /\ b_blockno x = b)) ->
  bread dev b s = Panic "bget: no buffers".
Proof.
  intros Hl Hq Hall. destruct (ring_lookup _ _ HEAD Hl) as [h Hh]; [by right|].
  assert (Hin : forall i, i ∈ l -> exists x, (i < NBUF)%nat /\ bufs s !! i = Some x).
  { intros i Hi. destruct (ring_lookup _ _ i Hl) as [x Hx]; [by left|]. exists x.
    split; [by apply (ring_elem _ _ i Hl)|done]. }
  unfold bread. apply bind_panic. unfold bget. run (acquire_ok _ s Hq).
  set (s1 := s <| held := _ |>).
  erewrite bind_ok by (apply (getbuf_ok HEAD h s1); unfold s1; by rs).
  erewrite bind_ok by (apply (scan_cached l); unfold s1; by rs).
  change (bufs s1) with (bufs s).
  destruct (List.find (is_block _ _ _) l) as [i|] eqn:Ef.
  { apply List.find_some in Ef as [Hi Hbi]. apply list_elem_of_In in Hi.
    destruct (Hin i Hi) as (x & Hi' & Hx). destruct (Hall i x Hi' Hx) as [_ Hno].
    unfold is_block in Hbi. rewrite Hx in Hbi. apply andb_true_iff in Hbi as [?%Z.eqb_eq ?%Z.eqb_eq]. tauto. }
  erewrite bind_ok by (apply (scan_unused l); unfold s1; by rs).
  change (bufs s1) with (bufs s).
  destruct (List.find (is_unused _) _) as [i|] eqn:Eu; [|done].
  apply List.find_some in Eu as [Hi Hui]. apply list_elem_of_In in Hi. rewrite elem_of_reverse in Hi.
  destruct (Hin i Hi) as (x & Hi' & Hx). destruct (Hall i x Hi' Hx) as [Hno _].
  unfold is_unused in Hui. rewrite Hx in Hui. by apply Z.eqb_eq in Hui.
Qed.

End ops.

(** ** Initialisation *)

(** The buffers after [binit] at boot: all unused, and linked. *)
Definition boot_bufs : list buf :=
  imap (fun i b => if decide (i = HEAD) then b <| b_prev := 0%nat |> <| b_next := (NBUF - 1)%nat |>
                   else b <| b_next := (if decide (i = 0)%nat then HEAD else (i - 1)%nat) |>
                          <| b_prev := (if decide (S i = HEAD) then HEAD else S i) |>)
       (replicate (S NBUF) zero_buf).

Lemma binit_ok s :
  bufs s = replicate (S NBUF) zero_buf -> binit s = Ok tt (s <| bufs := boot_bufs |>).
Proof. destruct s. cbn [State.bufs]. intros ->. vm_compute. reflexivity. Qed.

Lemma boot_ring : ring boot_bufs (reverse (seq 0 NBUF)).
Proof.
  split; [|by rewrite reverse_Permutation].
  assert (forallb (fun p => bool_decide (nxt boot_bufs p.1 = Some p.2) && bool_decide (prv boot_bufs p.2 = Some p.1))
            (zip (HEAD :: reverse (seq 0 NBUF)) (reverse (seq 0 NBUF) ++ [HEAD])) = true) as Hb
    by (vm_compute; reflexivity).
  revert Hb. generalize (reverse (seq 0 NBUF)) as l. generalize HEAD at 1 3 as a.
  intros a l. revert a. induction l as [|x l IH]; intros a; cbn [zip zip_with app forallb chain].
  - rewrite !andb_true_iff, !bool_decide_eq_true. tauto.
  - rewrite !andb_true_iff, !bool_decide_eq_true. intros [[? ?] ?]. auto.
Qed.

Lemma boot_bufs_unused i x :
  boot_bufs !! i = Some x -> b_dev x <> ROOTDEV /\ b_refcnt x = 0 /\ sl_locked (b_lock x) = false.
Proof.
  unfold boot_bufs. rewrite list_lookup_imap. intros (y & Hy & ->)%fmap_Some.
  apply lookup_replicate in Hy as [-> _]. cbn beta. destruct (decide _); rs; done.
Qed.

Lemma boot_cache pid s :
  bufs s = boot_bufs -> (forall b d, disk s !! b = Some d -> length d = 1024%nat) ->
  cache pid s (disk s) ∅ ∅.
Proof.
  intros Hb Hd. split; rewrite ?Hb; try done.
  - eexists. apply boot_ring.
  - intros i x _ Hx Hdx. by apply boot_bufs_unused in Hx as [? _].
  - intros i x _ Hx _. by apply boot_bufs_unused in Hx as [_ ?].
  - intros i j x y _ _ Hx _ Hdx. by apply boot_bufs_unused in Hx as [? _].
Qed.

(** ** Properties *)

Section properties.
Context {F : Fuel}.

(** C8: The buffer cache is transparent.  Whatever blocks are cached, referenced or
    evicted, [bread] of a block that nobody holds returns a buffer locked by the
    caller with the current contents of that block, [brelse] gives it back, and
    neither changes the contents of any block, the disk, or the other references.
    It needs the block to be cached already or fewer than [NBUF] blocks to be in
    use. *)
Theorem bread_brelse_transparent pid b d s V R H :
  cache pid s V R H -> fs_env pid s -> V !! b = Some d -> H !! b = None ->
  refs R b <> 0 \/ (size (dom R ∪ dom H) < NBUF)%nat ->
  exists i s1 s2,
    bread ROOTDEV b s = Ok i s1 /\ cache pid s1 V R (<[b := i]> H) /\
    bdata i s1 = Ok d s1 /\ holdingsleep (SL_buf i) s1 = Ok true s1 /\
    brelse i s1 = Ok tt s2 /\ cache pid s2 V R H /\ disk s1 = disk s /\ disk s2 = disk s.
Proof.
  intros HC HE Hd Hb Hroom.
  destruct (bread_ok pid b d s V R H HC HE Hd Hb Hroom) as (i & bs & Hr & HC1).
  assert (HE1 : fs_env pid (s <| bufs := bs |>)) by (by apply (fs_env_frame pid s)).
  assert (Hi : <[b := i]> H !! b = Some i) by apply lookup_insert_eq.
  destruct (brelse_ok pid _ V R _ b i HC1 HE1 Hi) as (bs2 & Hr2 & HC2).
  { destruct (Z.eq_dec (refs R b) 0) as [Hz|]; [right|by left]. rs. by apply (c_clean _ _ _ _ _ HC). }
  rewrite delete_insert_id in HC2 by done.
  exists i, (s <| bufs := bs |>), (s <| bufs := bs |> <| bufs := bs2 |>).
  split; [done|]. split; [done|]. split; [by eapply bdata_ok|].
  split; [by eapply holding_buf|]. done.
Qed.

(** When every buffer is in use and the block is not cached, [bread] stops the
    kernel with "bget: no buffers"; it never takes a buffer that is in use. *)
Lemma bread_no_buffers dev b s l :
  ring (bufs s) l -> L_bcache ∉ held s ->
  (forall i x, (i < NBUF)%nat -> bufs s !! i = Some x ->
     b_refcnt x <> 0 /\ ~ (b_dev x = dev /\ b_blockno x = b)) ->
  bread dev b s = Panic "bget: no buffers".
Proof. apply bread_full. Qed.

End properties.

(** [binit] at boot builds an empty, well-linked cache: the contents of every
    block are those on the disk, no block is referenced and none is held. *)
Lemma binit_establishes_cache pid s :
  bufs s = replicate (S NBUF) zero_buf ->
  (forall b d, disk s !! b = Some d -> length d = 1024%nat) ->
  exists s', binit s = Ok tt s' /\ cache pid s' (disk s) ∅ ∅ /\ disk s' = disk s.
Proof.
  intros Hb Hd. exists (s <| bufs := boot_bufs |>). split; [by apply binit_ok|].
  split; [|done]. pose proof (boot_cache pid (s <| bufs := boot_bufs |>)) as Hc. rs_in Hc. auto.
Qed.

(** A machine with a one-block disk. *)
Definition one_block : kstate :=
  boot_state <| disk := {[ 7 := replicate 1024 9 ]} |> <| cpu_proc := Some 0%nat |>.

Lemma one_block_len b d : disk one_block !! b = Some d -> length d = 1024%nat.
Proof. unfold one_block. rs. intros [_ <-]%lookup_singleton_Some. apply length_replicate. Qed.

Lemma one_block_env : fs_env 0 (one_block <| bufs := boot_bufs |>).
Proof.
  split; unfold one_block; rs.
  - split; [done|]. apply Forall_replicate. done.
  - eexists 0%nat, _. split; [done|]. split; [reflexivity|done].
  - constructor.
Qed.

Lemma bread_brelse_transparent_witness :
  let s := one_block <| bufs := boot_bufs |> in
  exists i s1 s2,
    bread (F := 0%nat) ROOTDEV 7 s = Ok i s1 /\ cache 0 s1 (disk s) ∅ {[ 7 := i ]} /\
    bdata i s1 = Ok (replicate 1024 9) s1 /\ holdingsleep (SL_buf i) s1 = Ok true s1 /\
    brelse i s1 = Ok tt s2 /\ cache 0 s2 (disk s) ∅ ∅ /\ disk s1 = disk s /\ disk s2 = disk s.
Proof.
  apply (bread_brelse_transparent (F := 0%nat) 0 7 (replicate 1024 9) (one_block <| bufs := boot_bufs |>) _ ∅ ∅).
  - apply boot_cache; [reflexivity|apply one_block_len].
  - apply one_block_env.
  - reflexivity.
  - reflexivity.
  - right. vm_compute. lia.
Defined.

