(* ===== verification/Log.v ===== *)
(** kernel/log.c: the redo log that makes file system calls atomic.

    The header block on disk is an [int] count followed by the block numbers. *)

From stdpp Require Import prelude gmap strings.
From Stdlib Require Import ZArith Lia.
From S2P Require Import Prelude Bytes Params State Spinlock Uart Printk Sched Sleeplock Disk Bio.

Local Open Scope Z_scope.
Local Open Scope kernel_scope.

(** An [int] and a [uint] in a block's data. *)
Definition get_s32 (off : nat) (data : list Z) : Z := s32 (le_decode (slice off 4 data)).
Definition get_u32 (off : nat) (data : list Z) : Z := le_decode (slice off 4 data).
Definition put_u32 (off : nat) (v : Z) (data : list Z) : list Z := blit off (le_encode 4 v) data.

(** [log.lh.block[i]]; an index out of the array is a fault. *)
Definition lh_get (i : Z) : K Z :=
  lg <- gets klog ;;
  match l_block lg !! Z.to_nat i with Some x => ret x | None => fault end.

Definition lh_set (i v : Z) : K unit :=
  lg <- gets klog ;;
  if decide (Z.to_nat i < length (l_block lg))%nat then
    modify (fun s => s <| klog := lg <| l_block := <[Z.to_nat i := v]> (l_block lg) |> |>)
  else fault.

Definition updlog (f : logst -> logst) : K unit := modify (fun s => s <| klog := f (klog s) |>).

Section log.
Context {F : Fuel}.

(** The body of [install_trans]'s loop. *)
Definition install1 (recovering : bool) (tail : Z) : K unit :=
  blk <- lh_get tail ;;
  (if recovering then
     printk (strn "recovering tail %d dst %d") [A_int tail; A_int blk] ;; ret tt
   else ret tt) ;;
  lg <- gets klog ;;
  lbuf <- bread (l_dev lg) (u32 (l_start lg + tail + 1)) ;;
  dbuf <- bread (l_dev lg) (u32 blk) ;;
  data <- bdata lbuf ;;
  set_bdata dbuf (fun _ => data) ;;
  bwrite dbuf ;;
  when (negb recovering) (bunpin dbuf) ;;
  brelse lbuf ;;
  brelse dbuf.

Definition install_trans (recovering : bool) : K unit :=
  lg <- gets klog ;;
  foreach (seqZ 0 (l_n lg)) (install1 recovering).

Definition read_head : K unit :=
  lg <- gets klog ;;
  b <- bread (l_dev lg) (u32 (l_start lg)) ;;
  data <- bdata b ;;
  updlog (fun lg => lg <| l_n := get_s32 0 data |>) ;;
  foreach (seqZ 0 (get_s32 0 data)) (fun i => lh_set i (get_s32 (4 + 4 * Z.to_nat i) data)) ;;
  brelse b.

Definition write_head : K unit :=
  lg <- gets klog ;;
  b <- bread (l_dev lg) (u32 (l_start lg)) ;;
  set_bdata b (put_u32 0 (l_n lg)) ;;
  foreach (seqZ 0 (l_n lg)) (fun i =>
    x <- lh_get i ;;
    set_bdata b (put_u32 (4 + 4 * Z.to_nat i) x)) ;;
  bwrite b ;;
  brelse b.

Definition recover_from_log : K unit :=
  read_head ;;
  install_trans true ;;
  updlog (fun lg => lg <| l_n := 0 |>) ;;
  write_head.

(** [sizeof(struct logheader)] is 124, so the check of its size never fails. *)
Definition initlog (dev : Z) : K unit :=
  panic_if (BSIZE <=? 4 + 4 * LOGBLOCKS) "initlog: too big logheader" ;;
  sbl <- gets sb ;;
  updlog (fun lg => lg <| l_start := s32 (sb_logstart sbl) |> <| l_dev := dev |>) ;;
  recover_from_log.

Definition log_sleep : K unit :=
  sleep_prepare (Some Ch_log) ;;
  release L_log ;;
  sleep ;;
  acquire L_log.

(** Does [begin_op] have to wait? *)
Definition log_full (lg : logst) : bool :=
  l_committing lg || (LOGBLOCKS <? l_n lg + (l_outstanding lg + 1) * MAXOPBLOCKS).

Definition begin_op : K unit :=
  acquire L_log ;;
  while_sleep sleep_fuel (lg <- gets klog ;; ret (log_full lg)) log_sleep ;;
  updlog (fun lg => lg <| l_outstanding := l_outstanding lg + 1 |>) ;;
  release L_log.

(** The body of [write_log]'s loop. *)
Definition write_log1 (tail : Z) : K unit :=
  lg <- gets klog ;;
  to <- bread (l_dev lg) (u32 (l_start lg + tail + 1)) ;;
  blk <- lh_get tail ;;
  from <- bread (l_dev lg) (u32 blk) ;;
  data <- bdata from ;;
  set_bdata to (fun _ => data) ;;
  bwrite to ;;
  brelse from ;;
  brelse to.

Definition write_log : K unit :=
  lg <- gets klog ;;
  foreach (seqZ 0 (l_n lg)) write_log1.

Definition commit : K unit :=
  lg <- gets klog ;;
  when (0 <? l_n lg)
    (write_log ;;
     write_head ;;
     install_trans false ;;
     updlog (fun lg => lg <| l_n := 0 |>) ;;
     write_head).

Definition end_op : K unit :=
  acquire L_log ;;
  updlog (fun lg => lg <| l_outstanding := l_outstanding lg - 1 |>) ;;
  lg <- gets klog ;;
  panic_if (l_committing lg) "log.committing" ;;
  let do_commit := l_outstanding lg =? 0 in
  (if do_commit then updlog (fun lg => lg <| l_committing := true |>)
   else wakeup (Some Ch_log)) ;;
  release L_log ;;
  when do_commit
    (commit ;;
     acquire L_log ;;
     updlog (fun lg => lg <| l_committing := false |> <| l_ncommit := l_ncommit lg + 1 |>) ;;
     wakeup (Some Ch_log) ;;
     release L_log).

(** The first index of the log header that has [blockno], or [n]. *)
Fixpoint absorb (n : nat) (i : Z) (blockno : Z) : K Z :=
  match n with
  | O => ret i
  | S n' =>
      x <- lh_get i ;;
      if u32 x =? blockno then ret i else absorb n' (i + 1) blockno
  end.

Definition log_write (b : nat) : K unit :=
  acquire L_log ;;
  lg <- gets klog ;;
  panic_if (LOGBLOCKS <=? l_n lg) "too big a transaction" ;;
  panic_if (l_outstanding lg <? 1) "log_write outside of trans" ;;
  bb <- getbuf b ;;
  i <- absorb (Z.to_nat (l_n lg)) 0 (b_blockno bb) ;;
  lh_set i (s32 (b_blockno bb)) ;;
  when (i =? l_n lg)
    (bpin b ;;
     updlog (fun lg => lg <| l_n := l_n lg + 1 |>)) ;;
  release L_log.

Definition sys_sync : K Z :=
  acquire L_log ;;
  lg <- gets klog ;;
  when (l_committing lg || (0 <? l_outstanding lg))
    (let n := l_ncommit lg + 1 in
     while_sleep sleep_fuel (lg <- gets klog ;; ret (l_ncommit lg <? n)) log_sleep) ;;
  release L_log ;;
  ret 0.

End log.
