(* ===== verification/Recovery.v ===== *)
(** The log at work: what [commit] and [recover_from_log] write, in which order, and the
    state of the buffer cache and of the log after each of their loops. *)

From stdpp Require Import prelude gmap strings.
From Stdlib Require Import ZArith Lia.
From S2P Require Import Prelude Bytes Params State Spinlock Uart Printk Sched Sleeplock Disk Bio Cache Log.

Local Open Scope Z_scope.
Local Open Scope kernel_scope.

(** ** Disk writes *)

(** The disk after some writes, oldest first. *)
Definition apply_writes (W : list (Z * list Z)) (D : gmap Z (list Z)) : gmap Z (list Z) :=
  foldl (fun D p => <[p.1 := p.2]> D) D W.

Lemma apply_writes_app W1 W2 D : apply_writes (W1 ++ W2) D = apply_writes W2 (apply_writes W1 D).
Proof. unfold apply_writes. apply foldl_app. Qed.

Lemma apply_writes_cons p W D : apply_writes (p :: W) D = apply_writes W (<[p.1 := p.2]> D).
Proof. done. Qed.

Lemma apply_writes_other W D b : (forall p, p ∈ W -> p.1 <> b) -> apply_writes W D !! b = D !! b.
Proof.
  revert D. induction W as [|p W IH]; intros D Hp; [done|].
  rewrite apply_writes_cons, IH by (intros q Hq; apply Hp; by right). apply lookup_insert_ne. apply Hp. by left.
Qed.

(** Code that changed only the buffer cache and the console, and wrote [W] to the
    disk. *)
Definition io_step (s s' : kstate) (W : list (Z * list Z)) : Prop :=
  exists bs ub ut,
    s' = s <| bufs := bs |> <| disk := apply_writes W (disk s) |> <| dtrace := dtrace s ++ W |>
           <| uart_busy := ub |> <| uart_tx := ut |>.

Lemma io_trans s s1 s2 W1 W2 : io_step s s1 W1 -> io_step s1 s2 W2 -> io_step s s2 (W1 ++ W2).
Proof.
  intros (b1 & u1 & t1 & ->) (b2 & u2 & t2 & ->). exists b2, u2, t2.
  rs. rewrite apply_writes_app, app_assoc. st_eq s.
Qed.

(** Compose the steps of a run. *)
Ltac io_join :=
  repeat match goal with
    | H1 : io_step ?a ?b ?W1, H2 : io_step ?b ?c ?W2 |- _ =>
        pose proof (io_trans a b c W1 W2 H1 H2); clear H1 H2; cbn [app] in *
    end; rewrite ?app_nil_r in *.

Lemma io_bufs s bs : io_step s (s <| bufs := bs |>) [].
Proof. exists bs, (uart_busy s), (uart_tx s). cbn. rewrite app_nil_r. st_eq s. Qed.

Lemma io_refl s : io_step s s [].
Proof. exists (bufs s), (uart_busy s), (uart_tx s). cbn. rewrite app_nil_r. st_eq s. Qed.

Lemma io_write s b d :
  io_step s (s <| disk := <[b := d]> (disk s) |> <| dtrace := dtrace s ++ [(b, d)] |>) [(b, d)].
Proof. exists (bufs s), (uart_busy s), (uart_tx s). cbn. st_eq s. Qed.

Lemma io_uart s l : io_step s (uart_out l s) [].
Proof.
  exists (bufs s), (uart_busy (uart_out l s)), (uart_tx (uart_out l s)). cbn. rewrite app_nil_r.
  unfold uart_out. rs. st_eq s.
Qed.

Lemma io_disk s s' W : io_step s s' W -> disk s' = apply_writes W (disk s).
Proof. intros (? & ? & ? & ->). by rs. Qed.

Lemma io_dtrace s s' W : io_step s s' W -> dtrace s' = dtrace s ++ W.
Proof. intros (? & ? & ? & ->). by rs. Qed.

Lemma io_klog s s' W : io_step s s' W -> klog s' = klog s.
Proof. intros (? & ? & ? & ->). by rs. Qed.

Lemma io_panicking s s' W : io_step s s' W -> panicking s' = panicking s.
Proof. intros (? & ? & ? & ->). by rs. Qed.

Lemma io_held s s' W : io_step s s' W -> held s' = held s.
Proof. intros (? & ? & ? & ->). by rs. Qed.

Lemma io_env pid s s' W : io_step s s' W -> fs_env pid s -> fs_env pid s'.
Proof. intros (? & ? & ? & ->). apply fs_env_frame; by rs. Qed.

(** The cache does not depend on anything else. *)
Lemma cache_frame pid s s' V R H :
  bufs s' = bufs s -> disk s' = disk s -> cache pid s V R H -> cache pid s' V R H.
Proof. intros E1 E2 []. by split; rewrite ?E1, ?E2. Qed.

Lemma cache_uart pid l s V R H : cache pid s V R H -> cache pid (uart_out l s) V R H.
Proof. apply cache_frame; unfold uart_out; by rs. Qed.

(** ** The header block *)

Lemma length_put_u32 off v d : (off + 4 <= length d)%nat -> length (put_u32 off v d) = length d.
Proof. intros H. unfold put_u32. apply length_blit. by rewrite length_le_encode. Qed.

Lemma get_put_same off v d :
  (off + 4 <= length d)%nat -> - 2 ^ 31 <= v < 2 ^ 31 -> get_s32 off (put_u32 off v d) = v.
Proof.
  intros Hl Hv. unfold get_s32, put_u32.
  pose proof (slice_blit_same off (le_encode 4 v) d) as E. rewrite length_le_encode in E.
  rewrite E by done. rewrite le_decode_encode. change (2 ^ (8 * Z.of_nat 4)) with (2 ^ 32).
  unfold swrap. change (32 - 1) with 31. rewrite Zplus_mod_idemp_l, Z.mod_small by lia. lia.
Qed.

Lemma get_put_other off off' v d :
  (off + 4 <= length d)%nat -> (off' + 4 <= off \/ off + 4 <= off')%nat ->
  get_s32 off' (put_u32 off v d) = get_s32 off' d.
Proof.
  intros Hl Ho. unfold get_s32, put_u32. by rewrite slice_blit_other by (rewrite ?length_le_encode; lia).
Qed.

(** The blocks a header lists. *)
Definition header_blocks (d : list Z) : list Z :=
  map (fun k => get_s32 (4 + 4 * k) d) (seq 0 (Z.to_nat (get_s32 0 d))).

(** What [write_head] stores: the count, then the block numbers. *)
Fixpoint fill_blocks (bl : list Z) (d : list Z) (k : nat) : list Z :=
  match k with
  | O => d
  | S k' => put_u32 (4 + 4 * k') (default 0 (bl !! k')) (fill_blocks bl d k')
  end.

Definition fill_header (bl : list Z) (d : list Z) : list Z :=
  fill_blocks bl (put_u32 0 (Z.of_nat (length bl)) d) (length bl).

Lemma length_fill_blocks bl d k :
  (k <= 30)%nat -> length d = 1024%nat -> length (fill_blocks bl d k) = 1024%nat.
Proof.
  intros Hk Hd. induction k as [|k IH]; cbn [fill_blocks]; [done|].
  rewrite length_put_u32; rewrite IH; lia.
Qed.

Lemma length_fill_header bl d :
  (length bl <= 30)%nat -> length d = 1024%nat -> length (fill_header bl d) = 1024%nat.
Proof. intros Hl Hd. apply length_fill_blocks; [done|]. rewrite length_put_u32; lia. Qed.

Lemma fill_blocks_spec bl d k :
  (k <= length bl <= 30)%nat -> length d = 1024%nat -> Forall (fun b => 0 <= b < 2 ^ 31) bl ->
  get_s32 0 (fill_blocks bl d k) = get_s32 0 d /\
  forall j, (j < k)%nat -> Some (get_s32 (4 + 4 * j) (fill_blocks bl d k)) = bl !! j.
Proof.
  intros Hk Hd Hf. induction k as [|k IH]; [split; [done|lia]|]. cbn [fill_blocks].
  destruct IH as [IH0 IH]; [lia|]. pose proof (length_fill_blocks bl d k) as Hlen.
  destruct (lookup_lt_is_Some_2 bl k) as [b Hb]; [lia|].
  pose proof (Forall_lookup_1 _ _ _ _ Hf Hb) as Hbr. cbn beta in Hbr.
  rewrite Hb. cbn [from_option id]. split.
  - rewrite get_put_other; rewrite ?Hlen; lia.
  - intros j Hj. destruct (decide (j = k)) as [->|Hne].
    + rewrite get_put_same; [done|rewrite Hlen; lia|lia].
    + rewrite get_put_other by (rewrite ?Hlen; lia). apply IH. lia.
Qed.

(** A header reads back as it was written. *)
Lemma header_blocks_fill bl d :
  (length bl <= 30)%nat -> length d = 1024%nat -> Forall (fun b => 0 <= b < 2 ^ 31) bl ->
  header_blocks (fill_header bl d) = bl /\ get_s32 0 (fill_header bl d) = Z.of_nat (length bl).
Proof.
  intros Hl Hd Hf.
  destruct (fill_blocks_spec bl (put_u32 0 (Z.of_nat (length bl)) d) (length bl)) as [H0 Hk];
    [lia|rewrite length_put_u32; lia|done|].
  assert (get_s32 0 (fill_header bl d) = Z.of_nat (length bl)) as Hn.
  { unfold fill_header. rewrite H0. apply get_put_same; lia. }
  split; [|done]. unfold header_blocks. rewrite Hn, Nat2Z.id. apply list_eq. intros j.
  rewrite list_lookup_fmap. destruct (decide (j < length bl)%nat) as [Hj|Hj].
  - rewrite lookup_seq_lt by lia. cbn [fmap option_fmap option_map]. by apply Hk.
  - rewrite lookup_seq_ge by lia. symmetry. apply lookup_ge_None_2. lia.
Qed.

(** ** The operations of the cache, as steps *)

Section steps.
Context {F : Fuel} (pid : Z).
Implicit Types (s : kstate) (V : gmap Z (list Z)) (R H : gmap Z nat).

(** The cache is in the abstract state [V], [R], [H] and process [pid] may use it. *)
Definition in_cache s V R H : Prop := cache pid s V R H /\ fs_env pid s.

Lemma in_cache_step s s' W V R H : io_step s s' W -> cache pid s' V R H -> fs_env pid s -> in_cache s' V R H.
Proof. intros Hs HC HE. split; [done|]. by eapply io_env. Qed.

Lemma bread_step b d s V R H :
  in_cache s V R H -> V !! b = Some d -> H !! b = None ->
  refs R b <> 0 \/ (size (dom R ∪ dom H) < NBUF)%nat ->
  exists i s', bread ROOTDEV b s = Ok i s' /\ io_step s s' [] /\ in_cache s' V R (<[b := i]> H).
Proof.
  intros [HC HE] Hd Hb Hr. destruct (bread_ok pid b d s V R H HC HE Hd Hb Hr) as (i & bs & E & HC').
  exists i, (s <| bufs := bs |>). split; [done|]. split; [apply io_bufs|].
  eapply in_cache_step; eauto using io_bufs.
Qed.

Lemma set_bdata_step b i d f s V R H :
  in_cache s V R H -> H !! b = Some i -> V !! b = Some d -> length (f d) = 1024%nat ->
  exists s', set_bdata i f s = Ok tt s' /\ io_step s s' [] /\ in_cache s' (<[b := f d]> V) R H.
Proof.
  intros [HC HE] Hb Hd Hl. destruct (set_bdata_ok pid s V R H b i d f HC Hb Hd Hl) as (bs & E & HC').
  exists (s <| bufs := bs |>). split; [done|]. split; [apply io_bufs|].
  eapply in_cache_step; eauto using io_bufs.
Qed.

Lemma bwrite_step b i d s V R H :
  in_cache s V R H -> H !! b = Some i -> V !! b = Some d ->
  exists s', bwrite i s = Ok tt s' /\ io_step s s' [(b, d)] /\ in_cache s' V R H.
Proof.
  intros [HC HE] Hb Hd. destruct (bwrite_ok pid s V R H b i d HC HE Hb Hd) as [E HC'].
  eexists. split; [exact E|]. split; [apply io_write|]. eapply in_cache_step; eauto using io_write.
Qed.

Lemma brelse_step b i s V R H :
  in_cache s V R H -> H !! b = Some i -> refs R b <> 0 \/ disk s !! b = V !! b ->
  exists s', brelse i s = Ok tt s' /\ io_step s s' [] /\ in_cache s' V R (delete b H).
Proof.
  intros [HC HE] Hb Hc. destruct (brelse_ok pid s V R H b i HC HE Hb Hc) as (bs & E & HC').
  exists (s <| bufs := bs |>). split; [done|]. split; [apply io_bufs|].
  eapply in_cache_step; eauto using io_bufs.
Qed.

Lemma bunpin_step b i s V R H :
  in_cache s V R H -> H !! b = Some i -> refs R b <> 0 ->
  exists s', bunpin i s = Ok tt s' /\ io_step s s' [] /\ in_cache s' V (unref b R) H.
Proof.
  intros [HC HE] Hb Hr. destruct (bunpin_ok pid s V R H b i HC HE Hb Hr) as (bs & E & HC').
  exists (s <| bufs := bs |>). split; [done|]. split; [apply io_bufs|].
  eapply in_cache_step; eauto using io_bufs.
Qed.

Lemma bdata_step b i d s V R H :
  in_cache s V R H -> H !! b = Some i -> V !! b = Some d -> bdata i s = Ok d s.
Proof. intros [HC _]. by eapply bdata_ok. Qed.

(** ** The pieces of [commit] *)

(** Log block [k] of a log that starts at [start]. *)
Definition log_block (start k : Z) : Z := start + k + 1.

(** The log is on the root device at [start], and its blocks have proper numbers. *)
Definition log_at (start : Z) (lg : logst) : Prop :=
  l_start lg = start /\ l_dev lg = ROOTDEV /\ 0 <= start /\ start + LOGBLOCKS + 1 < 2 ^ 31.

Lemma u32_log_block start lg k :
  log_at start lg -> 0 <= k < LOGBLOCKS -> u32 (l_start lg + k + 1) = log_block start k.
Proof. intros (-> & _ & H1 & H2) Hk. unfold log_block. apply u32_small. lia. Qed.

Lemma lh_get_ok k b s : l_block (klog s) !! Z.to_nat k = Some b -> lh_get k s = Ok b s.
Proof. intros Hb. unfold lh_get. rewrite bind_gets. by rewrite Hb. Qed.

Lemma write_log1_ok start k b d s V R :
  in_cache s V R ∅ -> log_at start (klog s) -> 0 <= k < LOGBLOCKS ->
  l_block (klog s) !! Z.to_nat k = Some b -> 0 <= b < 2 ^ 31 -> b <> log_block start k ->
  V !! b = Some d -> is_Some (V !! log_block start k) ->
  refs R b <> 0 -> (size (dom R) < NBUF)%nat ->
  exists s', write_log1 k s = Ok tt s' /\ io_step s s' [(log_block start k, d)] /\
    in_cache s' (<[log_block start k := d]> V) R ∅.
Proof.
  intros HC Hlog Hk Hb Hbr Hne Hd [old Ho] Hr Hsz. pose proof Hlog as (_ & Hdev & _).
  set (t := log_block start k) in *. unfold write_log1. rewrite bind_gets.
  rewrite (u32_log_block start) by done. rewrite Hdev. fold t.
  destruct (bread_step t old s V R ∅) as (i & s1 & E1 & S1 & HC1);
    [done|done|done|right; by rewrite dom_empty_L, union_empty_r_L|].
  run E1. erewrite bind_ok by (apply lh_get_ok; rewrite (io_klog _ _ _ S1); exact Hb).
  rewrite u32_small by lia.
  destruct (bread_step b d s1 V R (<[t := i]> ∅)) as (j & s2 & E2 & S2 & HC2);
    [done|done|by rewrite lookup_insert_ne|by left|].
  run E2. erewrite bind_ok by (eapply (bdata_step b); [exact HC2|apply lookup_insert_eq|exact Hd]).
  destruct (set_bdata_step t i old (fun _ => d) s2 V R (<[b := j]> (<[t := i]> ∅)))
    as (s3 & E3 & S3 & HC3);
    [done|by rewrite lookup_insert_ne, lookup_insert_eq by done|done|by eapply (c_len _ _ _ _ _ (proj1 HC))|].
  run E3.
  destruct (bwrite_step t i d s3 (<[t := d]> V) R (<[b := j]> (<[t := i]> ∅)))
    as (s4 & E4 & S4 & HC4);
    [done|by rewrite lookup_insert_ne, lookup_insert_eq by done|by rewrite lookup_insert_eq|].
  run E4.
  destruct (brelse_step b j s4 (<[t := d]> V) R (<[b := j]> (<[t := i]> ∅)))
    as (s5 & E5 & S5 & HC5); [done|by rewrite lookup_insert_eq|by left|].
  run E5. rewrite delete_insert_id in HC5 by (by rewrite lookup_insert_ne).
  destruct (brelse_step t i s5 (<[t := d]> V) R (<[t := i]> ∅))
    as (s6 & E6 & S6 & HC6); [done|by rewrite lookup_insert_eq| |].
  { right. rewrite lookup_insert_eq.
    rewrite (io_disk _ _ _ S5), (io_disk _ _ _ S4). cbn. by rewrite lookup_insert_eq. }
  rewrite delete_insert_id in HC6 by done.
  io_join. by exists s6.
Qed.

Lemma recovering_msg a b :
  exists out, printk_chars (strn "recovering tail %d dst %d") [A_int a; A_int b] = Some out.
Proof. by apply (printk_loop_total _ _ _ _ [N_int; N_int]). Qed.

Lemma recovering_print a b s V R H :
  in_cache s V R H -> panicking s = false ->
  exists s', printk (strn "recovering tail %d dst %d") [A_int a; A_int b] s = Ok 0 s' /\
    io_step s s' [] /\ in_cache s' V R H.
Proof.
  intros [HC HE] Hp. destruct (recovering_msg a b) as [out E].
  eexists. split; [apply printk_ok; [exact E|done|by apply quiet_pr, HE]|].
  split; [apply io_uart|]. eapply in_cache_step; [apply io_uart|by apply cache_uart|done].
Qed.

Lemma install1_ok (rec : bool) start k b d s V R :
  in_cache s V R ∅ -> log_at start (klog s) -> 0 <= k < LOGBLOCKS -> panicking s = false ->
  l_block (klog s) !! Z.to_nat k = Some b -> 0 <= b < 2 ^ 31 -> b <> log_block start k ->
  is_Some (V !! b) -> V !! log_block start k = Some d ->
  (if rec then (S (size (dom R)) < NBUF)%nat else refs R b <> 0 /\ (size (dom R) < NBUF)%nat) ->
  exists s', install1 rec k s = Ok tt s' /\ io_step s s' [(b, d)] /\
    in_cache s' (<[b := d]> V) (if rec then R else unref b R) ∅.
Proof.
  intros HC Hlog Hk Hp Hb Hbr Hne [old Ho] Hd Hroom. pose proof Hlog as (_ & Hdev & _).
  set (t := log_block start k) in *. unfold install1. run (lh_get_ok _ _ _ Hb).
  assert (exists s0, (if rec then printk (strn "recovering tail %d dst %d") [A_int k; A_int b] ;; ret tt
            else ret tt) s = Ok tt s0 /\ io_step s s0 [] /\ in_cache s0 V R ∅) as (s0 & E0 & S0 & HC0).
  { destruct rec; [|exists s; eauto using io_refl].
    destruct (recovering_print k b s V R ∅ HC Hp) as (s0 & E0 & ?). exists s0. by run E0. }
  run E0. rewrite bind_gets. rewrite (io_klog _ _ _ S0), (u32_log_block start), Hdev by done. fold t.
  rewrite u32_small by lia.
  destruct (bread_step t d s0 V R ∅) as (i & s1 & E1 & S1 & HC1);
    [done|done|done|right; rewrite dom_empty_L, union_empty_r_L; destruct rec; [lia|apply Hroom]|].
  run E1.
  destruct (bread_step b old s1 V R (<[t := i]> ∅)) as (j & s2 & E2 & S2 & HC2);
    [done|done|by rewrite lookup_insert_ne| |].
  { destruct rec; [right|left; apply Hroom]. rewrite insert_empty, dom_singleton_L.
    pose proof (size_union_alt (dom R) ({[t]} : gset Z)). pose proof (size_singleton t (C := gset Z)).
    assert (size ({[t]} ∖ dom R : gset Z) <= size ({[t]} : gset Z))%nat by (apply subseteq_size; set_solver). lia. }
  run E2. erewrite bind_ok by (eapply (bdata_step t); [exact HC2|by rewrite lookup_insert_ne, lookup_insert_eq by done|exact Hd]).
  destruct (set_bdata_step b j old (fun _ => d) s2 V R (<[b := j]> (<[t := i]> ∅)))
    as (s3 & E3 & S3 & HC3);
    [done|by rewrite lookup_insert_eq|done|by eapply (c_len _ _ _ _ _ (proj1 HC))|].
  run E3.
  destruct (bwrite_step b j d s3 (<[b := d]> V) R (<[b := j]> (<[t := i]> ∅)))
    as (s4 & E4 & S4 & HC4);
    [done|by rewrite lookup_insert_eq|by rewrite lookup_insert_eq|].
  run E4.
  assert (exists s5, when (negb rec) (bunpin j) s4 = Ok tt s5 /\ io_step s4 s5 [] /\
            in_cache s5 (<[b := d]> V) (if rec then R else unref b R) (<[b := j]> (<[t := i]> ∅)))
    as (s5 & E5 & S5 & HC5).
  { destruct rec; [exists s4; eauto using io_refl|]. apply (bunpin_step b); [done|apply lookup_insert_eq|apply Hroom]. }
  run E5. set (R' := if rec then R else unref b R) in *.
  destruct (brelse_step t i s5 (<[b := d]> V) R' (<[b := j]> (<[t := i]> ∅)))
    as (s6 & E6 & S6 & HC6); [done|by rewrite lookup_insert_ne, lookup_insert_eq by done| |].
  { assert (refs R' t = refs R t) as -> by (unfold R'; destruct rec; [done|]; unfold refs; by rewrite lookup_unref_ne).
    destruct (Z.eq_dec (refs R t) 0) as [Hz|]; [right|by left].
    rewrite lookup_insert_ne by done. rewrite <- (c_clean _ _ _ _ _ (proj1 HC) t Hz) by done.
    clear - S0 S1 S2 S3 S4 S5 Hne. io_join. erewrite io_disk by done. cbn. by rewrite lookup_insert_ne. }
  run E6. rewrite delete_insert_ne, delete_insert_id in HC6 by done.
  destruct (brelse_step b j s6 (<[b := d]> V) R' (<[b := j]> ∅)) as (s7 & E7 & S7 & HC7);
    [done|by rewrite lookup_insert_eq| |].
  { right. rewrite lookup_insert_eq. clear - S4 S5 S6. io_join. erewrite io_disk by done. cbn. apply lookup_insert_eq. }
  rewrite delete_insert_id in HC7 by done. io_join. by exists s7.
Qed.

(** ** The loops of [commit] *)

(** Is [b] the header or one of the blocks of the log? *)
Definition in_log (start b : Z) : Prop := start <= b <= start + LOGBLOCKS.

(** A transaction in the memory of the log: it has the blocks [bl], which are not
    blocks of the log. *)
Record txn (start : Z) (bl : list Z) (lg : logst) : Prop := {
  tx_at : log_at start lg;
  tx_n : l_n lg = Z.of_nat (length bl);
  tx_len : (length bl <= 30)%nat;
  tx_blocks : forall k b, bl !! k = Some b -> l_block lg !! k = Some b;
  tx_home : Forall (fun b => 0 <= b < 2 ^ 31 /\ ~ in_log start b) bl;
}.

(** Every block of the log exists. *)
Definition log_exists (start : Z) V : Prop := forall b, in_log start b -> is_Some (V !! b).

(** The writes of [write_log]. *)
Definition log_writes (start : Z) (ds : list (list Z)) : list (Z * list Z) :=
  imap (fun k d => (log_block start (Z.of_nat k), d)) ds.

Lemma log_writes_snoc start ds d :
  log_writes start (ds ++ [d]) = log_writes start ds ++ [(log_block start (Z.of_nat (length ds)), d)].
Proof. unfold log_writes. rewrite imap_app. cbn. by rewrite Nat.add_0_r. Qed.

Lemma in_log_block start k : 0 <= k < LOGBLOCKS -> in_log start (log_block start k).
Proof. unfold in_log, log_block. lia. Qed.

Lemma log_writes_keys start ds p :
  (length ds <= 30)%nat -> p ∈ log_writes start ds -> in_log start p.1 /\ p.1 <> start.
Proof.
  intros Hl (k & Hk)%list_elem_of_lookup. unfold log_writes in Hk. rewrite list_lookup_imap in Hk.
  apply fmap_Some in Hk as (d & Hd & ->). apply lookup_lt_Some in Hd. cbn [fst].
  unfold in_log, log_block. change LOGBLOCKS with 30. lia.
Qed.

Lemma log_writes_lookup start ds k d D :
  ds !! k = Some d -> apply_writes (log_writes start ds) D !! log_block start (Z.of_nat k) = Some d.
Proof.
  revert k. induction ds as [|e ds IH] using rev_ind; intros k Hk; [done|].
  rewrite log_writes_snoc, apply_writes_app. cbn.
  apply lookup_app_Some in Hk as [Hk|[Hk1 Hk2]].
  - rewrite lookup_insert_ne; [by apply IH|]. apply lookup_lt_Some in Hk. unfold log_block. lia.
  - apply list_lookup_singleton_Some in Hk2 as [? ->]. replace k with (length ds) by lia. apply lookup_insert_eq.
Qed.

Lemma apply_writes_is_Some W D b : is_Some (D !! b) -> is_Some (apply_writes W D !! b).
Proof.
  revert D. induction W as [|p W IH]; intros D Hb; [done|]. cbn. apply IH.
  rewrite lookup_insert_is_Some'. by right.
Qed.

Lemma txn_block start bl lg k :
  txn start bl lg -> 0 <= k < Z.of_nat (length bl) ->
  exists b, bl !! Z.to_nat k = Some b /\ l_block lg !! Z.to_nat k = Some b /\
    0 <= b < 2 ^ 31 /\ ~ in_log start b /\ 0 <= k < LOGBLOCKS.
Proof.
  intros [_ _ Hl Hbl Hh] Hk. destruct (lookup_lt_is_Some_2 bl (Z.to_nat k)) as [b Hb]; [lia|].
  exists b. destruct (Forall_lookup_1 _ _ _ _ Hh Hb). pose proof (Hbl _ _ Hb).
  change LOGBLOCKS with 30. split_and!; try done; lia.
Qed.

Lemma not_log_block start b k : ~ in_log start b -> 0 <= k < LOGBLOCKS -> b <> log_block start k.
Proof. intros Hb Hk ->. by apply Hb, in_log_block. Qed.

Lemma take_snoc {A : Type} (l : list A) k x :
  0 <= k -> l !! Z.to_nat k = Some x -> take (Z.to_nat (k + 1)) l = take (Z.to_nat k) l ++ [x].
Proof. intros Hk Hx. replace (Z.to_nat (k + 1)) with (S (Z.to_nat k)) by lia. by apply take_S_r. Qed.

Lemma write_log_ok start bl ds s V R :
  in_cache s V R ∅ -> txn start bl (klog s) -> log_exists start V ->
  Forall2 (fun b d => V !! b = Some d /\ refs R b <> 0) bl ds -> (size (dom R) < NBUF)%nat ->
  exists s', write_log s = Ok tt s' /\ io_step s s' (log_writes start ds) /\
    in_cache s' (apply_writes (log_writes start ds) V) R ∅.
Proof.
  intros HC Htx Hlog Hds Hsz. unfold write_log. rewrite bind_gets, (tx_n _ _ _ Htx).
  pose proof (Forall2_length _ _ _ Hds) as Hlen.
  destruct (foreach_range (fun k t => io_step s t (log_writes start (take (Z.to_nat k) ds)) /\
      in_cache t (apply_writes (log_writes start (take (Z.to_nat k) ds)) V) R ∅)
      (Z.of_nat (length bl)) write_log1 s) as (s' & E & HS & HC'); [lia| | |].
  - cbn. split; [apply io_refl|done].
  - intros k t Hk [HS HC'].
    destruct (txn_block _ _ _ _ Htx Hk) as (b & Hb & Hlb & Hbr & Hnl & Hk').
    destruct (Forall2_lookup_l _ _ _ _ _ Hds Hb) as (d & Hd & HV & Hr).
    rewrite (take_snoc ds k d) by (done || lia). rewrite log_writes_snoc, length_take, apply_writes_app.
    rewrite Nat.min_l by (apply lookup_lt_Some in Hd; lia). rewrite Z2Nat.id by lia.
    destruct (write_log1_ok start k b d t (apply_writes (log_writes start (take (Z.to_nat k) ds)) V) R)
      as (t' & E & HS' & HC2); rewrite ?(io_klog _ _ _ HS); try done.
    + apply (tx_at _ _ _ Htx).
    + by apply not_log_block.
    + rewrite apply_writes_other; [done|]. intros p Hp <-.
      apply log_writes_keys in Hp; [tauto|]. rewrite length_take. pose proof (tx_len _ _ _ Htx). lia.
    + apply apply_writes_is_Some, Hlog. by apply in_log_block.
    + exists t'. split; [done|]. split; [by eapply io_trans|done].
  - exists s'. split; [done|]. rewrite take_ge in HS, HC' by lia. done.
Qed.

(** The pins that installing [bl] gives back. *)
Definition unpinned (rec : bool) (bl : list Z) R : gmap Z nat :=
  if rec then R else foldl (fun R b => unref b R) R bl.

Lemma unpinned_snoc rec bl b R :
  unpinned rec (bl ++ [b]) R = if rec then R else unref b (unpinned rec bl R).
Proof. unfold unpinned. destruct rec; [done|]. by rewrite foldl_app. Qed.

Lemma unpinned_other rec bl b R : b ∉ bl -> unpinned rec bl R !! b = R !! b.
Proof.
  unfold unpinned. destruct rec; [done|]. revert R. induction bl as [|c bl IH]; intros R Hb; [done|].
  cbn. rewrite IH by set_solver. apply lookup_unref_ne. set_solver.
Qed.

Lemma dom_unref b R : dom (unref b R) ⊆ dom R.
Proof.
  unfold unref. destruct (R !! b) as [[|[|n]]|] eqn:E; rewrite ?dom_delete_L, ?dom_insert_L; try set_solver.
  all: apply elem_of_dom_2 in E; set_solver.
Qed.

Lemma unpinned_dom rec bl R : dom (unpinned rec bl R) ⊆ dom R.
Proof.
  unfold unpinned. destruct rec; [done|]. revert R. induction bl as [|c bl IH]; intros R; [done|].
  cbn. etrans; [apply IH|apply dom_unref].
Qed.

Lemma zip_snoc {A B : Type} (l : list A) (k : list B) a b :
  length l = length k -> zip (l ++ [a]) (k ++ [b]) = zip l k ++ [(a, b)].
Proof. intros Hl. by rewrite zip_with_app. Qed.

Lemma zip_keys {A B : Type} (l : list A) (k : list B) p : p ∈ zip l k -> p.1 ∈ l.
Proof. destruct p. by intros ?%elem_of_zip_l. Qed.

(** The room that [install_trans] needs in the cache. *)
Definition install_room (rec : bool) (bl : list Z) R : Prop :=
  if rec then (S (size (dom R)) < NBUF)%nat
  else NoDup bl /\ Forall (fun b => refs R b <> 0) bl /\ (size (dom R) < NBUF)%nat.

Lemma install_room_at rec bl R k b :
  install_room rec bl R -> bl !! k = Some b ->
  let R' := unpinned rec (take k bl) R in
  if rec then (S (size (dom R')) < NBUF)%nat else refs R' b <> 0 /\ (size (dom R') < NBUF)%nat.
Proof.
  intros Hroom Hb. cbn zeta. pose proof (subseteq_size _ _ (unpinned_dom rec (take k bl) R)).
  destruct rec; cbn [install_room] in Hroom; [lia|]. destruct Hroom as (Hnd & Hr & Hsz). split; [|lia].
  unfold refs. rewrite unpinned_other; [by apply (Forall_lookup_1 _ _ _ _ Hr Hb)|].
  intros (j & Hj)%list_elem_of_lookup. apply lookup_take_Some in Hj as [Hj Hlt].
  pose proof (NoDup_lookup _ _ _ _ Hnd Hj Hb). lia.
Qed.

Lemma install_trans_ok rec start bl ds s V R :
  in_cache s V R ∅ -> txn start bl (klog s) -> panicking s = false -> length ds = length bl ->
  (forall k d, ds !! k = Some d -> V !! log_block start (Z.of_nat k) = Some d) ->
  Forall (fun b => is_Some (V !! b)) bl -> install_room rec bl R ->
  exists s', install_trans rec s = Ok tt s' /\ io_step s s' (zip bl ds) /\
    in_cache s' (apply_writes (zip bl ds) V) (unpinned rec bl R) ∅.
Proof.
  intros HC Htx Hp Hlen Hds Hex Hroom. unfold install_trans. rewrite bind_gets, (tx_n _ _ _ Htx).
  destruct (foreach_range (fun k t =>
      let W := zip (take (Z.to_nat k) bl) (take (Z.to_nat k) ds) in
      io_step s t W /\ in_cache t (apply_writes W V) (unpinned rec (take (Z.to_nat k) bl) R) ∅)
      (Z.of_nat (length bl)) (install1 rec) s) as (s' & E & HS & HC'); [lia| | |].
  - cbn. split; [apply io_refl|]. by destruct rec.
  - intros k t Hk [HS HC']. set (W := zip _ _) in *.
    destruct (txn_block _ _ _ _ Htx Hk) as (b & Hb & Hlb & Hbr & Hnl & Hk').
    destruct (lookup_lt_is_Some_2 ds (Z.to_nat k)) as [d Hd]; [lia|].
    cbn zeta. rewrite (take_snoc ds k d), (take_snoc bl k b) by (done || lia).
    rewrite zip_snoc by (rewrite !length_take; lia). fold W. rewrite apply_writes_app, unpinned_snoc.
    destruct (install1_ok rec start k b d t (apply_writes W V) (unpinned rec (take (Z.to_nat k) bl) R))
      as (t' & E & HS' & HC2); rewrite ?(io_klog _ _ _ HS), ?(io_panicking _ _ _ HS); try done.
    + apply (tx_at _ _ _ Htx).
    + by apply not_log_block.
    + apply apply_writes_is_Some. by apply (Forall_lookup_1 _ _ _ _ Hex Hb).
    + pose proof (Hds _ _ Hd) as HV. rewrite Z2Nat.id in HV by lia. rewrite apply_writes_other; [done|].
      intros p Hin%zip_keys. apply (elem_of_take _ _ _) in Hin as (j & Hj & _).
      apply (Forall_lookup_1 _ _ _ _ (tx_home _ _ _ Htx)) in Hj as [_ Hj]. by apply not_log_block.
    + by apply install_room_at.
    + exists t'. split; [done|]. split; [by eapply io_trans|]. by destruct rec.
  - exists s'. split; [done|]. rewrite !take_ge in HS, HC' by lia. done.
Qed.

Lemma bread_new b d s V R :
  in_cache s V R ∅ -> V !! b = Some d -> (size (dom R) < NBUF)%nat ->
  exists i s', bread ROOTDEV b s = Ok i s' /\ io_step s s' [] /\ in_cache s' V R {[b := i]}.
Proof. intros. apply (bread_step b d); try done. right. by rewrite dom_empty_L, union_empty_r_L. Qed.

Lemma write_head_ok start bl d s V R :
  in_cache s V R ∅ -> txn start bl (klog s) -> V !! start = Some d -> (size (dom R) < NBUF)%nat ->
  exists s', write_head s = Ok tt s' /\ io_step s s' [(start, fill_header bl d)] /\
    in_cache s' (<[start := fill_header bl d]> V) R ∅.
Proof.
  intros HC Htx Hd Hsz. pose proof (tx_at _ _ _ Htx) as (Hst & Hdev & Hs0 & Hs1).
  pose proof (c_len _ _ _ _ _ (proj1 HC) _ _ Hd) as Hlen. pose proof (tx_len _ _ _ Htx).
  change LOGBLOCKS with 30 in Hs1. unfold write_head. rewrite bind_gets, Hst, Hdev, u32_small, (tx_n _ _ _ Htx) by lia.
  destruct (bread_new start d s V R HC Hd Hsz) as (i & s1 & E1 & S1 & HC1). run E1.
  set (d0 := put_u32 0 (Z.of_nat (length bl)) d).
  assert (length d0 = 1024%nat) as Hl0 by (unfold d0; rewrite length_put_u32; lia).
  destruct (set_bdata_step start i d (put_u32 0 (Z.of_nat (length bl))) s1 V R {[start := i]})
    as (s2 & E2 & S2 & HC2); [done|by rewrite lookup_singleton_eq|done|done|].
  run E2.
  destruct (foreach_range (fun k t => io_step s2 t [] /\
      in_cache t (<[start := fill_blocks bl d0 (Z.to_nat k)]> V) R {[start := i]})
      (Z.of_nat (length bl)) (fun j => x <- lh_get j ;; set_bdata i (put_u32 (4 + 4 * Z.to_nat j) x)) s2)
    as (s3 & E3 & S3 & HC3); [lia|by split; [apply io_refl|]| |].
  { intros k t Hk [HS HC'].
    destruct (txn_block _ _ _ _ Htx Hk) as (b & Hb & Hlb & _ & _ & Hk').
    erewrite bind_ok by (apply lh_get_ok; by rewrite (io_klog _ _ _ HS), (io_klog _ _ _ S2), (io_klog _ _ _ S1)).
    replace (Z.to_nat (k + 1)) with (S (Z.to_nat k)) by lia. cbn [fill_blocks]. rewrite Hb. cbn [from_option id].
    change LOGBLOCKS with 30 in Hk'.
    destruct (set_bdata_step start i (fill_blocks bl d0 (Z.to_nat k)) (put_u32 (4 + 4 * Z.to_nat k) b) t _ R _ HC')
      as (t' & E & HS' & HC2'); [by rewrite lookup_singleton_eq|by rewrite lookup_insert_eq| |].
    { rewrite length_put_u32; rewrite length_fill_blocks by (done || lia); lia. }
    rewrite insert_insert_eq in HC2'. exists t'. clear S1 S2. io_join. done. }
  run E3. rewrite Nat2Z.id in HC3. fold (fill_header bl d) in HC3.
  destruct (bwrite_step start i (fill_header bl d) s3 _ R _ HC3) as (s4 & E4 & S4 & HC4);
    [by rewrite lookup_singleton_eq|by rewrite lookup_insert_eq|]. run E4.
  destruct (brelse_step start i s4 _ R _ HC4) as (s5 & E5 & S5 & HC5); [by rewrite lookup_singleton_eq| |].
  { right. rewrite lookup_insert_eq, (io_disk _ _ _ S4). cbn. apply lookup_insert_eq. }
  rewrite delete_singleton_eq in HC5. io_join. by exists s5.
Qed.

(** ** [commit] and [recover_from_log] *)

Lemma io_set_klog lg s s' W : io_step s s' W -> io_step (s <| klog := lg |>) (s' <| klog := lg |>) W.
Proof. intros (bs & ub & ut & ->). exists bs, ub, ut. rs. st_eq s. Qed.

Lemma in_cache_klog lg s V R H : in_cache s V R H -> in_cache (s <| klog := lg |>) V R H.
Proof.
  intros [HC HE]. split; [by apply (cache_frame pid s)|]. by apply (fs_env_frame pid s).
Qed.

Lemma updlog_ok f s : updlog f s = Ok tt (s <| klog := f (klog s) |>).
Proof. done. Qed.

Lemma txn_clear start bl lg : txn start bl lg -> txn start [] (lg <| l_n := 0 |>).
Proof.
  intros [(H1 & H2 & H3) _ _ _ _]. split; rs; try done.
  cbn. lia.
Qed.

(** The tail that [commit] and [recover_from_log] share: the log is emptied. *)
Lemma clear_log_ok start bl h s V R :
  in_cache s V R ∅ -> txn start bl (klog s) -> V !! start = Some h -> (size (dom R) < NBUF)%nat ->
  let lg := (klog s) <| l_n := 0 |> in
  exists s', bind (updlog (fun lg => lg <| l_n := 0 |>)) (fun _ => write_head) s = Ok tt s' /\
    io_step (s <| klog := lg |>) s' [(start, fill_header [] h)] /\
    in_cache s' (<[start := fill_header [] h]> V) R ∅.
Proof.
  intros HC Htx Hh Hsz lg. run (updlog_ok _ s).
  apply (write_head_ok start [] h); [by apply in_cache_klog| |done|done].
  rs. by eapply txn_clear.
Qed.

(** What [commit] writes, in this order. *)
Definition commit_writes (start : Z) (bl : list Z) (ds : list (list Z)) (h : list Z) : list (Z * list Z) :=
  log_writes start ds ++ [(start, fill_header bl h)] ++ zip bl ds ++
  [(start, fill_header [] (fill_header bl h))].

Lemma commit_ok start bl ds h s V R :
  in_cache s V R ∅ -> txn start bl (klog s) -> panicking s = false -> log_exists start V ->
  bl <> [] -> NoDup bl -> Forall2 (fun b d => V !! b = Some d /\ refs R b <> 0) bl ds ->
  (size (dom R) < NBUF)%nat -> V !! start = Some h ->
  let W := commit_writes start bl ds h in
  exists s', commit s = Ok tt s' /\ io_step (s <| klog := (klog s) <| l_n := 0 |> |>) s' W /\
    in_cache s' (apply_writes W V) (unpinned false bl R) ∅.
Proof.
  intros HC Htx Hp Hlog Hbl Hnd Hds Hsz Hh W. unfold commit. rewrite bind_gets.
  pose proof (Forall2_length _ _ _ Hds) as Hlen. pose proof (tx_len _ _ _ Htx) as Hl30.
  assert ((0 <? l_n (klog s)) = true) as ->.
  { apply Z.ltb_lt. rewrite (tx_n _ _ _ Htx). destruct bl; [done|]. cbn [length]. lia. }
  cbn [when].
  assert (forall p, p ∈ log_writes start ds -> in_log start p.1 /\ p.1 <> start) as Hkeys
    by (intros p; apply log_writes_keys; lia).
  destruct (write_log_ok start bl ds s V R HC Htx Hlog Hds Hsz) as (s1 & E1 & S1 & HC1). run E1.
  set (V1 := apply_writes (log_writes start ds) V) in *.
  destruct (write_head_ok start bl h s1 V1 R HC1) as (s2 & E2 & S2 & HC2); [by rewrite (io_klog _ _ _ S1)| |done|].
  { unfold V1. rewrite apply_writes_other; [done|]. intros p ?%Hkeys. tauto. }
  run E2. set (V2 := <[start := fill_header bl h]> V1) in *.
  pose proof (io_trans _ _ _ _ _ S1 S2) as S12.
  destruct (install_trans_ok false start bl ds s2 V2 R HC2) as (s3 & E3 & S3 & HC3).
  - by rewrite (io_klog _ _ _ S12).
  - by rewrite (io_panicking _ _ _ S12).
  - done.
  - intros k d Hd. unfold V2. rewrite lookup_insert_ne by (unfold log_block; lia). by apply log_writes_lookup.
  - apply (Forall2_Forall_l _ _ _ _ Hds). apply Forall_true. intros d b [Hb _]. unfold V2, V1.
    rewrite lookup_insert_is_Some'. right. by apply apply_writes_is_Some.
  - split_and!; [done| |done]. apply (Forall2_Forall_l _ _ _ _ Hds). apply Forall_true. by intros d b [_ Hb].
  - run E3. pose proof (io_trans _ _ _ _ _ S12 S3) as S13.
    destruct (clear_log_ok start bl (fill_header bl h) s3 (apply_writes (zip bl ds) V2) (unpinned false bl R) HC3)
      as (s4 & E4 & S4 & HC4).
    + by rewrite (io_klog _ _ _ S13).
    + rewrite apply_writes_other; [apply lookup_insert_eq|]. intros p Hp'%zip_keys Hps. rewrite Hps in Hp'.
      apply (proj1 (Forall_forall _ _) (tx_home _ _ _ Htx)) in Hp' as [_ Hp']. apply Hp'. unfold in_log.
      change LOGBLOCKS with 30. lia.
    + pose proof (subseteq_size _ _ (unpinned_dom false bl R)). lia.
    + exists s4. split; [done|]. rewrite (io_klog _ _ _ S13) in S4.
      pose proof (io_trans _ _ _ _ _ (io_set_klog _ _ _ _ S13) S4) as S14.
      unfold W, commit_writes. rewrite !apply_writes_app. rewrite <- !app_assoc in S14. done.
Qed.

(** A header that [commit] could have written. *)
Definition header_ok (start : Z) V (h : list Z) : Prop :=
  0 <= get_s32 0 h <= LOGBLOCKS /\
  Forall (fun b => 0 <= b < 2 ^ 31 /\ ~ in_log start b /\ is_Some (V !! b)) (header_blocks h).

Lemma length_header_blocks h : length (header_blocks h) = Z.to_nat (get_s32 0 h).
Proof. unfold header_blocks. by rewrite length_map, length_seq. Qed.

Lemma lookup_header_blocks h k b :
  header_blocks h !! k = Some b -> b = get_s32 (4 + 4 * k) h /\ (k < Z.to_nat (get_s32 0 h))%nat.
Proof.
  unfold header_blocks. rewrite list_lookup_fmap. intros (j & Hj & ->)%fmap_Some.
  apply lookup_seq in Hj as [-> Hk]. done.
Qed.

(** The in-memory header after [read_head] of [h]. *)
Lemma load_header_ok h s :
  length (l_block (klog s)) = Z.to_nat LOGBLOCKS -> 0 <= get_s32 0 h <= LOGBLOCKS ->
  exists lb, foreach (seqZ 0 (get_s32 0 h)) (fun i => lh_set i (get_s32 (4 + 4 * Z.to_nat i) h)) s =
      Ok tt (s <| klog := (klog s) <| l_block := lb |> |>) /\ length lb = Z.to_nat LOGBLOCKS /\
    forall k b, header_blocks h !! k = Some b -> lb !! k = Some b.
Proof.
  intros Hl Hn.
  destruct (foreach_range (fun k t => exists lb, t = s <| klog := (klog s) <| l_block := lb |> |> /\
      length lb = Z.to_nat LOGBLOCKS /\
      forall j, (j < Z.to_nat k)%nat -> lb !! j = Some (get_s32 (4 + 4 * j) h))
      (get_s32 0 h) (fun i => lh_set i (get_s32 (4 + 4 * Z.to_nat i) h)) s)
    as (s' & E & lb & -> & Hlb & Hj); [lia| | |].
  - exists (l_block (klog s)). split; [|split; [done|lia]]. destruct s as [], klog. reflexivity.
  - intros k t Hk (lb & -> & Hlb & Hj).
    exists (s <| klog := (klog s) <| l_block := <[Z.to_nat k := get_s32 (4 + 4 * Z.to_nat k) h]> lb |> |>).
    split.
    + unfold lh_set. rewrite bind_gets. rs. rewrite decide_True by lia. reflexivity.
    + eexists. split; [done|]. rewrite length_insert. split; [done|]. intros j Hjk.
      destruct (decide (j = Z.to_nat k)) as [->|Hne]; [by rewrite list_lookup_insert_eq by lia|].
      rewrite list_lookup_insert_ne by done. apply Hj. lia.
  - exists lb. split; [done|]. split; [done|]. intros k b [-> Hk]%lookup_header_blocks. by apply Hj.
Qed.

Lemma read_head_ok start h s V R :
  in_cache s V R ∅ -> log_at start (klog s) -> length (l_block (klog s)) = Z.to_nat LOGBLOCKS ->
  V !! start = Some h -> header_ok start V h -> (size (dom R) < NBUF)%nat -> refs R start = 0 ->
  exists lg s', read_head s = Ok tt s' /\ io_step (s <| klog := lg |>) s' [] /\ in_cache s' V R ∅ /\
    txn start (header_blocks h) lg /\ length (l_block lg) = Z.to_nat LOGBLOCKS.
Proof.
  intros HC Hlog Hlen Hh [Hn Hhome] Hsz Hr. pose proof Hlog as (Hst & Hdev & Hs0 & Hs1).
  change LOGBLOCKS with 30 in Hs1. unfold read_head. rewrite bind_gets, Hst, Hdev, u32_small by lia.
  destruct (bread_new start h s V R HC Hh Hsz) as (i & s1 & E1 & S1 & HC1). run E1.
  erewrite bind_ok by (eapply (bdata_step start); [exact HC1|by rewrite lookup_singleton_eq|exact Hh]).
  run (updlog_ok _ s1). set (lg1 := _ <| l_n := _ |>).
  destruct (load_header_ok h (s1 <| klog := lg1 |>)) as (lb & E2 & Hlb & Hbl).
  { rs. unfold lg1. rs. by rewrite (io_klog _ _ _ S1). }
  { done. }
  run E2. rs. set (lg := _ <| l_block := lb |>).
  replace (s1 <| klog := lg1 |> <| klog := lg |>) with (s1 <| klog := lg |>) by st_eq s1.
  destruct (brelse_step start i (s1 <| klog := lg |>) V R {[start := i]}) as (s2 & E3 & S3 & HC3).
  - by apply in_cache_klog.
  - by rewrite lookup_singleton_eq.
  - right. rs. rewrite (io_disk _ _ _ S1). cbn. by apply (c_clean _ _ _ _ _ (proj1 HC)).
  - exists lg, s2. split; [done|]. rewrite delete_singleton_eq in HC3.
    split; [exact (io_trans _ _ _ _ _ (io_set_klog _ _ _ _ S1) S3)|]. split; [done|].
    unfold lg, lg1. rewrite (io_klog _ _ _ S1). split; [|by rs]. split; rs; try done.
    + rewrite length_header_blocks. lia.
    + rewrite length_header_blocks. change LOGBLOCKS with 30 in Hn. lia.
    + eapply Forall_impl; [exact Hhome|]. tauto.
Qed.

(** The data that the log has for [n] blocks. *)
Definition logged_data (start : Z) V (n : nat) : list (list Z) :=
  map (fun k => default [] (V !! log_block start (Z.of_nat k))) (seq 0 n).

Lemma lookup_logged_data start V n k d :
  logged_data start V n !! k = Some d -> d = default [] (V !! log_block start (Z.of_nat k)) /\ (k < n)%nat.
Proof.
  unfold logged_data. rewrite list_lookup_fmap. intros (j & Hj & ->)%fmap_Some.
  by apply lookup_seq in Hj as [-> Hk].
Qed.

Lemma recover_from_log_ok start h s V R :
  in_cache s V R ∅ -> log_at start (klog s) -> length (l_block (klog s)) = Z.to_nat LOGBLOCKS ->
  panicking s = false -> log_exists start V -> V !! start = Some h -> header_ok start V h ->
  (S (size (dom R)) < NBUF)%nat -> refs R start = 0 ->
  let W := zip (header_blocks h) (logged_data start V (length (header_blocks h))) ++
           [(start, fill_header [] h)] in
  exists lg s', recover_from_log s = Ok tt s' /\ io_step (s <| klog := lg |>) s' W /\
    in_cache s' (apply_writes W V) R ∅ /\ txn start [] lg /\
    length (l_block lg) = Z.to_nat LOGBLOCKS.
Proof.
  intros HC Hlog Hlen Hp Hex Hh Hok Hsz Hr W. unfold recover_from_log.
  destruct (read_head_ok start h s V R) as (lg & s1 & E1 & S1 & HC1 & Htx & Harr); try done; [lia|]. run E1.
  set (bl := header_blocks h) in *. set (ds := logged_data start V (length bl)) in *.
  pose proof (io_klog _ _ _ S1) as Hk1. rs_in Hk1. pose proof (io_panicking _ _ _ S1) as Hp1. rs_in Hp1.
  destruct (install_trans_ok true start bl ds s1 V R HC1) as (s2 & E2 & S2 & HC2).
  - by rewrite Hk1.
  - congruence.
  - unfold ds, logged_data. by rewrite length_map, length_seq.
  - intros k d [-> Hk]%lookup_logged_data. pose proof (tx_len _ _ _ Htx).
    destruct (Hex (log_block start (Z.of_nat k))) as [d Hd]; [apply in_log_block; change LOGBLOCKS with 30; lia|].
    by rewrite Hd.
  - eapply Forall_impl; [exact (proj2 Hok)|]. naive_solver.
  - done.
  - run E2. pose proof (io_trans _ _ _ _ _ S1 S2) as S12.
    destruct (clear_log_ok start bl h s2 (apply_writes (zip bl ds) V) R HC2) as (s3 & E3 & S3 & HC3).
    + by rewrite (io_klog _ _ _ S2), Hk1.
    + rewrite apply_writes_other; [done|]. intros p Hp'%zip_keys Hps. rewrite Hps in Hp'.
      apply (proj1 (Forall_forall _ _) (tx_home _ _ _ Htx)) in Hp' as [_ Hp']. apply Hp'. unfold in_log.
      change LOGBLOCKS with 30. lia.
    + lia.
    + rewrite (io_klog _ _ _ S2), Hk1 in S3. eexists _, s3. split; [done|].
      split.
      { pose proof (io_set_klog (lg <| l_n := 0 |>) _ _ _ S12) as S.
        replace (s <| klog := lg |> <| klog := lg <| l_n := 0 |> |>) with (s <| klog := lg <| l_n := 0 |> |>) in S
          by st_eq s.
        exact (io_trans _ _ _ _ _ S S3). }
      unfold W. rewrite apply_writes_app. split; [done|]. split; [by eapply txn_clear|done].
Qed.

End steps.
