(* ===== verification/Crash.v ===== *)
(** Crash safety of the log: whatever prefix of the writes of [commit] or of
    [recover_from_log] reaches the disk, recovery finds either all of the transaction
    or none of it. *)

From stdpp Require Import prelude gmap strings.
From Stdlib Require Import ZArith Lia.
From S2P Require Import Prelude Bytes Params State Spinlock Uart Printk Sched Sleeplock Disk Bio Cache Log Recovery.

Local Open Scope Z_scope.
Local Open Scope kernel_scope.

(** ** What is on the disk *)

Section contents.
Context (start : Z).
Implicit Types (D V : gmap Z (list Z)).

(** The writes that the log on the disk still has to make. *)
Definition replay_writes D : list (Z * list Z) :=
  match D !! start with
  | Some h => zip (header_blocks h) (logged_data start D (length (header_blocks h)))
  | None => []
  end.

(** The disk as it is to be read: with a committed transaction in place. *)
Definition replay D : gmap Z (list Z) := apply_writes (replay_writes D) D.

(** The same contents, outside of the log. *)
Definition same_files D V : Prop := forall b, ~ in_log start b -> D !! b = V !! b.

#[export] Instance same_files_equiv : Equivalence same_files.
Proof.
  split; [done| |]; unfold same_files; [intros D V H b Hb|intros D V U H1 H2 b Hb].
  - by rewrite H.
  - by rewrite H1, H2.
Qed.

(** The log on the disk is one that [commit] could have left. *)
Definition log_ok D : Prop :=
  0 <= start /\ start + LOGBLOCKS + 1 < 2 ^ 31 /\ log_exists start D /\
  exists h, D !! start = Some h /\ length h = 1024%nat /\ header_ok start D h.

(** The log on the disk is empty. *)
Definition log_empty D : Prop := exists h, D !! start = Some h /\ length h = 1024%nat /\ get_s32 0 h = 0.

Lemma in_log_start : in_log start start.
Proof. unfold in_log. change LOGBLOCKS with 30. lia. Qed.

Lemma replay_empty D : log_empty D -> replay D = D.
Proof.
  intros (h & Hh & _ & Hn). unfold replay, replay_writes. rewrite Hh.
  assert (header_blocks h = []) as -> by (unfold header_blocks; by rewrite Hn). done.
Qed.

Lemma header_ok_mono D D' h :
  (forall b, is_Some (D !! b) -> is_Some (D' !! b)) -> header_ok start D h -> header_ok start D' h.
Proof. intros HD [Hn Hh]. split; [done|]. eapply Forall_impl; [exact Hh|]. naive_solver. Qed.

Lemma log_exists_writes W D : log_exists start D -> log_exists start (apply_writes W D).
Proof. intros HD b Hb. by apply apply_writes_is_Some, HD. Qed.

(** Writes outside of the log do not change what the log has to say. *)
Lemma log_ok_frame W D :
  (forall p, p ∈ W -> p.1 <> start) -> log_ok D -> log_ok (apply_writes W D).
Proof.
  intros HW (H1 & H2 & He & h & Hh & Hl & Hok). split_and!; try done; [by apply log_exists_writes|].
  exists h. rewrite apply_writes_other by done. split_and!; try done.
  eapply header_ok_mono; [|exact Hok]. intros b. apply apply_writes_is_Some.
Qed.

Lemma logged_data_frame D D' n :
  (n <= 30)%nat -> (forall b, in_log start b -> D' !! b = D !! b) ->
  logged_data start D' n = logged_data start D n.
Proof.
  intros Hn HD. apply map_ext_in. intros k Hk%in_seq. rewrite HD; [done|].
  apply in_log_block. change LOGBLOCKS with 30. lia.
Qed.

Lemma replay_writes_frame D W :
  log_ok D -> (forall p, p ∈ W -> ~ in_log start p.1) -> replay_writes (apply_writes W D) = replay_writes D.
Proof.
  intros (_ & _ & _ & h & Hh & _ & [Hn _]) HW.
  assert (forall b, in_log start b -> apply_writes W D !! b = D !! b) as HD.
  { intros b Hb. apply apply_writes_other. intros p Hp <-. by apply (HW p). }
  unfold replay_writes. rewrite HD by apply in_log_start. rewrite Hh.
  rewrite (logged_data_frame D); [done| |done]. rewrite length_header_blocks.
  change LOGBLOCKS with 30 in Hn. lia.
Qed.

Lemma replay_writes_home D p : log_ok D -> p ∈ replay_writes D -> ~ in_log start p.1.
Proof.
  intros (_ & _ & _ & h & Hh & _ & [_ Hok]) Hp. unfold replay_writes in Hp. rewrite Hh in Hp.
  apply zip_keys in Hp. apply (proj1 (Forall_forall _ _) Hok) in Hp. tauto.
Qed.

(** ** Writes over writes *)

Lemma apply_writes_notin W D b : b ∉ W.*1 -> apply_writes W D !! b = D !! b.
Proof.
  intros Hb. apply apply_writes_other. intros q Hq Eq. apply Hb. rewrite <- Eq. apply list_elem_of_fmap. eauto.
Qed.

Lemma apply_writes_over W D D' b :
  b ∈ W.*1 -> apply_writes W D !! b = apply_writes W D' !! b.
Proof.
  revert D D'. induction W as [|p W IH]; intros D D' Hb; [by apply not_elem_of_nil in Hb|].
  rewrite !apply_writes_cons.
  destruct (decide (b ∈ W.*1)) as [Hin|Hin]; [by apply IH|].
  cbn in Hb. apply elem_of_cons in Hb as [->|Hb]; [|done].
  by rewrite !apply_writes_notin, !lookup_insert_eq.
Qed.

(** Doing a part of the writes first makes no difference. *)
Lemma apply_writes_again W W' D : W' `prefix_of` W -> apply_writes W (apply_writes W' D) = apply_writes W D.
Proof.
  intros [W2 ->]. apply map_eq. intros b.
  destruct (decide (b ∈ (W' ++ W2).*1)) as [Hb|Hb]; [by apply apply_writes_over|].
  assert (b ∉ W'.*1) by (rewrite fmap_app in Hb; set_solver).
  by rewrite !apply_writes_notin.
Qed.

Lemma apply_writes_log W D : (forall p, p ∈ W -> in_log start p.1) -> same_files (apply_writes W D) D.
Proof. intros HW b Hb. apply apply_writes_other. intros p Hp <-. by apply Hb, HW. Qed.

Lemma prefix_app_inv {A : Type} (W l1 l2 : list A) :
  W `prefix_of` l1 ++ l2 -> W `prefix_of` l1 \/ exists W2, W = l1 ++ W2 /\ W2 `prefix_of` l2.
Proof.
  revert l1. induction W as [|x W IH]; intros [|y l1] H; cbn in *; eauto using prefix_nil.
  apply prefix_cons_inv_1 in H as E. apply prefix_cons_inv_2 in H. subst y.
  destruct (IH _ H) as [?|(W2 & -> & ?)]; [left; by apply prefix_cons|right; eauto].
Qed.

Lemma prefix_singleton {A : Type} (W : list A) x : W `prefix_of` [x] -> W = [] \/ W = [x].
Proof.
  destruct W as [|y W]; [by left|]. intros H. right. apply prefix_cons_inv_1 in H as E.
  apply prefix_cons_inv_2, prefix_nil_inv in H. by subst.
Qed.

Lemma prefix_elem {A : Type} (W l : list A) x : W `prefix_of` l -> x ∈ W -> x ∈ l.
Proof. intros [k ->] Hx. set_solver. Qed.

(** ** Recovery, interrupted anywhere *)

Definition recovery_writes D (h : list Z) : list (Z * list Z) :=
  replay_writes D ++ [(start, fill_header [] h)].

Lemma fill_header_empty h : length h = 1024%nat -> get_s32 0 (fill_header [] h) = 0.
Proof. intros Hh. apply (header_blocks_fill [] h); [cbn; lia|done|constructor]. Qed.

Lemma log_empty_ok D : 0 <= start -> start + LOGBLOCKS + 1 < 2 ^ 31 -> log_exists start D -> log_empty D -> log_ok D.
Proof.
  intros H1 H2 He (h & Hh & Hl & Hn). split_and!; try done. exists h. split_and!; try done. split.
  - rewrite Hn. change LOGBLOCKS with 30. lia.
  - unfold header_blocks. rewrite Hn. constructor.
Qed.

Lemma recovery_complete D h :
  log_ok D -> D !! start = Some h ->
  let D' := apply_writes (recovery_writes D h) D in log_empty D' /\ same_files D' (replay D).
Proof.
  intros (_ & _ & _ & h' & Hh' & Hl & _) Hh. assert (h' = h) as -> by congruence. cbn zeta.
  unfold recovery_writes. rewrite apply_writes_app. fold (replay D). split.
  - exists (fill_header [] h). cbn [apply_writes foldl fst snd]. rewrite lookup_insert_eq. split; [done|].
    split; [apply length_fill_header; [cbn; lia|done]|by apply fill_header_empty].
  - apply apply_writes_log. intros p ->%list_elem_of_singleton. apply in_log_start.
Qed.

Lemma replay_prefix D W :
  log_ok D -> W `prefix_of` replay_writes D ->
  log_ok (apply_writes W D) /\ same_files (replay (apply_writes W D)) (replay D).
Proof.
  intros Hok HW.
  assert (forall p, p ∈ W -> ~ in_log start p.1) as Hhome.
  { intros p Hp. apply (replay_writes_home D); [done|]. by eapply prefix_elem. }
  split; [apply log_ok_frame; [|done]; intros p Hp E; apply (Hhome p Hp); rewrite E; apply in_log_start|].
  unfold replay. rewrite replay_writes_frame by done. by rewrite apply_writes_again.
Qed.

Lemma recovery_prefix D h W :
  log_ok D -> D !! start = Some h -> W `prefix_of` recovery_writes D h ->
  log_ok (apply_writes W D) /\ same_files (replay (apply_writes W D)) (replay D).
Proof.
  intros Hok Hh HW. apply prefix_app_inv in HW as [HW|(W2 & -> & [->| ->]%prefix_singleton)].
  - by apply replay_prefix.
  - rewrite app_nil_r. by apply replay_prefix.
  - destruct (recovery_complete D h Hok Hh) as [He Hs]. fold (recovery_writes D h).
    destruct Hok as (H1 & H2 & Hex & _).
    split; [apply log_empty_ok; try done; by apply log_exists_writes|]. by rewrite replay_empty.
Qed.

(** ** [commit], interrupted anywhere *)

Lemma zip_install V bl ds D b :
  Forall2 (fun b d => V !! b = Some d) bl ds -> b ∈ bl -> apply_writes (zip bl ds) D !! b = V !! b.
Proof.
  intros Hds. revert D. induction Hds as [|c d bl ds Hd Hds IH]; intros D Hb; [by apply not_elem_of_nil in Hb|].
  cbn [zip zip_with]. rewrite apply_writes_cons. cbn [fst snd].
  destruct (decide (b ∈ bl)) as [Hin|Hin]; [by apply IH|].
  apply elem_of_cons in Hb as [->|Hb]; [|done].
  rewrite apply_writes_other by (intros q Hq%zip_keys Eq; congruence). by rewrite lookup_insert_eq.
Qed.

(** The disk [D] and the contents [V] of a transaction with the blocks [bl]. *)
Record pending (bl : list Z) (ds : list (list Z)) (h : list Z) D V : Prop := {
  pd_start : 0 <= start /\ start + LOGBLOCKS + 1 < 2 ^ 31;
  pd_len : (length bl <= 30)%nat;
  pd_log : log_exists start D;
  pd_empty : D !! start = Some h /\ length h = 1024%nat /\ get_s32 0 h = 0;
  pd_home : Forall (fun b => 0 <= b < 2 ^ 31 /\ ~ in_log start b /\ is_Some (D !! b)) bl;
  pd_data : Forall2 (fun b d => V !! b = Some d) bl ds;
  pd_clean : forall b, b ∉ bl -> ~ in_log start b -> D !! b = V !! b;
}.

(** The disk at the commit point. *)
Definition committed (bl : list Z) (ds : list (list Z)) (h : list Z) D : gmap Z (list Z) :=
  <[start := fill_header bl h]> (apply_writes (log_writes start ds) D).

Lemma committed_ok bl ds h D V :
  pending bl ds h D V ->
  let D1 := committed bl ds h D in
  D1 !! start = Some (fill_header bl h) /\ log_ok D1 /\ replay_writes D1 = zip bl ds /\ same_files (replay D1) V.
Proof.
  intros [[H1 H2] Hl Hex (Hh & Hhl & Hn) Hhome Hds Hclean] D1.
  destruct (header_blocks_fill bl h) as [Hbl Hlen]; [done|done|eapply Forall_impl; [exact Hhome|]; naive_solver|].
  pose proof (Forall2_length _ _ _ Hds) as Hdl.
  assert (D1 !! start = Some (fill_header bl h)) as HD1 by apply lookup_insert_eq.
  assert (forall b, is_Some (D !! b) -> is_Some (D1 !! b)) as Hmono.
  { intros b Hb. unfold D1, committed. rewrite lookup_insert_is_Some'. right. by apply apply_writes_is_Some. }
  assert (replay_writes D1 = zip bl ds) as Hrw.
  { unfold replay_writes. rewrite HD1, Hbl. f_equal. apply list_eq. intros k. unfold logged_data.
    rewrite list_lookup_fmap. destruct (ds !! k) as [d|] eqn:Hd.
    - apply lookup_lt_Some in Hd as Hk. rewrite lookup_seq_lt by lia. cbn. f_equal.
      unfold D1, committed. rewrite lookup_insert_ne by (unfold log_block; lia).
      by rewrite (log_writes_lookup _ _ _ d).
    - apply lookup_ge_None in Hd. by rewrite lookup_seq_ge by lia. }
  split; [done|]. split; [|split; [done|]].
  - split_and!; try done; [by intros b Hb; apply Hmono, Hex|].
    exists (fill_header bl h). split; [done|]. split; [by apply length_fill_header|].
    split; [rewrite Hlen; change LOGBLOCKS with 30; lia|]. rewrite Hbl.
    eapply Forall_impl; [exact Hhome|]. naive_solver.
  - intros b Hb. unfold replay. rewrite Hrw. destruct (decide (b ∈ bl)) as [Hin|Hin]; [by apply zip_install|].
    rewrite apply_writes_other by (intros q Hq%zip_keys Eq; congruence). rewrite <- Hclean by done.
    unfold D1, committed. rewrite lookup_insert_ne by (intros <-; apply Hb, in_log_start).
    apply apply_writes_other. intros p Hp <-. apply log_writes_keys in Hp; [tauto|lia].
Qed.

Lemma commit_prefix bl ds h D V W :
  pending bl ds h D V -> W `prefix_of` commit_writes start bl ds h ->
  log_ok (apply_writes W D) /\
  (same_files (replay (apply_writes W D)) D \/ same_files (replay (apply_writes W D)) V).
Proof.
  intros Hp HW. pose proof Hp as [[H1 H2] Hl Hex Hempty Hhome Hds Hclean].
  pose proof (Forall2_length _ _ _ Hds) as Hdl.
  assert (forall W', W' `prefix_of` log_writes start ds ->
            log_ok (apply_writes W' D) /\ same_files (replay (apply_writes W' D)) D) as Hbefore.
  { intros W' HW'.
    assert (forall p, p ∈ W' -> in_log start p.1 /\ p.1 <> start) as Hk.
    { intros p Hpp. apply (log_writes_keys start ds); [lia|]. by eapply prefix_elem. }
    assert (log_empty (apply_writes W' D)) as He.
    { exists h. by rewrite apply_writes_other by (intros p Hpp; apply (Hk p Hpp)). }
    split; [apply log_empty_ok; try done; by apply log_exists_writes|].
    rewrite replay_empty by done. apply apply_writes_log. intros p Hpp. apply (Hk p Hpp). }
  unfold commit_writes in HW. apply prefix_app_inv in HW as [HW|(W2 & -> & HW)].
  { destruct (Hbefore W HW). auto. }
  destruct (committed_ok _ _ _ _ _ Hp) as (Hc1 & Hc2 & Hc3 & Hc4).
  apply prefix_app_inv in HW as [[->| ->]%prefix_singleton|(W3 & -> & HW)].
  - rewrite app_nil_r. destruct (Hbefore (log_writes start ds)); [done|auto].
  - rewrite apply_writes_app. fold (committed bl ds h D). auto.
  - rewrite !apply_writes_app. fold (committed bl ds h D). rewrite <- Hc3 in HW.
    fold (recovery_writes (committed bl ds h D) (fill_header bl h)) in HW.
    destruct (recovery_prefix _ _ _ Hc2 Hc1 HW) as [Ho Hs]. split; [done|]. right. by rewrite Hs.
Qed.

(** The end of [commit] is the end of recovery from the commit point. *)
Lemma commit_complete bl ds h D V :
  pending bl ds h D V ->
  let D' := apply_writes (commit_writes start bl ds h) D in log_empty D' /\ same_files D' V.
Proof.
  intros Hp. destruct (committed_ok _ _ _ _ _ Hp) as (Hc1 & Hc2 & Hc3 & Hc4). cbn zeta.
  unfold commit_writes. rewrite apply_writes_app, apply_writes_app. fold (committed bl ds h D). rewrite <- Hc3.
  fold (recovery_writes (committed bl ds h D) (fill_header bl h)).
  destruct (recovery_complete _ _ Hc2 Hc1) as [He Hs]. split; [done|]. by rewrite Hs.
Qed.

End contents.
