(* ===== verification/Txn.v ===== *)
(** Transactions: [begin_op], [log_write] and [end_op] on top of the buffer cache and
    [commit]. *)

From stdpp Require Import prelude gmap strings.
From Stdlib Require Import ZArith Lia.
From S2P Require Import Prelude Bytes Params State Spinlock Uart Printk Sched Sleeplock Disk Bio Cache Log Recovery Crash.

Local Open Scope Z_scope.
Local Open Scope kernel_scope.

(** ** Pins *)

(** The references that the log holds: one to each block of the transaction. *)
Definition pins (bl : list Z) : gmap Z nat := gset_to_gmap 1%nat (list_to_set bl).

Lemma lookup_pins bl b : pins bl !! b = if decide (b ∈ bl) then Some 1%nat else None.
Proof.
  unfold pins. destruct (decide (b ∈ bl)) as [Hb|Hb].
  - apply lookup_gset_to_gmap_Some. set_solver.
  - apply lookup_gset_to_gmap_None. set_solver.
Qed.

Lemma refs_pins bl b : refs (pins bl) b = if decide (b ∈ bl) then 1 else 0.
Proof. unfold refs. rewrite lookup_pins. by destruct (decide _). Qed.

Lemma pins_snoc bl b : b ∉ bl -> ref b (pins bl) = pins (bl ++ [b]).
Proof.
  intros Hb. apply map_eq. intros c. unfold ref. rewrite (lookup_pins (bl ++ [b])).
  destruct (decide (c = b)) as [->|Hne].
  - rewrite lookup_insert_eq, lookup_pins, decide_False, decide_True by set_solver. done.
  - rewrite lookup_insert_ne, lookup_pins by done. destruct (decide (c ∈ bl)) as [Hc|Hc].
    + by rewrite decide_True by set_solver.
    + by rewrite decide_False by set_solver.
Qed.

Lemma unpinned_pins bl : NoDup bl -> unpinned false bl (pins bl) = ∅.
Proof.
  unfold unpinned. induction 1 as [|b bl Hb Hnd IH]; [done|]. cbn.
  assert (unref b (pins (b :: bl)) = pins bl) as ->; [|done].
  apply map_eq. intros c. unfold unref. rewrite (lookup_pins (b :: bl)), decide_True by left.
  destruct (decide (c = b)) as [->|Hne].
  - by rewrite lookup_delete_eq, lookup_pins, decide_False.
  - rewrite lookup_delete_ne, !lookup_pins by done. destruct (decide (c ∈ bl)) as [Hc|Hc].
    + by rewrite decide_True by set_solver.
    + by rewrite decide_False by set_solver.
Qed.

Lemma size_pins bl : NoDup bl -> size (dom (pins bl)) = length bl.
Proof. intros Hnd. unfold pins. rewrite dom_gset_to_gmap. by apply size_list_to_set. Qed.

(** ** The invariant of the log *)

Record log_inv (pid start : Z) (bl : list Z) (s : kstate) (V : gmap Z (list Z)) (H : gmap Z nat) : Prop := {
  li_cache : in_cache pid s V (pins bl) H;
  li_txn : txn start bl (klog s);
  li_nodup : NoDup bl;
  li_array : length (l_block (klog s)) = Z.to_nat LOGBLOCKS;
  li_log : log_exists start V;
  li_exist : Forall (fun b => is_Some (V !! b)) bl;
  li_empty : log_empty start (disk s);
  li_unheld : forall b, in_log start b -> H !! b = None;
  li_printing : panicking s = false;
}.

Section ops.
Context {F : Fuel} (pid start : Z).
Implicit Types (s : kstate) (V : gmap Z (list Z)) (H : gmap Z nat) (bl : list Z).

Lemma wakeup_idle c s : fs_env pid s -> wakeup (Some c) s = Ok tt s.
Proof.
  intros HE. destruct (env_idle _ _ HE) as [Hn Hi].
  rewrite wakeup_ok by (split; [done|]; intros; by apply quiet_proc, HE).
  rewrite map_wake1_idle by done. f_equal. st_eq s.
Qed.

(** ** [log_write] *)

Lemma absorb_ok bl i b s :
  (forall k c, bl !! k = Some c -> l_block (klog s) !! (i + k)%nat = Some c) ->
  Forall (fun c => 0 <= c < 2 ^ 31) bl ->
  exists j, absorb (length bl) (Z.of_nat i) b s = Ok (Z.of_nat (i + j)) s /\
    (bl !! j = Some b \/ j = length bl /\ b ∉ bl).
Proof.
  revert i. induction bl as [|c bl IH]; intros i Hbl Hr; cbn [absorb length].
  - exists 0%nat. rewrite Nat.add_0_r. split; [done|]. right. split; [done|]. apply not_elem_of_nil.
  - apply Forall_cons_1 in Hr as [Hc Hr]. pose proof (Hbl 0%nat c eq_refl) as H0. rewrite Nat.add_0_r in H0.
    erewrite bind_ok by (apply lh_get_ok; rewrite Nat2Z.id; exact H0). rewrite u32_small by lia.
    destruct (Z.eqb_spec c b) as [->|Hne].
    + exists 0%nat. rewrite Nat.add_0_r. split; [done|]. by left.
    + destruct (IH (S i)) as (j & E & Hj); [|done|].
      { intros k d Hk. rewrite Nat.add_succ_comm. by apply Hbl. }
      exists (S j). replace (Z.of_nat i + 1) with (Z.of_nat (S i)) by lia. rewrite E, Nat.add_succ_comm.
      split; [done|]. destruct Hj as [Hj|[-> Hj]]; [by left|right]. split; [done|]. set_solver.
Qed.

(** The blocks of the transaction after [log_write] of [b]. *)
Definition logged (bl : list Z) (b : Z) : list Z := if decide (b ∈ bl) then bl else bl ++ [b].

Lemma txn_snoc bl lg b :
  txn start bl lg -> length (l_block lg) = Z.to_nat LOGBLOCKS -> (length bl < 30)%nat ->
  0 <= b < 2 ^ 31 -> ~ in_log start b ->
  txn start (bl ++ [b]) (lg <| l_block := <[length bl := b]> (l_block lg) |> <| l_n := l_n lg + 1 |>).
Proof.
  intros [H1 H2 H3 H4 H5] Hl Hn Hb Hnl. change (Z.to_nat LOGBLOCKS) with 30%nat in Hl. split; rs; try done.
  - rewrite H2, length_app. cbn. lia.
  - rewrite length_app. cbn. lia.
  - intros k c [Hk|[Hk1 Hk2]]%lookup_app_Some.
    + rewrite list_lookup_insert_ne by (apply lookup_lt_Some in Hk; lia). by apply H4.
    + apply list_lookup_singleton_Some in Hk2 as [? ->]. replace k with (length bl) by lia.
      apply list_lookup_insert_eq. lia.
  - apply Forall_app. split; [done|]. by apply Forall_singleton.
Qed.

Lemma lh_set_ok k v s :
  (k < length (l_block (klog s)))%nat ->
  lh_set (Z.of_nat k) v s = Ok tt (s <| klog := (klog s) <| l_block := <[k := v]> (l_block (klog s)) |> |>).
Proof. intros Hk. unfold lh_set. rewrite bind_gets, Nat2Z.id. by rewrite decide_True. Qed.

Lemma fs_env_lock l s : quiet_lock l -> fs_env pid s -> fs_env pid (s <| held := l :: held s |>).
Proof. intros Hl [H1 H2 H3]. split; rs; [done|done|]. by constructor. Qed.

Lemma log_write_ok bl b i s V H :
  log_inv pid start bl s V H -> H !! b = Some i -> L_log ∉ held s ->
  0 <= b < 2 ^ 31 -> ~ in_log start b -> (length bl < 30)%nat -> 1 <= l_outstanding (klog s) ->
  exists bs lb,
    let lg := (klog s) <| l_block := lb |> <| l_n := Z.of_nat (length (logged bl b)) |> in
    log_write i s = Ok tt (s <| bufs := bs |> <| klog := lg |>) /\
    log_inv pid start (logged bl b) (s <| bufs := bs |> <| klog := lg |>) V H.
Proof.
  intros HI Hb Hl Hbr Hnl Hn Ho. pose proof HI as [HC Htx Hnd Harr Hlog Hex Hemp Hun Hpr].
  destruct (cache_held _ _ _ _ _ _ _ (proj1 HC) Hb) as (x & _ & Hx & Hdx & Hbx & HV & _).
  unfold log_write. run (acquire_ok _ s Hl). set (s1 := s <| held := _ |>).
  rewrite bind_gets. change (klog s1) with (klog s).
  rewrite bind_panic_if by (rewrite (tx_n _ _ _ Htx); change LOGBLOCKS with 30; apply Z.leb_gt; lia).
  rewrite bind_panic_if by (apply Z.ltb_ge; lia).
  erewrite bind_ok by (apply (getbuf_ok i x); exact Hx). rewrite Hbx, (tx_n _ _ _ Htx), Nat2Z.id.
  destruct (absorb_ok bl 0 b s1) as (j & E & Hj).
  { intros k c Hk. cbn [Nat.add]. by apply (tx_blocks _ _ _ Htx). }
  { eapply Forall_impl; [exact (tx_home _ _ _ Htx)|]. naive_solver. }
  cbn [Z.of_nat Nat.add] in E. run E.
  rewrite s32_small by lia. change (Z.to_nat LOGBLOCKS) with 30%nat in Harr.
  assert (j <= length bl)%nat as Hjl by (destruct Hj as [?%lookup_lt_Some|[-> _]]; lia).
  erewrite bind_ok by (apply lh_set_ok; unfold s1; rs; lia). unfold s1. rs.
  set (lb := <[j := b]> (l_block (klog s))). unfold logged. destruct Hj as [Hj|[-> Hj]].
  - rewrite decide_True by (by eapply list_elem_of_lookup_2).
    destruct (Z.eqb_spec (Z.of_nat j) (Z.of_nat (length bl))) as [?|_]; [apply lookup_lt_Some in Hj; lia|].
    assert (lb = l_block (klog s)) as -> by (by apply list_insert_id, (tx_blocks _ _ _ Htx)).
    exists (bufs s), (l_block (klog s)). cbn zeta. rewrite <- (tx_n _ _ _ Htx). cbn [when]. rewrite bind_ret.
    rewrite (release_ok _ (held s)) by (done || by rs).
    split; [apply Ok_eq; [done|]; by destruct s as [], klog|].
    by replace (s <| bufs := _ |> <| klog := _ |>) with s by (by destruct s as [], klog).
  - rewrite decide_False by done. rewrite Z.eqb_refl. cbn [when].
    set (s2 := s <| held := _ |> <| klog := _ |>).
    assert (fs_env pid s2) as HE2.
    { apply (fs_env_frame pid (s <| held := L_log :: held s |>)); try done. by apply fs_env_lock, HC. }
    destruct (bpin_ok pid s2 V (pins bl) H b i) as (bs & Ep & HC2); [by apply (cache_frame pid s), HC|done|done|..].
    { rewrite refs_pins, decide_False by done. lia. }
    exists bs, lb. cbn zeta.
    erewrite bind_ok by (rewrite (bind_ok _ _ _ _ _ Ep); apply updlog_ok). unfold s2. rs.
    rewrite (release_ok _ (held s)) by (done || by rs).
    rewrite (tx_n _ _ _ Htx), length_app. cbn [length]. rewrite Nat2Z.inj_add. change (Z.of_nat 1) with 1.
    split; [apply Ok_eq; [done|]; by destruct s as [], klog|]. rewrite <- (tx_n _ _ _ Htx).
    split; rs; try done.
    + rewrite <- pins_snoc by done. split; [by apply (cache_frame pid (s2 <| bufs := bs |>))|].
      by apply (fs_env_frame pid s), HC.
    + by apply txn_snoc.
    + apply NoDup_app. split_and!; [done| |apply NoDup_singleton]. intros c Hc ->%list_elem_of_singleton. done.
    + unfold lb. by rewrite length_insert.
    + apply Forall_app. split; [done|]. apply Forall_singleton. eauto.
Qed.

(** ** [commit] *)

(** Every crash after some of the writes [W] leaves the old contents [D] or the new
    contents [V], and a log from which recovery finds them. *)
Definition crash_atomic (D V : gmap Z (list Z)) (W : list (Z * list Z)) : Prop :=
  forall W', W' `prefix_of` W ->
    log_ok start (apply_writes W' D) /\
    (same_files start (replay start (apply_writes W' D)) D \/
     same_files start (replay start (apply_writes W' D)) V).

(** The data of the blocks of the transaction. *)
Definition txn_data V bl : list (list Z) := map (fun b => default [] (V !! b)) bl.

Lemma txn_data_ok V bl :
  Forall (fun b => is_Some (V !! b)) bl -> Forall2 (fun b d => V !! b = Some d) bl (txn_data V bl).
Proof.
  unfold txn_data. induction 1 as [|b bl [d Hd] _ IH]; cbn [map]; constructor; [by rewrite Hd|done].
Qed.

Lemma li_disk bl b s V H :
  log_inv pid start bl s V H -> b ∉ bl -> H !! b = None -> disk s !! b = V !! b.
Proof.
  intros HI Hb HH. apply (c_clean _ _ _ _ _ (proj1 (li_cache _ _ _ _ _ _ HI))); [|done].
  by rewrite refs_pins, decide_False.
Qed.

Lemma li_not_logged bl b s V H : log_inv pid start bl s V H -> in_log start b -> b ∉ bl.
Proof.
  intros HI Hb Hin. apply (proj1 (Forall_forall _ _) (tx_home _ _ _ (li_txn _ _ _ _ _ _ HI))) in Hin. tauto.
Qed.

Lemma li_pending bl s V :
  log_inv pid start bl s V ∅ ->
  exists h, V !! start = Some h /\ pending start bl (txn_data V bl) h (disk s) V.
Proof.
  intros HI. pose proof HI as [HC Htx Hnd Harr Hlog Hex (h & Hh & Hhl & Hn) Hun Hpr].
  pose proof (tx_at _ _ _ Htx) as (_ & _ & Hs0 & Hs1).
  exists h. split.
  { rewrite <- (li_disk bl start s V ∅); try done. eapply li_not_logged; [done|apply in_log_start]. }
  pose proof (c_dom _ _ _ _ _ (proj1 HC)) as Hdom. split; try done.
  - apply (tx_len _ _ _ Htx).
  - intros b Hb. by apply Hdom, Hlog.
  - apply Forall_forall. intros b Hb. pose proof (proj1 (Forall_forall _ _) (tx_home _ _ _ Htx) b Hb).
    pose proof (proj1 (Forall_forall _ _) Hex b Hb). cbn beta in *. rewrite Hdom. tauto.
  - by apply txn_data_ok.
  - intros b Hb _. by eapply li_disk.
Qed.

Lemma li_clear bl s s' V W :
  log_inv pid start bl s V ∅ -> io_step (s <| klog := (klog s) <| l_n := 0 |> |>) s' W ->
  in_cache pid s' (apply_writes W V) ∅ ∅ -> log_empty start (disk s') ->
  log_inv pid start [] s' (apply_writes W V) ∅.
Proof.
  intros [HC Htx Hnd Harr Hlog Hex Hemp Hun Hpr] HS HC' He.
  pose proof (io_klog _ _ _ HS) as Hk. rs_in Hk. pose proof (io_panicking _ _ _ HS) as Hp. rs_in Hp.
  split; rewrite ?Hk; try done.
  - by eapply txn_clear.
  - constructor.
  - by apply log_exists_writes.
  - congruence.
Qed.

Lemma commit_inv bl s V :
  log_inv pid start bl s V ∅ -> (length bl < NBUF)%nat ->
  exists s' W,
    commit s = Ok tt s' /\ io_step (s <| klog := (klog s) <| l_n := 0 |> |>) s' W /\
    log_inv pid start [] s' (apply_writes W V) ∅ /\
    crash_atomic (disk s) V W /\ same_files start (disk s') V.
Proof.
  intros HI Hn. pose proof HI as [HC Htx Hnd Harr Hlog Hex Hemp Hun Hpr].
  destruct (li_pending _ _ _ HI) as (h & Hh & Hpd). destruct (decide (bl = [])) as [->|Hbl].
  - exists s, []. assert (l_n (klog s) = 0) as Hn0 by apply (tx_n _ _ _ Htx).
    assert (s <| klog := (klog s) <| l_n := 0 |> |> = s) as -> by (rewrite <- Hn0; by destruct s as [], klog).
    split; [unfold commit; rewrite bind_gets, Hn0; done|]. split; [apply io_refl|]. split; [done|].
    split; [|intros b Hb; by apply (pd_clean _ _ _ _ _ _ Hpd); [apply not_elem_of_nil|]].
    intros W' ->%prefix_nil_inv. apply (commit_prefix start [] (txn_data V []) h _ V); [done|]. apply prefix_nil.
  - set (W := commit_writes start bl (txn_data V bl) h).
    destruct (commit_ok pid start bl (txn_data V bl) h s V (pins bl)) as (s' & E & HS & HC'); try done.
    { pose proof (pd_data _ _ _ _ _ _ Hpd) as Hds. apply Forall2_same_length_lookup.
      split; [by eapply Forall2_length|]. intros k b d Hb Hd. split; [by apply (Forall2_lookup_lr _ _ _ _ _ _ Hds Hb Hd)|].
      rewrite refs_pins, decide_True; [done|]. by eapply list_elem_of_lookup_2. }
    { by rewrite size_pins. }
    fold W in HS, HC'. rewrite unpinned_pins in HC' by done.
    destruct (commit_complete start bl (txn_data V bl) h (disk s) V Hpd) as [He Hs]. fold W in He, Hs.
    pose proof (io_disk _ _ _ HS) as Hd. rs_in Hd. rewrite <- Hd in He, Hs.
    exists s', W. split; [done|]. split; [done|]. split; [by eapply li_clear|]. split; [|done].
    intros W' HW'. by eapply commit_prefix.
Qed.

(** ** [begin_op] and [end_op] *)

Lemma begin_op_ok s :
  L_log ∉ held s -> log_full (klog s) = false ->
  begin_op s = Ok tt (s <| klog := (klog s) <| l_outstanding := l_outstanding (klog s) + 1 |> |>).
Proof.
  intros Hl Hf. unfold begin_op. run (acquire_ok _ s Hl).
  erewrite bind_ok.
  2: { destruct sleep_fuel; cbn [while_sleep]; rewrite (bind_ok _ _ _ false (s <| held := L_log :: held s |>));
         try done; rewrite bind_gets; rs; by rewrite Hf. }
  run (updlog_ok _ _). rs. rewrite (release_ok _ (held s)) by (done || by rs).
  apply Ok_eq; [done|]. by destruct s.
Qed.

(** A change of the counters of the log leaves the rest as it is. *)
Lemma li_counters bl s V H lg :
  l_start lg = l_start (klog s) -> l_dev lg = l_dev (klog s) -> l_n lg = l_n (klog s) ->
  l_block lg = l_block (klog s) ->
  log_inv pid start bl s V H -> log_inv pid start bl (s <| klog := lg |>) V H.
Proof.
  intros E1 E2 E3 E4 [HC [[H1 (H2 & H3)] Hn Hlen Hb Hh] Hnd Harr Hlog Hex Hemp Hun Hpr].
  split; rs; try done; [by apply in_cache_klog| |congruence].
  split; unfold log_at; rewrite ?E1, ?E2, ?E3, ?E4; done.
Qed.

(** The end of an operation while others run. *)
Lemma end_op_others bl s V H :
  log_inv pid start bl s V H -> L_log ∉ held s -> l_committing (klog s) = false ->
  l_outstanding (klog s) <> 1 ->
  end_op s = Ok tt (s <| klog := (klog s) <| l_outstanding := l_outstanding (klog s) - 1 |> |>).
Proof.
  intros HI Hl Hc Ho. unfold end_op. run (acquire_ok _ s Hl). run (updlog_ok _ _). rewrite bind_gets. rs.
  rewrite bind_panic_if by (by rs). cbn zeta.
  destruct (Z.eqb_spec (l_outstanding (klog s) - 1) 0) as [|_]; [lia|].
  erewrite bind_ok.
  2: { apply wakeup_idle. apply (fs_env_frame pid (s <| held := L_log :: held s |>)); try done.
       apply fs_env_lock; [done|]. apply HI. }
  erewrite bind_ok by (apply (release_ok _ (held s)); [by rs|done]). cbn [when].
  apply Ok_eq; [done|]. by destruct s.
Qed.

(** The end of the last operation. *)
Definition committed_log (lg : logst) : logst :=
  lg <| l_outstanding := 0 |> <| l_committing := false |> <| l_n := 0 |> <| l_ncommit := l_ncommit lg + 1 |>.

Lemma end_op_last bl s V :
  log_inv pid start bl s V ∅ -> L_log ∉ held s -> l_committing (klog s) = false ->
  l_outstanding (klog s) = 1 -> (length bl < NBUF)%nat ->
  exists s' W,
    end_op s = Ok tt s' /\ io_step (s <| klog := committed_log (klog s) |>) s' W /\
    log_inv pid start [] s' (apply_writes W V) ∅ /\
    crash_atomic (disk s) V W /\ same_files start (disk s') V.
Proof.
  intros HI Hl Hc Ho Hn. unfold end_op. run (acquire_ok _ s Hl). run (updlog_ok _ _). rewrite bind_gets. rs.
  rewrite bind_panic_if by (by rs). cbn zeta. rewrite Ho. change (1 - 1) with 0. change (0 =? 0) with true. cbv iota.
  run (updlog_ok _ _). rs. erewrite bind_ok by (apply (release_ok _ (held s)); [by rs|done]). cbn [when]. rs.
  set (lg1 := _ <| l_committing := true |>).
  match goal with |- context [bind commit _ ?t] => replace t with (s <| klog := lg1 |>) by st_eq s end.
  destruct (commit_inv bl (s <| klog := lg1 |>) V) as (s1 & W & E & HS & HI1 & Hat & Hsf);
    [by apply li_counters|done|].
  run E. pose proof (io_held _ _ _ HS) as Hh. rs_in Hh. pose proof (io_klog _ _ _ HS) as Hk. rs_in Hk.
  erewrite bind_ok by (apply acquire_ok; by rewrite Hh). run (updlog_ok _ _). rs.
  set (lg2 := _ <| l_ncommit := _ |>).
  erewrite bind_ok.
  2: { apply wakeup_idle. apply (fs_env_frame pid (s1 <| held := L_log :: held s1 |>)); try done.
       apply fs_env_lock; [done|]. apply HI1. }
  erewrite release_ok by (first [by rs; rewrite Hh|by rs]).
  exists (s1 <| klog := lg2 |>), W. split.
  { apply Ok_eq; [done|]. rewrite <- Hh. st_eq s1. }
  split.
  { pose proof (io_set_klog lg2 _ _ _ HS) as HS2.
    match type of HS2 with io_step ?t _ _ => replace t with (s <| klog := committed_log (klog s) |>) in HS2; [done|] end.
    unfold lg2. rewrite Hk. unfold lg1, committed_log. rs. st_eq s. }
  split; [by apply li_counters|]. done.
Qed.

(** ** A transaction *)

(** The use of [log_write] that its comment describes. *)
Definition update_block (b : Z) (f : list Z -> list Z) : K unit :=
  bp <- bread ROOTDEV b ;;
  set_bdata bp f ;;
  log_write bp ;;
  brelse bp.

Lemma li_io bl s s' V H :
  io_step s s' [] -> in_cache pid s' V (pins bl) H -> (forall b, in_log start b -> H !! b = None) ->
  (exists V0 H0, log_inv pid start bl s V0 H0 /\ forall b, is_Some (V0 !! b) -> is_Some (V !! b)) ->
  log_inv pid start bl s' V H.
Proof.
  intros HS HC HH (V0 & H0 & [HC0 Htx Hnd Harr Hlog Hex Hemp Hun Hpr] & Hdom).
  split; rewrite ?(io_klog _ _ _ HS), ?(io_panicking _ _ _ HS), ?(io_disk _ _ _ HS); try done.
  - intros b Hb. by apply Hdom, Hlog.
  - eapply Forall_impl; [exact Hex|]. intros b. apply Hdom.
Qed.

Lemma update_block_ok bl b f d s V :
  log_inv pid start bl s V ∅ -> L_log ∉ held s -> 1 <= l_outstanding (klog s) -> (length bl < NBUF)%nat ->
  0 <= b < 2 ^ 31 -> ~ in_log start b -> V !! b = Some d -> length (f d) = 1024%nat ->
  exists bs lg,
    let s' := s <| bufs := bs |> <| klog := lg |> in
    update_block b f s = Ok tt s' /\ log_inv pid start (logged bl b) s' (<[b := f d]> V) ∅ /\
    l_outstanding lg = l_outstanding (klog s) /\ l_committing lg = l_committing (klog s).
Proof.
  intros HI Hl Ho Hn Hb Hnl Hd Hlen. pose proof (li_cache _ _ _ _ _ _ HI) as HC. unfold update_block.
  destruct (bread_ok pid b d s V (pins bl) ∅) as (i & bs1 & E1 & HC1); [apply HC|apply HC|done|done| |].
  { right. rewrite dom_empty_L, union_empty_r_L, size_pins; [done|]. apply HI. }
  run E1. destruct (set_bdata_ok pid (s <| bufs := bs1 |>) V (pins bl) (<[b := i]> ∅) b i d f)
    as (bs2 & E2 & HC2); [done|apply lookup_insert_eq|done|done|].
  rs_in E2. run E2. set (s2 := s <| bufs := bs1 |> <| bufs := bs2 |>) in *.
  destruct (log_write_ok bl b i s2 (<[b := f d]> V) (<[b := i]> ∅)) as (bs3 & lb & E3 & HI3); try done.
  { apply (li_io bl s); [eapply (io_trans _ _ _ [] []); apply io_bufs| | |].
    - split; [done|]. apply (fs_env_frame pid s); try done. apply HC.
    - intros c Hc. rewrite lookup_insert_ne; [done|]. by intros ->.
    - exists V, ∅. split; [done|]. intros c Hc. rewrite lookup_insert_is_Some'. by right. }
  { apply lookup_insert_eq. }
  run E3. set (lg := _ <| l_n := _ |>) in *. set (s3 := s2 <| bufs := bs3 |> <| klog := lg |>) in *.
  destruct (brelse_ok pid s3 (<[b := f d]> V) (pins (logged bl b)) (<[b := i]> ∅) b i) as (bs4 & E4 & HC4);
    [apply HI3|apply HI3|apply lookup_insert_eq| |].
  { left. rewrite refs_pins, decide_True; [done|]. unfold logged. destruct (decide _); set_solver. }
  rewrite delete_insert_id in HC4 by done. exists bs4, lg. cbn zeta.
  assert (s <| bufs := bs4 |> <| klog := lg |> = s3 <| bufs := bs4 |>) as -> by (unfold s3, s2; rs; st_eq s).
  split; [done|]. split; [|done].
  apply (li_io _ s3); [apply io_bufs| |done|eauto].
  split; [done|]. apply (fs_env_frame pid s); try done. apply HC.
Qed.

(** The blocks of a transaction after some updates. *)
Definition logged_all (bl : list Z) (us : list (Z * list Z)) : list Z := foldl (fun bl p => logged bl p.1) bl us.

Lemma logged_length bl b : (length (logged bl b) <= S (length bl))%nat.
Proof. unfold logged. destruct (decide _); rewrite ?length_app; cbn; lia. Qed.

Lemma logged_all_length bl us : (length (logged_all bl us) <= length bl + length us)%nat.
Proof.
  revert bl. induction us as [|p us IH]; intros bl; cbn; [lia|]. unfold logged_all in IH.
  pose proof (IH (logged bl p.1)). pose proof (logged_length bl p.1). lia.
Qed.

(** An update that a file system operation may make. *)
Definition update_ok V (p : Z * list Z) : Prop :=
  0 <= p.1 < 2 ^ 31 /\ ~ in_log start p.1 /\ is_Some (V !! p.1) /\ length p.2 = 1024%nat.

Lemma updates_ok us bl s V :
  log_inv pid start bl s V ∅ -> L_log ∉ held s -> 1 <= l_outstanding (klog s) ->
  (length bl + length us <= NBUF)%nat -> Forall (update_ok V) us ->
  exists bs lg,
    let s' := s <| bufs := bs |> <| klog := lg |> in
    foreach us (fun p => update_block p.1 (fun _ => p.2)) s = Ok tt s' /\
    log_inv pid start (logged_all bl us) s' (apply_writes us V) ∅ /\
    l_outstanding lg = l_outstanding (klog s) /\ l_committing lg = l_committing (klog s).
Proof.
  revert bl s V. induction us as [|p us IH]; intros bl s V HI Hl Ho Hn Hus; cbn [foreach].
  - exists (bufs s), (klog s). cbn zeta. assert (s <| bufs := bufs s |> <| klog := klog s |> = s) as -> by st_eq s. done.
  - apply Forall_cons_1 in Hus as [(H1 & H2 & [d Hd] & H4) Hus]. cbn [length] in Hn.
    destruct (update_block_ok bl p.1 (fun _ => p.2) d s V) as (bs & lg & E & HI1 & Ho1 & Hc1); try done; [lia|].
    run E. pose proof (logged_length bl p.1).
    destruct (IH (logged bl p.1) (s <| bufs := bs |> <| klog := lg |>) (<[p.1 := p.2]> V))
      as (bs2 & lg2 & E2 & HI2 & Ho2 & Hc2); try done; try (rs; lia).
    { eapply Forall_impl; [exact Hus|]. intros q (? & ? & Hq & ?). split_and!; try done; [naive_solver..|].
      rewrite lookup_insert_is_Some'. by right. }
    exists bs2, lg2. cbn zeta.
    assert (s <| bufs := bs2 |> <| klog := lg2 |> =
            s <| bufs := bs |> <| klog := lg |> <| bufs := bs2 |> <| klog := lg2 |>) as -> by st_eq s.
    rs_in Ho2. rs_in Hc2. split; [done|]. split; [done|]. split; congruence.
Qed.

(** ** Recovery at boot *)

(** The machine calls [initlog] with the disk [D]. *)
Record booted (s : kstate) (D : gmap Z (list Z)) : Prop := {
  bt_bufs : bufs s = boot_bufs;
  bt_disk : disk s = D;
  bt_env : fs_env pid s;
  bt_printing : panicking s = false;
  bt_start : sb_logstart (sb s) = start;
  bt_array : length (l_block (klog s)) = Z.to_nat LOGBLOCKS;
  bt_len : forall b d, D !! b = Some d -> length d = 1024%nat;
}.

(** [initlog] with the cache in use. *)
Lemma initlog_cached s D :
  in_cache pid s D ∅ ∅ -> disk s = D -> panicking s = false -> sb_logstart (sb s) = start ->
  length (l_block (klog s)) = Z.to_nat LOGBLOCKS -> log_ok start D ->
  exists h s', D !! start = Some h /\ initlog ROOTDEV s = Ok tt s' /\
    io_step (s <| klog := klog s' |>) s' (recovery_writes start D h) /\
    dtrace s' = dtrace s ++ recovery_writes start D h /\
    disk s' = apply_writes (recovery_writes start D h) D /\ log_inv pid start [] s' (disk s') ∅.
Proof.
  intros HC0 Hd Hp Hst Harr Hok. pose proof Hok as (Hs0 & Hs1 & Hex & h & Hh & Hhl & Hhok).
  unfold initlog. rewrite bind_panic_if by done. rewrite bind_gets. run (updlog_ok _ _).
  change LOGBLOCKS with 30 in Hs1. rewrite Hst, s32_small by lia.
  set (lg0 := _ <| l_dev := ROOTDEV |>).
  destruct (recover_from_log_ok pid start h (s <| klog := lg0 |>) D ∅) as (lg & s' & E & HS & HC & Htx & Harr'); try done.
  { by apply in_cache_klog. }
  { vm_compute. lia. }
  exists h, s'. split; [done|]. split; [done|].
  assert (zip (header_blocks h) (logged_data start D (length (header_blocks h))) = replay_writes start D) as HW
    by (unfold replay_writes; by rewrite Hh).
  rewrite HW in HS, HC. fold (recovery_writes start D h) in HS, HC.
  pose proof (io_disk _ _ _ HS) as Hd'. rs_in Hd'. rewrite Hd in Hd'.
  pose proof (io_dtrace _ _ _ HS) as Ht. rs_in Ht.
  pose proof (io_klog _ _ _ HS) as Hk. rs_in Hk. pose proof (io_panicking _ _ _ HS) as Hp'. rs_in Hp'.
  split; [rewrite Hk; by assert (s <| klog := lg0 |> <| klog := lg |> = s <| klog := lg |>) as <- by st_eq s|].
  split; [done|]. split; [done|].
  rewrite <- Hd' in HC. split; try done; rewrite ?Hk, ?Hp'; try done.
  - constructor.
  - rewrite Hd'. by apply log_exists_writes.
  - rewrite Hd'. by apply recovery_complete.
Qed.

Lemma initlog_ok s D :
  booted s D -> log_ok start D ->
  exists h s', D !! start = Some h /\ initlog ROOTDEV s = Ok tt s' /\
    dtrace s' = dtrace s ++ recovery_writes start D h /\
    disk s' = apply_writes (recovery_writes start D h) D /\ log_inv pid start [] s' (disk s') ∅.
Proof.
  intros [Hb Hd HE Hp Hst Harr Hlen] Hok.
  destruct (initlog_cached s D) as (h & s' & Hh & E & _ & H); try done; [|by exists h, s'].
  split; [|done]. pose proof (boot_cache pid s) as HC. rewrite Hd in HC. by apply HC.
Qed.

(** ** A log that is full *)

Lemma pinned_buffers bl s V :
  in_cache pid s V (pins bl) ∅ ->
  forall l, (forall b, b ∈ l -> b ∈ bl) ->
  exists js, Forall2 (fun b i => (i < NBUF)%nat /\ exists x, bufs s !! i = Some x /\ b_dev x = ROOTDEV /\ b_blockno x = b) l js.
Proof.
  intros [HC _]. induction l as [|b l IH]; intros Hl; [by exists []|].
  destruct IH as [js His]; [set_solver|].
  destruct (c_refs _ _ _ _ _ HC b) as (i & x & Hi & Hx & Hdx & Hbx).
  { rewrite refs_pins, decide_True; [done|]. apply Hl. by left. }
  exists (i :: js). constructor; eauto.
Qed.

(** With [NBUF] pinned blocks, every buffer has one of them. *)
Lemma full_buffers bl s V i x :
  in_cache pid s V (pins bl) ∅ -> NoDup bl -> length bl = NBUF ->
  (i < NBUF)%nat -> bufs s !! i = Some x ->
  b_refcnt x <> 0 /\ b_blockno x ∈ bl.
Proof.
  intros HC Hnd Hlen Hi Hx. destruct (pinned_buffers bl s V HC bl) as [js His]; [done|].
  assert (js ≡ₚ seq 0 NBUF) as Hperm.
  { apply submseteq_length_Permutation; [apply NoDup_submseteq|].
    - apply NoDup_alt. intros j k n Hj Hk.
      destruct (Forall2_lookup_r _ _ _ _ _ His Hj) as (b & Hb & _ & y & Hy & _ & Eb).
      destruct (Forall2_lookup_r _ _ _ _ _ His Hk) as (c & Hc & _ & z & Hz & _ & Ec).
      eapply NoDup_lookup; [exact Hnd|exact Hb|]. rewrite Hc. congruence.
    - intros j (k & Hk)%list_elem_of_lookup. apply elem_of_seq.
      destruct (Forall2_lookup_r _ _ _ _ _ His Hk) as (b & _ & Hj & _). lia.
    - rewrite length_seq, <- (Forall2_length _ _ _ His). lia. }
  assert (i ∈ js) as (k & Hk)%list_elem_of_lookup by (rewrite Hperm; apply elem_of_seq; lia).
  destruct (Forall2_lookup_r _ _ _ _ _ His Hk) as (b & Hb & _ & y & Hy & Hdy & Eb).
  assert (y = x) as -> by congruence. assert (b_blockno x ∈ bl) as Hin by (rewrite Eb; by eapply list_elem_of_lookup_2).
  split; [|done]. destruct (c_buf _ _ _ _ _ (proj1 HC) i x Hi Hx Hdy) as [Hr _ _ _].
  rewrite Hr, refs_pins, decide_True by done. rewrite lookup_empty. lia.
Qed.

Lemma commit_full bl s V :
  log_inv pid start bl s V ∅ -> length bl = NBUF -> commit s = Panic "bget: no buffers".
Proof.
  intros HI Hlen. pose proof HI as [HC Htx Hnd _ _ _ _ _ _].
  unfold commit. rewrite bind_gets, (tx_n _ _ _ Htx), Hlen. change (0 <? Z.of_nat NBUF) with true. cbn [when].
  apply bind_panic. unfold write_log. rewrite bind_gets, (tx_n _ _ _ Htx), Hlen.
  change (seqZ 0 (Z.of_nat NBUF)) with (0 :: seqZ 1 (Z.of_nat NBUF - 1)). cbn [foreach].
  apply bind_panic. unfold write_log1. rewrite bind_gets. apply bind_panic.
  assert (0 <= 0 < LOGBLOCKS) as H0 by done. rewrite (u32_log_block start) by (done || apply Htx).
  destruct (tx_at _ _ _ Htx) as (_ & -> & _). destruct (c_ring _ _ _ _ _ (proj1 HC)) as [l Hl].
  apply (bread_full _ _ _ l Hl); [apply quiet_bcache, HC|]. intros i x Hi Hx.
  destruct (full_buffers bl s V i x) as [Hr Hin]; try done. split; [done|]. intros [_ Eb].
  rewrite Eb in Hin. revert Hin. eapply li_not_logged; [done|]. by apply in_log_block.
Qed.

(** A file system operation that updates some blocks. *)
Definition transaction (us : list (Z * list Z)) : K unit :=
  begin_op ;;
  foreach us (fun p => update_block p.1 (fun _ => p.2)) ;;
  end_op.

Lemma transaction_ok us s V :
  log_inv pid start [] s V ∅ -> L_log ∉ held s -> l_outstanding (klog s) = 0 -> l_committing (klog s) = false ->
  Z.of_nat (length us) <= MAXOPBLOCKS -> Forall (update_ok V) us ->
  exists s' W V',
    transaction us s = Ok tt s' /\ dtrace s' = dtrace s ++ W /\ disk s' = apply_writes W (disk s) /\
    crash_atomic (disk s) (apply_writes us V) W /\
    same_files start (disk s') (apply_writes us V) /\
    log_inv pid start [] s' V' ∅ /\ same_files start V' (apply_writes us V) /\
    l_outstanding (klog s') = 0 /\ l_committing (klog s') = false.
Proof.
  intros HI Hl Ho Hc Hn Hus. change MAXOPBLOCKS with 10 in Hn. unfold transaction.
  assert (log_full (klog s) = false) as Hf.
  { unfold log_full. rewrite Hc, Ho, (tx_n _ _ _ (li_txn _ _ _ _ _ _ HI)). done. }
  run (begin_op_ok s Hl Hf). rewrite Ho. set (s1 := s <| klog := _ |>).
  assert (log_inv pid start [] s1 V ∅) as HI1 by (by apply li_counters).
  destruct (updates_ok us [] s1 V) as (bs & lg & E & HI2 & Ho2 & Hc2); try done.
  { cbn [length Nat.add]. change NBUF with 30%nat. lia. }
  run E. pose proof (logged_all_length [] us). rs_in Ho2. rs_in Hc2.
  destruct (end_op_last (logged_all [] us) (s1 <| bufs := bs |> <| klog := lg |>) (apply_writes us V))
    as (s' & W & E' & HS & HI' & Hat & Hsf); try done; [by rs; rewrite Hc2| |].
  { cbn [length] in *. change NBUF with 30%nat. lia. }
  pose proof (io_disk _ _ _ HS) as Hd. rs_in Hd. pose proof (io_dtrace _ _ _ HS) as Ht. rs_in Ht.
  pose proof (io_klog _ _ _ HS) as Hk. rs_in Hk.
  exists s', W, (apply_writes W (apply_writes us V)). split; [done|]. split; [done|]. split; [done|].
  split; [done|]. split; [done|]. split; [done|]. rewrite Hk. split; [|done].
  intros b Hb. rewrite <- Hsf by done. symmetry.
  apply (li_disk [] b s'  _ ∅); [done|apply not_elem_of_nil|done].
Qed.

(** Boots of the machine from the disk [D], each but the last cut short by a crash; [D']
    is the disk after the last one. *)
Inductive reboots : gmap Z (list Z) -> gmap Z (list Z) -> Prop :=
  | reboots_done D s s' :
      booted s D -> initlog ROOTDEV s = Ok tt s' -> reboots D (disk s')
  | reboots_crash D s s' W W' D' :
      booted s D -> initlog ROOTDEV s = Ok tt s' -> dtrace s' = dtrace s ++ W -> W' `prefix_of` W ->
      reboots (apply_writes W' D) D' -> reboots D D'.

Lemma reboots_ok D D' : log_ok start D -> reboots D D' -> log_empty start D' /\ same_files start D' (replay start D).
Proof.
  intros Hok HR. induction HR as [D s s' Hb E|D s s' W W' D' Hb E Ht HW HR IH].
  - destruct (initlog_ok s D Hb Hok) as (h & t & Hh & E' & _ & Hd & _). rewrite E in E'. injection E' as <-.
    rewrite Hd. by apply recovery_complete.
  - destruct (initlog_ok s D Hb Hok) as (h & t & Hh & E' & Ht' & _). rewrite E in E'. injection E' as <-.
    rewrite Ht in Ht'. apply app_inv_head in Ht' as ->.
    destruct (recovery_prefix start D h W' Hok Hh HW) as [Hok' Hs]. destruct (IH Hok') as [He Hs'].
    split; [done|]. by rewrite Hs', Hs.
Qed.

(** ** Properties *)

(** C2: A transaction is atomic with respect to crashes.  [begin_op], up to [MAXOPBLOCKS]
    block updates through the cache and [log_write], and [end_op] run to completion;
    the operation writes the disk in such an order that after any prefix of its writes,
    the disk together with its log has either all of the updates or none; and in the end
    the disk has them all and the log is empty. *)
Theorem transaction_crash_atomic us s V :
  log_inv pid start [] s V ∅ -> L_log ∉ held s -> l_outstanding (klog s) = 0 -> l_committing (klog s) = false ->
  Z.of_nat (length us) <= MAXOPBLOCKS -> Forall (update_ok V) us ->
  exists s' W V',
    transaction us s = Ok tt s' /\ dtrace s' = dtrace s ++ W /\ disk s' = apply_writes W (disk s) /\
    crash_atomic (disk s) (apply_writes us V) W /\
    same_files start (disk s') (apply_writes us V) /\
    log_inv pid start [] s' V' ∅ /\ same_files start V' (apply_writes us V) /\
    l_outstanding (klog s') = 0 /\ l_committing (klog s') = false.
Proof. apply transaction_ok. Qed.

(** C3: Crash recovery.  The machine crashes at any point of a transaction, and crashes
    again any number of times while it recovers; when [initlog] completes at last, the
    disk has all of the transaction's updates or none of them, and the log is empty. *)
Theorem crash_recovery us s V s' W W' D' :
  log_inv pid start [] s V ∅ -> L_log ∉ held s -> l_outstanding (klog s) = 0 -> l_committing (klog s) = false ->
  Z.of_nat (length us) <= MAXOPBLOCKS -> Forall (update_ok V) us ->
  transaction us s = Ok tt s' -> dtrace s' = dtrace s ++ W -> W' `prefix_of` W ->
  reboots (apply_writes W' (disk s)) D' ->
  log_empty start D' /\ (same_files start D' V \/ same_files start D' (apply_writes us V)).
Proof.
  intros HI Hl Ho Hc Hn Hus E Ht HW HR.
  destruct (transaction_ok us s V) as (t & W0 & V' & E' & Ht' & _ & Hat & _); try done.
  rewrite E in E'. injection E' as <-. rewrite Ht in Ht'. apply app_inv_head in Ht' as ->.
  destruct (Hat W' HW) as [Hok Hor]. destruct (reboots_ok _ _ Hok HR) as [He Hs]. split; [done|].
  assert (same_files start (disk s) V) as Hd.
  { intros b Hb. by eapply li_disk; [done|apply not_elem_of_nil|]. }
  destruct Hor as [Hor|Hor]; [left|right]; by rewrite Hs, Hor.
Qed.

(** C7: Recovery at boot.  From a disk whose log [commit] could have left, [initlog]
    completes; it makes the disk what the log says it is, leaves the log empty and the
    cache ready for use; and a crash after any prefix of its writes loses nothing, so
    that recovery can be repeated. *)
Theorem initlog_recovers s D :
  booted s D -> log_ok start D ->
  exists s' W, initlog ROOTDEV s = Ok tt s' /\
    dtrace s' = dtrace s ++ W /\ disk s' = apply_writes W D /\
    same_files start (disk s') (replay start D) /\ log_inv pid start [] s' (disk s') ∅ /\
    forall W', W' `prefix_of` W ->
      log_ok start (apply_writes W' D) /\ same_files start (replay start (apply_writes W' D)) (replay start D).
Proof.
  intros Hb Hok. destruct (initlog_ok s D Hb Hok) as (h & s' & Hh & E & Ht & Hd & HI).
  exists s', (recovery_writes start D h). split; [done|]. split; [done|]. split; [done|].
  split; [rewrite Hd; by apply recovery_complete|]. split; [done|]. intros W' HW. by eapply recovery_prefix.
Qed.

(** [log_write] adds a block to the transaction once: a block that is already in it is
    absorbed, another is appended and pinned in the cache; the contents of the blocks, the
    buffers held and the disk stay as they are. *)
Lemma log_write_absorbs bl b i s V H :
  log_inv pid start bl s V H -> H !! b = Some i -> L_log ∉ held s ->
  0 <= b < 2 ^ 31 -> ~ in_log start b -> (length bl < 30)%nat -> 1 <= l_outstanding (klog s) ->
  exists s',
    log_write i s = Ok tt s' /\ disk s' = disk s /\
    log_inv pid start (if decide (b ∈ bl) then bl else bl ++ [b]) s' V H.
Proof.
  intros HI Hb Hl Hr Hnl Hn Ho. destruct (log_write_ok bl b i s V H) as (bs & lb & E & HI'); try done.
  eexists. split; [exact E|]. by split.
Qed.

(** C39: The cache is too small for a full log.  [LOGBLOCKS] and [NBUF] are both 30: a
    transaction of 30 blocks pins every buffer, so that [commit], which has to read the
    blocks of the log, stops the kernel with "bget: no buffers". *)
Theorem commit_full_log_panics bl s V :
  log_inv pid start bl s V ∅ -> Z.of_nat (length bl) = LOGBLOCKS -> commit s = Panic "bget: no buffers".
Proof. intros HI Hn. apply (commit_full bl s V); [done|]. change LOGBLOCKS with 30 in Hn. change NBUF with 30%nat. lia. Qed.

End ops.

(** ** A small disk

    64 empty blocks, with a log that starts at block 2. *)
Definition log_disk : gmap Z (list Z) := gset_to_gmap (replicate 1024 0) (list_to_set (seqZ 0 64)).

Definition log_machine : kstate :=
  boot_state <| disk := log_disk |> <| cpu_proc := Some 0%nat |> <| bufs := boot_bufs |>
    <| sb := zero_sb <| sb_logstart := 2 |> |>.

(** The same machine with the disk [D], after [initlog] of an empty log. *)
Definition ready_on (D : gmap Z (list Z)) : kstate :=
  log_machine <| disk := D |> <| klog := zero_log <| l_start := 2 |> <| l_dev := ROOTDEV |> |>.

Definition log_ready : kstate := ready_on log_disk.

Lemma log_disk_len b d : log_disk !! b = Some d -> length d = 1024%nat.
Proof. intros [_ <-]%lookup_gset_to_gmap_Some. apply length_replicate. Qed.

Lemma log_disk_at b : 0 <= b < 64 -> log_disk !! b = Some (replicate 1024 0).
Proof. intros Hb. apply lookup_gset_to_gmap_Some. split; [|done]. apply elem_of_list_to_set, elem_of_seqZ. lia. Qed.

Lemma log_machine_env : fs_env 0 log_machine.
Proof.
  split; unfold log_machine; rs.
  - split; [done|]. by apply Forall_replicate.
  - eexists 0%nat, _. split; [done|]. split; [reflexivity|done].
  - constructor.
Qed.

Lemma log_disk_log : log_exists 2 log_disk.
Proof. intros b Hb. unfold in_log in Hb. change LOGBLOCKS with 30 in Hb. rewrite log_disk_at by lia. eauto. Qed.

Lemma log_disk_empty : log_empty 2 log_disk.
Proof.
  exists (replicate 1024 0). split; [by apply log_disk_at|]. split; [apply length_replicate|]. vm_compute. reflexivity.
Qed.

Lemma log_disk_ok : log_ok 2 log_disk.
Proof. apply log_empty_ok; [done|done|apply log_disk_log|apply log_disk_empty]. Qed.

Lemma ready_inv D :
  (forall b d, D !! b = Some d -> length d = 1024%nat) -> log_exists 2 D -> log_empty 2 D ->
  log_inv 0 2 [] (ready_on D) D ∅.
Proof.
  intros HD Hex Hemp. split.
  - split; [apply (boot_cache 0 (ready_on D)); [reflexivity|exact HD]|].
    eapply (fs_env_frame 0 log_machine); [reflexivity|reflexivity|reflexivity|apply log_machine_env].
  - split; [|reflexivity|cbn; lia| |constructor].
    + split; [reflexivity|]. split; [reflexivity|]. unfold LOGBLOCKS, MAXOPBLOCKS. lia.
    + intros k b Hb. by rewrite lookup_nil in Hb.
  - constructor.
  - reflexivity.
  - exact Hex.
  - constructor.
  - exact Hemp.
  - reflexivity.
  - reflexivity.
Qed.

Lemma log_ready_inv : log_inv 0 2 [] log_ready log_disk ∅.
Proof. apply ready_inv; [apply log_disk_len|apply log_disk_log|apply log_disk_empty]. Qed.

Lemma log_machine_booted D :
  (forall b d, D !! b = Some d -> length d = 1024%nat) -> booted 0 2 (log_machine <| disk := D |>) D.
Proof.
  intros HD. split; [reflexivity|reflexivity| |reflexivity|reflexivity|reflexivity|exact HD].
  eapply (fs_env_frame 0 log_machine); [reflexivity|reflexivity|reflexivity|apply log_machine_env].
Qed.

(** Two updates of one operation. *)
Definition two_updates : list (Z * list Z) := [(40, replicate 1024 7); (50, replicate 1024 8)].

Lemma two_updates_ok : Forall (update_ok 2 log_disk) two_updates.
Proof.
  unfold two_updates, update_ok, in_log. change LOGBLOCKS with 30.
  repeat constructor; cbn [fst snd]; try lia; try apply length_replicate; eexists; by apply log_disk_at.
Qed.

Lemma transaction_crash_atomic_witness :
  exists s' W V',
    transaction (F := 0%nat) two_updates log_ready = Ok tt s' /\ dtrace s' = dtrace log_ready ++ W /\
    disk s' = apply_writes W log_disk /\
    crash_atomic 2 log_disk (apply_writes two_updates log_disk) W /\
    same_files 2 (disk s') (apply_writes two_updates log_disk) /\
    log_inv 0 2 [] s' V' ∅ /\ same_files 2 V' (apply_writes two_updates log_disk) /\
    l_outstanding (klog s') = 0 /\ l_committing (klog s') = false.
Proof.
  apply (transaction_crash_atomic (F := 0%nat) 0 2 two_updates log_ready log_disk).
  - apply log_ready_inv.
  - apply not_elem_of_nil.
  - reflexivity.
  - reflexivity.
  - vm_compute. discriminate.
  - apply two_updates_ok.
Defined.

Lemma initlog_recovers_witness :
  exists s' W, initlog (F := 0%nat) ROOTDEV log_machine = Ok tt s' /\
    dtrace s' = dtrace log_machine ++ W /\ disk s' = apply_writes W log_disk /\
    same_files 2 (disk s') (replay 2 log_disk) /\ log_inv 0 2 [] s' (disk s') ∅ /\
    forall W', W' `prefix_of` W ->
      log_ok 2 (apply_writes W' log_disk) /\ same_files 2 (replay 2 (apply_writes W' log_disk)) (replay 2 log_disk).
Proof. apply (initlog_recovers (F := 0%nat) 0 2); [apply (log_machine_booted log_disk log_disk_len)|apply log_disk_ok]. Defined.

Lemma crash_recovery_witness :
  exists s' t, transaction (F := 0%nat) two_updates log_ready = Ok tt s' /\
    initlog (F := 0%nat) ROOTDEV (log_machine <| disk := disk s' |>) = Ok tt t /\
    log_empty 2 (disk t) /\
    (same_files 2 (disk t) log_disk \/ same_files 2 (disk t) (apply_writes two_updates log_disk)).
Proof.
  destruct (transaction_ok (F := 0%nat) 0 2 two_updates log_ready log_disk) as (s' & W & V' & E & Ht & Hd & Hat & _ & HI & _).
  - apply log_ready_inv.
  - apply not_elem_of_nil.
  - reflexivity.
  - reflexivity.
  - vm_compute. discriminate.
  - apply two_updates_ok.
  - assert (booted 0 2 (log_machine <| disk := disk s' |>) (disk s')) as Hb.
    { apply log_machine_booted. intros b d Hbd.
      rewrite (li_disk 0 2 [] b s' V' ∅) in Hbd; [|done|apply not_elem_of_nil|done].
      exact (c_len _ _ _ _ _ (proj1 (li_cache _ _ _ _ _ _ HI)) b d Hbd). }
    destruct (initlog_ok (F := 0%nat) 0 2 _ _ Hb) as (h & t & _ & Et & _).
    { rewrite Hd. apply (Hat W). done. }
    exists s', t. split; [exact E|]. split; [exact Et|].
    apply (crash_recovery (F := 0%nat) 0 2 two_updates log_ready log_disk s' W W (disk t)).
    + apply log_ready_inv.
    + apply not_elem_of_nil.
    + reflexivity.
    + reflexivity.
    + vm_compute. discriminate.
    + apply two_updates_ok.
    + exact E.
    + exact Ht.
    + reflexivity.
    + change (disk log_ready) with log_disk in Hd |- *. rewrite <- Hd.
      exact (reboots_done (F := 0%nat) 0 2 _ _ _ Hb Et).
Defined.

(** The machine inside an operation. *)
Definition busy_on (D : gmap Z (list Z)) : kstate :=
  (ready_on D) <| klog := zero_log <| l_start := 2 |> <| l_dev := ROOTDEV |> <| l_outstanding := 1 |> |>.

Lemma busy_inv D :
  (forall b d, D !! b = Some d -> length d = 1024%nat) -> log_exists 2 D -> log_empty 2 D ->
  log_inv 0 2 [] (busy_on D) D ∅.
Proof. intros. by apply li_counters; [reflexivity|reflexivity|reflexivity|reflexivity|apply ready_inv]. Qed.

Definition log_busy : kstate := busy_on log_disk.

Lemma log_busy_inv : log_inv 0 2 [] log_busy log_disk ∅.
Proof. apply busy_inv; [apply log_disk_len|apply log_disk_log|apply log_disk_empty]. Qed.

(** Thirty updates in one operation. *)
Definition thirty_updates : list (Z * list Z) := map (fun b => (b, replicate 1024 7)) (seqZ 33 30).

Lemma thirty_updates_ok : Forall (update_ok 2 log_disk) thirty_updates.
Proof.
  apply Forall_forall. intros p (b & -> & Hb%elem_of_seqZ)%list_elem_of_fmap. unfold update_ok, in_log.
  cbn [fst snd]. change LOGBLOCKS with 30. split_and!; try lia; [|apply length_replicate].
  eexists. apply log_disk_at. lia.
Qed.

Lemma commit_full_log_panics_witness :
  exists s, foreach thirty_updates (fun p => update_block (F := 0%nat) p.1 (fun _ => p.2)) log_busy = Ok tt s /\
    commit (F := 0%nat) s = Panic "bget: no buffers".
Proof.
  destruct (updates_ok (F := 0%nat) 0 2 thirty_updates [] log_busy log_disk) as (bs & lg & E & HI & _).
  - apply log_busy_inv.
  - apply not_elem_of_nil.
  - vm_compute. discriminate.
  - vm_compute. lia.
  - apply thirty_updates_ok.
  - eexists. split; [exact E|].
    apply (commit_full_log_panics (F := 0%nat) 0 2 (logged_all [] thirty_updates) _ (apply_writes thirty_updates log_disk) HI).
    vm_compute. reflexivity.
Defined.
