(* ===== verification/Copy.v ===== *)
(** [either_copyout] and [either_copyin] of kernel/proc.c.

    Their kernel-side argument is one of a few kinds of address: a physical page
    (the kernel maps memory one to one), or a C object of the caller, whose bytes
    are passed and returned. *)

From stdpp Require Import prelude gmap strings.
From Stdlib Require Import ZArith Lia.
From S2P Require Import Prelude Bytes Params State Spinlock Sched Kalloc Vm.

Local Open Scope Z_scope.
Local Open Scope kernel_scope.

(** Where [either_copyout] copies to. *)
Inductive kdst :=
| D_user (va : Z)     (* user_dst = 1 *)
| D_phys (pa : Z)     (* user_dst = 0, a page of memory *)
| D_local.            (* user_dst = 0, an object of the caller: see the returned bytes *)

(** Where [either_copyin] copies from. *)
Inductive ksrc :=
| S_user (va : Z)
| S_local (bytes : list Z).

(** [dst += m], [src += m] *)
Definition dst_add (d : kdst) (m : Z) : kdst :=
  match d with
  | D_user va => D_user (u64 (va + m))
  | D_phys pa => D_phys (u64 (pa + m))
  | D_local => D_local
  end.

Definition src_add (x : ksrc) (m : Z) : ksrc :=
  match x with
  | S_user va => S_user (u64 (va + m))
  | S_local l => S_local (drop (Z.to_nat m) l)
  end.

Section copy.
Context {L : Linker}.

Definition either_copyout (d : kdst) (src : list Z) : K Z :=
  match d with
  | D_user va =>
      i <- curproc ;;
      p <- getproc i ;;
      copyout (p_pagetable p) (p_sz p) va src
  | D_phys pa => store pa src ;; ret 0
  | D_local => ret 0
  end.

(** The status and the bytes that were stored at the destination. *)
Definition either_copyin (x : ksrc) (len : Z) : K (Z * list Z) :=
  match x with
  | S_user va =>
      i <- curproc ;;
      p <- getproc i ;;
      copyin (p_pagetable p) (p_sz p) va len
  | S_local l => ret (0, take (Z.to_nat len) l)
  end.

End copy.
