(* ===== verification/Fs.v ===== *)
(** kernel/fs.c: blocks, inodes, directories and path names.

    On-disk structures are bytes of a block, accessed at the offsets the C
    structures have.  A NULL [struct inode *] is [None]. *)

From stdpp Require Import prelude gmap strings.
From Stdlib Require Import ZArith Lia Ascii.
From S2P Require Import Prelude Bytes Params State Spinlock CString Uart Printk Sched Sleeplock.
From S2P Require Import Vm Disk Bio Log Copy.

Local Open Scope Z_scope.
Local Open Scope kernel_scope.

(** ** On-disk structures *)

(** The superblock in its block. *)
Definition get_sb (data : list Z) : superblock :=
  mkSb (get_u32 0 data) (get_u32 4 data) (get_u32 8 data) (get_u32 12 data)
    (get_u32 16 data) (get_u32 20 data) (get_u32 24 data) (get_u32 28 data).

(** [struct dinode] *)
Record dinode := mkDinode {
  di_type : Z; di_major : Z; di_minor : Z; di_nlink : Z; di_size : Z; di_addrs : list Z;
}.

(** A [short] in a block's data. *)
Definition get_s16 (off : nat) (data : list Z) : Z := s16 (le_decode (slice off 2 data)).

Definition get_dinode (off : nat) (data : list Z) : dinode :=
  mkDinode (get_s16 off data) (get_s16 (off + 2) data) (get_s16 (off + 4) data)
    (get_s16 (off + 6) data) (get_u32 (off + 8) data)
    (map (fun i => get_u32 (off + 12 + 4 * i) data) (seq 0 13)).

Definition dinode_bytes (d : dinode) : list Z :=
  le_encode 2 (di_type d) ++ le_encode 2 (di_major d) ++ le_encode 2 (di_minor d) ++
  le_encode 2 (di_nlink d) ++ le_encode 4 (di_size d) ++ mjoin (map (le_encode 4) (di_addrs d)).

(** [IBLOCK(i, sb)], [BBLOCK(b, sb)] and the position of inode [i] in its block. *)
Definition IBLOCK (i : Z) (s : superblock) : Z := u32 (i / IPB + sb_inodestart s).
Definition BBLOCK (b : Z) (s : superblock) : Z := u32 (b / BPB + sb_bmapstart s).
Definition dinode_off (inum : Z) : nat := Z.to_nat (inum mod IPB * DINODE_SIZE).

(** [struct dirent] *)
Definition dirent_inum (de : list Z) : Z := le_decode (slice 0 2 de).
Definition dirent_name (de : list Z) : list Z := slice 2 DIRSIZ de.

(** [struct stat] (kernel/stat.h) *)
Record stat := mkStat { st_dev : Z; st_ino : Z; st_type : Z; st_nlink : Z; st_size : Z }.

(** The inode in an entry of the table, with its on-disk fields [d]. *)
Definition load_dinode (d : dinode) (ip : inode) : inode :=
  ip <| i_type := di_type d |> <| i_major := di_major d |> <| i_minor := di_minor d |>
     <| i_nlink := di_nlink d |> <| i_size := di_size d |> <| i_addrs := di_addrs d |>.

Definition dinode_of (ip : inode) : dinode :=
  mkDinode (i_type ip) (i_major ip) (i_minor ip) (i_nlink ip) (i_size ip) (i_addrs ip).

(** [ip->addrs[i]] *)
Definition addr_of (ip : inode) (i : Z) : Z := i_addrs ip !!! Z.to_nat i.
Definition set_addr (i v : Z) (ip : inode) : inode := ip <| i_addrs ::= <[Z.to_nat i := v]> |>.

Section fs.
Context {F : Fuel} {L : Linker}.

(** ** Blocks *)

Definition readsb (dev : Z) : K unit :=
  bp <- bread dev 1 ;;
  data <- bdata bp ;;
  modify (fun s => s <| sb := get_sb data |>) ;;
  brelse bp.

Definition bzero (dev bno : Z) : K unit :=
  bp <- bread dev (u32 bno) ;;
  set_bdata bp (fun _ => replicate (Z.to_nat BSIZE) 0) ;;
  log_write bp ;;
  brelse bp.

(** The inner loop of [balloc]: the first of the bits [bis] that is clear. *)
Fixpoint find_clear (data : list Z) (bis : list Z) : option Z :=
  match bis with
  | [] => None
  | bi :: bis' =>
      if Z.land (data !!! Z.to_nat (bi / 8)) (Z.shiftl 1 (bi mod 8)) =? 0 then Some bi
      else find_clear data bis'
  end.

(** The outer loop of [balloc], over the first block [b] of each bitmap block. *)
Fixpoint balloc_loop (dev : Z) (bs : list Z) : K Z :=
  match bs with
  | [] => printk (strn "balloc: out of blocks") [] ;; ret 0
  | b :: bs' =>
      sbl <- gets sb ;;
      bp <- bread dev (BBLOCK b sbl) ;;
      data <- bdata bp ;;
      match find_clear data (seqZ 0 (Z.min BPB (sb_size sbl - b))) with
      | Some bi =>
          set_bdata bp (fun d => alter (fun x => Z.lor x (Z.shiftl 1 (bi mod 8))) (Z.to_nat (bi / 8)) d) ;;
          log_write bp ;;
          brelse bp ;;
          bzero dev (b + bi) ;;
          ret (b + bi)
      | None => brelse bp ;; balloc_loop dev bs'
      end
  end.

(** [for (b = 0; b < sb.size; b += BPB)] *)
Definition bitmap_starts (size : Z) : list Z :=
  map (fun k => k * BPB) (seqZ 0 ((size + BPB - 1) / BPB)).

Definition balloc (dev : Z) : K Z :=
  sbl <- gets sb ;; balloc_loop dev (bitmap_starts (sb_size sbl)).

Definition bfree (dev b : Z) : K unit :=
  sbl <- gets sb ;;
  bp <- bread dev (BBLOCK b sbl) ;;
  data <- bdata bp ;;
  let bi := b mod BPB in
  let m := Z.shiftl 1 (bi mod 8) in
  panic_if (Z.land (data !!! Z.to_nat (bi / 8)) m =? 0) "freeing free block" ;;
  set_bdata bp (fun d => alter (fun x => Z.land x (u8 (Z.lnot m))) (Z.to_nat (bi / 8)) d) ;;
  log_write bp ;;
  brelse bp.

(** ** Inodes *)

Definition iinit : K unit := foreach (seq 0 NINODE) (fun i => initsleeplock (SL_inode i)).

(** The scan of [iget]: the entry that has the inode, or else the first empty one. *)
Fixpoint iget_scan (l : list inode) (i : nat) (dev inum : Z) (empty : option nat) : nat + option nat :=
  match l with
  | [] => inr empty
  | ip :: l' =>
      if (0 <? i_ref ip) && (i_dev ip =? dev) && (i_inum ip =? inum) then inl i
      else
        let empty' := match empty with
                      | None => if i_ref ip =? 0 then Some i else None
                      | Some _ => empty
                      end in
        iget_scan l' (S i) dev inum empty'
  end.

Definition iget (dev inum : Z) : K nat :=
  acquire L_itable ;;
  l <- gets itable ;;
  match iget_scan l 0 dev inum None with
  | inl i =>
      updinode i (fun ip => ip <| i_ref := i_ref ip + 1 |>) ;;
      release L_itable ;;
      ret i
  | inr None => panic "iget: no inodes"
  | inr (Some i) =>
      updinode i (fun ip => ip <| i_dev := dev |> <| i_inum := inum |> <| i_ref := 1 |>
                               <| i_valid := false |>) ;;
      release L_itable ;;
      ret i
  end.

Fixpoint ialloc_loop (dev type : Z) (inums : list Z) : K (option nat) :=
  match inums with
  | [] => printk (strn "ialloc: no inodes") [] ;; ret None
  | inum :: inums' =>
      sbl <- gets sb ;;
      bp <- bread dev (IBLOCK inum sbl) ;;
      data <- bdata bp ;;
      if get_s16 (dinode_off inum) data =? 0 then
        set_bdata bp (blit (dinode_off inum)
                        (dinode_bytes (mkDinode type 0 0 0 0 (replicate 13 0)))) ;;
        log_write bp ;;
        brelse bp ;;
        i <- iget dev inum ;;
        ret (Some i)
      else brelse bp ;; ialloc_loop dev type inums'
  end.

Definition ialloc (dev type : Z) : K (option nat) :=
  sbl <- gets sb ;; ialloc_loop dev type (seqZ 1 (sb_ninodes sbl - 1)).

Definition iupdate (i : nat) : K unit :=
  ip <- getinode i ;;
  sbl <- gets sb ;;
  bp <- bread (i_dev ip) (IBLOCK (i_inum ip) sbl) ;;
  set_bdata bp (blit (dinode_off (i_inum ip)) (dinode_bytes (dinode_of ip))) ;;
  log_write bp ;;
  brelse bp.

Definition idup (i : nat) : K nat :=
  acquire L_itable ;;
  updinode i (fun ip => ip <| i_ref := i_ref ip + 1 |>) ;;
  release L_itable ;;
  ret i.

Definition ilock (i : nat) : K unit :=
  ip <- getinode i ;;
  panic_if (i_ref ip <? 1) "ilock" ;;
  acquiresleep (SL_inode i) ;;
  ip <- getinode i ;;
  when (negb (i_valid ip))
    (sbl <- gets sb ;;
     bp <- bread (i_dev ip) (IBLOCK (i_inum ip) sbl) ;;
     data <- bdata bp ;;
     updinode i (load_dinode (get_dinode (dinode_off (i_inum ip)) data)) ;;
     brelse bp ;;
     updinode i (fun ip => ip <| i_valid := true |>) ;;
     ip <- getinode i ;;
     panic_if (i_type ip =? 0) "ilock: no type").

Definition iunlock (i : nat) : K unit :=
  h <- holdingsleep (SL_inode i) ;;
  ip <- getinode i ;;
  panic_if (negb h || (i_ref ip <? 1)) "iunlock" ;;
  releasesleep (SL_inode i).

Definition ifree (dev inum : Z) : K unit :=
  sbl <- gets sb ;;
  bp <- bread dev (IBLOCK inum sbl) ;;
  set_bdata bp (blit (dinode_off inum) (le_encode 2 0)) ;;
  log_write bp ;;
  brelse bp.

(** Free the blocks listed in an indirect block. *)
Definition free_indirect (dev : Z) (data : list Z) : K unit :=
  foreach (seq 0 (Z.to_nat NINDIRECT)) (fun j =>
    let a := get_u32 (4 * j) data in
    when (negb (a =? 0)) (bfree dev a)).

Definition itrunc (i : nat) : K unit :=
  foreach (seqZ 0 NDIRECT) (fun k =>
    ip <- getinode i ;;
    when (negb (addr_of ip k =? 0))
      (bfree (i_dev ip) (addr_of ip k) ;;
       updinode i (set_addr k 0))) ;;
  ip <- getinode i ;;
  when (negb (addr_of ip NDIRECT =? 0))
    (bp <- bread (i_dev ip) (addr_of ip NDIRECT) ;;
     data <- bdata bp ;;
     free_indirect (i_dev ip) data ;;
     brelse bp ;;
     bfree (i_dev ip) (addr_of ip NDIRECT) ;;
     updinode i (set_addr NDIRECT 0)) ;;
  updinode i (fun ip => ip <| i_size := 0 |>) ;;
  iupdate i.

Definition iput (i : nat) : K unit :=
  acquire L_itable ;;
  ip <- getinode i ;;
  let last := (i_ref ip =? 1) && i_valid ip && (i_nlink ip =? 0) in
  let dev := i_dev ip in
  let inum := i_inum ip in
  when last
    (acquiresleep (SL_inode i) ;;
     release L_itable ;;
     itrunc i ;;
     updinode i (fun ip => ip <| i_valid := false |>) ;;
     releasesleep (SL_inode i) ;;
     acquire L_itable) ;;
  updinode i (fun ip => ip <| i_ref := i_ref ip - 1 |>) ;;
  release L_itable ;;
  when last (ifree dev inum).

Definition iunlockput (i : nat) : K unit := iunlock i ;; iput i.

(** The body of [ireclaim]'s loop. *)
Definition ireclaim1 (dev inum : Z) : K unit :=
  sbl <- gets sb ;;
  bp <- bread dev (IBLOCK inum sbl) ;;
  data <- bdata bp ;;
  let d := get_dinode (dinode_off inum) data in
  o <- (if negb (di_type d =? 0) && (di_nlink d =? 0) then
          printk (strn "ireclaim: orphaned inode %d") [A_int inum] ;;
          i <- iget dev inum ;; ret (Some i)
        else ret None) ;;
  brelse bp ;;
  match o with
  | Some i => begin_op ;; ilock i ;; iunlock i ;; iput i ;; end_op
  | None => ret tt
  end.

Definition ireclaim (dev : Z) : K unit :=
  sbl <- gets sb ;; foreach (seqZ 1 (sb_ninodes sbl - 1)) (ireclaim1 dev).

Definition fsinit (dev : Z) : K unit :=
  readsb dev ;;
  sbl <- gets sb ;;
  panic_if (negb (sb_magic sbl =? FSMAGIC)) "invalid file system" ;;
  initlog dev ;;
  ireclaim dev.

(** ** Inode content *)

Definition bmap (i : nat) (bn : Z) : K Z :=
  ip <- getinode i ;;
  if bn <? NDIRECT then
    if addr_of ip bn =? 0 then
      addr <- balloc (i_dev ip) ;;
      if addr =? 0 then ret 0
      else updinode i (set_addr bn addr) ;; ret addr
    else ret (addr_of ip bn)
  else
    let bn := bn - NDIRECT in
    if bn <? NINDIRECT then
      ind <- (if addr_of ip NDIRECT =? 0 then
                addr <- balloc (i_dev ip) ;;
                when (negb (addr =? 0)) (updinode i (set_addr NDIRECT addr)) ;;
                ret addr
              else ret (addr_of ip NDIRECT)) ;;
      if ind =? 0 then ret 0
      else
        bp <- bread (i_dev ip) ind ;;
        data <- bdata bp ;;
        addr <- (if get_u32 (4 * Z.to_nat bn) data =? 0 then
                   addr <- balloc (i_dev ip) ;;
                   when (negb (addr =? 0))
                     (set_bdata bp (put_u32 (4 * Z.to_nat bn) addr) ;;
                      log_write bp) ;;
                   ret addr
                 else ret (get_u32 (4 * Z.to_nat bn) data)) ;;
        brelse bp ;;
        ret addr
    else panic "bmap: out of range".

Definition stati (i : nat) : K stat :=
  ip <- getinode i ;;
  ret (mkStat (i_dev ip) (i_inum ip) (i_type ip) (i_nlink ip) (i_size ip)).

(** The loop of [readi]; [out] collects what goes to a local object. *)
Fixpoint readi_loop (fuel : nat) (i : nat) (d : kdst) (off tot n : Z) (out : list Z) : K (Z * list Z) :=
  if tot <? n then
    match fuel with
    | O => no_fuel
    | S fuel' =>
        addr <- bmap i (off / BSIZE) ;;
        if addr =? 0 then ret (tot, out)
        else
          ip <- getinode i ;;
          bp <- bread (i_dev ip) addr ;;
          data <- bdata bp ;;
          let m := Z.min (n - tot) (BSIZE - off mod BSIZE) in
          let bytes := slice (Z.to_nat (off mod BSIZE)) (Z.to_nat m) data in
          r <- either_copyout d bytes ;;
          if r =? -1 then brelse bp ;; ret (-1, out)
          else
            brelse bp ;;
            readi_loop fuel' i (dst_add d m) (u32 (off + m)) (u32 (tot + m)) n (out ++ bytes)
    end
  else ret (tot, out).

Definition readi (i : nat) (d : kdst) (off n : Z) : K (Z * list Z) :=
  ip <- getinode i ;;
  if (i_size ip <? off) || (u32 (off + n) <? off) then ret (0, [])
  else
    let n := if i_size ip <? u32 (off + n) then i_size ip - off else n in
    readi_loop (Z.to_nat n) i d off 0 n [].

(** The loop of [writei]: the final [off] and [tot]. *)
Fixpoint writei_loop (fuel : nat) (i : nat) (x : ksrc) (off tot n : Z) : K (Z * Z) :=
  if tot <? n then
    match fuel with
    | O => no_fuel
    | S fuel' =>
        addr <- bmap i (off / BSIZE) ;;
        if addr =? 0 then ret (off, tot)
        else
          ip <- getinode i ;;
          bp <- bread (i_dev ip) addr ;;
          let m := Z.min (n - tot) (BSIZE - off mod BSIZE) in
          r <- either_copyin x m ;;
          set_bdata bp (blit (Z.to_nat (off mod BSIZE)) (snd r)) ;;
          log_write bp ;;
          brelse bp ;;
          if fst r =? -1 then ret (off, tot)
          else writei_loop fuel' i (src_add x m) (u32 (off + m)) (u32 (tot + m)) n
    end
  else ret (off, tot).

Definition writei (i : nat) (x : ksrc) (off n : Z) : K Z :=
  ip <- getinode i ;;
  if (i_size ip <? off) || (u32 (off + n) <? off) then ret (-1)
  else if MAXFILE * BSIZE <? u32 (off + n) then ret (-1)
  else
    r <- writei_loop (Z.to_nat n) i x off 0 n ;;
    ip <- getinode i ;;
    when (i_size ip <? fst r) (updinode i (fun ip => ip <| i_size := fst r |>)) ;;
    iupdate i ;;
    ret (s32 (snd r)).

(** ** Directories *)

Definition namecmp (s t : list Z) : Z := strncmp s t DIRSIZ.

(** The scan of [dirlookup] from offset [off] on: the entry's inode number and
    offset. *)
Fixpoint dirlookup_loop (fuel : nat) (dp : nat) (name : list Z) (off : Z) : K (option (Z * Z)) :=
  d <- getinode dp ;;
  if off <? i_size d then
    match fuel with
    | O => no_fuel
    | S n =>
        r <- readi dp D_local off DIRENT_SIZE ;;
        panic_if (negb (fst r =? DIRENT_SIZE)) "dirlookup read" ;;
        let de := snd r in
        if dirent_inum de =? 0 then dirlookup_loop n dp name (u32 (off + DIRENT_SIZE))
        else if namecmp name (dirent_name de) =? 0 then ret (Some (dirent_inum de, off))
        else dirlookup_loop n dp name (u32 (off + DIRENT_SIZE))
    end
  else ret None.

(** The inode and, for [poff], its offset. *)
Definition dirlookup (dp : nat) (name : list Z) : K (option (nat * Z)) :=
  d <- getinode dp ;;
  panic_if (negb (i_type d =? T_DIR)) "dirlookup not DIR" ;;
  r <- dirlookup_loop (Z.to_nat (i_size d / DIRENT_SIZE + 1)) dp name 0 ;;
  match r with
  | Some (inum, off) => i <- iget (i_dev d) inum ;; ret (Some (i, off))
  | None => ret None
  end.

(** [dirlink]'s search for an empty entry: its offset, or the size of the
    directory. *)
Fixpoint empty_dirent (fuel : nat) (dp : nat) (off : Z) : K Z :=
  d <- getinode dp ;;
  if off <? i_size d then
    match fuel with
    | O => no_fuel
    | S n =>
        r <- readi dp D_local off DIRENT_SIZE ;;
        panic_if (negb (fst r =? DIRENT_SIZE)) "dirlink read" ;;
        if dirent_inum (snd r) =? 0 then ret off
        else empty_dirent n dp (off + DIRENT_SIZE)
    end
  else ret off.

Definition dirlink (dp : nat) (name : list Z) (inum : Z) : K Z :=
  r <- dirlookup dp name ;;
  match r with
  | Some (ip, _) => iput ip ;; ret (-1)
  | None =>
      d <- getinode dp ;;
      off <- empty_dirent (Z.to_nat (i_size d / DIRENT_SIZE + 1)) dp 0 ;;
      let de := le_encode 2 inum ++ strncpy name DIRSIZ in
      n <- writei dp (S_local de) off DIRENT_SIZE ;;
      if negb (n =? DIRENT_SIZE) then ret (-1) else ret 0
  end.

(** ** Paths *)

(** [while ( *path == '/') path++;] and the run of other characters. *)
Fixpoint skip_slashes (path : list Z) : list Z :=
  match path with
  | c :: path' => if c =? ch "/" then skip_slashes path' else path
  | [] => []
  end.

Fixpoint elem_chars (path : list Z) : list Z :=
  match path with
  | c :: path' => if (c =? ch "/") || (c =? 0) then [] else c :: elem_chars path'
  | [] => []
  end.

(** The rest of the path and the element, cut at [DIRSIZ]; [None] is a return
    value of 0. *)
Definition skipelem (path : list Z) : option (list Z * list Z) :=
  let path := skip_slashes path in
  if char_at path =? 0 then None
  else
    let s := elem_chars path in
    Some (skip_slashes (drop (length s) path), take DIRSIZ s).

(** The loop of [namex] from inode [i]; with [parent], the inode and the last
    element. *)
Fixpoint namex_loop (fuel : nat) (i : nat) (path : list Z) (parent : bool) : K (option (nat * list Z)) :=
  match skipelem path with
  | None => if parent then iput i ;; ret None else ret (Some (i, []))
  | Some (path', name) =>
      match fuel with
      | O => no_fuel
      | S n =>
          ilock i ;;
          ip <- getinode i ;;
          if negb (i_type ip =? T_DIR) then iunlockput i ;; ret None
          else if i_nlink ip =? 0 then iunlockput i ;; ret None
          else if parent && (char_at path' =? 0) then iunlock i ;; ret (Some (i, name))
          else
            r <- dirlookup i name ;;
            match r with
            | None => iunlockput i ;; ret None
            | Some (next, _) => iunlockput i ;; namex_loop n next path' parent
            end
      end
  end.

Definition namex (path : list Z) (parent : bool) : K (option (nat * list Z)) :=
  i <- (if char_at path =? ch "/" then iget ROOTDEV ROOTINO
        else
          p <- curproc ;;
          pr <- getproc p ;;
          match p_cwd pr with Some c => idup c | None => fault end) ;;
  namex_loop (length path) i path parent.

Definition namei (path : list Z) : K (option nat) :=
  r <- namex path false ;; ret (fst <$> r).

Definition nameiparent (path : list Z) : K (option (nat * list Z)) := namex path true.

End fs.
