(* ===== verification/Block.v ===== *)
(** The allocation of disk blocks inside a transaction: [balloc] and [bfree] of
    kernel/fs.c keep the free bitmap, and every change goes through the log. *)

From stdpp Require Import prelude gmap strings.
From Stdlib Require Import ZArith Lia.
From S2P Require Import Prelude Bytes Params State Spinlock CString Uart Printk Sched Sleeplock.
From S2P Require Import Vm Disk Bio Cache Log Recovery Crash Txn Copy Fs.

Local Open Scope Z_scope.
Local Open Scope kernel_scope.

(** ** Steps of the file system *)

(** Code that changed only the cache, the log in memory and the console. *)
Definition fs_step (s s' : kstate) : Prop := exists lg, io_step (s <| klog := lg |>) s' [].

Lemma fs_refl s : fs_step s s.
Proof. exists (klog s). assert (s <| klog := klog s |> = s) as -> by st_eq s. apply io_refl. Qed.

Lemma fs_io s s' : io_step s s' [] -> fs_step s s'.
Proof. intros HS. exists (klog s). by assert (s <| klog := klog s |> = s) as -> by st_eq s. Qed.

Lemma fs_klog s lg : fs_step s (s <| klog := lg |>).
Proof. exists lg. apply io_refl. Qed.

Lemma fs_trans s s1 s2 : fs_step s s1 -> fs_step s1 s2 -> fs_step s s2.
Proof.
  intros [lg1 H1] [lg2 H2]. exists lg2. apply (io_set_klog lg2) in H1.
  assert (s <| klog := lg1 |> <| klog := lg2 |> = s <| klog := lg2 |>) as E by st_eq s. rewrite E in H1.
  exact (io_trans _ _ _ [] [] H1 H2).
Qed.

#[export] Instance fs_step_preorder : PreOrder fs_step.
Proof. split; [intros s; apply fs_refl|intros s t u; apply fs_trans]. Qed.

Section project.
Context {s s' : kstate} (HS : fs_step s s').

Lemma fs_sb : sb s' = sb s.
Proof. destruct HS as (lg & ? & ? & ? & ->). by rs. Qed.
Lemma fs_itable : itable s' = itable s.
Proof. destruct HS as (lg & ? & ? & ? & ->). by rs. Qed.
Lemma fs_disk : disk s' = disk s.
Proof. destruct HS as (lg & ? & ? & ? & ->). by rs. Qed.
Lemma fs_held : held s' = held s.
Proof. destruct HS as (lg & ? & ? & ? & ->). by rs. Qed.
Lemma fs_procs : procs s' = procs s.
Proof. destruct HS as (lg & ? & ? & ? & ->). by rs. Qed.
Lemma fs_cpu_proc : cpu_proc s' = cpu_proc s.
Proof. destruct HS as (lg & ? & ? & ? & ->). by rs. Qed.
End project.

(** ** The block operations, inside a transaction *)

Section ops.
Context {F : Fuel} (pid start : Z).
Implicit Types (s : kstate) (V : gmap Z (list Z)) (H : gmap Z nat) (bl : list Z).

(** In the file system, with the right to log [k] more blocks and to hold [m] more
    buffers.  Only a caller inside an operation may log blocks. *)
Record fs_ok (k m : nat) bl s V H : Prop := {
  fo_log : log_inv pid start bl s V H;
  fo_lock : L_log ∉ held s;
  fo_op : (0 < k)%nat -> 1 <= l_outstanding (klog s);
  fo_room : (length bl + size H + k + m <= NBUF)%nat;
}.

(** A block that the file system may change. *)
Definition fs_block V (b : Z) : Prop := 0 <= b < 2 ^ 31 /\ ~ in_log start b /\ is_Some (V !! b).

(** The invariant of the log does not depend on the inodes or the superblock. *)
Lemma li_frame bl s s' V H :
  bufs s' = bufs s -> disk s' = disk s -> klog s' = klog s -> panicking s' = panicking s ->
  procs s' = procs s -> cpu_proc s' = cpu_proc s -> held s' = held s ->
  log_inv pid start bl s V H -> log_inv pid start bl s' V H.
Proof.
  intros E1 E2 E3 E4 E5 E6 E7 [[HC HE] H1 H2 H3 H4 H5 H6 H7 H8].
  split; rewrite ?E2, ?E3, ?E4; try done.
  split; [by apply (cache_frame pid s)|by apply (fs_env_frame pid s)].
Qed.

Lemma li_sb bl s V H x : log_inv pid start bl s V H -> log_inv pid start bl (s <| sb := x |>) V H.
Proof. by apply li_frame; rs. Qed.

Lemma fo_cache k m bl s V H : fs_ok k m bl s V H -> in_cache pid s V (pins bl) H.
Proof. intros HF. apply HF. Qed.

Lemma size_union_le (X Y : gset Z) : (size (X ∪ Y) <= size X + size Y)%nat.
Proof. rewrite size_union_alt. pose proof (subseteq_size (Y ∖ X) Y). set_solver by lia. Qed.

Lemma fo_step k m k' m' bl s s' V V' H H' :
  fs_ok k m bl s V H -> io_step s s' [] -> in_cache pid s' V' (pins bl) H' ->
  (forall b, in_log start b -> H' !! b = None) -> (forall b, is_Some (V !! b) -> is_Some (V' !! b)) ->
  (k' <= k)%nat -> (size H' + k' + m' <= size H + k + m)%nat -> fs_ok k' m' bl s' V' H'.
Proof.
  intros [HI Hl Ho Hr] HS HC HH HV Hk Hsz.
  split; rewrite ?(io_held _ _ _ HS), ?(io_klog _ _ _ HS); try done; [|intros; apply Ho; lia|lia].
  eapply li_io; eauto.
Qed.

Lemma fo_weaken k m k' m' bl s V H : (k' <= k)%nat -> (m' <= m)%nat -> fs_ok k m bl s V H -> fs_ok k' m' bl s V H.
Proof. intros Hk Hm [HI Hl Ho Hr]. split; [done|done|intros; apply Ho; lia|lia]. Qed.

Lemma fs_bread k m bl s V H b d :
  fs_ok k (S m) bl s V H -> V !! b = Some d -> ~ in_log start b -> H !! b = None ->
  exists i s', bread ROOTDEV b s = Ok i s' /\ fs_step s s' /\ fs_ok k m bl s' V (<[b := i]> H).
Proof.
  intros HF Hd Hnl Hb. pose proof HF as [HI Hl Ho Hr].
  destruct (bread_step pid b d s V (pins bl) H) as (i & s' & E & HS & HC); [apply HI|done|done| |].
  { right. pose proof (size_union_le (dom (pins bl)) (dom H)) as Hsz.
    rewrite size_pins in Hsz by apply HI. rewrite size_dom in Hsz. lia. }
  exists i, s'. split; [done|]. split; [by apply fs_io|].
  eapply fo_step; [done|done|done| |done|lia|].
  - intros c Hc. rewrite lookup_insert_ne; [by apply (li_unheld _ _ _ _ _ _ HI)|]. by intros ->.
  - rewrite map_size_insert_None by done. lia.
Qed.

Lemma fs_bdata k m bl s V H b i d :
  fs_ok k m bl s V H -> H !! b = Some i -> V !! b = Some d -> bdata i s = Ok d s.
Proof. intros HF. eapply bdata_step, fo_cache, HF. Qed.

Lemma fs_set_bdata k m bl s V H b i d f :
  fs_ok k m bl s V H -> H !! b = Some i -> V !! b = Some d -> length (f d) = 1024%nat ->
  exists s', set_bdata i f s = Ok tt s' /\ fs_step s s' /\ fs_ok k m bl s' (<[b := f d]> V) H.
Proof.
  intros HF Hb Hd Hl.
  destruct (set_bdata_step pid b i d f s V (pins bl) H) as (s' & E & HS & HC); [apply HF|done|done|done|].
  exists s'. split; [done|]. split; [by apply fs_io|].
  eapply fo_step; [done|done|done| | |lia|lia].
  - apply (li_unheld _ _ _ _ _ _ (fo_log _ _ _ _ _ _ HF)).
  - intros c Hc. rewrite lookup_insert_is_Some'. by right.
Qed.

Lemma fs_log_write k m bl s V H b i :
  fs_ok (S k) m bl s V H -> H !! b = Some i -> 0 <= b < 2 ^ 31 -> ~ in_log start b ->
  exists s', log_write i s = Ok tt s' /\ fs_step s s' /\ fs_ok k m (logged bl b) s' V H.
Proof.
  intros [HI Hl Ho Hr] Hb Hbr Hnl. change NBUF with 30%nat in Hr.
  destruct (log_write_ok pid start bl b i s V H) as (bs & lb & E & HI'); try done; [lia|apply Ho; lia|].
  eexists. split; [exact E|]. split; [eapply fs_trans; [apply fs_io, io_bufs|apply fs_klog]|].
  pose proof (logged_length bl b). split; try done; [intros; apply Ho; lia|]. change NBUF with 30%nat. lia.
Qed.

Lemma fs_brelse k m bl s V H b i :
  fs_ok k m bl s V H -> H !! b = Some i -> b ∈ bl \/ disk s !! b = V !! b ->
  exists s', brelse i s = Ok tt s' /\ fs_step s s' /\ fs_ok k (S m) bl s' V (delete b H).
Proof.
  intros HF Hb Hc.
  destruct (brelse_step pid b i s V (pins bl) H) as (s' & E & HS & HC); [apply HF|done| |].
  { rewrite refs_pins. destruct Hc as [Hc|Hc]; [left; by rewrite decide_True|by right]. }
  exists s'. split; [done|]. split; [by apply fs_io|].
  eapply fo_step; [done|done|done| |done|lia|].
  - intros c Hc'. rewrite lookup_delete_None. right. by apply (li_unheld _ _ _ _ _ _ (fo_log _ _ _ _ _ _ HF)).
  - rewrite map_size_delete_Some by done. pose proof (map_size_ne_0_lookup_2 H b). 
    assert (size H <> 0)%nat by (apply map_size_ne_0_lookup_2 with b; eauto). lia.
Qed.

Lemma elem_logged bl b : b ∈ logged bl b.
Proof. unfold logged. destruct (decide _); set_solver. Qed.

(** [bread], look at the data and [brelse]. *)
Lemma fs_read k m bl s V H b d :
  fs_ok k (S m) bl s V H -> V !! b = Some d -> ~ in_log start b -> H !! b = None ->
  exists i s1 s2, bread ROOTDEV b s = Ok i s1 /\ bdata i s1 = Ok d s1 /\ brelse i s1 = Ok tt s2 /\
    fs_step s s1 /\ fs_step s s2 /\ fs_ok k m bl s1 V (<[b := i]> H) /\ fs_ok k (S m) bl s2 V H.
Proof.
  intros HF Hd Hnl Hb. destruct (fs_bread k m bl s V H b d) as (i & s1 & E1 & S1 & HF1); try done.
  destruct (fs_brelse k m bl s1 V (<[b := i]> H) b i) as (s2 & E2 & S2 & HF2); [done|apply lookup_insert_eq| |].
  { destruct (decide (b ∈ bl)) as [|Hn]; [by left|right]. rewrite (fs_disk S1).
    eapply (li_disk pid start bl); [apply HF|done|done]. }
  rewrite delete_insert_id in HF2 by done.
  exists i, s1, s2. split; [done|]. split; [eapply fs_bdata; [done|apply lookup_insert_eq|done]|].
  split; [done|]. split; [done|]. split; [by eapply fs_trans|]. done.
Qed.

(** A held buffer is changed, logged and released. *)
Lemma fs_modify k m bl s V H b i d f :
  fs_ok (S k) m bl s V (<[b := i]> H) -> H !! b = None -> V !! b = Some d -> length (f d) = 1024%nat ->
  0 <= b < 2 ^ 31 -> ~ in_log start b ->
  exists s', bind (set_bdata i f) (fun _ => bind (log_write i) (fun _ => brelse i)) s = Ok tt s' /\
    fs_step s s' /\ fs_ok k (S m) (logged bl b) s' (<[b := f d]> V) H.
Proof.
  intros HF Hb Hd Hl Hbr Hnl.
  destruct (fs_set_bdata (S k) m bl s V (<[b := i]> H) b i d f) as (s1 & E1 & S1 & HF1);
    [done|apply lookup_insert_eq|done|done|]. run E1.
  destruct (fs_log_write k m bl s1 _ (<[b := i]> H) b i HF1) as (s2 & E2 & S2 & HF2);
    [apply lookup_insert_eq|done|done|]. run E2.
  destruct (fs_brelse k m (logged bl b) s2 _ (<[b := i]> H) b i HF2) as (s3 & E3 & S3 & HF3);
    [apply lookup_insert_eq|left; apply elem_logged|].
  rewrite delete_insert_id in HF3 by done.
  exists s3. split; [done|]. split; [|done]. by repeat (eapply fs_trans; [eassumption|]).
Qed.

(** The whole of it, from [bread]. *)
Lemma fs_update k m bl s V H b d f :
  fs_ok (S k) (S m) bl s V H -> fs_block V b -> V !! b = Some d -> H !! b = None ->
  length (f d) = 1024%nat ->
  exists s', update_block b f s = Ok tt s' /\ fs_step s s' /\
    fs_ok k (S m) (logged bl b) s' (<[b := f d]> V) H.
Proof.
  intros HF (Hbr & Hnl & _) Hd Hb Hl. unfold update_block.
  destruct (fs_bread (S k) m bl s V H b d) as (i & s1 & E1 & S1 & HF1); try done. run E1.
  destruct (fs_modify k m bl s1 V H b i d f) as (s2 & E2 & S2 & HF2); try done.
  exists s2. split; [done|]. split; [by eapply fs_trans|done].
Qed.

(** ** The free bitmap *)

(** Bit [bi] of a block of the bitmap. *)
Definition bit_of (data : list Z) (bi : Z) : bool := Z.testbit (data !!! Z.to_nat (bi / 8)) (bi mod 8).

Definition set_bit (bi : Z) (data : list Z) : list Z :=
  alter (fun x => Z.lor x (Z.shiftl 1 (bi mod 8))) (Z.to_nat (bi / 8)) data.
Definition clear_bit (bi : Z) (data : list Z) : list Z :=
  alter (fun x => Z.land x (u8 (Z.lnot (Z.shiftl 1 (bi mod 8))))) (Z.to_nat (bi / 8)) data.

Lemma mask_bit data bi :
  (Z.land (data !!! Z.to_nat (bi / 8)) (Z.shiftl 1 (bi mod 8)) =? 0) = negb (bit_of data bi).
Proof.
  pose proof (Z.mod_pos_bound bi 8). unfold bit_of. rewrite Z.shiftl_mul_pow2, Z.mul_1_l by lia.
  rewrite <- has_flag_spec. unfold has_flag. by rewrite negb_involutive.
Qed.

Lemma alter_total (f : Z -> Z) (k j : nat) (l : list Z) :
  (k < length l)%nat -> alter f k l !!! j = if decide (j = k) then f (l !!! k) else l !!! j.
Proof.
  intros Hk. destruct (lookup_lt_is_Some_2 l k Hk) as [x Hx]. rewrite !list_lookup_total_alt.
  destruct (decide (j = k)) as [->|Hne].
  - by rewrite list_lookup_alter_eq, Hx.
  - by rewrite list_lookup_alter_ne by congruence.
Qed.

(** Bits of a block are determined by their byte and their position in it. *)
Lemma bit_pos bi bj :
  0 <= bi -> 0 <= bj -> Z.to_nat (bj / 8) = Z.to_nat (bi / 8) -> bj mod 8 = bi mod 8 -> bj = bi.
Proof.
  intros Hi Hj E1 E2. assert (bj / 8 = bi / 8) by (apply Z2Nat.inj; [apply Z.div_pos; lia..|done]).
  rewrite (Z.div_mod bj 8), (Z.div_mod bi 8) by lia. congruence.
Qed.

Lemma pow2_testbit i j : 0 <= i -> 0 <= j -> Z.testbit (Z.shiftl 1 i) j = bool_decide (j = i).
Proof.
  intros Hi Hj. rewrite Z.shiftl_mul_pow2, Z.mul_1_l by done. rewrite Z.pow2_bits_eqb by done.
  destruct (Z.eqb_spec i j); symmetry; [apply bool_decide_eq_true_2|apply bool_decide_eq_false_2]; congruence.
Qed.

Lemma bit_set data bi bj :
  length data = 1024%nat -> 0 <= bi < BPB -> 0 <= bj < BPB ->
  bit_of (set_bit bi data) bj = bool_decide (bj = bi) || bit_of data bj.
Proof.
  unfold BPB, BSIZE. intros Hl Hi Hj. unfold bit_of, set_bit. pose proof (Z.mod_pos_bound bi 8). pose proof (Z.mod_pos_bound bj 8).
  rewrite alter_total by (rewrite Hl; apply Nat2Z.inj_lt; rewrite Z2Nat.id; [|apply Z.div_pos; lia]; apply Z.div_lt_upper_bound; lia).
  destruct (decide (Z.to_nat (bj / 8) = Z.to_nat (bi / 8))) as [E|E].
  - rewrite Z.lor_spec, pow2_testbit, E by lia. rewrite orb_comm. f_equal. apply bool_decide_ext.
    split; [|congruence]. intros. apply bit_pos; first [done|lia].
  - rewrite bool_decide_eq_false_2; [done|congruence].
Qed.

Lemma bit_clear data bi bj :
  length data = 1024%nat -> 0 <= bi < BPB -> 0 <= bj < BPB ->
  bit_of (clear_bit bi data) bj = negb (bool_decide (bj = bi)) && bit_of data bj.
Proof.
  unfold BPB, BSIZE. intros Hl Hi Hj. unfold bit_of, clear_bit. pose proof (Z.mod_pos_bound bi 8). pose proof (Z.mod_pos_bound bj 8).
  rewrite alter_total by (rewrite Hl; apply Nat2Z.inj_lt; rewrite Z2Nat.id; [|apply Z.div_pos; lia]; apply Z.div_lt_upper_bound; lia).
  destruct (decide (Z.to_nat (bj / 8) = Z.to_nat (bi / 8))) as [E|E].
  - rewrite Z.land_spec. unfold wrap. rewrite Z.mod_pow2_bits_low, Z.lnot_spec, pow2_testbit, E by lia.
    rewrite andb_comm. f_equal. f_equal. apply bool_decide_ext. split; [|congruence]. intros. apply bit_pos; first [done|lia].
  - rewrite bool_decide_eq_false_2; [done|congruence].
Qed.

Lemma find_clear_spec data bis :
  match find_clear data bis with
  | Some bi => bi ∈ bis /\ bit_of data bi = false
  | None => forall bi, bi ∈ bis -> bit_of data bi = true
  end.
Proof.
  induction bis as [|bi bis IH]; cbn [find_clear]; [intros bi Hbi; by apply not_elem_of_nil in Hbi|].
  rewrite mask_bit. destruct (bit_of data bi) eqn:E; cbn [negb].
  - destruct (find_clear data bis) as [bj|]; [destruct IH; split; [by right|done]|].
    intros bj [->|Hbj]%elem_of_cons; auto.
  - split; [by left|done].
Qed.

(** Is block [b] marked in the bitmap? *)
Definition used (sbl : superblock) V (b : Z) : bool :=
  match V !! BBLOCK b sbl with Some data => bit_of data (b mod BPB) | None => false end.

(** No block is free. *)
Definition disk_full (sbl : superblock) V : Prop := forall b, 0 <= b < sb_size sbl -> used sbl V b = true.

(** Neither a block of the bitmap nor one of the inodes. *)
Definition data_block (sbl : superblock) (b : Z) : Prop :=
  (forall c, 0 <= c < sb_size sbl -> b <> BBLOCK c sbl) /\ (forall j, 0 <= j < sb_ninodes sbl -> b <> IBLOCK j sbl).

(** The bitmap exists, and marks itself, the log and the inodes. *)
Record bitmap_ok (sbl : superblock) V : Prop := {
  bm_size : 0 <= sb_size sbl < 2 ^ 31;
  bm_block : forall b, 0 <= b < sb_size sbl -> fs_block V (BBLOCK b sbl);
  bm_free : forall b, 0 <= b < sb_size sbl -> used sbl V b = false ->
    b <> 0 /\ fs_block V b /\ data_block sbl b;
}.

Lemma BBLOCK_inj sbl b c : 0 <= b < 2 ^ 31 -> 0 <= c < 2 ^ 31 -> BBLOCK b sbl = BBLOCK c sbl -> b / BPB = c / BPB.
Proof.
  unfold BBLOCK, wrap. intros Hb Hc E. change BPB with 8192 in *.
  assert (0 <= b / 8192 < 2 ^ 18) by (split; [apply Z.div_pos; lia|apply Z.div_lt_upper_bound; lia]).
  assert (0 <= c / 8192 < 2 ^ 18) by (split; [apply Z.div_pos; lia|apply Z.div_lt_upper_bound; lia]).
  pose proof (Z.div_mod (b / 8192 + sb_bmapstart sbl) (2 ^ 32)).
  pose proof (Z.div_mod (c / 8192 + sb_bmapstart sbl) (2 ^ 32)). lia.
Qed.

Lemma block_pos b c : b / BPB = c / BPB -> b mod BPB = c mod BPB -> b = c.
Proof. intros E1 E2. rewrite (Z.div_mod b BPB), (Z.div_mod c BPB) by done. congruence. Qed.

Lemma group_pos b bi : b mod BPB = 0 -> 0 <= bi < BPB -> (b + bi) / BPB = b / BPB /\ (b + bi) mod BPB = bi.
Proof. change BPB with 8192. Z.div_mod_to_equations. lia. Qed.

(** A change of one block of the bitmap is a change of its bits. *)
Lemma used_insert sbl V b f d c :
  bitmap_ok sbl V -> 0 <= b < sb_size sbl -> 0 <= c < sb_size sbl -> V !! BBLOCK b sbl = Some d ->
  (forall j, 0 <= j < BPB -> j <> b mod BPB -> bit_of f j = bit_of d j) ->
  used sbl (<[BBLOCK b sbl := f]> V) c = if decide (c = b) then bit_of f (b mod BPB) else used sbl V c.
Proof.
  intros [Hs Hbl Hfr] Hb Hc Hd Hf. unfold used. destruct (decide (c = b)) as [->|Hne]; [by rewrite lookup_insert_eq|].
  destruct (decide (BBLOCK b sbl = BBLOCK c sbl)) as [E|E]; [|by rewrite lookup_insert_ne].
  rewrite <- E, lookup_insert_eq, Hd. apply Hf; [apply Z.mod_pos_bound; done|].
  intros E2. apply Hne. apply block_pos; [|done]. symmetry. apply (BBLOCK_inj sbl); [lia|lia|done].
Qed.

Lemma used_other sbl V b d c :
  bitmap_ok sbl V -> (forall c, 0 <= c < sb_size sbl -> b <> BBLOCK c sbl) -> 0 <= c < sb_size sbl ->
  used sbl (<[b := d]> V) c = used sbl V c.
Proof. intros _ Hb Hc. unfold used. rewrite lookup_insert_ne; [done|]. by apply Hb. Qed.

Lemma fs_block_insert V b d c : fs_block V c -> fs_block (<[b := d]> V) c.
Proof. intros (H1 & H2 & H3). split; [done|]. split; [done|]. rewrite lookup_insert_is_Some'. by right. Qed.

Lemma bitmap_mono sbl V V' :
  bitmap_ok sbl V -> (forall b, is_Some (V !! b) -> is_Some (V' !! b)) ->
  (forall b, 0 <= b < sb_size sbl -> used sbl V' b = false ->
     b <> 0 /\ fs_block V b /\ data_block sbl b) ->
  bitmap_ok sbl V'.
Proof.
  intros [Hs Hbl Hfr] HV Hu. split; [done| |].
  - intros b Hb. destruct (Hbl b Hb) as (? & ? & ?). split; [done|]. split; [done|]. by apply HV.
  - intros b Hb Hub. destruct (Hu b Hb Hub) as (? & (? & ? & ?) & ?). split; [done|]. split; [|done].
    split; [done|]. split; [done|]. by apply HV.
Qed.

(** ** [balloc] *)

(** The contents after [balloc] of [b]. *)
Definition allocated (sbl : superblock) (b : Z) V : gmap Z (list Z) :=
  <[b := replicate 1024 0]> (alter (set_bit (b mod BPB)) (BBLOCK b sbl) V).

Lemma alter_Some_insert (f : list Z -> list Z) b V d : V !! b = Some d -> alter f b V = <[b := f d]> V.
Proof.
  intros Hd. apply map_eq. intros c. destruct (decide (c = b)) as [->|Hne].
  - by rewrite lookup_alter_eq, lookup_insert_eq, Hd.
  - by rewrite lookup_alter_ne, lookup_insert_ne.
Qed.

Lemma length_set_bit bi d : length (set_bit bi d) = length d.
Proof. apply length_alter. Qed.

Lemma allocated_bitmap sbl V b :
  bitmap_ok sbl V -> (forall b d, V !! b = Some d -> length d = 1024%nat) ->
  0 <= b < sb_size sbl -> used sbl V b = false ->
  bitmap_ok sbl (allocated sbl b V) /\
  forall c, 0 <= c < sb_size sbl -> used sbl (allocated sbl b V) c = bool_decide (c = b) || used sbl V c.
Proof.
  intros Hbm Hlen Hb Hu. pose proof Hbm as [Hs Hbl Hfr]. destruct (Hbl b Hb) as (_ & _ & [d Hd]).
  destruct (Hfr b Hb Hu) as (Hb0 & Hfb & [Hnb _]). pose proof (Hlen _ _ Hd) as Hl.
  pose proof (Z.mod_pos_bound b BPB) as Hmod.
  assert (forall c, 0 <= c < sb_size sbl ->
            used sbl (allocated sbl b V) c = bool_decide (c = b) || used sbl V c) as Hused.
  { intros c Hc. unfold allocated. rewrite (alter_Some_insert _ _ _ d Hd).
    unfold used at 1. rewrite lookup_insert_ne by auto.
    fold (used sbl (<[BBLOCK b sbl := set_bit (b mod BPB) d]> V) c).
    rewrite (used_insert sbl V b _ d c); try done.
    - destruct (decide (c = b)) as [->|Hne].
      + rewrite bit_set by (done || by apply Hmod). rewrite !bool_decide_eq_true_2 by done. done.
      + by rewrite bool_decide_eq_false_2.
    - intros j Hj Hjb. rewrite bit_set by (done || by apply Hmod). by rewrite bool_decide_eq_false_2. }
  split; [|done]. eapply bitmap_mono; [done| |].
  - intros c Hc. unfold allocated. rewrite lookup_insert_is_Some', lookup_alter_is_Some. by right.
  - intros c Hc Huc. rewrite Hused in Huc by done. apply orb_false_iff in Huc as [_ Huc]. by apply Hfr.
Qed.

(** The buffers that the caller holds are neither free blocks nor the bitmap. *)
Definition holds_used (sbl : superblock) V H : Prop :=
  (forall c, 0 <= c < sb_size sbl -> H !! BBLOCK c sbl = None) /\
  (forall c, 0 <= c < sb_size sbl -> used sbl V c = false -> H !! c = None).

Lemma bzero_update b : 0 <= b < 2 ^ 32 -> bzero ROOTDEV b = update_block b (fun _ => replicate 1024 0).
Proof. intros Hb. unfold bzero, update_block. by rewrite u32_small. Qed.

Lemma fo_len k m bl s V H b d : fs_ok k m bl s V H -> V !! b = Some d -> length d = 1024%nat.
Proof. intros HF. apply (c_len _ _ _ _ _ (proj1 (fo_cache _ _ _ _ _ _ HF))). Qed.

Lemma balloc_group k m bl s V H b bi d :
  let sbl := sb s in
  fs_ok (2 + k) (S m) bl s V H -> bitmap_ok sbl V -> holds_used sbl V H ->
  0 <= b -> b mod BPB = 0 -> 0 <= bi < BPB -> b + bi < sb_size sbl ->
  V !! BBLOCK b sbl = Some d -> bit_of d bi = false ->
  forall i s1, bread ROOTDEV (BBLOCK b sbl) s = Ok i s1 -> fs_step s s1 ->
  fs_ok (2 + k) m bl s1 V (<[BBLOCK b sbl := i]> H) ->
  exists bl' s',
    bind (set_bdata i (set_bit bi)) (fun _ => bind (log_write i) (fun _ => bind (brelse i)
      (fun _ => bind (bzero ROOTDEV (b + bi)) (fun _ => ret (b + bi))))) s1 = Ok (b + bi) s' /\
    fs_step s s' /\ used sbl V (b + bi) = false /\
    fs_ok k (S m) bl' s' (allocated sbl (b + bi) V) H.
Proof.
  intros sbl HF Hbm [Hh1 Hh2] Hb0 Hbm0 Hbi Hlt Hd Hbit i s1 E1 S1 HF1. pose proof Hbm as [Hs Hbl Hfr].
  assert (BBLOCK (b + bi) sbl = BBLOCK b sbl /\ (b + bi) mod BPB = bi) as [EB Em].
  { destruct (group_pos b bi) as [E1' E2']; [done|done|]. unfold BBLOCK. by rewrite E1'. }
  assert (used sbl V (b + bi) = false) as Hu by (unfold used; by rewrite EB, Hd, Em).
  destruct (Hfr (b + bi)) as (Hnz & Hfb & [Hnb _]); [lia|done|].
  assert (fs_block V (BBLOCK b sbl)) as (Hb1 & Hb2 & _) by (rewrite <- EB; apply Hbl; lia).
  pose proof (fo_len _ _ _ _ _ _ _ _ HF Hd) as Hl.
  destruct (fs_modify (S k) m bl s1 V H (BBLOCK b sbl) i d (set_bit bi)) as (s2 & E2 & S2 & HF2); try done.
  { rewrite <- EB. apply Hh1. lia. }
  { by rewrite length_set_bit. }
  rewrite (bind_seq3 _ _ _ _ _ _ _ E2). rewrite bzero_update by lia.
  assert (alter (set_bit bi) (BBLOCK b sbl) V = <[BBLOCK b sbl := set_bit bi d]> V) as EV by (by apply alter_Some_insert).
  destruct Hfb as (Hf1 & Hf2 & [d0 Hd0]).
  destruct (fs_update k m (logged bl (BBLOCK b sbl)) s2 (<[BBLOCK b sbl := set_bit bi d]> V) H (b + bi) d0
              (fun _ => replicate 1024 0)) as (s3 & E3 & S3 & HF3); try done.
  { apply fs_block_insert. split; [done|]. split; [done|]. eauto. }
  { rewrite lookup_insert_ne; [done|]. rewrite <- EB. intros E. apply (Hnb (b + bi)); [lia|done]. }
  { apply Hh2; [lia|done]. }
  run E3. eexists _, s3. split; [done|]. split; [by repeat (eapply fs_trans; [eassumption|])|].
  split; [done|]. unfold allocated. by rewrite EB, Em, EV.
Qed.

Lemma fs_printk k m bl s V H fmt ap out :
  printk_chars fmt ap = Some out -> fs_ok k m bl s V H ->
  exists s', printk fmt ap s = Ok 0 s' /\ fs_step s s' /\ fs_ok k m bl s' V H.
Proof.
  intros Hout HF. pose proof (fo_cache _ _ _ _ _ _ HF) as [HC HE].
  eexists. split; [apply printk_ok; [exact Hout|apply HF|by apply quiet_pr, HE]|].
  split; [apply fs_io, io_uart|]. eapply fo_step; [done|apply io_uart| |apply HF|done|lia|lia].
  eapply in_cache_step; [apply io_uart|by apply cache_uart|done].
Qed.

(** What [balloc] promises when it returns [r]. *)
Definition balloc_post k m bl s V H (r : Z) s' : Prop :=
  let sbl := sb s in
  fs_step s s' /\
  ((exists bl', r <> 0 /\ 0 <= r < sb_size sbl /\ used sbl V r = false /\ fs_ok k m bl' s' (allocated sbl r V) H) \/
   (r = 0 /\ fs_ok k m bl s' V H)).

Lemma balloc_loop_ok bs k m bl s V H :
  let sbl := sb s in
  fs_ok (2 + k) (S m) bl s V H -> bitmap_ok sbl V -> holds_used sbl V H ->
  Forall (fun b => 0 <= b < sb_size sbl /\ b mod BPB = 0) bs ->
  exists r s', balloc_loop ROOTDEV bs s = Ok r s' /\ balloc_post k (S m) bl s V H r s' /\
    (r = 0 -> forall b bi, b ∈ bs -> 0 <= bi < BPB -> b + bi < sb_size sbl -> used sbl V (b + bi) = true).
Proof.
  intros sbl. revert s bl sbl. induction bs as [|b bs IH]; intros s bl sbl HF Hbm Hh Hbs; cbn [balloc_loop].
  { destruct (fs_printk (2 + k) (S m) bl s V H (strn "balloc: out of blocks") [] (strn "balloc: out of blocks"))
      as (s' & E & HS & HF'); [by vm_compute|done|].
    run E. exists 0, s'. split; [done|]. split; [|intros _ b bi Hb; by apply not_elem_of_nil in Hb].
    split; [done|]. right. split; [done|]. destruct HF' as [? ? Ho' ?]. split; try done; [intros; apply Ho'; lia|lia]. }
  apply Forall_cons_1 in Hbs as [[Hb Hb0] Hbs]. rewrite bind_gets. fold sbl.
  pose proof Hbm as [Hs Hbl Hfr]. destruct (Hbl b Hb) as (_ & Hnl & [d Hd]).
  destruct (fs_read (2 + k) m bl s V H (BBLOCK b sbl) d) as (i & s1 & s2 & E1 & E2 & E3 & S1 & S2 & HF1 & HF2);
    try done; [by apply (proj1 Hh)|].
  run E1. run E2. pose proof (find_clear_spec d (seqZ 0 (Z.min BPB (sb_size sbl - b)))) as Hfc.
  destruct (find_clear d _) as [bi|].
  - destruct Hfc as [Hbi%elem_of_seqZ Hbit].
    assert (0 <= b /\ 0 <= bi < BPB /\ b + bi < sb_size sbl) as (G1 & G2 & G3) by lia.
    destruct (balloc_group k m bl s V H b bi d HF Hbm Hh G1 Hb0 G2 G3 Hd Hbit i s1 E1 S1 HF1)
      as (bl' & s' & E & HS & Hu & HF').
    exists (b + bi), s'. split; [exact E|].
    destruct (Hfr (b + bi)) as (Hn0 & _ & _); [fold sbl; lia|done|].
    split; [|by intros]. split; [done|]. left. exists bl'. split; [done|]. split; [fold sbl; lia|]. done.
  - run E3. pose proof (fs_sb S2) as Esb. subst sbl.
    destruct (IH s2 bl) as (r & s' & E & [HS Hpost] & Hall); rewrite ?Esb; try done.
    exists r, s'. split; [done|]. split.
    + split; [by eapply fs_trans|]. by rewrite Esb in Hpost.
    + intros Hr c bi [->|Hc]%elem_of_cons Hbi Hlt; [|rewrite <- Esb in Hlt |- *; by apply Hall].
      unfold used. destruct (group_pos b bi) as [G1 G2]; [done|done|].
      assert (BBLOCK (b + bi) (sb s) = BBLOCK b (sb s)) as EB by (unfold BBLOCK; by rewrite G1).
      rewrite EB, Hd, G2. apply Hfc, elem_of_seqZ. lia.
Qed.

Lemma bitmap_starts_ok size :
  0 <= size -> Forall (fun b => 0 <= b < size /\ b mod BPB = 0) (bitmap_starts size).
Proof.
  intros Hs. apply Forall_forall. intros b (q & -> & Hq%elem_of_seqZ)%list_elem_of_fmap.
  change BPB with 8192 in *. Z.div_mod_to_equations. lia.
Qed.

Lemma bitmap_starts_all size c : 0 <= c < size -> c / BPB * BPB ∈ bitmap_starts size.
Proof.
  intros Hc. apply list_elem_of_fmap. exists (c / BPB). split; [done|]. apply elem_of_seqZ.
  change BPB with 8192. Z.div_mod_to_equations. lia.
Qed.

Lemma balloc_ok k m bl s V H :
  fs_ok (2 + k) (S m) bl s V H -> bitmap_ok (sb s) V -> holds_used (sb s) V H ->
  exists r s', balloc ROOTDEV s = Ok r s' /\ balloc_post k (S m) bl s V H r s' /\
    (r = 0 -> forall b, 0 <= b < sb_size (sb s) -> used (sb s) V b = true).
Proof.
  intros HF Hbm Hh. unfold balloc. rewrite bind_gets.
  destruct (balloc_loop_ok (bitmap_starts (sb_size (sb s))) k m bl s V H) as (r & s' & E & Hpost & Hall); try done.
  { apply bitmap_starts_ok, Hbm. }
  exists r, s'. split; [done|]. split; [done|]. intros Hr c Hc.
  assert (c / BPB * BPB + c mod BPB = c) as Ec by (rewrite (Z.div_mod c BPB) at 3 by done; lia).
  rewrite <- Ec. apply Hall; [done|by apply bitmap_starts_all|by apply Z.mod_pos_bound|lia].
Qed.

(** A block that belongs to a file. *)
Definition owned (sbl : superblock) V (a : Z) : Prop :=
  0 <= a < sb_size sbl /\ used sbl V a = true /\ fs_block V a /\ data_block sbl a.

(** [balloc] for the owner of other blocks. *)
Lemma balloc_owned k m bl s V H :
  let sbl := sb s in
  fs_ok (2 + k) (S m) bl s V H -> bitmap_ok sbl V -> holds_used sbl V H ->
  exists r s' bl' V', balloc ROOTDEV s = Ok r s' /\ fs_step s s' /\ fs_ok k (S m) bl' s' V' H /\ bitmap_ok sbl V' /\
    (forall a, owned sbl V a -> owned sbl V' a /\ V' !! a = V !! a) /\
    (forall c, 0 <= c < sb_size sbl -> used sbl V c = true -> used sbl V' c = true) /\
    (r = 0 /\ V' = V /\ bl' = bl /\ disk_full sbl V \/
     r <> 0 /\ used sbl V r = false /\ owned sbl V' r /\ V' !! r = Some (replicate 1024 0)).
Proof.
  intros sbl HF Hbm Hh. destruct (balloc_ok k m bl s V H HF Hbm Hh) as (r & s' & E & [HS Hpost] & Hfull).
  destruct Hpost as [(bl' & Hr0 & Hr & Hu & HF')|[-> HF']].
  2: { exists 0, s', bl, V. split_and!; auto. left. split_and!; [done..|exact (Hfull eq_refl)]. }
  destruct (allocated_bitmap sbl V r Hbm (fun b d => fo_len _ _ _ _ _ _ b d HF) Hr Hu) as [Hbm' Hu'].
  destruct (bm_free _ _ Hbm r Hr Hu) as (_ & (Hf1 & Hf2 & Hf3) & Hnb).
  assert (forall a, is_Some (V !! a) -> is_Some (allocated sbl r V !! a)) as Hmono.
  { intros a Ha. unfold allocated. rewrite lookup_insert_is_Some', lookup_alter_is_Some. by right. }
  exists r, s', bl', (allocated sbl r V). split; [done|]. split; [done|]. split; [done|]. split; [done|]. split.
  - intros a (Ha & Hua & (Hfa1 & Hfa2 & Hfa3) & Hna). split.
    + split; [done|]. split; [by rewrite Hu', Hua, orb_true_r|]. split; [|done]. split; [done|]. split; [done|]. by apply Hmono.
    + unfold allocated. rewrite lookup_insert_ne by (intros ->; unfold sbl in *; congruence). rewrite lookup_alter_ne; [done|]. intros E2. by apply (proj1 Hna r Hr).
  - split; [intros c Hc Huc; by rewrite Hu', Huc, orb_true_r|]. right. split; [done|]. split; [done|]. split; [|apply lookup_insert_eq].
    split; [done|]. split; [by rewrite Hu', bool_decide_eq_true_2|]. split; [|done]. split; [done|]. split; [done|]. by apply Hmono.
Qed.

(** ** [bfree] *)

Definition freed (sbl : superblock) (b : Z) V : gmap Z (list Z) :=
  alter (clear_bit (b mod BPB)) (BBLOCK b sbl) V.

Lemma freed_used sbl V b c :
  bitmap_ok sbl V -> (forall b d, V !! b = Some d -> length d = 1024%nat) ->
  0 <= b < sb_size sbl -> 0 <= c < sb_size sbl ->
  used sbl (freed sbl b V) c = negb (bool_decide (c = b)) && used sbl V c.
Proof.
  intros Hbm Hlen Hb Hc. destruct (bm_block _ _ Hbm b Hb) as (_ & _ & [d Hd]). pose proof (Hlen _ _ Hd) as Hl.
  pose proof (Z.mod_pos_bound b BPB) as Hmod. unfold freed. rewrite (alter_Some_insert _ _ _ d Hd).
  rewrite (used_insert sbl V b _ d c); try done.
  - destruct (decide (c = b)) as [->|Hne].
    + rewrite bit_clear by (done || by apply Hmod). by rewrite !bool_decide_eq_true_2.
    + by rewrite bool_decide_eq_false_2.
  - intros j Hj Hjb. rewrite bit_clear by (done || by apply Hmod). by rewrite bool_decide_eq_false_2.
Qed.

Lemma bfree_ok k m bl s V H b :
  fs_ok (S k) (S m) bl s V H -> bitmap_ok (sb s) V -> 0 <= b < sb_size (sb s) ->
  H !! BBLOCK b (sb s) = None ->
  if used (sb s) V b then
    exists s', bfree ROOTDEV b s = Ok tt s' /\ fs_step s s' /\
      fs_ok k (S m) (logged bl (BBLOCK b (sb s))) s' (freed (sb s) b V) H
  else bfree ROOTDEV b s = Panic "freeing free block".
Proof.
  intros HF Hbm Hb Hh. pose proof Hbm as [Hs Hbl Hfr]. destruct (Hbl b Hb) as (Hbr & Hnl & [d Hd]).
  unfold bfree. rewrite bind_gets.
  destruct (fs_bread (S k) m bl s V H (BBLOCK b (sb s)) d) as (i & s1 & E1 & S1 & HF1); try done.
  rewrite (bind_ok _ _ _ _ _ E1). erewrite bind_ok by (eapply fs_bdata; [done|apply lookup_insert_eq|done]).
  rewrite mask_bit. unfold used. rewrite Hd. destruct (bit_of d (b mod BPB)); [|done].
  rewrite bind_panic_if by done.
  destruct (fs_modify k m bl s1 V H (BBLOCK b (sb s)) i d (clear_bit (b mod BPB))) as (s2 & E2 & S2 & HF2); try done.
  { unfold clear_bit. rewrite length_alter. by eapply fo_len. }
  exists s2. split; [exact E2|]. split; [by eapply fs_trans|]. unfold freed. by rewrite (alter_Some_insert _ _ _ d Hd).
Qed.

(** ** Properties *)

(** C31: [balloc] takes a free block.  In a transaction with room for two more blocks it
    returns the number of a block that was free, now marked in the bitmap and zeroed,
    with every other bit and every other block as before; or it returns 0, and then
    every block was in use and nothing changed.  Nothing reaches the disk before the
    transaction commits. *)
Theorem balloc_allocates k m bl s V H :
  let sbl := sb s in
  fs_ok (2 + k) (S m) bl s V H -> bitmap_ok sbl V -> holds_used sbl V H ->
  exists r s' bl' V',
    balloc ROOTDEV s = Ok r s' /\ disk s' = disk s /\ fs_ok k (S m) bl' s' V' H /\ bitmap_ok sbl V' /\
    (r = 0 /\ V' = V /\ (forall b, 0 <= b < sb_size sbl -> used sbl V b = true) \/
     0 < r < sb_size sbl /\ used sbl V r = false /\ V' !! r = Some (replicate 1024 0) /\
     (forall c, 0 <= c < sb_size sbl -> used sbl V' c = bool_decide (c = r) || used sbl V c) /\
     forall b, b <> r -> b <> BBLOCK r sbl -> V' !! b = V !! b).
Proof.
  intros sbl HF Hbm Hh. destruct (balloc_ok k m bl s V H HF Hbm Hh) as (r & s' & E & [HS Hpost] & Hall).
  destruct Hpost as [(bl' & Hr0 & Hr & Hu & HF')|[-> HF']].
  - exists r, s', bl', (allocated sbl r V).
    destruct (allocated_bitmap sbl V r Hbm (fun b d => fo_len _ _ _ _ _ _ b d HF) Hr Hu) as [Hbm' Hu'].
    split; [done|]. split; [by apply fs_disk|]. split; [done|]. split; [done|]. right.
    split; [fold sbl in Hr; lia|]. split; [done|]. unfold allocated. split; [apply lookup_insert_eq|]. split; [done|].
    intros b Hb1 Hb2. by rewrite lookup_insert_ne, lookup_alter_ne.
  - exists 0, s', bl, V. split; [done|]. split; [by apply fs_disk|]. split; [done|]. split; [done|]. left. auto.
Qed.

(** C34: [bfree] gives a block back.  It clears exactly the bit of the block and touches no
    other block; freeing a free block stops the kernel. *)
Theorem bfree_frees k m bl s V H b :
  let sbl := sb s in
  fs_ok (S k) (S m) bl s V H -> bitmap_ok sbl V -> 0 <= b < sb_size sbl -> H !! BBLOCK b sbl = None ->
  (used sbl V b = false -> bfree ROOTDEV b s = Panic "freeing free block") /\
  (used sbl V b = true -> exists s' bl' V',
     bfree ROOTDEV b s = Ok tt s' /\ disk s' = disk s /\ fs_ok k (S m) bl' s' V' H /\
     (forall c, 0 <= c < sb_size sbl -> used sbl V' c = negb (bool_decide (c = b)) && used sbl V c) /\
     forall c, c <> BBLOCK b sbl -> V' !! c = V !! c).
Proof.
  intros sbl HF Hbm Hb Hh. pose proof (bfree_ok k m bl s V H b HF Hbm Hb Hh) as Hok. fold sbl in Hok.
  split; intros Hu; rewrite Hu in Hok; [done|]. destruct Hok as (s' & E & HS & HF').
  eexists s', _, _. split; [done|]. split; [by apply fs_disk|]. split; [done|]. split.
  - intros c Hc. apply freed_used; try done. intros c' d. apply (fo_len _ _ _ _ _ _ _ _ HF).
  - intros c Hc. unfold freed. by rewrite lookup_alter_ne.
Qed.

End ops.

(** ** A small file system: 64 blocks, the inodes in block 33 and the bitmap in block 40 *)

Definition small_bitmap : list Z := [255; 255; 255; 255; 3; 1] ++ replicate 1018 0.
Definition small_disk : gmap Z (list Z) := <[40 := small_bitmap]> log_disk.
Definition small_sb : superblock :=
  zero_sb <| sb_size := 64 |> <| sb_ninodes := 16 |> <| sb_logstart := 2 |> <| sb_inodestart := 33 |> <| sb_bmapstart := 40 |>.
Definition small_fs : kstate := (busy_on small_disk) <| sb := small_sb |>.

Lemma small_disk_at b : 0 <= b < 64 -> is_Some (small_disk !! b).
Proof. intros Hb. unfold small_disk. rewrite lookup_insert_is_Some'. right. rewrite log_disk_at by done. eauto. Qed.

Lemma small_disk_len b d : small_disk !! b = Some d -> length d = 1024%nat.
Proof. unfold small_disk. intros [[_ <-]|[_ Hd]]%lookup_insert_Some; [done|by apply log_disk_len in Hd]. Qed.

Lemma small_fs_inv : log_inv 0 2 [] small_fs small_disk ∅.
Proof.
  apply li_sb, busy_inv; [apply small_disk_len| |].
  - intros b Hb. apply small_disk_at. unfold in_log in Hb. change LOGBLOCKS with 30 in Hb. lia.
  - destruct log_disk_empty as (h & Hh & Hl). exists h. split; [|done]. unfold small_disk. by rewrite lookup_insert_ne.
Qed.

Lemma small_fs_ok k m : (k + m <= NBUF)%nat -> fs_ok 0 2 k m [] small_fs small_disk ∅.
Proof.
  intros Hkm. split; [apply small_fs_inv|apply not_elem_of_nil|vm_compute; discriminate|].
  rewrite map_size_empty. cbn [length]. lia.
Qed.

Lemma small_BBLOCK b : 0 <= b < 64 -> BBLOCK b small_sb = 40.
Proof. intros Hb. unfold BBLOCK. rewrite Z.div_small by (change BPB with 8192; lia). reflexivity. Qed.

Lemma small_IBLOCK j : 0 <= j < 16 -> IBLOCK j small_sb = 33.
Proof. intros Hj. unfold IBLOCK. rewrite Z.div_small by (change IPB with 16; lia). reflexivity. Qed.

Lemma small_used b : 0 <= b < 64 -> used small_sb small_disk b = (b <? 34) || (b =? 40).
Proof.
  intros Hb. unfold used. rewrite small_BBLOCK by done. unfold small_disk. rewrite lookup_insert_eq.
  rewrite Z.mod_small by (change BPB with 8192; lia).
  assert (forallb (fun b => Bool.eqb (bit_of small_bitmap b) ((b <? 34) || (b =? 40))) (seqZ 0 64) = true) as Hall
    by (vm_compute; reflexivity).
  rewrite forallb_forall in Hall. apply eqb_prop, Hall, list_elem_of_In, elem_of_seqZ. lia.
Qed.

Lemma small_bitmap_ok : bitmap_ok 2 small_sb small_disk.
Proof.
  split; change (sb_size small_sb) with 64.
  - lia.
  - intros b Hb. rewrite small_BBLOCK by done. split; [lia|]. split; [unfold in_log; change LOGBLOCKS with 30; lia|].
    by apply small_disk_at.
  - intros b Hb Hu. rewrite small_used in Hu by done.
    apply orb_false_iff in Hu as [Hu1%Z.ltb_ge Hu2%Z.eqb_neq]. split; [lia|]. split.
    + split; [lia|]. split; [unfold in_log; change LOGBLOCKS with 30; lia|]. by apply small_disk_at.
    + split; [intros c Hc; by rewrite small_BBLOCK|]. intros j Hj. rewrite small_IBLOCK by done. lia.
Qed.

Lemma balloc_allocates_witness :
  exists r s' bl' V',
    balloc (F := 0%nat) ROOTDEV small_fs = Ok r s' /\ disk s' = disk small_fs /\
    fs_ok 0 2 0 1 bl' s' V' ∅ /\ bitmap_ok 2 small_sb V' /\
    (r = 0 /\ V' = small_disk /\ (forall b, 0 <= b < 64 -> used small_sb small_disk b = true) \/
     0 < r < 64 /\ used small_sb small_disk r = false /\ V' !! r = Some (replicate 1024 0) /\
     (forall c, 0 <= c < 64 -> used small_sb V' c = bool_decide (c = r) || used small_sb small_disk c) /\
     forall b, b <> r -> b <> BBLOCK r small_sb -> V' !! b = small_disk !! b).
Proof.
  apply (balloc_allocates (F := 0%nat) 0 2 0 0 [] small_fs small_disk ∅).
  - apply small_fs_ok. change NBUF with 30%nat. lia.
  - apply small_bitmap_ok.
  - split; intros; apply lookup_empty.
Defined.

Lemma bfree_frees_witness :
  bfree (F := 0%nat) ROOTDEV 50 small_fs = Panic "freeing free block" /\
  exists s' bl' V', bfree (F := 0%nat) ROOTDEV 33 small_fs = Ok tt s' /\ disk s' = disk small_fs /\
    fs_ok 0 2 0 1 bl' s' V' ∅ /\
    (forall c, 0 <= c < 64 -> used small_sb V' c = negb (bool_decide (c = 33)) && used small_sb small_disk c) /\
    forall c, c <> BBLOCK 33 small_sb -> V' !! c = small_disk !! c.
Proof.
  split.
  - apply (bfree_frees (F := 0%nat) 0 2 0 0 [] small_fs small_disk ∅ 50).
    + apply small_fs_ok. change NBUF with 30%nat. lia.
    + apply small_bitmap_ok.
    + vm_compute. done.
    + apply lookup_empty.
    + by apply small_used.
  - apply (bfree_frees (F := 0%nat) 0 2 0 0 [] small_fs small_disk ∅ 33).
    + apply small_fs_ok. change NBUF with 30%nat. lia.
    + apply small_bitmap_ok.
    + vm_compute. done.
    + apply lookup_empty.
    + by apply small_used.
Defined.
