(* ===== verification/Inode.v ===== *)
(** Inodes and their contents: the layout of on-disk inodes, [iupdate] and [ilock],
    the block map, and reading files and directories (kernel/fs.c). *)

From stdpp Require Import prelude gmap strings.
From Stdlib Require Import ZArith Lia.
From S2P Require Import Prelude Bytes Params State Spinlock CString Uart Printk Sched Sleeplock.
From S2P Require Import Vm Disk Bio Cache Log Recovery Crash Txn Copy Fs Block.

Local Open Scope Z_scope.
Local Open Scope kernel_scope.

(** ** The layout of on-disk inodes *)

(** The fields of an on-disk inode fit their C types. *)
Record dinode_ok (d : dinode) : Prop := {
  do_type : - 2 ^ 15 <= di_type d < 2 ^ 15;
  do_major : - 2 ^ 15 <= di_major d < 2 ^ 15;
  do_minor : - 2 ^ 15 <= di_minor d < 2 ^ 15;
  do_nlink : - 2 ^ 15 <= di_nlink d < 2 ^ 15;
  do_size : 0 <= di_size d < 2 ^ 32;
  do_len : length (di_addrs d) = 13%nat;
  do_addrs : Forall (fun a => 0 <= a < 2 ^ 32) (di_addrs d);
}.

Lemma slice_blit_in {A : Type} off k n (src dst : list A) :
  (off + length src <= length dst)%nat -> (k + n <= length src)%nat ->
  slice (off + k) n (blit off src dst) = slice k n src.
Proof.
  intros Hl Hk. apply list_eq. intros j. destruct (decide (j < n)%nat) as [Hj|Hj].
  - rewrite !lookup_slice by done. rewrite lookup_blit_in by lia. f_equal. lia.
  - unfold slice. by rewrite !lookup_take_ge by lia.
Qed.

Lemma length_words (l : list Z) : length (mjoin (map (le_encode 4) l)) = (4 * length l)%nat.
Proof.
  induction l as [|a l IH]; [done|]. cbn [map mjoin list_join length]. rewrite length_app, length_le_encode.
  etrans; [exact (f_equal (Nat.add 4) IH)|]. lia.
Qed.

Lemma length_dinode_bytes d : length (di_addrs d) = 13%nat -> length (dinode_bytes d) = 64%nat.
Proof.
  intros Hl. unfold dinode_bytes. rewrite !length_app, !length_le_encode, length_words. lia.
Qed.

Lemma s16_encode x : - 2 ^ 15 <= x < 2 ^ 15 -> s16 (le_decode (le_encode 2 x)) = x.
Proof.
  intros Hx. rewrite le_decode_encode. change (2 ^ (8 * Z.of_nat 2)) with (2 ^ 16). unfold swrap.
  change (16 - 1) with 15. rewrite Zplus_mod_idemp_l, Z.mod_small by lia. lia.
Qed.

Lemma u32_encode x : 0 <= x < 2 ^ 32 -> le_decode (le_encode 4 x) = x.
Proof. intros Hx. by apply le_decode_encode_small. Qed.

(** An inode that is written to its block reads back as it was. *)
Lemma get_dinode_blit off d data :
  dinode_ok d -> (off + 64 <= length data)%nat -> get_dinode off (blit off (dinode_bytes d) data) = d.
Proof.
  intros [H1 H2 H3 H4 H5 Hl Ha] Hoff. pose proof (length_dinode_bytes d Hl) as Hbl.
  destruct d as [ty ma mi nl sz addrs]. cbn [di_type di_major di_minor di_nlink di_size di_addrs] in *.
  unfold get_dinode, get_s16, get_u32. rewrite <- (Nat.add_0_r off) at 1.
  do 13 (destruct addrs as [|? addrs]; [done|]). destruct addrs; [|done].
  cbn [seq map]. rewrite <- !Nat.add_assoc.
  rewrite !slice_blit_in by (rewrite ?Hbl; cbn; lia). unfold dinode_bytes. cbn [di_type di_major di_minor di_nlink di_size di_addrs].
  repeat match goal with Hf : Forall _ (_ :: _) |- _ => apply Forall_cons_1 in Hf as [? Hf] end.
  f_equal; [exact (s16_encode ty H1)|exact (s16_encode ma H2)|exact (s16_encode mi H3)|exact (s16_encode nl H4)
           |exact (u32_encode sz H5)|].
  repeat f_equal; match goal with |- _ = ?x => exact (u32_encode x ltac:(assumption)) end.
Qed.

Lemma get_dinode_other off off' d data :
  length (di_addrs d) = 13%nat -> (off + 64 <= length data)%nat -> (off' + 64 <= off \/ off + 64 <= off')%nat ->
  get_dinode off' (blit off (dinode_bytes d) data) = get_dinode off' data.
Proof.
  intros Hl Hoff Hd. pose proof (length_dinode_bytes d Hl) as Hbl. unfold get_dinode, get_s16, get_u32. cbn [seq map].
  by rewrite !slice_blit_other by (rewrite ?Hbl; lia).
Qed.

Section ops.
Context {F : Fuel} {L : Linker} (pid start : Z).
Implicit Types (s : kstate) (V : gmap Z (list Z)) (H : gmap Z nat) (bl : list Z) (ip : inode).

Notation fs_ok := (fs_ok pid start).
Notation fs_block := (fs_block start).

(** The on-disk inode [inum]. *)
Definition dinode_at (sbl : superblock) V (inum : Z) : option dinode :=
  get_dinode (dinode_off inum) <$> V !! IBLOCK inum sbl.

(** The blocks of the inodes exist, and are not blocks of the bitmap. *)
Definition inodes_ok (sbl : superblock) V : Prop :=
  sb_ninodes sbl < 2 ^ 31 /\ forall inum, 0 <= inum < sb_ninodes sbl ->
    fs_block V (IBLOCK inum sbl) /\ forall c, 0 <= c < sb_size sbl -> IBLOCK inum sbl <> BBLOCK c sbl.

Lemma dinode_off_range inum : 0 <= inum -> (dinode_off inum + 64 <= 1024)%nat.
Proof.
  intros Hi. unfold dinode_off. change IPB with 16. change DINODE_SIZE with 64.
  pose proof (Z.mod_pos_bound inum 16). lia.
Qed.

Lemma IBLOCK_inj sbl a b : 0 <= a < 2 ^ 31 -> 0 <= b < 2 ^ 31 -> IBLOCK a sbl = IBLOCK b sbl -> a / IPB = b / IPB.
Proof.
  unfold IBLOCK, wrap. intros Ha Hb E. change IPB with 16 in *.
  assert (0 <= a / 16 < 2 ^ 31) by (split; [apply Z.div_pos; lia|apply Z.div_lt_upper_bound; lia]).
  assert (0 <= b / 16 < 2 ^ 31) by (split; [apply Z.div_pos; lia|apply Z.div_lt_upper_bound; lia]).
  pose proof (Z.div_mod (a / 16 + sb_inodestart sbl) (2 ^ 32)).
  pose proof (Z.div_mod (b / 16 + sb_inodestart sbl) (2 ^ 32)). lia.
Qed.

(** Writing one inode writes no other. *)
Lemma dinode_at_insert sbl V inum d data j :
  dinode_ok d -> V !! IBLOCK inum sbl = Some data -> length data = 1024%nat ->
  0 <= inum < 2 ^ 31 -> 0 <= j < 2 ^ 31 ->
  dinode_at sbl (<[IBLOCK inum sbl := blit (dinode_off inum) (dinode_bytes d) data]> V) j =
    if decide (j = inum) then Some d else dinode_at sbl V j.
Proof.
  intros Hd HV Hl Hi Hj. pose proof (dinode_off_range inum). unfold dinode_at.
  destruct (decide (j = inum)) as [->|Hne].
  - rewrite lookup_insert_eq. cbn. f_equal. apply get_dinode_blit; [done|lia].
  - destruct (decide (IBLOCK inum sbl = IBLOCK j sbl)) as [E|E]; [|by rewrite lookup_insert_ne].
    rewrite <- E, lookup_insert_eq, HV. cbn. f_equal. apply get_dinode_other; [apply Hd|lia|].
    apply IBLOCK_inj in E; [|lia|lia]. unfold dinode_off. change IPB with 16 in *. change DINODE_SIZE with 64.
    assert (inum mod 16 <> j mod 16) by (intros E2; apply Hne; rewrite (Z.div_mod j 16), (Z.div_mod inum 16) by lia; lia).
    pose proof (Z.mod_pos_bound inum 16). pose proof (Z.mod_pos_bound j 16). lia.
Qed.

Lemma getinode_ok i ip s : itable s !! i = Some ip -> getinode i s = Ok ip s.
Proof. intros Hi. unfold getinode, get_at. by rewrite Hi. Qed.

Lemma fo_itable k m bl s V H t : fs_ok k m bl s V H -> fs_ok k m bl (s <| itable := t |>) V H.
Proof. intros [HI Hl Ho Hr]. split; [|done|done|done]. by apply (li_frame pid start bl s). Qed.

Lemma itable_itable s t t' : s <| itable := t |> <| itable := t' |> = s <| itable := t' |>.
Proof. st_eq s. Qed.

Lemma fs_set_itable t s s' : fs_step s s' -> fs_step (s <| itable := t |>) (s' <| itable := t |>).
Proof. intros (lg & bs & ub & ut & ->). exists lg, bs, ub, ut. rs. st_eq s. Qed.

(** ** [iupdate] *)

Lemma iupdate_ok k m bl s V H i ip :
  let sbl := sb s in
  fs_ok (S k) (S m) bl s V H -> inodes_ok sbl V -> itable s !! i = Some ip -> i_dev ip = ROOTDEV ->
  0 <= i_inum ip < sb_ninodes sbl -> dinode_ok (dinode_of ip) -> H !! IBLOCK (i_inum ip) sbl = None ->
  exists data s', iupdate i s = Ok tt s' /\ fs_step s s' /\ V !! IBLOCK (i_inum ip) sbl = Some data /\
    fs_ok k (S m) (logged bl (IBLOCK (i_inum ip) sbl)) s'
      (<[IBLOCK (i_inum ip) sbl := blit (dinode_off (i_inum ip)) (dinode_bytes (dinode_of ip)) data]> V) H.
Proof.
  intros sbl HF [Hn Hin] Hi Hdev Hr Hok Hh. unfold iupdate. run (getinode_ok i ip s Hi). rewrite bind_gets, Hdev.
  destruct (Hin _ Hr) as [(Hb1 & Hb2 & [data Hd]) _]. fold sbl. exists data.
  destruct (fs_update pid start k m bl s V H (IBLOCK (i_inum ip) sbl) data
              (blit (dinode_off (i_inum ip)) (dinode_bytes (dinode_of ip)))) as (s' & E & HS & HF'); try done.
  { pose proof (fo_len _ _ _ _ _ _ _ _ _ _ HF Hd) as Hl. rewrite length_blit; [done|].
    rewrite length_dinode_bytes, Hl by apply Hok. apply dinode_off_range. lia. }
  exists s'. done.
Qed.

(** ** [ilock] and [iunlock] *)

(** What [ilock] puts into the table. *)
Definition loaded (d : dinode) ip : inode :=
  (load_dinode d ip) <| i_lock := mkSleeplock true pid |> <| i_valid := true |>.

Lemma ilock_ok k m bl s V H i ip d :
  fs_ok k (S m) bl s V H -> inodes_ok (sb s) V -> itable s !! i = Some ip -> i_dev ip = ROOTDEV ->
  0 <= i_inum ip < sb_ninodes (sb s) -> H !! IBLOCK (i_inum ip) (sb s) = None ->
  1 <= i_ref ip -> sl_locked (i_lock ip) = false -> i_valid ip = false ->
  dinode_at (sb s) V (i_inum ip) = Some d -> di_type d <> 0 ->
  exists s', ilock i s = Ok tt s' /\ fs_step (s <| itable := <[i := loaded d ip]> (itable s) |>) s' /\
    fs_ok k (S m) bl s' V H.
Proof.
  intros HF [Hn Hin] Hi Hdev Hr Hh Href Hlk Hval Hd Hty.
  pose proof (fo_cache _ _ _ _ _ _ _ _ HF) as [HC HE]. destruct (env_running _ _ HE) as (p & pr & Hp & Hpr & Hpid).
  unfold ilock. run (getinode_ok i ip s Hi). rewrite bind_panic_if by (apply Z.ltb_ge; lia).
  erewrite bind_ok by (apply (acquiresleep_ok (SL_inode i) (i_lock ip) p pr); [cbn; by rewrite Hi|done|by apply quiet_sl, HE|done|done]).
  cbn [set_sl]. rewrite (alter_insert _ i (itable s) ip Hi), Hpid.
  set (ip1 := ip <| i_lock := _ |>). set (s1 := s <| itable := _ |>).
  erewrite bind_ok by (apply (getinode_ok i ip1); unfold s1; rs; apply list_lookup_insert_eq; by eapply lookup_lt_Some).
  assert (i_valid ip1 = false) as -> by done. cbn [negb when]. rewrite bind_gets. change (i_dev ip1) with (i_dev ip).
  change (i_inum ip1) with (i_inum ip). change (sb s1) with (sb s). rewrite Hdev.
  destruct (Hin _ Hr) as [(_ & Hnl & _) _]. unfold dinode_at in Hd. apply fmap_Some in Hd as (data & Hdata & ->).
  set (d := get_dinode _ data) in *.
  destruct (fs_bread pid start k m bl s1 V H (IBLOCK (i_inum ip) (sb s)) data) as (j & s2 & E2 & S2 & HF2); try done.
  { by apply fo_itable. }
  run E2. erewrite bind_ok by (eapply fs_bdata; [exact HF2|apply lookup_insert_eq|exact Hdata]).
  unfold updinode at 1. rewrite bind_modify. fold d.
  destruct (fs_brelse pid start k m bl (s2 <| itable := alter (load_dinode d) i (itable s2) |>) V
              (<[IBLOCK (i_inum ip) (sb s) := j]> H) (IBLOCK (i_inum ip) (sb s)) j) as (s3 & E3 & S3 & HF3).
  { by apply fo_itable. }
  { apply lookup_insert_eq. }
  { destruct (decide (IBLOCK (i_inum ip) (sb s) ∈ bl)) as [|Hn']; [by left|right]. rs. rewrite (fs_disk S2).
    unfold s1. rs. eapply (li_disk pid start bl); [apply HF|done|done]. }
  run E3. unfold updinode at 1. rewrite bind_modify. rewrite delete_insert_id in HF3 by done.
  pose proof (fs_itable S2) as T2. pose proof (fs_itable S3) as T3. unfold s1 in T2. rs_in T2. rs_in T3.
  set (t := alter (fun ip => ip <| i_valid := true |>) i (itable s3)).
  assert (t = <[i := loaded d ip]> (itable s)) as Et.
  { apply lookup_lt_Some in Hi as Hlt. unfold t. rewrite T3, T2. rewrite alter_alter.
    rewrite (alter_insert _ i _ ip1) by (by apply list_lookup_insert_eq). by rewrite list_insert_insert_eq. }
  erewrite bind_ok by (apply (getinode_ok i (loaded d ip)); rs; fold t; rewrite Et; apply list_lookup_insert_eq; by eapply lookup_lt_Some).
  eexists. split; [|split; [|by apply fo_itable]].
  { assert ((i_type (loaded d ip) =? 0) = false) as -> by (by apply Z.eqb_neq). reflexivity. }
  fold t. rewrite Et. apply (fs_set_itable (<[i := loaded d ip]> (itable s))) in S2, S3.
  unfold s1 in S2. rewrite !itable_itable in S2, S3. by eapply fs_trans.
Qed.

(** ** The block map *)

(** The disk block that has block [bn] of the file, or 0. *)
Definition faddr V ip (bn : Z) : Z :=
  if bn <? NDIRECT then addr_of ip bn
  else if addr_of ip NDIRECT =? 0 then 0
  else match V !! addr_of ip NDIRECT with
       | Some d => get_u32 (4 * Z.to_nat (bn - NDIRECT)) d
       | None => 0
       end.

(** The indirect block of the file can be read. *)
Definition indirect_ok V ip : Prop := addr_of ip NDIRECT <> 0 -> fs_block V (addr_of ip NDIRECT).

(** [bmap] of a block that the file has. *)
Lemma bmap_mapped k m bl s V H i ip bn :
  fs_ok k (S m) bl s V H -> itable s !! i = Some ip -> i_dev ip = ROOTDEV -> indirect_ok V ip ->
  0 <= bn < MAXFILE -> faddr V ip bn <> 0 -> H !! addr_of ip NDIRECT = None ->
  exists s', bmap i bn s = Ok (faddr V ip bn) s' /\ fs_step s s' /\ fs_ok k (S m) bl s' V H.
Proof.
  intros HF Hi Hdev Hind Hbn Ha Hh. change MAXFILE with 268 in Hbn. unfold bmap. run (getinode_ok i ip s Hi).
  unfold faddr, indirect_ok in *. change NDIRECT with 12 in *. change NINDIRECT with 256.
  destruct (Z.ltb_spec bn 12) as [Hlt|Hge].
  - apply Z.eqb_neq in Ha. rewrite Ha. exists s. split; [done|]. split; [apply fs_refl|done].
  - assert ((bn - 12 <? 256) = true) as -> by (apply Z.ltb_lt; lia).
    destruct (Z.eqb_spec (addr_of ip 12) 0) as [|Hnz]; [done|]. rewrite bind_ret.
    destruct (Hind Hnz) as (_ & Hnl & [d Hd]). rewrite Hd in Ha |- *. cbv iota.
    assert ((addr_of ip 12 =? 0) = false) as -> by (by apply Z.eqb_neq).
    destruct (fs_read pid start k m bl s V H (addr_of ip 12) d) as (j & s1 & s2 & E1 & E2 & E3 & S1 & S2 & HF1 & HF2); try done.
    rewrite Hdev. run E1. run E2. apply Z.eqb_neq in Ha. rewrite Ha. rewrite bind_ret. run E3.
    exists s2. done.
Qed.

(** The blocks that the inode refers to are its own. *)
Record imap_ok (sbl : superblock) V ip : Prop := {
  im_dev : i_dev ip = ROOTDEV;
  im_len : length (i_addrs ip) = 13%nat;
  im_addrs : forall j, 0 <= j <= NDIRECT -> addr_of ip j <> 0 -> owned start sbl V (addr_of ip j);
  im_entries : forall bn, 0 <= bn < MAXFILE -> faddr V ip bn <> 0 -> owned start sbl V (faddr V ip bn);
  im_inj : forall b1 b2, 0 <= b1 < MAXFILE -> 0 <= b2 < MAXFILE -> faddr V ip b1 <> 0 ->
    faddr V ip b1 = faddr V ip b2 -> b1 = b2;
  im_indirect : forall bn, 0 <= bn < MAXFILE -> faddr V ip bn <> 0 -> faddr V ip bn <> addr_of ip NDIRECT;
}.

Lemma addr_of_set ip j k v :
  length (i_addrs ip) = 13%nat -> 0 <= j <= NDIRECT -> 0 <= k <= NDIRECT ->
  addr_of (set_addr j v ip) k = if decide (k = j) then v else addr_of ip k.
Proof.
  intros Hl Hj Hk. change NDIRECT with 12 in *. unfold addr_of, set_addr. rs. rewrite !list_lookup_total_alt.
  destruct (decide (k = j)) as [->|Hne].
  - by rewrite list_lookup_insert_eq by lia.
  - rewrite list_lookup_insert_ne by lia. done.
Qed.

Lemma get_u32_put_same off v d :
  (off + 4 <= length d)%nat -> 0 <= v < 2 ^ 32 -> get_u32 off (put_u32 off v d) = v.
Proof.
  intros Hl Hv. unfold get_u32, put_u32. pose proof (slice_blit_same off (le_encode 4 v) d) as E.
  rewrite length_le_encode in E. rewrite E by done. by apply u32_encode.
Qed.

Lemma get_u32_put_other off off' v d :
  (off + 4 <= length d)%nat -> (off' + 4 <= off \/ off + 4 <= off')%nat -> get_u32 off' (put_u32 off v d) = get_u32 off' d.
Proof. intros Hl Ho. unfold get_u32, put_u32. by rewrite slice_blit_other by (rewrite ?length_le_encode; lia). Qed.

Lemma get_u32_zeroes off n : get_u32 off (replicate n 0) = 0.
Proof. unfold get_u32, slice. rewrite drop_replicate, take_replicate. apply le_decode_zeroes. Qed.

Lemma owned_free sbl V a r : owned start sbl V a -> used sbl V r = false -> a <> r.
Proof. intros (_ & Hu & _) Hr ->. congruence. Qed.

Lemma owned_insert sbl V a b d :
  owned start sbl V b -> owned start sbl V a -> owned start sbl (<[b := d]> V) a.
Proof.
  intros (_ & _ & _ & [Hnb _]) (H1 & H2 & H3 & H4). split; [done|]. split; [|split; [by apply fs_block_insert|done]].
  unfold used. rewrite lookup_insert_ne by (by apply Hnb). done.
Qed.

(** The owner of a block may change it. *)
Lemma bitmap_insert_owned sbl V b d : bitmap_ok start sbl V -> owned start sbl V b -> bitmap_ok start sbl (<[b := d]> V).
Proof.
  intros Hbm (_ & _ & _ & [Hnb _]). apply (bitmap_mono start sbl V); [done| |].
  - intros c Hc. rewrite lookup_insert_is_Some'. by right.
  - intros c Hc Hu. apply (bm_free _ _ _ Hbm); [done|]. unfold used in Hu.
    rewrite lookup_insert_ne in Hu by (by apply Hnb). done.
Qed.

(** The block map after a new entry in the indirect block. *)
Lemma faddr_put V V' ip d bn r bn' :
  let ind := addr_of ip NDIRECT in
  ind <> 0 -> V !! ind = Some d -> V' !! ind = Some (put_u32 (4 * Z.to_nat (bn - NDIRECT)) r d) ->
  length d = 1024%nat -> NDIRECT <= bn < MAXFILE -> 0 <= bn' < MAXFILE -> 0 <= r < 2 ^ 32 ->
  faddr V' ip bn' = if decide (bn' = bn) then r else faddr V ip bn'.
Proof.
  intros ind Hind Hd Hd' Hl Hbn Hbn' Hr. change MAXFILE with 268 in *. unfold faddr. fold ind.
  apply Z.eqb_neq in Hind. rewrite Hind, Hd, Hd'. change NDIRECT with 12 in *.
  destruct (Z.ltb_spec bn' 12) as [Hlt|Hge]; [by rewrite decide_False by lia|].
  destruct (decide (bn' = bn)) as [->|Hne]; [apply get_u32_put_same; lia|]. apply get_u32_put_other; lia.
Qed.

(** What [bmap] of block [bn] promises when it returns [r]. *)
Definition bmap_post k m s V i ip (bn r : Z) s' : Prop :=
  let sbl := sb s in
  exists bl' V' addrs, let ip' := ip <| i_addrs := addrs |> in
    fs_step (s <| itable := <[i := ip']> (itable s) |>) s' /\ fs_ok k m bl' s' V' ∅ /\ bitmap_ok start sbl V' /\
    imap_ok sbl V' ip' /\
    (forall bn', 0 <= bn' < MAXFILE -> faddr V' ip' bn' = if decide (bn' = bn) then r else faddr V ip bn') /\
    (faddr V ip bn <> 0 -> r = faddr V ip bn /\ V' = V) /\
    (faddr V ip bn = 0 -> r <> 0 -> used sbl V r = false /\ V' !! r = Some (replicate 1024 0)) /\
    (forall a, owned start sbl V a -> owned start sbl V' a /\ (a <> addr_of ip NDIRECT -> V' !! a = V !! a)) /\
    (r = 0 -> disk_full sbl V').

(** The part of [bmap] that follows the indirect block [ind]. *)
Definition bmap_ind (ip : inode) (ind bn : Z) : K Z :=
  bp <- bread (i_dev ip) ind ;;
  data <- bdata bp ;;
  addr <- (if get_u32 (4 * Z.to_nat bn) data =? 0 then
             addr <- balloc (i_dev ip) ;;
             when (negb (addr =? 0)) (set_bdata bp (put_u32 (4 * Z.to_nat bn) addr) ;; log_write bp) ;;
             ret addr
           else ret (get_u32 (4 * Z.to_nat bn) data)) ;;
  brelse bp ;;
  ret addr.

Lemma itable_same i ip s : itable s !! i = Some ip -> s <| itable := <[i := ip]> (itable s) |> = s.
Proof. intros Hi. rewrite list_insert_id by done. st_eq s. Qed.

Lemma same_addrs ip : ip <| i_addrs := i_addrs ip |> = ip.
Proof. by destruct ip. Qed.

Lemma bmap_ind_ok k m bl s V i ip bn :
  fs_ok (3 + k) (2 + m) bl s V ∅ -> bitmap_ok start (sb s) V -> imap_ok (sb s) V ip -> itable s !! i = Some ip ->
  NDIRECT <= bn < MAXFILE -> addr_of ip NDIRECT <> 0 ->
  exists r s', bmap_ind ip (addr_of ip NDIRECT) (bn - NDIRECT) s = Ok r s' /\ bmap_post k (2 + m) s V i ip bn r s'.
Proof.
  intros HF Hbm Him Hi Hbn Hind. change MAXFILE with 268 in *. pose proof Him as [Hdev Hlen Haddr Hent Hinj Hnind].
  assert (owned start (sb s) V (addr_of ip NDIRECT)) as Hoind by (apply Haddr; [change NDIRECT with 12; lia|done]).
  pose proof Hoind as (Hi1 & Hi2 & (Hi3 & Hnl & [d Hd]) & [Hi4 _]).
  set (ind := addr_of ip NDIRECT) in *. set (off := (4 * Z.to_nat (bn - NDIRECT))%nat).
  assert (forall bn', NDIRECT <= bn' -> faddr V ip bn' = get_u32 (4 * Z.to_nat (bn' - NDIRECT)) d) as Hfa.
  { intros bn' Hbn'. unfold faddr. assert ((bn' <? NDIRECT) = false) as -> by (apply Z.ltb_ge; lia).
    fold ind. apply Z.eqb_neq in Hind. by rewrite Hind, Hd. }
  unfold bmap_ind. rewrite Hdev.
  destruct (fs_read pid start (3 + k) (1 + m) bl s V ∅ ind d) as (j & s1 & s2 & E1 & E2 & E3 & S1 & S2 & HF1 & HF2); try done.
  run E1. run E2. fold off. destruct (Z.eqb_spec (get_u32 off d) 0) as [Hz|Hnz].
  2: { rewrite bind_ret. run E3. exists (get_u32 off d), s2. split; [done|].
       exists bl, V, (i_addrs ip). cbn zeta. rewrite same_addrs, itable_same by done. split; [done|].
       split; [by eapply fo_weaken; [..|exact HF2]; lia|]. split; [done|]. split; [done|].
       rewrite Hfa by lia. fold off. split; [|split; [auto|split; [done|split; [auto|done]]]]. intros bn' _. destruct (decide (bn' = bn)) as [->|]; [|done]. rewrite Hfa by lia. done. }
  assert (holds_used (sb s1) V (<[ind := j]> ∅)) as Hh.
  { rewrite (fs_sb S1). split.
    - intros c Hc. by rewrite lookup_insert_ne by (by apply Hi4).
    - intros c Hc Hu. rewrite lookup_insert_ne; [done|]. intros <-. congruence. }
  destruct (balloc_owned pid start (1 + k) m bl s1 V (<[ind := j]> ∅)) as (r & s3 & bl3 & V3 & E4 & S3 & HF3 & Hbm3 & Hown & Hused & Hr);
    [done|by rewrite (fs_sb S1)|done|].
  rewrite (fs_sb S1) in Hbm3, Hown, Hused, Hr. pose proof (fs_trans _ _ _ S1 S3) as S13.
  destruct Hr as [(-> & -> & -> & Hfull)|(Hr0 & Hur & Hor & HVr)].
  { erewrite bind_ok by (rewrite (bind_ok _ _ _ _ _ E4); reflexivity).
    destruct (fs_brelse pid start (1 + k) (1 + m) bl s3 V (<[ind := j]> ∅) ind j) as (s4 & E5 & S4 & HF4);
      [done|apply lookup_insert_eq| |].
    { destruct (decide (ind ∈ bl)) as [|Hn]; [by left|right]. rewrite (fs_disk S13).
      eapply (li_disk pid start bl); [apply HF|done|done]. }
    rewrite delete_insert_id in HF4 by done. run E5. exists 0, s4. split; [done|].
    exists bl, V, (i_addrs ip). cbn zeta. rewrite same_addrs, itable_same by done. split; [by eapply fs_trans|].
    split; [by eapply fo_weaken; [..|exact HF4]; lia|]. split; [done|]. split; [done|].
    rewrite Hfa by lia. fold off. split; [|split; [done|split; [done|split; [auto|done]]]]. intros bn' _.
    destruct (decide (bn' = bn)) as [->|]; [|done]. rewrite Hfa by lia. done. }
  destruct (Hown ind Hoind) as [Hoi HVi]. rewrite Hd in HVi.
  pose proof (fo_len _ _ _ _ _ _ _ _ _ _ HF Hd) as Hld.
  assert (off + 4 <= 1024)%nat as Hoff by (unfold off; change NDIRECT with 12 in *; lia).
  destruct (fs_set_bdata pid start (1 + k) (1 + m) bl3 s3 V3 (<[ind := j]> ∅) ind j d (put_u32 off r)) as (s4 & E5 & S4 & HF4);
    [done|apply lookup_insert_eq|done|rewrite length_put_u32; lia|].
  destruct (fs_log_write pid start k (1 + m) bl3 s4 _ _ ind j HF4) as (s5 & E6 & S5 & HF5); [apply lookup_insert_eq|done|done|].
  destruct (fs_brelse pid start k (1 + m) (logged bl3 ind) s5 _ _ ind j HF5) as (s6 & E7 & S6 & HF6);
    [apply lookup_insert_eq|left; apply elem_logged|].
  rewrite delete_insert_id in HF6 by done. set (V4 := <[ind := put_u32 off r d]> V3) in *.
  assert (bind (balloc ROOTDEV) (fun addr => bind (when (negb (addr =? 0)) (set_bdata j (put_u32 off addr) ;; log_write j))
            (fun _ => ret addr)) s1 = Ok r s5) as E8.
  { run E4. apply Z.eqb_neq in Hr0. rewrite Hr0. cbn [negb when]. by rewrite (bind_ok _ _ _ tt s5) by (by run E5). }
  run E8. run E7. exists r, s6. split; [done|]. exists (logged bl3 ind), V4, (i_addrs ip). cbn zeta.
  rewrite same_addrs, itable_same by done.
  split; [by repeat (eapply fs_trans; [eassumption|])|]. split; [done|].
  assert (forall bn', 0 <= bn' < MAXFILE -> faddr V4 ip bn' = if decide (bn' = bn) then r else faddr V ip bn') as Hf4.
  { intros bn' Hbn'. apply (faddr_put V V4 ip d); try done; [apply lookup_insert_eq|].
    destruct Hor as [? _]. pose proof (bm_size _ _ _ Hbm). lia. }
  pose proof (bitmap_insert_owned _ _ _ (put_u32 off r d) Hbm3 Hoi) as Hbm4. fold V4 in Hbm4.
  split; [done|]. split; [|split; [done|]].
  - split; [done|done| | | |].
    + intros a Ha Hna. apply owned_insert; [done|]. by apply Hown, Haddr.
    + intros bn' Hbn'. rewrite Hf4 by done. intros Hnz. apply owned_insert; [done|].
      destruct (decide (bn' = bn)); [done|]. by apply Hown, Hent.
    + intros b1 b2 H1 H2. rewrite !Hf4 by done.
      destruct (decide (b1 = bn)) as [->|], (decide (b2 = bn)) as [->|]; [done| | |auto]; intros Hnz E; exfalso.
      * apply (owned_free (sb s) V (faddr V ip b2) r); [by apply Hent; [|congruence]|done|done].
      * apply (owned_free (sb s) V (faddr V ip b1) r); [by apply Hent|done|done].
    + intros bn' Hbn'. rewrite Hf4 by done. intros Hnz. destruct (decide (bn' = bn)) as [->|]; [|by apply Hnind].
      intros E. by apply (owned_free (sb s) V ind r).
  - rewrite Hfa by lia. split; [done|]. split; [|split; [|done]].
    + intros _ _. split; [done|]. unfold V4. rewrite lookup_insert_ne; [done|]. by apply (owned_free (sb s) V).
    + intros a Ha. split; [apply owned_insert; [done|]; by apply Hown|]. intros Hna. unfold V4.
      rewrite lookup_insert_ne by done. by apply Hown.
Qed.

Lemma bmap_ind_eq i ip s bn :
  itable s !! i = Some ip -> NDIRECT <= bn < MAXFILE -> addr_of ip NDIRECT <> 0 ->
  bmap i bn s = bmap_ind ip (addr_of ip NDIRECT) (bn - NDIRECT) s.
Proof.
  intros Hi Hbn Hind. change MAXFILE with 268 in Hbn. unfold bmap. run (getinode_ok i ip s Hi).
  assert ((bn <? NDIRECT) = false) as -> by (apply Z.ltb_ge; lia).
  assert ((bn - NDIRECT <? NINDIRECT) = true) as -> by (apply Z.ltb_lt; change NDIRECT with 12 in *; change NINDIRECT with 256; lia).
  apply Z.eqb_neq in Hind. rewrite Hind. rewrite bind_ret. by rewrite Hind.
Qed.

(** A block was allocated for the address [j] of the inode. *)
Lemma imap_set sbl V V' ip j r :
  imap_ok sbl V ip -> 0 <= j <= NDIRECT -> owned start sbl V' r ->
  (forall a, owned start sbl V a -> owned start sbl V' a /\ V' !! a = V !! a) -> addr_of ip j = 0 ->
  (j = NDIRECT -> V' !! r = Some (replicate 1024 0)) -> r <> 0 -> used sbl V r = false ->
  let ip' := set_addr j r ip in
  imap_ok sbl V' ip' /\
  (forall bn, 0 <= bn < MAXFILE -> faddr V' ip' bn = if decide (bn = j /\ j <> NDIRECT) then r else faddr V ip bn).
Proof.
  intros [Hdev Hlen Haddr Hent Hinj Hnind] Hj Hor Hown Hz Hzero Hr0 Hur ip'.
  assert (forall k, 0 <= k <= NDIRECT -> addr_of ip' k = if decide (k = j) then r else addr_of ip k) as Ha
    by (intros k Hk; by apply addr_of_set).
  assert (forall bn, 0 <= bn < MAXFILE ->
            faddr V' ip' bn = if decide (bn = j /\ j <> NDIRECT) then r else faddr V ip bn) as Hf.
  { intros bn Hbn. change MAXFILE with 268 in Hbn. unfold faddr. change NDIRECT with 12 in *.
    destruct (Z.ltb_spec bn 12) as [Hlt|Hge].
    - rewrite Ha by lia. destruct (decide (bn = j)) as [->|Hne].
      + rewrite decide_True by lia. done.
      + by rewrite decide_False by tauto.
    - rewrite decide_False by lia. rewrite Ha by lia. destruct (decide (12 = j)) as [<-|Hne].
      + apply Z.eqb_neq in Hr0. rewrite Hr0, Hz, Hzero by done. apply get_u32_zeroes.
      + destruct (Z.eqb_spec (addr_of ip 12) 0) as [|Hnz]; [done|].
        destruct (Hown (addr_of ip 12)) as [_ ->]; [apply Haddr; [lia|done]|done]. }
  split; [|done]. split; [done|unfold ip', set_addr; rs; by rewrite length_insert| | | |].
  - intros k Hk. rewrite Ha by done. destruct (decide (k = j)); [done|]. intros Hnz. by apply Hown, Haddr.
  - intros bn Hbn. rewrite Hf by done. destruct (decide _); [done|]. intros Hnz. by apply Hown, Hent.
  - intros b1 b2 H1 H2. rewrite !Hf by done.
    destruct (decide _) as [[-> _]|], (decide _) as [[-> _]|]; [done| | |auto]; intros Hnz E.
    + exfalso. apply (owned_free sbl V (faddr V ip b2) r); [by apply Hent; [|congruence]|done|done].
    + exfalso. apply (owned_free sbl V (faddr V ip b1) r); [by apply Hent|done|done].
  - intros bn Hbn. rewrite Hf, Ha by (done || change NDIRECT with 12; lia). intros Hnz.
    destruct (decide (NDIRECT = j)) as [<-|Hne].
    + rewrite decide_False in Hnz |- * by tauto. apply (owned_free sbl V); [by apply Hent|done].
    + destruct (decide _) as [_|_]; [|by apply Hnind]. intros E.
      apply (owned_free sbl V (addr_of ip NDIRECT) r); [apply Haddr; [change NDIRECT with 12; lia|congruence]|done|done].
Qed.

Lemma set_addr_addrs j r ip : set_addr j r ip = ip <| i_addrs := <[Z.to_nat j := r]> (i_addrs ip) |>.
Proof. by destruct ip. Qed.

Lemma no_holds sbl V : holds_used sbl V ∅.
Proof. split; intros; apply lookup_empty. Qed.

(** [bmap] in a file without an indirect block. *)
Lemma bmap_new_ind k m bl s V i ip bn :
  fs_ok (5 + k) (2 + m) bl s V ∅ -> bitmap_ok start (sb s) V -> imap_ok (sb s) V ip -> itable s !! i = Some ip ->
  NDIRECT <= bn < MAXFILE -> addr_of ip NDIRECT = 0 ->
  exists r s', bmap i bn s = Ok r s' /\ bmap_post k (2 + m) s V i ip bn r s'.
Proof.
  intros HF Hbm Him Hi Hbn Hz. pose proof Him as [Hdev Hlen Haddr Hent Hinj Hnind].
  assert (forall bn', NDIRECT <= bn' -> faddr V ip bn' = 0) as Hf0.
  { intros bn' Hbn'. unfold faddr. assert ((bn' <? NDIRECT) = false) as -> by (apply Z.ltb_ge; lia). by rewrite Hz. }
  unfold bmap. run (getinode_ok i ip s Hi). change MAXFILE with 268 in Hbn.
  assert ((bn <? NDIRECT) = false) as -> by (apply Z.ltb_ge; lia).
  assert ((bn - NDIRECT <? NINDIRECT) = true) as -> by (apply Z.ltb_lt; change NDIRECT with 12 in *; change NINDIRECT with 256; lia).
  rewrite Hz, Hdev. change (0 =? 0) with true. cbv iota.
  destruct (balloc_owned pid start (3 + k) (1 + m) bl s V ∅) as (r & s1 & bl1 & V1 & E1 & S1 & HF1 & Hbm1 & Hown & Hused & Hr);
    [done|done|apply no_holds|].
  destruct Hr as [(-> & -> & -> & Hfull)|(Hr0 & Hur & Hor & HVr)].
  - erewrite bind_ok by (rewrite (bind_ok _ _ _ _ _ E1); reflexivity). change (0 =? 0) with true. cbv iota.
    exists 0, s1. split; [done|]. exists bl, V, (i_addrs ip). cbn zeta. rewrite same_addrs, itable_same by done.
    split; [done|]. split; [by eapply fo_weaken; [..|exact HF1]; lia|]. split; [done|]. split; [done|].
    rewrite Hf0 by lia. split; [|split; [done|split; [done|split; [auto|done]]]]. intros bn' _.
    destruct (decide (bn' = bn)) as [->|]; [by rewrite Hf0 by lia|done].
  - set (ip1 := ip <| i_addrs := <[Z.to_nat NDIRECT := r]> (i_addrs ip) |>).
    set (s2 := s1 <| itable := <[i := ip1]> (itable s) |>).
    erewrite bind_ok.
    2: { rewrite (bind_ok _ _ _ _ _ E1). apply Z.eqb_neq in Hr0. rewrite Hr0. cbn [negb when]. unfold updinode.
         rewrite bind_modify. rewrite (fs_itable S1), (alter_insert _ i _ ip Hi), set_addr_addrs. fold ip1. fold s2. reflexivity. }
    assert ((r =? 0) = false) as -> by (by apply Z.eqb_neq).
    destruct (imap_set (sb s) V V1 ip NDIRECT r Him) as [Him1 Hf1]; try done. rewrite set_addr_addrs in Him1, Hf1. fold ip1 in Him1, Hf1.
    assert (addr_of ip1 NDIRECT = r) as Ha1.
    { pose proof (addr_of_set ip NDIRECT NDIRECT r Hlen) as Ha. rewrite set_addr_addrs, decide_True in Ha by done. by apply Ha. }
    assert (sb s2 = sb s) as Esb by (unfold s2; rs; apply (fs_sb S1)).
    assert (itable s2 !! i = Some ip1) as Hi2 by (unfold s2; rs; apply list_lookup_insert_eq; by eapply lookup_lt_Some).
    destruct (bmap_ind_ok k m bl1 s2 V1 i ip1 bn) as (r2 & s3 & E3 & HP); rewrite ?Esb, ?Ha1; try done.
    { apply fo_itable. by eapply fo_weaken; [..|exact HF1]; lia. }
    rewrite Ha1 in E3. unfold bmap_ind in E3. change (i_dev ip1) with (i_dev ip) in E3. rewrite Hdev in E3.
    exists r2, s3. split; [exact E3|].
    destruct HP as (bl' & V' & addrs & HS & HF' & Hbm' & Him' & Hf' & HV' & Hu' & Hown' & Hfull'). rewrite Esb in *.
    exists bl', V', addrs. cbn zeta in *. change (ip1 <| i_addrs := addrs |>) with (ip <| i_addrs := addrs |>) in *.
    assert (faddr V1 ip1 bn = 0) as Hf1bn by (rewrite Hf1 by (change MAXFILE with 268; change NDIRECT with 12 in *; lia); rewrite decide_False by tauto; apply Hf0; lia).
    split; [|split; [done|split; [done|split; [done|]]]].
    + eapply fs_trans; [|exact HS]. unfold s2. rs. rewrite itable_itable, list_insert_insert_eq. by apply fs_set_itable.
    + split.
      * intros bn' Hbn'. rewrite Hf' by done. destruct (decide (bn' = bn)); [done|]. rewrite Hf1 by done. by rewrite decide_False by tauto.
      * rewrite Hf0 by lia. split; [done|]. split; [|split; [|done]].
        2: { intros a Ha. destruct (Hown a Ha) as [Ha1' HVa]. destruct (Hown' a Ha1') as [Ha' HVa']. split; [done|].
             intros _. rewrite HVa', HVa; [done|]. rewrite Ha1. by apply (owned_free (sb s) V). }
        intros _ Hr2. destruct (Hu' Hf1bn Hr2) as [Hu2 Hz2]. split; [|done].
        destruct (used (sb s) V r2) eqn:Eu; [|done]. rewrite Hused in Hu2; [done| |done].
        destruct (im_entries _ _ _ Him' bn) as [Hrange _]; rewrite ?Hf'; rewrite ?decide_True; try done; try (change MAXFILE with 268; change NDIRECT with 12 in *; lia).
        rewrite Hf', decide_True in Hrange; try done. change MAXFILE with 268; change NDIRECT with 12 in *; lia.
Qed.

Lemma bmap_ok k m bl s V i ip bn :
  fs_ok (5 + k) (2 + m) bl s V ∅ -> bitmap_ok start (sb s) V -> imap_ok (sb s) V ip -> itable s !! i = Some ip ->
  0 <= bn < MAXFILE ->
  exists r s', bmap i bn s = Ok r s' /\ bmap_post k (2 + m) s V i ip bn r s'.
Proof.
  intros HF Hbm Him Hi Hbn. pose proof Him as [Hdev Hlen Haddr Hent Hinj Hnind].
  destruct (decide (bn < NDIRECT)) as [Hlt|Hge].
  - unfold bmap. run (getinode_ok i ip s Hi). assert ((bn <? NDIRECT) = true) as -> by (by apply Z.ltb_lt).
    assert (faddr V ip bn = addr_of ip bn) as Hfa by (unfold faddr; by assert ((bn <? NDIRECT) = true) as -> by (by apply Z.ltb_lt)).
    rewrite Hdev. destruct (Z.eqb_spec (addr_of ip bn) 0) as [Hz|Hnz].
    + destruct (balloc_owned pid start (3 + k) (1 + m) bl s V ∅) as (r & s1 & bl1 & V1 & E1 & S1 & HF1 & Hbm1 & Hown & Hused & Hr);
        [done|done|apply no_holds|]. run E1.
      destruct Hr as [(-> & -> & -> & Hfull)|(Hr0 & Hur & Hor & HVr)].
      * exists 0, s1. split; [done|]. exists bl, V, (i_addrs ip). cbn zeta. rewrite same_addrs, itable_same by done.
        split; [done|]. split; [by eapply fo_weaken; [..|exact HF1]; lia|]. split; [done|]. split; [done|].
        split; [|split; [congruence|split; [done|split; [auto|done]]]]. intros bn' _. destruct (decide (bn' = bn)) as [->|]; [congruence|done].
      * assert ((r =? 0) = false) as -> by (by apply Z.eqb_neq). unfold updinode. rewrite bind_modify. exists r. eexists. split; [done|].
        destruct (imap_set (sb s) V V1 ip bn r Him) as [Him1 Hf1]; try done; [lia|]. rewrite set_addr_addrs in Him1, Hf1.
        exists bl1, V1, (<[Z.to_nat bn := r]> (i_addrs ip)). cbn zeta.
        rewrite (fs_itable S1). rewrite (alter_insert _ i _ ip Hi), set_addr_addrs.
        split; [by apply fs_set_itable|]. split; [by eapply fo_weaken; [..|apply fo_itable; exact HF1]; lia|]. split; [done|].
        split; [done|]. split; [|split; [congruence|split; [done|split; [intros a Ha; split; [by apply Hown|intros _; by apply Hown]|done]]]].
        intros bn' Hbn'. rewrite Hf1 by done. destruct (decide (bn' = bn)) as [->|]; [by rewrite decide_True by lia|].
        by rewrite decide_False by tauto.
    + exists (addr_of ip bn), s. split; [done|]. exists bl, V, (i_addrs ip). cbn zeta. rewrite same_addrs, itable_same by done.
      split; [apply fs_refl|]. split; [by eapply fo_weaken; [..|exact HF]; lia|]. split; [done|]. split; [done|].
      split; [|split; [auto|split; [congruence|split; [auto|done]]]]. intros bn' _. destruct (decide (bn' = bn)) as [->|]; [congruence|done].
  - destruct (decide (addr_of ip NDIRECT = 0)) as [Hz|Hnz].
    2: { rewrite (bmap_ind_eq i ip) by (done || lia).
         apply (bmap_ind_ok k m bl); try done; [by eapply fo_weaken; [..|exact HF]; lia|lia]. }
    apply (bmap_new_ind k m bl); try done. lia.
Qed.

(** ** Reading *)

(** The inode [ip] is a file all of whose blocks exist. *)
Record file_ok V ip : Prop := {
  fl_dev : i_dev ip = ROOTDEV;
  fl_size : 0 <= i_size ip <= MAXFILE * BSIZE;
  fl_indirect : indirect_ok V ip;
  fl_blocks : forall bn, 0 <= bn -> bn * BSIZE < i_size ip -> faddr V ip bn <> 0 /\ fs_block V (faddr V ip bn);
}.

(** Byte [off] of the file, which is 0 where the file has no block, and [n] bytes from
    there on. *)
Definition file_byte V ip (off : Z) : Z :=
  let a := faddr V ip (off / BSIZE) in
  if a =? 0 then 0
  else match V !! a with Some d => default 0 (d !! Z.to_nat (off mod BSIZE)) | None => 0 end.
Definition file_bytes V ip (off : Z) (n : nat) : list Z :=
  map (fun j => file_byte V ip (off + Z.of_nat j)) (seq 0 n).

Lemma length_file_bytes V ip off n : length (file_bytes V ip off n) = n.
Proof. unfold file_bytes. by rewrite length_map, length_seq. Qed.

Lemma file_bytes_app V ip off n1 n2 :
  file_bytes V ip off (n1 + n2) = file_bytes V ip off n1 ++ file_bytes V ip (off + Z.of_nat n1) n2.
Proof.
  unfold file_bytes. rewrite seq_app, map_app. f_equal. rewrite Nat.add_0_l.
  rewrite <- (Nat.add_0_r n1) at 1. rewrite <- fmap_add_seq. rewrite map_map. apply map_ext. intros j.
  f_equal. lia.
Qed.

(** A piece of the file that lies in one block. *)
Lemma file_bytes_block V ip off n d :
  0 <= off -> faddr V ip (off / BSIZE) <> 0 -> V !! faddr V ip (off / BSIZE) = Some d -> length d = 1024%nat ->
  off mod BSIZE + Z.of_nat n <= BSIZE ->
  slice (Z.to_nat (off mod BSIZE)) n d = file_bytes V ip off n.
Proof.
  intros Ho Hnz Hd Hl Hn. change BSIZE with 1024 in *. pose proof (Z.mod_pos_bound off 1024) as Hm. apply list_eq. intros j.
  destruct (decide (j < n)%nat) as [Hj|Hj].
  - rewrite lookup_slice by done. unfold file_bytes. rewrite list_lookup_fmap, lookup_seq_lt by done. cbn [fmap option_fmap option_map].
    rewrite Nat.add_0_l. unfold file_byte. change BSIZE with 1024.
    assert ((off + Z.of_nat j) / 1024 = off / 1024 /\ (off + Z.of_nat j) mod 1024 = off mod 1024 + Z.of_nat j) as [-> ->]
      by (Z.div_mod_to_equations; lia).
    apply Z.eqb_neq in Hnz. rewrite Hnz, Hd. destruct (lookup_lt_is_Some_2 d (Z.to_nat (off mod 1024) + j)) as [x Hx]; [lia|].
    rewrite Hx. replace (Z.to_nat (off mod 1024 + Z.of_nat j)) with (Z.to_nat (off mod 1024) + j)%nat by lia.
    by rewrite Hx.
  - rewrite lookup_ge_None_2 by (rewrite length_slice; lia). symmetry. apply lookup_ge_None_2. rewrite length_file_bytes. lia.
Qed.

Lemma readi_loop_ok fuel k m bl s V i ip off tot n out :
  fs_ok k (S m) bl s V ∅ -> itable s !! i = Some ip -> file_ok V ip ->
  0 <= off -> 0 <= tot <= n -> n < 2 ^ 32 -> off + (n - tot) <= i_size ip -> n - tot <= Z.of_nat fuel ->
  exists s', readi_loop fuel i D_local off tot n out s = Ok (n, out ++ file_bytes V ip off (Z.to_nat (n - tot))) s' /\
    fs_step s s' /\ fs_ok k (S m) bl s' V ∅.
Proof.
  revert s off tot out. induction fuel as [|fuel IH]; intros s off tot out HF Hi Hf Ho Ht Hn32 Hsz Hfuel; cbn [readi_loop].
  { destruct (Z.ltb_spec tot n); [lia|]. exists s. replace tot with n by lia. rewrite Z.sub_diag. cbn. rewrite app_nil_r.
    split; [done|]. split; [apply fs_refl|done]. }
  destruct (Z.ltb_spec tot n) as [Hlt|].
  2: { exists s. replace tot with n by lia. rewrite Z.sub_diag. cbn. rewrite app_nil_r. split; [done|]. split; [apply fs_refl|done]. }
  pose proof Hf as [Hdev Hs Hind Hbl]. change (MAXFILE * BSIZE) with 274432 in Hs. change BSIZE with 1024 in *.
  destruct (Hbl (off / 1024)) as (Hnz & _ & Hnl & [d Hd]); [Z.div_mod_to_equations; lia|Z.div_mod_to_equations; lia|].
  destruct (bmap_mapped k m bl s V ∅ i ip (off / 1024)) as (s1 & E1 & S1 & HF1); try done.
  { change MAXFILE with 268. Z.div_mod_to_equations. lia. }
  run E1. rewrite (proj2 (Z.eqb_neq _ _) Hnz).
  erewrite bind_ok by (apply (getinode_ok i ip); by rewrite (fs_itable S1)). rewrite Hdev.
  destruct (fs_read pid start k m bl s1 V ∅ (faddr V ip (off / 1024)) d)
    as (j & s2 & s3 & E2 & E3 & E4 & S2 & S3 & HF2 & HF3); try done.
  run E2. run E3. set (w := Z.min (n - tot) (1024 - off mod 1024)). cbn [either_copyout]. rewrite bind_ret.
  change (0 =? -1) with false. cbv iota. run E4. pose proof (Z.mod_pos_bound off 1024) as Hmod.
  assert (1 <= w <= n - tot /\ off mod 1024 + w <= 1024) as Hw by (unfold w; lia). clearbody w.
  rewrite (u32_small (off + w)), (u32_small (tot + w)) by lia. cbn [dst_add].
  destruct (IH s3 (off + w) (tot + w) (out ++ slice (Z.to_nat (off mod 1024)) (Z.to_nat w) d)) as (s4 & E5 & S4 & HF4);
    try done; try lia.
  { by rewrite (fs_itable S3), (fs_itable S1). }
  exists s4. rewrite E5. split; [|split; [by repeat (eapply fs_trans; [eassumption|])|done]].
  f_equal. f_equal. rewrite <- app_assoc. f_equal.
  pose proof (file_bytes_block V ip off (Z.to_nat w) d) as Hblk. change BSIZE with 1024 in Hblk.
  rewrite Hblk by (first [done|lia|by eapply fo_len]).
  replace (Z.to_nat (n - tot)) with (Z.to_nat w + Z.to_nat (n - (tot + w)))%nat by lia.
  rewrite file_bytes_app. by rewrite Z2Nat.id by lia.
Qed.

(** How much [readi] reads. *)
Definition read_len ip (off n : Z) : Z := if i_size ip <? off then 0 else Z.min n (i_size ip - off).

Lemma readi_ok k m bl s V i ip off n :
  fs_ok k (S m) bl s V ∅ -> itable s !! i = Some ip -> file_ok V ip -> 0 <= off -> 0 <= n -> off + n < 2 ^ 32 ->
  exists s', readi i D_local off n s = Ok (read_len ip off n, file_bytes V ip off (Z.to_nat (read_len ip off n))) s' /\
    fs_step s s' /\ fs_ok k (S m) bl s' V ∅.
Proof.
  intros HF Hi Hf Ho Hn Hov. unfold readi, read_len. run (getinode_ok i ip s Hi). rewrite u32_small by lia.
  assert ((off + n <? off) = false) as -> by (apply Z.ltb_ge; lia). rewrite orb_false_r.
  destruct (Z.ltb_spec (i_size ip) off) as [Hlt|Hge].
  { exists s. split; [done|]. split; [apply fs_refl|done]. }
  set (n' := if i_size ip <? off + n then i_size ip - off else n).
  assert (n' = Z.min n (i_size ip - off)) as En by (unfold n'; destruct (Z.ltb_spec (i_size ip) (off + n)); lia).
  destruct (readi_loop_ok (Z.to_nat n') k m bl s V i ip off 0 n' []) as (s' & E & HS & HF'); try done; try lia.
  exists s'. rewrite E. rewrite Z.sub_0_r, <- En. done.
Qed.

(** ** Writing *)

Lemma lookup_zeroes (n k : nat) : default 0 (replicate n 0 !! k) = 0.
Proof. destruct (replicate n 0 !! k) as [x|] eqn:E; [|done]. by apply lookup_replicate in E as [-> _]. Qed.

(** [bmap] does not change the contents of the file. *)
Lemma bmap_bytes k m s V i ip bn r s' :
  imap_ok (sb s) V ip -> bmap_post k m s V i ip bn r s' -> 0 <= bn < MAXFILE ->
  exists bl' V' addrs, let ip' := ip <| i_addrs := addrs |> in
    fs_step (s <| itable := <[i := ip']> (itable s) |>) s' /\ fs_ok k m bl' s' V' ∅ /\ bitmap_ok start (sb s) V' /\
    imap_ok (sb s) V' ip' /\ faddr V' ip' bn = r /\
    (forall b, 0 <= b < MAXFILE -> faddr V ip b <> 0 -> faddr V' ip' b = faddr V ip b) /\
    (forall o, 0 <= o < MAXFILE * BSIZE -> file_byte V' ip' o = file_byte V ip o) /\
    (r = 0 -> disk_full (sb s) V').
Proof.
  intros Him (bl' & V' & addrs & HS & HF & Hbm & Him' & Hf & Hold & Hnew & Hown & Hfull) Hbn. exists bl', V', addrs. cbn zeta in *.
  split; [done|]. split; [done|]. split; [done|]. split; [done|]. split; [by rewrite Hf, decide_True|]. split; [|split; [|done]].
  - intros b Hb Hnz. rewrite Hf by done. destruct (decide (b = bn)) as [->|]; [|done]. by apply Hold.
  - intros o Ho. unfold file_byte. change BSIZE with 1024 in *. change (MAXFILE * 1024) with 274432 in Ho.
    assert (0 <= o / 1024 < MAXFILE) as Hr by (change MAXFILE with 268; Z.div_mod_to_equations; lia).
    rewrite Hf by done. destruct (decide (o / 1024 = bn)) as [->|Hne].
    + destruct (decide (faddr V ip bn = 0)) as [Hz|Hnz].
      * rewrite Hz. destruct (Z.eqb_spec r 0) as [|Hr0]; [done|]. destruct (Hnew Hz Hr0) as [_ ->]. apply lookup_zeroes.
      * by destruct (Hold Hnz) as [-> ->].
    + destruct (Z.eqb_spec (faddr V ip (o / 1024)) 0) as [|Hnz]; [done|].
      destruct (Hown (faddr V ip (o / 1024))) as [_ Hsame]; [by apply (im_entries _ _ _ Him)|].
      rewrite Hsame; [done|]. by apply (im_indirect _ _ _ Him).
Qed.

(** A block of the file is overwritten at [off]. *)
Lemma write_block_bytes sbl V ip off l d :
  let a := faddr V ip (off / BSIZE) in let V' := <[a := blit (Z.to_nat (off mod BSIZE)) l d]> V in
  imap_ok sbl V ip -> a <> 0 -> V !! a = Some d -> length d = 1024%nat ->
  0 <= off < MAXFILE * BSIZE -> off mod BSIZE + Z.of_nat (length l) <= BSIZE ->
  imap_ok sbl V' ip /\ (forall b, 0 <= b < MAXFILE -> faddr V' ip b = faddr V ip b) /\
  (forall o, 0 <= o < MAXFILE * BSIZE ->
     file_byte V' ip o = if decide (off <= o < off + Z.of_nat (length l)) then default 0 (l !! Z.to_nat (o - off)) else file_byte V ip o).
Proof.
  intros a V' Him Ha Hd Hl Hoff Hfit. change BSIZE with 1024 in *. change (MAXFILE * 1024) with 274432 in *.
  assert (0 <= off / 1024 < MAXFILE) as Hr by (change MAXFILE with 268; Z.div_mod_to_equations; lia).
  pose proof Him as [Hdev Hlen Haddr Hent Hinj Hnind].
  assert (forall b, faddr V' ip b = faddr V ip b) as Hf.
  { intros b. unfold faddr. destruct (b <? NDIRECT); [done|]. destruct (addr_of ip NDIRECT =? 0); [done|].
    unfold V'. by rewrite lookup_insert_ne by (by apply Hnind). }
  split; [|split; [done|]].
  - split; [done|done| | | |]; intros *; rewrite ?Hf; auto.
    + intros Hj Hnz. apply owned_insert; [by apply Hent|auto].
    + intros Hb Hnz. apply owned_insert; [by apply Hent|auto].
  - intros o Ho. unfold file_byte. change BSIZE with 1024. rewrite Hf.
    assert (0 <= o / 1024 < MAXFILE) as Hro by (change MAXFILE with 268; Z.div_mod_to_equations; lia).
    destruct (decide (o / 1024 = off / 1024)) as [E|E].
    + rewrite E. fold a. rewrite (proj2 (Z.eqb_neq _ _) Ha), Hd. unfold V'. rewrite lookup_insert_eq.
      pose proof (Z.mod_pos_bound o 1024). pose proof (Z.mod_pos_bound off 1024).
      pose proof (Z.div_mod o 1024). pose proof (Z.div_mod off 1024).
      destruct (decide (off <= o < off + Z.of_nat (length l))) as [Hin|Hout].
      * rewrite lookup_blit_in by lia. do 2 f_equal. lia.
      * rewrite lookup_blit_out by lia. done.
    + rewrite decide_False by (intros [? ?]; apply E; Z.div_mod_to_equations; lia).
      destruct (Z.eqb_spec (faddr V ip (o / 1024)) 0) as [|Hnz]; [done|].
      unfold V'. rewrite lookup_insert_ne; [done|]. intros Ea. apply E. by apply Hinj.
Qed.

(** ** Properties *)

End ops.

(** ** The small file system, with a root directory

    Inode 1 is an empty directory; entry 0 of the table has it, locked, and entry 1 is free. *)
Definition small_root : inode :=
  zero_inode <| i_dev := ROOTDEV |> <| i_inum := 1 |> <| i_ref := 1 |> <| i_valid := true |> <| i_lock := mkSleeplock true 0 |>
             <| i_type := T_DIR |> <| i_nlink := 1 |> <| i_addrs := replicate 13 0 |>.
Definition small_itable : list inode := [small_root; zero_inode].
Definition root_fs : kstate := small_fs <| itable := small_itable |>.

Lemma root_fs_ok k m : (k + m <= NBUF)%nat -> fs_ok 0 2 k m [] root_fs small_disk ∅.
Proof. intros Hkm. apply fo_itable. by apply small_fs_ok. Qed.

Lemma small_inodes_ok : inodes_ok 2 small_sb small_disk.
Proof.
  split; [done|]. change (sb_ninodes small_sb) with 16. change (sb_size small_sb) with 64. intros j Hj.
  rewrite small_IBLOCK by done. split; [|intros c Hc; by rewrite small_BBLOCK].
  split; [lia|]. split; [unfold in_log; change LOGBLOCKS with 30; lia|]. by apply small_disk_at.
Qed.

Lemma small_root_dinode : dinode_ok (dinode_of small_root).
Proof.
  split; [change (di_type _) with 1|change (di_major _) with 0|change (di_minor _) with 0|change (di_nlink _) with 1
         |change (di_size _) with 0|reflexivity|apply Forall_replicate]; lia.
Qed.
