(* ===== verification/Content.v ===== *)
(** The contents of files: [writei], and directories on top of [readi]
    (kernel/fs.c). *)

From stdpp Require Import prelude gmap strings.
From Stdlib Require Import ZArith Lia.
From S2P Require Import Prelude Bytes Params State Spinlock CString Uart Printk Sched Sleeplock.
From S2P Require Import Kalloc Vm Disk Bio Cache Log Recovery Crash Txn Copy Fs Block Inode.

Local Open Scope Z_scope.
Local Open Scope kernel_scope.

Section ops.
Context {F : Fuel} {L : Linker} (pid start : Z).
Implicit Types (s : kstate) (V : gmap Z (list Z)) (H : gmap Z nat) (bl : list Z) (ip : inode).

Notation fs_ok := (fs_ok pid start).
Notation imap_ok := (imap_ok start).
Notation bitmap_ok := (bitmap_ok start).

(** The first [w] bytes of [l] were written to the file at [off]. *)
Record wrote (sbl : superblock) V V' ip ip' (off : Z) (l : list Z) (w : Z) : Prop := {
  wr_inode : exists addrs, ip' = ip <| i_addrs := addrs |>;
  wr_bitmap : bitmap_ok sbl V';
  wr_imap : imap_ok sbl V' ip';
  wr_old : forall b, 0 <= b < MAXFILE -> faddr V ip b <> 0 -> faddr V' ip' b = faddr V ip b;
  wr_new : forall o, off <= o < off + w -> faddr V' ip' (o / BSIZE) <> 0;
  wr_bytes : forall o, 0 <= o < MAXFILE * BSIZE ->
    file_byte V' ip' o = if decide (off <= o < off + w) then default 0 (l !! Z.to_nat (o - off)) else file_byte V ip o;
}.

Lemma wrote_nothing sbl V V' ip ip' off l :
  (exists addrs, ip' = ip <| i_addrs := addrs |>) -> bitmap_ok sbl V' -> imap_ok sbl V' ip' ->
  (forall b, 0 <= b < MAXFILE -> faddr V ip b <> 0 -> faddr V' ip' b = faddr V ip b) ->
  (forall o, 0 <= o < MAXFILE * BSIZE -> file_byte V' ip' o = file_byte V ip o) ->
  wrote sbl V V' ip ip' off l 0.
Proof. intros. split; try done; [lia|]. intros o Ho. rewrite decide_False by lia. auto. Qed.

(** One piece after the other. *)
Lemma wrote_app sbl V V1 V2 ip ip1 ip2 off l w1 w2 :
  0 <= w1 -> 0 <= w2 -> 0 <= off ->
  wrote sbl V V1 ip ip1 off l w1 -> wrote sbl V1 V2 ip1 ip2 (off + w1) (drop (Z.to_nat w1) l) w2 ->
  off + w1 <= MAXFILE * BSIZE ->
  wrote sbl V V2 ip ip2 off l (w1 + w2).
Proof.
  intros Hw1 Hw2 Hoff [(a1 & ->) _ Him1 Hold1 Hnew1 Hb1] [(a2 & ->) Hbm2 Him2 Hold2 Hnew2 Hb2] Hfit.
  change (MAXFILE * BSIZE) with 274432 in *. change BSIZE with 1024 in *.
  split; try done.
  - exists a2. done.
  - intros b Hb Hnz. rewrite Hold2; [by apply Hold1|done|by rewrite Hold1].
  - intros o Ho. destruct (decide (o < off + w1)) as [Hlt|Hge]; [|apply Hnew2; lia].
    assert (0 <= o / 1024 < MAXFILE) by (change MAXFILE with 268; Z.div_mod_to_equations; lia).
    rewrite Hold2; [apply Hnew1; lia|done|apply Hnew1; lia].
  - intros o Ho. rewrite Hb2, Hb1 by done. destruct (decide (off + w1 <= o < off + w1 + w2)) as [Hin|Hout].
    + rewrite decide_True by lia. rewrite lookup_drop. do 2 f_equal. lia.
    + destruct (decide (off <= o < off + w1)) as [Hin1|]; [by rewrite decide_True by lia|by rewrite decide_False by lia].
Qed.

(** [bmap] in front of a piece, of which the first [w] bytes count. *)
Lemma wrote_after_bmap sbl V V1 V2 ip addrs off l w :
  let ip1 := ip <| i_addrs := addrs |> in
  (forall b, 0 <= b < MAXFILE -> faddr V ip b <> 0 -> faddr V1 ip1 b = faddr V ip b) ->
  (forall o, 0 <= o < MAXFILE * BSIZE -> file_byte V1 ip1 o = file_byte V ip o) ->
  wrote sbl V1 V2 ip1 ip1 off (take (Z.to_nat w) l) w -> wrote sbl V V2 ip ip1 off l w.
Proof.
  intros ip1 Hold Hb [_ Hbm Him Hold2 Hnew2 Hb2]. split; try done.
  - by exists addrs.
  - intros b Hr Hnz. rewrite Hold2; [by apply Hold|done|by rewrite Hold].
  - intros o Ho. rewrite Hb2, Hb by done. destruct (decide _) as [Hin|]; [|done].
    by rewrite lookup_take_lt by lia.
Qed.

Lemma writei_loop_done fuel i x off tot n s : n <= tot -> writei_loop fuel i x off tot n s = Ok (off, tot) s.
Proof. intros Hn. assert ((tot <? n) = false) as E by (by apply Z.ltb_ge). destruct fuel; cbn [writei_loop]; by rewrite E. Qed.

(** One round of the loop: [bmap] gave the block [a]. *)
Lemma write_block k m bl s V ip off l :
  let a := faddr V ip (off / BSIZE) in
  fs_ok (S k) (2 + m) bl s V ∅ -> bitmap_ok (sb s) V -> imap_ok (sb s) V ip -> a <> 0 ->
  0 <= off < MAXFILE * BSIZE -> off mod BSIZE + Z.of_nat (length l) <= BSIZE ->
  exists j s1 s2 bl' V', bread ROOTDEV a s = Ok j s1 /\
    bind (set_bdata j (blit (Z.to_nat (off mod BSIZE)) l)) (fun _ => bind (log_write j) (fun _ => brelse j)) s1 = Ok tt s2 /\
    fs_step s s2 /\ fs_ok k (2 + m) bl' s2 V' ∅ /\ wrote (sb s) V V' ip ip off l (Z.of_nat (length l)).
Proof.
  intros a HF Hbm Him Ha Hoff Hfit.
  assert (0 <= off / BSIZE < MAXFILE) as Hr
    by (change MAXFILE with 268; change (MAXFILE * BSIZE) with 274432 in Hoff; change BSIZE with 1024 in *; Z.div_mod_to_equations; lia).
  pose proof (im_entries _ _ _ _ Him _ Hr Ha) as Hown. pose proof Hown as (_ & _ & (Ha1 & Ha2 & [d Hd]) & _). fold a in Hown, Ha1, Ha2, Hd.
  pose proof (fo_len _ _ _ _ _ _ _ _ _ _ HF Hd) as Hld.
  destruct (fs_bread pid start (S k) (1 + m) bl s V ∅ a d) as (j & s1 & E1 & S1 & HF1); try done.
  destruct (fs_modify pid start k (1 + m) bl s1 V ∅ a j d (blit (Z.to_nat (off mod BSIZE)) l)) as (s2 & E2 & S2 & HF2); try done.
  { change BSIZE with 1024 in *. pose proof (Z.mod_pos_bound off 1024). rewrite length_blit; lia. }
  destruct (write_block_bytes start (sb s) V ip off l d) as (Him' & Hf' & Hb'); try done.
  exists j, s1, s2, (logged bl a), (<[a := blit (Z.to_nat (off mod BSIZE)) l d]> V).
  split; [done|]. split; [done|]. split; [by eapply fs_trans|]. split; [done|]. split; try done.
  - exists (i_addrs ip). by destruct ip.
  - by apply bitmap_insert_owned.
  - intros b Hb _. by apply Hf'.
  - intros o Ho. fold a in Hf'. change (MAXFILE * BSIZE) with 274432 in Hoff. change BSIZE with 1024 in *.
    assert (o / 1024 = off / 1024) as -> by (Z.div_mod_to_equations; lia). by rewrite Hf'.
Qed.

Lemma writei_loop_ok its fuel k m bl s V i ip l off tot n :
  fs_ok (6 * its + k) (2 + m) bl s V ∅ -> bitmap_ok (sb s) V -> imap_ok (sb s) V ip -> itable s !! i = Some ip ->
  0 <= off -> off + (n - tot) <= MAXFILE * BSIZE -> 0 <= tot <= n -> n < 2 ^ 32 -> Z.of_nat (length l) = n - tot ->
  n - tot <= Z.of_nat fuel -> (tot < n -> off mod BSIZE + (n - tot) <= BSIZE * Z.of_nat its) ->
  exists w s' bl' V' ip', writei_loop fuel i (S_local l) off tot n s = Ok (off + w, tot + w) s' /\ 0 <= w <= n - tot /\
    (w < n - tot -> disk_full (sb s) V' /\ (w = 0 \/ (off + w) mod BSIZE = 0)) /\
    fs_step (s <| itable := <[i := ip']> (itable s) |>) s' /\ fs_ok k (2 + m) bl' s' V' ∅ /\
    wrote (sb s) V V' ip ip' off l w.
Proof.
  revert fuel bl s V ip l off tot.
  induction its as [|its IH]; intros fuel bl s V ip l off tot HF Hbm Him Hi Hoff Hmax Htot Hn Hl Hfuel Hits;
    (destruct (decide (tot = n)) as [->|Hne];
     [exists 0, s, bl, V, ip; rewrite writei_loop_done, !Z.add_0_r by lia; split; [done|]; split; [lia|]; split; [lia|];
      rewrite itable_same by done; split; [apply fs_refl|]; split; [by eapply fo_weaken; [..|exact HF]; lia|];
      apply wrote_nothing; try done; exists (i_addrs ip); by destruct ip|]).
  { change BSIZE with 1024 in *. pose proof (Z.mod_pos_bound off 1024). lia. }
  assert (0 <= off / BSIZE < MAXFILE) as Hr
    by (change MAXFILE with 268; change (MAXFILE * BSIZE) with 274432 in *; change BSIZE with 1024 in *; Z.div_mod_to_equations; lia).
  destruct fuel as [|fuel]; [lia|]. cbn [writei_loop]. assert ((tot <? n) = true) as -> by (apply Z.ltb_lt; lia).
  destruct (bmap_ok pid start (1 + 6 * its + k) m bl s V i ip (off / BSIZE)) as (r & s1 & E1 & HP); try done.
  { by eapply fo_weaken; [..|exact HF]; lia. }
  run E1. destruct (bmap_bytes pid start _ _ s V i ip (off / BSIZE) r s1 Him HP Hr)
    as (bl1 & V1 & addrs & S1 & HF1 & Hbm1 & Him1 & Hr1 & Hold1 & Hb1 & Hfull1). cbn zeta in *. set (ip1 := ip <| i_addrs := addrs |>) in *.
  pose proof (fs_sb S1) as Esb. rs_in Esb. pose proof (fs_itable S1) as Et. rs_in Et.
  destruct (Z.eqb_spec r 0) as [Hr0|Hr0].
  { exists 0, s1, bl1, V1, ip1. rewrite !Z.add_0_r. split; [done|]. split; [lia|]. split; [auto|]. split; [done|].
    split; [by eapply fo_weaken; [..|exact HF1]; lia|]. apply wrote_nothing; try done. by exists addrs. }
  assert (itable s1 !! i = Some ip1) as Hi1 by (rewrite Et; apply list_lookup_insert_eq; by eapply lookup_lt_Some).
  erewrite bind_ok by (by apply getinode_ok). rewrite (im_dev _ _ _ _ Him1).
  set (w1 := Z.min (n - tot) (BSIZE - off mod BSIZE)).
  assert (1 <= w1 <= n - tot /\ off mod BSIZE + w1 <= BSIZE /\ (w1 < n - tot -> off mod BSIZE + w1 = BSIZE)) as (Hw1 & Hw2 & Hw3).
  { unfold w1. change BSIZE with 1024. pose proof (Z.mod_pos_bound off 1024). lia. }
  clearbody w1. set (l1 := take (Z.to_nat w1) l). assert (Z.of_nat (length l1) = w1) as Hl1 by (unfold l1; rewrite length_take; lia).
  destruct (write_block (6 * its + k) m bl1 s1 V1 ip1 off l1) as (j & s2 & s3 & bl3 & V3 & E2 & E3 & S3 & HF3 & HW3);
    rewrite ?Esb, ?Hr1, ?Hl1; try done.
  { lia. }
  rewrite Hr1 in E2. run E2. cbn [either_copyin]. rewrite bind_ret. cbn [fst snd]. fold l1. rewrite (bind_seq3 _ _ _ _ _ _ _ E3).
  change (0 =? -1) with false. cbv iota. cbn [src_add]. rewrite Esb, Hl1 in HW3.
  change (MAXFILE * BSIZE) with 274432 in *. rewrite !u32_small by lia.
  pose proof (fs_sb S3) as Esb3. pose proof (fs_itable S3) as Et3.
  pose proof (wr_bitmap _ _ _ _ _ _ _ _ HW3). pose proof (wr_imap _ _ _ _ _ _ _ _ HW3).
  destruct (IH fuel bl3 s3 V3 ip1 (drop (Z.to_nat w1) l) (off + w1) (tot + w1)) as (w2 & s4 & bl4 & V4 & ip4 & E4 & Hw & Hfull4 & S4 & HF4 & HW4);
    rewrite ?Esb3, ?Esb, ?Et3; try done; try lia.
  { rewrite length_drop. lia. }
  { intros Hlt. change BSIZE with 1024 in *. assert ((off + w1) mod 1024 = 0) as -> by (Z.div_mod_to_equations; lia). lia. }
  rewrite Esb3, Esb in HW4, Hfull4. exists (w1 + w2), s4, bl4, V4, ip4. rewrite !Z.add_assoc. split; [done|]. split; [lia|].
  split.
  { intros Hlt. destruct Hfull4 as [Hfull4 [-> | Hm]]; [lia|split; [done|right]..]; [|done].
    rewrite Z.add_0_r. change BSIZE with 1024 in *. Z.div_mod_to_equations. lia. }
  split; [|split; [done|]].
  - eapply fs_trans; [|exact S4]. rewrite Et3, Et, list_insert_insert_eq.
    apply (fs_set_itable (<[i := ip4]> (itable s))) in S1, S3. rewrite itable_itable in S1. by eapply fs_trans.
  - eapply wrote_app; [lia|lia|done| |exact HW4|change (MAXFILE * BSIZE) with 274432; lia].
    apply (wrote_after_bmap (sb s) V V1 V3 ip addrs); try done.
Qed.

(** An inode is written to its block. *)
Lemma imap_inode_block sbl V ip j d :
  imap_ok sbl V ip -> 0 <= j < sb_ninodes sbl ->
  let V' := <[IBLOCK j sbl := d]> V in
  (forall c, 0 <= c < sb_size sbl -> IBLOCK j sbl <> BBLOCK c sbl) ->
  imap_ok sbl V' ip /\ (forall b, 0 <= b < MAXFILE -> faddr V' ip b = faddr V ip b) /\
  (forall o, 0 <= o < MAXFILE * BSIZE -> file_byte V' ip o = file_byte V ip o).
Proof.
  intros Him Hj V' Hnb. pose proof Him as [Hdev Hlen Haddr Hent Hinj Hnind].
  assert (forall a, owned start sbl V a -> owned start sbl V' a /\ V' !! a = V !! a) as Hown.
  { intros a (H1 & H2 & H3 & [H4 H5]). split; [|unfold V'; apply lookup_insert_ne; symmetry; by apply H5].
    split; [done|]. split; [|split; [by apply fs_block_insert|done]].
    unfold used, V'. by rewrite lookup_insert_ne by (by apply Hnb). }
  assert (forall b, faddr V' ip b = faddr V ip b) as Hf.
  { intros b. unfold faddr. destruct (b <? NDIRECT); [done|]. destruct (Z.eqb_spec (addr_of ip NDIRECT) 0) as [|Hnz]; [done|].
    destruct (Hown (addr_of ip NDIRECT)) as [_ ->]; [|done]. by apply Haddr. }
  split; [|split; [done|]].
  - split; [done|done| | | |]; intros *; rewrite ?Hf; auto; intros; by apply Hown; auto.
  - intros o Ho. unfold file_byte. rewrite Hf. destruct (Z.eqb_spec (faddr V ip (o / BSIZE)) 0) as [|Hnz]; [done|].
    destruct (Hown (faddr V ip (o / BSIZE))) as [_ ->]; [|done]. apply Hent; [|done].
    change MAXFILE with 268. change (MAXFILE * BSIZE) with 274432 in Ho. change BSIZE with 1024. Z.div_mod_to_equations. lia.
Qed.

Lemma bitmap_inode_block sbl V j d :
  bitmap_ok sbl V -> (forall c, 0 <= c < sb_size sbl -> IBLOCK j sbl <> BBLOCK c sbl) ->
  bitmap_ok sbl (<[IBLOCK j sbl := d]> V).
Proof.
  intros Hbm Hnb. apply (bitmap_mono start sbl V); [done| |].
  - intros b Hb. rewrite lookup_insert_is_Some'. by right.
  - intros b Hb Hu. apply (bm_free _ _ _ Hbm); [done|]. unfold used in Hu. by rewrite lookup_insert_ne in Hu by (by apply Hnb).
Qed.

Lemma imap_dinode_ok sbl V ip :
  imap_ok sbl V ip -> 0 <= sb_size sbl < 2 ^ 31 -> Forall (fun a => 0 <= a < 2 ^ 32) (i_addrs ip).
Proof.
  intros [_ Hlen Haddr _ _ _] Hs. apply Forall_lookup. intros k a Hk.
  assert (addr_of ip (Z.of_nat k) = a) as Ha by (unfold addr_of; rewrite Nat2Z.id, list_lookup_total_alt, Hk; done).
  apply lookup_lt_Some in Hk. destruct (decide (a = 0)) as [->|Hnz]; [lia|].
  destruct (Haddr (Z.of_nat k)) as [Hr _]; [change NDIRECT with 12; lia|by rewrite Ha|]. rewrite Ha in Hr. lia.
Qed.

Lemma dinode_ok_addrs ip addrs :
  dinode_ok (dinode_of ip) -> length addrs = 13%nat -> Forall (fun a => 0 <= a < 2 ^ 32) addrs ->
  dinode_ok (dinode_of (ip <| i_addrs := addrs |>)).
Proof. intros [] Hl Ha. by split. Qed.

(** The inode after [writei] extended the file to [e]. *)
Definition extended (e : Z) ip : inode := if i_size ip <? e then ip <| i_size := e |> else ip.

Lemma extended_addrs e ip : i_addrs (extended e ip) = i_addrs ip.
Proof. unfold extended. destruct (_ <? _); by rs. Qed.

Lemma imap_size sbl V ip e : imap_ok sbl V ip -> imap_ok sbl V (extended e ip).
Proof. unfold extended. destruct (_ <? _); [|done]. intros []. by split. Qed.

Lemma faddr_size V ip e b : faddr V (extended e ip) b = faddr V ip b.
Proof. unfold faddr, addr_of. by rewrite extended_addrs. Qed.

Lemma file_byte_size V ip e o : file_byte V (extended e ip) o = file_byte V ip o.
Proof. unfold file_byte. by rewrite faddr_size. Qed.

(** The tail of [writei] after the loop, with the offset [e] that it reached. *)
Lemma writei_tail k m bl s V i ip e :
  fs_ok (S k) (2 + m) bl s V ∅ -> inodes_ok start (sb s) V -> bitmap_ok (sb s) V -> imap_ok (sb s) V ip ->
  itable s !! i = Some ip -> 0 <= i_inum ip < sb_ninodes (sb s) -> dinode_ok (dinode_of ip) -> 0 <= e < 2 ^ 32 ->
  let ip' := extended e ip in
  exists s' bl' V',
    (ip <- getinode i ;; when (i_size ip <? e) (updinode i (fun ip => ip <| i_size := e |>)) ;; iupdate i) s = Ok tt s' /\
    fs_step (s <| itable := <[i := ip']> (itable s) |>) s' /\ fs_ok k (2 + m) bl' s' V' ∅ /\
    bitmap_ok (sb s) V' /\ imap_ok (sb s) V' ip' /\ dinode_at (sb s) V' (i_inum ip) = Some (dinode_of ip') /\
    (forall b, 0 <= b < MAXFILE -> faddr V' ip' b = faddr V ip b) /\
    (forall o, 0 <= o < MAXFILE * BSIZE -> file_byte V' ip' o = file_byte V ip o) /\
    (disk_full (sb s) V -> disk_full (sb s) V').
Proof.
  intros HF Hin Hbm Him Hi Hinum Hd He ip'. run (getinode_ok i ip s Hi).
  set (s1 := s <| itable := <[i := ip']> (itable s) |>).
  erewrite bind_ok with (a := tt) (s' := s1).
  2: { unfold s1, ip', extended. destruct (i_size ip <? e); cbn [when].
       - unfold updinode, modify. by rewrite (alter_insert _ i _ ip Hi).
       - by rewrite itable_same. }
  assert (i_dev ip' = ROOTDEV /\ i_inum ip' = i_inum ip) as [Hdev' Hnum'].
  { pose proof (im_dev _ _ _ _ Him). unfold ip', extended. by destruct (_ <? _). }
  assert (dinode_ok (dinode_of ip')) as Hd'.
  { destruct Hd as []. unfold ip', extended. destruct (_ <? _); split; cbn in *; done. }
  pose proof Hin as [Hn32 Hin']. destruct (Hin' _ Hinum) as [(Hb1 & Hb2 & _) Hnb].
  destruct (iupdate_ok pid start k (1 + m) bl s1 V ∅ i ip') as (data & s2 & E & HS & Hdata & HF2); rewrite ?Hnum'; try done.
  { by apply fo_itable. }
  { unfold s1. rs. apply list_lookup_insert_eq. by eapply lookup_lt_Some. }
  change (sb s1) with (sb s) in *. rewrite Hnum' in *.
  destruct (imap_inode_block (sb s) V ip' (i_inum ip) (blit (dinode_off (i_inum ip)) (dinode_bytes (dinode_of ip')) data))
    as (Him' & Hf' & Hb'); [by apply imap_size|done|done|].
  eexists s2, _, _. split; [exact E|]. split; [exact HS|]. split; [exact HF2|].
  split; [by apply bitmap_inode_block|]. split; [done|]. split; [|split; [|split]].
  - rewrite (dinode_at_insert (sb s) V (i_inum ip) (dinode_of ip') data); try done; try lia.
    + by rewrite decide_True.
    + exact (fo_len _ _ _ _ _ _ _ _ _ _ HF Hdata).
  - intros b Hb. rewrite Hf' by done. apply faddr_size.
  - intros o Ho. rewrite Hb' by done. apply file_byte_size.
  - intros Hfull b Hb. unfold used. rewrite lookup_insert_ne by (by apply Hnb). by apply Hfull.
Qed.

Lemma writei_tail_seq i e (r : Z) s s' :
  (ip <- getinode i ;; when (i_size ip <? e) (updinode i (fun ip => ip <| i_size := e |>)) ;; iupdate i) s = Ok tt s' ->
  (ip <- getinode i ;; when (i_size ip <? e) (updinode i (fun ip => ip <| i_size := e |>)) ;; iupdate i ;; ret r) s = Ok r s'.
Proof.
  unfold bind. destruct (getinode i s) as [ip t| | |]; cbn [obind]; try done.
  destruct (when _ _ t) as [u t'| | |]; cbn [obind]; try done. by intros ->.
Qed.

(** A file stays one when a piece at its end is written. *)
Lemma wrote_file_ok sbl V V1 V2 ip ip1 ip2 off l w :
  file_ok start V ip -> wrote sbl V V1 ip ip1 off l w -> imap_ok sbl V2 ip2 ->
  (forall b, 0 <= b < MAXFILE -> faddr V2 ip2 b = faddr V1 ip1 b) ->
  0 <= off <= i_size ip -> 0 <= w /\ off + w <= MAXFILE * BSIZE -> i_size ip2 = Z.max (i_size ip) (off + w) ->
  file_ok start V2 ip2.
Proof.
  intros [Hdev Hsz _ Hbl] [_ _ _ Hold Hnew _] Him2 Hf2 Hoff Hw Hsz2. pose proof Him2 as [Hdev2 Hlen2 Haddr2 Hent2 _ _].
  split; [done|rewrite Hsz2; lia| |].
  - intros Hnz. by apply Haddr2.
  - intros b Hb Hlt. rewrite Hsz2 in Hlt. change (MAXFILE * BSIZE) with 274432 in *. change BSIZE with 1024 in *.
    assert (0 <= b < MAXFILE) as Hr by (change MAXFILE with 268; lia).
    assert (faddr V2 ip2 b <> 0) as Hnz; [|split; [done|]; by apply Hent2].
    rewrite Hf2 by done. destruct (decide (b * 1024 < i_size ip)) as [Hin|Hout].
    + destruct (Hbl b) as [Hnz _]; [done|done|]. by rewrite Hold.
    + pose proof (Hnew (b * 1024)) as Hn. rewrite Z.div_mul in Hn by done. apply Hn. lia.
Qed.

Lemma writei_ok its k m bl s V i ip l off :
  let n := Z.of_nat (length l) in
  fs_ok (6 * its + S k) (2 + m) bl s V ∅ -> inodes_ok start (sb s) V -> bitmap_ok (sb s) V -> imap_ok (sb s) V ip ->
  file_ok start V ip -> itable s !! i = Some ip -> 0 <= i_inum ip < sb_ninodes (sb s) -> dinode_ok (dinode_of ip) ->
  0 <= off <= i_size ip -> off + n <= MAXFILE * BSIZE -> off mod BSIZE + n <= BSIZE * Z.of_nat its ->
  exists w s' bl' V' ip', writei i (S_local l) off n s = Ok w s' /\ 0 <= w <= n /\
    (w < n -> disk_full (sb s) V' /\ (w = 0 \/ (off + w) mod BSIZE = 0)) /\
    fs_step (s <| itable := <[i := ip']> (itable s) |>) s' /\ fs_ok k (2 + m) bl' s' V' ∅ /\
    bitmap_ok (sb s) V' /\ imap_ok (sb s) V' ip' /\ file_ok start V' ip' /\ i_size ip' = Z.max (i_size ip) (off + w) /\
    (exists addrs, ip' = ip <| i_addrs := addrs |> <| i_size := i_size ip' |>) /\
    dinode_at (sb s) V' (i_inum ip) = Some (dinode_of ip') /\
    forall o, 0 <= o < MAXFILE * BSIZE ->
      file_byte V' ip' o = if decide (off <= o < off + w) then default 0 (l !! Z.to_nat (o - off)) else file_byte V ip o.
Proof.
  intros n HF Hin Hbm Him Hfile Hi Hinum Hd Hoff Hmax Hits. unfold writei. run (getinode_ok i ip s Hi).
  change (MAXFILE * BSIZE) with 274432 in *. assert (0 <= n) by (unfold n; lia).
  rewrite (u32_small (off + n)) by lia.
  assert ((i_size ip <? off) || (off + n <? off) = false) as -> by (apply orb_false_iff; split; apply Z.ltb_ge; lia).
  assert ((274432 <? off + n) = false) as -> by (apply Z.ltb_ge; lia).
  destruct (writei_loop_ok its (Z.to_nat n) (S k) m bl s V i ip l off 0 n)
    as (w & s1 & bl1 & V1 & ip1 & E1 & Hw & Hfull1 & S1 & HF1 & HW); try done; try lia.
  { change (MAXFILE * BSIZE) with 274432. lia. }
  rewrite Z.add_0_l in E1. run E1. cbn [fst snd].
  pose proof HW as [(addrs & Eip1) Hbm1 Him1 Hold1 Hnew1 Hb1]. pose proof (fs_sb S1) as Esb. rs_in Esb.
  pose proof (fs_itable S1) as Et. rs_in Et.
  assert (i_inum ip1 = i_inum ip) as Hn1 by (by rewrite Eip1).
  assert (inodes_ok start (sb s) V1) as Hin1.
  { destruct Hin as [H1 H2]. split; [done|]. intros j Hj. destruct (H2 j Hj) as [(Hj1 & Hj2 & Hj3) Hj4]. split; [|done].
    split; [done|]. split; [done|]. apply (c_dom _ _ _ _ _ (proj1 (fo_cache _ _ _ _ _ _ _ _ HF1))). rewrite (fs_disk S1). rs.
    by apply (c_dom _ _ _ _ _ (proj1 (fo_cache _ _ _ _ _ _ _ _ HF))). }
  destruct (writei_tail k m bl1 s1 V1 i ip1 (off + w)) as (s2 & bl2 & V2 & E2 & S2 & HF2 & Hbm2 & Him2 & Hd2 & Hf2 & Hb2 & Hfull2);
    rewrite ?Esb, ?Hn1; try done; try lia.
  { rewrite Et. apply list_lookup_insert_eq. by eapply lookup_lt_Some. }
  { pose proof (imap_dinode_ok _ _ _ Him1 (bm_size _ _ _ Hbm1)) as Ha. pose proof (im_len _ _ _ _ Him1) as Hl1.
    rewrite Eip1 in Ha, Hl1 |- *. by apply dinode_ok_addrs. }
  rewrite Esb in Hbm2, Him2, Hd2, Hfull2. rewrite Hn1 in Hd2.
  rewrite (writei_tail_seq _ _ _ _ _ E2). exists w, s2, bl2, V2, (extended (off + w) ip1).
  split; [rewrite s32_small by lia; done|]. split; [lia|]. split; [intros; destruct Hfull1 as [Hfull1 Hend]; [lia|]; split; [by apply Hfull2|done]|]. split.
  { eapply fs_trans; [|exact S2]. rewrite Et, list_insert_insert_eq.
    apply (fs_set_itable (<[i := extended (off + w) ip1]> (itable s))) in S1. by rewrite itable_itable in S1. }
  split; [done|]. split; [done|]. split; [done|].
  assert (i_size (extended (off + w) ip1) = Z.max (i_size ip) (off + w)) as Hsz.
  { unfold extended. assert (i_size ip1 = i_size ip) as -> by (by rewrite Eip1).
    destruct (Z.ltb_spec (i_size ip) (off + w)); rs; [|rewrite Eip1; rs]; lia. }
  split; [|split; [done|split; [|split; [done|]]]].
  - apply (wrote_file_ok (sb s) V V1 V2 ip ip1 _ off l w); try done. change (MAXFILE * BSIZE) with 274432. lia.
  - exists addrs. rewrite Eip1. unfold extended. destruct (_ <? _); by destruct ip.
  - intros o Ho. rewrite Hb2 by done. by apply Hb1.
Qed.

(** ** Properties *)

Lemma file_bytes_eq V ip off n l :
  (forall j, (j < n)%nat -> l !! j = Some (file_byte V ip (off + Z.of_nat j))) -> file_bytes V ip off n = take n l.
Proof.
  intros Hl. apply list_eq. intros j. unfold file_bytes. rewrite list_lookup_fmap. destruct (decide (j < n)%nat) as [Hj|Hj].
  - rewrite lookup_seq_lt, lookup_take_lt by done. cbn [fmap option_fmap option_map]. by rewrite Hl.
  - by rewrite lookup_seq_ge, lookup_take_ge by lia.
Qed.


End ops.

(** ** Writing to the small file system *)

Lemma small_root_imap : imap_ok 2 small_sb small_disk small_root.
Proof.
  assert (forall j, 0 <= j <= NDIRECT -> addr_of small_root j = 0) as Ha.
  { change NDIRECT with 12. intros j Hj. unfold addr_of. change (i_addrs small_root) with (replicate 13 0).
    rewrite list_lookup_total_alt, lookup_replicate_2 by lia. done. }
  assert (forall b, 0 <= b < MAXFILE -> faddr small_disk small_root b = 0) as Hf.
  { intros b Hb. unfold faddr. destruct (Z.ltb_spec b NDIRECT); [apply Ha; lia|]. by rewrite Ha. }
  split; [reflexivity|reflexivity|..].
  - intros j Hj Hnz. by rewrite Ha in Hnz.
  - intros b Hb Hnz. by rewrite Hf in Hnz.
  - intros b1 b2 Hb1 Hb2 Hnz. by rewrite Hf in Hnz.
  - intros b Hb Hnz. by rewrite Hf in Hnz.
Qed.

Lemma small_root_file : file_ok 2 small_disk small_root.
Proof.
  split; [reflexivity|change (i_size small_root) with 0; change (MAXFILE * BSIZE) with 274432; lia|by intros Hnz|].
  change (i_size small_root) with 0. change BSIZE with 1024. intros b Hb Hlt. lia.
Qed.

