(* ===== verification/Dir.v ===== *)
(** Directories and the inode table: [iget], [dirlookup] and [dirlink]
    (kernel/fs.c). *)

From stdpp Require Import prelude gmap strings.
From Stdlib Require Import ZArith Lia.
From S2P Require Import Prelude Bytes Params State Spinlock CString Uart Printk Sched Sleeplock.
From S2P Require Import Kalloc Vm Disk Bio Cache Log Recovery Crash Txn Copy Fs Block Inode Content.

Local Open Scope Z_scope.
Local Open Scope kernel_scope.

(** ** The inode table *)

Section table.
Implicit Types (t : list inode) (ip : inode).

Definition is_inode (dev inum : Z) ip : bool := (i_dev ip =? dev) && (i_inum ip =? inum).

(** The references to an inode, wherever the table has it. *)
Definition irefs (dev inum : Z) t : Z :=
  foldr (fun ip n => (if is_inode dev inum ip then i_ref ip else 0) + n) 0 t.

(** Reference counts are not negative, and an inode is in the table once. *)
Record itable_ok t : Prop := {
  it_ref : forall i ip, t !! i = Some ip -> 0 <= i_ref ip;
  it_once : forall i j ip jp, t !! i = Some ip -> t !! j = Some jp -> 0 < i_ref ip -> 0 < i_ref jp ->
    i_dev ip = i_dev jp -> i_inum ip = i_inum jp -> i = j;
}.

Lemma irefs_cons dev inum ip t :
  irefs dev inum (ip :: t) = (if is_inode dev inum ip then i_ref ip else 0) + irefs dev inum t.
Proof. done. Qed.

Lemma irefs_insert dev inum t i ip ip' :
  t !! i = Some ip ->
  irefs dev inum (<[i := ip']> t) =
    irefs dev inum t - (if is_inode dev inum ip then i_ref ip else 0) + (if is_inode dev inum ip' then i_ref ip' else 0).
Proof.
  revert i. induction t as [|jp t IH]; intros [|i] Hi; [done..| |]; cbn in Hi.
  - injection Hi as ->. cbn [insert list_insert]. rewrite !irefs_cons. lia.
  - change (<[S i := ip']> (jp :: t)) with (jp :: <[i := ip']> t). rewrite !irefs_cons, (IH i) by done. lia.
Qed.

Lemma is_inode_spec dev inum ip : is_inode dev inum ip = true <-> i_dev ip = dev /\ i_inum ip = inum.
Proof. unfold is_inode. by rewrite andb_true_iff, !Z.eqb_eq. Qed.

Lemma iget_scan_spec t k dev inum e :
  match iget_scan t k dev inum e with
  | inl i => exists j ip, i = (k + j)%nat /\ t !! j = Some ip /\ 0 < i_ref ip /\ i_dev ip = dev /\ i_inum ip = inum
  | inr r =>
      (forall j ip, t !! j = Some ip -> ~ (0 < i_ref ip /\ i_dev ip = dev /\ i_inum ip = inum)) /\
      match r with
      | Some i => e = Some i \/ e = None /\ exists j ip, i = (k + j)%nat /\ t !! j = Some ip /\ i_ref ip = 0
      | None => e = None /\ forall j ip, t !! j = Some ip -> i_ref ip <> 0
      end
  end.
Proof.
  revert k e. induction t as [|ip t IH]; intros k e; cbn [iget_scan].
  { split; [intros j ip Hj; by rewrite lookup_nil in Hj|]. destruct e; [by left|]. split; [done|].
    intros j ip Hj. by rewrite lookup_nil in Hj. }
  destruct ((0 <? i_ref ip) && (i_dev ip =? dev) && (i_inum ip =? inum)) eqn:E.
  { apply andb_true_iff in E as [[E1%Z.ltb_lt E2%Z.eqb_eq]%andb_true_iff E3%Z.eqb_eq].
    exists 0%nat, ip. rewrite Nat.add_0_r. auto. }
  set (e' := match e with None => if i_ref ip =? 0 then Some k else None | Some _ => e end).
  specialize (IH (S k) e'). destruct (iget_scan t (S k) dev inum e') as [i|r].
  { destruct IH as (j & jp & -> & Hj & Hrest). exists (S j), jp. split; [lia|]. done. }
  destruct IH as [Hno Hr]. split.
  { intros [|j] jp Hj; [|by eapply Hno]. injection Hj as <-. intros (H1%Z.ltb_lt & H2%Z.eqb_eq & H3%Z.eqb_eq).
    by rewrite H1, H2, H3 in E. }
  destruct r as [i|].
  - unfold e' in Hr. destruct e as [x|]; [destruct Hr as [Hr|[? _]]; [by left|done]|].
    right. split; [done|]. destruct (Z.eqb_spec (i_ref ip) 0) as [Hz|].
    + destruct Hr as [[= <-]|[? _]]; [|done]. exists 0%nat, ip. rewrite Nat.add_0_r. auto.
    + destruct Hr as [?|(_ & j & jp & -> & Hj & Hz)]; [done|]. exists (S j), jp. split; [lia|auto].
  - destruct Hr as [He Hall]. unfold e' in He. destruct e as [x|]; [done|].
    destruct (Z.eqb_spec (i_ref ip) 0) as [|Hnz]; [done|]. split; [done|]. intros [|j] jp Hj; [by injection Hj as <-|eauto].
Qed.

(** What [iget] does to the table. *)
Definition iget_ref ip : inode := ip <| i_ref := i_ref ip + 1 |>.
Definition iget_new (dev inum : Z) ip : inode :=
  ip <| i_dev := dev |> <| i_inum := inum |> <| i_ref := 1 |> <| i_valid := false |>.

Lemma iget_ok dev inum s :
  L_itable ∉ held s -> itable_ok (itable s) ->
  (exists i ip, itable s !! i = Some ip /\ 0 < i_ref ip /\ i_dev ip = dev /\ i_inum ip = inum /\
     iget dev inum s = Ok i (s <| itable := <[i := iget_ref ip]> (itable s) |>)) \/
  ((forall j ip, itable s !! j = Some ip -> ~ (0 < i_ref ip /\ i_dev ip = dev /\ i_inum ip = inum)) /\
   (exists i ip, itable s !! i = Some ip /\ i_ref ip = 0 /\
      iget dev inum s = Ok i (s <| itable := <[i := iget_new dev inum ip]> (itable s) |>)) \/
   ((forall j ip, itable s !! j = Some ip -> i_ref ip <> 0) /\ iget dev inum s = Panic "iget: no inodes")).
Proof.
  intros Hl Hok. unfold iget. pose proof (iget_scan_spec (itable s) 0 dev inum None) as Hs.
  rewrite (bind_ok _ _ _ _ _ (acquire_ok _ s Hl)), bind_gets. rs.
  destruct (iget_scan (itable s) 0 dev inum None) as [i|[i|]].
  - left. destruct Hs as (j & ip & -> & Hj & Hrest). exists j, ip. split; [done|]. split_and!; try apply Hrest.
    unfold updinode. rewrite bind_modify. rs. erewrite bind_ok by (apply (release_ok _ (held s)); [by rs|done]).
    apply Ok_eq; [done|]. rewrite (alter_insert _ j _ ip Hj). st_eq s.
  - right. destruct Hs as [Hno [?|(_ & j & ip & -> & Hj & Hz)]]; [done|]. left. split; [done|]. exists j, ip.
    split; [done|]. split; [done|]. unfold updinode. rewrite bind_modify. rs.
    erewrite bind_ok by (apply (release_ok _ (held s)); [by rs|done]).
    apply Ok_eq; [done|]. rewrite (alter_insert _ j _ ip Hj). st_eq s.
  - right. right. destruct Hs as [Hno [_ Hall]]. done.
Qed.

(** The table with the reference count of an entry changed. *)
Lemma itable_ref t i ip n :
  itable_ok t -> t !! i = Some ip -> 0 < i_ref ip -> 0 <= n ->
  let t' := <[i := ip <| i_ref := n |>]> t in
  itable_ok t' /\
  forall dev inum, irefs dev inum t' = irefs dev inum t + (if is_inode dev inum ip then n - i_ref ip else 0).
Proof.
  intros [Hr Ho] Hi Hp Hn t'. split.
  - split.
    + intros j jp. unfold t'. rewrite list_lookup_insert_Some. intros [(<- & <- & _)|[_ Hj]]; [done|eauto].
    + intros j k jp kp. unfold t'. rewrite !list_lookup_insert_Some.
      intros [(<- & <- & _)|[Hnj Hj]] [(<- & <- & _)|[Hnk Hk]]; try done; rs; eauto.
  - intros dev inum. unfold t'. rewrite (irefs_insert _ _ _ _ ip) by done.
    change (is_inode dev inum (ip <| i_ref := n |>)) with (is_inode dev inum ip). rs. destruct (is_inode dev inum ip); lia.
Qed.

Lemma itable_new t i ip dev inum :
  itable_ok t -> t !! i = Some ip -> i_ref ip = 0 ->
  (forall j jp, t !! j = Some jp -> ~ (0 < i_ref jp /\ i_dev jp = dev /\ i_inum jp = inum)) ->
  let t' := <[i := iget_new dev inum ip]> t in
  itable_ok t' /\
  forall d n, irefs d n t' = irefs d n t + (if decide (d = dev /\ n = inum) then 1 else 0).
Proof.
  intros [Hr Ho] Hi Hz Hno t'. split.
  - split.
    + intros j jp. unfold t'. rewrite list_lookup_insert_Some. intros [(<- & <- & _)|[_ Hj]]; [done|eauto].
    + intros j k jp kp. unfold t'. rewrite !list_lookup_insert_Some.
      intros [(<- & <- & _)|[Hnj Hj]] [(<- & <- & _)|[Hnk Hk]]; unfold iget_new; rs; try done; eauto.
      * intros _ Hp E1 E2. exfalso. by apply (Hno k kp).
      * intros Hp _ E1 E2. exfalso. by apply (Hno j jp).
  - intros d n. unfold t'. rewrite (irefs_insert _ _ _ _ ip) by done. rewrite Hz.
    assert (is_inode d n (iget_new dev inum ip) = bool_decide (d = dev /\ n = inum)) as ->.
    { apply eq_bool_prop_intro. rewrite bool_decide_spec, Is_true_true, is_inode_spec. unfold iget_new. rs. naive_solver. }
    destruct (decide _) as [Hd|Hd]; [rewrite bool_decide_eq_true_2 by done|rewrite bool_decide_eq_false_2 by done];
      unfold iget_new; rs; destruct (is_inode d n ip); lia.
Qed.

End table.

Section refs.
Context {F : Fuel}.

(** [iput] of a reference that is not the last one of an inode without links. *)
Lemma iput_ok i ip s :
  L_itable ∉ held s -> itable s !! i = Some ip -> ~ (i_ref ip = 1 /\ i_valid ip = true /\ i_nlink ip = 0) ->
  iput i s = Ok tt (s <| itable := <[i := ip <| i_ref := i_ref ip - 1 |>]> (itable s) |>).
Proof.
  intros Hl Hi Hlast. assert ((i_ref ip =? 1) && i_valid ip && (i_nlink ip =? 0) = false) as El.
  { apply not_true_iff_false. intros [[E1%Z.eqb_eq E2]%andb_true_iff E3%Z.eqb_eq]%andb_true_iff. tauto. }
  unfold iput. run (acquire_ok _ s Hl). erewrite bind_ok by (apply (getinode_ok i ip); by rs). rewrite El. cbn [when].
  rewrite bind_ret. unfold updinode. rewrite bind_modify. rs.
  erewrite bind_ok by (apply (release_ok _ (held s)); [by rs|done]). rewrite (alter_insert _ i _ ip Hi).
  apply Ok_eq; [done|]. st_eq s.
Qed.

(** C33: The inode table counts references.  Each inode is in the table at most once;
    [iget] returns an entry for the inode asked for and adds one reference to it, and to
    no other inode, or stops the kernel when every entry is in use; [idup] adds a
    reference and [iput], unless it drops the last reference to an inode without links,
    takes one away. *)
Theorem inode_references s :
  L_itable ∉ held s -> itable_ok (itable s) ->
  (forall dev inum,
     (iget dev inum s = Panic "iget: no inodes" /\ forall j jp, itable s !! j = Some jp -> 0 < i_ref jp) \/
     (exists i ip s', iget dev inum s = Ok i s' /\ itable s' !! i = Some ip /\ 0 < i_ref ip /\
        i_dev ip = dev /\ i_inum ip = inum /\ itable_ok (itable s') /\
        forall d n, irefs d n (itable s') = irefs d n (itable s) + (if decide (d = dev /\ n = inum) then 1 else 0))) /\
  (forall i ip, itable s !! i = Some ip -> 0 < i_ref ip ->
     (exists s', idup i s = Ok i s' /\ itable_ok (itable s') /\
        forall d n, irefs d n (itable s') = irefs d n (itable s) + (if is_inode d n ip then 1 else 0)) /\
     (~ (i_ref ip = 1 /\ i_valid ip = true /\ i_nlink ip = 0) ->
      exists s', iput i s = Ok tt s' /\ itable_ok (itable s') /\
        forall d n, irefs d n (itable s') = irefs d n (itable s) - (if is_inode d n ip then 1 else 0))).
Proof.
  intros Hl Hok. split.
  - intros dev inum. destruct (iget_ok dev inum s Hl Hok) as [(i & ip & Hi & Hp & E1 & E2 & E)|[(Hno & i & ip & Hi & Hz & E)|[Hall E]]].
    + right. exists i, (iget_ref ip). eexists. split; [exact E|]. rs.
      split; [apply list_lookup_insert_eq; by eapply lookup_lt_Some|]. unfold iget_ref. rs. split; [lia|]. split; [done|]. split; [done|].
      destruct (itable_ref (itable s) i ip (i_ref ip + 1) Hok Hi Hp) as [Hok' Hr]; [lia|]. split; [done|].
      intros d n. rewrite Hr. destruct (is_inode d n ip) eqn:Ei.
      * apply is_inode_spec in Ei as [<- <-]. rewrite decide_True by done. lia.
      * rewrite decide_False; [lia|]. intros [-> ->]. apply not_true_iff_false in Ei. apply Ei, is_inode_spec. done.
    + right. exists i, (iget_new dev inum ip). eexists. split; [exact E|]. rs.
      split; [apply list_lookup_insert_eq; by eapply lookup_lt_Some|]. split; [done|]. split; [done|]. split; [done|].
      by apply itable_new.
    + left. split; [done|]. intros j jp Hj. pose proof (it_ref _ Hok j jp Hj). pose proof (Hall j jp Hj). lia.
  - intros i ip Hi Hp. split.
    + destruct (itable_ref (itable s) i ip (i_ref ip + 1) Hok Hi Hp) as [Hok' Hr]; [lia|].
      eexists. split.
      { unfold idup. run (acquire_ok _ s Hl). unfold updinode. rewrite bind_modify. rs.
        erewrite bind_ok by (apply (release_ok _ (held s)); [by rs|done]). rewrite (alter_insert _ i _ ip Hi). reflexivity. }
      rs. split; [done|]. intros d n. rewrite Hr. destruct (is_inode d n ip); lia.
    + intros Hlast. destruct (itable_ref (itable s) i ip (i_ref ip - 1) Hok Hi Hp) as [Hok' Hr]; [lia|].
      eexists. split; [by apply iput_ok|].
      rs. split; [done|]. intros d n. rewrite Hr. destruct (is_inode d n ip); lia.
Qed.

End refs.

Lemma inode_references_witness :
  let s := boot_state <| itable := [zero_inode <| i_dev := 1 |> <| i_inum := 5 |> <| i_ref := 2 |>; zero_inode] |> in
  exists i ip s', iget 1 5 s = Ok i s' /\ itable s' !! i = Some ip /\ irefs 1 5 (itable s') = 3.
Proof.
  set (t := [_; _]). set (s := boot_state <| itable := t |>).
  assert (L_itable ∉ held s) as Hl by apply not_elem_of_nil.
  assert (itable_ok (itable s)) as Hok.
  { split.
    - intros i ip Hi. destruct i as [|[|i]]; cbn in Hi; [injection Hi as <-; done..|done].
    - intros i j ip jp Hi Hj Hp Hq _ _. destruct i as [|[|i]], j as [|[|j]]; cbn in Hi, Hj; try done;
        [injection Hj as <-|injection Hi as <-]; done. }
  destruct (proj1 (inode_references (F := 0%nat) s Hl Hok) 1 5) as [[_ Hall]|(i & ip & s' & E & Hi & _ & _ & _ & _ & Hr)].
  - exfalso. pose proof (Hall 1%nat zero_inode eq_refl) as Hz. done.
  - exists i, ip, s'. split; [exact E|]. split; [exact Hi|]. rewrite Hr. reflexivity.
Defined.

(** ** Directories *)

Section dirs.
Context {F : Fuel} {L : Linker} (pid start : Z).
Implicit Types (s : kstate) (V : gmap Z (list Z)) (bl : list Z) (ip : inode) (name : list Z).

Notation fs_ok := (fs_ok pid start).

(** The entry at [off] is in use and has the name. *)
Definition has_name V ip name (off : Z) : Prop :=
  let de := file_bytes V ip off 16 in dirent_inum de <> 0 /\ namecmp name (dirent_name de) = 0.

Definition inum_at V ip (off : Z) : Z := dirent_inum (file_bytes V ip off 16).

(** The inode is a directory: a file of whole entries. *)
Record dir_ok V ip : Prop := {
  dr_file : file_ok start V ip;
  dr_type : i_type ip = T_DIR;
  dr_size : i_size ip mod DIRENT_SIZE = 0;
}.

(** What the scan of [dirlookup] finds from [off] on. *)
Definition scan_post V ip name (off : Z) (r : option (Z * Z)) : Prop :=
  match r with
  | Some (inum, o) =>
      off <= o < i_size ip /\ o mod DIRENT_SIZE = 0 /\ has_name V ip name o /\ inum = inum_at V ip o /\
      forall o', off <= o' < o -> o' mod DIRENT_SIZE = 0 -> ~ has_name V ip name o'
  | None => forall o', off <= o' < i_size ip -> o' mod DIRENT_SIZE = 0 -> ~ has_name V ip name o'
  end.

Lemma scan_next V ip name off r :
  0 <= off < i_size ip -> off mod DIRENT_SIZE = 0 -> ~ has_name V ip name off ->
  scan_post V ip name (off + DIRENT_SIZE) r -> scan_post V ip name off r.
Proof.
  intros Ho Hm Hno. change DIRENT_SIZE with 16 in *.
  assert (forall o', off <= o' -> o' mod 16 = 0 -> o' = off \/ off + 16 <= o') as Hnext.
  { intros o' Ho' Hm'. Z.div_mod_to_equations. lia. }
  destruct r as [[inum o]|]; cbn.
  - intros (H1 & H2 & H3 & H4 & H5). split; [lia|]. split; [done|]. split; [done|]. split; [done|].
    intros o' Ho' Hm'. destruct (Hnext o') as [->|?]; [lia|done|done|]. apply H5; [lia|done].
  - intros H5 o' Ho' Hm'. destruct (Hnext o') as [->|?]; [lia|done|done|]. apply H5; [lia|done].
Qed.

(** [readi] of one entry. *)
Lemma read_dirent k m bl s V dp ip off :
  fs_ok k (S m) bl s V ∅ -> itable s !! dp = Some ip -> dir_ok V ip ->
  0 <= off < i_size ip -> off mod DIRENT_SIZE = 0 ->
  exists s', readi dp D_local off DIRENT_SIZE s = Ok (DIRENT_SIZE, file_bytes V ip off 16) s' /\
    fs_step s s' /\ fs_ok k (S m) bl s' V ∅.
Proof.
  intros HF Hi [Hf _ Hs] Ho Hm. pose proof (fl_size _ _ _ Hf) as Hmax. change (MAXFILE * BSIZE) with 274432 in Hmax.
  change DIRENT_SIZE with 16 in *.
  destruct (readi_ok pid start k m bl s V dp ip off 16) as (s' & E & HS & HF'); try done; try lia.
  assert (read_len ip off 16 = 16) as Hl.
  { unfold read_len. destruct (Z.ltb_spec (i_size ip) off); [lia|]. Z.div_mod_to_equations. lia. }
  rewrite Hl in E. exists s'. done.
Qed.

Lemma dirlookup_loop_ok fuel k m bl s V dp ip name off :
  fs_ok k (S m) bl s V ∅ -> itable s !! dp = Some ip -> dir_ok V ip ->
  0 <= off <= i_size ip -> off mod DIRENT_SIZE = 0 -> i_size ip - off < DIRENT_SIZE * Z.of_nat fuel ->
  exists r s', dirlookup_loop fuel dp name off s = Ok r s' /\ fs_step s s' /\ fs_ok k (S m) bl s' V ∅ /\
    scan_post V ip name off r.
Proof.
  revert s off. induction fuel as [|fuel IH]; intros s off HF Hi Hd Ho Hm Hfuel;
    [change DIRENT_SIZE with 16 in *; lia|].
  cbn [dirlookup_loop]. run (getinode_ok dp ip s Hi). destruct (Z.ltb_spec off (i_size ip)) as [Hlt|Hge].
  2: { exists None, s. split; [done|]. split; [apply fs_refl|]. split; [done|]. intros o' Ho'. lia. }
  destruct (read_dirent k m bl s V dp ip off) as (s1 & E1 & S1 & HF1); try done; [lia|].
  run E1. cbn [fst snd]. rewrite bind_panic_if by done. set (de := file_bytes V ip off 16).
  pose proof (fl_size _ _ _ (dr_file _ _ Hd)) as Hmax. change (MAXFILE * BSIZE) with 274432 in Hmax.
  assert (~ has_name V ip name off ->
          exists r s', dirlookup_loop fuel dp name (u32 (off + DIRENT_SIZE)) s1 = Ok r s' /\ fs_step s s' /\
            fs_ok k (S m) bl s' V ∅ /\ scan_post V ip name off r) as Hnext.
  { intros Hno. pose proof (dr_size _ _ Hd) as Hsz.
    destruct (IH s1 (off + DIRENT_SIZE)) as (r & s2 & E2 & S2 & HF2 & Hr);
      try done; try (change DIRENT_SIZE with 16 in *; Z.div_mod_to_equations; lia).
    { by rewrite (fs_itable S1). }
    exists r, s2. rewrite u32_small by (change DIRENT_SIZE with 16; lia). split; [done|]. split; [by eapply fs_trans|]. split; [done|].
    apply scan_next; try done. lia. }
  destruct (Z.eqb_spec (dirent_inum de) 0) as [Hz|Hnz].
  { apply Hnext. by intros [? _]. }
  destruct (Z.eqb_spec (namecmp name (dirent_name de)) 0) as [Hn|Hn].
  2: { apply Hnext. by intros [_ ?]. }
  exists (Some (dirent_inum de, off)), s1. split; [done|]. split; [done|]. split; [done|].
  split; [lia|]. split; [done|]. split; [done|]. split; [done|]. intros o' Ho'. lia.
Qed.

(** [dirlookup], up to its call of [iget]. *)
Lemma dirlookup_scan k m bl s V dp ip name :
  fs_ok k (S m) bl s V ∅ -> itable s !! dp = Some ip -> dir_ok V ip ->
  exists r s', fs_step s s' /\ fs_ok k (S m) bl s' V ∅ /\ scan_post V ip name 0 r /\
    dirlookup dp name s = match r with
                          | Some (inum, off) => bind (iget ROOTDEV inum) (fun i => ret (Some (i, off))) s'
                          | None => Ok None s'
                          end.
Proof.
  intros HF Hi Hd. pose proof Hd as [Hf Ht Hs]. pose proof (fl_size _ _ _ Hf) as Hmax.
  destruct (dirlookup_loop_ok (Z.to_nat (i_size ip / DIRENT_SIZE + 1)) k m bl s V dp ip name 0) as (r & s' & E & HS & HF' & Hr); try done.
  { lia. }
  { change DIRENT_SIZE with 16 in *. Z.div_mod_to_equations. lia. }
  exists r, s'. split; [done|]. split; [done|]. split; [done|].
  unfold dirlookup. run (getinode_ok dp ip s Hi). rewrite Ht. rewrite bind_panic_if by done. run E.
  rewrite (fl_dev _ _ _ Hf). by destruct r as [[inum off]|].
Qed.

(** The search of [dirlink] for a free entry. *)
Lemma empty_dirent_ok fuel k m bl s V dp ip off :
  fs_ok k (S m) bl s V ∅ -> itable s !! dp = Some ip -> dir_ok V ip ->
  0 <= off <= i_size ip -> off mod DIRENT_SIZE = 0 -> i_size ip - off < DIRENT_SIZE * Z.of_nat fuel ->
  exists o s', empty_dirent fuel dp off s = Ok o s' /\ fs_step s s' /\ fs_ok k (S m) bl s' V ∅ /\
    off <= o <= i_size ip /\ o mod DIRENT_SIZE = 0 /\ (o < i_size ip -> inum_at V ip o = 0).
Proof.
  revert s off. induction fuel as [|fuel IH]; intros s off HF Hi Hd Ho Hm Hfuel;
    [change DIRENT_SIZE with 16 in *; lia|].
  cbn [empty_dirent]. run (getinode_ok dp ip s Hi). destruct (Z.ltb_spec off (i_size ip)) as [Hlt|Hge].
  2: { exists off, s. split; [done|]. split; [apply fs_refl|]. split; [done|]. split; [lia|]. split; [done|]. lia. }
  destruct (read_dirent k m bl s V dp ip off) as (s1 & E1 & S1 & HF1); try done; [lia|].
  run E1. cbn [fst snd]. rewrite bind_panic_if by done.
  destruct (Z.eqb_spec (dirent_inum (file_bytes V ip off 16)) 0) as [Hz|Hnz].
  { exists off, s1. split; [done|]. split; [done|]. split; [done|]. split; [lia|]. done. }
  pose proof (dr_size _ _ Hd) as Hsz.
  destruct (IH s1 (off + DIRENT_SIZE)) as (o & s2 & E2 & S2 & HF2 & Hr);
    try done; try (change DIRENT_SIZE with 16 in *; Z.div_mod_to_equations; lia).
  { by rewrite (fs_itable S1). }
  exists o, s2. split; [done|]. split; [by eapply fs_trans|]. split; [done|]. change DIRENT_SIZE with 16 in *. split; [lia|]. tauto.
Qed.

(** ** [dirlink] *)

(** A directory entry as [dirlink] writes it. *)
Definition dirent (name : list Z) (inum : Z) : list Z := le_encode 2 inum ++ strncpy name DIRSIZ.

Lemma length_dirent name inum : length (dirent name inum) = 16%nat.
Proof. unfold dirent. by rewrite length_app, length_le_encode, length_strncpy. Qed.

Lemma dirent_fields name inum :
  0 <= inum < 2 ^ 16 -> dirent_inum (dirent name inum) = inum /\ dirent_name (dirent name inum) = strncpy name DIRSIZ.
Proof.
  intros Hi. unfold dirent_inum, dirent_name, dirent, slice. split.
  - rewrite drop_0, take_app_length' by (by rewrite length_le_encode). by apply le_decode_encode_small.
  - rewrite drop_app_length' by (by rewrite length_le_encode). apply take_ge. by rewrite length_strncpy.
Qed.

Lemma namecmp_strncpy name : namecmp name (strncpy name DIRSIZ) = 0.
Proof. unfold namecmp. rewrite strncmp_spec, strncpy_cstring. by rewrite take_take, Nat.min_id. Qed.

(** An entry that was written reads back, and the others are as before. *)
Lemma file_bytes_write V V' ip ip' off l o :
  (forall o, 0 <= o < MAXFILE * BSIZE -> file_byte V' ip' o =
     if decide (off <= o < off + 16) then default 0 (l !! Z.to_nat (o - off)) else file_byte V ip o) ->
  length l = 16%nat -> 0 <= off -> off mod DIRENT_SIZE = 0 -> 0 <= o -> o mod DIRENT_SIZE = 0 -> o + 16 <= MAXFILE * BSIZE ->
  file_bytes V' ip' o 16 = if decide (o = off) then l else file_bytes V ip o 16.
Proof.
  intros Hb Hl Hoff Hm Ho Hmo Hmax. change DIRENT_SIZE with 16 in *. unfold file_bytes.
  destruct (decide (o = off)) as [->|Hne].
  - apply list_eq. intros j. destruct (decide (j < 16)%nat) as [Hj|Hj].
    + rewrite list_lookup_fmap, lookup_seq_lt by done. cbn [fmap option_fmap option_map].
      rewrite Hb, decide_True by lia. destruct (lookup_lt_is_Some_2 l j) as [x Hx]; [lia|].
      replace (Z.to_nat (off + Z.of_nat (0 + j) - off)) with j by lia. by rewrite Hx.
    + rewrite !lookup_ge_None_2; [done|lia|rewrite length_map, length_seq; lia].
  - apply map_ext_in. intros j Hj%in_seq. rewrite Hb by lia. rewrite decide_False; [done|]. Z.div_mod_to_equations. lia.
Qed.

Lemma dirlink_ok k m bl s V dp ip name inum :
  fs_ok (7 + k) (2 + m) bl s V ∅ -> inodes_ok start (sb s) V -> bitmap_ok start (sb s) V -> imap_ok start (sb s) V ip ->
  dir_ok V ip -> itable s !! dp = Some ip -> 0 <= i_inum ip < sb_ninodes (sb s) -> dinode_ok (dinode_of ip) ->
  scan_post V ip name 0 None -> 0 < inum < 2 ^ 16 -> i_size ip + DIRENT_SIZE <= MAXFILE * BSIZE ->
  exists r s' bl' V' ip', dirlink dp name inum s = Ok r s' /\ fs_ok k (2 + m) bl' s' V' ∅ /\
    fs_step (s <| itable := <[dp := ip']> (itable s) |>) s' /\
    dir_ok V' ip' /\
    (r = -1 /\ disk_full (sb s) V' /\ i_size ip' = i_size ip /\
       (forall o, 0 <= o < i_size ip -> o mod DIRENT_SIZE = 0 -> file_bytes V' ip' o 16 = file_bytes V ip o 16) \/
     r = 0 /\ exists off, scan_post V' ip' name 0 (Some (inum, off)) /\ i_size ip' = Z.max (i_size ip) (off + DIRENT_SIZE) /\
       forall o, 0 <= o < i_size ip -> o mod DIRENT_SIZE = 0 -> o <> off -> file_bytes V' ip' o 16 = file_bytes V ip o 16).
Proof.
  intros HF Hin Hbm Him Hd Hi Hinum Hdi Hno Hr Hroom. pose proof Hd as [Hf Ht Hs].
  pose proof (fl_size _ _ _ Hf) as Hmax. change (MAXFILE * BSIZE) with 274432 in *.
  destruct (dirlookup_scan (7 + k) (1 + m) bl s V dp ip name) as (r & s1 & S1 & HF1 & Hsc & E1); try done.
  destruct r as [[n o]|]; [destruct Hsc as (Ho & Hm & Hn & _); by destruct (Hno o)|].
  unfold dirlink. run E1. pose proof (fs_itable S1) as T1. pose proof (fs_sb S1) as B1.
  assert (itable s1 !! dp = Some ip) as Hi1 by (by rewrite T1). run (getinode_ok dp ip s1 Hi1).
  destruct (empty_dirent_ok (Z.to_nat (i_size ip / DIRENT_SIZE + 1)) (7 + k) (1 + m) bl s1 V dp ip 0)
    as (off & s2 & E2 & S2 & HF2 & Hoff & Hmo & Hfree); try done; [lia|change DIRENT_SIZE with 16 in *; Z.div_mod_to_equations; lia|].
  run E2. pose proof (fs_itable S2) as T2. pose proof (fs_sb S2) as B2. fold (dirent name inum).
  pose proof (length_dirent name inum) as Hld.
  destruct (writei_ok pid start 1 k m bl s2 V dp ip (dirent name inum) off)
    as (w & s3 & bl3 & V3 & ip3 & E3 & Hw & Hfull & S3 & HF3 & Hbm3 & Him3 & Hf3 & Hsz3 & (addrs & Eip3) & Hd3 & Hb3);
    rewrite ?B2, ?B1, ?T2, ?T1, ?Hld; try done; change (MAXFILE * BSIZE) with 274432; change DIRENT_SIZE with 16 in *; try lia.
  { change BSIZE with 1024. Z.div_mod_to_equations. lia. }
  rewrite Hld in *. change (Z.of_nat 16) with 16 in *. run E3.
  exists (if negb (w =? 16) then -1 else 0), s3, bl3, V3, ip3. split; [by destruct (negb (w =? 16))|]. split; [done|].
  split; [eapply fs_trans; [|exact S3]; rewrite T2, T1; apply fs_set_itable; by eapply fs_trans|].
  assert (dir_ok V3 ip3 \/ w <> 0 /\ w <> 16) as [Hd3' | [Hw0 Hw16]].
  { destruct (decide (w = 0)) as [-> |]; [left|destruct (decide (w = 16)) as [-> |]; [left|by right]];
      (split; [done|by rewrite Eip3|rewrite Hsz3; change DIRENT_SIZE with 16; Z.div_mod_to_equations; lia]). }
  2: { exfalso. destruct Hfull as [_ [?|Hm]]; [lia|done|]. change BSIZE with 1024 in Hm. Z.div_mod_to_equations. lia. }
  split; [done|]. destruct (Z.eqb_spec w 16) as [->|Hw16]; [right|left]; (split; [done|]).
  2: { rewrite B2, B1 in Hfull. destruct Hfull as [Hfull Hend]; [lia|].
       assert (w = 0) as -> by (destruct Hend as [?|Hm]; [done|]; change BSIZE with 1024 in Hm; Z.div_mod_to_equations; lia).
       split; [done|]. split; [lia|]. intros o Ho Hom. apply map_ext_in. intros j Hj%in_seq.
       rewrite Hb3 by (change DIRENT_SIZE with 16 in *; change (MAXFILE * BSIZE) with 274432; Z.div_mod_to_equations; lia). by rewrite decide_False by lia. }
  assert (forall o, 0 <= o -> o mod 16 = 0 -> o + 16 <= 274432 ->
            file_bytes V3 ip3 o 16 = if decide (o = off) then dirent name inum else file_bytes V ip o 16) as Hent.
  { intros o Ho Hom Hox. apply (file_bytes_write V V3 ip ip3 off); try done. lia. }
  exists off. split; [|split; [done|]].
  - destruct (dirent_fields name inum) as [Hdn1 Hdn2]; [lia|]. split; [lia|]. split; [done|].
    split; [|split].
    + unfold has_name. rewrite Hent, decide_True by lia. rewrite Hdn1, Hdn2. split; [lia|apply namecmp_strncpy].
    + unfold inum_at. by rewrite Hent, decide_True by lia.
    + intros o' Ho' Hm'. change DIRENT_SIZE with 16 in Hm'. unfold has_name. rewrite Hent, decide_False by lia. apply Hno; [lia|done].
  - intros o Ho Hm Hne. by rewrite Hent, decide_False by lia.
Qed.

(** [dirlookup] finds names.  In a directory it returns an entry with the name, the
    first one, as its offset and a reference to its inode; or nothing, and then no entry
    in use has the name.  The contents of the blocks and the disk stay as they are. *)
Lemma dirlookup_finds k m bl s V dp ip name :
  fs_ok k (S m) bl s V ∅ -> itable s !! dp = Some ip -> dir_ok V ip ->
  L_itable ∉ held s -> itable_ok (itable s) -> (exists j jp, itable s !! j = Some jp /\ i_ref jp = 0) ->
  exists r s', dirlookup dp name s = Ok r s' /\ disk s' = disk s /\ fs_ok k (S m) bl s' V ∅ /\
    match r with
    | None => itable s' = itable s /\
        forall o, 0 <= o < i_size ip -> o mod DIRENT_SIZE = 0 -> ~ has_name V ip name o
    | Some (i, off) =>
        0 <= off < i_size ip /\ off mod DIRENT_SIZE = 0 /\ has_name V ip name off /\
        (forall o, 0 <= o < off -> o mod DIRENT_SIZE = 0 -> ~ has_name V ip name o) /\
        itable_ok (itable s') /\
        exists jp, itable s' !! i = Some jp /\ 0 < i_ref jp /\ i_dev jp = ROOTDEV /\ i_inum jp = inum_at V ip off
    end.
Proof.
  intros HF Hi Hd Hl Hok (z & zp & Hz & Hz0).
  destruct (dirlookup_scan k m bl s V dp ip name) as (r & s1 & S1 & HF1 & Hr & E); try done.
  pose proof (fs_itable S1) as T1. pose proof (fs_held S1) as H1.
  destruct r as [[inum off]|]; [|exists None, s1; split; [done|]; split; [by apply fs_disk|]; done].
  destruct Hr as (Ho & Hm & Hn & -> & Hfirst). rewrite E.
  assert (exists i ip', iget ROOTDEV (inum_at V ip off) s1 = Ok i (s1 <| itable := <[i := ip']> (itable s1) |>) /\
            (i < length (itable s1))%nat /\ itable_ok (<[i := ip']> (itable s1)) /\
            0 < i_ref ip' /\ i_dev ip' = ROOTDEV /\ i_inum ip' = inum_at V ip off) as (i & ip' & Eg & Hlt & Hok' & Hip').
  { destruct (iget_ok ROOTDEV (inum_at V ip off) s1) as [(i & jp & Hj & Hp & E1 & E2 & Eg)|[(Hno & i & jp & Hj & Hz' & Eg)|[Hall _]]].
    - by rewrite H1.
    - by rewrite T1.
    - rewrite T1 in Hj |- *. exists i, (iget_ref jp). rewrite T1 in Eg. split; [done|]. split; [by eapply lookup_lt_Some|].
      destruct (itable_ref (itable s) i jp (i_ref jp + 1) Hok Hj Hp) as [Hok' _]; [lia|]. unfold iget_ref. rs. split; [done|]. split; [lia|done].
    - rewrite T1 in Hno, Hj |- *. exists i, (iget_new ROOTDEV (inum_at V ip off) jp). rewrite T1 in Eg. split; [done|].
      split; [by eapply lookup_lt_Some|]. by destruct (itable_new (itable s) i jp ROOTDEV (inum_at V ip off) Hok Hj Hz' Hno) as [Hok' _].
    - exfalso. rewrite T1 in Hall. by apply (Hall z zp). }
  run Eg. eexists (Some (i, off)), _. split; [done|]. rs. split; [by apply fs_disk|]. split; [by apply fo_itable|].
  split; [done|]. split; [done|]. split; [done|]. split; [done|]. split; [done|].
  exists ip'. split; [by apply list_lookup_insert_eq|done].
Qed.


End dirs.

(** ** Names in the small file system *)

Definition dir_table : list inode := [small_root; zero_inode].
Definition dir_fs : kstate := small_fs <| itable := dir_table |>.

Lemma dir_fs_ok k m : (k + m <= NBUF)%nat -> fs_ok 0 2 k m [] dir_fs small_disk ∅.
Proof. intros Hkm. apply fo_itable. by apply small_fs_ok. Qed.

Lemma small_root_dir : dir_ok 2 small_disk small_root.
Proof. split; [apply small_root_file|reflexivity|reflexivity]. Qed.

Lemma dir_table_ok : itable_ok dir_table.
Proof.
  split.
  - intros i ip Hi. destruct i as [|[|i]]; cbn in Hi; [injection Hi as <-; done..|done].
  - intros i j ip jp Hi Hj Hp Hq _ _. destruct i as [|[|i]], j as [|[|j]]; cbn in Hi, Hj; try done;
      [injection Hj as <-|injection Hi as <-]; done.
Qed.

