(* ===== verification/Path.v ===== *)
(** Path names (kernel/fs.c): what [namex] finds, as a walk through the tree of directories. *)

From stdpp Require Import prelude gmap strings.
From Stdlib Require Import ZArith Lia Ascii.
From S2P Require Import Prelude Bytes Params State Spinlock CString Sched Sleeplock Cache Log Recovery Txn Fs Block Inode Content Dir.

Local Open Scope Z_scope.
Local Open Scope kernel_scope.

(** ** The names of a path *)

Fixpoint split_slash (l : list Z) : list (list Z) :=
  match l with
  | [] => [[]]
  | c :: l' =>
      if c =? ch "/" then [] :: split_slash l'
      else match split_slash l' with w :: ws => (c :: w) :: ws | [] => [[c]] end
  end.

(** The names between the slashes, each cut at [DIRSIZ]. *)
Definition path_names (path : list Z) : list (list Z) :=
  map (take DIRSIZ) (filter (fun w => w <> []) (split_slash path)).

Lemma names_slash p : path_names (ch "/" :: p) = path_names p.
Proof. done. Qed.

Lemma names_skip p : path_names (skip_slashes p) = path_names p.
Proof.
  induction p as [|c p IH]; [done|]. cbn [skip_slashes]. destruct (Z.eqb_spec c (ch "/")) as [->|]; [|done].
  by rewrite names_slash.
Qed.

Lemma split_first p :
  0 ∉ p -> split_slash p = elem_chars p :: match drop (length (elem_chars p)) p with [] => [] | _ :: r => split_slash r end.
Proof.
  induction p as [|c p IH]; intros H0; [done|]. apply not_elem_of_cons in H0 as [Hc H0]. cbn [split_slash elem_chars].
  destruct (Z.eqb_spec c (ch "/")) as [->|]; [done|]. rewrite (proj2 (Z.eqb_neq c 0)) by done. cbn [orb length drop].
  by rewrite IH.
Qed.

Lemma skip_slashes_cases p :
  skip_slashes p = [] \/ exists c r, skip_slashes p = c :: r /\ c <> ch "/".
Proof.
  induction p as [|c p IH]; [by left|]. cbn [skip_slashes]. destruct (Z.eqb_spec c (ch "/")) as [->|Hne]; [done|].
  right. by exists c, p.
Qed.

Lemma skip_slashes_suffix p : skip_slashes p `suffix_of` p.
Proof.
  induction p as [|c p IH]; [done|]. cbn [skip_slashes]. destruct (_ =? _); [|done]. by apply suffix_cons_r.
Qed.

Lemma suffix_free (p q : list Z) x : p `suffix_of` q -> x ∉ q -> x ∉ p.
Proof. intros [r ->] H. apply not_elem_of_app in H. tauto. Qed.

Lemma after_elem p c r : drop (length (elem_chars p)) p = c :: r -> c = ch "/" \/ c = 0.
Proof.
  induction p as [|d p IH]; [done|]. cbn [elem_chars]. destruct ((d =? ch "/") || (d =? 0)) eqn:E; cbn [length drop]; [|done].
  intros [= -> ->]. by apply orb_true_iff in E as [E%Z.eqb_eq|E%Z.eqb_eq]; [left|right].
Qed.

(** [skipelem] takes the names one by one. *)
Lemma skipelem_names p :
  0 ∉ p ->
  match skipelem p with
  | None => path_names p = []
  | Some (p', n) => path_names p = n :: path_names p' /\ 0 ∉ p' /\ (length p' < length p)%nat
  end.
Proof.
  intros H0. unfold skipelem. rewrite <- (names_skip p). pose proof (skip_slashes_suffix p) as Hsuf.
  pose proof (suffix_free _ _ _ Hsuf H0) as H0'. apply suffix_length in Hsuf.
  destruct (skip_slashes_cases p) as [E|(c & r & E & Hc)]; rewrite E in *; [done|].
  pose proof H0' as [Hc0 Hr0]%not_elem_of_cons. cbn [char_at hd]. rewrite (proj2 (Z.eqb_neq c 0)) by done.
  set (q := c :: r) in *. set (rest := drop (length (elem_chars q)) q).
  assert (Hq : elem_chars q <> []).
  { unfold q. cbn [elem_chars]. rewrite (proj2 (Z.eqb_neq c (ch "/"))), (proj2 (Z.eqb_neq c 0)) by done. done. }
  assert (Hrest : 0 ∉ rest) by (apply (suffix_free _ q); [apply suffix_drop|done]).
  split_and!.
  - rewrite names_skip. unfold path_names at 1. rewrite split_first by done. fold rest. rewrite filter_cons_True by done.
    cbn [map]. f_equal. destruct rest as [|c' r'] eqn:Er; [done|].
    destruct (after_elem q c' r') as [->| ->]; [done|by rewrite names_slash|]. by apply not_elem_of_cons in Hrest as [? _].
  - by apply (suffix_free _ rest); [apply skip_slashes_suffix|].
  - pose proof (suffix_length _ _ (skip_slashes_suffix rest)) as Hs.
    assert (Hl : (length rest = length q - length (elem_chars q))%nat) by apply length_drop.
    assert (0 < length (elem_chars q))%nat by (destruct (elem_chars q); [done|cbn; lia]). assert (length q = S (length r)) by done. lia.
Qed.

(** ** Directories as maps from names to inodes *)

(** An on-disk inode as [ilock] has it in memory. *)
Definition view (j : Z) (d : dinode) : inode :=
  load_dinode d (zero_inode <| i_dev := ROOTDEV |> <| i_inum := j |>).

Lemma file_bytes_addrs V ip ip' off n : i_addrs ip = i_addrs ip' -> file_bytes V ip off n = file_bytes V ip' off n.
Proof.
  intros E. unfold file_bytes. apply map_ext. intros k. unfold file_byte.
  assert (Ef : forall bn, faddr V ip bn = faddr V ip' bn) by (intros bn; unfold faddr, addr_of; by rewrite E).
  by rewrite Ef.
Qed.

#[export] Instance has_name_dec V ip name off : Decision (has_name V ip name off).
Proof. unfold has_name. apply _. Defined.

Definition dir_offs (ip : inode) : list Z := map (fun k => k * DIRENT_SIZE) (seqZ 0 (i_size ip / DIRENT_SIZE)).

(** The inode that the directory has for a name. *)
Definition dir_find (V : gmap Z (list Z)) (ip : inode) (name : list Z) : option Z :=
  match list_find (has_name V ip name) (dir_offs ip) with
  | Some (_, off) => Some (inum_at V ip off)
  | None => None
  end.

Lemma dir_offs_at ip k :
  0 <= k < i_size ip / DIRENT_SIZE -> dir_offs ip !! Z.to_nat k = Some (k * DIRENT_SIZE).
Proof.
  intros Hk. unfold dir_offs. rewrite list_lookup_fmap, lookup_seqZ_lt by lia. cbn. f_equal. f_equal. lia.
Qed.

Lemma elem_dir_offs ip off :
  off ∈ dir_offs ip -> 0 <= off /\ off mod DIRENT_SIZE = 0 /\ off < i_size ip.
Proof.
  unfold dir_offs. change DIRENT_SIZE with 16. intros (k & -> & Hk)%list_elem_of_fmap. apply elem_of_seqZ in Hk.
  Z.div_mod_to_equations. lia.
Qed.

Lemma scan_find V ip name r :
  i_size ip mod DIRENT_SIZE = 0 -> scan_post V ip name 0 r -> dir_find V ip name = fst <$> r.
Proof.
  intros Hs Hr. unfold dir_find. destruct r as [[inum o]|].
  - destruct Hr as (Ho & Hm & Hn & -> & Hfirst).
    assert (E : list_find (has_name V ip name) (dir_offs ip) = Some (Z.to_nat (o / DIRENT_SIZE), o)); [|by rewrite E].
    change DIRENT_SIZE with 16 in *. apply list_find_Some. split_and!; [|done|].
    + rewrite dir_offs_at; [f_equal|]; change DIRENT_SIZE with 16; Z.div_mod_to_equations; lia.
    + intros j y Hj Hlt. pose proof (lookup_lt_Some _ _ _ Hj) as Hjl. unfold dir_offs in Hjl. rewrite length_map, length_seqZ in Hjl.
      change DIRENT_SIZE with 16 in Hjl.
      rewrite <- (Nat2Z.id j), dir_offs_at in Hj by (change DIRENT_SIZE with 16; lia). injection Hj as <-. change DIRENT_SIZE with 16.
      apply Hfirst; [|apply Z.mod_mul; lia]. Z.div_mod_to_equations. lia.
  - assert (E : list_find (has_name V ip name) (dir_offs ip) = None); [|by rewrite E].
    apply list_find_None, Forall_forall. intros off Hoff. apply elem_dir_offs in Hoff. apply Hr; [lia|tauto].
Qed.

(** The walk: [None] where a name is missing or not looked up in a directory. *)
Fixpoint resolve (sbl : superblock) (V : gmap Z (list Z)) (j : Z) (names : list (list Z)) : option Z :=
  match names with
  | [] => Some j
  | n :: rest =>
      d ← dinode_at sbl V j;
      if di_type d =? T_DIR then j' ← dir_find V (view j d) n; resolve sbl V j' rest else None
  end.

(** ** The inode table *)

(** The entries of the table that are free. *)
Definition nfree (t : list inode) : Z := foldr (fun ip n => (if i_ref ip =? 0 then 1 else 0) + n) 0 t.

Lemma nfree_cons ip t : nfree (ip :: t) = (if i_ref ip =? 0 then 1 else 0) + nfree t.
Proof. done. Qed.

Lemma nfree_nonneg t : 0 <= nfree t.
Proof. induction t as [|ip t IH]; [done|]. rewrite nfree_cons. destruct (_ =? _); lia. Qed.

Lemma nfree_insert t i ip ip' :
  t !! i = Some ip ->
  nfree (<[i := ip']> t) = nfree t - (if i_ref ip =? 0 then 1 else 0) + (if i_ref ip' =? 0 then 1 else 0).
Proof.
  revert i. induction t as [|jp t IH]; intros [|i] Hi; [done..| |]; cbn in Hi.
  - injection Hi as ->. cbn [insert list_insert]. rewrite !nfree_cons. lia.
  - cbn [insert list_insert]. rewrite !nfree_cons. change (list_insert i ip' t) with (<[i := ip']> t). rewrite IH by done. lia.
Qed.

Lemma nfree_pos t : 1 <= nfree t -> exists i ip, t !! i = Some ip /\ i_ref ip = 0.
Proof.
  induction t as [|ip t IH]; [cbn; lia|]. rewrite nfree_cons. destruct (Z.eqb_spec (i_ref ip) 0) as [E|].
  - intros _. by exists 0%nat, ip.
  - intros H. destruct IH as (i & jp & Hi & E); [lia|]. by exists (S i), jp.
Qed.

Section walk.
Context {F : Fuel} {L : Linker} (pid start : Z) (sbl : superblock).
Implicit Types (s : kstate) (V : gmap Z (list Z)) (bl : list Z) (ip : inode) (t : list inode) (name : list Z).

Notation fs_ok := (fs_ok pid start).

(** The inode [j] has links, and if it is a directory its entries name inodes. *)
Record inode_wf V (j : Z) (d : dinode) : Prop := {
  iw_links : di_nlink d <> 0;
  iw_dir : di_type d = T_DIR -> dir_ok start V (view j d);
  iw_entries : di_type d = T_DIR -> forall off, 0 <= off < di_size d -> off mod DIRENT_SIZE = 0 ->
    let n := inum_at V (view j d) off in
    n <> 0 -> 0 < n < sb_ninodes sbl /\ exists d', dinode_at sbl V n = Some d' /\ di_type d' <> 0;
}.

Definition tree_ok V : Prop :=
  forall j d, 0 < j < sb_ninodes sbl -> dinode_at sbl V j = Some d -> di_type d <> 0 -> inode_wf V j d.

(** The inode [n] is in use. *)
Definition inode_used V (n : Z) : Prop :=
  0 < n < sb_ninodes sbl /\ exists d, dinode_at sbl V n = Some d /\ di_type d <> 0.

(** An entry that is in use has an inode that is, and if valid what the disk has; only [lk] may be
    locked. *)
Record table_ok V (lk : option nat) t : Prop := {
  tb_once : itable_ok t;
  tb_entry : forall i ip, t !! i = Some ip -> 0 < i_ref ip ->
    i_dev ip = ROOTDEV /\ inode_used V (i_inum ip) /\
    (i_valid ip = true -> dinode_at sbl V (i_inum ip) = Some (dinode_of ip));
  tb_lock : forall i ip, t !! i = Some ip -> lk <> Some i -> sl_locked (i_lock ip) = false;
}.

Lemma loaded_valid ip : i_valid ip = true -> loaded pid (dinode_of ip) ip = ip <| i_lock := mkSleeplock true pid |>.
Proof. unfold loaded, load_dinode, dinode_of. destruct ip; cbn. by intros ->. Qed.

(** [ilock], whether or not the entry is valid. *)
Lemma ilock_any k m bl s V i ip d :
  fs_ok k (S m) bl s V ∅ -> inodes_ok start (sb s) V -> sb s = sbl -> table_ok V None (itable s) -> itable s !! i = Some ip ->
  0 < i_ref ip -> dinode_at sbl V (i_inum ip) = Some d ->
  exists s', ilock i s = Ok tt s' /\ fs_step (s <| itable := <[i := loaded pid d ip]> (itable s) |>) s' /\
    fs_ok k (S m) bl s' V ∅.
Proof.
  intros HF Hin Hsb Ht Hi Hr Hd. destruct (tb_entry _ _ _ Ht i ip Hi Hr) as (Hdev & (Hrg & d' & Hd' & Hty) & Hval).
  pose proof (tb_lock _ _ _ Ht i ip Hi ltac:(done)) as Hlk. rewrite Hd in Hd'. injection Hd' as <-.
  destruct (i_valid ip) eqn:Ev.
  2: { eapply ilock_ok; try done; rewrite ?Hsb; try done; lia. }
  specialize (Hval eq_refl). rewrite Hd in Hval. injection Hval as ->. rewrite (loaded_valid ip Ev).
  pose proof (fo_cache _ _ _ _ _ _ _ _ HF) as [HC HE]. destruct (env_running _ _ HE) as (p & pr & Hp & Hpr & Hpid).
  unfold ilock. run (getinode_ok i ip s Hi). rewrite bind_panic_if by (apply Z.ltb_ge; lia).
  erewrite bind_ok by (apply (acquiresleep_ok (SL_inode i) (i_lock ip) p pr); [cbn; by rewrite Hi|done|by apply quiet_sl, HE|done|done]).
  cbn [set_sl]. rewrite (alter_insert _ i (itable s) ip Hi), Hpid.
  erewrite bind_ok by (apply (getinode_ok i (ip <| i_lock := mkSleeplock true pid |>)); rs; apply list_lookup_insert_eq; by eapply lookup_lt_Some).
  rs. rewrite Ev. cbn [negb when]. eexists. split; [done|]. split; [apply fs_refl|by apply fo_itable].
Qed.

(** What [iunlockput] leaves. *)
Definition released ip : inode := ip <| i_lock := mkSleeplock false 0 |> <| i_ref := i_ref ip - 1 |>.

Lemma iunlockput_ok k m bl s V i ip :
  fs_ok k (S m) bl s V ∅ -> L_itable ∉ held s -> itable s !! i = Some ip -> i_lock ip = mkSleeplock true pid -> 0 < i_ref ip ->
  i_nlink ip <> 0 -> iunlockput i s = Ok tt (s <| itable := <[i := released ip]> (itable s) |>).
Proof.
  intros HF Hl Hi Hlk Hr Hn. pose proof (fo_cache _ _ _ _ _ _ _ _ HF) as [HC HE].
  destruct (env_running _ _ HE) as (p & pr & Hp & Hpr & Hpid). pose proof (env_quiet _ _ HE) as Hq.
  pose proof (lookup_lt_Some _ _ _ Hi) as Hlt. set (ip1 := ip <| i_lock := mkSleeplock false 0 |>).
  assert (E : iunlock i s = Ok tt (s <| itable := <[i := ip1]> (itable s) |>)).
  { unfold iunlock. erewrite bind_ok by (eapply (holdingsleep_ok (SL_inode i) (i_lock ip)); [cbn; by rewrite Hi|by apply quiet_sl|exact Hp|exact Hpr]).
    run (getinode_ok i ip s Hi). rewrite Hlk, Hpid. cbn [sl_locked sl_pid andb]. rewrite Z.eqb_refl. cbn [negb orb].
    rewrite bind_panic_if by (apply Z.ltb_ge; lia).
    rewrite (releasesleep_idle (SL_inode i) (i_lock ip)); [|cbn; by rewrite Hi|by apply quiet_sl|intros j; by apply quiet_proc|by apply HE].
    cbn [set_sl]. by rewrite (alter_insert _ i _ ip Hi). }
  unfold iunlockput. run E. rewrite (iput_ok i ip1); [|done|rs; by apply list_lookup_insert_eq|unfold ip1; rs; tauto].
  apply Ok_eq; [done|]. rs. rewrite list_insert_insert_eq. st_eq s.
Qed.

(** A change of an entry in use. *)
Lemma table_upd V lk lk' t i ip ip' :
  table_ok V lk t -> t !! i = Some ip -> 0 < i_ref ip -> i_dev ip' = i_dev ip -> i_inum ip' = i_inum ip -> 0 <= i_ref ip' ->
  (i_valid ip' = true -> dinode_at sbl V (i_inum ip) = Some (dinode_of ip')) ->
  (lk' <> Some i -> sl_locked (i_lock ip') = false) -> (forall j, j <> i -> lk' <> Some j -> lk <> Some j) ->
  table_ok V lk' (<[i := ip']> t).
Proof.
  intros [[Ha Hb] He Hl] Hi Hr Ed En Hr' Hv Hlk Hoth. split.
  - split.
    + intros j jp [(-> & <- & _)|(Hne & Hj)]%list_lookup_insert_Some; [done|eauto].
    + intros j1 j2 p1 p2. rewrite !list_lookup_insert_Some.
      intros [(<- & <- & _)|(Hn1 & H1)] [(<- & <- & _)|(Hn2 & H2)]; rewrite ?Ed, ?En; eauto.
  - intros j jp [(-> & <- & _)|(Hne & Hj)]%list_lookup_insert_Some Hp; [|by apply He in Hj].
    destruct (He j ip Hi Hr) as (H1 & H2 & _). rewrite Ed, En. by split_and!.
  - intros j jp [(-> & <- & _)|(Hne & Hj)]%list_lookup_insert_Some Hk; [by apply Hlk|].
    eapply Hl; [exact Hj|]. apply Hoth; [congruence|done].
Qed.

Lemma table_lock V t i ip d :
  table_ok V None t -> t !! i = Some ip -> 0 < i_ref ip -> dinode_at sbl V (i_inum ip) = Some d ->
  table_ok V (Some i) (<[i := loaded pid d ip]> t).
Proof.
  intros Ht Hi Hr Hd. eapply table_upd; try done; [unfold loaded, load_dinode; rs; lia|].
  intros _. rewrite Hd. unfold loaded, load_dinode, dinode_of. rs. by destruct d.
Qed.

Lemma table_release V t i ip :
  table_ok V (Some i) t -> t !! i = Some ip -> 0 < i_ref ip -> table_ok V None (<[i := released ip]> t).
Proof.
  intros Ht Hi Hr. eapply table_upd; try done; [unfold released; rs; lia| |congruence].
  intros Hv. destruct (tb_entry _ _ _ Ht i ip Hi Hr) as (_ & _ & H). exact (H Hv).
Qed.

(** [iget] of an inode that is in use, with room in the table. *)
Lemma table_get V lk s n :
  table_ok V lk (itable s) -> L_itable ∉ held s -> inode_used V n -> 1 <= nfree (itable s) ->
  exists i ip ip', iget ROOTDEV n s = Ok i (s <| itable := <[i := ip']> (itable s) |>) /\
    itable s !! i = Some ip /\ i_inum ip' = n /\ i_dev ip' = ROOTDEV /\ i_ref ip' = i_ref ip + 1 /\ 0 <= i_ref ip /\
    (0 < i_ref ip -> ip' = iget_ref ip) /\
    table_ok V lk (<[i := ip']> (itable s)) /\
    forall d j, irefs d j (<[i := ip']> (itable s)) = irefs d j (itable s) + (if decide (d = ROOTDEV /\ j = n) then 1 else 0).
Proof.
  intros Ht Hl Hu Hfree. pose proof Ht as [Ho He Hk].
  destruct (iget_ok ROOTDEV n s Hl Ho) as [(i & ip & Hi & Hp & Ed & En & E)|[(Hno & i & ip & Hi & Hz & E)|[Hall _]]].
  - exists i, ip, (iget_ref ip). split; [done|]. split; [done|]. destruct (He i ip Hi Hp) as (_ & _ & Hv).
    split_and!; try done; [unfold iget_ref; rs; congruence..|lia| |].
    + eapply table_upd; try done; [unfold iget_ref; rs; lia|]. intros Hne. by apply (Hk i ip).
    + intros d j. rewrite (irefs_insert _ _ _ _ ip) by done. change (is_inode d j (iget_ref ip)) with (is_inode d j ip).
      unfold iget_ref. rs. destruct (is_inode d j ip) eqn:Ei.
      * apply is_inode_spec in Ei as [<- <-]. rewrite decide_True by done. lia.
      * rewrite decide_False; [lia|]. intros [-> ->]. apply not_true_iff_false in Ei. by apply Ei, is_inode_spec.
  - exists i, ip, (iget_new ROOTDEV n ip). split; [done|]. split; [done|].
    destruct (itable_new (itable s) i ip ROOTDEV n Ho Hi Hz Hno) as [Ho' Hr'].
    split_and!; try done; [unfold iget_new; rs; lia|lia|lia|].
    split; [done|..].
    + intros j jp [(-> & <- & _)|(Hne & Hj)]%list_lookup_insert_Some Hp; [by split_and!|by apply He in Hj].
    + intros j jp [(-> & <- & _)|(Hne & Hj)]%list_lookup_insert_Some Hne'; [by apply (Hk j ip)|by eapply Hk].
  - exfalso. destruct (nfree_pos _ Hfree) as (i & ip & Hi & Hz). by apply (Hall i ip).
Qed.

(** ** [namex] *)

(** A step that changes, besides buffers, the inode table only. *)
Definition table_step s s' : Prop := fs_step (s <| itable := itable s' |>) s'.

Lemma same_itable s t : t = itable s -> s <| itable := t |> = s.
Proof. intros ->. by destruct s. Qed.

Lemma table_step_fs s s' : fs_step s s' -> table_step s s'.
Proof. intros H. unfold table_step. by rewrite (same_itable s) by (by apply fs_itable). Qed.

Lemma table_step_set s t : table_step s (s <| itable := t |>).
Proof. unfold table_step. rs. apply fs_refl. Qed.

Lemma table_step_trans s1 s2 s3 : table_step s1 s2 -> table_step s2 s3 -> table_step s1 s3.
Proof.
  unfold table_step. intros H1 H2. apply (fs_set_itable (itable s3)) in H1. rewrite itable_itable in H1. by eapply fs_trans.
Qed.

Definition one (e x n : Z) : Z := if decide (e = ROOTDEV /\ x = n) then 1 else 0.

(** [namex] is at inode [j], which the entry [i] has; there is room for the next one. *)
Record at_inode k m bl V s (i : nat) (j : Z) : Prop := {
  wa_fs : fs_ok k (S m) bl s V ∅;
  wa_sb : sb s = sbl;
  wa_held : L_itable ∉ held s;
  wa_table : table_ok V None (itable s);
  wa_ip : exists ip, itable s !! i = Some ip /\ 0 < i_ref ip /\ i_inum ip = j /\
    2 <= nfree (itable s) + (if i_ref ip =? 1 then 1 else 0);
}.

(** The inode is locked. *)
Lemma enter_ok k m bl V s i j d :
  at_inode k m bl V s i j -> inodes_ok start sbl V -> dinode_at sbl V j = Some d ->
  exists s' ip, ilock i s = Ok tt s' /\ table_step s s' /\ fs_ok k (S m) bl s' V ∅ /\ sb s' = sbl /\ held s' = held s /\
    itable s !! i = Some ip /\ 0 < i_ref ip /\ i_inum ip = j /\ i_dev ip = ROOTDEV /\
    2 <= nfree (itable s) + (if i_ref ip =? 1 then 1 else 0) /\
    itable s' = <[i := loaded pid d ip]> (itable s) /\ table_ok V (Some i) (itable s').
Proof.
  intros [HF Hsb Hh Ht (ip & Hi & Hr & Hn & Hsp)] Hin Hd. subst j.
  destruct (ilock_any k m bl s V i ip d) as (s' & E & HS & HF'); try done; [by rewrite Hsb|].
  pose proof (fs_itable HS) as T. rs_in T. exists s', ip. split_and!; try done.
  - unfold table_step. by rewrite T.
  - pose proof (fs_sb HS) as T2. rs_in T2. congruence.
  - pose proof (fs_held HS) as T2. by rs_in T2.
  - by apply (tb_entry _ _ _ Ht i ip).
  - rewrite T. by apply table_lock.
Qed.

Lemma one_spec e x ip : i_dev ip = ROOTDEV -> one e x (i_inum ip) = if is_inode e x ip then 1 else 0.
Proof.
  intros Hd. unfold one. destruct (is_inode e x ip) eqn:Ei.
  - apply is_inode_spec in Ei as [<- <-]. by rewrite decide_True.
  - rewrite decide_False; [done|]. intros [-> ->]. apply not_true_iff_false in Ei. by apply Ei, is_inode_spec.
Qed.

(** It is unlocked and given up; [t] is the table then. *)
Lemma leave_ok k m bl V s i ip :
  fs_ok k (S m) bl s V ∅ -> L_itable ∉ held s -> table_ok V (Some i) (itable s) -> itable s !! i = Some ip ->
  i_lock ip = mkSleeplock true pid -> 0 < i_ref ip -> i_nlink ip <> 0 ->
  exists s', iunlockput i s = Ok tt s' /\ table_step s s' /\ fs_ok k (S m) bl s' V ∅ /\ sb s' = sb s /\ held s' = held s /\
    itable s' = <[i := released ip]> (itable s) /\ table_ok V None (itable s') /\
    (forall e x, irefs e x (itable s') = irefs e x (itable s) - one e x (i_inum ip)) /\
    nfree (itable s') = nfree (itable s) + (if i_ref ip =? 1 then 1 else 0).
Proof.
  intros HF Hh Ht Hi Hlk Hr Hn. destruct (tb_entry _ _ _ Ht i ip Hi Hr) as (Hdev & _ & _).
  eexists. split; [by eapply iunlockput_ok|]. rs. split_and!; try done.
  - apply table_step_set.
  - by apply fo_itable.
  - by apply table_release.
  - intros e x. rewrite (irefs_insert _ _ _ _ ip), one_spec by done.
    change (is_inode e x (released ip)) with (is_inode e x ip). unfold released. rs. destruct (is_inode e x ip); lia.
  - rewrite (nfree_insert _ _ ip) by done. unfold released. rs.
    destruct (Z.eqb_spec (i_ref ip) 0), (Z.eqb_spec (i_ref ip - 1) 0), (Z.eqb_spec (i_ref ip) 1); lia.
Qed.

Lemma irefs_loaded e x t i ip d :
  t !! i = Some ip -> irefs e x (<[i := loaded pid d ip]> t) = irefs e x t.
Proof.
  intros Hi. rewrite (irefs_insert _ _ _ _ ip) by done. change (is_inode e x (loaded pid d ip)) with (is_inode e x ip).
  change (i_ref (loaded pid d ip)) with (i_ref ip). lia.
Qed.

Lemma nfree_loaded t i ip d : t !! i = Some ip -> nfree (<[i := loaded pid d ip]> t) = nfree t.
Proof. intros Hi. rewrite (nfree_insert _ _ ip) by done. change (i_ref (loaded pid d ip)) with (i_ref ip). lia. Qed.

(** The directory in memory is the one on the disk. *)
Lemma dir_ok_loaded V j d ip :
  dir_ok start V (view j d) -> i_dev ip = ROOTDEV -> dir_ok start V (loaded pid d ip).
Proof.
  intros [[H1 H2 H3 H4] Ht Hs] Hd. split; [|done|done]. split; [done|done|exact H3|exact H4].
Qed.

Lemma dir_find_loaded V j d ip name : dir_find V (loaded pid d ip) name = dir_find V (view j d) name.
Proof. done. Qed.

(** One name is looked up, and found. *)
Lemma step_found k m bl V s i j d name n :
  at_inode k m bl V s i j -> inodes_ok start sbl V -> tree_ok V -> 0 < j < sb_ninodes sbl ->
  dinode_at sbl V j = Some d -> di_type d = T_DIR -> dir_find V (view j d) name = Some n ->
  exists s1 s2 s3 ip i' off, ilock i s = Ok tt s1 /\ itable s1 !! i = Some (loaded pid d ip) /\
    dirlookup i name s1 = Ok (Some (i', off)) s2 /\ iunlockput i s2 = Ok tt s3 /\ table_step s s3 /\
    at_inode k m bl V s3 i' n /\ inode_used V n /\
    forall e x, irefs e x (itable s3) = irefs e x (itable s) - one e x j + one e x n.
Proof.
  intros Hat Hin Htree Hj Hd Hty Hfind. pose proof (wa_held _ _ _ _ _ _ _ Hat) as Hh.
  destruct (enter_ok k m bl V s i j d) as (s1 & ip & E1 & S1 & HF1 & Hsb1 & Hh1 & Hi & Hr & Hn & Hdev & Hsp & T1 & Ht1); [done..|].
  pose proof (lookup_lt_Some _ _ _ Hi) as Hlt.
  assert (Hi1 : itable s1 !! i = Some (loaded pid d ip)) by (rewrite T1; by apply list_lookup_insert_eq).
  destruct (Htree j d Hj Hd) as [Hlinks Hdir Hent]; [by rewrite Hty|]. specialize (Hdir Hty). specialize (Hent Hty).
  destruct (dirlookup_scan pid start k m bl s1 V i (loaded pid d ip) name) as (r & s2 & S2 & HF2 & Hsc & E2);
    [done|done|by eapply dir_ok_loaded|].
  pose proof (scan_find _ _ _ _ (dr_size _ _ _ (dir_ok_loaded _ _ _ ip Hdir Hdev)) Hsc) as Hf. rewrite (dir_find_loaded V j), Hfind in Hf.
  destruct r as [[n' off]|]; [|done]. injection Hf as <-. destruct Hsc as (Ho & Hm & [Hnz _] & En & _).
  change (dirent_inum (file_bytes V (loaded pid d ip) off 16)) with (inum_at V (view j d) off) in Hnz.
  change (inum_at V (loaded pid d ip) off) with (inum_at V (view j d) off) in En.
  assert (Hu : inode_used V n) by (rewrite En; by apply Hent).
  pose proof (fs_itable S2) as T2. pose proof (fs_held S2) as Hh2. pose proof (fs_sb S2) as Hsb2.
  destruct (table_get V (Some i) s2 n) as (i' & ipo & ip' & E3 & Hio & Hin' & Hdv' & Hrf & Hro & Hif & Ht3 & Hrefs);
    [by rewrite T2|by rewrite Hh2, Hh1|done|rewrite T2, T1, (nfree_loaded _ _ ip) by done; destruct (i_ref ip =? 1); lia|].
  rewrite (bind_ok _ _ _ _ _ E3) in E2. set (s3 := s2 <| itable := _ |>) in *. unfold ret in E2.
  set (t3 := <[i' := ip']> (itable s2)) in *. pose proof (lookup_lt_Some _ _ _ Hio) as Hlt'.
  assert (exists ipl, t3 !! i = Some ipl /\ i_lock ipl = mkSleeplock true pid /\ i_nlink ipl = di_nlink d /\ i_inum ipl = j /\
    i_ref ipl = i_ref ip + (if decide (i' = i) then 1 else 0)) as (ipl & Hil & Hlk & Hnl & Hjl & Hrl).
  { destruct (decide (i' = i)) as [->|Hne].
    - assert (ipo = loaded pid d ip) as -> by congruence. exists ip'. split; [by apply list_lookup_insert_eq|].
      rewrite Hif by done. split_and!; try done.
    - exists (loaded pid d ip). unfold t3. rewrite list_lookup_insert_ne, T2 by done. rewrite Z.add_0_r. by split_and!. }
  destruct (leave_ok k m bl V s3 i ipl) as (s4 & E4 & S4 & HF4 & Hsb4 & Hh4 & T4 & Ht4 & Hrefs4 & Hnf4);
    [by apply fo_itable|by change (held s3) with (held s2); rewrite Hh2, Hh1|done|done|done|destruct (decide _); lia|by rewrite Hnl|].
  change (itable s3) with t3 in *.
  exists s1, s3, s4, ip, i', off. split_and!; try done.
  - eapply table_step_trans; [exact S1|]. eapply table_step_trans; [by apply table_step_fs|].
    eapply table_step_trans; [apply table_step_set|exact S4].
  - split; [done|by rewrite Hsb4; change (sb s3) with (sb s2); rewrite Hsb2|by rewrite Hh4; change (held s3) with (held s2); rewrite Hh2, Hh1|done|].
    assert (Nt3 : nfree t3 = nfree (itable s) - (if i_ref ipo =? 0 then 1 else 0)).
    { unfold t3. rewrite (nfree_insert _ _ ipo), T2, T1, (nfree_loaded _ _ ip) by done. rewrite Hrf.
      rewrite (proj2 (Z.eqb_neq (i_ref ipo + 1) 0)) by lia. lia. }
    rewrite Hnf4, Nt3, Hrl. rewrite T4. destruct (decide (i' = i)) as [->|Hne].
    + exists (released ipl). split; [apply list_lookup_insert_eq; unfold t3; by rewrite length_insert|].
      assert (ipo = loaded pid d ip) as -> by congruence. assert (i_ref (released ipl) = i_ref ip) as -> by (unfold released; rs; lia).
      rewrite Hif in Hin' by done. change (i_ref (loaded pid d ip)) with (i_ref ip). split_and!; [done|..].
      * change (i_inum (released ipl)) with (i_inum ipl). rewrite Hjl. change (i_inum (iget_ref (loaded pid d ip))) with (i_inum ip) in Hin'. congruence.
      * destruct (Z.eqb_spec (i_ref ip) 0), (Z.eqb_spec (i_ref ip + 1) 1), (Z.eqb_spec (i_ref ip) 1); lia.
    + exists ip'. rewrite list_lookup_insert_ne by done. split; [by apply list_lookup_insert_eq|]. split; [lia|]. split; [done|].
      rewrite Z.add_0_r, Hrf. destruct (Z.eqb_spec (i_ref ipo) 0), (Z.eqb_spec (i_ref ipo + 1) 1), (Z.eqb_spec (i_ref ip) 1); lia.
  - intros e x. rewrite Hrefs4. unfold t3. rewrite Hrefs, T2, T1, (irefs_loaded _ _ _ _ ip), Hjl by done. unfold one. lia.
Qed.

(** The walk ends at an inode that is not a directory, or does not have the name. *)
Lemma step_missing k m bl V s i j d name :
  at_inode k m bl V s i j -> inodes_ok start sbl V -> tree_ok V -> 0 < j < sb_ninodes sbl ->
  dinode_at sbl V j = Some d -> di_type d <> 0 -> (di_type d = T_DIR -> dir_find V (view j d) name = None) ->
  exists s1 s2 s3 ip, ilock i s = Ok tt s1 /\ itable s1 !! i = Some (loaded pid d ip) /\
    (if di_type d =? T_DIR then dirlookup i name s1 = Ok None s2 else s2 = s1) /\ iunlockput i s2 = Ok tt s3 /\ table_step s s3 /\
    fs_ok k (S m) bl s3 V ∅ /\ table_ok V None (itable s3) /\
    forall e x, irefs e x (itable s3) = irefs e x (itable s) - one e x j.
Proof.
  intros Hat Hin Htree Hj Hd Hty Hfind. pose proof (wa_held _ _ _ _ _ _ _ Hat) as Hh.
  destruct (enter_ok k m bl V s i j d) as (s1 & ip & E1 & S1 & HF1 & Hsb1 & Hh1 & Hi & Hr & Hn & Hdev & Hsp & T1 & Ht1); [done..|].
  assert (Hi1 : itable s1 !! i = Some (loaded pid d ip)) by (rewrite T1; apply list_lookup_insert_eq; by eapply lookup_lt_Some).
  destruct (Htree j d Hj Hd Hty) as [Hlinks Hdir _].
  assert (exists s2, (if di_type d =? T_DIR then dirlookup i name s1 = Ok None s2 else s2 = s1) /\ fs_step s1 s2 /\ fs_ok k (S m) bl s2 V ∅)
    as (s2 & E2 & S2 & HF2).
  { destruct (Z.eqb_spec (di_type d) T_DIR) as [Et|]; [|exists s1; split_and!; [done|apply fs_refl|done]]. specialize (Hdir Et).
    destruct (dirlookup_scan pid start k m bl s1 V i (loaded pid d ip) name) as (r & s2 & S2 & HF2 & Hsc & E2);
      [done|done|by eapply dir_ok_loaded|].
    pose proof (scan_find _ _ _ _ (dr_size _ _ _ (dir_ok_loaded _ _ _ ip Hdir Hdev)) Hsc) as Hf. rewrite (dir_find_loaded V j), Hfind in Hf by done.
    destruct r as [[n off]|]; [done|]. by exists s2. }
  pose proof (fs_itable S2) as T2. pose proof (fs_held S2) as Hh2.
  destruct (leave_ok k m bl V s2 i (loaded pid d ip)) as (s3 & E3 & S3 & HF3 & _ & _ & T3 & Ht3 & Hrefs3 & _);
    [done|by rewrite Hh2, Hh1|by rewrite T2|by rewrite T2|done|done|done|].
  exists s1, s2, s3, ip. split_and!; try done.
  - eapply table_step_trans; [exact S1|]. eapply table_step_trans; [by apply table_step_fs|done].
  - intros e x. rewrite Hrefs3, T2, T1, (irefs_loaded _ _ _ _ ip) by done. change (i_inum (loaded pid d ip)) with (i_inum ip). congruence.
Qed.

(** Where the walk ended: at inode [r], with a reference to it, or nowhere. *)
Definition walk_post V s (j : Z) (r : option Z) (o : option nat) s' : Prop :=
  match r with
  | Some n => exists i ip, o = Some i /\ itable s' !! i = Some ip /\ i_inum ip = n /\ 0 < i_ref ip /\
      forall e x, irefs e x (itable s') = irefs e x (itable s) - one e x j + one e x n
  | None => o = None /\ forall e x, irefs e x (itable s') = irefs e x (itable s) - one e x j
  end.

Lemma namex_loop_ok k m bl V : inodes_ok start sbl V -> tree_ok V ->
  forall fuel path s i j,
  (length path <= fuel)%nat -> 0 ∉ path -> at_inode k m bl V s i j ->
  exists o s', namex_loop fuel i path false s = Ok o s' /\ table_step s s' /\ fs_ok k (S m) bl s' V ∅ /\
    table_ok V None (itable s') /\ walk_post V s j (resolve sbl V j (path_names path)) (fst <$> o) s'.
Proof.
  intros Hin Htree. induction fuel as [|fuel IH]; intros path s i j Hlen H0 Hat; cbn [namex_loop];
    pose proof (skipelem_names path H0) as Hsk; pose proof Hat as [HF Hsb Hh Ht (ip & Hi & Hr & Hn & Hsp)];
    destruct (skipelem path) as [[path' name]|].
  - destruct Hsk as (_ & _ & ?). lia.
  - rewrite Hsk. exists (Some (i, [])), s. split_and!; [done|by apply table_step_fs, fs_refl|done|done|].
    exists i, ip. split_and!; try done. intros. lia.
  - destruct Hsk as (-> & H0' & Hlt). cbn [resolve].
    destruct (tb_entry _ _ _ Ht i ip Hi Hr) as (_ & (Hj & d & Hd & Hty) & _). rewrite Hn in *. rewrite Hd. cbn [mbind option_bind].
    assert (Hlk : di_nlink d <> 0) by (by apply (Htree j d)).
    destruct (if di_type d =? T_DIR then dir_find V (view j d) name else None) as [n|] eqn:Ef.
    + destruct (Z.eqb_spec (di_type d) T_DIR) as [Et|]; [|done].
      destruct (step_found k m bl V s i j d name n) as (s1 & s2 & s3 & ip1 & i' & off & E1 & Hi1 & E2 & E3 & S3 & Hat3 & Hu & Hrefs); [done..|].
      run E1. run (getinode_ok i _ s1 Hi1). change (i_type (loaded pid d ip1)) with (di_type d). change (i_nlink (loaded pid d ip1)) with (di_nlink d).
      rewrite Et, Z.eqb_refl, (proj2 (Z.eqb_neq _ _) Hlk). cbn [negb andb]. run E2. run E3. rewrite Ef. cbn [mbind option_bind].
      destruct (IH path' s3 i' n) as (o & s' & E & S & HF' & Ht' & Hp); [lia|done|done|].
      exists o, s'. split_and!; [done|by eapply table_step_trans|done|done|].
      unfold walk_post in *. destruct (resolve sbl V n (path_names path')) as [n'|].
      * destruct Hp as (i2 & ip2 & ? & ? & ? & ? & Hrefs'). exists i2, ip2. split_and!; try done. intros e x. rewrite Hrefs', Hrefs. lia.
      * destruct Hp as [? Hrefs']. split; [done|]. intros e x. rewrite Hrefs', Hrefs. lia.
    + destruct (step_missing k m bl V s i j d name) as (s1 & s2 & s3 & ip1 & E1 & Hi1 & E2 & E3 & S3 & HF3 & Ht3 & Hrefs); [done..| |].
      { intros Et. by rewrite Et in Ef. }
      exists None, s3. run E1. run (getinode_ok i _ s1 Hi1). change (i_type (loaded pid d ip1)) with (di_type d).
      change (i_nlink (loaded pid d ip1)) with (di_nlink d). rewrite (proj2 (Z.eqb_neq _ _) Hlk).
      destruct (di_type d =? T_DIR); cbn [negb andb].
      * run E2. run E3. rewrite Ef. by split_and!.
      * subst s2. run E3. by split_and!.
  - rewrite Hsk. exists (Some (i, [])), s. split_and!; [done|by apply table_step_fs, fs_refl|done|done|].
    exists i, ip. split_and!; try done. intros. lia.
Qed.

(** Where a path starts: at the root, or at the current directory of the process. *)
Definition starts_at s (path : list Z) (j : Z) : Prop :=
  if char_at path =? ch "/" then j = ROOTINO
  else exists p pr c ip, cpu_proc s = Some p /\ procs s !! p = Some pr /\ p_cwd pr = Some c /\
    itable s !! c = Some ip /\ 0 < i_ref ip /\ i_inum ip = j.

Lemma walk_start k m bl V s path j :
  fs_ok k (S m) bl s V ∅ -> sb s = sbl -> L_itable ∉ held s -> table_ok V None (itable s) -> 2 <= nfree (itable s) ->
  inode_used V ROOTINO -> starts_at s path j ->
  exists i s', (if char_at path =? ch "/" then iget ROOTDEV ROOTINO
        else
          p <- curproc ;;
          pr <- getproc p ;;
          match p_cwd pr with Some c => idup c | None => fault end) s = Ok i s' /\ table_step s s' /\
    at_inode k m bl V s' i j /\ forall e x, irefs e x (itable s') = irefs e x (itable s) + one e x j.
Proof.
  intros HF Hsb Hh Ht Hfree Hroot Hst. unfold starts_at in Hst.
  assert (Hfin : forall i ip ip', itable s !! i = Some ip -> i_inum ip' = j -> i_ref ip' = i_ref ip + 1 -> 0 <= i_ref ip ->
    table_ok V None (<[i := ip']> (itable s)) -> at_inode k m bl V (s <| itable := <[i := ip']> (itable s) |>) i j).
  { intros i ip ip' Hi Hj Hr Hr0 Ht'. split; rs; try done; [by apply fo_itable|]. exists ip'.
    split; [apply list_lookup_insert_eq; by eapply lookup_lt_Some|]. split_and!; [lia|done|]. rewrite (nfree_insert _ _ ip) by done. rewrite Hr.
    destruct (Z.eqb_spec (i_ref ip) 0), (Z.eqb_spec (i_ref ip + 1) 0), (Z.eqb_spec (i_ref ip + 1) 1); lia. }
  destruct (char_at path =? ch "/").
  - subst j. destruct (table_get V None s ROOTINO) as (i & ip & ip' & E & Hi & Hn & Hd & Hr & Hr0 & _ & Ht' & Hrefs); [done..|lia|].
    exists i, (s <| itable := <[i := ip']> (itable s) |>). split_and!; [done|apply table_step_set|by eapply Hfin|by rs].
  - destruct Hst as (p & pr & c & ip & Hp & Hpr & Hc & Hi & Hr & Hn). destruct (tb_entry _ _ _ Ht c ip Hi Hr) as (Hdev & _ & Hv).
    exists c, (s <| itable := <[c := iget_ref ip]> (itable s) |>). split_and!.
    + rewrite (bind_curproc p) by done. unfold getproc, get_at. unfold bind at 1. rewrite Hpr. cbn [obind]. rewrite Hc.
      unfold idup. run (acquire_ok _ s Hh). unfold updinode. rewrite bind_modify. rs.
      erewrite bind_ok by (apply (release_ok _ (held s)); [by rs|done]). rewrite (alter_insert _ c _ ip Hi).
      apply Ok_eq; [done|]. st_eq s.
    + apply table_step_set.
    + eapply (Hfin c ip); try done; [lia|]. eapply table_upd; try done; [unfold iget_ref; rs; lia|]. intros Hne. by apply (tb_lock _ _ _ Ht c ip).
    + intros e x. rs. rewrite (irefs_insert _ _ _ _ ip), <- Hn, one_spec by done. change (is_inode e x (iget_ref ip)) with (is_inode e x ip).
      unfold iget_ref. rs. destruct (is_inode e x ip); lia.
Qed.

(** The entry [o] is for the inode [r], with one reference more to it; no entry, and no reference more,
    where there is no inode. *)
Definition found_inode s s' (o : option nat) (r : option Z) : Prop :=
  match r with
  | Some n => exists i ip, o = Some i /\ itable s' !! i = Some ip /\ i_inum ip = n /\ 0 < i_ref ip /\
      forall e x, irefs e x (itable s') = irefs e x (itable s) + one e x n
  | None => o = None /\ forall e x, irefs e x (itable s') = irefs e x (itable s)
  end.

Lemma namei_ok k m bl V s path j :
  fs_ok k (S m) bl s V ∅ -> sb s = sbl -> inodes_ok start sbl V -> tree_ok V -> inode_used V ROOTINO ->
  L_itable ∉ held s -> table_ok V None (itable s) -> 2 <= nfree (itable s) -> 0 ∉ path -> starts_at s path j ->
  exists o s', namei path s = Ok o s' /\ table_step s s' /\ fs_ok k (S m) bl s' V ∅ /\ table_ok V None (itable s') /\
    found_inode s s' o (resolve sbl V j (path_names path)).
Proof.
  intros HF Hsb Hin Htree Hroot Hh Ht Hfree H0 Hst.
  destruct (walk_start k m bl V s path j) as (i & s1 & E1 & S1 & Hat & Hr1); [done..|].
  destruct (namex_loop_ok k m bl V Hin Htree (length path) path s1 i j) as (o & s2 & E2 & S2 & HF2 & Ht2 & Hp); [done..|].
  exists (fst <$> o), s2. split_and!; [|..|done|done|].
  - unfold namei, namex. erewrite bind_ok; [|run E1; exact E2]. done.
  - by eapply table_step_trans.
  - unfold walk_post in Hp. unfold found_inode. destruct (resolve _ _ _ _) as [n|].
    + destruct Hp as (i' & ip' & Ho & Hi' & Hn' & Hr' & Hrefs). exists i', ip'. split_and!; try done.
      intros e x. rewrite Hrefs, Hr1. lia.
    + destruct Hp as [Ho Hrefs]. split; [done|]. intros e x. rewrite Hrefs, Hr1. lia.
Qed.

(** C19: [namei] follows the path.  From the root or the current directory, it looks the names of the
    path up one after the other, each in the directory that the last one gave: it returns an entry of the table for the inode that this
    walk through the directories on the disk ends at, with one reference more to it; or
    nothing, where a name is missing or what was found is no directory, and then no reference
    is left over.  Nothing else changes, and two free entries of the table are enough, however long
    the path is. *)
Theorem namei_resolves k m bl V s path j :
  fs_ok k (S m) bl s V ∅ -> sb s = sbl -> inodes_ok start sbl V -> tree_ok V -> inode_used V ROOTINO ->
  L_itable ∉ held s -> table_ok V None (itable s) -> 2 <= nfree (itable s) -> 0 ∉ path -> starts_at s path j ->
  exists o s', namei path s = Ok o s' /\ table_step s s' /\ fs_ok k (S m) bl s' V ∅ /\ table_ok V None (itable s') /\
    found_inode s s' o (resolve sbl V j (path_names path)).
Proof. apply namei_ok. Qed.

(** ** Inodes and the disk *)

(** The inode that [iupdate] wrote, when the last reference to the entry is dropped and the inode is looked up and locked again. *)
Lemma reload k m bl s V i ip :
  fs_ok k (S m) bl s V ∅ -> inodes_ok start (sb s) V -> L_itable ∉ held s -> itable_ok (itable s) ->
  (forall j jp, itable s !! j = Some jp -> i_ref jp = 0 -> sl_locked (i_lock jp) = false) ->
  itable s !! i = Some ip -> i_dev ip = ROOTDEV -> 0 <= i_inum ip < sb_ninodes (sb s) ->
  i_lock ip = mkSleeplock true pid -> i_ref ip = 1 -> i_nlink ip <> 0 -> i_type ip <> 0 ->
  dinode_at (sb s) V (i_inum ip) = Some (dinode_of ip) ->
  exists s1 s2 s3 j jp, iunlockput i s = Ok tt s1 /\ iget ROOTDEV (i_inum ip) s1 = Ok j s2 /\
    i_valid <$> itable s2 !! j = Some false /\ ilock j s2 = Ok tt s3 /\ itable s3 !! j = Some jp /\
    i_lock jp = mkSleeplock true pid /\ i_dev jp = ROOTDEV /\ i_inum jp = i_inum ip /\ dinode_of jp = dinode_of ip.
Proof.
  intros HF Hin Hl Hok Hfree Hi Hdev Hr Hlk Href Hn Hty Hd. pose proof (lookup_lt_Some _ _ _ Hi) as Hlt.
  eexists. set (s1 := s <| itable := <[i := released ip]> (itable s) |>). destruct Hok as [Hok1 Hok2].
  assert (Ho1 : itable_ok (itable s1)).
  { unfold s1. rs. split.
    - intros j jp [(-> & <- & _)|(_ & Hj)]%list_lookup_insert_Some; [unfold released; rs; lia|eauto].
    - intros j1 j2 p1 p2. rewrite !list_lookup_insert_Some. intros [(<- & <- & _)|(_ & H1)] [(<- & <- & _)|(_ & H2)]; unfold released; rs; eauto; lia. }
  assert (Hz1 : forall j jp, itable s1 !! j = Some jp -> i_ref jp = 0 -> sl_locked (i_lock jp) = false).
  { unfold s1. rs. intros j jp [(-> & <- & _)|(_ & Hj)]%list_lookup_insert_Some; [done|eauto]. }
  assert (Hi1 : itable s1 !! i = Some (released ip)) by (unfold s1; rs; by apply list_lookup_insert_eq).
  destruct (iget_ok ROOTDEV (i_inum ip) s1 Hl Ho1) as [(j & jp & Hj & Hp & Ed & En & _)|[(_ & j & jp & Hj & Hz & E)|[Hall _]]].
  { exfalso. unfold s1 in Hj. rs_in Hj. apply list_lookup_insert_Some in Hj as [(-> & <- & _)|(Hne & Hj)]; [unfold released in Hp; rs_in Hp; lia|].
    apply Hne. eapply Hok2; [exact Hi|exact Hj|lia|done|congruence..]. }
  2: { exfalso. apply (Hall i (released ip) Hi1). unfold released. rs. lia. }
  set (jp1 := iget_new ROOTDEV (i_inum ip) jp) in *. set (s2 := s1 <| itable := _ |>) in *.
  assert (Hj2 : itable s2 !! j = Some jp1) by (unfold s2; rs; apply list_lookup_insert_eq; by eapply lookup_lt_Some).
  destruct (ilock_ok pid start k m bl s2 V ∅ j jp1 (dinode_of ip)) as (s3 & E3 & S3 & _); try done.
  { by do 2 apply fo_itable. }
  { by eapply (Hz1 j jp). }
  exists s2, s3, j, (loaded pid (dinode_of ip) jp1). split_and!; try done.
  - by apply (iunlockput_ok k m bl s V); [..|lia|].
  - by rewrite Hj2.
  - rewrite (fs_itable S3). rs. apply list_lookup_insert_eq. by eapply lookup_lt_Some.
Qed.

(** C32: Inodes survive the disk.  [iupdate] by the holder of the lock changes the on-disk copy of its inode and of no other, in
    the transaction only.  When the holder then unlocks the inode and drops the last reference to the entry, [iget] of the same
    inode number gives an entry that has not been read, and [ilock] of that loads exactly
    the fields that were stored. *)
Theorem iupdate_ilock k m bl s V i ip :
  fs_ok (S k) (S m) bl s V ∅ -> inodes_ok start (sb s) V -> L_itable ∉ held s -> itable_ok (itable s) ->
  (forall j jp, itable s !! j = Some jp -> i_ref jp = 0 -> sl_locked (i_lock jp) = false) ->
  itable s !! i = Some ip -> i_dev ip = ROOTDEV -> 0 <= i_inum ip < sb_ninodes (sb s) ->
  i_lock ip = mkSleeplock true pid -> 0 < i_ref ip -> i_type ip <> 0 -> dinode_ok (dinode_of ip) ->
  exists s1 bl1 V1, iupdate i s = Ok tt s1 /\ disk s1 = disk s /\ itable s1 = itable s /\ fs_ok k (S m) bl1 s1 V1 ∅ /\
    (forall j, 0 <= j < sb_ninodes (sb s) ->
       dinode_at (sb s) V1 j = if decide (j = i_inum ip) then Some (dinode_of ip) else dinode_at (sb s) V j) /\
    (i_ref ip = 1 -> i_nlink ip <> 0 ->
     exists s2 s3 s4 j jp, iunlockput i s1 = Ok tt s2 /\ iget ROOTDEV (i_inum ip) s2 = Ok j s3 /\
       i_valid <$> itable s3 !! j = Some false /\ ilock j s3 = Ok tt s4 /\ itable s4 !! j = Some jp /\
       i_lock jp = mkSleeplock true pid /\ i_dev jp = ROOTDEV /\ i_inum jp = i_inum ip /\ dinode_of jp = dinode_of ip).
Proof.
  intros HF Hin Hl Hok Hfree Hi Hdev Hinum Hlk Href Hty Hd. pose proof Hin as [Hn32 Hin'].
  destruct (iupdate_ok pid start k m bl s V ∅ i ip) as (data & s1 & E & HS & Hdata & HF1); try done.
  pose proof (fo_len _ _ _ _ _ _ _ _ _ _ HF Hdata) as Hlen. pose proof (fs_sb HS) as Esb. pose proof (fs_itable HS) as Et.
  eexists s1, _, _. split; [done|]. split; [by apply fs_disk|]. split; [done|]. split; [exact HF1|].
  assert (forall j, 0 <= j < sb_ninodes (sb s) ->
    dinode_at (sb s) (<[IBLOCK (i_inum ip) (sb s) := blit (dinode_off (i_inum ip)) (dinode_bytes (dinode_of ip)) data]> V) j =
      if decide (j = i_inum ip) then Some (dinode_of ip) else dinode_at (sb s) V j) as Hat.
  { intros j Hj. apply dinode_at_insert; try done; lia. }
  split; [done|]. intros Href1 Hnl. eapply reload; [exact HF1|..]; rewrite ?Esb, ?Et, ?(fs_held HS); try done.
  - split; [done|]. intros inum Hr. destruct (Hin' inum Hr) as [Hb Hnb]. split; [by apply fs_block_insert|done].
  - by rewrite Hat, decide_True.
Qed.

End walk.

Lemma iupdate_ilock_witness :
  exists s1 s2 s3 s4 j jp, iupdate (F := 0%nat) 0 root_fs = Ok tt s1 /\ iunlockput (F := 0%nat) 0 s1 = Ok tt s2 /\
    iget ROOTDEV 1 s2 = Ok j s3 /\ ilock (F := 0%nat) j s3 = Ok tt s4 /\
    itable s4 !! j = Some jp /\ dinode_of jp = dinode_of small_root.
Proof.
  destruct (iupdate_ilock (F := 0%nat) 0 2 0 0 [] root_fs small_disk 0 small_root)
    as (s1 & bl1 & V1 & E & Hd & Ht & HF & _ & Hl).
  - apply root_fs_ok. change NBUF with 30%nat. lia.
  - apply small_inodes_ok.
  - apply not_elem_of_nil.
  - apply dir_table_ok.
  - intros [|[|j]] jp [= <-] Hz; [discriminate Hz|reflexivity].
  - reflexivity.
  - reflexivity.
  - change (i_inum small_root) with 1. change (sb_ninodes (sb root_fs)) with 16. lia.
  - reflexivity.
  - reflexivity.
  - discriminate.
  - apply small_root_dinode.
  - destruct Hl as (s2 & s3 & s4 & j & jp & E2 & E3 & _ & E4 & Hj & _ & _ & _ & Hdi); [reflexivity|discriminate|].
    exists s1, s2, s3, s4, j, jp. split_and!; [exact E|exact E2|exact E3|exact E4|exact Hj|exact Hdi].
Defined.
