(* ===== verification/Console.v ===== *)
(** kernel/console.c, the sleeping half of kernel/uart.c, and [procdump] of
    kernel/proc.c. *)

From stdpp Require Import prelude gmap strings.
From Stdlib Require Import ZArith Lia Ascii.
From S2P Require Import Prelude Bytes Params State Spinlock CString Uart Printk Sched Sleeplock Kalloc Vm Copy.

Local Open Scope Z_scope.
Local Open Scope kernel_scope.

Definition INPUT_BUF_SIZE : Z := 128.

(** [C(x)], control-x *)
Definition ctrl (c : Ascii.ascii) : Z := ch c - ch "@".
Arguments ctrl _%_char.

Definition uartinit : K unit :=
  uart_write_reg 1 0x00 ;;          (* IER: disable interrupts *)
  uart_write_reg 3 (Z.shiftl 1 7) ;; (* LCR: mode to set baud rate *)
  uart_write_reg 0 0x03 ;;          (* LSB for baud rate of 38.4K *)
  uart_write_reg 1 0x00 ;;          (* MSB *)
  uart_write_reg 3 (Z.shiftl 3 0) ;; (* LCR: 8 bits, no parity *)
  uart_write_reg 2 (Z.lor (Z.shiftl 1 0) (Z.shiftl 3 1)) ;; (* FCR: reset and enable FIFOs *)
  uart_write_reg 1 (Z.lor (Z.shiftl 1 1) (Z.shiftl 1 0)) ;; (* IER: enable interrupts *)
  initsleeplock SL_uart.

(** A line of [procdump]. *)
Definition state_name (st : procstate) : list Z :=
  match st with
  | UNUSED => str "unused"
  | USED => str "used"
  | SLEEPING => str "sleep "
  | RUNNABLE => str "runble"
  | RUNNING => str "run   "
  | ZOMBIE => str "zombie"
  end.

Definition procdump : K unit :=
  printk [10] [] ;;
  foreach (seq 0 NPROC) (fun i =>
    p <- getproc i ;;
    if decide (p_state p = UNUSED) then ret tt
    else
      printk (str "%d %s %s")
        [A_int (p_pid p); A_str (Some (state_name (p_state p))); A_str (Some (cstring (p_name p)))] ;;
      printk [10] [] ;;
      ret tt).

Definition updcons (f : console -> console) : K unit := modify (fun s => s <| cons := f (cons s) |>).

(** [cons.buf[i % INPUT_BUF_SIZE]] *)
Definition cbuf_at (c : console) (i : Z) : Z := c_buf c !!! Z.to_nat (i mod INPUT_BUF_SIZE).

(** The loop that erases the current line. *)
Fixpoint kill_line (fuel : nat) : K unit :=
  c <- gets cons ;;
  if negb (c_e c =? c_w c) && negb (cbuf_at c (u32 (c_e c - 1)) =? 10) then
    match fuel with
    | O => no_fuel
    | S n =>
        updcons (fun c => c <| c_e := u32 (c_e c - 1) |>) ;;
        consputc BACKSPACE ;;
        kill_line n
    end
  else ret tt.

(** The [default] case: an ordinary character. *)
Definition console_char (c0 : Z) : K unit :=
  c <- gets cons ;;
  when (negb (c0 =? 0) && (u32 (c_e c - c_r c) <? INPUT_BUF_SIZE))
    (let c1 := if c0 =? 13 then 10 else c0 in
     consputc c1 ;;
     updcons (fun c => c <| c_buf ::= <[Z.to_nat (c_e c mod INPUT_BUF_SIZE) := u8 c1]> |>
                         <| c_e := u32 (c_e c + 1) |>) ;;
     c <- gets cons ;;
     when ((c1 =? 10) || (c1 =? ctrl "D") || (u32 (c_e c - c_r c) =? INPUT_BUF_SIZE))
       (updcons (fun c => c <| c_w := c_e c |>) ;;
        wakeup (Some Ch_cons_r))).

Definition consoleintr (c0 : Z) : K unit :=
  acquire L_cons ;;
  (if c0 =? ctrl "P" then procdump
   else if c0 =? ctrl "U" then kill_line (Z.to_nat INPUT_BUF_SIZE)
   else if (c0 =? ctrl "H") || (c0 =? 0x7f) then
     c <- gets cons ;;
     when (negb (c_e c =? c_w c))
       (updcons (fun c => c <| c_e := u32 (c_e c - 1) |>) ;;
        consputc BACKSPACE)
   else console_char c0) ;;
  release L_cons.

Definition consoleinit : K unit :=
  uartinit ;;
  modify (fun s => s <| devsw := <[Z.to_nat CONSOLE := mkDevsw (Some Dev_console) (Some Dev_console)]> (devsw s) |>).

(** The loop of [uartintr]; the fuel counts received bytes. *)
Fixpoint uartintr_loop (fuel : nat) : K unit :=
  c <- uartgetc ;;
  if c =? -1 then ret tt
  else match fuel with O => no_fuel | S n => consoleintr c ;; uartintr_loop n end.

Definition uartintr : K unit :=
  mmio_read (UART0 + 2) ;;          (* ISR: acknowledge the interrupt *)
  lsr <- read_lsr ;;
  when (negb (Z.land lsr LSR_TX_IDLE =? 0)) (wakeup (Some Ch_tx)) ;;
  rx <- gets uart_rx ;;
  uartintr_loop (S (length rx)).

Section console.
Context {F : Fuel} {L : Linker}.

Fixpoint uartwrite_loop (fuel : nat) (buf : list Z) : K unit :=
  match buf with
  | [] => ret tt
  | c :: buf' =>
      match fuel with
      | O => no_fuel
      | S n =>
          sleep_prepare (Some Ch_tx) ;;
          lsr <- read_lsr ;;
          if negb (Z.land lsr LSR_TX_IDLE =? 0) then write_thr c ;; uartwrite_loop n buf'
          else sleep ;; uartwrite_loop n buf
      end
  end.

Definition uartwrite (buf : list Z) : K unit :=
  acquiresleep SL_uart ;;
  uartwrite_loop (sleep_fuel + length buf) buf ;;
  releasesleep SL_uart.

Fixpoint consolewrite_loop (fuel : nat) (src : ksrc) (i n : Z) : K Z :=
  if i <? n then
    match fuel with
    | O => no_fuel
    | S fuel' =>
        let nn := Z.min 32 (n - i) in
        r <- either_copyin src nn ;;
        if fst r =? -1 then ret i
        else
          uartwrite (snd r) ;;
          consolewrite_loop fuel' (src_add src nn) (i + nn) n
    end
  else ret i.

Definition consolewrite (src : ksrc) (n : Z) : K Z := consolewrite_loop (Z.to_nat n) src 0 n.

(** The outer loop of [consoleread]; the result is the number of bytes still
    wanted, or [None] for a return of -1 from inside the loop. *)
Fixpoint consoleread_loop (fuel : nat) (dst : kdst) (n target : Z) : K (option Z) :=
  if 0 <? n then
    match fuel with
    | O => no_fuel
    | S fuel' =>
        c <- gets cons ;;
        if c_r c =? c_w c then
          i <- curproc ;;
          k <- killed i ;;
          if (k : bool) then ret None
          else
            sleep_prepare (Some Ch_cons_r) ;;
            release L_cons ;;
            sleep ;;
            acquire L_cons ;;
            consoleread_loop fuel' dst n target
        else
          let ch0 := cbuf_at c (c_r c) in
          updcons (fun c => c <| c_r := u32 (c_r c + 1) |>) ;;
          if ch0 =? ctrl "D" then
            when (n <? target) (updcons (fun c => c <| c_r := u32 (c_r c - 1) |>)) ;;
            ret (Some n)
          else
            r <- either_copyout dst [ch0] ;;
            if r =? -1 then ret (Some n)
            else if ch0 =? 10 then ret (Some (n - 1))
            else consoleread_loop fuel' (dst_add dst 1) (n - 1) target
    end
  else ret (Some n).

Definition consoleread (dst : kdst) (n : Z) : K Z :=
  acquire L_cons ;;
  r <- consoleread_loop (sleep_fuel + Z.to_nat n) dst n n ;;
  release L_cons ;;
  ret (match r with Some m => n - m | None => -1 end).

End console.
