(* ===== verification/Pipe.v ===== *)
(** kernel/pipe.c: pipes, except [pipealloc], which is with the file table.

    A pipe is in a page from [kalloc]; [pipes] has the pipe structure at the
    address of that page. *)

From stdpp Require Import prelude gmap strings.
From Stdlib Require Import ZArith Lia.
From S2P Require Import Prelude Bytes Params State Spinlock Sched Kalloc Vm.

Local Open Scope Z_scope.
Local Open Scope kernel_scope.

Definition PIPESIZE : Z := 512.

Definition getpipe (pi : Z) : K pipe :=
  ps <- gets pipes ;; match ps !! pi with Some p => ret p | None => fault end.

Definition updpipe (pi : Z) (f : pipe -> pipe) : K unit :=
  modify (fun s => s <| pipes := alter f pi (pipes s) |>).

(** The number of bytes in the pipe, the byte to read next, and the pipe with a
    byte added or removed. *)
Definition pipe_count (p : pipe) : Z := u32 (pi_nwrite p - pi_nread p).
Definition pipe_front (p : pipe) : Z := pi_data p !!! Z.to_nat (pi_nread p mod PIPESIZE).
Definition pipe_put (c : Z) (p : pipe) : pipe :=
  p <| pi_data ::= <[Z.to_nat (pi_nwrite p mod PIPESIZE) := c]> |>
    <| pi_nwrite := u32 (pi_nwrite p + 1) |>.
Definition pipe_get (p : pipe) : pipe := p <| pi_nread := u32 (pi_nread p + 1) |>.
Definition pipe_full (p : pipe) : bool := pi_nwrite p =? u32 (pi_nread p + PIPESIZE).
Definition pipe_empty (p : pipe) : bool := pi_nread p =? pi_nwrite p.

Section pipe.
Context {F : Fuel} {L : Linker}.

Definition pipeclose (pi : Z) (writable : bool) : K unit :=
  acquire (L_pipe pi) ;;
  (if writable then
     updpipe pi (fun p => p <| pi_writeopen := false |>) ;; wakeup (Some (Ch_pipe_nread pi))
   else
     updpipe pi (fun p => p <| pi_readopen := false |>) ;; wakeup (Some (Ch_pipe_nwrite pi))) ;;
  p <- getpipe pi ;;
  if negb (pi_readopen p) && negb (pi_writeopen p) then
    release (L_pipe pi) ;;
    modify (fun s => s <| pipes := delete pi (pipes s) |>) ;;
    kfree pi
  else release (L_pipe pi).

(** The loop of [pipewrite]; [None] is the return of -1 from inside the loop. *)
Fixpoint pipewrite_loop (fuel : nat) (pr : nat) (pi addr i n : Z) : K (option Z) :=
  if i <? n then
    match fuel with
    | O => no_fuel
    | S fuel' =>
        p <- getpipe pi ;;
        k <- (if pi_readopen p then killed pr else ret true) ;;
        if (k : bool) then ret None
        else if pipe_full p then
          wakeup (Some (Ch_pipe_nread pi)) ;;
          sleep_prepare (Some (Ch_pipe_nwrite pi)) ;;
          release (L_pipe pi) ;;
          sleep ;;
          acquire (L_pipe pi) ;;
          pipewrite_loop fuel' pr pi addr i n
        else
          q <- getproc pr ;;
          r <- copyin (p_pagetable q) (p_sz q) (u64 (addr + i)) 1 ;;
          if fst r =? -1 then ret (Some (if i =? 0 then -1 else i))
          else
            updpipe pi (pipe_put (hd 0 (snd r))) ;;
            pipewrite_loop fuel' pr pi addr (i + 1) n
    end
  else ret (Some i).

Definition pipewrite (pi addr n : Z) : K Z :=
  pr <- curproc ;;
  acquire (L_pipe pi) ;;
  r <- pipewrite_loop (sleep_fuel + Z.to_nat n) pr pi addr 0 n ;;
  match r with
  | None => release (L_pipe pi) ;; ret (-1)
  | Some i =>
      wakeup (Some (Ch_pipe_nread pi)) ;;
      release (L_pipe pi) ;;
      ret i
  end.

(** [while (pi->nread == pi->nwrite && pi->writeopen)]: true when the process was
    killed. *)
Fixpoint piperead_wait (fuel : nat) (pr : nat) (pi : Z) : K bool :=
  p <- getpipe pi ;;
  if pipe_empty p && pi_writeopen p then
    k <- killed pr ;;
    if (k : bool) then ret true
    else
      match fuel with
      | O => no_fuel
      | S fuel' =>
          sleep_prepare (Some (Ch_pipe_nread pi)) ;;
          release (L_pipe pi) ;;
          sleep ;;
          acquire (L_pipe pi) ;;
          piperead_wait fuel' pr pi
      end
  else ret false.

(** [for (i = 0; i < n; i++)]; the fuel is [n - i]. *)
Fixpoint piperead_loop (left : nat) (pr : nat) (pi addr i : Z) : K Z :=
  match left with
  | O => ret i
  | S left' =>
      p <- getpipe pi ;;
      if pipe_empty p then ret i
      else
        q <- getproc pr ;;
        r <- copyout (p_pagetable q) (p_sz q) (u64 (addr + i)) [pipe_front p] ;;
        if r =? -1 then ret (if i =? 0 then -1 else i)
        else
          updpipe pi pipe_get ;;
          piperead_loop left' pr pi addr (i + 1)
  end.

Definition piperead (pi addr n : Z) : K Z :=
  pr <- curproc ;;
  acquire (L_pipe pi) ;;
  k <- piperead_wait sleep_fuel pr pi ;;
  if (k : bool) then release (L_pipe pi) ;; ret (-1)
  else
    i <- piperead_loop (Z.to_nat n) pr pi addr 0 ;;
    wakeup (Some (Ch_pipe_nwrite pi)) ;;
    release (L_pipe pi) ;;
    ret i.

End pipe.
