(* ===== verification/Fifo.v ===== *)
(** kernel/pipe.c: a pipe is a bounded queue of bytes between address spaces.

    [pipe_at p q] relates the ring buffer and its 32-bit counters, which wrap, to the
    bytes in the pipe; [pipewrite] and [piperead] append to and take from that queue. *)

From stdpp Require Import prelude gmap strings.
From Stdlib Require Import ZArith Lia.
From S2P Require Import Prelude Bytes Params State Spinlock Sched CString Kalloc Vm PageTable User Pipe.

Local Open Scope Z_scope.
Local Open Scope kernel_scope.

(** ** The ring buffer *)

Record pipe_at (p : pipe) (q : list Z) : Prop := {
  pa_data : length (pi_data p) = 512%nat;
  pa_nread : 0 <= pi_nread p < 2 ^ 32;
  pa_nwrite : pi_nwrite p = u32 (pi_nread p + Z.of_nat (length q));
  pa_room : (length q <= 512)%nat;
  pa_bytes : forall i, (i < length q)%nat ->
    pi_data p !! Z.to_nat ((pi_nread p + Z.of_nat i) mod PIPESIZE) = q !! i;
}.

(** The counters wrap at a multiple of the size of the buffer. *)
Lemma u32_mod_pipe x : u32 x mod PIPESIZE = x mod PIPESIZE.
Proof.
  unfold wrap, PIPESIZE. rewrite (Z.div_mod x (2 ^ 32)) at 2 by lia.
  change (2 ^ 32) with (8388608 * 512). rewrite <- Z.mul_assoc, (Z.mul_comm 512).
  rewrite Z.mul_assoc, Z.add_comm, Z.mod_add by lia. done.
Qed.

Lemma pipe_empty_at p q : pipe_at p q -> pipe_empty p = bool_decide (q = []).
Proof.
  intros H. unfold pipe_empty. rewrite (pa_nwrite _ _ H). pose proof (pa_nread _ _ H).
  pose proof (pa_room _ _ H). destruct q as [|b q].
  - rewrite Z.add_0_r, u32_small by done. apply Z.eqb_refl.
  - rewrite bool_decide_eq_false_2 by done. apply Z.eqb_neq. unfold wrap. cbn [length] in *.
    destruct (Z_lt_ge_dec (pi_nread p + Z.of_nat (S (length q))) (2 ^ 32)).
    + rewrite Z.mod_small; lia.
    + replace (pi_nread p + Z.of_nat (S (length q)))
        with ((pi_nread p + Z.of_nat (S (length q)) - 2 ^ 32) + 1 * 2 ^ 32) by lia.
      rewrite Z.mod_add, Z.mod_small; lia.
Qed.

Lemma u32_inj x a b :
  0 <= a <= 512 -> 0 <= b <= 512 -> u32 (x + a) = u32 (x + b) -> a = b.
Proof.
  intros Ha Hb. unfold wrap. intros E. Z.div_mod_to_equations. lia.
Qed.

Lemma pipe_full_at p q : pipe_at p q -> pipe_full p = bool_decide (length q = 512%nat).
Proof.
  intros H. unfold pipe_full. rewrite (pa_nwrite _ _ H). pose proof (pa_room _ _ H).
  case_bool_decide as E.
  - rewrite E. apply Z.eqb_refl.
  - apply Z.eqb_neq. unfold PIPESIZE. intros E'%u32_inj; lia.
Qed.

Lemma pipe_put_at p q c : pipe_at p q -> (length q < 512)%nat -> pipe_at (pipe_put c p) (q ++ [c]).
Proof.
  intros H Hr. pose proof (pa_nread _ _ H) as Hn. unfold pipe_put. split; rs.
  - rewrite length_insert. apply H.
  - done.
  - rewrite (pa_nwrite _ _ H), length_app. cbn [length]. unfold wrap. rewrite Zplus_mod_idemp_l. f_equal. lia.
  - rewrite length_app. cbn [length]. lia.
  - intros i Hi. rewrite length_app in Hi. cbn [length] in Hi.
    rewrite (pa_nwrite _ _ H), u32_mod_pipe.
    pose proof (Z.mod_pos_bound (pi_nread p + Z.of_nat (length q)) PIPESIZE ltac:(done)).
    pose proof (Z.mod_pos_bound (pi_nread p + Z.of_nat i) PIPESIZE ltac:(done)).
    destruct (decide (i = length q)) as [->|Hne].
    + rewrite list_lookup_insert_eq by (rewrite (pa_data _ _ H); unfold PIPESIZE in *; lia).
      by rewrite lookup_app_r, Nat.sub_diag by lia.
    + rewrite list_lookup_insert_ne.
      { rewrite lookup_app_l by lia. apply H. lia. }
      unfold PIPESIZE in *. intros E. apply Z2Nat.inj in E; [|lia..]. Z.div_mod_to_equations. lia.
Qed.

Lemma pipe_front_at p c q : pipe_at p (c :: q) -> pipe_front p = c.
Proof.
  intros H. unfold pipe_front. apply list_lookup_total_correct.
  pose proof (pa_bytes _ _ H 0) as E. cbn in E. rewrite Z.add_0_r in E. apply E. lia.
Qed.

Lemma pipe_get_at p c q : pipe_at p (c :: q) -> pipe_at (pipe_get p) q.
Proof.
  intros H. pose proof (pa_room _ _ H) as Hr. cbn [length] in Hr. unfold pipe_get. split; rs.
  - apply H.
  - apply u32_range.
  - rewrite (pa_nwrite _ _ H). cbn [length]. unfold wrap. rewrite Zplus_mod_idemp_l. f_equal. lia.
  - lia.
  - intros i Hi. change (q !! i) with ((c :: q) !! S i).
    rewrite <- (pa_bytes _ _ H (S i)) by (cbn [length]; lia). f_equal. f_equal.
    unfold PIPESIZE in *. rewrite <- Zplus_mod_idemp_l. fold PIPESIZE. rewrite u32_mod_pipe.
    unfold PIPESIZE. rewrite Zplus_mod_idemp_l. f_equal. lia.
Qed.

Section fifo.
Context {F : Fuel} {L : Linker} {LOk : LinkerOk L}.

(** ** One byte to and from user memory *)

Lemma copyin1 s ps t psz va :
  uvm_ok s ps t -> psz <= TRAPFRAME -> 0 <= va < 2 ^ 64 ->
  exists s' ps' t', ustep s ps t s' ps' t' /\ same_bytes (mem s) t (mem s') t' psz /\
    ((exists b, copyin (pt_root t) psz va 1 s = Ok (0, [b]) s' /\ ubyte (mem s) t psz va = Some b) \/
     (copyin (pt_root t) psz va 1 s = Ok (-1, []) s' /\
      (ubyte (mem s) t psz va = None \/ no_memory ps' (mem s) t va))).
Proof.
  intros H Hpsz Hva.
  destruct (copyin_loop_ok (Z.to_nat 1) s ps t psz va 1 [] H Hpsz Hva)
    as (s' & ps' & t' & r & l & E & U & B & Hl & Hr); [lia|].
  exists s', ps', t'. split; [done|]. split; [done|]. cbn [app] in E.
  destruct Hr as [[-> Hlen]|(-> & Hlen & Hn)].
  - left. destruct l as [|b [|? ?]]; cbn [length] in Hlen; try lia. exists b. split; [done|].
    specialize (Hl 0%nat). cbn in Hl. rewrite Z.add_0_r in Hl. apply Hl. lia.
  - right. destruct l as [|b l]; cbn [length] in *; [|lia]. by rewrite Z.add_0_r in Hn.
Qed.

Lemma copyout1 s ps t psz va b :
  uvm_ok s ps t -> psz <= TRAPFRAME -> 0 <= va < 2 ^ 64 ->
  exists s' ps' t', ustep s ps t s' ps' t' /\
    (forall a, present (mem s) t a = true -> present (mem s') t' a = true) /\
    (forall a, uwritable (mem s') t' psz a = uwritable (mem s) t psz a) /\
    ((copyout (pt_root t) psz va [b] s = Ok 0 s' /\ uwritable (mem s) t psz va = true /\
      (forall a, ubyte (mem s') t' psz a = with_bytes va [b] (ubyte (mem s) t psz) a)) \/
     (copyout (pt_root t) psz va [b] s = Ok (-1) s' /\ (forall a, ubyte (mem s') t' psz a = ubyte (mem s) t psz a) /\
      (uwritable (mem s) t psz va = false \/ no_memory ps' (mem s) t va))).
Proof.
  intros H Hpsz Hva. destruct (copyout_loop_ok 1 s ps t psz va [b] H Hpsz Hva)
    as (s' & ps' & t' & r & k & E & U & V & W & P & _ & Hw & Hr); [done|].
  exists s', ps', t'. do 3 (split; [done|]).
  destruct Hr as [[-> ->]|(-> & Hk & Hr)]; [left|right]; (split; [done|]).
  - split; [|done]. rewrite <- (Z.add_0_r va). by apply (Hw 0%nat); cbn; lia.
  - assert (k = 0%nat) as -> by (cbn [length] in Hk; lia). split; [|by rewrite Z.add_0_r in Hr].
    intros a. rewrite V. apply with_bytes_nil.
Qed.

(** ** The environment of a pipe operation *)

(** Process [i] is running, with the address space [t]; the pipe [pi] holds [q]. *)
Record pipe_env (s : kstate) (i : nat) (pr : proc) (ps : list Z) (t : ptree)
    (pi : Z) (p : pipe) (q : list Z) : Prop := {
  pe_cur : cpu_proc s = Some i;
  pe_plock : no_plock s;
  pe_proc : procs s !! i = Some pr;
  pe_table : p_pagetable pr = pt_root t;
  pe_size : p_sz pr <= TRAPFRAME;
  pe_uvm : uvm_ok s ps t;
  pe_pipe : pipes s !! pi = Some p;
  pe_at : pipe_at p q;
}.

(** Only memory and the pipe [pi] change. *)
Definition pipe_only (pi : Z) (s s' : kstate) : Prop :=
  s' = s <| mem := mem s' |> <| freelist := freelist s' |> <| pipes := pipes s' |> /\
  forall pj, pj <> pi -> pipes s' !! pj = pipes s !! pj.

Lemma pipe_only_trans pi s1 s2 s3 : pipe_only pi s1 s2 -> pipe_only pi s2 s3 -> pipe_only pi s1 s3.
Proof.
  intros [E1 F1] [E2 F2]. split; [|intros pj Hj; by rewrite F2, F1].
  rewrite E2, E1 at 1. rs. st_eq s1.
Qed.

Lemma uvm_ok_ext s s' ps t :
  uvm_ok s ps t -> mem s' = mem s -> freelist s' = freelist s -> L_kmem ∉ held s' -> uvm_ok s' ps t.
Proof.
  intros H Em Ef Hl. destruct (uv_vm _ _ _ H) as (HK & HT & Hd & _). split; rewrite ?Em; try apply H.
  split; [by unfold kmem_inv; rewrite Em, Ef|]. by rewrite Em.
Qed.

Lemma uvm_lock s ps t : uvm_ok s ps t -> L_kmem ∉ held s.
Proof. intros H. by destruct (uv_vm _ _ _ H) as (_ & _ & _ & ?). Qed.

Lemma ustep_pipe_only pi s ps t s' ps' t' : ustep s ps t s' ps' t' -> pipe_only pi s s'.
Proof.
  intros U. rewrite (us_only _ _ _ _ _ _ U). split; [rs; st_eq s|]. by rs.
Qed.

(** The environment after a step in the address space, and after a change of the pipe. *)
Lemma pipe_env_ustep s i pr ps t pi p q s' ps' t' :
  pipe_env s i pr ps t pi p q -> ustep s ps t s' ps' t' -> pipe_env s' i pr ps' t' pi p q.
Proof.
  intros H U. pose proof (us_only _ _ _ _ _ _ U) as E. split; try apply H.
  - rewrite E. apply H.
  - rewrite E. apply H.
  - rewrite E. apply H.
  - rewrite (us_root _ _ _ _ _ _ U). apply H.
  - apply U.
  - rewrite E. apply H.
Qed.

Lemma pipe_env_upd s i pr ps t pi p q f q' :
  pipe_env s i pr ps t pi p q -> pipe_at (f p) q' ->
  let s' := s <| pipes := alter f pi (pipes s) |> in
  pipe_env s' i pr ps t pi (f p) q' /\ pipe_only pi s s'.
Proof.
  intros H Hq s'. split.
  - split; try apply H; try done.
    + eapply uvm_ok_ext; [apply H|done|done|]. exact (uvm_lock _ _ _ (pe_uvm _ _ _ _ _ _ _ _ H)).
    + unfold s'. rs. rewrite lookup_alter_eq, (pe_pipe _ _ _ _ _ _ _ _ H). done.
  - split; [unfold s'; rs; st_eq s|]. intros pj Hj. unfold s'. rs. by apply lookup_alter_ne.
Qed.

Lemma getpipe_ok pi p s : pipes s !! pi = Some p -> getpipe pi s = Ok p s.
Proof. intros H. unfold getpipe, bind, gets. cbn. by rewrite H. Qed.

(** ** Writing *)

(** The writer has put [l] into the pipe. *)
Record wrote (s : kstate) (i : nat) (pr : proc) (ps : list Z) (t : ptree) (pi : Z) (p : pipe)
    (q : list Z) (va : Z) (l : list Z) (s' : kstate) (ps' : list Z) (t' : ptree) (p' : pipe) : Prop := {
  wr_env : pipe_env s' i pr ps' t' pi p' (q ++ l);
  wr_only : pipe_only pi s s';
  wr_open : pi_readopen p' = pi_readopen p /\ pi_writeopen p' = pi_writeopen p;
  wr_same : same_bytes (mem s) t (mem s') t' (p_sz pr);
  wr_bytes : holds_bytes (mem s) t (p_sz pr) va l;
}.

Lemma wrote_nil s i pr ps t pi p q va s' ps' t' :
  pipe_env s i pr ps t pi p q -> ustep s ps t s' ps' t' -> same_bytes (mem s) t (mem s') t' (p_sz pr) ->
  wrote s i pr ps t pi p q va [] s' ps' t' p.
Proof.
  intros H U B. split; try done.
  - rewrite app_nil_r. by eapply pipe_env_ustep.
  - by eapply ustep_pipe_only.
  - intros k. cbn. lia.
Qed.

Lemma wrote_cons s i pr ps t pi p q va b l s1 ps1 t1 s2 ps2 t2 p2 :
  pipe_env s i pr ps t pi p q -> (length q < 512)%nat -> ustep s ps t s1 ps1 t1 ->
  same_bytes (mem s) t (mem s1) t1 (p_sz pr) -> ubyte (mem s) t (p_sz pr) va = Some b ->
  wrote (s1 <| pipes := alter (pipe_put b) pi (pipes s1) |>) i pr ps1 t1 pi (pipe_put b p) (q ++ [b])
    (va + 1) l s2 ps2 t2 p2 ->
  wrote s i pr ps t pi p q va (b :: l) s2 ps2 t2 p2.
Proof.
  intros H Hr U B Hb W.
  destruct (pipe_env_upd s1 i pr ps1 t1 pi p q (pipe_put b) (q ++ [b])) as [_ Ho].
  { by eapply pipe_env_ustep. }
  { apply pipe_put_at; [apply H|done]. }
  destruct W as [We Wo [Wo1 Wo2] Ws Wb]. rs_in Ws. rs_in Wb. split.
  - by rewrite cons_middle, app_assoc.
  - eapply pipe_only_trans; [by eapply ustep_pipe_only|]. by eapply pipe_only_trans.
  - done.
  - by eapply same_bytes_trans.
  - intros k Hk. destruct k as [|k]; [by rewrite Z.add_0_r|]. cbn [length] in Hk.
    replace (va + Z.of_nat (S k)) with (va + 1 + Z.of_nat k) by lia.
    rewrite <- (sb_byte _ _ _ _ _ B). cbn. apply Wb. lia.
Qed.

Lemma pipewrite_loop_ok fuel s i pr ps t pi p q addr j n :
  pipe_env s i pr ps t pi p q -> pi_readopen p = true -> p_killed pr = false ->
  0 <= addr -> addr + n <= 2 ^ 64 -> 0 <= j <= n -> n - j <= Z.of_nat fuel ->
  exists s' ps' t' p' l, wrote s i pr ps t pi p q (addr + j) l s' ps' t' p' /\
    let j' := j + Z.of_nat (length l) in
    ((j' = n /\ pipewrite_loop fuel i pi addr j n s = Ok (Some n) s') \/
     (j' < n /\ (ubyte (mem s) t (p_sz pr) (addr + j') = None \/ no_memory ps' (mem s) t (addr + j')) /\
      pipewrite_loop fuel i pi addr j n s = Ok (Some (if j' =? 0 then -1 else j')) s') \/
     (j' < n /\ length (q ++ l) = 512%nat /\
      pipewrite_loop fuel i pi addr j n s = pipewrite_loop (fuel - length l) i pi addr j' n s')).
Proof.
  revert s ps t p q j. induction fuel as [|fuel IH]; intros s ps t p q j H Hro Hk Ha Han Hj Hf;
    (destruct (decide (j = n)) as [->|Hne];
     [exists s, ps, t, p, []; split;
       [apply wrote_nil; [done|by apply ustep_refl, (pe_uvm _ _ _ _ _ _ _ _ H)|apply same_bytes_refl]|];
      cbn [length]; rewrite Z.add_0_r; left; split; [done|]; cbn [pipewrite_loop]; by rewrite Z.ltb_irrefl|]);
    [lia|].
  assert (Hstay : wrote s i pr ps t pi p q (addr + j) [] s ps t p).
  { apply wrote_nil; [done|by apply ustep_refl, (pe_uvm _ _ _ _ _ _ _ _ H)|apply same_bytes_refl]. }
  destruct (decide (length q = 512%nat)) as [Hfull|Hroom].
  { exists s, ps, t, p, []. split; [done|]. cbn [length]. rewrite Z.add_0_r, Nat.sub_0_r, app_nil_r.
    right. right. split; [lia|]. split; [done|done]. }
  cbn [pipewrite_loop]. rewrite (proj2 (Z.ltb_lt j n)) by lia.
  run (getpipe_ok pi p s (pe_pipe _ _ _ _ _ _ _ _ H)). rewrite Hro.
  destruct (pe_plock _ _ _ _ _ _ _ _ H) as [_ Hpl].
  run (killed_ok i pr s (pe_proc _ _ _ _ _ _ _ _ H) (Hpl i)). rewrite Hk.
  rewrite (pipe_full_at p q) by apply H. rewrite bool_decide_eq_false_2 by done.
  erewrite (bind_ok (getproc i)); [|apply get_at_ok; apply H].
  rewrite u64_small by lia. rewrite (pe_table _ _ _ _ _ _ _ _ H).
  assert (Hlen : (length q < 512)%nat).
  { pose proof (pa_room _ _ (pe_at _ _ _ _ _ _ _ _ H)). lia. }
  destruct (copyin1 s ps t (p_sz pr) (addr + j)) as (s1 & ps1 & t1 & U & B & [(b & E & Hb)|(E & Hn)]);
    [apply H|apply H|lia| |].
  - destruct (pipe_env_upd s1 i pr ps1 t1 pi p q (pipe_put b) (q ++ [b])) as [H2 _].
    { by eapply pipe_env_ustep. }
    { by apply pipe_put_at; [apply H|]. }
    destruct (IH _ ps1 t1 (pipe_put b p) (q ++ [b]) (j + 1) H2) as (s' & ps' & t' & p' & l & W & R); try done; try lia.
    exists s', ps', t', p', (b :: l). split; [rewrite Z.add_assoc in W; by eapply wrote_cons|].
    run E. cbn [fst snd hd Z.eqb]. unfold updpipe. rewrite bind_modify.
    cbn [length]. replace (j + Z.of_nat (S (length l))) with (j + 1 + Z.of_nat (length l)) by lia.
    cbv zeta in R. rewrite (cons_middle b q l), (app_assoc q [b] l). rs_in R.
    destruct R as [R|[(R1 & R2 & R3)|R]]; [by left|right; left|by right; right].
    split; [done|]. split; [|done]. rewrite <- (sb_byte _ _ _ _ _ B).
    destruct R2 as [R2|[R2 R2']]; [by left|right]. split; [done|].
    destruct (present (mem s) t _) eqn:Ep; [|done]. apply (sb_present _ _ _ _ _ B) in Ep. congruence.
  - exists s1, ps1, t1, p, []. split; [by apply wrote_nil|]. cbn [length]. rewrite Z.add_0_r.
    right. left. split; [lia|]. split; [done|]. by run E.
Qed.

(** ** Reading *)

(** The reader has taken [k] bytes from the pipe. *)
Record took (s : kstate) (i : nat) (pr : proc) (ps : list Z) (t : ptree) (pi : Z) (p : pipe)
    (q : list Z) (va : Z) (k : nat) (s' : kstate) (ps' : list Z) (t' : ptree) (p' : pipe) : Prop := {
  tk_env : pipe_env s' i pr ps' t' pi p' (drop k q);
  tk_only : pipe_only pi s s';
  tk_open : pi_readopen p' = pi_readopen p /\ pi_writeopen p' = pi_writeopen p;
  tk_bytes : forall a, ubyte (mem s') t' (p_sz pr) a =
    with_bytes va (take k q) (ubyte (mem s) t (p_sz pr)) a;
  tk_write : forall a, uwritable (mem s') t' (p_sz pr) a = uwritable (mem s) t (p_sz pr) a;
  tk_present : forall a, present (mem s) t a = true -> present (mem s') t' a = true;
}.

Lemma took_none s i pr ps t pi p q va s' ps' t' :
  pipe_env s i pr ps t pi p q -> ustep s ps t s' ps' t' ->
  (forall a, ubyte (mem s') t' (p_sz pr) a = ubyte (mem s) t (p_sz pr) a) ->
  (forall a, uwritable (mem s') t' (p_sz pr) a = uwritable (mem s) t (p_sz pr) a) ->
  (forall a, present (mem s) t a = true -> present (mem s') t' a = true) ->
  took s i pr ps t pi p q va 0 s' ps' t' p.
Proof.
  intros H U Hb Hw Hp. split; try done.
  - by eapply pipe_env_ustep.
  - by eapply ustep_pipe_only.
  - intros a. cbn [take]. by rewrite with_bytes_nil.
Qed.

Lemma took_cons s i pr ps t pi p c q va k s1 ps1 t1 s2 ps2 t2 p2 :
  pipe_env s i pr ps t pi p (c :: q) -> ustep s ps t s1 ps1 t1 ->
  (forall a, present (mem s) t a = true -> present (mem s1) t1 a = true) ->
  (forall a, uwritable (mem s1) t1 (p_sz pr) a = uwritable (mem s) t (p_sz pr) a) ->
  (forall a, ubyte (mem s1) t1 (p_sz pr) a = with_bytes va [c] (ubyte (mem s) t (p_sz pr)) a) ->
  took (s1 <| pipes := alter pipe_get pi (pipes s1) |>) i pr ps1 t1 pi (pipe_get p) q (va + 1) k s2 ps2 t2 p2 ->
  took s i pr ps t pi p (c :: q) va (S k) s2 ps2 t2 p2.
Proof.
  intros H U Hp Hw Hb T.
  destruct (pipe_env_upd s1 i pr ps1 t1 pi p (c :: q) pipe_get q) as [_ Ho].
  { by eapply pipe_env_ustep. }
  { eapply pipe_get_at. apply H. }
  destruct T as [Te To [To1 To2] Tb Tw Tp]. rs_in Tb. rs_in Tw. rs_in Tp. split; try done.
  - eapply pipe_only_trans; [by eapply ustep_pipe_only|]. by eapply pipe_only_trans.
  - intros a. rewrite Tb. cbn [take]. change (c :: take k q) with ([c] ++ take k q).
    rewrite <- with_bytes_app. by apply with_bytes_ext.
  - intros a. by rewrite Tw.
  - intros a Ha. by apply Tp, Hp.
Qed.

Lemma piperead_loop_ok left s i pr ps t pi p q addr j :
  pipe_env s i pr ps t pi p q -> 0 <= addr -> 0 <= j -> addr + j + Z.of_nat left <= 2 ^ 64 ->
  exists s' ps' t' p' k, took s i pr ps t pi p q (addr + j) k s' ps' t' p' /\
    (k <= left)%nat /\ (k <= length q)%nat /\
    let j' := j + Z.of_nat k in
    (((k = left \/ k = length q) /\ piperead_loop left i pi addr j s = Ok j' s') \/
     ((k < left)%nat /\ (k < length q)%nat /\
      (uwritable (mem s) t (p_sz pr) (addr + j') = false \/ no_memory ps' (mem s) t (addr + j')) /\
      piperead_loop left i pi addr j s = Ok (if j' =? 0 then -1 else j') s')).
Proof.
  revert s ps t p q j. induction left as [|left IH]; intros s ps t p q j H Ha Hj Hmax.
  { exists s, ps, t, p, 0%nat. split; [apply took_none; try done; by apply ustep_refl, (pe_uvm _ _ _ _ _ _ _ _ H)|].
    split; [lia|]. split; [lia|]. left. split; [by left|]. cbn. by rewrite Z.add_0_r. }
  cbn [piperead_loop]. run (getpipe_ok pi p s (pe_pipe _ _ _ _ _ _ _ _ H)).
  rewrite (pipe_empty_at p q) by apply H. destruct q as [|c q].
  { exists s, ps, t, p, 0%nat. split; [apply took_none; try done; by apply ustep_refl, (pe_uvm _ _ _ _ _ _ _ _ H)|].
    split; [lia|]. split; [lia|]. left. split; [by right|]. cbn. by rewrite Z.add_0_r. }
  rewrite bool_decide_eq_false_2 by done.
  erewrite (bind_ok (getproc i)); [|apply get_at_ok; apply H].
  rewrite (pipe_front_at p c q) by apply H.
  rewrite u64_small by lia. rewrite (pe_table _ _ _ _ _ _ _ _ H).
  destruct (copyout1 s ps t (p_sz pr) (addr + j) c)
    as (s1 & ps1 & t1 & U & Hp & Hw & [(E & Hwr & Hb)|(E & Hb & Hn)]); [apply H|apply H|lia| |].
  - destruct (pipe_env_upd s1 i pr ps1 t1 pi p (c :: q) pipe_get q) as [H2 _].
    { by eapply pipe_env_ustep. }
    { eapply pipe_get_at. apply H. }
    destruct (IH _ ps1 t1 (pipe_get p) q (j + 1) H2) as (s' & ps' & t' & p' & k & T & Hk1 & Hk2 & R); try done; try lia.
    exists s', ps', t', p', (S k). split; [rewrite Z.add_assoc in T; by eapply took_cons|].
    split; [lia|]. split; [cbn [length]; lia|]. run E. cbn [Z.eqb]. unfold updpipe. rewrite bind_modify.
    cbv zeta in R. replace (j + Z.of_nat (S k)) with (j + 1 + Z.of_nat k) by lia. rs_in R.
    destruct R as [[R1 R2]|(R1 & R2 & R3 & R4)]; [left|right].
    + split; [|done]. cbn [length]. lia.
    + split; [lia|]. split; [cbn [length]; lia|]. split; [|done]. rewrite <- Hw.
      destruct R3 as [R3|[R3 R3']]; [by left|right]. split; [done|].
      destruct (present (mem s) t _) eqn:Ep; [|done]. apply Hp in Ep. congruence.
  - exists s1, ps1, t1, p, 0%nat. split; [by apply took_none|]. split; [lia|]. split; [lia|].
    cbn [length]. rewrite Z.add_0_r. right. split; [lia|]. split; [lia|]. split; [done|]. by run E.
Qed.

(** ** Blocking *)

(** The state after waking the other side and releasing the lock. *)
Definition woken (c : chan) (s : kstate) : kstate :=
  s <| procs := map (wake1 (Some c)) (procs s) |> <| held := [] |>.

Lemma wake_release {A : Type} c lk (r : A) s :
  no_plock s -> held s = [lk] ->
  (wakeup (Some c) ;; release lk ;; ret r) s = Ok r (woken c s).
Proof.
  intros H Hh. run (wakeup_ok (Some c) s H).
  erewrite (bind_ok (release _)); [|apply (release_ok lk []); [by rs|apply not_elem_of_nil]].
  reflexivity.
Qed.

Lemma pipe_only_held pi s s' : pipe_only pi s s' -> held s' = held s.
Proof. intros [E _]. by rewrite E. Qed.

Lemma pipe_env_lock s i pr ps t pi p q :
  pipe_env s i pr ps t pi p q -> pipe_env (s <| held := [L_pipe pi] |>) i pr ps t pi p q.
Proof.
  intros H. split; try apply H.
  - split; [apply (pe_plock _ _ _ _ _ _ _ _ H)|]. intros j. rs. by intros [=]%list_elem_of_singleton.
  - eapply uvm_ok_ext; [apply H|done..|]. rs. by intros [=]%list_elem_of_singleton.
Qed.

(** ** The operations, with their waits *)

(** What [pipewrite] does from the state [s], with the lock of the pipe held and [j] bytes written, if it sleeps
    at most [m] times.  It appends a prefix [l] of the bytes that are left; all of them, as many as can be read, or
    as many as fit.  In the last case it wakes the readers and sleeps; in whatever
    state it is resumed, it goes on from there. *)
Fixpoint writes (m : nat) (i : nat) (pi addr n j : Z) (s : kstate) (o : outcome kstate Z) : Prop :=
  forall pr ps t p q, pipe_env s i pr ps t pi p q ->
    if decide (j = n) then o = Ok n (woken (Ch_pipe_nread pi) s)
    else if negb (pi_readopen p) || p_killed pr then o = Ok (-1) (s <| held := [] |>)
    else exists s1 ps1 t1 p1 l,
      wrote s i pr ps t pi p q (addr + j) l s1 ps1 t1 p1 /\
      let j' := j + Z.of_nat (length l) in
      ((j' = n /\ o = Ok n (woken (Ch_pipe_nread pi) s1)) \/
       (j' < n /\ (ubyte (mem s) t (p_sz pr) (addr + j') = None \/ no_memory ps1 (mem s) t (addr + j')) /\
        o = Ok (if j' =? 0 then -1 else j') (woken (Ch_pipe_nread pi) s1)) \/
       (j' < n /\ length (q ++ l) = 512%nat /\
        exists k, o = Switch (sleeps_on i (Ch_pipe_nwrite pi)
                         (s1 <| procs := map (wake1 (Some (Ch_pipe_nread pi))) (procs s1) |>)) k /\
          match m with
          | O => True
          | S m' => forall s', resumed i s' -> writes m' i pi addr n j' (s' <| held := [L_pipe pi] |>) (k s')
          end)).

(** What [piperead] does: it waits for a byte or for the last writer to close the pipe, and takes the oldest
    bytes, as many as there are, as it wants, or as can be stored. *)
Fixpoint reads (m : nat) (i : nat) (pi addr n : Z) (s : kstate) (o : outcome kstate Z) : Prop :=
  forall pr ps t p q, pipe_env s i pr ps t pi p q ->
    if bool_decide (q = []) && pi_writeopen p then
      if p_killed pr then o = Ok (-1) (s <| held := [] |>)
      else
        match m with
        | O => o = NoFuel
        | S m' => exists k, o = Switch (sleeps_on i (Ch_pipe_nread pi) s) k /\
            forall s', resumed i s' -> reads m' i pi addr n (s' <| held := [L_pipe pi] |>) (k s')
        end
    else exists s1 ps1 t1 p1 k,
      took s i pr ps t pi p q addr k s1 ps1 t1 p1 /\
      (k <= Z.to_nat n)%nat /\ (k <= length q)%nat /\
      (((k = Z.to_nat n \/ k = length q) /\ o = Ok (Z.of_nat k) (woken (Ch_pipe_nwrite pi) s1)) \/
       ((k < Z.to_nat n)%nat /\ (k < length q)%nat /\
        (uwritable (mem s) t (p_sz pr) (addr + Z.of_nat k) = false \/
         no_memory ps1 (mem s) t (addr + Z.of_nat k)) /\
        o = Ok (if Z.of_nat k =? 0 then -1 else Z.of_nat k) (woken (Ch_pipe_nwrite pi) s1))).

Lemma pipewrite_stops f i pr ps t pi p q addr j n s :
  pipe_env s i pr ps t pi p q -> j < n -> negb (pi_readopen p) || p_killed pr = true ->
  pipewrite_loop (S f) i pi addr j n s = Ok None s.
Proof.
  intros H Hj Hs. cbn [pipewrite_loop]. rewrite (proj2 (Z.ltb_lt j n)) by lia.
  run (getpipe_ok pi p s (pe_pipe _ _ _ _ _ _ _ _ H)). destruct (pi_readopen p); [|done].
  destruct (pe_plock _ _ _ _ _ _ _ _ H) as [_ Hpl]. run (killed_ok i pr s (pe_proc _ _ _ _ _ _ _ _ H) (Hpl i)).
  cbn in Hs. by rewrite Hs.
Qed.

Lemma pipewrite_sleeps f i pr ps t pi p q addr j n s :
  pipe_env s i pr ps t pi p q -> held s = [L_pipe pi] -> j < n -> pi_readopen p = true -> p_killed pr = false -> length q = 512%nat ->
  exists k, pipewrite_loop (S f) i pi addr j n s =
      Switch (sleeps_on i (Ch_pipe_nwrite pi) (s <| procs := map (wake1 (Some (Ch_pipe_nread pi))) (procs s) |>)) k /\
    forall s', resumed i s' -> k s' = pipewrite_loop f i pi addr j n (s' <| held := [L_pipe pi] |>).
Proof.
  intros H Hh Hj Hro Hk Hq. cbn [pipewrite_loop]. rewrite (proj2 (Z.ltb_lt j n)) by lia.
  run (getpipe_ok pi p s (pe_pipe _ _ _ _ _ _ _ _ H)). rewrite Hro.
  destruct (pe_plock _ _ _ _ _ _ _ _ H) as [Hlen Hpl]. run (killed_ok i pr s (pe_proc _ _ _ _ _ _ _ _ H) (Hpl i)). rewrite Hk.
  rewrite (pipe_full_at p q) by apply H. rewrite bool_decide_eq_true_2 by done.
  run (wakeup_ok (Some (Ch_pipe_nread pi)) s (conj Hlen Hpl)).
  destruct (prepare_switch i (Ch_pipe_nwrite pi) (L_pipe pi) (acquire (L_pipe pi) ;; pipewrite_loop f i pi addr j n)
    (s <| procs := map (wake1 (Some (Ch_pipe_nread pi))) (procs s) |>)) as (k & E & Hs); [apply H|done|done| |].
  { rs. rewrite list_lookup_fmap, (pe_proc _ _ _ _ _ _ _ _ H). by eexists. }
  exists k. split; [exact E|]. intros s' Hs'. rewrite (Hs s' Hs').
  erewrite (bind_ok (acquire _)) by (apply acquire_ok; rs; apply not_elem_of_nil). f_equal.
Qed.

(** The end of [pipewrite]. *)
Definition write_end (pi : Z) (r : option Z) : K Z :=
  match r with
  | None => release (L_pipe pi) ;; ret (-1)
  | Some i => wakeup (Some (Ch_pipe_nread pi)) ;; release (L_pipe pi) ;; ret i
  end.

Lemma write_loop_writes i pi addr n : 0 <= addr -> addr + n <= 2 ^ 64 ->
  forall m j s, held s = [L_pipe pi] -> 0 <= j <= n ->
    writes m i pi addr n j s (bind (pipewrite_loop (m + Z.to_nat (n - j)) i pi addr j n) (write_end pi) s).
Proof.
  intros Ha Hmax. induction m as [m IH] using lt_wf_ind. intros j s Hh Hj.
  destruct m as [|m']; cbn [writes]; intros pr ps t p q H; set (fuel := (_ + Z.to_nat (n - j))%nat).
  all: case_decide as Hjn; [subst j; erewrite (bind_ok (pipewrite_loop _ _ _ _ _ _));
      [|destruct fuel; cbn [pipewrite_loop]; by rewrite Z.ltb_irrefl]; apply wake_release; [apply H|done]|].
  all: destruct (negb (pi_readopen p) || p_killed pr) eqn:Es;
    [destruct fuel as [|f] eqn:Ef; [lia|]; rewrite (bind_ok _ _ _ _ _ (pipewrite_stops f i pr ps t pi p q addr j n s H ltac:(lia) Es));
     cbn [write_end]; by erewrite (bind_ok (release _)) by (apply (release_ok (L_pipe pi) []); [done|apply not_elem_of_nil])|].
  all: apply orb_false_iff in Es as [Hro%negb_false_iff Hk].
  all: destruct (pipewrite_loop_ok fuel s i pr ps t pi p q addr j n H) as (s1 & ps1 & t1 & p1 & l & W & R); try done; try lia.
  all: exists s1, ps1, t1, p1, l; split; [done|]; cbv zeta in R |- *.
  all: assert (Hh1 : held s1 = [L_pipe pi]) by (by rewrite (pipe_only_held _ _ _ (wr_only _ _ _ _ _ _ _ _ _ _ _ _ _ _ W))).
  all: pose proof (wr_env _ _ _ _ _ _ _ _ _ _ _ _ _ _ W) as H1.
  all: destruct R as [(R1 & R2)|[(R1 & R2 & R3)|(R1 & R2 & R3)]]; [left|right; left|right; right].
  1, 4: split; [done|]; run R2; apply wake_release; [apply H1|done].
  1, 3: do 2 (split; [done|]); run R3; apply wake_release; [apply H1|done].
  all: do 2 (split; [done|]); unfold bind at 1; rewrite R3.
  all: destruct (fuel - length l)%nat as [|f] eqn:Ef; [lia|].
  all: edestruct (pipewrite_sleeps f i pr ps1 t1 pi p1 (q ++ l) addr (j + Z.of_nat (length l)) n s1) as (k & E & Hres);
    [done|done|done|by rewrite (proj1 (wr_open _ _ _ _ _ _ _ _ _ _ _ _ _ _ W))|done|done|].
  all: rewrite E; cbn [obind]; eexists; (split; [reflexivity|]).
  1: done.
  intros s' Hs'. cbv beta. rewrite (Hres s' Hs').
  replace f with (m' + Z.to_nat (n - (j + Z.of_nat (length l))))%nat by lia.
  apply (IH m' ltac:(lia)); [done|lia].
Qed.

Lemma piperead_wait_ok fuel s i pr ps t pi p q :
  pipe_env s i pr ps t pi p q -> q <> [] \/ pi_writeopen p = false ->
  piperead_wait fuel i pi s = Ok false s.
Proof.
  intros H Hq. assert (E : pipe_empty p && pi_writeopen p = false).
  { rewrite (pipe_empty_at p q) by apply H. case_bool_decide; [|done]. by destruct Hq as [?| ->]. }
  destruct fuel; cbn [piperead_wait]; run (getpipe_ok pi p s (pe_pipe _ _ _ _ _ _ _ _ H)); by rewrite E.
Qed.

Lemma piperead_waits f i pr ps t pi p s :
  pipe_env s i pr ps t pi p [] -> held s = [L_pipe pi] -> pi_writeopen p = true -> p_killed pr = false ->
  exists k, piperead_wait (S f) i pi s = Switch (sleeps_on i (Ch_pipe_nread pi) s) k /\
    forall s', resumed i s' -> k s' = piperead_wait f i pi (s' <| held := [L_pipe pi] |>).
Proof.
  intros H Hh Hwo Hk. cbn [piperead_wait]. destruct (pe_plock _ _ _ _ _ _ _ _ H) as [Hlen Hpl].
  run (getpipe_ok pi p s (pe_pipe _ _ _ _ _ _ _ _ H)). rewrite (pipe_empty_at p []) by apply H.
  rewrite Hwo, bool_decide_eq_true_2 by done. cbn [andb]. run (killed_ok i pr s (pe_proc _ _ _ _ _ _ _ _ H) (Hpl i)). rewrite Hk.
  destruct (prepare_switch i (Ch_pipe_nread pi) (L_pipe pi) (acquire (L_pipe pi) ;; piperead_wait f i pi) s)
    as (k & E & Hs); [apply H|done|done|eexists; apply H|].
  exists k. split; [exact E|]. intros s' Hs'. rewrite (Hs s' Hs').
  erewrite (bind_ok (acquire _)) by (apply acquire_ok; rs; apply not_elem_of_nil). f_equal.
Qed.

(** [piperead] after its wait. *)
Definition read_end (i : nat) (pi addr n : Z) (k : bool) : K Z :=
  if k then release (L_pipe pi) ;; ret (-1)
  else
    j <- piperead_loop (Z.to_nat n) i pi addr 0 ;;
    wakeup (Some (Ch_pipe_nwrite pi)) ;;
    release (L_pipe pi) ;;
    ret j.

Lemma read_end_ok s i pr ps t pi p q addr n :
  pipe_env s i pr ps t pi p q -> held s = [L_pipe pi] -> 0 <= addr -> 0 <= n -> addr + n <= 2 ^ 64 ->
  exists s1 ps1 t1 p1 k,
    took s i pr ps t pi p q addr k s1 ps1 t1 p1 /\
    (k <= Z.to_nat n)%nat /\ (k <= length q)%nat /\
    (((k = Z.to_nat n \/ k = length q) /\
      read_end i pi addr n false s = Ok (Z.of_nat k) (woken (Ch_pipe_nwrite pi) s1)) \/
     ((k < Z.to_nat n)%nat /\ (k < length q)%nat /\
      (uwritable (mem s) t (p_sz pr) (addr + Z.of_nat k) = false \/
       no_memory ps1 (mem s) t (addr + Z.of_nat k)) /\
      read_end i pi addr n false s = Ok (if Z.of_nat k =? 0 then -1 else Z.of_nat k) (woken (Ch_pipe_nwrite pi) s1))).
Proof.
  intros H Hh Ha Hn Hmax. destruct (piperead_loop_ok (Z.to_nat n) s i pr ps t pi p q addr 0 H)
    as (s1 & ps1 & t1 & p1 & k & T & Hk1 & Hk2 & R); try done; try lia.
  rewrite Z.add_0_r in T. cbv zeta in R. rewrite Z.add_0_l in R.
  exists s1, ps1, t1, p1, k. do 3 (split; [done|]).
  assert (Hh1 : held s1 = [L_pipe pi]) by (by rewrite (pipe_only_held _ _ _ (tk_only _ _ _ _ _ _ _ _ _ _ _ _ _ _ T))).
  pose proof (tk_env _ _ _ _ _ _ _ _ _ _ _ _ _ _ T) as H1. unfold read_end.
  destruct R as [(R1 & R2)|(R1 & R2 & R3 & R4)]; [left|right].
  - split; [done|]. run R2. apply wake_release; [apply H1|done].
  - do 3 (split; [done|]). run R4. apply wake_release; [apply H1|done].
Qed.

Lemma read_loop_reads i pi addr n : 0 <= addr -> 0 <= n -> addr + n <= 2 ^ 64 ->
  forall m s, held s = [L_pipe pi] -> reads m i pi addr n s (bind (piperead_wait m i pi) (read_end i pi addr n) s).
Proof.
  intros Ha Hn Hmax. induction m as [|m IH]; intros s Hh; cbn [reads]; intros pr ps t p q H.
  all: destruct (bool_decide (q = []) && pi_writeopen p) eqn:E;
    [apply andb_true_iff in E as [->%bool_decide_eq_true_1 Hwo]|
     rewrite (bind_ok _ _ _ _ _ (piperead_wait_ok _ s i pr ps t pi p q H ltac:(apply andb_false_iff in E as [?%bool_decide_eq_false_1|?]; [by left|by right])));
     by apply read_end_ok].
  all: assert (Ek : forall f, p_killed pr = true -> piperead_wait f i pi s = Ok true s) by
    (intros f Ek; destruct f; cbn [piperead_wait]; run (getpipe_ok pi p s (pe_pipe _ _ _ _ _ _ _ _ H));
     rewrite (pipe_empty_at p []), Hwo, bool_decide_eq_true_2 by (done || apply H); cbn [andb];
     run (killed_ok i pr s (pe_proc _ _ _ _ _ _ _ _ H) (proj2 (pe_plock _ _ _ _ _ _ _ _ H) i)); by rewrite Ek).
  all: destruct (p_killed pr) eqn:Hk; [rewrite (bind_ok _ _ _ _ _ (Ek _ eq_refl)); unfold read_end;
    by erewrite (bind_ok (release _)) by (apply (release_ok (L_pipe pi) []); [done|apply not_elem_of_nil])|].
  - unfold bind at 1. cbn [piperead_wait]. run (getpipe_ok pi p s (pe_pipe _ _ _ _ _ _ _ _ H)).
    rewrite (pipe_empty_at p []), Hwo, bool_decide_eq_true_2 by (done || apply H). cbn [andb].
    run (killed_ok i pr s (pe_proc _ _ _ _ _ _ _ _ H) (proj2 (pe_plock _ _ _ _ _ _ _ _ H) i)). by rewrite Hk.
  - destruct (piperead_waits m i pr ps t pi p s H Hh Hwo Hk) as (k & Es & Hres).
    unfold bind at 1. rewrite Es. cbn [obind]. eexists. split; [reflexivity|]. intros s' Hs'. cbv beta. rewrite (Hres s' Hs').
    by apply IH.
Qed.

(** C16: A pipe is a bounded queue of bytes.  [pipewrite] appends the writer's bytes, in order, to the bytes in the pipe: all of
    them, when it returns [n]; as many as could be read from its memory, otherwise (-1 for none).  When the pipe is
    full with bytes left to write, nothing is overwritten: every reader has been woken, the writer sleeps on the
    pipe, and each time it is woken, in whatever state, it does the same with the bytes that are left.  [piperead] stores the oldest
    bytes of the pipe, at most [n], in the reader's memory in order, and removes exactly those it
    returns.  It sleeps while the pipe is empty and a writer is left, testing again each time it is woken, and returns 0 when there is
    none.  A write with no reader left, and an operation of a killed process that would sleep, return -1.  The
    32-bit counters may wrap around. *)
Theorem pipe_is_queue s i pi addr n :
  cpu_proc s = Some i -> held s = [] -> 0 <= addr -> 0 <= n -> addr + n <= 2 ^ 64 ->
  writes sleep_fuel i pi addr n 0 (s <| held := [L_pipe pi] |>) (pipewrite pi addr n s) /\
  reads sleep_fuel i pi addr n (s <| held := [L_pipe pi] |>) (piperead pi addr n s).
Proof.
  intros Hi Hh Ha Hn Hmax. unfold pipewrite, piperead. rewrite !(bind_curproc i) by done.
  rewrite !(bind_ok _ _ _ _ _ (acquire_ok (L_pipe pi) s ltac:(rewrite Hh; apply not_elem_of_nil))), Hh.
  split; [|by apply read_loop_reads].
  replace (Z.to_nat n) with (Z.to_nat (n - 0)) by (f_equal; lia). apply write_loop_writes; [done..|lia].
Qed.

End fifo.

Section witnesses.
Import Small.

Definition small_fuel : Fuel := 1%nat.
#[local] Existing Instance small_fuel.

(** An empty pipe whose counters are about to wrap, and a process that may write to it. *)
Definition near_wrap : pipe := mkPipe (replicate 512 0) (2 ^ 32 - 1) (2 ^ 32 - 1) true true.

Lemma near_wrap_at : pipe_at near_wrap [].
Proof. split; try done; cbn; lia. Qed.

Lemma small_pipe : exists s pr ps t, pipe_env s 0 pr ps t 4096 near_wrap [] /\ held s = [] /\ p_killed pr = false.
Proof.
  destruct small_space as (s & ps & p & H & Hh).
  set (pr := zero_proc <| p_pagetable := p |> <| p_sz := 8192 |>).
  exists (s <| cpu_proc := Some 0%nat |> <| procs := pr :: replicate 63 zero_proc |>
            <| pipes := {[ 4096 := near_wrap ]} |>), pr, ps, (mkPt p ∅ ∅).
  split; [|done]. split; rs; try done.
  - split; [done|]. intros i. rs. rewrite Hh. apply not_elem_of_nil.
  - eapply uvm_ok_ext; [exact H|done|done|]. rs. by eapply uvm_lock.
  - apply near_wrap_at.
Qed.

Lemma pipe_is_queue_witness :
  exists s pr ps t s1 ps1 t1 p1 l,
    pipe_env s 0 pr ps t 4096 near_wrap [] /\
    wrote (s <| held := [L_pipe 4096] |>) 0 pr ps t 4096 near_wrap [] 100 l s1 ps1 t1 p1.
Proof.
  destruct small_pipe as (s & pr & ps & t & H & Hh & Hk).
  destruct (pipe_is_queue s 0 4096 100 2 ltac:(apply H) Hh) as [Hw _]; [lia..|].
  specialize (Hw pr ps t near_wrap [] (pipe_env_lock _ _ _ _ _ _ _ _ H)). cbn [pi_readopen near_wrap negb orb] in Hw. rewrite Hk in Hw.
  destruct Hw as (s1 & ps1 & t1 & p1 & l & W & _).
  by exists s, pr, ps, t, s1, ps1, t1, p1, l.
Defined.

End witnesses.
