(* ===== verification/Virtio.v ===== *)
(** kernel/virtio_disk.c: the driver of the virtio disk.

    The three pages the driver shares with the device are kept typed in [vd]: the
    descriptor table, the available ring and the used ring.  The device registers
    are in [mmio]. *)

From stdpp Require Import prelude gmap strings.
From Stdlib Require Import ZArith Lia.
From S2P Require Import Prelude Bytes Params State Spinlock Sched Kalloc Uart Disk.

Local Open Scope Z_scope.
Local Open Scope kernel_scope.

(** ** kernel/virtio.h *)

Definition VIRTIO_MMIO_MAGIC_VALUE : Z := 0x000.
Definition VIRTIO_MMIO_VERSION : Z := 0x004.
Definition VIRTIO_MMIO_DEVICE_ID : Z := 0x008.
Definition VIRTIO_MMIO_VENDOR_ID : Z := 0x00c.
Definition VIRTIO_MMIO_DEVICE_FEATURES : Z := 0x010.
Definition VIRTIO_MMIO_DRIVER_FEATURES : Z := 0x020.
Definition VIRTIO_MMIO_QUEUE_SEL : Z := 0x030.
Definition VIRTIO_MMIO_QUEUE_NUM_MAX : Z := 0x034.
Definition VIRTIO_MMIO_QUEUE_NUM : Z := 0x038.
Definition VIRTIO_MMIO_QUEUE_READY : Z := 0x044.
Definition VIRTIO_MMIO_QUEUE_NOTIFY : Z := 0x050.
Definition VIRTIO_MMIO_INTERRUPT_STATUS : Z := 0x060.
Definition VIRTIO_MMIO_INTERRUPT_ACK : Z := 0x064.
Definition VIRTIO_MMIO_STATUS : Z := 0x070.
Definition VIRTIO_MMIO_QUEUE_DESC_LOW : Z := 0x080.
Definition VIRTIO_MMIO_QUEUE_DESC_HIGH : Z := 0x084.
Definition VIRTIO_MMIO_DRIVER_DESC_LOW : Z := 0x090.
Definition VIRTIO_MMIO_DRIVER_DESC_HIGH : Z := 0x094.
Definition VIRTIO_MMIO_DEVICE_DESC_LOW : Z := 0x0a0.
Definition VIRTIO_MMIO_DEVICE_DESC_HIGH : Z := 0x0a4.

Definition VIRTIO_CONFIG_S_ACKNOWLEDGE : Z := 1.
Definition VIRTIO_CONFIG_S_DRIVER : Z := 2.
Definition VIRTIO_CONFIG_S_DRIVER_OK : Z := 4.
Definition VIRTIO_CONFIG_S_FEATURES_OK : Z := 8.

(** The feature bits the driver turns off: RO, SCSI, FLUSH, CONFIG_WCE, MQ,
    ANY_LAYOUT, EVENT_IDX, INDIRECT_DESC. *)
Definition refused_features : list Z := [5; 7; 9; 11; 12; 27; 29; 28].

Definition NUM : Z := 8.
Definition VRING_DESC_F_NEXT : Z := 1.
Definition VRING_DESC_F_WRITE : Z := 2.
Definition VIRTIO_BLK_T_IN : Z := 0.
Definition VIRTIO_BLK_T_OUT : Z := 1.
Definition BLK_REQ_SIZE : Z := 16.

(** ** The driver *)

Definition updvd (f : vdisk -> vdisk) : K unit := modify (fun s => s <| vd := f (vd s) |>).

(** [*R(r)] as a value and as the left of an assignment; the registers have 32 bits. *)
Definition rd (r : Z) : K Z := mmio_read (VIRTIO0 + r).
Definition wr (r v : Z) : K unit := mmio_write (VIRTIO0 + r) (u32 v).

(** An element of one of the driver's arrays; an index out of the array is a
    fault. *)
Definition vd_at {A : Type} (l : vdisk -> list A) (i : Z) : K A :=
  v <- gets vd ;;
  if i <? 0 then fault else match l v !! Z.to_nat i with Some x => ret x | None => fault end.

Definition upd_desc (i : Z) (f : vdesc -> vdesc) : K unit :=
  updvd (fun v => v <| v_desc := alter f (Z.to_nat i) (v_desc v) |>).
Definition upd_info (i : Z) (f : vinfo -> vinfo) : K unit :=
  updvd (fun v => v <| v_info := alter f (Z.to_nat i) (v_info v) |>).

Section init.
Context {L : Linker}.

Definition virtio_disk_init : K unit :=
  magic <- rd VIRTIO_MMIO_MAGIC_VALUE ;;
  version <- rd VIRTIO_MMIO_VERSION ;;
  device <- rd VIRTIO_MMIO_DEVICE_ID ;;
  vendor <- rd VIRTIO_MMIO_VENDOR_ID ;;
  panic_if (negb (magic =? 0x74726976) || negb (version =? 2) || negb (device =? 2) ||
            negb (vendor =? 0x554d4551)) "could not find virtio disk" ;;
  wr VIRTIO_MMIO_STATUS 0 ;;
  let status := Z.lor 0 VIRTIO_CONFIG_S_ACKNOWLEDGE in
  wr VIRTIO_MMIO_STATUS status ;;
  let status := Z.lor status VIRTIO_CONFIG_S_DRIVER in
  wr VIRTIO_MMIO_STATUS status ;;
  offered <- rd VIRTIO_MMIO_DEVICE_FEATURES ;;
  wr VIRTIO_MMIO_DRIVER_FEATURES (foldl (fun f k => Z.ldiff f (Z.shiftl 1 k)) offered refused_features) ;;
  let status := Z.lor status VIRTIO_CONFIG_S_FEATURES_OK in
  wr VIRTIO_MMIO_STATUS status ;;
  status <- rd VIRTIO_MMIO_STATUS ;;
  panic_if (Z.land status VIRTIO_CONFIG_S_FEATURES_OK =? 0) "virtio disk FEATURES_OK unset" ;;
  wr VIRTIO_MMIO_QUEUE_SEL 0 ;;
  ready <- rd VIRTIO_MMIO_QUEUE_READY ;;
  panic_if (negb (ready =? 0)) "virtio disk should not be ready" ;;
  max <- rd VIRTIO_MMIO_QUEUE_NUM_MAX ;;
  panic_if (max =? 0) "virtio disk has no queue 0" ;;
  panic_if (max <? NUM) "virtio disk max queue too short" ;;
  desc <- kalloc ;;
  avail <- kalloc ;;
  used <- kalloc ;;
  panic_if ((desc =? 0) || (avail =? 0) || (used =? 0)) "virtio disk kalloc" ;;
  kmemset desc 0 PGSIZE ;;
  kmemset avail 0 PGSIZE ;;
  kmemset used 0 PGSIZE ;;
  updvd (fun v => v <| v_desc := replicate 8 (mkVdesc A_null 0 0 0) |>
                    <| v_avail_idx := 0 |> <| v_avail := replicate 8 0 |>
                    <| v_used_dev := 0 |> <| v_used := replicate 8 0 |>) ;;
  wr VIRTIO_MMIO_QUEUE_NUM NUM ;;
  wr VIRTIO_MMIO_QUEUE_DESC_LOW desc ;;
  wr VIRTIO_MMIO_QUEUE_DESC_HIGH (Z.shiftr desc 32) ;;
  wr VIRTIO_MMIO_DRIVER_DESC_LOW avail ;;
  wr VIRTIO_MMIO_DRIVER_DESC_HIGH (Z.shiftr avail 32) ;;
  wr VIRTIO_MMIO_DEVICE_DESC_LOW used ;;
  wr VIRTIO_MMIO_DEVICE_DESC_HIGH (Z.shiftr used 32) ;;
  wr VIRTIO_MMIO_QUEUE_READY 1 ;;
  foreach (seqZ 0 NUM) (fun i => updvd (fun v => v <| v_free := <[Z.to_nat i := true]> (v_free v) |>)) ;;
  wr VIRTIO_MMIO_STATUS (Z.lor status VIRTIO_CONFIG_S_DRIVER_OK).

End init.

Fixpoint alloc_desc_loop (idx : list Z) : K Z :=
  match idx with
  | [] => ret (-1)
  | i :: idx' =>
      f <- vd_at v_free i ;;
      if (f : bool) then
        updvd (fun v => v <| v_free := <[Z.to_nat i := false]> (v_free v) |>) ;;
        ret i
      else alloc_desc_loop idx'
  end.

Definition alloc_desc : K Z := alloc_desc_loop (seqZ 0 NUM).

Definition free_desc (i : Z) : K unit :=
  panic_if (NUM <=? i) "free_desc 1" ;;
  f <- vd_at v_free i ;;
  panic_if f "free_desc 2" ;;
  upd_desc i (fun _ => mkVdesc A_null 0 0 0) ;;
  updvd (fun v => v <| v_free := <[Z.to_nat i := true]> (v_free v) |>) ;;
  wakeup (Some Ch_vdisk_free).

(** [while (1)]; every round frees a descriptor, so [NUM] rounds are enough. *)
Fixpoint free_chain_loop (fuel : nat) (i : Z) : K unit :=
  match fuel with
  | O => no_fuel
  | S n =>
      d <- vd_at v_desc i ;;
      free_desc i ;;
      if negb (Z.land (d_flags d) VRING_DESC_F_NEXT =? 0) then free_chain_loop n (d_next d) else ret tt
  end.

Definition free_chain (i : Z) : K unit := free_chain_loop (S (Z.to_nat NUM)) i.

(** The loop of [alloc3_desc]: [idx] has the [i] descriptors allocated so far;
    [None] is a return value of -1. *)
Fixpoint alloc3_loop (left : nat) (idx : list Z) : K (option (list Z)) :=
  match left with
  | O => ret (Some idx)
  | S n =>
      i <- alloc_desc ;;
      if i <? 0 then foreach idx free_desc ;; ret None
      else alloc3_loop n (idx ++ [i])
  end.

Definition alloc3_desc : K (option (list Z)) := alloc3_loop 3 [].

Section rw.
Context {F : Fuel}.

(** The loop that waits for three descriptors. *)
Fixpoint alloc3_wait (fuel : nat) : K (list Z) :=
  r <- alloc3_desc ;;
  match r with
  | Some idx => ret idx
  | None =>
      match fuel with
      | O => no_fuel
      | S n =>
          sleep_prepare (Some Ch_vdisk_free) ;;
          release L_vdisk ;;
          sleep ;;
          acquire L_vdisk ;;
          alloc3_wait n
      end
  end.

(** The three descriptors of a request. *)
Definition format_request (b : nat) (write : bool) (sector i0 i1 i2 : Z) : K unit :=
  updvd (fun v => v <| v_ops := <[Z.to_nat i0 := mkBlkreq (if write then VIRTIO_BLK_T_OUT else VIRTIO_BLK_T_IN)
                                                 0 sector]> (v_ops v) |>) ;;
  upd_desc i0 (fun _ => mkVdesc (A_op i0) BLK_REQ_SIZE VRING_DESC_F_NEXT i1) ;;
  upd_desc i1 (fun _ => mkVdesc (A_data b) BSIZE
                          (Z.lor (if write then 0 else VRING_DESC_F_WRITE) VRING_DESC_F_NEXT) i2) ;;
  upd_info i0 (fun f => f <| vi_status := 0xff |>) ;;
  upd_desc i2 (fun _ => mkVdesc (A_status i0) 1 VRING_DESC_F_WRITE 0).

(** Hand the chain to the device. *)
Definition submit (b : nat) (i0 : Z) : K unit :=
  updbuf b (fun x => x <| b_disk := true |>) ;;
  upd_info i0 (fun f => f <| vi_b := Some b |>) ;;
  updvd (fun v => v <| v_avail := <[Z.to_nat (v_avail_idx v mod NUM) := i0]> (v_avail v) |>) ;;
  updvd (fun v => v <| v_avail_idx := u16 (v_avail_idx v + 1) |>) ;;
  wr VIRTIO_MMIO_QUEUE_NOTIFY 0.

Definition start_request (b : nat) (write : bool) (sector i0 i1 i2 : Z) : K unit :=
  format_request b write sector i0 i1 i2 ;;
  submit b i0.

(** When the device is done. *)
Definition finish_request (i0 : Z) : K unit :=
  upd_info i0 (fun f => f <| vi_b := None |>) ;;
  free_chain i0.

Definition virtio_disk_rw (b : nat) (write : bool) : K unit :=
  x <- getbuf b ;;
  let sector := u32 (b_blockno x * (BSIZE / 512)) in
  acquire L_vdisk ;;
  idx <- alloc3_wait sleep_fuel ;;
  let i0 := idx !!! 0%nat in
  let i1 := idx !!! 1%nat in
  let i2 := idx !!! 2%nat in
  start_request b write sector i0 i1 i2 ;;
  while_sleep sleep_fuel (x <- getbuf b ;; ret (b_disk x))
    (sleep_prepare (Some (Ch_buf b)) ;;
     release L_vdisk ;;
     sleep ;;
     acquire L_vdisk) ;;
  finish_request i0 ;;
  release L_vdisk.

End rw.

(** [while (disk.used_idx != disk.used->idx)]; the indices have 16 bits. *)
Fixpoint intr_loop (fuel : nat) : K unit :=
  v <- gets vd ;;
  if v_used_idx v =? v_used_dev v then ret tt
  else
    match fuel with
    | O => no_fuel
    | S n =>
        id <- vd_at v_used (v_used_idx v mod NUM) ;;
        f <- vd_at v_info id ;;
        panic_if (negb (vi_status f =? 0)) "virtio_disk_intr status" ;;
        match vi_b f with
        | None => fault
        | Some b =>
            updbuf b (fun x => x <| b_disk := false |>) ;;
            wakeup (Some (Ch_buf b)) ;;
            updvd (fun v => v <| v_used_idx := u16 (v_used_idx v + 1) |>) ;;
            intr_loop n
        end
    end.

Definition virtio_disk_intr : K unit :=
  acquire L_vdisk ;;
  st <- rd VIRTIO_MMIO_INTERRUPT_STATUS ;;
  wr VIRTIO_MMIO_INTERRUPT_ACK (Z.land st 3) ;;
  v <- gets vd ;;
  intr_loop (Z.to_nat (u16 (v_used_dev v - v_used_idx v))) ;;
  release L_vdisk.
