(* ===== verification/Ring.v ===== *)
(** The rings that the virtio disk driver shares with the device (kernel/virtio_disk.c): what the device does with them,
    what the driver's code does with them, and the invariant that both keep.

    What runs under [vdisk_lock] without sleeping is one step.  The device takes the chains of the available ring in
    order, and completes those it has taken in any order. *)

From stdpp Require Import prelude gmap strings.
From Stdlib Require Import ZArith Lia.
From S2P Require Import Prelude Bytes Params State Spinlock Uart Sched Disk Bio Cache Virtio.

Local Open Scope Z_scope.
Local Open Scope kernel_scope.

(** ** The system *)

(** A process between the allocation of its descriptors and their release: which it is, its [idx], [b] and
    [write], and the data of the buffer when it called. *)
Record request := Rq { q_proc : nat; q0 : Z; q1 : Z; q2 : Z; q_buf : nat; q_write : bool; q_data : list Z }.

(** The kernel, how far the device has read the available ring, the chains it works on, and the
    processes that wait for theirs. *)
Record vsys := Sys { ks : kstate; taken : Z; busy : list Z; reqs : list request }.

(** ** The device

    A chain as the device reads it from the descriptors: the header, which the device only reads; the buffer, which it
    reads or, with the flag, writes; and the status byte, which it writes.  [None] is a chain that the
    device does not accept as a request for one block. *)
Definition has_flag (d : vdesc) (f : Z) : bool := negb (Z.land (d_flags d) f =? 0).

Definition header_ok (d : vdesc) : bool :=
  has_flag d VRING_DESC_F_NEXT && negb (has_flag d VRING_DESC_F_WRITE) && (d_len d =? BLK_REQ_SIZE).
Definition data_ok (op : blkreq) (d : vdesc) : bool :=
  has_flag d VRING_DESC_F_NEXT && (d_len d =? BSIZE) && (rq_sector op mod 2 =? 0) &&
  if has_flag d VRING_DESC_F_WRITE then rq_type op =? VIRTIO_BLK_T_IN else rq_type op =? VIRTIO_BLK_T_OUT.
Definition status_ok (d : vdesc) : bool :=
  negb (has_flag d VRING_DESC_F_NEXT) && has_flag d VRING_DESC_F_WRITE && (d_len d =? 1).

Definition read_chain (v : vdisk) (i : Z) : option (blkreq * nat * Z) :=
  d0 ← v_desc v !! Z.to_nat i;
  d1 ← v_desc v !! Z.to_nat (d_next d0);
  d2 ← v_desc v !! Z.to_nat (d_next d1);
  match d_addr d0, d_addr d1, d_addr d2 with
  | A_op j, A_data b, A_status k =>
      op ← v_ops v !! Z.to_nat j;
      if header_ok d0 && data_ok op d1 && status_ok d2 then Some (op, b, k) else None
  | _, _, _ => None
  end.

(** The transfer: a block of two sectors to or from the buffer. *)
Definition transfer (op : blkreq) (b : nat) (s : kstate) : option kstate :=
  x ← bufs s !! b;
  data ← disk s !! (rq_sector op / 2);
  if rq_type op =? VIRTIO_BLK_T_OUT then
    Some (s <| disk := <[rq_sector op / 2 := b_data x]> (disk s) |>
            <| dtrace := dtrace s ++ [(rq_sector op / 2, b_data x)] |>)
  else Some (s <| bufs := <[b := x <| b_data := data |>]> (bufs s) |>).

(** Report that the chain [i] is done, with the status [st] at [k]. *)
Definition report (i k st : Z) (v : vdisk) : vdisk :=
  v <| v_info := alter (fun f => f <| vi_status := st |>) (Z.to_nat k) (v_info v) |>
    <| v_used := <[Z.to_nat (v_used_dev v mod NUM) := i]> (v_used v) |>
    <| v_used_dev := u16 (v_used_dev v + 1) |>.

(** A device that works. *)
Inductive dev_works : vsys -> vsys -> Prop :=
| dev_take s tk bz rs i :
    tk <> v_avail_idx (vd s) -> v_avail (vd s) !! Z.to_nat (tk mod NUM) = Some i ->
    dev_works (Sys s tk bz rs) (Sys s (u16 (tk + 1)) (bz ++ [i]) rs)
| dev_complete s tk bz1 i bz2 rs op b k s' :
    read_chain (vd s) i = Some (op, b, k) -> transfer op b s = Some s' ->
    dev_works (Sys s tk (bz1 ++ i :: bz2) rs) (Sys (s' <| vd ::= report i k 0 |>) tk (bz1 ++ bz2) rs).

(** A device that may fail: it then reports an error, and makes no transfer. *)
Inductive dev_step : vsys -> vsys -> Prop :=
| dev_good x y : dev_works x y -> dev_step x y
| dev_error s tk bz1 i bz2 rs op b k st :
    read_chain (vd s) i = Some (op, b, k) -> 0 < st < 256 ->
    dev_step (Sys s tk (bz1 ++ i :: bz2) rs) (Sys (s <| vd ::= report i k st |>) tk (bz1 ++ bz2) rs).

(** After [virtio_disk_init], with no request under way. *)
Definition booted_disk (s : kstate) : Prop :=
  no_plock s /\
  v_free (vd s) = replicate 8 true /\ length (v_desc (vd s)) = 8%nat /\ length (v_avail (vd s)) = 8%nat /\
  length (v_used (vd s)) = 8%nat /\ length (v_info (vd s)) = 8%nat /\ length (v_ops (vd s)) = 8%nat /\
  v_avail_idx (vd s) = 0 /\ v_used_dev (vd s) = 0 /\ v_used_idx (vd s) = 0.

(** ** The invariant *)

Definition descs (r : request) : list Z := [q0 r; q1 r; q2 r].
Definition all_descs (rs : list request) : list Z := concat (map descs rs).

(** The descriptors of [r] are set up, its status is [st], [b->disk] is [dk]; [sv] says whether the
    transfer has been made. *)
Record req_in (s : kstate) (r : request) (st : Z) (dk sv : bool) (x : buf) : Prop := {
  rq_buf_at : bufs s !! q_buf r = Some x;
  rq_block : 0 <= b_blockno x < 2 ^ 31;
  rq_disk_flag : b_disk x = dk;
  rq_d0 : v_desc (vd s) !! Z.to_nat (q0 r) = Some (mkVdesc (A_op (q0 r)) BLK_REQ_SIZE VRING_DESC_F_NEXT (q1 r));
  rq_d1 : v_desc (vd s) !! Z.to_nat (q1 r) = Some (mkVdesc (A_data (q_buf r)) BSIZE
            (Z.lor (if q_write r then 0 else VRING_DESC_F_WRITE) VRING_DESC_F_NEXT) (q2 r));
  rq_d2 : v_desc (vd s) !! Z.to_nat (q2 r) = Some (mkVdesc (A_status (q0 r)) 1 VRING_DESC_F_WRITE 0);
  rq_op : v_ops (vd s) !! Z.to_nat (q0 r) =
            Some (mkBlkreq (if q_write r then VIRTIO_BLK_T_OUT else VIRTIO_BLK_T_IN) 0 (2 * b_blockno x));
  rq_info : v_info (vd s) !! Z.to_nat (q0 r) = Some (mkVinfo (Some (q_buf r)) st);
  rq_data : sv = false \/ q_write r = true -> b_data x = q_data r;
  rq_served : if sv then disk s !! b_blockno x = Some (b_data x) else is_Some (disk s !! b_blockno x);
}.

(** Waiting requests [A] are in the available ring, [D] with the device, [U] in the used ring, and
    those of [W] have been seen by the interrupt handler. *)
Record ring_inv (x : vsys) (A D U W : list request) : Prop := {
  ri_plock : no_plock (ks x);
  ri_desc : length (v_desc (vd (ks x))) = 8%nat;
  ri_info : length (v_info (vd (ks x))) = 8%nat;
  ri_ops : length (v_ops (vd (ks x))) = 8%nat;
  ri_reqs : reqs x ≡ₚ A ++ D ++ U ++ W;
  ri_busy : busy x = map q0 D;
  ri_nodup : NoDup (all_descs (reqs x));
  ri_range : forall i, i ∈ all_descs (reqs x) -> 0 <= i < 8;
  ri_free_len : length (v_free (vd (ks x))) = 8%nat;
  ri_free : forall i, 0 <= i < 8 ->
    v_free (vd (ks x)) !! Z.to_nat i = Some (bool_decide (i ∉ all_descs (reqs x)));
  ri_bufs : NoDup (map q_buf (reqs x));
  ri_blocks : forall r r' y y', r ∈ reqs x -> r' ∈ reqs x -> bufs (ks x) !! q_buf r = Some y ->
    bufs (ks x) !! q_buf r' = Some y' -> b_blockno y = b_blockno y' -> r = r';
  ri_wait : forall r, r ∈ A ++ D -> exists y, req_in (ks x) r 0xff true false y;
  ri_done : forall r, r ∈ U -> exists st y, req_in (ks x) r st true (st =? 0) y;
  ri_ack : forall r, r ∈ W -> exists y, req_in (ks x) r 0 false true y;
  ri_avail_len : length (v_avail (vd (ks x))) = 8%nat;
  ri_taken : 0 <= taken x < 2 ^ 16;
  ri_avail_idx : v_avail_idx (vd (ks x)) = u16 (taken x + Z.of_nat (length A));
  ri_avail : forall k r, A !! k = Some r ->
    v_avail (vd (ks x)) !! Z.to_nat ((taken x + Z.of_nat k) mod NUM) = Some (q0 r);
  ri_used_len : length (v_used (vd (ks x))) = 8%nat;
  ri_used_idx : 0 <= v_used_idx (vd (ks x)) < 2 ^ 16;
  ri_used_dev : v_used_dev (vd (ks x)) = u16 (v_used_idx (vd (ks x)) + Z.of_nat (length U));
  ri_used : forall k r, U !! k = Some r ->
    v_used (vd (ks x)) !! Z.to_nat ((v_used_idx (vd (ks x)) + Z.of_nat k) mod NUM) = Some (q0 r);
}.

Lemma elem_all_descs i rs : i ∈ all_descs rs <-> exists r, r ∈ rs /\ i ∈ descs r.
Proof.
  unfold all_descs. induction rs as [|r rs IH]; cbn [map concat].
  - split; [by intros ?%not_elem_of_nil|]. by intros (? & ?%not_elem_of_nil & _).
  - rewrite elem_of_app, IH. setoid_rewrite elem_of_cons. naive_solver.
Qed.

Lemma all_descs_perm rs rs' : rs ≡ₚ rs' -> all_descs rs ≡ₚ all_descs rs'.
Proof.
  unfold all_descs. induction 1; cbn [map concat]; [done|by rewrite IHPermutation|solve_Permutation|].
  by etrans.
Qed.

Lemma all_descs_app rs rs' : all_descs (rs ++ rs') = all_descs rs ++ all_descs rs'.
Proof. unfold all_descs. by rewrite map_app, concat_app. Qed.

(** A request depends on its own descriptors, buffer and block only. *)
Lemma req_in_frame s s' r st dk sv x :
  req_in s r st dk sv x ->
  (forall i, i ∈ descs r -> v_desc (vd s') !! Z.to_nat i = v_desc (vd s) !! Z.to_nat i) ->
  v_ops (vd s') !! Z.to_nat (q0 r) = v_ops (vd s) !! Z.to_nat (q0 r) ->
  v_info (vd s') !! Z.to_nat (q0 r) = v_info (vd s) !! Z.to_nat (q0 r) ->
  bufs s' !! q_buf r = bufs s !! q_buf r -> disk s' !! b_blockno x = disk s !! b_blockno x ->
  req_in s' r st dk sv x.
Proof.
  intros [H1 H2 H3 H4 H5 H6 H7 H8 H9 H10] Hd Ho Hf Hb Hk.
  split; rewrite ?Ho, ?Hf, ?Hb, ?Hk, ?Hd; try done; unfold descs; rewrite !elem_of_cons; tauto.
Qed.

(** ** The code on the rings *)

(** Steps that leave the buffers, the disk and the locks alone. *)
Definition vd_only (s s' : kstate) : Prop :=
  bufs s' = bufs s /\ disk s' = disk s /\ dtrace s' = dtrace s /\ held s' = held s /\
  length (procs s') = length (procs s) /\ cpu_proc s' = cpu_proc s.

Lemma vd_only_refl s : vd_only s s.
Proof. done. Qed.

Lemma vd_only_trans s1 s2 s3 : vd_only s1 s2 -> vd_only s2 s3 -> vd_only s1 s3.
Proof. intros (?&?&?&?&?&?) (?&?&?&?&?&?). split_and!; congruence. Qed.

Lemma vd_only_plock s s' : vd_only s s' -> no_plock s -> no_plock s'.
Proof. intros (_&_&_&Hh&Hl&_) [H1 H2]. split; [congruence|by rewrite Hh]. Qed.

Lemma vd_at_ok {A} (f : vdisk -> list A) i x s :
  0 <= i -> f (vd s) !! Z.to_nat i = Some x -> vd_at f i s = Ok x s.
Proof. intros Hi Hx. unfold vd_at. rewrite bind_gets, (proj2 (Z.ltb_ge _ _)) by done. by rewrite Hx. Qed.

(** The descriptor [i] after [free_desc]. *)
Definition freed (i : Z) (v : vdisk) : vdisk :=
  v <| v_desc := alter (fun _ => mkVdesc A_null 0 0 0) (Z.to_nat i) (v_desc v) |>
    <| v_free := <[Z.to_nat i := true]> (v_free v) |>.

(** The processes after a wakeup of those that wait for descriptors. *)
Definition wake_free (ps : list proc) : list proc := map (wake1 (Some Ch_vdisk_free)) ps.

Lemma wake1_twice c p : wake1 (Some c) (wake1 (Some c) p) = wake1 (Some c) p.
Proof. unfold wake1 at 1. rewrite decide_False; [done|]. unfold wake1. repeat case_decide; rs; done. Qed.

Lemma wake_free_twice ps : wake_free (wake_free ps) = wake_free ps.
Proof. unfold wake_free. rewrite map_map. apply map_ext. intros p. apply wake1_twice. Qed.

Lemma free_desc_ok i s :
  0 <= i < 8 -> v_free (vd s) !! Z.to_nat i = Some false -> no_plock s ->
  exists s', free_desc i s = Ok tt s' /\ vd s' = freed i (vd s) /\ vd_only s s' /\ procs s' = wake_free (procs s).
Proof.
  intros Hi Hf Hn. unfold free_desc. rewrite bind_panic_if by (unfold NUM; apply Z.leb_gt; lia).
  run (vd_at_ok v_free i false s ltac:(lia) Hf). rewrite bind_panic_if by done.
  unfold upd_desc, updvd. rewrite !bind_modify. rewrite wakeup_ok by exact Hn.
  eexists. split; [done|]. rs. split; [done|]. split; [|done]. split_and!; rs; try done. by rewrite length_map.
Qed.

(** The descriptor [i] after [alloc_desc]. *)
Definition given (i : Z) (v : vdisk) : vdisk := v <| v_free := <[Z.to_nat i := false]> (v_free v) |>.

Lemma alloc_desc_ok s :
  length (v_free (vd s)) = 8%nat ->
  (exists i, 0 <= i < 8 /\ v_free (vd s) !! Z.to_nat i = Some true /\
     alloc_desc s = Ok i (s <| vd := given i (vd s) |>)) \/
  ((forall i, 0 <= i < 8 -> v_free (vd s) !! Z.to_nat i = Some false) /\ alloc_desc s = Ok (-1) s).
Proof.
  intros Hl. unfold alloc_desc.
  assert (Hgen : forall n j, j + Z.of_nat n = 8 -> 0 <= j ->
    (exists i, j <= i < 8 /\ v_free (vd s) !! Z.to_nat i = Some true /\
       alloc_desc_loop (seqZ j (Z.of_nat n)) s =
         Ok i (s <| vd := given i (vd s) |>)) \/
    ((forall i, j <= i < 8 -> v_free (vd s) !! Z.to_nat i = Some false) /\
     alloc_desc_loop (seqZ j (Z.of_nat n)) s = Ok (-1) s)).
  { induction n as [|n IH]; intros j Hj Hj0.
    - right. rewrite seqZ_nil by lia. split; [lia|done].
    - rewrite seqZ_cons by lia. cbn [alloc_desc_loop].
      destruct (lookup_lt_is_Some_2 (v_free (vd s)) (Z.to_nat j)) as [f Hf]; [lia|].
      rewrite (bind_ok _ _ _ _ _ (vd_at_ok v_free j f s Hj0 Hf)). destruct f.
      + left. exists j. split_and!; [lia|lia|done|]. unfold updvd. rewrite bind_modify. done.
      + replace (Z.pred (Z.of_nat (S n))) with (Z.of_nat n) by lia. replace (Z.succ j) with (j + 1) by lia.
        destruct (IH (j + 1)) as [(i & Hi & Hfi & E)|[Hall E]]; [lia|lia| |].
        * left. exists i. split_and!; [lia|lia|done|done].
        * right. split; [|done]. intros i Hi. destruct (decide (i = j)) as [->|]; [done|]. apply Hall. lia. }
  apply (Hgen 8%nat 0); lia.
Qed.

(** Equal but for the contents of free descriptors. *)
Record same_rings (v v' : vdisk) : Prop := {
  sr_free : v_free v' = v_free v;
  sr_len : length (v_desc v') = length (v_desc v);
  sr_desc : forall i, v_free v !! i = Some false -> v_desc v' !! i = v_desc v !! i;
  sr_avail_idx : v_avail_idx v' = v_avail_idx v;
  sr_avail : v_avail v' = v_avail v;
  sr_used_dev : v_used_dev v' = v_used_dev v;
  sr_used : v_used v' = v_used v;
  sr_used_idx : v_used_idx v' = v_used_idx v;
  sr_info : v_info v' = v_info v;
  sr_ops : v_ops v' = v_ops v;
}.

Lemma same_rings_given1 i v : v_free v !! Z.to_nat i = Some true -> same_rings v (freed i (given i v)).
Proof.
  intros Hi. unfold freed, given. split; rs; try done.
  - rewrite list_insert_insert_eq. by apply list_insert_id.
  - by rewrite length_alter.
  - intros j Hj. apply list_lookup_alter_ne. congruence.
Qed.

Lemma same_rings_given2 i j v :
  v_free v !! Z.to_nat i = Some true -> v_free v !! Z.to_nat j = Some true -> Z.to_nat i <> Z.to_nat j ->
  same_rings v (freed j (freed i (given j (given i v)))).
Proof.
  intros Hi Hj Hij. unfold freed, given. split; rs; try done.
  - rewrite (list_insert_insert_ne _ (Z.to_nat i) (Z.to_nat j)) by done.
    rewrite !list_insert_insert_eq, (list_insert_id (v_free v) (Z.to_nat i)) by done. by apply list_insert_id.
  - by rewrite !length_alter.
  - intros k Hk. rewrite !list_lookup_alter_ne by congruence. done.
Qed.

Lemma alloc3_ok s :
  length (v_free (vd s)) = 8%nat -> no_plock s ->
  (exists i0 i1 i2, (0 <= i0 < 8 /\ 0 <= i1 < 8 /\ 0 <= i2 < 8) /\ NoDup [i0; i1; i2] /\
     (forall i, i ∈ [i0; i1; i2] -> v_free (vd s) !! Z.to_nat i = Some true) /\
     alloc3_desc s = Ok (Some [i0; i1; i2]) (s <| vd := given i2 (given i1 (given i0 (vd s))) |>)) \/
  (exists s', alloc3_desc s = Ok None s' /\ vd_only s s' /\ same_rings (vd s) (vd s') /\
     (procs s' = procs s \/ procs s' = wake_free (procs s)) /\
     exists i j, forall k, 0 <= k < 8 -> v_free (vd s) !! Z.to_nat k = Some true -> k = i \/ k = j).
Proof.
  intros Hl Hn. unfold alloc3_desc. cbn [alloc3_loop].
  destruct (alloc_desc_ok s Hl) as [(i0 & H0 & Hf0 & E0)|[F0 E0]]; rewrite (bind_ok _ _ _ _ _ E0).
  2: { right. exists s. split_and!; [done|apply vd_only_refl|by split|by left|]. exists 0, 0. intros k Hk. rewrite F0 by done. done. }
  rewrite (proj2 (Z.ltb_ge _ _)) by lia. set (s0 := s <| vd := _ |>). cbn [app].
  destruct (alloc_desc_ok s0) as [(i1 & H1 & Hf1 & E1)|[F1 E1]]; [unfold s0, given; rs; by rewrite length_insert|..];
    rewrite (bind_ok _ _ _ _ _ E1).
  2: { right. destruct (free_desc_ok i0 s0) as (s1 & Ef & Hv & Ho & Hpr); [lia| |by apply (vd_only_plock s)|].
       { unfold s0, given. rs. apply list_lookup_insert_eq. lia. }
       assert (El : foreach [i0] free_desc s0 = Ok tt s1) by (cbn [foreach]; by run Ef).
       exists s1. change (-1 <? 0) with true. cbv iota. run El. split_and!; [done|by apply (vd_only_trans _ s0)|..].
       - rewrite Hv. unfold s0. rs. by apply same_rings_given1.
       - by right.
       - exists i0, i0. intros k Hk Hfk. destruct (decide (k = i0)) as [|Hne]; [by left|].
         pose proof (F1 k Hk) as F. unfold s0, given in F. rs_in F. rewrite list_lookup_insert_ne in F by lia. congruence. }
  rewrite (proj2 (Z.ltb_ge _ _)) by lia. set (s1 := s0 <| vd := _ |>). cbn [app].
  assert (H01 : Z.to_nat i0 <> Z.to_nat i1).
  { intros E. revert Hf1. rewrite <- E. unfold s0, given. rs. rewrite list_lookup_insert_eq by lia. done. }
  assert (Hf1' : v_free (vd s) !! Z.to_nat i1 = Some true).
  { revert Hf1. unfold s0, given. rs. by rewrite list_lookup_insert_ne. }
  destruct (alloc_desc_ok s1) as [(i2 & H2 & Hf2 & E2)|[F2 E2]]; [unfold s1, s0, given; rs; by rewrite !length_insert|..];
    rewrite (bind_ok _ _ _ _ _ E2).
  2: { right. destruct (free_desc_ok i0 s1) as (s2 & Ef0 & Hv0 & Ho0 & Hp0); [lia| |by apply (vd_only_plock s)|].
       { unfold s1, s0, given. rs. rewrite list_lookup_insert_ne by done. apply list_lookup_insert_eq. lia. }
       destruct (free_desc_ok i1 s2) as (s3 & Ef1 & Hv1 & Ho1 & Hp1); [lia| |by apply (vd_only_plock s1)|].
       { rewrite Hv0. unfold freed, s1, s0, given. rs. rewrite list_lookup_insert_ne by done.
         apply list_lookup_insert_eq. rewrite length_insert. lia. }
       assert (El : foreach [i0; i1] free_desc s1 = Ok tt s3) by (cbn [foreach]; run Ef0; by run Ef1).
       exists s3. change (-1 <? 0) with true. cbv iota. run El.
       split_and!; [done|by apply (vd_only_trans _ s1 _); [|apply (vd_only_trans _ s2)]|..].
       - rewrite Hv1, Hv0. unfold s1, s0. rs. by apply same_rings_given2.
       - right. rewrite Hp1, Hp0. apply wake_free_twice.
       - exists i0, i1. intros k Hk Hfk. destruct (decide (k = i0)) as [|N0]; [by left|].
         destruct (decide (k = i1)) as [|N1]; [by right|]. pose proof (F2 k Hk) as F. unfold s1, s0, given in F. rs_in F.
         rewrite !list_lookup_insert_ne in F by lia. congruence. }
  rewrite (proj2 (Z.ltb_ge _ _)) by lia. left. exists i0, i1, i2.
  assert (H02 : Z.to_nat i2 <> Z.to_nat i0 /\ Z.to_nat i2 <> Z.to_nat i1 /\ v_free (vd s) !! Z.to_nat i2 = Some true).
  { revert Hf2. unfold s1, s0, given. rs. intros Hf2.
    destruct (decide (Z.to_nat i2 = Z.to_nat i1)) as [E|N1]; [by rewrite E, list_lookup_insert_eq in Hf2 by (rewrite length_insert; lia)|].
    rewrite list_lookup_insert_ne in Hf2 by done.
    destruct (decide (Z.to_nat i2 = Z.to_nat i0)) as [E|N0]; [by rewrite E, list_lookup_insert_eq in Hf2 by lia|].
    by rewrite list_lookup_insert_ne in Hf2 by done. }
  destruct H02 as (N0 & N1 & Hf2'). split_and!; try lia; [| |done].
  - rewrite !NoDup_cons, !not_elem_of_cons. split_and!; try (intros ->; lia || congruence); try apply not_elem_of_nil.
    by apply NoDup_nil.
  - intros i Hi. rewrite !elem_of_cons in Hi. destruct Hi as [->|[->|[->|?%not_elem_of_nil]]]; done.
Qed.

(** The driver's part of the state after [start_request]. *)
Definition started (b : nat) (w : bool) (sector i0 i1 i2 : Z) (v : vdisk) : vdisk :=
  v <| v_ops := <[Z.to_nat i0 := mkBlkreq (if w then VIRTIO_BLK_T_OUT else VIRTIO_BLK_T_IN) 0 sector]> (v_ops v) |>
    <| v_desc := alter (fun _ => mkVdesc (A_status i0) 1 VRING_DESC_F_WRITE 0) (Z.to_nat i2)
        (alter (fun _ => mkVdesc (A_data b) BSIZE (Z.lor (if w then 0 else VRING_DESC_F_WRITE) VRING_DESC_F_NEXT) i2)
           (Z.to_nat i1)
           (alter (fun _ => mkVdesc (A_op i0) BLK_REQ_SIZE VRING_DESC_F_NEXT i1) (Z.to_nat i0) (v_desc v))) |>
    <| v_info := alter (fun _ => mkVinfo (Some b) 0xff) (Z.to_nat i0) (v_info v) |>
    <| v_avail := <[Z.to_nat (v_avail_idx v mod NUM) := i0]> (v_avail v) |>
    <| v_avail_idx := u16 (v_avail_idx v + 1) |>.

(** Everything but the driver's structures is the same. *)
Definition outside (s s' : kstate) : Prop :=
  bufs s' = bufs s /\ disk s' = disk s /\ dtrace s' = dtrace s /\ held s' = held s /\ procs s' = procs s /\
  cpu_proc s' = cpu_proc s.

Lemma updvd_ok f s : exists s', updvd f s = Ok tt s' /\ vd s' = f (vd s) /\ outside s s'.
Proof. eexists. split; [done|]. rs. done. Qed.

(** Run an [updvd], naming the state after it. *)
Ltac upd s s' V O :=
  lazymatch goal with
  | |- context [bind (updvd ?f) _ s] =>
      let E := fresh in destruct (updvd_ok f s) as (s' & E & V & O); rewrite (bind_ok _ _ _ _ _ E); clear E
  end.

Lemma outside_trans s1 s2 s3 : outside s1 s2 -> outside s2 s3 -> outside s1 s3.
Proof. intros (?&?&?&?&?&?) (?&?&?&?&?&?). split_and!; congruence. Qed.

Lemma format_ok b w sector i0 i1 i2 s :
  exists s', format_request b w sector i0 i1 i2 s = Ok tt s' /\ outside s s' /\
    vd s' = (vd s)
      <| v_ops := <[Z.to_nat i0 := mkBlkreq (if w then VIRTIO_BLK_T_OUT else VIRTIO_BLK_T_IN) 0 sector]> (v_ops (vd s)) |>
      <| v_desc := alter (fun _ => mkVdesc (A_status i0) 1 VRING_DESC_F_WRITE 0) (Z.to_nat i2)
          (alter (fun _ => mkVdesc (A_data b) BSIZE (Z.lor (if w then 0 else VRING_DESC_F_WRITE) VRING_DESC_F_NEXT) i2)
             (Z.to_nat i1)
             (alter (fun _ => mkVdesc (A_op i0) BLK_REQ_SIZE VRING_DESC_F_NEXT i1) (Z.to_nat i0) (v_desc (vd s)))) |>
      <| v_info := alter (fun f => f <| vi_status := 0xff |>) (Z.to_nat i0) (v_info (vd s)) |>.
Proof.
  unfold format_request, upd_desc, upd_info.
  upd s s1 V1 O1.
  upd s1 s2 V2 O2.
  upd s2 s3 V3 O3.
  upd s3 s4 V4 O4.
  match goal with |- context [updvd ?f s4] => destruct (updvd_ok f s4) as (s5 & E5 & V5 & O5) end.
  exists s5. split_and!; [exact E5|eauto using outside_trans|].
  rewrite V5, V4, V3, V2, V1. destruct (vd s). by rs.
Qed.

Lemma start_ok b x w sector i0 i1 i2 s :
  bufs s !! b = Some x ->
  exists s', start_request b w sector i0 i1 i2 s = Ok tt s' /\ vd s' = started b w sector i0 i1 i2 (vd s) /\
    bufs s' = <[b := x <| b_disk := true |>]> (bufs s) /\ disk s' = disk s /\ dtrace s' = dtrace s /\
    held s' = held s /\ procs s' = procs s /\ cpu_proc s' = cpu_proc s.
Proof.
  intros Hx. unfold start_request, submit, upd_info.
  destruct (format_ok b w sector i0 i1 i2 s) as (s1 & E1 & O1 & V1). run E1.
  pose proof O1 as (B1 & _). run (updbuf_ok b _ x s1 ltac:(by rewrite B1)).
  set (s2 := s1 <| bufs := _ |>).
  upd s2 s3 V3 O3.
  upd s3 s4 V4 O4.
  upd s4 s5 V5 O5.
  unfold wr, mmio_write. eexists. split; [done|]. rs.
  assert (O : outside s2 s5) by eauto using outside_trans. destruct O as (B & K & T & H & P & C).
  destruct O1 as (_ & K1 & T1 & H1 & P1 & C1). rewrite B, K, T, H, P, C. unfold s2. rs. rewrite B1.
  split_and!; try done. rewrite V5, V4, V3. unfold s2. rs. rewrite V1. unfold started. destruct (vd s). rs.
  f_equal. by rewrite alter_alter.
Qed.

(** [info[i].b = 0] *)
Definition forget (i : Z) (v : vdisk) : vdisk :=
  v <| v_info := alter (fun f => f <| vi_b := None |>) (Z.to_nat i) (v_info v) |>.

(** A round of [free_chain]. *)
Lemma free_chain_step n i d s :
  0 <= i < 8 -> v_desc (vd s) !! Z.to_nat i = Some d -> v_free (vd s) !! Z.to_nat i = Some false -> no_plock s ->
  exists s', free_chain_loop (S n) i s =
      (if negb (Z.land (d_flags d) VRING_DESC_F_NEXT =? 0) then free_chain_loop n (d_next d) else ret tt) s' /\
    vd s' = freed i (vd s) /\ vd_only s s' /\ procs s' = wake_free (procs s).
Proof.
  intros Hi Hd Hf Hn. destruct (free_desc_ok i s Hi Hf Hn) as (s' & E & Hv & Ho & Hp). exists s'. split; [|done].
  cbn [free_chain_loop]. run (vd_at_ok v_desc i d s ltac:(lia) Hd). by run E.
Qed.

Lemma freed_desc i j v : Z.to_nat i <> Z.to_nat j -> v_desc (freed j v) !! Z.to_nat i = v_desc v !! Z.to_nat i.
Proof. intros H. unfold freed. rs. by apply list_lookup_alter_ne. Qed.

Lemma freed_free i j v : Z.to_nat i <> Z.to_nat j -> v_free (freed j v) !! Z.to_nat i = v_free v !! Z.to_nat i.
Proof. intros H. unfold freed. rs. by apply list_lookup_insert_ne. Qed.

(** [r] waits for its descriptors to be released. *)
Lemma finish_ok s r x :
  req_in s r 0 false true x -> NoDup (descs r) -> (forall i, i ∈ descs r -> 0 <= i < 8) ->
  (forall i, i ∈ descs r -> v_free (vd s) !! Z.to_nat i = Some false) -> no_plock s ->
  exists s', finish_request (q0 r) s = Ok tt s' /\ vd_only s s' /\ procs s' = wake_free (procs s) /\
    vd s' = freed (q2 r) (freed (q1 r) (freed (q0 r)
      (forget (q0 r) (vd s)))).
Proof.
  intros [_ _ _ H0 H1 H2 _ _ _ _] Hnd Hrg Hf Hn. unfold finish_request, upd_info, updvd. rewrite bind_modify.
  set (s0 := s <| vd := _ |>). unfold descs in *. rewrite !NoDup_cons, !not_elem_of_cons in Hnd.
  destruct Hnd as ((N01 & N02 & _) & (N12 & _) & _).
  assert (R0 : 0 <= q0 r < 8) by (apply Hrg; left). assert (R1 : 0 <= q1 r < 8) by (apply Hrg; right; left).
  assert (R2 : 0 <= q2 r < 8) by (apply Hrg; do 2 right; left).
  change (free_chain (q0 r) s0) with (free_chain_loop 9 (q0 r) s0).
  destruct (free_chain_step 8 (q0 r) _ s0 R0 H0) as (s1 & -> & Hv1 & Ho1 & Hp1); [apply Hf; left|done|].
  cbn [d_flags d_next]. change (negb (Z.land VRING_DESC_F_NEXT VRING_DESC_F_NEXT =? 0)) with true. cbv iota.
  eassert (H1' : v_desc (vd s1) !! Z.to_nat (q1 r) = Some _) by (rewrite Hv1, freed_desc by lia; exact H1).
  destruct (free_chain_step 7 (q1 r) _ s1 R1 H1') as (s2 & -> & Hv2 & Ho2 & Hp2).
  { rewrite Hv1, freed_free by lia. apply Hf. right. left. } { by apply (vd_only_plock s0). }
  cbn [d_flags d_next]. replace (negb _) with true by (by destruct (q_write r)). cbv iota.
  eassert (H2' : v_desc (vd s2) !! Z.to_nat (q2 r) = Some _) by (rewrite Hv2, Hv1, !freed_desc by lia; exact H2).
  destruct (free_chain_step 6 (q2 r) _ s2 R2 H2') as (s3 & -> & Hv3 & Ho3 & Hp3).
  { rewrite Hv2, Hv1, !freed_free by lia. apply Hf. do 2 right. left. }
  { apply (vd_only_plock s1); [done|]. by apply (vd_only_plock s0). }
  cbn [d_flags]. change (negb (Z.land VRING_DESC_F_WRITE VRING_DESC_F_NEXT =? 0)) with false. cbv iota.
  exists s3. split_and!; [done| |by rewrite Hp3, Hp2, Hp1, !wake_free_twice|by rewrite Hv3, Hv2, Hv1].
  apply (vd_only_trans _ s1); [done|]. by apply (vd_only_trans _ s2).
Qed.

(** A round of [virtio_disk_intr]. *)
Lemma intr_step n s id b x f :
  v_used_idx (vd s) <> v_used_dev (vd s) -> 0 <= v_used_idx (vd s) ->
  v_used (vd s) !! Z.to_nat (v_used_idx (vd s) mod NUM) = Some id -> 0 <= id ->
  v_info (vd s) !! Z.to_nat id = Some f -> vi_status f = 0 -> vi_b f = Some b -> bufs s !! b = Some x -> no_plock s ->
  exists s', intr_loop (S n) s = intr_loop n s' /\
    vd s' = (vd s) <| v_used_idx := u16 (v_used_idx (vd s) + 1) |> /\
    bufs s' = <[b := x <| b_disk := false |>]> (bufs s) /\ disk s' = disk s /\ dtrace s' = dtrace s /\
    held s' = held s /\ procs s' = map (wake1 (Some (Ch_buf b))) (procs s).
Proof.
  intros Hne Hpos Hu Hid Hf Hst Hb Hx Hn. cbn [intr_loop]. rewrite bind_gets, (proj2 (Z.eqb_neq _ _) Hne).
  assert (Hmod : 0 <= v_used_idx (vd s) mod NUM) by (apply Z.mod_pos_bound; done).
  run (vd_at_ok v_used _ id s Hmod Hu). run (vd_at_ok v_info _ f s Hid Hf).
  rewrite bind_panic_if by (by rewrite Hst). rewrite Hb. run (updbuf_ok b _ x s Hx).
  set (s0 := s <| bufs := _ |>). run (wakeup_ok (Some (Ch_buf b)) s0 Hn). unfold updvd. rewrite bind_modify.
  eexists. split; [done|]. unfold s0. rs. split_and!; done.
Qed.

(** ** Every step keeps the invariant *)

Lemma length_all_descs rs : length (all_descs rs) = (3 * length rs)%nat.
Proof. unfold all_descs. induction rs as [|r rs IH]; [done|]. cbn [map concat]. rewrite length_app, IH. cbn. lia. Qed.

(** At most two requests are under way. *)
Lemma two_requests x A D U W : ring_inv x A D U W -> (length (reqs x) <= 2)%nat.
Proof.
  intros H. assert (Hs : all_descs (reqs x) ⊆+ seqZ 0 8).
  { apply NoDup_submseteq; [apply (ri_nodup _ _ _ _ _ H)|]. intros i Hi. apply elem_of_seqZ.
    apply (ri_range _ _ _ _ _ H) in Hi. lia. }
  apply submseteq_length in Hs. rewrite length_all_descs, length_seqZ in Hs. cbn in Hs. lia.
Qed.

Lemma part_in x A D U W r : ring_inv x A D U W -> r ∈ A ++ D ++ U ++ W -> r ∈ reqs x.
Proof. intros H Hr. by rewrite (ri_reqs _ _ _ _ _ H). Qed.

Lemma u16_add a b : u16 (u16 a + b) = u16 (a + b).
Proof. unfold wrap. by rewrite Zplus_mod_idemp_l. Qed.

(** Positions of a ring. *)
Lemma u16_mod8 a : u16 a mod NUM = a mod NUM.
Proof. unfold wrap, NUM. change (2 ^ 16) with 65536. Z.div_mod_to_equations. lia. Qed.

Lemma slots_apart a k m : 0 <= k < m -> m < 8 -> Z.to_nat ((a + k) mod NUM) <> Z.to_nat ((a + m) mod NUM).
Proof.
  intros Hk Hm E. apply Z2Nat.inj in E; [|apply Z.mod_pos_bound; done..]. unfold NUM in E.
  revert E. Z.div_mod_to_equations. lia.
Qed.

Lemma slot_range a : (Z.to_nat (a mod NUM) < 8)%nat.
Proof. pose proof (Z.mod_pos_bound a NUM ltac:(done)). unfold NUM in *. lia. Qed.

Section start.
Context (s : kstate) (tk : Z) (bz : list Z) (rs A D U W : list request).
Hypothesis Hi : ring_inv (Sys s tk bz rs) A D U W.
Context (p b : nat) (x : buf) (w : bool) (i0 i1 i2 : Z) (s2 : kstate).
Hypothesis Hx : bufs s !! b = Some x.
Hypothesis Hb : b ∉ map q_buf rs.
Hypothesis Hblk : forall r y, r ∈ rs -> bufs s !! q_buf r = Some y -> b_blockno y <> b_blockno x.
Hypothesis Hno : 0 <= b_blockno x < 2 ^ 31.
Hypothesis Hdisk : is_Some (disk s !! b_blockno x).
Hypothesis Hrg : 0 <= i0 < 8 /\ 0 <= i1 < 8 /\ 0 <= i2 < 8.
Hypothesis Hnd : NoDup [i0; i1; i2].
Hypothesis Hfree : forall i, i ∈ [i0; i1; i2] -> v_free (vd s) !! Z.to_nat i = Some true.
Hypothesis Hvd : vd s2 = started b w (2 * b_blockno x) i0 i1 i2 (given i2 (given i1 (given i0 (vd s)))).
Hypothesis Hbufs : bufs s2 = <[b := x <| b_disk := true |>]> (bufs s).
Hypothesis Hdk : disk s2 = disk s.
Hypothesis Hpl : no_plock s2.

Let r := Rq p i0 i1 i2 b w (b_data x).

Lemma start_fresh i : i ∈ [i0; i1; i2] -> i ∉ all_descs rs.
Proof.
  intros Hin. pose proof (Hfree i Hin) as Hf. rewrite (ri_free _ _ _ _ _ Hi) in Hf.
  - injection Hf as Hf. by apply bool_decide_eq_true in Hf.
  - rewrite !elem_of_cons in Hin. destruct Hin as [->|[->|[->|?%not_elem_of_nil]]]; tauto || done.
Qed.

Lemma start_old r' st dk sv y : r' ∈ rs -> req_in s r' st dk sv y -> req_in s2 r' st dk sv y.
Proof.
  intros Hr Hq.
  assert (Hne : forall i j, i ∈ descs r' -> j ∈ [i0; i1; i2] -> Z.to_nat i <> Z.to_nat j).
  { intros i j Hin Hj E. assert (Hall : i ∈ all_descs rs) by (apply elem_all_descs; eauto).
    pose proof (ri_range _ _ _ _ _ Hi i Hall). pose proof (start_fresh j Hj) as Hfr.
    assert (0 <= j < 8); [|apply Hfr; by replace j with i by lia].
    rewrite !elem_of_cons in Hj. destruct Hj as [->|[->|[->|?%not_elem_of_nil]]]; tauto || done. }
  assert (M0 : i0 ∈ [i0; i1; i2]) by left. assert (M1 : i1 ∈ [i0; i1; i2]) by (right; left).
  assert (M2 : i2 ∈ [i0; i1; i2]) by (do 2 right; left). assert (Mq : q0 r' ∈ descs r') by left.
  eapply req_in_frame; [exact Hq|..]; rewrite ?Hvd, ?Hdk; unfold started, given; rs; try done.
  - intros i Hin. rewrite !list_lookup_alter_ne; [done|apply not_eq_sym; by apply Hne..].
  - by rewrite list_lookup_insert_ne by (apply not_eq_sym; by apply Hne).
  - by rewrite list_lookup_alter_ne by (apply not_eq_sym; by apply Hne).
  - rewrite Hbufs. apply list_lookup_insert_ne. intros ->. apply Hb. apply list_elem_of_fmap. eauto.
Qed.

Lemma start_new : req_in s2 r 0xff true false (x <| b_disk := true |>).
Proof.
  pose proof Hi as [_ Ld Lf Lo _ _ _ _ _ _ _ _ _ _ _ _ _ _ _ _ _ _ _]. cbn in Ld, Lf, Lo.
  rewrite !NoDup_cons, !not_elem_of_cons in Hnd. destruct Hnd as ((N01 & N02 & _) & (N12 & _) & _).
  assert (Z.to_nat i0 <> Z.to_nat i1 /\ Z.to_nat i0 <> Z.to_nat i2 /\ Z.to_nat i1 <> Z.to_nat i2) as (M01 & M02 & M12) by lia.
  assert (Hat : forall i (f : vdesc -> vdesc) l, (Z.to_nat i < length l)%nat -> exists d, alter f (Z.to_nat i) l !! Z.to_nat i = Some (f d)).
  { intros i f l Hl. destruct (lookup_lt_is_Some_2 l (Z.to_nat i) Hl) as [d Hd]. exists d. by rewrite list_lookup_alter_eq, Hd. }
  split; rewrite ?Hvd, ?Hbufs, ?Hdk; unfold started, given, r; cbn [q0 q1 q2 q_buf q_write q_data]; rs; try done.
  - apply list_lookup_insert_eq. by eapply lookup_lt_Some.
  - rewrite !list_lookup_alter_ne by done. edestruct Hat as [d ->]; [|done]. lia.
  - rewrite list_lookup_alter_ne by done. edestruct Hat as [d ->]; [|done]. rewrite length_alter. lia.
  - edestruct Hat as [d ->]; [|done]. rewrite !length_alter. lia.
  - apply list_lookup_insert_eq. lia.
  - destruct (lookup_lt_is_Some_2 (v_info (vd s)) (Z.to_nat i0)) as [f Hf]; [lia|].
    by rewrite list_lookup_alter_eq, Hf.
Qed.

Lemma start_free i :
  0 <= i < 8 ->
  v_free (given i2 (given i1 (given i0 (vd s)))) !! Z.to_nat i = Some (bool_decide (i ∉ [i0; i1; i2] ++ all_descs rs)).
Proof.
  intros Hr. pose proof (ri_free _ _ _ _ _ Hi i Hr) as Hf. cbn in Hf. pose proof (ri_free_len _ _ _ _ _ Hi) as Hl. cbn in Hl.
  unfold given. rs. destruct (decide (i ∈ [i0; i1; i2])) as [Hin|Hout].
  - rewrite bool_decide_eq_false_2 by (rewrite elem_of_app; tauto).
    assert (Hlk : forall l j c, length l = 8%nat -> Z.to_nat i = j -> <[j := c]> l !! Z.to_nat i = Some (c : bool)).
    { intros l j c Hl' <-. apply list_lookup_insert_eq. lia. }
    destruct (decide (i = i2)) as [->|]; [apply Hlk; [by rewrite !length_insert|done]|].
    rewrite list_lookup_insert_ne by lia. destruct (decide (i = i1)) as [->|]; [apply Hlk; [by rewrite !length_insert|done]|].
    rewrite list_lookup_insert_ne by lia. rewrite !elem_of_cons in Hin.
    destruct Hin as [->|[?|[?|?%not_elem_of_nil]]]; [by apply Hlk|done..].
  - rewrite !not_elem_of_cons in Hout. destruct Hout as (N0 & N1 & N2 & _).
    rewrite !list_lookup_insert_ne, Hf by lia. f_equal. apply bool_decide_ext. rewrite not_elem_of_app, !not_elem_of_cons.
    split; [|tauto]. intros H. split_and!; try done. apply not_elem_of_nil.
Qed.

Lemma start_blocks r1 r2 y y' :
  r1 ∈ r :: rs -> r2 ∈ r :: rs -> bufs s2 !! q_buf r1 = Some y -> bufs s2 !! q_buf r2 = Some y' ->
  b_blockno y = b_blockno y' -> r1 = r2.
Proof.
  assert (Hne : forall q, q ∈ rs -> q_buf q <> b).
  { intros q Hq <-. apply Hb. apply list_elem_of_fmap. eauto. }
  assert (Hbb : forall y, bufs s2 !! b = Some y -> b_blockno y = b_blockno x).
  { intros z. rewrite Hbufs, list_lookup_insert_eq by (by eapply lookup_lt_Some). by intros [= <-]. }
  assert (Hbo : forall q z, q ∈ rs -> bufs s2 !! q_buf q = Some z -> bufs s !! q_buf q = Some z).
  { intros q z Hq. rewrite Hbufs, list_lookup_insert_ne by (apply not_eq_sym; by apply Hne). done. }
  intros [->|H1]%elem_of_cons [->|H2]%elem_of_cons Hy Hy' E; [done|..].
  - apply Hbb in Hy. destruct (Hblk r2 y' H2 (Hbo _ _ H2 Hy')). congruence.
  - apply Hbb in Hy'. destruct (Hblk r1 y H1 (Hbo _ _ H1 Hy)). congruence.
  - eapply (ri_blocks _ _ _ _ _ Hi r1 r2 y y'); [done|done|by apply Hbo|by apply Hbo|done].
Qed.

Lemma inv_start : ring_inv (Sys s2 tk bz (r :: rs)) (A ++ [r]) D U W.
Proof.
  pose proof (two_requests _ _ _ _ _ Hi) as Hcap. cbn in Hcap.
  pose proof Hi as [Ipl Ld Lf Lo Hrq Hbz Hnd0 Hrg0 Lfr Hfr Hnb Hbk Hwt Hdn Hak Lav Htk Hai Hav Lus Hui Hud Hus].
  cbn [ks taken busy reqs] in *.
  assert (Hlen : (length A <= 2)%nat).
  { apply Permutation_length in Hrq. rewrite length_app in Hrq. lia. }
  assert (Hold : forall q st dk sv, q ∈ A ++ D ++ U ++ W -> (exists y, req_in s q st dk sv y) -> exists y, req_in s2 q st dk sv y).
  { intros q st dk sv Hq [y Hy]. exists y. eapply start_old; [|exact Hy]. by rewrite Hrq. }
  split; cbn [ks taken busy reqs]; rewrite ?Hvd; try (unfold started, given; rs; rewrite ?length_insert, ?length_alter; done); try done.
  - rewrite Hrq. solve_Permutation.
  - change (all_descs (r :: rs)) with ([i0; i1; i2] ++ all_descs rs). apply NoDup_app. split_and!; try done.
    intros i Hin. by apply start_fresh.
  - change (all_descs (r :: rs)) with ([i0; i1; i2] ++ all_descs rs). intros i [Hin|Hin]%elem_of_app; [|by apply Hrg0].
    rewrite !elem_of_cons in Hin. destruct Hin as [->|[->|[->|?%not_elem_of_nil]]]; tauto || done.
  - intros i Hin. change (all_descs (r :: rs)) with ([i0; i1; i2] ++ all_descs rs). by apply start_free.
  - apply NoDup_cons. done.
  - intros r1 r2 y y'. apply start_blocks.
  - intros q. rewrite <- app_assoc, elem_of_app, elem_of_app, list_elem_of_singleton. intros [Hq|[->|Hq]].
    + apply Hold; [rewrite !elem_of_app; tauto|]. apply Hwt. rewrite elem_of_app. tauto.
    + eexists. apply start_new.
    + apply Hold; [rewrite !elem_of_app; tauto|]. apply Hwt. rewrite elem_of_app. tauto.
  - intros q Hq. destruct (Hdn q Hq) as (st & Hz). exists st. apply Hold; [rewrite !elem_of_app; tauto|done].
  - intros q Hq. apply Hold; [rewrite !elem_of_app; tauto|]. by apply Hak.
  - unfold started, given. rs. rewrite Hai, u16_add, length_app. cbn [length]. f_equal. lia.
  - intros k q Hk. unfold started, given. rs. rewrite Hai, u16_mod8.
    apply lookup_app_Some in Hk as [Hk|[Hge Hk]].
    + rewrite list_lookup_insert_ne; [by apply Hav|]. apply not_eq_sym, slots_apart; [apply lookup_lt_Some in Hk|]; lia.
    + apply list_lookup_singleton_Some in Hk as [Hk <-]. replace k with (length A) by lia.
      apply list_lookup_insert_eq. rewrite Lav. apply slot_range.
Qed.

End start.

Lemma same_rings_refl v : same_rings v v.
Proof. by split. Qed.

(** The descriptors of requests are not free. *)
Lemma not_free x A D U W r i :
  ring_inv x A D U W -> r ∈ reqs x -> i ∈ descs r ->
  v_free (vd (ks x)) !! Z.to_nat i = Some false /\ 0 <= i < 8.
Proof.
  intros H Hr Hin. assert (Hall : i ∈ all_descs (reqs x)) by (apply elem_all_descs; eauto).
  pose proof (ri_range _ _ _ _ _ H i Hall) as Hrg. split; [|done].
  rewrite (ri_free _ _ _ _ _ H) by done. f_equal. apply bool_decide_eq_false_2. intros Hn. by apply Hn.
Qed.

(** Changes elsewhere. *)
Lemma inv_same s s' tk bz rs A D U W :
  ring_inv (Sys s tk bz rs) A D U W -> same_rings (vd s) (vd s') -> no_plock s' ->
  (forall r, r ∈ rs -> bufs s' !! q_buf r = bufs s !! q_buf r) -> disk s' = disk s ->
  ring_inv (Sys s' tk bz rs) A D U W.
Proof.
  intros Hi [Sfr Sl Sd Sai Sav Sud Sus Sui Sif Sop] Hpl Hb Hdk.
  assert (Hold : forall q st dk sv, q ∈ A ++ D ++ U ++ W -> (exists y, req_in s q st dk sv y) -> exists y, req_in s' q st dk sv y).
  { intros q st dk sv Hq [y Hy]. exists y. pose proof (part_in _ _ _ _ _ _ Hi Hq) as Hr.
    eapply req_in_frame; [exact Hy|..|by apply Hb|by rewrite Hdk]; rewrite ?Sop, ?Sif; try done.
    intros i Hin. apply Sd. by apply (not_free _ _ _ _ _ q i Hi). }
  pose proof Hi as [Ipl Ld Lf Lo Hrq Hbz Hnd0 Hrg0 Lfr Hfr Hnb Hbk Hwt Hdn Hak Lav Htk Hai Hav Lus Hui Hud Hus].
  cbn [ks taken busy reqs] in *.
  split; cbn [ks taken busy reqs]; rewrite ?Sfr, ?Sl, ?Sai, ?Sav, ?Sud, ?Sus, ?Sui, ?Sif, ?Sop; try done.
  - intros r r' y y' Hr Hr'. rewrite !Hb by done. by apply Hbk.
  - intros q Hq. apply Hold; [rewrite !elem_of_app in *; tauto|by apply Hwt].
  - intros q Hq. destruct (Hdn q Hq) as (st & Hz). exists st. apply Hold; [rewrite !elem_of_app; tauto|done].
  - intros q Hq. apply Hold; [rewrite !elem_of_app; tauto|by apply Hak].
Qed.

(** The device takes the next chain. *)
Lemma inv_take s tk bz rs A D U W i :
  ring_inv (Sys s tk bz rs) A D U W -> tk <> v_avail_idx (vd s) ->
  v_avail (vd s) !! Z.to_nat (tk mod NUM) = Some i ->
  exists r A', A = r :: A' /\ i = q0 r /\ ring_inv (Sys s (u16 (tk + 1)) (bz ++ [i]) rs) A' (D ++ [r]) U W.
Proof.
  intros Hi Hne Hav0.
  pose proof Hi as [Ipl Ld Lf Lo Hrq Hbz Hnd0 Hrg0 Lfr Hfr Hnb Hbk Hwt Hdn Hak Lav Htk Hai Hav Lus Hui Hud Hus].
  cbn [ks taken busy reqs] in *. destruct A as [|r A].
  { exfalso. apply Hne. rewrite Hai, Z.add_0_r. unfold wrap. by rewrite Z.mod_small. }
  exists r, A. pose proof (Hav 0%nat r eq_refl) as H0. rewrite Z.add_0_r, Hav0 in H0. injection H0 as ->.
  split_and!; [done..|]. split; cbn [ks taken busy reqs]; try done.
  - rewrite Hrq. solve_Permutation.
  - by rewrite Hbz, map_app.
  - intros q Hq. apply Hwt. clear -Hq. set_solver.
  - unfold wrap. apply Z.mod_pos_bound. lia.
  - rewrite Hai, u16_add. f_equal. cbn [length]. lia.
  - intros k q Hk. pose proof (Hav (S k) q Hk) as H. rewrite <- H. f_equal. f_equal.
    rewrite <- (u16_mod8 (u16 (tk + 1) + Z.of_nat k)), u16_add, u16_mod8. f_equal. lia.
Qed.

(** Two requests share nothing. *)
Lemma descs_apart rs r r' i : NoDup (all_descs rs) -> r ∈ rs -> r' ∈ rs -> i ∈ descs r -> i ∈ descs r' -> r = r'.
Proof.
  intros Hnd Hr Hr' Hi Hi'. apply list_elem_of_split in Hr as (l1 & l2 & ->).
  assert (Hp : l1 ++ r :: l2 ≡ₚ r :: (l1 ++ l2)) by solve_Permutation.
  rewrite (all_descs_perm _ _ Hp) in Hnd. apply NoDup_app in Hnd as (_ & Hnd & _).
  rewrite Hp in Hr'. apply elem_of_cons in Hr' as [->|Hr']; [done|].
  exfalso. apply (Hnd i Hi). apply elem_all_descs. eauto.
Qed.

Lemma bufs_apart x A D U W r r' y :
  ring_inv x A D U W -> r ∈ reqs x -> r' ∈ reqs x -> bufs (ks x) !! q_buf r = Some y -> q_buf r = q_buf r' -> r = r'.
Proof. intros H Hr Hr' Hy E. by eapply (ri_blocks _ _ _ _ _ H r r' y y); rewrite <- ?E. Qed.

Lemma reqs_nodup x A D U W : ring_inv x A D U W -> NoDup (A ++ D ++ U ++ W).
Proof. intros H. rewrite <- (ri_reqs _ _ _ _ _ H). eapply NoDup_fmap_1. apply (ri_bufs _ _ _ _ _ H). Qed.

Lemma read_chain_ok s r st dk sv x :
  req_in s r st dk sv x ->
  read_chain (vd s) (q0 r) =
    Some (mkBlkreq (if q_write r then VIRTIO_BLK_T_OUT else VIRTIO_BLK_T_IN) 0 (2 * b_blockno x), q_buf r, q0 r).
Proof.
  intros [_ _ _ H0 H1 H2 Ho _ _ _]. unfold read_chain. rewrite H0. cbn. rewrite H1. cbn. rewrite H2. cbn. rewrite Ho. cbn.
  unfold data_ok, has_flag. cbn [rq_sector rq_type d_flags d_len]. rewrite Z.mul_comm, Z_mod_mult. by destruct (q_write r).
Qed.

(** The transfer of a request is [virtio_disk_rw] of the block layer. *)
Lemma transfer_ok s r st x :
  req_in s r st true false x ->
  exists s' y, transfer (mkBlkreq (if q_write r then VIRTIO_BLK_T_OUT else VIRTIO_BLK_T_IN) 0 (2 * b_blockno x)) (q_buf r) s = Some s' /\
    disk_rw (q_buf r) (q_write r) s = Ok tt s' /\ vd s' = vd s /\ held s' = held s /\ procs s' = procs s /\
    bufs s' !! q_buf r = Some y /\ b_blockno y = b_blockno x /\ b_disk y = true /\
    disk s' !! b_blockno x = Some (b_data y) /\ (q_write r = true -> b_data y = q_data r) /\
    (forall b, b <> q_buf r -> bufs s' !! b = bufs s !! b) /\
    (forall k, k <> b_blockno x -> disk s' !! k = disk s !! k).
Proof.
  intros [Hb Hk Hf _ _ _ _ _ Hd [data Hdata]]. unfold transfer, disk_rw.
  rewrite (bind_ok _ _ _ _ _ (getbuf_ok _ _ _ Hb)), bind_gets, Hb, Hdata. cbn [mbind option_bind rq_sector rq_type].
  replace (2 * b_blockno x / 2) with (b_blockno x) by (Z.div_mod_to_equations; lia). rewrite Hdata. cbn [mbind option_bind].
  destruct (q_write r) eqn:Ew; cbn [Z.eqb].
  - eexists _, x. split; [done|]. split; [done|]. rs. split_and!; try done.
    + by rewrite lookup_insert_eq.
    + intros _. apply Hd. by right.
    + intros k Hne. by rewrite lookup_insert_ne.
  - eexists _, (x <| b_data := data |>). split; [done|]. split; [by rewrite (updbuf_ok _ _ _ _ Hb)|]. rs.
    split_and!; try done.
    + apply list_lookup_insert_eq. by eapply lookup_lt_Some.
    + intros b Hne. by apply list_lookup_insert_ne.
Qed.

(** A buffer keeps its block. *)
Lemma blocks_kept s s' (rs : list request) r x y :
  bufs s !! q_buf r = Some x -> bufs s' !! q_buf r = Some y -> b_blockno y = b_blockno x ->
  (forall b, b <> q_buf r -> bufs s' !! b = bufs s !! b) ->
  (forall r1 r2 z z', r1 ∈ rs -> r2 ∈ rs -> bufs s !! q_buf r1 = Some z -> bufs s !! q_buf r2 = Some z' ->
     b_blockno z = b_blockno z' -> r1 = r2) ->
  forall r1 r2 z z', r1 ∈ rs -> r2 ∈ rs -> bufs s' !! q_buf r1 = Some z -> bufs s' !! q_buf r2 = Some z' ->
    b_blockno z = b_blockno z' -> r1 = r2.
Proof.
  intros Hx Hy E Ho H r1 r2 z z' H1 H2 Hz Hz' Eb.
  assert (Hback : forall b u, bufs s' !! b = Some u -> exists u0, bufs s !! b = Some u0 /\ b_blockno u0 = b_blockno u).
  { intros b u Hu. destruct (decide (b = q_buf r)) as [->|Hne]; [exists x; split; [done|congruence]|].
    exists u. by rewrite <- Ho. }
  destruct (Hback _ _ Hz) as (z0 & Hz0 & E0). destruct (Hback _ _ Hz') as (z0' & Hz0' & E0').
  eapply (H r1 r2); try done. congruence.
Qed.

(** The device completes a chain. *)
Section complete.
Context (s : kstate) (tk : Z) (bz : list Z) (rs A D1 D2 U W : list request) (r : request).
Hypothesis Hi : ring_inv (Sys s tk bz rs) A (D1 ++ r :: D2) U W.
Context (x y : buf) (s1 : kstate) (st : Z).
Hypothesis Hr : req_in s r 0xff true false x.
Hypothesis Hvd : vd s1 = vd s.
Hypothesis Hpl : no_plock s1.
Hypothesis Hy : bufs s1 !! q_buf r = Some y.
Hypothesis Hyb : b_blockno y = b_blockno x.
Hypothesis Hyd : b_disk y = true.
Hypothesis Hdk : if st =? 0 then disk s1 !! b_blockno x = Some (b_data y) else is_Some (disk s1 !! b_blockno x).
Hypothesis Hw : (st =? 0) = false \/ q_write r = true -> b_data y = q_data r.
Hypothesis Hbo : forall b, b <> q_buf r -> bufs s1 !! b = bufs s !! b.
Hypothesis Hdo : forall k, k <> b_blockno x -> disk s1 !! k = disk s !! k.

Let s2 := s1 <| vd ::= report (q0 r) (q0 r) st |>.

Lemma complete_in : r ∈ rs.
Proof. apply (part_in _ _ _ _ _ _ Hi). rewrite !elem_of_app, elem_of_cons. tauto. Qed.

Lemma complete_other r' st' dk sv z : r' ∈ rs -> r' <> r -> req_in s r' st' dk sv z -> req_in s2 r' st' dk sv z.
Proof.
  intros Hr' Hne Hz. pose proof complete_in as Hin.
  assert (Hq : Z.to_nat (q0 r) <> Z.to_nat (q0 r')).
  { intros E. apply Hne. eapply (descs_apart rs r' r (q0 r')); [apply (ri_nodup _ _ _ _ _ Hi)|done|done|left|].
    destruct (not_free _ _ _ _ _ r (q0 r) Hi Hin) as [_ ?]; [left|].
    destruct (not_free _ _ _ _ _ r' (q0 r') Hi Hr') as [_ ?]; [left|]. replace (q0 r') with (q0 r) by lia. left. }
  eapply req_in_frame; [exact Hz|..]; unfold s2; rs; unfold report; rs; rewrite ?Hvd; try done.
  - by apply list_lookup_alter_ne.
  - apply Hbo. intros E. apply Hne. by eapply (bufs_apart _ _ _ _ _ r' r _ Hi Hr' Hin (rq_buf_at _ _ _ _ _ _ Hz)).
  - apply Hdo. intros E. apply Hne. eapply (ri_blocks _ _ _ _ _ Hi r' r); [done|done|apply Hz|apply Hr|done].
Qed.

Lemma complete_this : req_in s2 r st true (st =? 0) y.
Proof.
  destruct Hr as [H1 H2 H3 H4 H5 H6 H7 H8 H9 H10].
  split; unfold s2; rs; unfold report; rs; rewrite ?Hvd, ?Hyb; try done.
  by rewrite list_lookup_alter_eq, H8.
Qed.

Lemma inv_complete : ring_inv (Sys s2 tk (map q0 (D1 ++ D2)) rs) A (D1 ++ D2) (U ++ [r]) W.
Proof.
  pose proof (two_requests _ _ _ _ _ Hi) as Hcap. cbn in Hcap. pose proof (reqs_nodup _ _ _ _ _ Hi) as Hndr.
  pose proof Hi as [Ipl Ld Lf Lo Hrq Hbz Hnd0 Hrg0 Lfr Hfr Hnb Hbk Hwt Hdn Hak Lav Htk Hai Hav Lus Hui Hud Hus].
  cbn [ks taken busy reqs] in *.
  assert (Hlen : (length U <= 2)%nat).
  { apply Permutation_length in Hrq. rewrite !length_app in Hrq. cbn in Hrq. lia. }
  assert (Hp : A ++ (D1 ++ r :: D2) ++ U ++ W ≡ₚ r :: (A ++ D1 ++ D2 ++ U ++ W)) by solve_Permutation.
  rewrite Hp in Hndr. apply NoDup_cons in Hndr as [Hnr _].
  assert (Hold : forall q st' dk sv, q ∈ A ++ D1 ++ D2 ++ U ++ W -> (exists z, req_in s q st' dk sv z) -> exists z, req_in s2 q st' dk sv z).
  { intros q st' dk sv Hq [z Hz]. exists z. eapply complete_other; [|congruence|exact Hz]. rewrite Hrq, Hp. by right. }
  split; cbn [ks taken busy reqs]; try (unfold s2; rs; unfold report; rs; rewrite ?Hvd, ?length_insert, ?length_alter; done); try done.
  - rewrite Hrq, Hp. solve_Permutation.
  - unfold s2. rs. apply (blocks_kept s s1 rs r x y); try done. by destruct Hr.
  - intros q Hq. apply Hold; [|apply Hwt]; clear -Hq; set_solver.
  - intros q [Hq| ->%list_elem_of_singleton]%elem_of_app; [|exists st, y; apply complete_this].
    destruct (Hdn q Hq) as (st' & Hz). exists st'. apply Hold; [|done]. clear -Hq. set_solver.
  - intros q Hq. apply Hold; [|by apply Hak]. clear -Hq. set_solver.
  - unfold s2. rs. unfold report. rs. rewrite Hvd, Hud, u16_add, length_app. cbn [length]. f_equal. lia.
  - intros k q Hk. unfold s2. rs. unfold report. rs. rewrite Hvd, Hud, u16_mod8.
    apply lookup_app_Some in Hk as [Hk|[Hge Hk]].
    + rewrite list_lookup_insert_ne; [by apply Hus|]. apply not_eq_sym, slots_apart; [apply lookup_lt_Some in Hk|]; lia.
    + apply list_lookup_singleton_Some in Hk as [Hk <-]. replace k with (length U) by lia.
      apply list_lookup_insert_eq. rewrite Lus. apply slot_range.
Qed.

End complete.

(** The interrupt handler sees a completion. *)
Section ack.
Context (s : kstate) (tk : Z) (bz : list Z) (rs A D U W : list request) (r : request).
Hypothesis Hi : ring_inv (Sys s tk bz rs) A D (r :: U) W.
Context (x : buf) (s1 : kstate).
Hypothesis Hr : req_in s r 0 true true x.
Hypothesis Hvd : vd s1 = (vd s) <| v_used_idx := u16 (v_used_idx (vd s) + 1) |>.
Hypothesis Hb : bufs s1 = <[q_buf r := x <| b_disk := false |>]> (bufs s).
Hypothesis Hdk : disk s1 = disk s.
Hypothesis Hpl : no_plock s1.

Lemma ack_other r' st dk sv z : r' ∈ rs -> r' <> r -> req_in s r' st dk sv z -> req_in s1 r' st dk sv z.
Proof.
  intros Hr' Hne Hz. assert (Hin : r ∈ rs) by (apply (part_in _ _ _ _ _ _ Hi); rewrite !elem_of_app, elem_of_cons; tauto).
  eapply req_in_frame; [exact Hz|..]; rewrite ?Hvd, ?Hdk; rs; try done.
  rewrite Hb. apply list_lookup_insert_ne. intros E. apply Hne. symmetry.
  by eapply (bufs_apart _ _ _ _ _ r r' _ Hi Hin Hr' (rq_buf_at _ _ _ _ _ _ Hr)).
Qed.

Lemma ack_this : req_in s1 r 0 false true (x <| b_disk := false |>).
Proof.
  destruct Hr as [H1 H2 H3 H4 H5 H6 H7 H8 H9 H10]. split; rewrite ?Hvd, ?Hdk; rs; try done.
  rewrite Hb. apply list_lookup_insert_eq. by eapply lookup_lt_Some.
Qed.

Lemma inv_ack : ring_inv (Sys s1 tk bz rs) A D U (r :: W).
Proof.
  pose proof (reqs_nodup _ _ _ _ _ Hi) as Hndr.
  pose proof Hi as [Ipl Ld Lf Lo Hrq Hbz Hnd0 Hrg0 Lfr Hfr Hnb Hbk Hwt Hdn Hak Lav Htk Hai Hav Lus Hui Hud Hus].
  cbn [ks taken busy reqs] in *.
  assert (Hp : A ++ D ++ (r :: U) ++ W ≡ₚ r :: (A ++ D ++ U ++ W)) by solve_Permutation.
  rewrite Hp in Hndr. apply NoDup_cons in Hndr as [Hnr _].
  assert (Hold : forall q st dk sv, q ∈ A ++ D ++ U ++ W -> (exists z, req_in s q st dk sv z) -> exists z, req_in s1 q st dk sv z).
  { intros q st dk sv Hq [z Hz]. exists z. eapply ack_other; [|congruence|exact Hz]. rewrite Hrq, Hp. by right. }
  split; cbn [ks taken busy reqs]; rewrite ?Hvd; rs; try done.
  - rewrite Hrq. solve_Permutation.
  - apply (blocks_kept s s1 rs r x (x <| b_disk := false |>)); try done; rewrite ?Hb.
    + by destruct Hr.
    + apply list_lookup_insert_eq. destruct Hr. by eapply lookup_lt_Some.
    + intros b Hne. by apply list_lookup_insert_ne.
  - intros q Hq. apply Hold; [|by apply Hwt]. clear -Hq. set_solver.
  - intros q Hq. destruct (Hdn q) as (st & Hz); [by right|]. exists st. apply Hold; [|done]. clear -Hq. set_solver.
  - intros q [->|Hq]%elem_of_cons; [eexists; apply ack_this|]. apply Hold; [|by apply Hak]. clear -Hq. set_solver.
  - unfold wrap. apply Z.mod_pos_bound. lia.
  - rewrite Hud, u16_add. f_equal. cbn [length]. lia.
  - intros k q Hk. pose proof (Hus (S k) q Hk) as H. rewrite <- H. f_equal. f_equal.
    rewrite <- (u16_mod8 (u16 _ + Z.of_nat k)), u16_add, u16_mod8. f_equal. lia.
Qed.

End ack.

(** Buffers keep their blocks and data. *)
Definition same_data (s s' : kstate) : Prop :=
  length (bufs s') = length (bufs s) /\
  forall b y, bufs s !! b = Some y -> exists y', bufs s' !! b = Some y' /\ b_blockno y' = b_blockno y /\ b_data y' = b_data y.

Lemma same_data_refl s : same_data s s.
Proof. split; [done|]. intros b y Hy. eauto. Qed.

Lemma same_data_trans s1 s2 s3 : same_data s1 s2 -> same_data s2 s3 -> same_data s1 s3.
Proof.
  intros [L1 H1] [L2 H2]. split; [congruence|]. intros b y (y1 & Hy1 & E1 & F1)%H1.
  apply H2 in Hy1 as (y2 & Hy2 & E2 & F2). exists y2. split_and!; congruence.
Qed.

Lemma same_data_flag s s' b x v :
  bufs s !! b = Some x -> bufs s' = <[b := x <| b_disk := v |>]> (bufs s) -> same_data s s'.
Proof.
  intros Hx E. split; [by rewrite E, length_insert|]. intros b' y Hy. rewrite E.
  destruct (decide (b = b')) as [->|Hne].
  - rewrite list_lookup_insert_eq by (by eapply lookup_lt_Some). assert (y = x) as -> by congruence. by eexists.
  - rewrite list_lookup_insert_ne by done. by exists y.
Qed.

(** What others do to a process that waits: it is made runnable, or left as it is. *)
Definition keeps (q q' : proc) : Prop :=
  (p_state q = RUNNABLE -> p_state q' = RUNNABLE) /\
  (p_state q = SLEEPING -> p_state q' = RUNNABLE \/ (p_state q' = SLEEPING /\ p_chan q' = p_chan q)).

Lemma proc_keeps_refl q : keeps q q.
Proof. unfold keeps. tauto. Qed.

Lemma proc_keeps_trans q1 q2 q3 : keeps q1 q2 -> keeps q2 q3 -> keeps q1 q3.
Proof. unfold keeps. intros [A1 B1] [A2 B2]. split; [auto|]. intros H. destruct (B1 H) as [?|[? <-]]; auto. Qed.

Lemma wake1_keeps c q : keeps q (wake1 c q).
Proof. unfold wake1, keeps. repeat case_decide; rs; split; naive_solver. Qed.

Lemma wake1_wakes c q : p_state q = SLEEPING -> p_chan q = c -> p_state (wake1 c q) = RUNNABLE.
Proof. intros Hs Hc. unfold wake1. by rewrite !decide_True. Qed.

(** The processes that wait for the buffers of [U] are made runnable. *)
Definition wakes (U : list request) (s s' : kstate) : Prop :=
  length (procs s') = length (procs s) /\
  forall p q, procs s !! p = Some q -> exists q', procs s' !! p = Some q' /\ keeps q q' /\
    (forall r, r ∈ U -> p_state q = SLEEPING -> p_chan q = Some (Ch_buf (q_buf r)) -> p_state q' = RUNNABLE).

Lemma wakes_cons r U s s1 s' :
  procs s1 = map (wake1 (Some (Ch_buf (q_buf r)))) (procs s) -> wakes U s1 s' -> wakes (r :: U) s s'.
Proof.
  intros E [Hl H]. split; [by rewrite Hl, E, length_map|]. intros p q Hq.
  destruct (H p (wake1 (Some (Ch_buf (q_buf r))) q)) as (q' & Hq' & Hk & Hw); [by rewrite E, list_lookup_fmap, Hq|].
  exists q'. split; [done|]. split; [eapply proc_keeps_trans; [apply wake1_keeps|done]|].
  intros r' [->|Hr']%elem_of_cons Hs Hc; [apply Hk; by apply wake1_wakes|].
  destruct (wake1_keeps (Some (Ch_buf (q_buf r))) q) as [_ Hws]. destruct (Hws Hs) as [Hr|[Hs' Hc']]; [by apply Hk|].
  apply (Hw r'); congruence.
Qed.

(** The device has reported an error for [r]. *)
Definition failed (v : vdisk) (r : request) : bool :=
  match v_info v !! Z.to_nat (q0 r) with Some f => negb (vi_status f =? 0) | None => false end.

Lemma req_failed s r st dk sv x : req_in s r st dk sv x -> failed (vd s) r = negb (st =? 0).
Proof. intros H. unfold failed. by rewrite (rq_info _ _ _ _ _ _ H). Qed.

(** What the handler reads in a round. *)
Lemma intr_reads s tk bz rs A D r U W :
  ring_inv (Sys s tk bz rs) A D (r :: U) W ->
  v_used_idx (vd s) <> v_used_dev (vd s) /\ 0 <= v_used_idx (vd s) /\
  v_used (vd s) !! Z.to_nat (v_used_idx (vd s) mod NUM) = Some (q0 r) /\ 0 <= q0 r.
Proof.
  intros Hi. pose proof (two_requests _ _ _ _ _ Hi) as Hcap. pose proof (ri_reqs _ _ _ _ _ Hi) as Hrq.
  apply Permutation_length in Hrq. rewrite !length_app in Hrq. cbn in Hcap, Hrq.
  pose proof (ri_used_idx _ _ _ _ _ Hi) as Hui. pose proof (ri_used_dev _ _ _ _ _ Hi) as Hud. cbn [ks] in Hui, Hud.
  pose proof (ri_used _ _ _ _ _ Hi 0%nat r eq_refl) as Hu. cbn [ks] in Hu. rewrite Z.add_0_r in Hu.
  assert (Hin : r ∈ rs) by (apply (part_in _ _ _ _ _ _ Hi); rewrite !elem_of_app, elem_of_cons; tauto).
  destruct (not_free _ _ _ _ _ r (q0 r) Hi Hin) as [_ Hrg]; [left|]. split_and!; try done; try lia.
  rewrite Hud. cbn [length]. unfold wrap. change (2 ^ 16) with 65536 in *. clear -Hui Hcap Hrq. intros E.
  Z.div_mod_to_equations. lia.
Qed.

Lemma intr_round s tk bz rs A D r U W x :
  ring_inv (Sys s tk bz rs) A D (r :: U) W -> req_in s r 0 true true x ->
  exists s1, intr_loop (S (length U)) s = intr_loop (length U) s1 /\ ring_inv (Sys s1 tk bz rs) A D U (r :: W) /\
    v_info (vd s1) = v_info (vd s) /\ disk s1 = disk s /\ dtrace s1 = dtrace s /\ same_data s s1 /\
    held s1 = held s /\ procs s1 = map (wake1 (Some (Ch_buf (q_buf r)))) (procs s).
Proof.
  intros Hi Hr. destruct (intr_reads _ _ _ _ _ _ _ _ _ Hi) as (Hne & Hp & Hu & Hq).
  destruct (intr_step (length U) s (q0 r) (q_buf r) x (mkVinfo (Some (q_buf r)) 0)) as (s1 & E & Hv & Hb & Hd & Ht & Hh & Hpr); try done; try apply Hr.
  { apply (ri_plock _ _ _ _ _ Hi). }
  exists s1. split_and!; try done; [|by rewrite Hv|eapply same_data_flag; [apply Hr|done]].
  eapply inv_ack; try done. destruct (ri_plock _ _ _ _ _ Hi) as [P1 P2]. cbn in *.
  split; [by rewrite Hpr, length_map|by rewrite Hh].
Qed.

Lemma intr_loop_ok tk bz rs A D U : forall s W,
  ring_inv (Sys s tk bz rs) A D U W -> (forall r, r ∈ U -> failed (vd s) r = false) ->
  exists s', intr_loop (length U) s = Ok tt s' /\ ring_inv (Sys s' tk bz rs) A D [] (rev U ++ W) /\
    disk s' = disk s /\ dtrace s' = dtrace s /\ same_data s s' /\ held s' = held s /\ wakes U s s'.
Proof.
  induction U as [|r U IH]; intros s W Hi Hok.
  - exists s. split_and!; try done; [|apply same_data_refl|split; [done|]].
    + cbn [length intr_loop]. rewrite bind_gets. pose proof (ri_used_dev _ _ _ _ _ Hi) as E. pose proof (ri_used_idx _ _ _ _ _ Hi).
      cbn in *. rewrite E, Z.add_0_r. unfold wrap. rewrite Z.mod_small by done. by rewrite Z.eqb_refl.
    + intros p q Hq. exists q. split_and!; [done|apply proc_keeps_refl|by intros ? ?%not_elem_of_nil].
  - destruct (ri_done _ _ _ _ _ Hi r) as (st & x & Hr); [left|]. cbn in Hr.
    pose proof (Hok r ltac:(left)) as H0. rewrite (req_failed _ _ _ _ _ _ Hr) in H0. apply negb_false_iff, Z.eqb_eq in H0 as ->.
    destruct (intr_round _ _ _ _ _ _ _ _ _ _ Hi Hr) as (s1 & E & Hi1 & Hf1 & Hd1 & Ht1 & Hs1 & Hh1 & Hp1).
    destruct (IH s1 (r :: W) Hi1) as (s' & E' & Hi' & Hd' & Ht' & Hs' & Hh' & Hw').
    { intros q Hq. unfold failed. rewrite Hf1. apply Hok. by right. }
    exists s'. cbn [length rev]. rewrite E, <- app_assoc. split_and!; try done; [congruence..|by eapply same_data_trans|congruence|].
    by eapply wakes_cons.
Qed.

Lemma intr_loop_panics tk bz rs A D U : forall s W,
  ring_inv (Sys s tk bz rs) A D U W -> (exists r, r ∈ U /\ failed (vd s) r = true) ->
  intr_loop (length U) s = Panic "virtio_disk_intr status".
Proof.
  induction U as [|r U IH]; intros s W Hi (r' & Hr' & Hf); [by apply not_elem_of_nil in Hr'|].
  destruct (ri_done _ _ _ _ _ Hi r) as (st & x & Hr); [left|]. cbn in Hr. cbn [length]. destruct (Z.eq_dec st 0) as [->|Hst].
  - apply elem_of_cons in Hr' as [->|Hr']; [by rewrite (req_failed _ _ _ _ _ _ Hr) in Hf|].
    destruct (intr_round _ _ _ _ _ _ _ _ _ _ Hi Hr) as (s1 & -> & Hi1 & Hf1 & _). apply (IH s1 (r :: W) Hi1).
    exists r'. unfold failed. by rewrite Hf1.
  - destruct (intr_reads _ _ _ _ _ _ _ _ _ Hi) as (Hne & Hp & Hu & Hq).
    cbn [intr_loop]. rewrite bind_gets, (proj2 (Z.eqb_neq _ _) Hne).
    run (vd_at_ok v_used (v_used_idx (vd s) mod NUM) _ s (proj1 (Z.mod_pos_bound _ NUM ltac:(done))) Hu).
    run (vd_at_ok v_info (q0 r) _ s Hq (rq_info _ _ _ _ _ _ Hr)). unfold panic_if, bind. cbn.
    by rewrite (proj2 (Z.eqb_neq _ _) Hst).
Qed.

(** A process takes its descriptors back. *)
Section finish.
Context (s : kstate) (tk : Z) (bz : list Z) (rs1 rs2 A D U W1 W2 : list request) (r : request).
Hypothesis Hi : ring_inv (Sys s tk bz (rs1 ++ r :: rs2)) A D U (W1 ++ r :: W2).
Context (s1 : kstate).
Hypothesis Hvd : vd s1 = freed (q2 r) (freed (q1 r) (freed (q0 r) (forget (q0 r) (vd s)))).
Hypothesis Ho : vd_only s s1.

Lemma finish_perm : rs1 ++ r :: rs2 ≡ₚ r :: (rs1 ++ rs2).
Proof. solve_Permutation. Qed.

Lemma finish_ne r' i j :
  r' ∈ rs1 ++ rs2 -> i ∈ descs r' -> j ∈ descs r -> Z.to_nat i <> Z.to_nat j.
Proof.
  intros Hr Hin Hj E. assert (Hall : r' ∈ rs1 ++ r :: rs2) by (clear -Hr; set_solver).
  assert (Hrr : r ∈ rs1 ++ r :: rs2) by (clear; set_solver).
  destruct (not_free _ _ _ _ _ _ _ Hi Hall Hin) as [_ ?]. destruct (not_free _ _ _ _ _ _ _ Hi Hrr Hj) as [_ ?].
  pose proof (ri_nodup _ _ _ _ _ Hi) as Hnd. cbn in Hnd. rewrite (all_descs_perm _ _ finish_perm) in Hnd.
  apply NoDup_app in Hnd as (_ & Hnd & _). apply (Hnd j Hj). apply elem_all_descs. exists r'. split; [done|].
  by replace j with i by lia.
Qed.

Lemma finish_other r' st dk sv z : r' ∈ rs1 ++ rs2 -> req_in s r' st dk sv z -> req_in s1 r' st dk sv z.
Proof.
  intros Hr Hz. destruct Ho as (Hb & Hd & _).
  assert (Hq : forall i j, i ∈ descs r' -> j ∈ descs r -> Z.to_nat i <> Z.to_nat j) by (intros; by eapply finish_ne).
  assert (M0 : q0 r ∈ descs r) by left. assert (M1 : q1 r ∈ descs r) by (right; left).
  assert (M2 : q2 r ∈ descs r) by (do 2 right; left). assert (Mq : q0 r' ∈ descs r') by left.
  eapply req_in_frame; [exact Hz|..]; rewrite ?Hb, ?Hd; try done; rewrite Hvd.
  - intros i Hin. rewrite !freed_desc by (by apply Hq). done.
  - done.
  - unfold freed, forget. rs. apply list_lookup_alter_ne. apply not_eq_sym. by apply Hq.
Qed.

Lemma finish_free i :
  0 <= i < 8 -> v_free (vd s1) !! Z.to_nat i = Some (bool_decide (i ∉ all_descs (rs1 ++ rs2))).
Proof.
  intros Hr. pose proof (ri_free _ _ _ _ _ Hi i Hr) as Hf. pose proof (ri_free_len _ _ _ _ _ Hi) as Hl. cbn in Hf, Hl.
  pose proof (ri_nodup _ _ _ _ _ Hi) as Hnd. cbn in Hnd. rewrite (all_descs_perm _ _ finish_perm) in Hnd.
  apply NoDup_app in Hnd as (_ & Hnd & _).
  assert (Hrg : forall j, j ∈ descs r -> 0 <= j < 8).
  { intros j Hj. apply (not_free _ _ _ _ _ r j Hi); [cbn; clear; set_solver|done]. }
  rewrite Hvd. destruct (decide (i ∈ descs r)) as [Hin|Hout].
  - rewrite bool_decide_eq_true_2 by (by apply Hnd).
    assert (Hlk : forall l j, length l = 8%nat -> j = Z.to_nat i -> <[j := true]> l !! Z.to_nat i = Some true).
    { intros l j Hl' ->. apply list_lookup_insert_eq. lia. }
    unfold freed, forget. rs. unfold descs in Hin. rewrite !elem_of_cons in Hin.
    destruct (decide (i = q2 r)) as [->|N2]; [apply Hlk; [by rewrite !length_insert|done]|].
    rewrite list_lookup_insert_ne by (pose proof (Hrg (q2 r) ltac:(do 2 right; left)); lia).
    destruct (decide (i = q1 r)) as [->|N1]; [apply Hlk; [by rewrite !length_insert|done]|].
    rewrite list_lookup_insert_ne by (pose proof (Hrg (q1 r) ltac:(right; left)); lia).
    destruct Hin as [->|[?|[?|?%not_elem_of_nil]]]; [by apply Hlk|done..].
  - assert (Hne : forall j, j ∈ descs r -> Z.to_nat i <> Z.to_nat j).
    { intros j Hj E. pose proof (Hrg j Hj). apply Hout. by replace i with j by lia. }
    rewrite !freed_free by (apply Hne; unfold descs; rewrite !elem_of_cons; tauto).
    change (v_free (forget (q0 r) (vd s))) with (v_free (vd s)). rewrite Hf. f_equal. apply bool_decide_ext.
    rewrite (all_descs_perm _ _ finish_perm). change (all_descs (r :: rs1 ++ rs2)) with (descs r ++ all_descs (rs1 ++ rs2)).
    rewrite not_elem_of_app. tauto.
Qed.

Lemma inv_finish : ring_inv (Sys s1 tk bz (rs1 ++ rs2)) A D U (W1 ++ W2).
Proof.
  pose proof Hi as [Ipl Ld Lf Lo Hrq Hbz Hnd0 Hrg0 Lfr Hfr Hnb Hbk Hwt Hdn Hak Lav Htk Hai Hav Lus Hui Hud Hus].
  cbn [ks taken busy reqs] in *.
  assert (Hp : rs1 ++ rs2 ≡ₚ A ++ D ++ U ++ W1 ++ W2).
  { apply (Permutation_cons_inv (a := r)). rewrite <- finish_perm, Hrq. solve_Permutation. }
  assert (Hold : forall q st dk sv, q ∈ A ++ D ++ U ++ W1 ++ W2 -> (exists z, req_in s q st dk sv z) -> exists z, req_in s1 q st dk sv z).
  { intros q st dk sv Hq [z Hz]. exists z. apply finish_other; [by rewrite Hp|done]. }
  assert (Hsub : forall q, q ∈ rs1 ++ rs2 -> q ∈ rs1 ++ r :: rs2) by (intros q Hq; clear -Hq; set_solver).
  pose proof Hnd0 as Hnd1. rewrite (all_descs_perm _ _ finish_perm) in Hnd1. apply NoDup_app in Hnd1 as (_ & _ & Hnd1).
  split; cbn [ks taken busy reqs]; try (rewrite Hvd; unfold freed, forget; rs; rewrite ?length_insert, ?length_alter; done); try done.
  - by apply (vd_only_plock s).
  - intros i (q & Hq & Hin)%elem_all_descs. apply Hrg0. apply elem_all_descs. exists q. split; [by apply Hsub|done].
  - apply finish_free.
  - rewrite finish_perm in Hnb. by apply NoDup_cons in Hnb as [_ Hnb].
  - destruct Ho as (-> & _). intros q q' z z' Hq Hq'. apply Hbk; by apply Hsub.
  - intros q Hq. apply Hold; [|by apply Hwt]. clear -Hq. set_solver.
  - intros q Hq. destruct (Hdn q Hq) as (st & Hz). exists st. apply Hold; [|done]. clear -Hq. set_solver.
  - intros q Hq. apply Hold; [|apply Hak]; clear -Hq; set_solver.
Qed.

End finish.

(** ** What follows from the invariant *)

Lemma inv_booted s : booted_disk s -> ring_inv (Sys s 0 [] []) [] [] [] [].
Proof.
  intros (Hpl & Hf & Hd & Ha & Hu & Hif & Ho & E1 & E2 & E3).
  split; cbn [ks taken busy reqs]; rewrite ?E1, ?E2, ?E3, ?Hf; try done; try lia; try (by intros ? ?%not_elem_of_nil).
  - apply NoDup_nil. done.
  - intros i Hi. by rewrite lookup_replicate_2 by lia.
  - apply NoDup_nil. done.
  - by intros ? ? ? ? ?%not_elem_of_nil.
Qed.

(** A waiting request with [b->disk] clear has been acknowledged. *)
Lemma acked x A D U W r y :
  ring_inv x A D U W -> r ∈ reqs x -> bufs (ks x) !! q_buf r = Some y -> b_disk y = false ->
  r ∈ W /\ req_in (ks x) r 0 false true y.
Proof.
  intros Hi Hr Hy Hd. rewrite (ri_reqs _ _ _ _ _ Hi) in Hr.
  assert (Hno : forall st sv z, req_in (ks x) r st true sv z -> False).
  { intros st sv z [Hz _ Hf _ _ _ _ _ _ _]. congruence. }
  assert (r ∈ A ++ D \/ r ∈ U \/ r ∈ W) as [H|[H|H]] by (clear -Hr; set_solver).
  - destruct (ri_wait _ _ _ _ _ Hi r H) as [z Hz]. by apply Hno in Hz.
  - destruct (ri_done _ _ _ _ _ Hi r H) as (st & z & Hz). by apply Hno in Hz.
  - destruct (ri_ack _ _ _ _ _ Hi r H) as [z Hz]. split; [done|]. pose proof (rq_buf_at _ _ _ _ _ _ Hz).
    assert (z = y) as -> by congruence. done.
Qed.

Lemma acked_finish x A D U W r y :
  ring_inv x A D U W -> r ∈ reqs x -> bufs (ks x) !! q_buf r = Some y -> b_disk y = false ->
  exists s', finish_request (q0 r) (ks x) = Ok tt s' /\ vd_only (ks x) s' /\ procs s' = wake_free (procs (ks x)) /\
    vd s' = freed (q2 r) (freed (q1 r) (freed (q0 r) (forget (q0 r) (vd (ks x))))).
Proof.
  intros Hi Hr Hy Hd. destruct (acked _ _ _ _ _ _ _ Hi Hr Hy Hd) as [Hw Hq].
  eapply finish_ok; [done|..|apply (ri_plock _ _ _ _ _ Hi)].
  - pose proof (ri_nodup _ _ _ _ _ Hi) as Hnd. apply list_elem_of_split in Hr as (l1 & l2 & E). rewrite E in Hnd.
    rewrite all_descs_app in Hnd. apply NoDup_app in Hnd as (_ & _ & Hnd). by apply NoDup_app in Hnd as (Hnd & _).
  - intros i Hin. by apply (not_free _ _ _ _ _ r i Hi Hr).
  - intros i Hin. by apply (not_free _ _ _ _ _ r i Hi Hr).
Qed.

Lemma intr_fuel x A D U W :
  ring_inv x A D U W -> Z.to_nat (u16 (v_used_dev (vd (ks x)) - v_used_idx (vd (ks x)))) = length U.
Proof.
  intros Hi. pose proof (two_requests _ _ _ _ _ Hi) as Hcap. pose proof (ri_reqs _ _ _ _ _ Hi) as Hrq.
  apply Permutation_length in Hrq. rewrite !length_app in Hrq. rewrite (ri_used_dev _ _ _ _ _ Hi).
  unfold Z.sub. rewrite u16_add. replace (v_used_idx (vd (ks x)) + Z.of_nat (length U) + - v_used_idx (vd (ks x)))
    with (Z.of_nat (length U)) by lia. unfold wrap. rewrite Z.mod_small by lia. lia.
Qed.

(** Descriptors run out only with two requests under way. *)
Lemma alloc3_room x A D U W s' :
  ring_inv x A D U W -> alloc3_desc (ks x) = Ok None s' -> length (reqs x) = 2%nat.
Proof.
  intros Hi Ha. pose proof (two_requests _ _ _ _ _ Hi) as Hcap.
  destruct (alloc3_ok (ks x) (ri_free_len _ _ _ _ _ Hi) (ri_plock _ _ _ _ _ Hi))
    as [(j0 & j1 & j2 & _ & _ & _ & Ha')|(s1 & _ & _ & _ & _ & i & j & Hij)]; [congruence|].
  assert (Hs : seqZ 0 8 ⊆+ all_descs (reqs x) ++ [i; j]).
  { apply NoDup_submseteq; [apply NoDup_seqZ|]. intros k Hk. apply elem_of_seqZ in Hk. rewrite elem_of_app, !elem_of_cons.
    pose proof (ri_free _ _ _ _ _ Hi k ltac:(lia)) as Hf. destruct (decide (k ∈ all_descs (reqs x))) as [|Hout]; [by left|].
    rewrite bool_decide_eq_true_2 in Hf by done. apply Hij in Hf; [tauto|lia]. }
  apply submseteq_length in Hs. rewrite length_app, length_all_descs, length_seqZ in Hs. cbn in Hs. lia.
Qed.
