(* ===== verification/Diskio.v ===== *)
(** kernel/virtio_disk.c: processes in [virtio_disk_rw], the interrupt handler and the device together.

    [virtio_disk_rw] gives up the CPU in two places: when there are no three descriptors, and until the device has
    done the transfer.  What it does between them is a step of the system: [attempt], from
    the lock to the first [sleep], and [finish_request] at the end.  [tries] and [waits] say that the code
    is the sequence of these steps, whatever the others do while it sleeps. *)

From stdpp Require Import prelude gmap strings.
From Stdlib Require Import ZArith Lia.
From S2P Require Import Prelude Bytes Params State Spinlock Uart Sched Sleeplock Disk Bio Cache Virtio Ring.

Local Open Scope Z_scope.
Local Open Scope kernel_scope.

#[export] Instance request_eq_dec : EqDecision request.
Proof. solve_decision. Defined.

(** ** The steps of a process *)

(** The process [p] sleeps on [d], and the scheduler has released its lock. *)
Definition asleep (p : nat) (d : chan) (s : kstate) : kstate := (sleeps_on p d s) <| held := [] |>.

(** The process [p] runs again, in [acquire(&disk.vdisk_lock)]. *)
Definition back (p : nat) (s : kstate) : kstate :=
  on_cpu p [L_vdisk] (s <| procs := alter (fun q => q <| p_state := RUNNING |>) p (procs s) |>).

(** Under the lock: three descriptors, the request and the first [sleep] on the buffer, or a [sleep] for want of
    descriptors.  [None] is a panic. *)
Definition attempt (p b : nat) (write : bool) (sector : Z) (s : kstate) : option (option request * kstate) :=
  match bufs s !! b, alloc3_desc s with
  | Some x, Ok (Some [i0; i1; i2]) s1 =>
      match start_request b write sector i0 i1 i2 s1 with
      | Ok _ s2 => Some (Some (Rq p i0 i1 i2 b write (b_data x)), asleep p (Ch_buf b) s2)
      | _ => None
      end
  | Some _, Ok None s1 => Some (None, asleep p Ch_vdisk_free s1)
  | _, _ => None
  end.

(** ** The code is made of these steps *)

(** What the code needs of the state it wakes up in. *)
Definition driver_ok (b : nat) (s : kstate) : Prop :=
  length (v_free (vd s)) = 8%nat /\ length (procs s) = NPROC /\ is_Some (bufs s !! b).

(** The outcome [o] of the second loop and what follows it, with [n] more sleeps, from [s]. *)
Fixpoint waits (r : request) (n : nat) (s : kstate) (o : outcome kstate unit) : Prop :=
  match bufs s !! q_buf r with
  | None => False
  | Some x =>
      if b_disk x then
        match n with
        | O => o = NoFuel
        | S n' =>
            exists k, o = Switch (sleeps_on (q_proc r) (Ch_buf (q_buf r)) s) k /\
              forall s', resumed (q_proc r) s' -> driver_ok (q_buf r) s' -> waits r n' (s' <| held := [L_vdisk] |>) (k s')
        end
      else o = (finish_request (q0 r) ;; release L_vdisk) s
  end.

(** The outcome [o] of the first loop and what follows it: [m] is the number of sleeps of the second. *)
Fixpoint tries (p b : nat) (write : bool) (sector : Z) (m n : nat) (s : kstate) (o : outcome kstate unit) : Prop :=
  match attempt p b write sector s with
  | None => False
  | Some (Some r, s1) =>
      match m with
      | O => o = NoFuel
      | S m' =>
          exists k, o = Switch (s1 <| held := [L_proc p] |>) k /\
            forall s', resumed p s' -> driver_ok b s' -> waits r m' (s' <| held := [L_vdisk] |>) (k s')
      end
  | Some (None, s1) =>
      match n with
      | O => o = NoFuel
      | S n' =>
          exists k, o = Switch (s1 <| held := [L_proc p] |>) k /\
            forall s', resumed p s' -> driver_ok b s' ->
              tries p b write sector m n' (s' <| held := [L_vdisk] |>) (k s')
      end
  end.

Lemma asleep_held p d s : (asleep p d s) <| held := [L_proc p] |> = sleeps_on p d s.
Proof. unfold asleep, sleeps_on. st_eq s. Qed.

Lemma vdisk_plock s : length (procs s) = NPROC -> held s = [L_vdisk] -> no_plock s.
Proof. intros Hl Hh. split; [done|]. rewrite Hh. intros i H%list_elem_of_singleton. done. Qed.

Lemma wait_loop_ok (r : request) n : forall s,
  held s = [L_vdisk] -> cpu_proc s = Some (q_proc r) -> is_Some (procs s !! q_proc r) -> is_Some (bufs s !! q_buf r) ->
  waits r n s
    ((while_sleep n (x <- getbuf (q_buf r) ;; ret (b_disk x))
        (sleep_prepare (Some (Ch_buf (q_buf r))) ;; release L_vdisk ;; sleep ;; acquire L_vdisk) ;;
      finish_request (q0 r) ;; release L_vdisk) s).
Proof.
  assert (Htest : forall s x, bufs s !! q_buf r = Some x -> (x <- getbuf (q_buf r) ;; ret (b_disk x)) s = Ok (b_disk x) s).
  { intros s x Hx. by rewrite (bind_ok _ _ _ _ _ (getbuf_ok _ _ _ Hx)). }
  induction n as [|n IH]; intros s Hh Hc Hp [x Hx]; cbn [waits]; rewrite Hx; destruct (b_disk x) eqn:E.
  2, 4: by erewrite (bind_ok (while_sleep _ _ _)) by (apply while_sleep_done; by rewrite (Htest s x Hx), E).
  - unfold bind at 1. cbn [while_sleep]. by rewrite (bind_ok _ _ _ _ _ (Htest s x Hx)), E.
  - unfold bind at 1. cbn [while_sleep]. rewrite (bind_ok _ _ _ _ _ (Htest s x Hx)), E. unfold bind at 1.
    destruct (prepare_switch (q_proc r) (Ch_buf (q_buf r)) L_vdisk (acquire L_vdisk) s) as (k & -> & Hk); [done..|].
    cbn [obind]. eexists. split; [done|]. intros s' Hs' (_ & _ & Hb'). cbv beta.
    rewrite (Hk s' Hs'), acquire_ok by (rs; apply not_elem_of_nil). cbn [obind]. destruct Hs' as [H1 H2 H3]. rs.
    replace (s' <| held := [] |> <| held := [L_vdisk] |>) with (s' <| held := [L_vdisk] |>) by st_eq s'.
    apply IH; by rs.
Qed.

(** The part of [virtio_disk_rw] under the lock, with [n] and [m] sleeps in the loops. *)
Definition rw_body (b : nat) (write : bool) (sector : Z) (n m : nat) : K unit :=
  idx <- alloc3_wait n ;;
  let i0 := idx !!! 0%nat in
  let i1 := idx !!! 1%nat in
  let i2 := idx !!! 2%nat in
  start_request b write sector i0 i1 i2 ;;
  while_sleep m (x <- getbuf b ;; ret (b_disk x))
    (sleep_prepare (Some (Ch_buf b)) ;; release L_vdisk ;; sleep ;; acquire L_vdisk) ;;
  finish_request i0 ;;
  release L_vdisk.

Lemma started_ok p b w sector m i0 i1 i2 s x :
  held s = [L_vdisk] -> cpu_proc s = Some p -> is_Some (procs s !! p) -> bufs s !! b = Some x ->
  exists s2, start_request b w sector i0 i1 i2 s = Ok tt s2 /\
    waits (Rq p i0 i1 i2 b w (b_data x)) m s2
      ((start_request b w sector i0 i1 i2 ;;
        while_sleep m (x <- getbuf b ;; ret (b_disk x))
          (sleep_prepare (Some (Ch_buf b)) ;; release L_vdisk ;; sleep ;; acquire L_vdisk) ;;
        finish_request i0 ;; release L_vdisk) s) /\
    exists y, bufs s2 !! b = Some y /\ b_disk y = true.
Proof.
  intros Hh Hc Hp Hx. destruct (start_ok b x w sector i0 i1 i2 s Hx) as (s2 & E & _ & Hb & _ & _ & Hh2 & Hp2 & Hc2).
  assert (Hb2 : bufs s2 !! b = Some (x <| b_disk := true |>)).
  { rewrite Hb. apply list_lookup_insert_eq. by eapply lookup_lt_Some. }
  exists s2. split; [done|]. split; [|by eexists]. rewrite (bind_ok _ _ _ _ _ E).
  apply (wait_loop_ok (Rq p i0 i1 i2 b w (b_data x))); cbn [q_proc q_buf]; rewrite ?Hp2; first [done | congruence | by eexists].
Qed.

Lemma rw_body_tries p b w sector m n : forall s,
  held s = [L_vdisk] -> cpu_proc s = Some p -> is_Some (procs s !! p) -> driver_ok b s ->
  tries p b w sector m n s (rw_body b w sector n m s).
Proof.
  induction n as [|n IH]; intros s Hh Hc Hp (Hf & Hl & [x Hx]); unfold rw_body; cbn [tries alloc3_wait]; unfold attempt; rewrite Hx;
    (destruct (alloc3_ok s Hf (vdisk_plock s Hl Hh)) as [(i0 & i1 & i2 & _ & _ & _ & E)|(s1 & E & Ho & _ & _ & _)]; rewrite E).
  1, 3: match type of E with _ = Ok _ ?t =>
          destruct (started_ok p b w sector m i0 i1 i2 t x) as (s2 & E2 & Hw & y & Hy & Hd); [done..|] end;
        rewrite E2; rewrite (bind_ok _ (fun idx => _) s [i0; i1; i2] _) by (by rewrite (bind_ok _ _ _ _ _ E));
        cbn [lookup_total list_lookup_total]; revert Hw; (destruct m as [|m]); cbn [waits q_buf q_proc]; rewrite Hy, Hd; [done|];
        rewrite asleep_held; done.
  - unfold bind at 1. by rewrite (bind_ok _ _ _ _ _ E).
  - unfold bind at 1. rewrite (bind_ok _ _ _ _ _ E).
    pose proof Ho as (_ & _ & _ & Hh1 & Hl1 & Hc1).
    destruct (prepare_switch p Ch_vdisk_free L_vdisk (acquire L_vdisk ;; alloc3_wait n) s1) as (k & -> & Hk); [congruence..|done| |].
    { apply lookup_lt_is_Some. rewrite Hl1. by apply lookup_lt_is_Some. }
    cbn [obind]. eexists. split; [by rewrite asleep_held|]. intros s' Hs' Hd'. cbv beta.
    rewrite (Hk s' Hs'). erewrite (bind_ok (acquire _)) by (apply acquire_ok; rs; apply not_elem_of_nil).
    destruct Hs' as [H1 H2 H3]. rs.
    replace (s' <| held := [] |> <| held := [L_vdisk] |>) with (s' <| held := [L_vdisk] |>) by st_eq s'.
    apply IH; by rs.
Qed.

Lemma virtio_disk_rw_tries {F : Fuel} p b w x s :
  held s = [] -> cpu_proc s = Some p -> is_Some (procs s !! p) -> driver_ok b s -> bufs s !! b = Some x ->
  tries p b w (u32 (b_blockno x * (BSIZE / 512))) sleep_fuel sleep_fuel (s <| held := [L_vdisk] |>)
    (virtio_disk_rw b w s).
Proof.
  intros Hh Hc Hp Hd Hx. unfold virtio_disk_rw. rewrite (bind_ok _ _ _ _ _ (getbuf_ok _ _ _ Hx)).
  erewrite (bind_ok (acquire _)) by (apply acquire_ok; rewrite Hh; apply not_elem_of_nil). rewrite Hh.
  by apply rw_body_tries.
Qed.

(** ** The system *)

(** A process that waits for descriptors. *)
Record waiter := Wt { w_proc : nat; w_buf : nat; w_write : bool; w_sector : Z }.

Record dsys := DSys { sys : vsys; waiters : list waiter }.

Definition users (x : dsys) : list nat := map q_proc (reqs (sys x)) ++ map w_proc (waiters x).
Definition in_use (x : dsys) : list nat := map q_buf (reqs (sys x)) ++ map w_buf (waiters x).

(** Who makes a step. *)
Inductive label := By (p : nat) | Intr | Dev | Other.

#[export] Instance label_eq_dec : EqDecision label.
Proof. solve_decision. Defined.

(** The system after an attempt of the process [p]. *)
Definition tried (p b : nat) (w : bool) (sector : Z) (o : option request * kstate) (tk : Z) (bz : list Z)
    (rs : list request) (ws : list waiter) : dsys :=
  match o with
  | (Some r, s') => DSys (Sys s' tk bz (r :: rs)) ws
  | (None, s') => DSys (Sys s' tk bz rs) (Wt p b w sector :: ws)
  end.

Definition runnable (p : nat) (s : kstate) : Prop := p_state <$> procs s !! p = Some RUNNABLE.

(** The process [p] may call [virtio_disk_rw] with the buffer [b]: it has the buffer [z] to itself, no other buffer in use is of the same
    block, and the disk has the block. *)
Record may_call (x : dsys) (p b : nat) (z : buf) : Prop := {
  mc_user : p ∉ users x;
  mc_proc : is_Some (procs (ks (sys x)) !! p);
  mc_free : b ∉ in_use x;
  mc_buf : bufs (ks (sys x)) !! b = Some z;
  mc_block : forall b' z', b' ∈ in_use x -> bufs (ks (sys x)) !! b' = Some z' -> b_blockno z' <> b_blockno z;
  mc_range : 0 <= b_blockno z < 2 ^ 31;
  mc_disk : is_Some (disk (ks (sys x)) !! b_blockno z);
}.

Section dstep.
Context (dev : vsys -> vsys -> Prop).

Inductive dstep : label -> dsys -> dsys -> Prop :=
(* a process calls [virtio_disk_rw] *)
| d_call p b w z s tk bz rs ws o :
    may_call (DSys (Sys s tk bz rs) ws) p b z ->
    attempt p b w (u32 (b_blockno z * (BSIZE / 512))) (on_cpu p [L_vdisk] s) = Some o ->
    dstep (By p) (DSys (Sys s tk bz rs) ws) (tried p b w (u32 (b_blockno z * (BSIZE / 512))) o tk bz rs ws)
(* it runs again, and tries again to have its descriptors *)
| d_retry p b w sector s tk bz rs ws1 ws2 o :
    runnable p s -> attempt p b w sector (back p s) = Some o ->
    dstep (By p) (DSys (Sys s tk bz rs) (ws1 ++ Wt p b w sector :: ws2)) (tried p b w sector o tk bz rs (ws1 ++ ws2))
(* it runs again, and the transfer is not done *)
| d_again r z s tk bz rs ws :
    r ∈ rs -> runnable (q_proc r) s -> bufs s !! q_buf r = Some z -> b_disk z = true ->
    dstep (By (q_proc r)) (DSys (Sys s tk bz rs) ws)
      (DSys (Sys (asleep (q_proc r) (Ch_buf (q_buf r)) (back (q_proc r) s)) tk bz rs) ws)
(* it runs again, the transfer is done, and it returns *)
| d_return r z s tk bz rs1 rs2 ws s' :
    runnable (q_proc r) s -> bufs s !! q_buf r = Some z -> b_disk z = false ->
    (finish_request (q0 r) ;; release L_vdisk) (back (q_proc r) s) = Ok tt s' ->
    dstep (By (q_proc r)) (DSys (Sys s tk bz (rs1 ++ r :: rs2)) ws) (DSys (Sys s' tk bz (rs1 ++ rs2)) ws)
(* a disk interrupt *)
| d_intr s tk bz rs ws s' :
    virtio_disk_intr (s <| held := [] |>) = Ok tt s' ->
    dstep Intr (DSys (Sys s tk bz rs) ws) (DSys (Sys s' tk bz rs) ws)
| d_dev x y ws : dev x y -> dstep Dev (DSys x ws) (DSys y ws)
(* the rest of the kernel, which leaves the driver's state and the processes and buffers in it alone, but may wake a process *)
| d_other s s' tk bz rs ws :
    vd s' = vd s -> disk s' = disk s -> no_plock s' ->
    (forall b, b ∈ in_use (DSys (Sys s tk bz rs) ws) -> bufs s' !! b = bufs s !! b) ->
    (forall p q, p ∈ users (DSys (Sys s tk bz rs) ws) -> procs s !! p = Some q ->
       exists q', procs s' !! p = Some q' /\ keeps q q') ->
    dstep Other (DSys (Sys s tk bz rs) ws) (DSys (Sys s' tk bz rs) ws).

Inductive dreach : dsys -> Prop :=
| d_init s : booted_disk s -> dreach (DSys (Sys s 0 [] []) [])
| d_step l x y : dreach x -> dstep l x y -> dreach y.

End dstep.

(** ** The invariant *)

(** The process [p] is to run, or sleeps on [d] for a reason. *)
Definition sleeper (s : kstate) (p : nat) (d : chan) (why : Prop) : Prop :=
  exists q, procs s !! p = Some q /\
    (p_state q = RUNNABLE \/ (p_state q = SLEEPING /\ p_chan q = Some d /\ why)).

(** The buffers [l] are of different blocks of the disk, and the waiters [ws] have the sectors of theirs. *)
Record blocks_ok (s : kstate) (l : list nat) (ws : list waiter) : Prop := {
  bo_at : forall b, b ∈ l -> exists z, bufs s !! b = Some z /\ 0 <= b_blockno z < 2 ^ 31 /\ is_Some (disk s !! b_blockno z);
  bo_apart : forall b b' z z', b ∈ l -> b' ∈ l -> bufs s !! b = Some z -> bufs s !! b' = Some z' ->
    b_blockno z = b_blockno z' -> b = b';
  bo_sector : forall w z, w ∈ ws -> bufs s !! w_buf w = Some z -> w_sector w = u32 (b_blockno z * (BSIZE / 512));
}.

Record dinv (x : dsys) (A D U W : list request) : Prop := {
  di_ring : ring_inv (sys x) A D U W;
  di_owner : forall r, r ∈ reqs (sys x) -> sleeper (ks (sys x)) (q_proc r) (Ch_buf (q_buf r)) (r ∉ W);
  di_wait : forall w, w ∈ waiters x ->
    sleeper (ks (sys x)) (w_proc w) Ch_vdisk_free (length (reqs (sys x)) = 2%nat);
  di_users : NoDup (users x);
  di_in_use : NoDup (in_use x);
  di_blocks : blocks_ok (ks (sys x)) (in_use x) (waiters x);
}.

(** How a step moves the requests. *)
Inductive moves : label -> forall A D U W A' D' U' W' : list request, Prop :=
| m_same l A D U W : l <> Intr -> moves l A D U W A D U W
| m_start r A D U W : moves (By (q_proc r)) A D U W (A ++ [r]) D U W
| m_take r A D U W : moves Dev (r :: A) D U W A (D ++ [r]) U W
| m_complete A D1 r D2 U W : moves Dev A (D1 ++ r :: D2) U W A (D1 ++ D2) (U ++ [r]) W
| m_intr A D U W : moves Intr A D U W A D [] (rev U ++ W)
| m_finish A D U W1 r W2 : moves (By (q_proc r)) A D U (W1 ++ r :: W2) A D U (W1 ++ W2).

(** The buffers [l] keep their blocks, and blocks stay on the disk. *)
Definition same_blocks (l : list nat) (s s' : kstate) : Prop :=
  (forall b, b ∈ l -> b_blockno <$> bufs s' !! b = b_blockno <$> bufs s !! b) /\
  (forall k, is_Some (disk s !! k) -> is_Some (disk s' !! k)).

Lemma same_blocks_trans l s1 s2 s3 : same_blocks l s1 s2 -> same_blocks l s2 s3 -> same_blocks l s1 s3.
Proof. intros [H1 K1] [H2 K2]. split; [|auto]. intros b Hb. by rewrite H2, H1. Qed.

Lemma same_blocks_eq l s s' : bufs s' = bufs s -> disk s' = disk s -> same_blocks l s s'.
Proof. intros Hb Hd. split; [intros; by rewrite Hb|intros; by rewrite Hd]. Qed.

Lemma blocks_ok_frame s s' l ws :
  same_blocks l s s' -> (forall w, w ∈ ws -> w_buf w ∈ l) -> blocks_ok s l ws -> blocks_ok s' l ws.
Proof.
  intros [Hb Hd] Hin [H1 H2 H3].
  assert (Hback : forall b z', b ∈ l -> bufs s' !! b = Some z' -> exists z, bufs s !! b = Some z /\ b_blockno z = b_blockno z').
  { intros b z' Hl Hz'. pose proof (Hb b Hl) as E. rewrite Hz' in E. cbn in E. symmetry in E.
    apply fmap_Some in E as (z & Hz & E). by exists z. }
  split.
  - intros b Hl. destruct (H1 b Hl) as (z & Hz & Hr & Hk). pose proof (Hb b Hl) as E. rewrite Hz in E.
    apply fmap_Some in E as (z' & Hz' & E). exists z'. split; [done|]. rewrite <- E. auto.
  - intros b b' z z' Hl Hl' Hz Hz' E. destruct (Hback _ _ Hl Hz) as (y & Hy & Ey). destruct (Hback _ _ Hl' Hz') as (y' & Hy' & Ey').
    apply (H2 b b' y y'); congruence.
  - intros w z Hw Hz. destruct (Hback _ _ (Hin w Hw) Hz) as (y & Hy & Ey). rewrite <- Ey. by apply H3.
Qed.

Lemma blocks_ok_sub s l l' ws ws' :
  (forall b, b ∈ l' -> b ∈ l) -> (forall w, w ∈ ws' -> w ∈ ws) -> blocks_ok s l ws -> blocks_ok s l' ws'.
Proof. intros Hl Hw [H1 H2 H3]. split; eauto. Qed.

Lemma blocks_ok_cons s l ws b z :
  blocks_ok s l ws -> bufs s !! b = Some z -> 0 <= b_blockno z < 2 ^ 31 -> is_Some (disk s !! b_blockno z) ->
  (forall b' z', b' ∈ l -> bufs s !! b' = Some z' -> b_blockno z' <> b_blockno z) -> blocks_ok s (b :: l) ws.
Proof.
  intros [H1 H2 H3] Hz Hr Hd Hne. split; [| |done].
  - intros b' [->|Hl]%elem_of_cons; eauto.
  - intros b1 b2 z1 z2 [->|L1]%elem_of_cons [->|L2]%elem_of_cons E1 E2 E; [done|..|by eapply H2].
    + destruct (Hne b2 z2 L2 E2). congruence.
    + destruct (Hne b1 z1 L1 E1). congruence.
Qed.

Lemma waiter_in_use x w : w ∈ waiters x -> w_buf w ∈ in_use x.
Proof. intros H. apply elem_of_app. right. by apply list_elem_of_fmap_2. Qed.

(** Processes other than [p] are only woken. *)
Definition others (p : nat) (s s' : kstate) : Prop :=
  forall p' q, p' <> p -> procs s !! p' = Some q -> exists q', procs s' !! p' = Some q' /\ keeps q q'.

Definition sleeping (p : nat) (d : chan) (s : kstate) : Prop :=
  exists q, procs s !! p = Some q /\ p_state q = SLEEPING /\ p_chan q = Some d.

Lemma sleeper_keeps s s' p d why why' :
  (forall q, procs s !! p = Some q -> exists q', procs s' !! p = Some q' /\ keeps q q' /\ (why -> p_state q' = SLEEPING -> why')) ->
  sleeper s p d why -> sleeper s' p d why'.
Proof.
  intros H (q & Hq & Hs). destruct (H q Hq) as (q' & Hq' & [K1 K2] & Hw). exists q'. split; [done|].
  destruct Hs as [Hr|(Hs & Hc & Hy)]; [left; auto|]. destruct (K2 Hs) as [?|[Hs' Hc']]; [by left|].
  right. split_and!; [done|congruence|auto].
Qed.

Lemma sleeping_sleeper s p d why : sleeping p d s -> why -> sleeper s p d why.
Proof. intros (q & Hq & Hs & Hc) Hy. exists q. split; [done|]. right. done. Qed.

Lemma others_trans p s1 s2 s3 : others p s1 s2 -> others p s2 s3 -> others p s1 s3.
Proof.
  intros H1 H2 p' q Hne Hq. destruct (H1 p' q Hne Hq) as (q1 & Hq1 & K1). destruct (H2 p' q1 Hne Hq1) as (q2 & Hq2 & K2).
  exists q2. split; [done|]. by eapply proc_keeps_trans.
Qed.

Lemma others_alter p f s s' : procs s' = alter f p (procs s) -> others p s s'.
Proof. intros E p' q Hne Hq. exists q. rewrite E, list_lookup_alter_ne by done. split; [done|apply proc_keeps_refl]. Qed.

Lemma others_back p s : others p s (back p s).
Proof. eapply others_alter. unfold back, on_cpu. by rs. Qed.

Lemma others_wake p s s' : procs s' = procs s \/ procs s' = wake_free (procs s) -> others p s s'.
Proof.
  intros E p' q _ Hq. destruct E as [E|E]; rewrite E; [exists q; split; [done|apply proc_keeps_refl]|].
  unfold wake_free. rewrite list_lookup_fmap, Hq. eexists. split; [done|]. apply wake1_keeps.
Qed.

(** Going to sleep. *)
Lemma asleep_ok p d s :
  is_Some (procs s !! p) ->
  sleeping p d (asleep p d s) /\ others p s (asleep p d s) /\ length (procs (asleep p d s)) = length (procs s) /\
  vd (asleep p d s) = vd s /\ bufs (asleep p d s) = bufs s /\ disk (asleep p d s) = disk s /\ held (asleep p d s) = [].
Proof.
  intros [q Hq]. unfold asleep, sleeps_on. rs. split_and!; try done; [| |by rewrite !length_alter].
  - eexists. rs. by rewrite !list_lookup_alter_eq, Hq.
  - intros p' q' Hne Hq'. exists q'. rs. rewrite !list_lookup_alter_ne by done. split; [done|apply proc_keeps_refl].
Qed.

Lemma inv_asleep p d s tk bz rs A D U W :
  is_Some (procs s !! p) -> ring_inv (Sys s tk bz rs) A D U W -> ring_inv (Sys (asleep p d s) tk bz rs) A D U W.
Proof.
  intros Hp Hi. destruct (asleep_ok p d s Hp) as (_ & _ & Hl & Hv & Hb & Hd & Hh).
  eapply inv_same; [done|rewrite Hv; apply same_rings_refl| |by intros; rewrite Hb|done].
  destruct (ri_plock _ _ _ _ _ Hi) as [P _]. cbn in P. split; [by rewrite Hl|]. rewrite Hh. intros i. apply not_elem_of_nil.
Qed.

Lemma inv_back p s tk bz rs A D U W : ring_inv (Sys s tk bz rs) A D U W -> ring_inv (Sys (back p s) tk bz rs) A D U W.
Proof.
  intros Hi. unfold back, on_cpu. eapply inv_same; [done|rs; apply same_rings_refl| |done|done].
  destruct (ri_plock _ _ _ _ _ Hi) as [P _]. cbn in P. apply vdisk_plock; rs; [by rewrite length_alter|done].
Qed.

Lemma inv_on_cpu p s tk bz rs A D U W :
  ring_inv (Sys s tk bz rs) A D U W -> ring_inv (Sys (on_cpu p [L_vdisk] s) tk bz rs) A D U W.
Proof.
  intros Hi. unfold on_cpu. eapply inv_same; [done|rs; apply same_rings_refl| |done|done].
  destruct (ri_plock _ _ _ _ _ Hi) as [P _]. by apply vdisk_plock.
Qed.

(** An attempt gives the request its descriptors, or finds two others with theirs. *)
Definition attempted (p b : nat) (tk : Z) (bz : list Z) (rs A D U W : list request) (o : option request * kstate) : Prop :=
  match o with
  | (Some r, s') =>
      q_proc r = p /\ q_buf r = b /\ ring_inv (Sys s' tk bz (r :: rs)) (A ++ [r]) D U W /\ sleeping p (Ch_buf b) s'
  | (None, s') => length rs = 2%nat /\ ring_inv (Sys s' tk bz rs) A D U W /\ sleeping p Ch_vdisk_free s'
  end.

Lemma attempt_ok p b w z s tk bz rs A D U W l :
  ring_inv (Sys s tk bz rs) A D U W -> is_Some (procs s !! p) -> bufs s !! b = Some z -> b ∉ map q_buf rs ->
  (forall r y, r ∈ rs -> bufs s !! q_buf r = Some y -> b_blockno y <> b_blockno z) ->
  0 <= b_blockno z < 2 ^ 31 -> is_Some (disk s !! b_blockno z) ->
  exists o, attempt p b w (u32 (b_blockno z * (BSIZE / 512))) s = Some o /\ attempted p b tk bz rs A D U W o /\
    others p s o.2 /\ same_blocks l s o.2.
Proof.
  intros Hi Hp Hz Hb Hblk Hno Hdk. unfold attempt. rewrite Hz.
  assert (Esec : u32 (b_blockno z * (BSIZE / 512)) = 2 * b_blockno z).
  { change (BSIZE / 512) with 2. unfold wrap. rewrite Z.mod_small; lia. }
  destruct (alloc3_ok s (ri_free_len _ _ _ _ _ Hi) (ri_plock _ _ _ _ _ Hi))
    as [(j0 & j1 & j2 & Hrg & Hnd & Hfr & Ha)|(s1 & Ha & Ho & Hs & Hpr & _)]; rewrite Ha.
  - match goal with |- context [start_request _ _ ?sec _ _ _ ?t] =>
      destruct (start_ok b z w sec j0 j1 j2 t Hz) as (s2 & -> & Hv & Hb2 & Hd2 & _ & Hh & Hpp & _) end. rs_in Hpp. rs_in Hh. rs_in Hb2. rs_in Hd2.
    rewrite Esec in Hv. assert (Hp2 : is_Some (procs s2 !! p)) by (by rewrite Hpp).
    destruct (asleep_ok p (Ch_buf b) s2 Hp2) as (Hsl & Hot & _ & _ & Hba & Hda & _). eexists. split; [done|]. cbn [attempted snd q_proc q_buf].
    split_and!; [done|done| |done| |].
    + apply inv_asleep; [done|]. eapply (inv_start s tk bz rs A D U W Hi p b z w j0 j1 j2 s2); try done.
      destruct (ri_plock _ _ _ _ _ Hi) as [P1 P2]. cbn in P1, P2. split; [by rewrite Hpp|by rewrite Hh].
    + eapply others_trans; [apply others_wake; left; exact Hpp|done].
    + split; [|intros; by rewrite Hda, Hd2]. intros b' _. rewrite Hba, Hb2. destruct (decide (b = b')) as [<-|Hne].
      * rewrite list_lookup_insert_eq by (by eapply lookup_lt_Some). by rewrite Hz.
      * by rewrite list_lookup_insert_ne.
  - pose proof Ho as (Hb1 & Hd1 & _ & _ & Hl1 & _).
    assert (Hp1 : is_Some (procs s1 !! p)) by (apply lookup_lt_is_Some; rewrite Hl1; by apply lookup_lt_is_Some).
    destruct (asleep_ok p Ch_vdisk_free s1 Hp1) as (Hsl & Hot & _ & _ & Hba & Hda & _).
    eexists. split; [done|]. cbn [attempted snd]. split_and!; [by apply (alloc3_room _ _ _ _ _ _ Hi Ha)| |done| |].
    + apply inv_asleep; [done|]. eapply inv_same; [done|done|by apply (vd_only_plock s); [|apply Hi]|by intros; rewrite Hb1|done].
    + eapply others_trans; [by apply others_wake|done].
    + by apply same_blocks_eq; [rewrite Hba|rewrite Hda].
Qed.

(** ** Every step keeps the invariant *)

Lemma user_of_req x r : r ∈ reqs (sys x) -> q_proc r ∈ users x.
Proof. intros H. apply elem_of_app. left. by apply list_elem_of_fmap_2. Qed.

Lemma user_of_waiter x w : w ∈ waiters x -> w_proc w ∈ users x.
Proof. intros H. apply elem_of_app. right. by apply list_elem_of_fmap_2. Qed.

Lemma others_sleeper p s s' p' d (why why' : Prop) :
  others p s s' -> p' <> p -> (why -> why') -> sleeper s p' d why -> sleeper s' p' d why'.
Proof. intros Ho Hne Hw. apply sleeper_keeps. intros q Hq. destruct (Ho p' q Hne Hq) as (q' & Hq' & K). exists q'. auto. Qed.

Section tried.
Context (p b : nat) (w : bool) (z : buf) (s t : kstate) (tk : Z) (bz : list Z) (rs : list request) (ws : list waiter).
Context (A D U W : list request).
Let x := DSys (Sys s tk bz rs) ws.
Hypothesis Hi : dinv x A D U W.
Hypothesis Hp : p ∉ users x.
Hypothesis Hb : b ∉ in_use x.
Hypothesis Hz : bufs s !! b = Some z.
Hypothesis Hblk : forall b' z', b' ∈ in_use x -> bufs s !! b' = Some z' -> b_blockno z' <> b_blockno z.
Hypothesis Hno : 0 <= b_blockno z < 2 ^ 31.
Hypothesis Hdk : is_Some (disk s !! b_blockno z).
Hypothesis Ht : ring_inv (Sys t tk bz rs) A D U W.
Hypothesis Hpt : is_Some (procs t !! p).
Hypothesis Hot : others p s t.
Hypothesis Hbt : bufs t = bufs s.
Hypothesis Hdt : disk t = disk s.

Let sector := u32 (b_blockno z * (BSIZE / 512)).

Lemma tried_blocks s' l ws' :
  same_blocks (b :: in_use x) t s' -> (forall b', b' ∈ l -> b' ∈ b :: in_use x) ->
  (forall w', w' ∈ ws' -> w' ∈ Wt p b w sector :: ws) -> blocks_ok s' l ws'.
Proof.
  intros Hsb Hl Hw. eapply (blocks_ok_sub s' (b :: in_use x) l (Wt p b w sector :: ws)); [done|done|].
  apply (blocks_ok_frame s).
  - eapply same_blocks_trans; [by apply (same_blocks_eq _ s t)|done].
  - intros w' [->|H]%elem_of_cons; [left|right; by apply (waiter_in_use x)].
  - pose proof (di_blocks _ _ _ _ _ Hi) as Hbo.
    destruct (blocks_ok_cons _ _ _ _ _ Hbo Hz Hno Hdk Hblk) as [B1 B2 B3]. split; [done|done|].
    intros w' z' [->|H]%elem_of_cons E; [|by apply B3]. cbn [w_buf w_sector] in *. unfold sector. rewrite Hz in E. by injection E as <-.
Qed.

Lemma tried_inv :
  exists o A', attempt p b w sector t = Some o /\ dinv (tried p b w sector o tk bz rs ws) A' D U W /\
    moves (By p) A D U W A' D U W.
Proof.
  assert (Hne : forall q, q ∈ users x -> q <> p) by (intros q Hq ->; done).
  destruct (attempt_ok p b w z t tk bz rs A D U W (b :: in_use x) Ht Hpt) as (o & Ha & Hat & Ho & Hsb); rewrite ?Hbt, ?Hdt; try done.
  { intros H. apply Hb. by apply elem_of_app; left. }
  { intros r y Hr Hy. apply (Hblk (q_buf r)); [|done]. apply elem_of_app. left. by apply list_elem_of_fmap_2. }
  exists o. pose proof (others_trans _ _ _ _ Hot Ho) as Hos. destruct Hi as [_ Hown Hwt Hus Hin _]. destruct o as [[r|] s']; cbn [snd tried] in *.
  - destruct Hat as (Hrp & Hrb & Hi' & Hsl). exists (A ++ [r]). split; [done|]. split; [|rewrite <- Hrp; constructor].
    pose proof (two_requests _ _ _ _ _ Hi') as Hcap. pose proof (reqs_nodup _ _ _ _ _ Hi') as Hnd. cbn in Hcap.
    split; cbn [sys waiters ks reqs]; [done|..].
    + intros r' [->|Hr']%elem_of_cons.
      * rewrite Hrp, Hrb. apply sleeping_sleeper; [done|]. intros Hw. clear -Hnd Hw. apply NoDup_app in Hnd as (_ & Hnd & _).
        apply (Hnd r); set_solver.
      * apply (others_sleeper p s _ _ _ (r' ∉ W)); [done|apply Hne; by apply user_of_req|done|by apply Hown].
    + intros w' Hw'. eapply (others_sleeper p s); [done|apply Hne; by apply user_of_waiter| |by apply Hwt]. cbn. lia.
    + unfold users. cbn. rewrite Hrp. by apply NoDup_cons.
    + unfold in_use. cbn. rewrite Hrb. by apply NoDup_cons.
    + apply tried_blocks; [done|unfold in_use; cbn; by rewrite Hrb|by right].
  - destruct Hat as (Hlen & Hi' & Hsl). exists A. split; [done|]. split; [|by constructor].
    split; cbn [sys waiters ks reqs]; [done|..].
    + intros r' Hr'. apply (others_sleeper p s _ _ _ (r' ∉ W)); [done|apply Hne; by apply user_of_req|done|by apply Hown].
    + intros w' [->|Hw']%elem_of_cons; [by apply sleeping_sleeper|].
      apply (others_sleeper p s _ _ _ (length rs = 2%nat)); [done|apply Hne; by apply user_of_waiter|done|by apply Hwt].
    + unfold users. cbn. rewrite <- Permutation_middle. by apply NoDup_cons.
    + unfold in_use. cbn. rewrite <- Permutation_middle. by apply NoDup_cons.
    + apply tried_blocks; [done| |done]. unfold in_use. cbn. intros b'. by rewrite <- Permutation_middle.
Qed.

End tried.

Lemma drop_waiter v ws1 w ws2 A D U W :
  dinv (DSys v (ws1 ++ w :: ws2)) A D U W ->
  dinv (DSys v (ws1 ++ ws2)) A D U W /\ w_proc w ∉ users (DSys v (ws1 ++ ws2)) /\ w_buf w ∉ in_use (DSys v (ws1 ++ ws2)) /\
  exists z, bufs (ks v) !! w_buf w = Some z /\ 0 <= b_blockno z < 2 ^ 31 /\ is_Some (disk (ks v) !! b_blockno z) /\
    w_sector w = u32 (b_blockno z * (BSIZE / 512)) /\
    (forall b' z', b' ∈ in_use (DSys v (ws1 ++ ws2)) -> bufs (ks v) !! b' = Some z' -> b_blockno z' <> b_blockno z).
Proof.
  intros [Hi Hown Hwt Hus Hin Hbo]. cbn [sys waiters] in *.
  assert (Hw : w ∈ ws1 ++ w :: ws2) by (clear; set_solver).
  assert (Eu : users (DSys v (ws1 ++ w :: ws2)) ≡ₚ w_proc w :: users (DSys v (ws1 ++ ws2))).
  { unfold users. cbn. rewrite !map_app. cbn. solve_Permutation. }
  assert (Ei : in_use (DSys v (ws1 ++ w :: ws2)) ≡ₚ w_buf w :: in_use (DSys v (ws1 ++ ws2))).
  { unfold in_use. cbn. rewrite !map_app. cbn. solve_Permutation. }
  rewrite Eu in Hus. rewrite Ei in Hin. apply NoDup_cons in Hus as [Nu Hus]. apply NoDup_cons in Hin as [Ni Hin].
  assert (Hsub : forall w', w' ∈ ws1 ++ ws2 -> w' ∈ ws1 ++ w :: ws2) by (clear; set_solver).
  split_and!; [|done|done|].
  - split; cbn [sys waiters]; auto. eapply blocks_ok_sub; [|exact Hsub|done]. intros b' Hb'. rewrite Ei. by right.
  - destruct Hbo as [B1 B2 B3]. destruct (B1 (w_buf w)) as (z & Hz & Hr & Hd); [rewrite Ei; left|]. exists z.
    do 3 (split; [done|]). split; [by apply B3|]. intros b' z' Hb' Hz' E. apply Ni.
    rewrite <- (B2 b' (w_buf w) z' z); [done|rewrite Ei; by right|rewrite Ei; left|done..].
Qed.

Lemma nodup_map_inj {X Y : Type} (f : X -> Y) (l : list X) x y :
  NoDup (map f l) -> x ∈ l -> y ∈ l -> f x = f y -> x = y.
Proof.
  intros Hnd [i Hi]%list_elem_of_lookup [j Hj]%list_elem_of_lookup E.
  assert (i = j) as <-; [|congruence].
  apply (NoDup_lookup (map f l) i j (f x)); [done|rewrite list_lookup_fmap; by rewrite Hi|rewrite list_lookup_fmap, Hj; cbn; by rewrite E].
Qed.

Lemma dinv_frame x y A D U W A' D' U' W' :
  dinv x A D U W -> ring_inv (sys y) A' D' U' W' -> reqs (sys y) = reqs (sys x) -> waiters y = waiters x ->
  same_blocks (in_use x) (ks (sys x)) (ks (sys y)) ->
  (forall p q, p ∈ users x -> procs (ks (sys x)) !! p = Some q -> exists q', procs (ks (sys y)) !! p = Some q' /\ keeps q q') ->
  (forall r, r ∈ reqs (sys x) -> r ∈ W' -> r ∈ W \/ runnable (q_proc r) (ks (sys y))) ->
  dinv y A' D' U' W'.
Proof.
  intros [Hi Hown Hwt Hus Hin Hbo] Hi' Er Ew Hsb Hk HW. split; unfold users, in_use; rewrite ?Er, ?Ew; try done.
  - intros r Hr. destruct (Hown r Hr) as (q & Hq & Hs). destruct (Hk _ _ (user_of_req x r Hr) Hq) as (q' & Hq' & K1 & K2).
    exists q'. split; [done|]. destruct Hs as [H|(H & Hc & Hw)]; [left; auto|]. destruct (K2 H) as [?|[? Hc']]; [by left|].
    destruct (decide (r ∈ W')) as [Hr'|Hr']; [|right; split_and!; congruence]. left.
    destruct (HW r Hr Hr') as [|Hrun]; [done|]. unfold runnable in Hrun. rewrite Hq' in Hrun. by injection Hrun.
  - intros w Hw. eapply sleeper_keeps; [|by apply Hwt]. intros q Hq.
    destruct (Hk _ _ (user_of_waiter x w Hw) Hq) as (q' & Hq' & K). exists q'. auto.
  - apply (blocks_ok_frame (ks (sys x))); [done| |done]. intros w Hw. by apply (waiter_in_use x).
Qed.

Lemma again_inv r s tk bz rs ws A D U W z :
  dinv (DSys (Sys s tk bz rs) ws) A D U W -> r ∈ rs -> bufs s !! q_buf r = Some z -> b_disk z = true ->
  dinv (DSys (Sys (asleep (q_proc r) (Ch_buf (q_buf r)) (back (q_proc r) s)) tk bz rs) ws) A D U W.
Proof.
  intros [Hi Hown Hwt Hus Hin Hbo] Hr Hz Hd. cbn [sys waiters ks reqs] in *.
  destruct (Hown r Hr) as (q & Hq & _).
  assert (Hp : is_Some (procs (back (q_proc r) s) !! q_proc r)) by (unfold back, on_cpu; rs; rewrite list_lookup_alter_eq, Hq; by eexists).
  destruct (asleep_ok _ (Ch_buf (q_buf r)) _ Hp) as (Hsl & Hot & _ & _ & Hb' & Hd' & _).
  assert (Ho : others (q_proc r) s (asleep (q_proc r) (Ch_buf (q_buf r)) (back (q_proc r) s))).
  { eapply others_trans; [apply others_back|done]. }
  assert (HrW : r ∉ W).
  { intros HW. destruct (ri_ack _ _ _ _ _ Hi r HW) as [y [Hy _ Hf _ _ _ _ _ _ _]]. cbn in Hy. congruence. }
  split; cbn [sys waiters ks reqs]; try done.
  - by apply inv_asleep, inv_back.
  - intros r' Hr'. destruct (decide (q_proc r' = q_proc r)) as [E|Hne].
    + apply NoDup_app in Hus as (Hus & _ & _). cbn in Hus.
      assert (r' = r) as -> by (by eapply (nodup_map_inj q_proc rs)). by apply sleeping_sleeper.
    + apply (others_sleeper (q_proc r) s _ _ _ (r' ∉ W)); auto.
  - intros w Hw. apply (others_sleeper (q_proc r) s _ _ _ (length rs = 2%nat)); auto. intros E.
    apply NoDup_app in Hus as (_ & Hus & _). cbn in Hus. apply (Hus (q_proc r)); [by apply list_elem_of_fmap_2|].
    rewrite <- E. by apply list_elem_of_fmap_2.
  - apply (blocks_ok_frame s); [|intros w Hw; by apply (waiter_in_use (DSys (Sys s tk bz rs) ws))|done].
    apply same_blocks_eq; [by rewrite Hb'|by rewrite Hd'].
Qed.

Lemma back_finish x A D U W r z s tk bz rs1 rs2 ws :
  x = DSys (Sys s tk bz (rs1 ++ r :: rs2)) ws -> dinv x A D U W -> bufs s !! q_buf r = Some z -> b_disk z = false ->
  exists s' W1 W2, W = W1 ++ r :: W2 /\ (finish_request (q0 r) ;; release L_vdisk) (back (q_proc r) s) = Ok tt s' /\
    ring_inv (Sys s' tk bz (rs1 ++ rs2)) A D U (W1 ++ W2) /\ bufs s' = bufs s /\ disk s' = disk s /\
    procs s' = wake_free (procs (back (q_proc r) s)).
Proof.
  intros -> Hi Hz Hd. pose proof (inv_back (q_proc r) _ _ _ _ _ _ _ _ (di_ring _ _ _ _ _ Hi)) as Hb.
  assert (Hr : r ∈ rs1 ++ r :: rs2) by (clear; set_solver).
  destruct (acked _ _ _ _ _ _ _ Hb Hr Hz Hd) as [Hw _]. apply list_elem_of_split in Hw as (W1 & W2 & ->).
  destruct (acked_finish _ _ _ _ _ _ _ Hb Hr Hz Hd) as (s1 & Hf & Ho & Hp & Hv). cbn [ks] in Hf, Ho, Hv, Hp.
  pose proof Ho as (Eb & Ed & _ & Eh & El & _). eexists _, W1, W2. split; [done|]. rewrite (bind_ok _ _ _ _ _ Hf).
  split; [apply (release_ok L_vdisk []); [by rewrite Eh|apply not_elem_of_nil]|]. rs. split_and!; try done.
  eapply inv_same; [by eapply inv_finish|apply same_rings_refl| |done|done].
  destruct (ri_plock _ _ _ _ _ Hb) as [P _]. cbn in P. split; rs; [by rewrite El|intros i; apply not_elem_of_nil].
Qed.

Lemma return_inv r z s tk bz rs1 rs2 ws A D U W s' :
  dinv (DSys (Sys s tk bz (rs1 ++ r :: rs2)) ws) A D U W -> bufs s !! q_buf r = Some z -> b_disk z = false ->
  (finish_request (q0 r) ;; release L_vdisk) (back (q_proc r) s) = Ok tt s' ->
  exists W', dinv (DSys (Sys s' tk bz (rs1 ++ rs2)) ws) A D U W' /\ moves (By (q_proc r)) A D U W A D U W'.
Proof.
  intros Hi Hz Hd Hf. destruct (back_finish _ _ _ _ _ _ _ _ _ _ _ _ _ eq_refl Hi Hz Hd) as (s1 & W1 & W2 & -> & Hf' & Hi' & Hb & Hk & Hp).
  rewrite Hf in Hf'. injection Hf' as <-. exists (W1 ++ W2). split; [|constructor].
  destruct Hi as [_ Hown Hwt Hus Hin Hbo]. cbn [sys waiters ks reqs] in *.
  assert (Eu : users (DSys (Sys s tk bz (rs1 ++ r :: rs2)) ws) ≡ₚ q_proc r :: users (DSys (Sys s' tk bz (rs1 ++ rs2)) ws)).
  { unfold users. cbn. rewrite !map_app. cbn. solve_Permutation. }
  assert (Ei : in_use (DSys (Sys s tk bz (rs1 ++ r :: rs2)) ws) ≡ₚ q_buf r :: in_use (DSys (Sys s' tk bz (rs1 ++ rs2)) ws)).
  { unfold in_use. cbn. rewrite !map_app. cbn. solve_Permutation. }
  rewrite Eu in Hus. rewrite Ei in Hin. apply NoDup_cons in Hus as [Nu Hus]. apply NoDup_cons in Hin as [Ni Hin].
  assert (Ho : others (q_proc r) s s') by (eapply others_trans; [apply others_back|apply others_wake; by right]).
  split; cbn [sys waiters ks reqs]; try done.
  - intros r' Hr'. apply (others_sleeper (q_proc r) s _ _ _ (r' ∉ W1 ++ r :: W2)).
    + done.
    + intros E. apply Nu. rewrite <- E. by apply (user_of_req (DSys (Sys s' tk bz (rs1 ++ rs2)) ws)).
    + clear. set_solver.
    + apply Hown. clear -Hr'. set_solver.
  - intros w Hw. destruct (Hwt w Hw) as (q & Hq & Hs).
    assert (Hne : w_proc w <> q_proc r).
    { intros E. apply Nu. rewrite <- E. by apply (user_of_waiter (DSys (Sys s' tk bz (rs1 ++ rs2)) ws)). }
    exists (wake1 (Some Ch_vdisk_free) q). split.
    + rewrite Hp. unfold wake_free. rewrite list_lookup_fmap. unfold back, on_cpu. rs. by rewrite list_lookup_alter_ne, Hq.
    + left. destruct Hs as [Hs|(Hs & Hc & _)]; [by apply wake1_keeps|by apply wake1_wakes].
  - apply (blocks_ok_frame s); [by apply same_blocks_eq|intros w Hw; by apply (waiter_in_use (DSys (Sys s' tk bz (rs1 ++ rs2)) ws))|].
    eapply blocks_ok_sub; [|done|exact Hbo]. intros b Hb'. rewrite Ei. by right.
Qed.

(** ** The interrupt handler *)

(** Among the completions that the handler has not seen, there is an error. *)
Definition error_reported (v : vdisk) : bool :=
  existsb (fun k => match v_used v !! Z.to_nat ((v_used_idx v + Z.of_nat k) mod NUM) with
                    | Some id => match v_info v !! Z.to_nat id with Some f => negb (vi_status f =? 0) | None => false end
                    | None => false
                    end) (seq 0 (Z.to_nat (u16 (v_used_dev v - v_used_idx v)))).

Lemma error_reported_spec x A D U W :
  ring_inv x A D U W -> error_reported (vd (ks x)) = true <-> exists r, r ∈ U /\ failed (vd (ks x)) r = true.
Proof.
  intros Hi. unfold error_reported. rewrite (intr_fuel _ _ _ _ _ Hi), existsb_exists. split.
  - intros (k & Hk & H). apply in_seq in Hk as [_ Hk]. destruct (lookup_lt_is_Some_2 U k ltac:(lia)) as [r Hr].
    rewrite (ri_used _ _ _ _ _ Hi k r Hr) in H. exists r. split; [by eapply list_elem_of_lookup_2|done].
  - intros (r & [k Hk]%list_elem_of_lookup & H). exists k. rewrite (ri_used _ _ _ _ _ Hi k r Hk).
    split; [|done]. apply in_seq. apply lookup_lt_Some in Hk. lia.
Qed.

Lemma disk_intr_enter s :
  exists s0, virtio_disk_intr (s <| held := [] |>) =
      (intr_loop (Z.to_nat (u16 (v_used_dev (vd s) - v_used_idx (vd s)))) ;; release L_vdisk) s0 /\
    vd s0 = vd s /\ bufs s0 = bufs s /\ disk s0 = disk s /\ dtrace s0 = dtrace s /\ procs s0 = procs s /\ held s0 = [L_vdisk].
Proof.
  eexists. unfold virtio_disk_intr, rd, wr, mmio_read, mmio_write.
  erewrite (bind_ok (acquire _)) by (apply acquire_ok; rs; apply not_elem_of_nil).
  erewrite (bind_ok (bind (gets mmio) _)) by reflexivity. rewrite bind_modify, bind_gets. split; [done|]. by rs.
Qed.

Lemma disk_intr_ok s tk bz rs A D U W :
  ring_inv (Sys s tk bz rs) A D U W ->
  if error_reported (vd s) then virtio_disk_intr (s <| held := [] |>) = Panic "virtio_disk_intr status"
  else exists s', virtio_disk_intr (s <| held := [] |>) = Ok tt s' /\ ring_inv (Sys s' tk bz rs) A D [] (rev U ++ W) /\
    disk s' = disk s /\ dtrace s' = dtrace s /\ same_data s s' /\ wakes U s s'.
Proof.
  intros Hi. pose proof (error_reported_spec _ _ _ _ _ Hi) as He. pose proof (intr_fuel _ _ _ _ _ Hi) as Hf. cbn [ks] in He, Hf.
  destruct (disk_intr_enter s) as (s0 & -> & Hv & Hb & Hd & Ht & Hp & Hh). rewrite Hf.
  destruct (ri_plock _ _ _ _ _ Hi) as [P _]. cbn in P.
  assert (Hi0 : ring_inv (Sys s0 tk bz rs) A D U W).
  { eapply inv_same; [done|rewrite Hv; apply same_rings_refl|apply vdisk_plock; [by rewrite Hp|done]|by intros; rewrite Hb|done]. }
  destruct (error_reported (vd s)) eqn:E.
  - rewrite (bind_panic _ _ _ "virtio_disk_intr status"); [done|]. eapply intr_loop_panics; [done|]. rewrite Hv. by apply He.
  - assert (Hok : forall r, r ∈ U -> failed (vd s0) r = false).
    { intros r Hr. rewrite Hv. destruct (failed (vd s) r) eqn:Ef; [|done]. assert (false = true) by (apply He; eauto). done. }
    destruct (intr_loop_ok _ _ _ _ _ _ _ _ Hi0 Hok) as (s1 & E1 & Hi1 & Hd1 & Ht1 & [Hs1 Hs1'] & Hh1 & [Hw1 Hw1']).
    rewrite (bind_ok _ _ _ _ _ E1). rewrite Hh in Hh1. eexists. split; [apply (release_ok L_vdisk []); [done|apply not_elem_of_nil]|].
    rs. split_and!; [|congruence..| |].
    + eapply inv_same; [done|apply same_rings_refl| |done|done]. split; rs; [by rewrite Hw1, Hp|intros i; apply not_elem_of_nil].
    + rewrite Hb in *. by split; rs.
    + rewrite Hp in *. by split; rs.
Qed.

Lemma same_data_blocks l s s' : same_data s s' -> disk s' = disk s -> same_blocks l s s'.
Proof.
  intros [Hl H] Hd. split; [|intros; by rewrite Hd]. intros b _. destruct (bufs s !! b) as [y|] eqn:E.
  - destruct (H b y E) as (y' & -> & Eb & _). cbn. by rewrite Eb.
  - apply lookup_ge_None in E. rewrite (proj2 (lookup_ge_None _ _)); [done|]. by rewrite Hl.
Qed.

Lemma intr_inv s tk bz rs ws A D U W s' :
  dinv (DSys (Sys s tk bz rs) ws) A D U W -> virtio_disk_intr (s <| held := [] |>) = Ok tt s' ->
  dinv (DSys (Sys s' tk bz rs) ws) A D [] (rev U ++ W).
Proof.
  intros Hi Hs. pose proof (disk_intr_ok _ _ _ _ _ _ _ _ (di_ring _ _ _ _ _ Hi)) as H. cbn [sys] in H. rewrite Hs in H.
  destruct (error_reported (vd s)); [done|]. destruct H as (s1 & E & Hi1 & Hd & _ & Hsd & Hl & Hw). injection E as <-.
  eapply dinv_frame; [done|exact Hi1|done|done| |..]; cbn [sys ks reqs].
  - by apply same_data_blocks.
  - intros p q _ Hq. destruct (Hw p q Hq) as (q' & Hq' & K & _). eauto.
  - intros r Hr [Hu|Hu]%elem_of_app; [|by left]. right. rewrite <- Permutation_rev in Hu.
    destruct (di_owner _ _ _ _ _ Hi r Hr) as (q & Hq & Hst). destruct (Hw _ q Hq) as (q' & Hq' & [K1 _] & Hwk).
    unfold runnable. rewrite Hq'. cbn. f_equal. destruct Hst as [?|(? & ? & _)]; [auto|by eapply Hwk].
Qed.

(** ** The device *)

(** A chain that the device works on is that of a request that waits. *)
Lemma busy_request s tk bz1 i bz2 rs A D U W :
  ring_inv (Sys s tk (bz1 ++ i :: bz2) rs) A D U W ->
  exists D1 r D2 x, D = D1 ++ r :: D2 /\ bz1 = map q0 D1 /\ i = q0 r /\ bz2 = map q0 D2 /\ r ∈ rs /\
    req_in s r 0xff true false x.
Proof.
  intros Hi. pose proof (ri_busy _ _ _ _ _ Hi) as Hbz. cbn in Hbz. symmetry in Hbz.
  apply (fmap_app_inv q0) in Hbz as (D1 & D' & -> & E & ->). symmetry in E.
  apply (fmap_cons_inv q0) in E as (r & D2 & -> & -> & ->).
  destruct (ri_wait _ _ _ _ _ Hi r) as [x Hr]; [clear; set_solver|]. exists D1, r, D2, x. split_and!; try done.
  apply (part_in _ _ _ _ _ _ Hi). clear. set_solver.
Qed.

(** What a step of the device does to the buffers and the disk. *)
Definition serves (x y : vsys) : Prop :=
  (disk (ks y) = disk (ks x) /\ dtrace (ks y) = dtrace (ks x) /\ bufs (ks y) = bufs (ks x)) \/
  exists r z s', r ∈ reqs x /\ bufs (ks x) !! q_buf r = Some z /\ b_disk z = true /\
    disk_rw (q_buf r) (q_write r) (ks x) = Ok tt s' /\
    disk (ks y) = disk s' /\ dtrace (ks y) = dtrace s' /\ bufs (ks y) = bufs s'.

Lemma dev_inv x y A D U W l :
  ring_inv x A D U W -> dev_step x y ->
  exists A' D' U', ring_inv y A' D' U' W /\ moves Dev A D U W A' D' U' W /\ (taken y = taken x \/ exists r, A = r :: A') /\
    reqs y = reqs x /\ procs (ks y) = procs (ks x) /\ same_blocks l (ks x) (ks y) /\ serves x y.
Proof.
  intros Hi Hs. revert Hi. destruct Hs as [? ? [s tk bz rs i Hne Hav|s tk bz1 i bz2 rs op b k s' Hrc Htr]|s tk bz1 i bz2 rs op b k st Hrc Hst]; intros Hi.
  - destruct (inv_take _ _ _ _ _ _ _ _ _ Hi Hne Hav) as (r & A' & -> & -> & Hi').
    exists A', (D ++ [r]), U. split_and!; [done|constructor|eauto|done|done|by apply same_blocks_eq|by left].
  - destruct (busy_request _ _ _ _ _ _ _ _ _ _ Hi) as (D1 & r & D2 & z & -> & -> & -> & -> & Hin & Hr).
    rewrite (read_chain_ok _ _ _ _ _ _ Hr) in Hrc. injection Hrc as <- <- <-.
    destruct (transfer_ok _ _ _ _ Hr) as (s1 & z' & Ht & Hrw & Hv & Hh & Hp & Hy & Hyb & Hyd & Hdk & Hw & Hbo & Hdo).
    rewrite Htr in Ht. injection Ht as <-. destruct (ri_plock _ _ _ _ _ Hi) as [P1 P2]. cbn in P1, P2.
    pose proof (rq_buf_at _ _ _ _ _ _ Hr) as Hx.
    exists A, (D1 ++ D2), (U ++ [r]). split_and!; [|constructor|by left|done|by cbn; rs| |].
    + rewrite <- (map_app q0). eapply (inv_complete s tk _ rs A D1 D2 U W r Hi z z' _ 0); try done.
      * split; [by rewrite Hp|by rewrite Hh].
      * intros [?|?]; [done|auto].
    + split; cbn [ks]; rs.
      * intros b _. destruct (decide (b = q_buf r)) as [->|Hne]; [|by rewrite Hbo]. rewrite Hy, Hx. cbn. by rewrite Hyb.
      * intros k Hk. destruct (decide (k = b_blockno z)) as [->|Hne]; [by rewrite Hdk|by rewrite Hdo].
    + right. exists r, z, s'. cbn [ks reqs]. rs. split_and!; try done. apply (rq_disk_flag _ _ _ _ _ _ Hr).
  - destruct (busy_request _ _ _ _ _ _ _ _ _ _ Hi) as (D1 & r & D2 & z & -> & -> & -> & -> & Hin & Hr).
    rewrite (read_chain_ok _ _ _ _ _ _ Hr) in Hrc. injection Hrc as <- <- <-.
    exists A, (D1 ++ D2), (U ++ [r]). split_and!; [|constructor|by left|done|done|by apply same_blocks_eq|by left].
    assert (E : (st =? 0) = false) by (apply Z.eqb_neq; lia).
    rewrite <- (map_app q0). eapply (inv_complete s tk _ rs A D1 D2 U W r Hi z z s st); try done.
    + apply (ri_plock _ _ _ _ _ Hi).
    + apply Hr.
    + apply Hr.
    + rewrite E. apply (rq_served _ _ _ _ _ _ Hr).
    + intros _. apply (rq_data _ _ _ _ _ _ Hr). by left.
Qed.

(** ** The driver is a disk *)

Lemma dstep_inv l x y A D U W :
  dinv x A D U W -> dstep dev_step l x y ->
  exists A' D' U' W', dinv y A' D' U' W' /\ moves l A D U W A' D' U' W' /\
    (taken (sys y) = taken (sys x) \/ exists r, A = r :: A').
Proof.
  intros Hi Hs. revert Hi. destruct Hs as [p b w z s tk bz rs ws o [Hp Hpp Hb Hz Hblk Hno Hdk] Ha|p b w sector s tk bz rs ws1 ws2 o Hrun Ha
    |r z s tk bz rs ws Hr Hrun Hz Hd|r z s tk bz rs1 rs2 ws s' Hrun Hz Hd Hf|s tk bz rs ws s' Hin|u v ws Hdev|s s' tk bz rs ws Hv Hd Hpl Hb Hk]; intros Hi.
  - destruct (tried_inv p b w z s (on_cpu p [L_vdisk] s) tk bz rs ws A D U W Hi) as (o' & A' & Ha' & Hi' & Hm); try done.
    + by apply inv_on_cpu, Hi.
    + intros p' q _ Hq. exists q. split; [done|apply proc_keeps_refl].
    + rewrite Ha in Ha'. injection Ha' as <-. exists A', D, U, W. split_and!; try done. by destruct o as [[]]; left.
  - destruct (drop_waiter _ _ _ _ _ _ _ _ Hi) as (Hi0 & Hp & Hb & z & Hz & Hno & Hdk & Esec & Hblk). cbn [w_proc w_buf w_sector ks] in *.
    subst sector. destruct (di_wait _ _ _ _ _ Hi (Wt p b w (u32 (b_blockno z * (BSIZE / 512))))) as (q & Hq & _); [clear; set_solver|].
    destruct (tried_inv p b w z s (back p s) tk bz rs (ws1 ++ ws2) A D U W Hi0) as (o' & A' & Ha' & Hi' & Hm); try done.
    + by apply inv_back, Hi.
    + unfold back, on_cpu. rs. cbn in Hq. rewrite list_lookup_alter_eq, Hq. by eexists.
    + apply others_back.
    + rewrite Ha in Ha'. injection Ha' as <-. exists A', D, U, W. split_and!; try done. by destruct o as [[]]; left.
  - exists A, D, U, W. split_and!; [by eapply again_inv|by apply m_same|by left].
  - destruct (return_inv _ _ _ _ _ _ _ _ _ _ _ _ _ Hi Hz Hd Hf) as (W' & Hi' & Hm). exists A, D, U, W'. auto.
  - exists A, D, [], (rev U ++ W). split_and!; [by eapply intr_inv|constructor|by left].
  - destruct (dev_inv _ _ _ _ _ _ (in_use (DSys u ws)) (di_ring _ _ _ _ _ Hi) Hdev) as (A' & D' & U' & Hi' & Hm & Ht & Er & Ep & Hsb & _).
    cbn [sys] in *. exists A', D', U', W. split_and!; [|done|done].
    eapply dinv_frame; [done|exact Hi'|done|done|done| |by left]. cbn [sys]. rewrite Ep. intros p q _ Hq. exists q. split; [done|apply proc_keeps_refl].
  - exists A, D, U, W. split_and!; [|by apply m_same|by left]. eapply dinv_frame; [done| |done|done| |exact Hk|by left].
    + eapply inv_same; [apply Hi|rewrite Hv; apply same_rings_refl|done| |done].
      intros r Hr. apply Hb. apply elem_of_app. left. by apply list_elem_of_fmap_2.
    + cbn [sys ks]. split; [intros b Hbb; by rewrite Hb|by rewrite Hd].
Qed.

Lemma dreach_inv x : dreach dev_step x -> exists A D U W, dinv x A D U W.
Proof.
  induction 1 as [s Hs|l x y _ (A & D & U & W & Hi) Hstep].
  - exists [], [], [], []. split; cbn; try (by intros ? ?%not_elem_of_nil); [by apply inv_booted|by apply NoDup_nil..|].
    split; by intros ? ?%not_elem_of_nil || (intros; by apply not_elem_of_nil in H).
  - destruct (dstep_inv _ _ _ _ _ _ _ Hi Hstep) as (A' & D' & U' & W' & Hi' & _). by exists A', D', U', W'.
Qed.

(** A chain that the device works on, or takes next. *)
Definition offered (v : vsys) (i : Z) : Prop :=
  i ∈ busy v \/ (taken v <> v_avail_idx (vd (ks v)) /\ v_avail (vd (ks v)) !! Z.to_nat (taken v mod NUM) = Some i).

(** What the driver promises in a state of the system. *)
Record disk_spec (x : dsys) : Prop := {
  (* the device has chains of requests only, and reads the request in them *)
  ds_chains : forall i, offered (sys x) i -> exists r z, r ∈ reqs (sys x) /\ q0 r = i /\
    bufs (ks (sys x)) !! q_buf r = Some z /\ b_disk z = true /\
    read_chain (vd (ks (sys x))) i =
      Some (mkBlkreq (if q_write r then VIRTIO_BLK_T_OUT else VIRTIO_BLK_T_IN) 0 (2 * b_blockno z), q_buf r, i);
  (* a step of the device is the transfer of the block layer, for a request that waits *)
  ds_device : forall y, dev_step (sys x) y -> serves (sys x) y;
  (* a call and another round do not panic, and do without descriptors only while two others have them *)
  ds_call : forall p b w z, may_call x p b z -> exists o,
    attempt p b w (u32 (b_blockno z * (BSIZE / 512))) (on_cpu p [L_vdisk] (ks (sys x))) = Some o /\
    (o.1 = None -> length (reqs (sys x)) = 2%nat);
  ds_retry : forall w, w ∈ waiters x -> exists o,
    attempt (w_proc w) (w_buf w) (w_write w) (w_sector w) (back (w_proc w) (ks (sys x))) = Some o /\
    (o.1 = None -> length (reqs (sys x)) = 2%nat);
  (* the handler panics on an error of the device, and otherwise changes no data *)
  ds_intr : if error_reported (vd (ks (sys x)))
    then virtio_disk_intr ((ks (sys x)) <| held := [] |>) = Panic "virtio_disk_intr status"
    else exists s', virtio_disk_intr ((ks (sys x)) <| held := [] |>) = Ok tt s' /\
      disk s' = disk (ks (sys x)) /\ same_data (ks (sys x)) s';
  (* a process that finds [b->disk] clear has its transfer, and returns *)
  ds_return : forall r z, r ∈ reqs (sys x) -> bufs (ks (sys x)) !! q_buf r = Some z -> b_disk z = false ->
    disk (ks (sys x)) !! b_blockno z = Some (b_data z) /\ (q_write r = true -> b_data z = q_data r) /\
    exists s', (finish_request (q0 r) ;; release L_vdisk) (back (q_proc r) (ks (sys x))) = Ok tt s' /\
      disk s' = disk (ks (sys x)) /\ bufs s' = bufs (ks (sys x));
  (* no process sleeps without cause *)
  ds_sleep : forall r q, r ∈ reqs (sys x) -> procs (ks (sys x)) !! q_proc r = Some q -> p_state q = SLEEPING ->
    p_chan q = Some (Ch_buf (q_buf r)) /\ exists z, bufs (ks (sys x)) !! q_buf r = Some z /\ b_disk z = true;
  ds_sleep_free : forall w q, w ∈ waiters x -> procs (ks (sys x)) !! w_proc w = Some q -> p_state q = SLEEPING ->
    p_chan q = Some Ch_vdisk_free /\ length (reqs (sys x)) = 2%nat;
}.

Lemma offered_request v A D U W i :
  ring_inv v A D U W -> offered v i -> exists r, r ∈ A ++ D /\ q0 r = i.
Proof.
  intros Hi [Hb|[Hne Hav]].
  - rewrite (ri_busy _ _ _ _ _ Hi) in Hb. apply list_elem_of_fmap in Hb as (r & -> & Hr). exists r. rewrite elem_of_app. auto.
  - destruct v as [s tk bz rs]. destruct (inv_take _ _ _ _ _ _ _ _ _ Hi Hne Hav) as (r & A' & -> & -> & _). exists r. split; [left|done].
Qed.

Lemma sleeper_sleeps s p d why q : sleeper s p d why -> procs s !! p = Some q -> p_state q = SLEEPING -> p_chan q = Some d /\ why.
Proof. intros (q' & Hq' & Hs) Hq E. assert (q' = q) as -> by congruence. destruct Hs as [?|(_ & ? & ?)]; [congruence|done]. Qed.

(** A request is under way, or acknowledged. *)
Lemma disk_flag v A D U W r :
  ring_inv v A D U W -> r ∈ reqs v -> exists z, bufs (ks v) !! q_buf r = Some z /\ (r ∉ W -> b_disk z = true).
Proof.
  intros Hi Hr. rewrite (ri_reqs _ _ _ _ _ Hi) in Hr.
  assert (r ∈ A ++ D \/ r ∈ U \/ r ∈ W) as [H|[H|H]] by (clear -Hr; set_solver).
  - destruct (ri_wait _ _ _ _ _ Hi r H) as [z Hz]. exists z. split; [apply Hz|intros _; apply (rq_disk_flag _ _ _ _ _ _ Hz)].
  - destruct (ri_done _ _ _ _ _ Hi r H) as (st & z & Hz). exists z. split; [apply Hz|intros _; apply (rq_disk_flag _ _ _ _ _ _ Hz)].
  - destruct (ri_ack _ _ _ _ _ Hi r H) as [z Hz]. exists z. split; [apply Hz|done].
Qed.

Lemma call_ok x A D U W p b w z :
  dinv x A D U W -> may_call x p b z ->
  exists o, attempt p b w (u32 (b_blockno z * (BSIZE / 512))) (on_cpu p [L_vdisk] (ks (sys x))) = Some o /\
    (o.1 = None -> length (reqs (sys x)) = 2%nat).
Proof.
  intros Hi [Hp Hpp Hb Hz Hblk Hno Hdk]. destruct x as [[s tk bz rs] ws]. cbn [sys ks reqs] in *.
  destruct (attempt_ok p b w z (on_cpu p [L_vdisk] s) tk bz rs A D U W []) as (o & Ha & Hat & _); try done.
  - by apply inv_on_cpu, Hi.
  - intros H. apply Hb. by apply elem_of_app; left.
  - intros r y Hr Hy. apply (Hblk (q_buf r)); [|done]. apply elem_of_app. left. by apply list_elem_of_fmap_2.
  - exists o. split; [done|]. destruct o as [[r|] s']; [done|]. intros _. apply Hat.
Qed.

Lemma retry_ok x A D U W w :
  dinv x A D U W -> w ∈ waiters x ->
  exists o, attempt (w_proc w) (w_buf w) (w_write w) (w_sector w) (back (w_proc w) (ks (sys x))) = Some o /\
    (o.1 = None -> length (reqs (sys x)) = 2%nat).
Proof.
  intros Hi Hw. destruct (di_wait _ _ _ _ _ Hi w Hw) as (q & Hq & _).
  apply list_elem_of_split in Hw as (ws1 & ws2 & E). destruct x as [[s tk bz rs] ws]. cbn [sys waiters ks reqs] in *. subst ws.
  destruct (drop_waiter _ _ _ _ _ _ _ _ Hi) as (Hi0 & _ & Hb & z & Hz & Hno & Hdk & -> & Hblk). cbn [ks] in *.
  destruct (attempt_ok (w_proc w) (w_buf w) (w_write w) z (back (w_proc w) s) tk bz rs A D U W []) as (o & Ha & Hat & _); try done.
  - by apply inv_back, Hi.
  - unfold back, on_cpu. rs. rewrite list_lookup_alter_eq, Hq. by eexists.
  - intros H. apply Hb. by apply elem_of_app; left.
  - intros r y Hr Hy. apply (Hblk (q_buf r)); [|done]. apply elem_of_app. left. by apply list_elem_of_fmap_2.
  - exists o. split; [done|]. destruct o as [[r|] s']; [done|]. intros _. apply Hat.
Qed.

Lemma dinv_spec x A D U W : dinv x A D U W -> disk_spec x.
Proof.
  intros Hi. pose proof (di_ring _ _ _ _ _ Hi) as Hr. split.
  - intros i (r & Hin & <-)%(offered_request _ _ _ _ _ _ Hr). destruct (ri_wait _ _ _ _ _ Hr r Hin) as [z Hz]. exists r, z.
    split_and!; [|done|apply Hz|apply (rq_disk_flag _ _ _ _ _ _ Hz)|by apply (read_chain_ok _ _ _ _ _ _ Hz)].
    apply (part_in _ _ _ _ _ _ Hr). clear -Hin. set_solver.
  - intros y Hy. by destruct (dev_inv _ _ _ _ _ _ [] Hr Hy) as (? & ? & ? & _ & _ & _ & _ & _ & _ & ?).
  - intros p b w z. by eapply call_ok.
  - intros w Hw. by eapply retry_ok.
  - destruct x as [[s tk bz rs] ws]. pose proof (disk_intr_ok _ _ _ _ _ _ _ _ Hr) as H. cbn [sys ks] in *.
    destruct (error_reported (vd s)); [done|]. destruct H as (s' & E & _ & Hd & _ & Hs & _). eauto.
  - intros r z Hin Hz Hd. destruct (acked _ _ _ _ _ _ _ Hr Hin Hz Hd) as [_ Hq].
    split_and!; [apply (rq_served _ _ _ _ _ _ Hq)|intros Hw; apply (rq_data _ _ _ _ _ _ Hq); by right|].
    apply list_elem_of_split in Hin as (rs1 & rs2 & E). destruct x as [[s tk bz rs] ws]. cbn [sys ks reqs] in *. subst rs.
    destruct (back_finish _ _ _ _ _ _ _ _ _ _ _ _ _ eq_refl Hi Hz Hd) as (s' & _ & _ & _ & Hf & _ & Hb & Hk & _). eauto.
  - intros r q Hin Hq Hs. destruct (sleeper_sleeps _ _ _ _ _ (di_owner _ _ _ _ _ Hi r Hin) Hq Hs) as [Hc Hw]. split; [done|].
    destruct (disk_flag _ _ _ _ _ _ Hr Hin) as (z & Hz & Hd). eauto.
  - intros w q Hw. apply sleeper_sleeps. by apply (di_wait _ _ _ _ _ Hi).
Qed.

Section code.
Context {F : Fuel}.


End code.

(** ** A request under way *)

Definition idle_vdisk : vdisk := zero_vdisk <| v_free := replicate 8 true |>.
Definition idle_disk : kstate := boot_state <| vd := idle_vdisk |> <| disk := {[ 0 := replicate 1024 7 ]} |>.

Lemma idle_booted : booted_disk idle_disk.
Proof.
  unfold booted_disk, idle_disk, boot_state, idle_vdisk, zero_vdisk. rs. split_and!; try done.
  split; rs; [apply length_replicate|]. intros i. apply not_elem_of_nil.
Qed.

Lemma idle_may_call : may_call (DSys (Sys idle_disk 0 [] []) []) 5 0 zero_buf.
Proof.
  split; cbn [sys ks]; first [by apply not_elem_of_nil | by intros ? ? ?%not_elem_of_nil | by eexists | done].
Qed.

Lemma one_request :
  exists s, dstep dev_works (By 5) (DSys (Sys idle_disk 0 [] []) []) (DSys (Sys s 0 [] [Rq 5 0 1 2 0 true (replicate 1024 0)]) []).
Proof.
  assert (E : exists s, attempt 5 0 true (u32 (b_blockno zero_buf * (BSIZE / 512))) (on_cpu 5 [L_vdisk] idle_disk)
                = Some (Some (Rq 5 0 1 2 0 true (replicate 1024 0)), s)).
  { eexists. vm_compute. reflexivity. }
  destruct E as (s & E). exists s. exact (d_call _ 5 0 true zero_buf idle_disk 0 [] [] [] _ idle_may_call E).
Qed.

Lemma dstep_mono (dev dev' : vsys -> vsys -> Prop) l x y :
  (forall u v, dev u v -> dev' u v) -> dstep dev l x y -> dstep dev' l x y.
Proof. intros H Hs. destruct Hs; econstructor; eauto. Qed.

