(* ===== verification/Fair.v ===== *)
(** Progress of the virtio disk driver (kernel/virtio_disk.c): in a run of the system of Diskio in
    which the device goes on, interrupts are delivered and runnable processes are scheduled, every call of
    [virtio_disk_rw] that has its descriptors returns, and those who wait for descriptors are woken when there are some. *)

From stdpp Require Import prelude gmap strings.
From Stdlib Require Import ZArith Lia.
From S2P Require Import Prelude Bytes Params State Spinlock Uart Sched Disk Bio Cache Virtio Ring Diskio.

Local Open Scope Z_scope.
Local Open Scope kernel_scope.

Lemma caught_up x A D U W : ring_inv x A D U W -> taken x = v_avail_idx (vd (ks x)) -> A = [].
Proof.
  intros Hi E. pose proof (two_requests _ _ _ _ _ Hi) as Hcap. pose proof (ri_reqs _ _ _ _ _ Hi) as Hrq.
  apply Permutation_length in Hrq. rewrite !length_app in Hrq. rewrite (ri_avail_idx _ _ _ _ _ Hi) in E.
  pose proof (ri_taken _ _ _ _ _ Hi). destruct A as [|r A]; [done|]. cbn [length] in *. exfalso.
  unfold wrap in E. change (2 ^ 16) with 65536 in *. Z.div_mod_to_equations. lia.
Qed.

Lemma used_up x A D U W :
  ring_inv x A D U W -> v_used_idx (vd (ks x)) = v_used_dev (vd (ks x)) -> U = [].
Proof.
  intros Hi E. pose proof (two_requests _ _ _ _ _ Hi) as Hcap. pose proof (ri_reqs _ _ _ _ _ Hi) as Hrq.
  apply Permutation_length in Hrq. rewrite !length_app in Hrq. rewrite (ri_used_dev _ _ _ _ _ Hi) in E.
  pose proof (ri_used_idx _ _ _ _ _ Hi). destruct U as [|r U]; [done|]. cbn [length] in *. exfalso.
  unfold wrap in E. change (2 ^ 16) with 65536 in *. Z.div_mod_to_equations. lia.
Qed.

Lemma used_none x A D W : ring_inv x A D [] W -> v_used_idx (vd (ks x)) = v_used_dev (vd (ks x)).
Proof.
  intros Hi. rewrite (ri_used_dev _ _ _ _ _ Hi), Z.add_0_r. unfold wrap. pose proof (ri_used_idx _ _ _ _ _ Hi).
  by rewrite Z.mod_small.
Qed.

Section run.
Context (run : nat -> dsys) (lab : nat -> label).

Definition st (n : nat) : kstate := ks (sys (run n)).

(** A run of the system with a device that reports no errors, in which no one stops for ever. *)
Record fair : Prop := {
  fair_start : dreach dev_works (run 0%nat);
  fair_steps : forall n, dstep dev_works (lab n) (run n) (run (S n));
  (* the device takes chains while there are any *)
  fair_take : forall n, taken (sys (run n)) <> v_avail_idx (vd (st n)) ->
    exists m, (n <= m)%nat /\ taken (sys (run m)) <> taken (sys (run n));
  (* it completes the chains it took *)
  fair_complete : forall n i, i ∈ busy (sys (run n)) -> exists m, (n <= m)%nat /\ i ∉ busy (sys (run m));
  (* it interrupts when it has completed one *)
  fair_intr : forall n, v_used_idx (vd (st n)) <> v_used_dev (vd (st n)) -> exists m, (n <= m)%nat /\ lab m = Intr;
  (* the scheduler comes to every process that is RUNNABLE *)
  fair_procs : forall n p, p ∈ users (run n) -> runnable p (st n) -> exists m, (n <= m)%nat /\ lab m = By p;
}.

(** At time [n] the process of [r] finds [b->disk] clear and its transfer made, and returns from [virtio_disk_rw]. *)
Definition returns (r : request) (n : nat) : Prop :=
  lab n = By (q_proc r) /\ r ∈ reqs (sys (run n)) /\ r ∉ reqs (sys (run (S n))) /\
  exists z, bufs (st n) !! q_buf r = Some z /\ b_disk z = false /\
    disk (st n) !! b_blockno z = Some (b_data z) /\ (q_write r = true -> b_data z = q_data r).

Context (Hfair : fair).

Lemma run_step n : dstep dev_step (lab n) (run n) (run (S n)).
Proof. eapply dstep_mono; [apply dev_good|by apply fair_steps]. Qed.

Lemma dreach_good x : dreach dev_works x -> dreach dev_step x.
Proof. induction 1; [by apply d_init|]. eapply d_step; [done|]. eapply dstep_mono; [apply dev_good|done]. Qed.

Lemma run_dinv n : exists A D U W, dinv (run n) A D U W.
Proof.
  apply dreach_inv. induction n as [|n IH]; [apply dreach_good; by apply fair_start|]. eapply d_step; [done|apply run_step].
Qed.

(** A property [P] of time and the four lists that every step keeps, unless it gives [Q], lasts or
    ends with [Q]. *)
Lemma lasts (P : nat -> list request -> list request -> list request -> list request -> Prop) (Q : nat -> Prop) n j :
  (forall m A D U W A' D' U' W', (n <= m)%nat -> dinv (run m) A D U W -> dinv (run (S m)) A' D' U' W' ->
     moves (lab m) A D U W A' D' U' W' -> taken (sys (run (S m))) = taken (sys (run m)) \/ (exists r, A = r :: A') ->
     P m A D U W -> P (S m) A' D' U' W' \/ Q m) ->
  forall A D U W, dinv (run n) A D U W -> P n A D U W ->
  (exists m, (n <= m)%nat /\ Q m) \/ exists A' D' U' W', dinv (run (n + j)) A' D' U' W' /\ P (n + j)%nat A' D' U' W'.
Proof.
  intros Hstep A D U W Hi HP. induction j as [|j [HQ|(A1 & D1 & U1 & W1 & Hi1 & HP1)]].
  - right. rewrite Nat.add_0_r. eauto 6.
  - by left.
  - destruct (dstep_inv _ _ _ _ _ _ _ Hi1 (run_step (n + j))) as (A2 & D2 & U2 & W2 & Hi2 & Hm & Ht).
    rewrite Nat.add_succ_r. destruct (Hstep (n + j)%nat _ _ _ _ _ _ _ _ ltac:(lia) Hi1 Hi2 Hm Ht HP1) as [HP2|HQ].
    + right. eauto 6.
    + left. exists (n + j)%nat. split; [lia|done].
Qed.

Definition at_device (r : request) (m : nat) : Prop := exists A D U W, dinv (run m) A D U W /\ r ∈ D.
Definition at_used (r : request) (m : nat) : Prop := exists A D U W, dinv (run m) A D U W /\ r ∈ U.
Definition acknowledged (r : request) (m : nat) : Prop := exists A D U W, dinv (run m) A D U W /\ r ∈ W.
Definition queued (r : request) (k m : nat) : Prop := exists A D U W, dinv (run m) A D U W /\ A !! k = Some r.

Lemma queued_advances r k n :
  queued r k n -> exists m, (n <= m)%nat /\ (at_device r m \/ exists k', (k' < k)%nat /\ queued r k' m).
Proof.
  intros (A & D & U & W & Hi & Hk).
  destruct (fair_take Hfair n) as (m & Hm & Hne).
  { intros E. by rewrite (caught_up _ _ _ _ _ (di_ring _ _ _ _ _ Hi) E) in Hk. }
  destruct (lasts (fun m A _ _ _ => A !! k = Some r /\ taken (sys (run m)) = taken (sys (run n)))
    (fun m => at_device r (S m) \/ exists k', (k' < k)%nat /\ queued r k' (S m)) n (m - n)) with (A := A) (D := D) (U := U) (W := W)
    as [(m' & Hm' & ?)|(A' & D' & U' & W' & _ & _ & E)]; [|done|done|exists (S m'); split; [lia|done]|].
  2: { replace (n + (m - n))%nat with m in E by lia. done. }
  clear -run. intros m A D U W A' D' U' W' _ Hi Hi' Hmv Ht [Hk E]. revert Hi Hi' Ht.
  destruct Hmv as [| |r' A D U W| | |]; intros Hi Hi' Ht;
    try (destruct Ht as [Ht|[? Ht]]; [|exfalso; apply (f_equal length) in Ht; cbn in Ht; rewrite ?length_app in Ht; lia]).
  all: try (left; split; [|congruence]; try done; by apply lookup_app_l_Some).
  right. destruct k as [|k].
  - left. cbn in Hk. injection Hk as ->. eexists _, _, _, _. split; [exact Hi'|]. clear. set_solver.
  - right. exists k. split; [lia|]. eexists _, _, _, _. by split; [exact Hi'|].
Qed.

Lemma queued_taken r : forall k n, queued r k n -> exists m, (n <= m)%nat /\ at_device r m.
Proof.
  induction k as [k IH] using (well_founded_induction lt_wf). intros n Hq.
  destruct (queued_advances r k n Hq) as (m & Hm & [Hd|(k' & Hlt & Hq')]); [eauto|].
  destruct (IH k' Hlt m Hq') as (m' & Hm' & Hd). exists m'. split; [lia|done].
Qed.

Lemma device_completes r n : at_device r n -> exists m, (n <= m)%nat /\ at_used r m.
Proof.
  intros (A & D & U & W & Hi & Hr).
  destruct (fair_complete Hfair n (q0 r)) as (m & Hm & Hno).
  { rewrite (ri_busy _ _ _ _ _ (di_ring _ _ _ _ _ Hi)). by apply list_elem_of_fmap_2. }
  destruct (lasts (fun _ _ D _ _ => r ∈ D) (fun m => at_used r (S m)) n (m - n)) with (A := A) (D := D) (U := U) (W := W)
    as [(m' & Hm' & ?)|(A' & D' & U' & W' & Hi' & Hr')]; [|done|done|exists (S m'); split; [lia|done]|].
  2: { replace (n + (m - n))%nat with m in Hi' by lia. exfalso. apply Hno.
       rewrite (ri_busy _ _ _ _ _ (di_ring _ _ _ _ _ Hi')). by apply list_elem_of_fmap_2. }
  clear. intros m A D U W A' D' U' W' _ Hi Hi' Hmv _ Hr. revert Hi Hi'.
  destruct Hmv as [| | |A D1 r' D2 U W| |]; intros Hi Hi'; try (left; clear -Hr; set_solver).
  destruct (decide (r = r')) as [->|Hne].
  - right. eexists _, _, _, _. split; [exact Hi'|]. clear. set_solver.
  - left. clear -Hr Hne. set_solver.
Qed.

Lemma used_acked r n : at_used r n -> exists m, (n <= m)%nat /\ acknowledged r m.
Proof.
  intros (A & D & U & W & Hi & Hr).
  destruct (fair_intr Hfair n) as (m & Hm & Hl).
  { intros E. rewrite (used_up _ _ _ _ _ (di_ring _ _ _ _ _ Hi) E) in Hr. by apply not_elem_of_nil in Hr. }
  destruct (lasts (fun k _ _ U _ => r ∈ U /\ (k <= m)%nat) (fun k => acknowledged r (S k)) n (S m - n)) with (A := A) (D := D) (U := U) (W := W)
    as [(m' & Hm' & ?)|(A' & D' & U' & W' & Hi' & Hr' & Hk)]; [|done|done|exists (S m'); split; [lia|done]|lia].
  clear -Hl. intros k A D U W A' D' U' W' _ Hi Hi' Hmv _ [Hr Hk].
  destruct (decide (k = m)) as [->|Hne]; [|assert (Hkm : (S k <= m)%nat) by lia]; revert Hi Hi'.
  - rewrite Hl in Hmv. right. remember Intr as l eqn:El. destruct Hmv; try done. eexists _, _, _, _. split; [exact Hi'|].
    rewrite elem_of_app, <- Permutation_rev. by left.
  - destruct Hmv as [| | | | |]; intros Hi Hi'; try (left; split; [clear -Hr; set_solver|done]).
    right. eexists _, _, _, _. split; [exact Hi'|]. rewrite elem_of_app, <- Permutation_rev. by left.
Qed.

(** The next step of a process whose request is acknowledged is its last. *)
Lemma acked_leaves x y A D U W r :
  dinv x A D U W -> r ∈ W -> dstep dev_step (By (q_proc r)) x y -> r ∉ reqs (sys y).
Proof.
  intros Hi Hr Hs. pose proof (di_ring _ _ _ _ _ Hi) as Hri. pose proof (di_users _ _ _ _ _ Hi) as Hnd. unfold users in Hnd.
  assert (Hin : r ∈ reqs (sys x)) by (apply (part_in _ _ _ _ _ _ Hri); rewrite !elem_of_app; tauto).
  destruct (ri_ack _ _ _ _ _ Hri r Hr) as [y0 Hack]. apply NoDup_app in Hnd as (Hnd & Hap & _).
  remember (By (q_proc r)) as l eqn:El. destruct Hs as [p b w z s tk bz rs ws o Hmc Ha|p b w sector s tk bz rs ws1 ws2 o _ Ha
    |r' z s tk bz rs ws Hr' _ Hz Hd|r' z s tk bz rs1 rs2 ws s' _ _ _ _|s tk bz rs ws s' _|u v ws _|s s' tk bz rs ws]; try done; injection El as El; cbn [sys ks reqs waiters] in *.
  - destruct (mc_user _ _ _ _ Hmc). subst p. by apply (user_of_req (DSys (Sys s tk bz rs) ws)).
  - destruct (Hap (q_proc r)); [by apply list_elem_of_fmap_2|]. subst p. apply list_elem_of_fmap. exists (Wt (q_proc r) b w sector).
    split; [done|]. clear. set_solver.
  - assert (r' = r) as -> by (by eapply (nodup_map_inj q_proc rs)). pose proof (rq_buf_at _ _ _ _ _ _ Hack). 
    pose proof (rq_disk_flag _ _ _ _ _ _ Hack). congruence.
  - assert (r' = r) as -> by (eapply (nodup_map_inj q_proc); [exact Hnd|clear; set_solver|done|done]). intros Hr2.
    rewrite map_app in Hnd. cbn in Hnd. rewrite <- Permutation_middle in Hnd. apply NoDup_cons in Hnd as [Hnd _]. apply Hnd.
    rewrite <- map_app. by apply list_elem_of_fmap_2.
Qed.

Lemma acked_by k A D U W r : dinv (run k) A D U W -> r ∈ W -> lab k = By (q_proc r) -> returns r k.
Proof.
  intros Hi Hr Hl. pose proof (di_ring _ _ _ _ _ Hi) as Hri. destruct (ri_ack _ _ _ _ _ Hri r Hr) as [z Hz].
  split_and!; [done| | |exists z; split_and!].
  - apply (part_in _ _ _ _ _ _ Hri). rewrite !elem_of_app. tauto.
  - eapply acked_leaves; [done..|]. rewrite <- Hl. apply run_step.
  - apply Hz.
  - apply (rq_disk_flag _ _ _ _ _ _ Hz).
  - apply (rq_served _ _ _ _ _ _ Hz).
  - intros Hw. apply (rq_data _ _ _ _ _ _ Hz). by right.
Qed.

Lemma acked_returns r n : acknowledged r n -> exists m, (n <= m)%nat /\ returns r m.
Proof.
  intros (A & D & U & W & Hi & Hr). pose proof (di_ring _ _ _ _ _ Hi) as Hri.
  assert (Hin : r ∈ reqs (sys (run n))) by (apply (part_in _ _ _ _ _ _ Hri); rewrite !elem_of_app; tauto).
  destruct (fair_procs Hfair n (q_proc r)) as (m & Hm & Hl).
  { by apply user_of_req. }
  { destruct (di_owner _ _ _ _ _ Hi r Hin) as (q & Hq & [Hs|(_ & _ & Hw)]); [|done]. unfold runnable, st. rewrite Hq. cbn. by rewrite Hs. }
  destruct (lasts (fun k _ _ _ W => r ∈ W /\ (k <= m)%nat) (returns r) n (S m - n)) with (A := A) (D := D) (U := U) (W := W)
    as [?|(A' & D' & U' & W' & _ & _ & Hk)]; [|done|done|done|lia].
  intros k A' D' U' W' A2 D2 U2 W2 _ Hi1 _ Hmv _ [Hr' Hk].
  destruct (decide (lab k = By (q_proc r))) as [E|Hne]; [right; by eapply acked_by|].
  left. split; [|destruct (decide (k = m)) as [->|]; [done|lia]]. revert Hr' Hne. clear -Hmv.
  destruct Hmv as [| | | | |A D U W1 r' W2]; intros Hr Hne; try (clear -Hr; set_solver).
  apply elem_of_app in Hr as [Hr|[->|Hr]%elem_of_cons]; [|done|]; apply elem_of_app; auto.
Qed.

Lemma request_returns r n : r ∈ reqs (sys (run n)) -> exists m, (n <= m)%nat /\ returns r m.
Proof.
  intros Hr. destruct (run_dinv n) as (A & D & U & W & Hi). rewrite (ri_reqs _ _ _ _ _ (di_ring _ _ _ _ _ Hi)) in Hr.
  assert (Ha : forall m, (n <= m)%nat -> acknowledged r m -> exists m, (n <= m)%nat /\ returns r m).
  { intros m Hm (m' & Hm' & H)%acked_returns. exists m'. split; [lia|done]. }
  assert (Hu : forall m, (n <= m)%nat -> at_used r m -> exists m, (n <= m)%nat /\ returns r m).
  { intros m Hm (m' & Hm' & H)%used_acked. apply (Ha m'); [lia|done]. }
  assert (Hd : forall m, (n <= m)%nat -> at_device r m -> exists m, (n <= m)%nat /\ returns r m).
  { intros m Hm (m' & Hm' & H)%device_completes. apply (Hu m'); [lia|done]. }
  rewrite !elem_of_app in Hr. destruct Hr as [H|[H|[H|H]]].
  - apply list_elem_of_lookup in H as [k Hk]. destruct (queued_taken r k n) as (m & Hm & H); [by eexists _, _, _, _|eauto].
  - apply (Hd n); [done|]. by eexists _, _, _, _.
  - apply (Hu n); [done|]. by eexists _, _, _, _.
  - apply (Ha n); [done|]. by eexists _, _, _, _.
Qed.

(** With less than two requests under way there are three descriptors, and everyone who waits for some is to run. *)
Definition room (m : nat) : Prop :=
  (exists i0 i1 i2 s', alloc3_desc ((st m) <| held := [L_vdisk] |>) = Ok (Some [i0; i1; i2]) s') /\
  forall w, w ∈ waiters (run m) -> runnable (w_proc w) (st m).

Lemma room_ok m : (length (reqs (sys (run m))) < 2)%nat -> room m.
Proof.
  intros Hl. destruct (run_dinv m) as (A & D & U & W & Hi). unfold room, st. split.
  - pose proof (di_ring _ _ _ _ _ Hi) as Hr. destruct (run m) as [[s tk bz rs] ws]. cbn [sys ks reqs] in *.
    assert (Hr' : ring_inv (Sys (s <| held := [L_vdisk] |>) tk bz rs) A D U W).
    { eapply inv_same; [done|apply same_rings_refl| |done|done]. apply vdisk_plock; [apply (ri_plock _ _ _ _ _ Hr)|done]. }
    destruct (alloc3_ok _ (ri_free_len _ _ _ _ _ Hr') (ri_plock _ _ _ _ _ Hr')) as [(i0 & i1 & i2 & _ & _ & _ & E)|(s' & E & _)].
    + by eexists _, _, _, _.
    + pose proof (alloc3_room _ _ _ _ _ _ Hr' E) as H. cbn in H. lia.
  - intros w Hw. destruct (di_wait _ _ _ _ _ Hi w Hw) as (q & Hq & [Hs|(_ & _ & H)]); [|lia]. unfold runnable. rewrite Hq. cbn. by rewrite Hs.
Qed.

Lemma returns_room r m : returns r m -> room (S m).
Proof.
  intros (Hl & Hr & Hn & _). apply room_ok. destruct (run_dinv m) as (A & D & U & W & Hi).
  pose proof (two_requests _ _ _ _ _ (di_ring _ _ _ _ _ Hi)) as Hcap. pose proof (run_step m) as Hs. rewrite Hl in Hs. revert Hcap Hr Hn Hs. clear.
  generalize (run m), (run (S m)), (By (q_proc r)). intros x y l Hcap Hr Hn Hs.
  destruct Hs as [p b w z s tk bz rs ws [[]] Hmc Ha|p b w sector s tk bz rs ws1 ws2 [[]] _ Ha| |r' z s tk bz rs1 rs2 ws s'| |u v ws Hdev|];
    cbn [tried sys ks reqs] in *; try done; try (by destruct Hn; right).
  - rewrite length_app in *. cbn in *. lia.
  - destruct Hn. by destruct Hdev as [? ? []|].
Qed.

End run.


(** ** A fair run: a request is made, taken, completed, acknowledged and finished *)

Definition a_request : request := Rq 5 0 1 2 0 true (replicate 1024 0).
Definition s_called : kstate :=
  match attempt 5 0 true (u32 (b_blockno zero_buf * (BSIZE / 512))) (on_cpu 5 [L_vdisk] idle_disk) with
  | Some (_, s) => s
  | None => idle_disk
  end.
Definition s_served : kstate :=
  match transfer (mkBlkreq VIRTIO_BLK_T_OUT 0 0) 0 s_called with
  | Some s => s <| vd ::= report 0 0 0 |>
  | None => idle_disk
  end.
Definition s_acked : kstate :=
  match virtio_disk_intr (s_served <| held := [] |>) with Ok _ s => s | _ => idle_disk end.
Definition s_returned : kstate :=
  match (finish_request 0 ;; release L_vdisk) (back 5 s_acked) with Ok _ s => s | _ => idle_disk end.

Definition a_run (n : nat) : dsys :=
  nth n [DSys (Sys s_called 0 [] [a_request]) []; DSys (Sys s_called 1 [0] [a_request]) [];
         DSys (Sys s_served 1 [] [a_request]) []; DSys (Sys s_acked 1 [] [a_request]) []]
    (DSys (Sys s_returned 1 [] []) []).
Definition a_lab (n : nat) : label := nth n [Dev; Dev; Intr; By 5] Other.

Lemma a_called : attempt 5 0 true (u32 (b_blockno zero_buf * (BSIZE / 512))) (on_cpu 5 [L_vdisk] idle_disk) = Some (Some a_request, s_called).
Proof. vm_compute. reflexivity. Qed.

Lemma idle_step s tk :
  length (procs s) = NPROC -> held s = [] -> dstep dev_works Other (DSys (Sys s tk [] []) []) (DSys (Sys s tk [] []) []).
Proof.
  intros Hl Hh. apply d_other; [done|done| |done|by intros ? ? ?%not_elem_of_nil].
  split; [done|]. rewrite Hh. intros i. apply not_elem_of_nil.
Qed.

Lemma a_run_step n : dstep dev_works (a_lab n) (a_run n) (a_run (S n)).
Proof.
  destruct n as [|[|[|[|n]]]]; cbn [a_lab a_run nth].
  - apply d_dev. apply (dev_take s_called 0 [] [a_request] 0); [by vm_compute|by vm_compute].
  - apply d_dev. assert (E : exists s, transfer (mkBlkreq VIRTIO_BLK_T_OUT 0 0) 0 s_called = Some s) by (eexists; vm_compute; reflexivity).
    destruct E as (s & E). replace s_served with (s <| vd ::= report 0 0 0 |>) by (unfold s_served; by rewrite E).
    apply (dev_complete s_called 1 [] 0 [] [a_request] (mkBlkreq VIRTIO_BLK_T_OUT 0 0) 0 0 s); [by vm_compute|done].
  - apply d_intr. vm_compute. reflexivity.
  - apply (d_return _ a_request (zero_buf <| b_disk := false |>) s_acked 1 [] [] [] []); vm_compute; reflexivity.
  - assert (E : dstep dev_works Other (DSys (Sys s_returned 1 [] []) []) (DSys (Sys s_returned 1 [] []) [])).
    { apply (idle_step s_returned 1); vm_compute; reflexivity. }
    by destruct n.
Qed.

Lemma a_run_fair : fair a_run a_lab.
Proof.
  split.
  - eapply d_step; [apply d_init, idle_booted|]. exact (d_call _ 5 0 true zero_buf idle_disk 0 [] [] [] _ idle_may_call a_called).
  - apply a_run_step.
  - intros [|[|[|[|[|n]]]]]; cbn; intros H; [by exists 1%nat; split; [lia|]|destruct H; by vm_compute..].
  - intros n i _. exists (4 + n)%nat. split; [lia|]. destruct n; apply not_elem_of_nil.
  - intros [|[|[|[|[|n]]]]] H; try (by exists 2%nat; split; [lia|]); destruct H; by vm_compute.
  - intros [|[|[|[|[|n]]]]] p Hp _; try (exists 3%nat; split; [lia|]; by apply list_elem_of_singleton in Hp as ->); by apply not_elem_of_nil in Hp.
Qed.

