(* ===== verification/File.v ===== *)
(** kernel/file.c, and [pipealloc] of kernel/pipe.c: open files. *)

From stdpp Require Import prelude gmap strings.
From Stdlib Require Import ZArith Lia.
From S2P Require Import Prelude Bytes Params State Spinlock Sched Kalloc Vm Log Copy Fs Console Pipe.

Local Open Scope Z_scope.
Local Open Scope kernel_scope.

(** [struct stat] has four bytes of padding before its [uint64]; the code does not
    set them, so what is copied out is what was on the kernel stack. *)
Class StackJunk := stat_padding : list Z.

Definition stat_bytes `{StackJunk} (st : stat) : list Z :=
  le_encode 4 (st_dev st) ++ le_encode 4 (st_ino st) ++ le_encode 2 (st_type st) ++
  le_encode 2 (st_nlink st) ++ stat_padding ++ le_encode 8 (st_size st).

(** The first file of the table with no references. *)
Fixpoint find_free_file (fs : list file) (i : nat) : option nat :=
  match fs with
  | [] => None
  | f :: fs' => if f_ref f =? 0 then Some i else find_free_file fs' (S i)
  end.

Definition filealloc : K (option nat) :=
  acquire L_ftable ;;
  fs <- gets ftable ;;
  match find_free_file fs 0 with
  | Some i =>
      updfile i (fun f => f <| f_ref := 1 |>) ;;
      release L_ftable ;;
      ret (Some i)
  | None => release L_ftable ;; ret None
  end.

Definition filedup (i : nat) : K nat :=
  acquire L_ftable ;;
  f <- getfile i ;;
  panic_if (f_ref f <? 1) "filedup" ;;
  updfile i (fun f => f <| f_ref := f_ref f + 1 |>) ;;
  release L_ftable ;;
  ret i.

Section file.
Context {F : Fuel} {L : Linker}.

Definition fileclose (i : nat) : K unit :=
  acquire L_ftable ;;
  f <- getfile i ;;
  panic_if (f_ref f <? 1) "fileclose" ;;
  updfile i (fun f => f <| f_ref := f_ref f - 1 |>) ;;
  ff <- getfile i ;;
  if 0 <? f_ref ff then release L_ftable
  else
    updfile i (fun f => f <| f_ref := 0 |> <| f_type := FD_NONE |>) ;;
    release L_ftable ;;
    match f_type ff with
    | FD_PIPE => pipeclose (f_pipe ff) (f_writable ff)
    | FD_INODE | FD_DEVICE =>
        begin_op ;;
        iput (f_ip ff) ;;
        end_op
    | FD_NONE => ret tt
    end.

Definition filestat `{StackJunk} (i : nat) (addr : Z) : K Z :=
  p <- curproc ;;
  f <- getfile i ;;
  match f_type f with
  | FD_INODE | FD_DEVICE =>
      ilock (f_ip f) ;;
      st <- stati (f_ip f) ;;
      iunlock (f_ip f) ;;
      pr <- getproc p ;;
      r <- copyout (p_pagetable pr) (p_sz pr) addr (stat_bytes st) ;;
      if r <? 0 then ret (-1) else ret 0
  | _ => ret (-1)
  end.

(** The entry of [devsw] for a major number, when it is a valid index. *)
Definition dev_entry (major : Z) : K (option devsw_entry) :=
  if (major <? 0) || (Z.of_nat NDEV <=? major) then ret None
  else d <- gets devsw ;; ret (d !! Z.to_nat major).

Definition fileread (i : nat) (addr n : Z) : K Z :=
  f <- getfile i ;;
  if negb (f_readable f) || (n <? 0) then ret (-1)
  else
    match f_type f with
    | FD_PIPE => piperead (f_pipe f) addr n
    | FD_DEVICE =>
        d <- dev_entry (f_major f) ;;
        match d with
        | Some (mkDevsw (Some Dev_console) _) => consoleread (D_user addr) n
        | _ => ret (-1)
        end
    | FD_INODE =>
        ilock (f_ip f) ;;
        f <- getfile i ;;
        r <- readi (f_ip f) (D_user addr) (f_off f) n ;;
        when (0 <? fst r) (updfile i (fun f => f <| f_off := u32 (f_off f + fst r) |>)) ;;
        iunlock (f_ip f) ;;
        ret (fst r)
    | FD_NONE => panic "fileread"
    end.

(** The most that one transaction may write. *)
Definition write_max : Z := (MAXOPBLOCKS - 1 - 1 - 2) / 2 * BSIZE.

(** The loop of [filewrite] for an inode: the final [i]. *)
Fixpoint filewrite_loop (fuel : nat) (addr i n : Z) (fi : nat) : K Z :=
  if i <? n then
    match fuel with
    | O => no_fuel
    | S fuel' =>
        let n1 := Z.min (n - i) write_max in
        begin_op ;;
        fl <- getfile fi ;;
        ilock (f_ip fl) ;;
        fl <- getfile fi ;;
        r <- writei (f_ip fl) (S_user (u64 (addr + i))) (f_off fl) n1 ;;
        when (0 <? r) (updfile fi (fun x => x <| f_off := u32 (f_off x + r) |>)) ;;
        iunlock (f_ip fl) ;;
        end_op ;;
        if negb (r =? n1) then ret i
        else filewrite_loop fuel' addr (i + r) n fi
    end
  else ret i.

Definition filewrite (i : nat) (addr n : Z) : K Z :=
  f <- getfile i ;;
  if negb (f_writable f) || (n <? 0) then ret (-1)
  else
    match f_type f with
    | FD_PIPE => pipewrite (f_pipe f) addr n
    | FD_DEVICE =>
        d <- dev_entry (f_major f) ;;
        match d with
        | Some (mkDevsw _ (Some Dev_console)) => consolewrite (S_user addr) n
        | _ => ret (-1)
        end
    | FD_INODE =>
        j <- filewrite_loop (Z.to_nat n) addr 0 n i ;;
        ret (if j =? n then n else -1)
    | FD_NONE => panic "filewrite"
    end.

(** [pipealloc]; the data of a new pipe is what [kalloc] left in the page.  The
    result is the two files. *)
Definition new_pipe : pipe := mkPipe (replicate 512 5) 0 0 true true.

Definition close_opt (f : option nat) : K unit :=
  match f with Some i => fileclose i | None => ret tt end.

Definition pipealloc : K (option (nat * nat)) :=
  f0 <- filealloc ;;
  f1 <- (match f0 with Some _ => filealloc | None => ret None end) ;;
  match f0, f1 with
  | Some i0, Some i1 =>
      pi <- kalloc ;;
      if pi =? 0 then close_opt f0 ;; close_opt f1 ;; ret None
      else
        modify (fun s => s <| pipes := <[pi := new_pipe]> (pipes s) |>) ;;
        updfile i0 (fun f => f <| f_type := FD_PIPE |> <| f_readable := true |>
                               <| f_writable := false |> <| f_pipe := pi |>) ;;
        updfile i1 (fun f => f <| f_type := FD_PIPE |> <| f_readable := false |>
                               <| f_writable := true |> <| f_pipe := pi |>) ;;
        ret (Some (i0, i1))
  | _, _ => close_opt f0 ;; close_opt f1 ;; ret None
  end.

End file.
