(* ===== verification/Proc.v ===== *)
(** The life of a process: kernel/proc.c apart from the scheduler and the wait
    channels, which are in Sched. *)

From stdpp Require Import prelude gmap strings.
From Stdlib Require Import ZArith Lia.
From S2P Require Import Prelude Bytes Params State Spinlock CString Sched Kalloc Vm Log Fs File.

Local Open Scope Z_scope.
Local Open Scope kernel_scope.

(** ** The trap frame (kernel/proc.h): 36 registers of 8 bytes *)

Definition TF_SIZE : Z := 288.
Definition TF_kernel_satp : Z := 0.
Definition TF_kernel_sp : Z := 8.
Definition TF_kernel_trap : Z := 16.
Definition TF_epc : Z := 24.
Definition TF_kernel_hartid : Z := 32.
Definition TF_ra : Z := 40.
Definition TF_sp : Z := 48.
Definition TF_a0 : Z := 112.
Definition TF_a1 : Z := 120.
Definition TF_a2 : Z := 128.
Definition TF_a3 : Z := 136.
Definition TF_a4 : Z := 144.
Definition TF_a5 : Z := 152.
Definition TF_a7 : Z := 168.

Definition tf_get (i : nat) (off : Z) : K Z := p <- getproc i ;; load64 (p_trapframe p + off).
Definition tf_set (i : nat) (off v : Z) : K unit := p <- getproc i ;; store64 (p_trapframe p + off) v.

Definition procinit : K unit :=
  foreach (seq 0 NPROC) (fun i =>
    updproc i (fun p => p <| p_state := UNUSED |> <| p_kstack := KSTACK (Z.of_nat i) |>)).

(** [cpuid()]: the hart number is in [tp]. *)
Definition cpuid : K Z := c <- gets csr ;; ret (s32 (r_tp c)).

Definition allocpid : K Z :=
  acquire L_pid ;;
  pid <- gets nextpid ;;
  modify (fun s => s <| nextpid := s32 (pid + 1) |>) ;;
  release L_pid ;;
  ret pid.

(** A store to one element of a process's file table. *)
Definition set_ofile (i : nat) (fd : Z) (f : option nat) : K unit :=
  updproc i (fun p => p <| p_ofile := <[Z.to_nat fd := f]> (p_ofile p) |>).

Section proc.
Context {F : Fuel} {L : Linker}.

Definition proc_pagetable (i : nat) : K Z :=
  pagetable <- uvmcreate ;;
  if pagetable =? 0 then ret 0
  else
    r <- mappages pagetable TRAMPOLINE PGSIZE trampoline (Z.lor PTE_R PTE_X) ;;
    if r <? 0 then uvmfree pagetable 0 ;; ret 0
    else
      p <- getproc i ;;
      r <- mappages pagetable TRAPFRAME PGSIZE (p_trapframe p) (Z.lor PTE_R PTE_W) ;;
      if r <? 0 then
        uvmunmap pagetable TRAMPOLINE 1 false ;;
        uvmfree pagetable 0 ;;
        ret 0
      else ret pagetable.

Definition proc_freepagetable (pagetable sz : Z) : K unit :=
  uvmunmap pagetable TRAMPOLINE 1 false ;;
  uvmunmap pagetable TRAPFRAME 1 false ;;
  uvmfree pagetable sz.

Definition freeproc (i : nat) : K unit :=
  p <- getproc i ;;
  when (negb (p_trapframe p =? 0)) (kfree (p_trapframe p)) ;;
  updproc i (fun p => p <| p_trapframe := 0 |>) ;;
  when (negb (p_pagetable p =? 0)) (proc_freepagetable (p_pagetable p) (p_sz p)) ;;
  updproc i (fun p => p <| p_pagetable := 0 |> <| p_sz := 0 |> <| p_pid := 0 |>
                        <| p_name ::= <[0%nat := 0]> |> <| p_chan := None |>
                        <| p_killed := false |> <| p_xstate := 0 |> <| p_state := UNUSED |>).

(** The first loop of [allocproc]: an UNUSED entry, with its lock held. *)
Fixpoint find_unused_proc (idx : list nat) : K (option nat) :=
  match idx with
  | [] => ret None
  | i :: idx' =>
      acquire (L_proc i) ;;
      p <- getproc i ;;
      if decide (p_state p = UNUSED) then ret (Some i)
      else release (L_proc i) ;; find_unused_proc idx'
  end.

Definition allocproc : K (option nat) :=
  r <- find_unused_proc (seq 0 NPROC) ;;
  match r with
  | None => ret None
  | Some i =>
      pid <- allocpid ;;
      updproc i (fun p => p <| p_pid := pid |> <| p_state := USED |>) ;;
      tf <- kalloc ;;
      updproc i (fun p => p <| p_trapframe := tf |>) ;;
      if tf =? 0 then freeproc i ;; release (L_proc i) ;; ret None
      else
        pt <- proc_pagetable i ;;
        updproc i (fun p => p <| p_pagetable := pt |>) ;;
        if pt =? 0 then freeproc i ;; release (L_proc i) ;; ret None
        else
          updproc i (fun p => p <| p_context := mkContext forkret_addr (u64 (p_kstack p + PGSIZE))
                                                  (replicate 12 0) |>) ;;
          ret (Some i)
  end.

Definition userinit : K unit :=
  r <- allocproc ;;
  modify (fun s => s <| initproc := r |>) ;;
  match r with
  | None => fault
  | Some i =>
      cwd <- namei (str "/") ;;
      updproc i (fun p => p <| p_cwd := cwd |> <| p_state := RUNNABLE |>) ;;
      release (L_proc i)
  end.

Definition growproc (n : Z) : K Z :=
  i <- curproc ;;
  p <- getproc i ;;
  let sz := p_sz p in
  if 0 <? n then
    if TRAPFRAME <? u64 (sz + n) then ret (-1)
    else
      sz <- uvmalloc (p_pagetable p) sz (u64 (sz + n)) PTE_W ;;
      if sz =? 0 then ret (-1)
      else updproc i (fun p => p <| p_sz := sz |>) ;; ret 0
  else
    sz <- (if n <? 0 then uvmdealloc (p_pagetable p) sz (u64 (sz + n)) else ret sz) ;;
    updproc i (fun p => p <| p_sz := sz |>) ;;
    ret 0.

(** The loop of [kfork] that duplicates the open files. *)
Definition dup_file (i np : nat) (fd : Z) : K unit :=
  p <- getproc i ;;
  match p_ofile p !! Z.to_nat fd with
  | Some (Some f) => f' <- filedup f ;; set_ofile np fd (Some f')
  | _ => ret tt
  end.

Definition kfork : K Z :=
  i <- curproc ;;
  r <- allocproc ;;
  match r with
  | None => ret (-1)
  | Some np =>
      p <- getproc i ;;
      q <- getproc np ;;
      r <- uvmcopy (p_pagetable p) (p_pagetable q) (p_sz p) ;;
      if r <? 0 then freeproc np ;; release (L_proc np) ;; ret (-1)
      else
        updproc np (fun q => q <| p_sz := p_sz p |>) ;;
        kmemmove (p_trapframe q) (p_trapframe p) TF_SIZE ;;
        tf_set np TF_a0 0 ;;
        foreach (seqZ 0 (Z.of_nat NOFILE)) (dup_file i np) ;;
        cwd <- (match p_cwd p with Some c => idup c | None => fault end) ;;
        updproc np (fun q => q <| p_cwd := Some cwd |>
                               <| p_name ::= blit 0 (safestrcpy (p_name p) 16) |>) ;;
        q <- getproc np ;;
        let pid := p_pid q in
        release (L_proc np) ;;
        acquire L_wait ;;
        updproc np (fun q => q <| p_parent := Some i |>) ;;
        release L_wait ;;
        acquire (L_proc np) ;;
        updproc np (fun q => q <| p_state := RUNNABLE |>) ;;
        release (L_proc np) ;;
        ret pid
  end.

Definition reparent (i : nat) : K unit :=
  foreach (seq 0 NPROC) (fun j =>
    q <- getproc j ;;
    when (bool_decide (p_parent q = Some i))
      (ip <- gets initproc ;;
       updproc j (fun q => q <| p_parent := ip |>) ;;
       wakeup (Ch_proc <$> ip))).

(** The loop of [kexit] that closes the open files. *)
Definition close_file (i : nat) (fd : Z) : K unit :=
  p <- getproc i ;;
  match p_ofile p !! Z.to_nat fd with
  | Some (Some f) => fileclose f ;; set_ofile i fd None
  | _ => ret tt
  end.

Definition kexit (status : Z) : K unit :=
  i <- curproc ;;
  ip <- gets initproc ;;
  panic_if (bool_decide (ip = Some i)) "init exiting" ;;
  foreach (seqZ 0 (Z.of_nat NOFILE)) (close_file i) ;;
  begin_op ;;
  p <- getproc i ;;
  (match p_cwd p with Some c => iput c | None => fault end) ;;
  end_op ;;
  updproc i (fun p => p <| p_cwd := None |>) ;;
  acquire L_wait ;;
  reparent i ;;
  p <- getproc i ;;
  wakeup (Ch_proc <$> p_parent p) ;;
  acquire (L_proc i) ;;
  updproc i (fun p => p <| p_xstate := status |> <| p_state := ZOMBIE |>) ;;
  release L_wait ;;
  sched ;;
  panic "zombie exit".

(** One scan of the process table by [kwait]: the value to return, or whether the
    process has children. *)
Fixpoint kwait_scan (idx : list nat) (i : nat) (addr : Z) (havekids : bool) : K (Z + bool) :=
  match idx with
  | [] => ret (inr havekids)
  | j :: idx' =>
      q <- getproc j ;;
      if bool_decide (p_parent q = Some i) then
        acquire (L_proc j) ;;
        q <- getproc j ;;
        if decide (p_state q = ZOMBIE) then
          p <- getproc i ;;
          r <- (if addr =? 0 then ret 0
                else copyout (p_pagetable p) (p_sz p) addr (le_encode 4 (p_xstate q))) ;;
          if r <? 0 then
            release (L_proc j) ;;
            release L_wait ;;
            ret (inl (-1))
          else
            updproc j (fun q => q <| p_parent := None |>) ;;
            freeproc j ;;
            release (L_proc j) ;;
            release L_wait ;;
            ret (inl (p_pid q))
        else release (L_proc j) ;; kwait_scan idx' i addr true
      else kwait_scan idx' i addr havekids
  end.

Fixpoint kwait_loop (fuel : nat) (i : nat) (addr : Z) : K Z :=
  r <- kwait_scan (seq 0 NPROC) i addr false ;;
  match r with
  | inl v => ret v
  | inr havekids =>
      k <- (if (havekids : bool) then killed i else ret true) ;;
      if (k : bool) then release L_wait ;; ret (-1)
      else
        match fuel with
        | O => no_fuel
        | S n =>
            sleep_prepare (Some (Ch_proc i)) ;;
            release L_wait ;;
            sleep ;;
            acquire L_wait ;;
            kwait_loop n i addr
        end
  end.

Definition kwait (addr : Z) : K Z :=
  i <- curproc ;;
  acquire L_wait ;;
  kwait_loop sleep_fuel i addr.

End proc.
