(* ===== verification/Space.v ===== *)
(** Address spaces of processes, from [proc_pagetable] to [proc_freepagetable] (kernel/proc.c, kernel/vm.c):
    every page that a process had goes back to the free list. *)

From stdpp Require Import prelude gmap strings.
From Stdlib Require Import ZArith Lia.
From S2P Require Import Prelude Bytes Params State Spinlock CString Kalloc Vm PageTable User Uvm Proc.

Local Open Scope Z_scope.
Local Open Scope kernel_scope.

Section space.
Context {L : Linker} {LOk : LinkerOk L}.

(** ** Giving pages back *)

(** From [s] with the free pages [ps] to [s'] with [ps']: the pages [fr] have been freed; pages outside of [ps] and [own] are
    as they were. *)
Record frees (s : kstate) (ps own : list Z) (s' : kstate) (ps' fr : list Z) : Prop := {
  fr_only : s' = s <| mem := mem s' |> <| freelist := freelist s' |>;
  fr_inv : kmem_inv s' ps';
  fr_free : ps' ≡ₚ fr ++ ps;
  fr_frame : forall q, valid_page q -> q ∉ ps -> q ∉ own -> same_page (mem s) (mem s') q;
  fr_mapped : forall q, page_mapped (mem s) q -> page_mapped (mem s') q;
}.

Lemma frees_held s ps own s' ps' fr : frees s ps own s' ps' fr -> held s' = held s.
Proof. intros H. rewrite (fr_only _ _ _ _ _ _ H). by rs. Qed.

Lemma frees_refl s ps own : kmem_inv s ps -> frees s ps own s ps [].
Proof. intros H. split; try done. by destruct s. Qed.

Lemma frees_trans s ps own s1 ps1 fr1 s2 ps2 fr2 :
  frees s ps own s1 ps1 fr1 -> frees s1 ps1 own s2 ps2 fr2 -> fr1 ⊆ own -> frees s ps own s2 ps2 (fr2 ++ fr1).
Proof.
  intros F1 F2 Hsub. split.
  - rewrite (fr_only _ _ _ _ _ _ F2), (fr_only _ _ _ _ _ _ F1) at 1. rs. st_eq s.
  - apply F2.
  - rewrite (fr_free _ _ _ _ _ _ F2), (fr_free _ _ _ _ _ _ F1). by rewrite app_assoc.
  - intros q Hq H1 H2. eapply same_page_trans; [by apply F1|]. apply F2; [done| |done].
    rewrite (fr_free _ _ _ _ _ _ F1), elem_of_app. intros [?|?]; [|done]. by apply H2, Hsub.
  - intros q Hq. by apply F2, F1.
Qed.

Lemma frees_weaken s ps own own' s' ps' fr : own ⊆ own' -> frees s ps own s' ps' fr -> frees s ps own' s' ps' fr.
Proof. intros Hs [H1 H2 H3 H4 H5]. split; try done. intros q Hq Hps Ho. apply H4; try done. intros ?. by apply Ho, Hs. Qed.

Lemma frees_perm s ps own s' ps' fr fr' : fr ≡ₚ fr' -> frees s ps own s' ps' fr -> frees s ps own s' ps' fr'.
Proof. intros Hp [H1 H2 H3 H4 H5]. split; try done. by rewrite <- Hp. Qed.

Lemma kfree_frees s ps p : kmem_inv s ps -> L_kmem ∉ held s -> valid_page p -> page_mapped (mem s) p -> p ∉ ps ->
  exists s', kfree p s = Ok tt s' /\ frees s ps [p] s' (p :: ps) [p].
Proof.
  intros HK Hl Hv Hm Hp. eexists. split; [by apply kfree_ok|]. split; rs.
  - st_eq s.
  - by apply kmem_inv_kfree.
  - done.
  - intros q Hq _ Hne. apply kfree_mem_frame; try done. intros ->. apply Hne. by left.
  - intros q Hq. by apply mapped_kfree_mem.
Qed.

(** A store into a page that is not free. *)
Lemma store_frees s ps p i v : kmem_inv s ps -> valid_page p -> page_mapped (mem s) p -> p ∉ ps -> 0 <= i < 512 ->
  exists s', store64 (p + 8 * i) v s = Ok tt s' /\ frees s ps [p] s' ps [] /\
    mem s' = store_bytes (mem s) (p + 8 * i) (le_encode 8 v).
Proof.
  intros HK Hv Hm Hp Hi. exists (s <| mem := store_bytes (mem s) (p + 8 * i) (le_encode 8 v) |>). split.
  { apply store64_ok. eapply mapped_sub; [exact Hm|..]; cbn; lia. }
  split; [split; rs|by rs].
  - st_eq s.
  - unfold kmem_inv. rs. apply (kmem_at_store _ _ _ _ _ p); try done; rewrite ?length_le_encode; lia.
  - done.
  - intros q Hq _ Hne. apply valid_pages_aligned_frame; try done; rewrite ?length_le_encode; try lia. intros ->. apply Hne. by left.
  - intros q Hq. by apply mapped_store.
Qed.

(** ** [freewalk] *)

(** A table page [p] with [d] levels below and including it, of which [pages] are all the table pages, and in which no entry of the last level is valid. *)
Definition kid_pages (o : option (Z * list Z)) : list Z := match o with Some (_, qs) => qs | None => [] end.

Fixpoint subtree (d : nat) (m : memory) (p : Z) (pages : list Z) : Prop :=
  match d with
  | O => False
  | S d' => exists kids : list (option (Z * list Z)), length kids = 512%nat /\ pages = p :: (kids ≫= kid_pages) /\
      forall i o, kids !! i = Some o ->
        match o with
        | Some (q, qs) => word m (p + 8 * Z.of_nat i) = Z.lor (PA2PTE q) PTE_V /\ subtree d' m q qs
        | None => has_flag (word m (p + 8 * Z.of_nat i)) PTE_V = false
        end
  end.

Lemma subtree_root d m p pages : subtree d m p pages -> p ∈ pages.
Proof. destruct d; [done|]. intros (kids & _ & -> & _). by left. Qed.

Lemma subtree_frame m m' : forall d p pages, (forall q, q ∈ pages -> same_page m m' q) -> subtree d m p pages -> subtree d m' p pages.
Proof.
  induction d as [|d IH]; [done|]. intros p pages Hs (kids & Hl & -> & Hk). exists kids. split_and!; [done..|].
  intros i o Ho. specialize (Hk i o Ho). pose proof (lookup_lt_Some _ _ _ Ho) as Hi.
  assert (Ew : word m' (p + 8 * Z.of_nat i) = word m (p + 8 * Z.of_nat i)) by (apply same_page_word; [apply Hs; by left|lia]).
  destruct o as [[q qs]|]; rewrite Ew; [|done]. destruct Hk as [Hw Hsub]. split; [done|]. apply IH; [|done].
  intros r Hr. apply Hs. right. apply list_elem_of_bind. exists (Some (q, qs)). split; [done|]. by eapply list_elem_of_lookup_2.
Qed.

Lemma table_entry q : valid_page q -> let v := Z.lor (PA2PTE q) PTE_V in
  has_flag v PTE_V && (Z.land v (Z.lor (Z.lor PTE_R PTE_W) PTE_X) =? 0) = true /\ PTE2PA v = q.
Proof.
  intros Hq v. destruct (table_pte q Hq) as (E1 & E2 & _). unfold v. rewrite E1, E2. split; [|done].
  apply Z.eqb_eq. apply Z.bits_inj_0. intros n. rewrite Z.land_spec, Z.lor_spec.
  destruct (decide (0 <= n < 10)) as [Hn|Hn].
  - unfold PA2PTE, wrap. rewrite Z.mod_pow2_bits_low, Z.shiftl_spec_low by lia. cbn [orb].
    assert (Hz : Forall (fun n => Z.testbit PTE_V n && Z.testbit (Z.lor (Z.lor PTE_R PTE_W) PTE_X) n = false) (seqZ 0 10)) by (by compute_done).
    rewrite Forall_forall in Hz. apply Hz, elem_of_seqZ. lia.
  - assert (Ht : Z.testbit (Z.lor (Z.lor PTE_R PTE_W) PTE_X) n = false).
    { destruct (decide (n < 0)); [by rewrite Z.testbit_neg_r by lia|]. apply (Z.bits_above_log2); [done|].
      change (Z.log2 (Z.lor (Z.lor PTE_R PTE_W) PTE_X)) with 3. lia. }
    by rewrite Ht, andb_false_r.
Qed.

(** The pages [own] are table pages in memory, apart from the free ones. *)
Record table_pages (s : kstate) (ps own : list Z) : Prop := {
  tp_inv : kmem_inv s ps;
  tp_lock : L_kmem ∉ held s;
  tp_nodup : NoDup own;
  tp_ok : forall q, q ∈ own -> valid_page q /\ page_mapped (mem s) q /\ q ∉ ps;
}.

#[local] Instance table_pages_perm s ps : Proper ((≡ₚ) ==> impl) (table_pages s ps).
Proof. intros l1 l2 Hp [H1 H2 H3 H4]. split; [done|done|by rewrite <- Hp|]. intros q Hq. apply H4. by rewrite Hp. Qed.

(** What [freewalk] does with a table of [d] levels. *)
Definition freewalk_spec (d : nat) : Prop :=
  forall s ps p pages, table_pages s ps pages -> subtree d (mem s) p pages ->
    exists s' ps', freewalk d p s = Ok tt s' /\ frees s ps pages s' ps' pages.

(** After some pages have been freed, the others are still there. *)
Lemma table_pages_frees s ps own s' ps' fr : frees s ps own s' ps' fr -> forall rest,
  table_pages s ps (fr ++ rest) -> table_pages s' ps' rest.
Proof.
  intros F rest [H1 H2 H3 H4]. apply NoDup_app in H3 as (_ & Hd & Hr). split.
  - apply F.
  - by rewrite (frees_held _ _ _ _ _ _ F).
  - done.
  - intros q Hq. destruct (H4 q) as (Hv & Hm & Hps); [apply elem_of_app; by right|]. split_and!; [done|by apply F|].
    rewrite (fr_free _ _ _ _ _ _ F), elem_of_app. intros [Hf|?]; [|done]. by apply (Hd q).
Qed.

(** One round of the loop. *)
Definition free_entry (d : nat) (p : Z) (i : nat) : K unit :=
  let a := p + 8 * Z.of_nat i in
  pte <- load64 a ;;
  if has_flag pte PTE_V && (Z.land pte (Z.lor (Z.lor PTE_R PTE_W) PTE_X) =? 0) then
    freewalk d (PTE2PA pte) ;; store64 a 0
  else panic_if (has_flag pte PTE_V) "freewalk: leaf".

Lemma free_entry_none d p i s : page_mapped (mem s) p -> (i < 512)%nat ->
  has_flag (word (mem s) (p + 8 * Z.of_nat i)) PTE_V = false -> free_entry d p i s = Ok tt s.
Proof.
  intros Hm Hi Hw. unfold free_entry. cbn zeta. erewrite bind_ok by (apply load64_word; eapply mapped_sub; [exact Hm|lia|lia]).
  by rewrite Hw.
Qed.

Lemma free_entry_some d p i s ps q qs : freewalk_spec d -> table_pages s ps (p :: qs) -> (i < 512)%nat ->
  word (mem s) (p + 8 * Z.of_nat i) = Z.lor (PA2PTE q) PTE_V -> subtree d (mem s) q qs ->
  exists s' ps', free_entry d p i s = Ok tt s' /\ frees s ps (p :: qs) s' ps' qs /\
    forall j, (i < j < 512)%nat -> word (mem s') (p + 8 * Z.of_nat j) = word (mem s) (p + 8 * Z.of_nat j).
Proof.
  intros Hd Ht Hi Hw Hsub. destruct (tp_ok _ _ _ Ht p) as (Hvp & Hmp & Hpp); [by left|].
  destruct (tp_ok _ _ _ Ht q) as (Hvq & _ & _); [right; by eapply subtree_root|].
  assert (Htq : table_pages s ps qs).
  { destruct Ht as [H1 H2 H3 H4]. split; [done|done|by apply NoDup_cons in H3 as [_ ?]|]. intros r Hr. apply H4. by right. }
  destruct (Hd s ps q qs Htq Hsub) as (s1 & ps1 & E1 & F1).
  assert (Hpp1 : p ∉ ps1).
  { rewrite (fr_free _ _ _ _ _ _ F1), elem_of_app. intros [?|?]; [|done]. by destruct (proj1 (NoDup_cons _ _) (tp_nodup _ _ _ Ht)). }
  destruct (store_frees s1 ps1 p (Z.of_nat i) 0) as (s2 & E2 & F2 & Em); [apply F1|done|by apply F1|done|lia|].
  exists s2, ps1. split_and!.
  - unfold free_entry. cbn zeta. erewrite bind_ok by (apply load64_word; eapply mapped_sub; [exact Hmp|lia|lia]).
    rewrite Hw. destruct (table_entry q Hvq) as [-> ->]. by run E1.
  - rewrite <- (app_nil_l qs) at 2. eapply frees_trans; [eapply frees_weaken; [|exact F1]|eapply frees_weaken; [|exact F2]|]; set_solver.
  - intros j Hj. rewrite Em, word_store_other by (rewrite length_le_encode; lia). apply same_page_word; [|lia].
    apply F1; [done|done|]. by destruct (proj1 (NoDup_cons _ _) (tp_nodup _ _ _ Ht)).
Qed.

Lemma freewalk_entries d p : freewalk_spec d -> forall kids k s ps,
  (k + length kids = 512)%nat -> table_pages s ps (p :: (kids ≫= kid_pages)) ->
  (forall i o, kids !! i = Some o ->
     match o with
     | Some (q, qs) => word (mem s) (p + 8 * Z.of_nat (k + i)) = Z.lor (PA2PTE q) PTE_V /\ subtree d (mem s) q qs
     | None => has_flag (word (mem s) (p + 8 * Z.of_nat (k + i))) PTE_V = false
     end) ->
  exists s' ps', foreach (seq k (length kids)) (free_entry d p) s = Ok tt s' /\
    frees s ps (p :: (kids ≫= kid_pages)) s' ps' (kids ≫= kid_pages).
Proof.
  intros Hd. induction kids as [|o kids IH]; intros k s ps Hlen Ht Hk.
  { exists s, ps. split; [done|]. apply frees_refl, Ht. }
  cbn [length seq foreach mbind list_bind] in *. destruct (tp_ok _ _ _ Ht p) as (Hvp & Hmp & Hpp); [by left|].
  pose proof (Hk 0%nat o eq_refl) as Ho. rewrite Nat.add_0_r in Ho.
  destruct o as [[q qs]|]; cbn [kid_pages app] in *.
  2: { destruct (IH (S k) s ps) as (s' & ps' & E & F); [lia|done| |].
       - intros i o' Ho'. specialize (Hk (S i) o' Ho'). by rewrite Nat.add_succ_r in Hk.
       - exists s', ps'. split; [|done]. by run (free_entry_none d p k s Hmp ltac:(lia) Ho). }
  destruct Ho as [Hw Hsub]. set (rest := kids ≫= kid_pages) in *.
  assert (Hnd : NoDup (p :: qs ++ rest)) by apply Ht.
  assert (Htq : table_pages s ps (p :: qs)).
  { destruct Ht as [H1 H2 H3 H4]. split; [done|done| |intros r Hr; apply H4; set_solver].
    apply NoDup_cons in H3 as [Hn H3]. apply NoDup_app in H3 as (H3 & _ & _). apply NoDup_cons. set_solver. }
  destruct (free_entry_some d p k s ps q qs Hd Htq ltac:(lia) Hw Hsub) as (s1 & ps1 & E1 & F1 & Hw1).
  assert (Ht1 : table_pages s1 ps1 (p :: rest)).
  { eapply table_pages_frees; [exact F1|]. destruct Ht as [H1 H2 H3 H4]. split; [done|done| |intros r Hr; apply H4; set_solver].
    by rewrite <- Permutation_middle. }
  destruct (IH (S k) s1 ps1) as (s' & ps' & E & F); [lia|done| |].
  { intros i o' Ho'. specialize (Hk (S i) o' Ho'). rewrite Nat.add_succ_r in Hk. cbn [Nat.add].
    pose proof (lookup_lt_Some _ _ _ Ho') as Hi. rewrite Hw1 by lia. destruct o' as [[r rs]|]; [|done].
    destruct Hk as [Hk1 Hk2]. split; [done|]. eapply subtree_frame; [|exact Hk2]. intros x Hx.
    assert (x ∈ rest) by (apply list_elem_of_bind; exists (Some (r, rs)); split; [done|]; by eapply list_elem_of_lookup_2).
    destruct (tp_ok _ _ _ Ht x) as (? & _ & ?); [set_solver|]. apply F1; [done|done|].
    apply NoDup_cons in Hnd as [? Hnd]. apply NoDup_app in Hnd as (_ & Hnd & _). set_solver. }
  exists s', ps'. split; [by run E1|].
  assert (Hp : rest ++ qs ≡ₚ qs ++ rest) by apply Permutation_app_comm.
  apply (frees_perm _ _ _ _ _ _ _ Hp). eapply frees_trans; [eapply frees_weaken; [|exact F1]|eapply frees_weaken; [|exact F]|]; set_solver.
Qed.

Lemma freewalk_ok d : freewalk_spec d.
Proof.
  induction d as [|d IH]; intros s ps p pages Ht Hsub; [done|]. destruct Hsub as (kids & Hl & -> & Hk).
  destruct (freewalk_entries d p IH kids 0 s ps Hl Ht Hk) as (s1 & ps1 & E1 & F1). rewrite Hl in E1.
  assert (Ht1 : table_pages s1 ps1 [p]) by (eapply table_pages_frees; [exact F1|]; by rewrite Permutation_app_comm).
  destruct (tp_ok _ _ _ Ht1 p) as (Hv & Hm & Hp); [by left|].
  destruct (kfree_frees s1 ps1 p) as (s2 & E2 & F2); [apply Ht1|apply Ht1|done..|].
  exists s2, (p :: ps1). split; [exact (eq_trans (bind_ok _ _ _ _ _ E1) E2)|].
  clear E1 E2 Hk Hl IH. set (own := kids ≫= kid_pages) in *. change (p :: own) with ([p] ++ own) in *. eapply frees_trans; [exact F1| |by apply list_subseteq_app_r].
  eapply frees_weaken; [|exact F2]. by apply list_subseteq_app_l.
Qed.

(** ** The table pages of an address space *)

(** The indices of a table page. *)
Definition entries : list Z := seqZ 0 512.

Lemma elem_of_entries i : i ∈ entries <-> 0 <= i < 512.
Proof. unfold entries. rewrite elem_of_seqZ. lia. Qed.

Lemma length_entries : length entries = 512%nat.
Proof. done. Qed.

Lemma NoDup_entries : NoDup entries.
Proof. apply NoDup_seqZ. Qed.

(** No entry of the last level is valid. *)
Definition no_leaves (m : memory) (t : ptree) : Prop := forall va, 0 <= va < MAXVA -> valid (leaf m t va) = false.

Definition l0_kid (t : ptree) (i j : Z) : option (Z * list Z) := (fun q => (q, [q])) <$> pt_l0 t !! (i, j).

Definition l1_kid (t : ptree) (i : Z) : option (Z * list Z) :=
  (fun p => (p, p :: ((l0_kid t i <$> entries) ≫= kid_pages))) <$> pt_l1 t !! i.

(** The table pages in the order in which [freewalk] meets them. *)
Definition walk_pages (t : ptree) : list Z := pt_root t :: ((l1_kid t <$> entries) ≫= kid_pages).

Lemma entries_lookup {A} (f : Z -> A) i o : (f <$> entries) !! i = Some o -> 0 <= Z.of_nat i < 512 /\ o = f (Z.of_nat i).
Proof.
  rewrite list_lookup_fmap. intros (x & Hx & ->)%fmap_Some. unfold entries in Hx. apply lookup_seqZ in Hx as [-> Hi]. split; [lia|done].
Qed.

Lemma va_of i j k : 0 <= i < 256 -> 0 <= j < 512 -> 0 <= k < 512 ->
  exists va, 0 <= va < MAXVA /\ PX 2 va = i /\ PX 1 va = j /\ PX 0 va = k.
Proof.
  intros Hi Hj Hk. exists (((i * 512 + j) * 512 + k) * 4096). change MAXVA with (256 * 2 ^ 30). split; [lia|].
  rewrite !PX_div by lia. change (2 ^ (12 + 9 * 0)) with 4096. change (2 ^ (12 + 9 * 1)) with (4096 * 512).
  change (2 ^ (12 + 9 * 2)) with (4096 * (512 * 512)). rewrite <- !Z.div_div, !Z.div_mul by lia.
  rewrite (Z.div_add_l (i * 512 + j)), (Z.div_small k), Z.add_0_r by lia.
  rewrite (Z.div_add_l i), (Z.div_small j), Z.add_0_r by lia. split_and!.
  - by apply Z.mod_small; lia.
  - rewrite Z.add_comm, Z.mod_add by lia. by apply Z.mod_small.
  - rewrite Z.add_comm, Z.mod_add by lia. by apply Z.mod_small.
Qed.

#[local] Opaque entries.

Section table.
Context (m : memory) (t : ptree).
Hypothesis HT : pt_inv m t.

Lemma l0_subtree i j q : no_leaves m t -> pt_l0 t !! (i, j) = Some q -> subtree 1 m q [q].
Proof.
  intros Hno Hq. exists (replicate 512 None). split_and!; [done|by vm_compute|]. intros k o Hk.
  apply lookup_replicate in Hk as [-> Hk]. destruct (pt_dom _ _ HT _ _ _ Hq) as [[p Hp] Hj].
  destruct (va_of i j (Z.of_nat k)) as (va & Hva & <- & <- & E0); [by eapply pt_low|done|lia|].
  specialize (Hno va Hva). unfold leaf, pte_addr in Hno. rewrite Hq in Hno. cbn in Hno. by rewrite E0 in Hno.
Qed.

Lemma l1_subtree i p qs : no_leaves m t -> l1_kid t i = Some (p, qs) -> subtree 2 m p qs.
Proof.
  intros Hno (x & Hp & [= -> ->])%fmap_Some. eexists. split; [|split; [reflexivity|]].
  { by rewrite length_fmap, length_entries. }
  intros j o [Hj ->]%entries_lookup. unfold l0_kid. pose proof (pt_level1 _ _ HT _ _ _ Hp Hj) as P.
  destruct (pt_l0 t !! (i, Z.of_nat j)) as [q|] eqn:Eq; cbn [fmap option_fmap option_map]; [|done].
  split; [done|by eapply l0_subtree].
Qed.

Lemma root_subtree : no_leaves m t -> subtree 3 m (pt_root t) (walk_pages t).
Proof.
  intros Hno. eexists. split; [|split; [reflexivity|]].
  { by rewrite length_fmap, length_entries. }
  intros i o [Hi ->]%entries_lookup. pose proof (pt_level2 _ _ HT _ Hi) as P.
  destruct (l1_kid t (Z.of_nat i)) as [[p qs]|] eqn:Ek.
  - split; [|by eapply l1_subtree]. apply fmap_Some in Ek as (x & Hp & [= -> ->]). by rewrite Hp in P.
  - apply fmap_None in Ek. by rewrite Ek in P.
Qed.

Lemma elem_of_l0 i q : q ∈ ((l0_kid t i <$> entries) ≫= kid_pages) <-> exists j, pt_l0 t !! (i, j) = Some q.
Proof.
  rewrite list_elem_of_bind. split.
  - intros (o & Hq & (j & -> & _)%list_elem_of_fmap). exists j. unfold l0_kid in Hq.
    destruct (pt_l0 t !! (i, j)); [|by apply not_elem_of_nil in Hq]. by apply list_elem_of_singleton in Hq as ->.
  - intros (j & Hj). destruct (pt_dom _ _ HT _ _ _ Hj) as [_ Hr]. exists (l0_kid t i j). unfold l0_kid at 1. rewrite Hj. split; [by left|].
    apply list_elem_of_fmap. exists j. split; [done|]. by apply elem_of_entries.
Qed.

Lemma elem_of_l1 i q : q ∈ kid_pages (l1_kid t i) <-> pt_l1 t !! i = Some q \/ exists j, pt_l0 t !! (i, j) = Some q.
Proof.
  unfold l1_kid. destruct (pt_l1 t !! i) as [p|] eqn:Ep; cbn [fmap option_fmap option_map kid_pages].
  - rewrite elem_of_cons, elem_of_l0. split; (intros [Hp|?]; [left|by right]); congruence.
  - split; [by intros ?%not_elem_of_nil|]. intros [?|(j & Hj)]; [done|].
    destruct (pt_dom _ _ HT _ _ _ Hj) as [[? ?] _]. congruence.
Qed.

Lemma elem_of_walk_pages q : q ∈ walk_pages t <->
  q = pt_root t \/ exists i, 0 <= i < 512 /\ (pt_l1 t !! i = Some q \/ exists j, pt_l0 t !! (i, j) = Some q).
Proof.
  unfold walk_pages. rewrite elem_of_cons, list_elem_of_bind. f_equiv. split.
  - intros (o & Hq & (i & -> & Hi)%list_elem_of_fmap). exists i. by rewrite <- elem_of_l1, <- elem_of_entries.
  - intros (i & Hi & Hq). exists (l1_kid t i). rewrite elem_of_l1. split; [done|]. apply list_elem_of_fmap. exists i.
    by rewrite elem_of_entries.
Qed.

Lemma walk_pages_pt q : q ∈ walk_pages t <-> q ∈ pt_pages t.
Proof.
  rewrite elem_of_walk_pages. split.
  - intros [-> |(i & _ & [Hq|(j & Hq)])]; [apply pt_pages_root|by eapply pt_pages_l1|by eapply pt_pages_l0].
  - unfold pt_pages. rewrite elem_of_cons, elem_of_app, !list_elem_of_fmap.
    intros [-> |[([i q'] & -> & Hq%elem_of_map_to_list)|([[i j] q'] & -> & Hq%elem_of_map_to_list)]]; [by left|right; exists i..]; cbn.
    + pose proof (pt_low _ _ HT _ _ Hq). split; [lia|by left].
    + destruct (pt_dom _ _ HT _ _ _ Hq) as [[p Hp] _]. pose proof (pt_low _ _ HT _ _ Hp). split; [lia|]. right. by exists j.
Qed.

Lemma NoDup_kids (f : Z -> option (Z * list Z)) :
  (forall i j q, q ∈ kid_pages (f i) -> q ∈ kid_pages (f j) -> i = j) -> (forall i, NoDup (kid_pages (f i))) ->
  NoDup ((f <$> entries) ≫= kid_pages).
Proof.
  intros Hi Hn. rewrite list_fmap_bind. apply NoDup_bind.
  - intros i j q _ _. apply Hi.
  - intros i _. apply Hn.
  - apply NoDup_entries.
Qed.

Lemma NoDup_walk_pages : NoDup (walk_pages t).
Proof.
  destruct (pt_distinct t (pt_nodup _ _ HT)) as (D1 & D2 & D3 & D4 & D5).
  apply NoDup_cons. split.
  - rewrite list_elem_of_bind. intros (o & Hq & (i & -> & _)%list_elem_of_fmap). apply elem_of_l1 in Hq as [Hq|(j & Hq)].
    + by apply (D1 _ _ Hq).
    + by apply (D2 _ _ Hq).
  - apply NoDup_kids.
    + intros i i' q [Hq|(j & Hq)]%elem_of_l1 [Hq'|(j' & Hq')]%elem_of_l1.
      * by eapply D4.
      * by destruct (D3 _ _ _ _ Hq Hq').
      * by destruct (D3 _ _ _ _ Hq' Hq).
      * by injection (D5 _ _ _ Hq Hq').
    + intros i. unfold l1_kid. destruct (pt_l1 t !! i) as [p|] eqn:Ep; cbn [fmap option_fmap option_map kid_pages]; [|apply NoDup_nil_2].
      apply NoDup_cons. split; [rewrite elem_of_l0; intros (j & Hj); by apply (D3 _ _ _ _ Ep Hj)|].
      apply NoDup_kids.
      * intros j j' q. unfold l0_kid. destruct (pt_l0 t !! (i, j)) as [x|] eqn:E1, (pt_l0 t !! (i, j')) as [x'|] eqn:E2; cbn;
          rewrite ?list_elem_of_singleton; try by intros ?%not_elem_of_nil. 2: by intros _ ?%not_elem_of_nil.
        intros -> ->. by injection (D5 _ _ _ E1 E2).
      * intros j. unfold l0_kid. destruct (pt_l0 t !! (i, j)); cbn; [apply NoDup_singleton|apply NoDup_nil_2].
Qed.

End table.

(** [freewalk] of an address space with nothing mapped. *)
Lemma freewalk_space s ps t : vm_ok s ps t -> no_leaves (mem s) t ->
  exists s' ps' fr, freewalk 3 (pt_root t) s = Ok tt s' /\ frees s ps fr s' ps' fr /\ forall q, q ∈ fr <-> q ∈ pt_pages t.
Proof.
  intros (HK & HT & Hd & Hl) Hno. pose proof (walk_pages_pt _ _ HT) as Hpt.
  destruct (freewalk_ok 3 s ps (pt_root t) (walk_pages t)) as (s' & ps' & E & F).
  - split; [done|done|by eapply NoDup_walk_pages|]. intros q Hq%Hpt. split_and!.
    + by eapply pt_page_valid.
    + pose proof (pt_mapped _ _ HT) as Hm. rewrite Forall_forall in Hm. by apply Hm.
    + intros Hin. by apply (Hd q).
  - by apply root_subtree.
  - by exists s', ps', (walk_pages t).
Qed.

(** ** The pages above user memory *)

(** Clearing the entry of one page, without freeing the page. *)
Lemma unmap_keep s ps t va : vm_ok s ps t -> va mod PGSIZE = 0 -> 0 <= va < MAXVA ->
  exists s' v, uvmunmap (pt_root t) va 1 false s = Ok tt s' /\ valid v = false /\
    grown s ps t s' ps t (set_leaf va v (leaf (mem s) t)).
Proof.
  intros H Hal Hva. pose proof H as (_ & HT & _). assert (Hu : u64 (va + 1 * PGSIZE) = va + PGSIZE).
  { rewrite Z.mul_1_l. apply u64_small. change MAXVA with 274877906944 in Hva. unfold PGSIZE. lia. }
  unfold uvmunmap. rewrite bind_panic_if by (by rewrite Hal). rewrite Hu.
  replace (Z.to_nat _) with 2%nat by (replace (va + PGSIZE - va) with PGSIZE by lia; done).
  cbn [uvmunmap_loop]. rewrite (proj2 (Z.ltb_lt va _)) by (unfold PGSIZE; lia).
  rewrite Z.mul_1_l in Hu. rewrite Hu, (proj2 (Z.ltb_ge _ _)) by lia. run (walk_lookup s t va HT Hva).
  destruct (pte_addr t va) as [pa|] eqn:Ea; [change (default 0 (Some pa)) with pa|].
  2: { exists s, 0. split_and!; [done..|]. eapply grown_ext; [by apply grown_refl|]. intros b Hb. unfold set_leaf. case_decide as E; [|done].
       by rewrite <- (leaf_page _ _ _ _ E), leaf_none. }
  destruct (pte_addr_nonzero _ _ _ _ HT Ea) as [Hn Hm]. rewrite (proj2 (Z.eqb_neq pa 0)) by done.
  assert (El : word (mem s) pa = leaf (mem s) t va) by (unfold leaf; by rewrite Ea).
  destruct (valid (leaf (mem s) t va)) eqn:Hv.
  - eexists _, 0. split_and!; [|done|by apply grown_store].
    erewrite bind_ok; [reflexivity|]. run (load64_word s pa Hm). rewrite El, Hv. by apply store64_ok.
  - exists s, (leaf (mem s) t va). split_and!; [|done|].
    + erewrite bind_ok; [reflexivity|]. run (load64_word s pa Hm). by rewrite El, Hv.
    + eapply grown_ext; [by apply grown_refl|]. intros b Hb. by rewrite set_leaf_id.
Qed.

(** What clearing such an entry above user memory keeps. *)
Record cleared (s : kstate) (ps : list Z) (t : ptree) (s' : kstate) (va : Z) : Prop := {
  cl_only : s' = s <| mem := mem s' |> <| freelist := freelist s' |>;
  cl_ok : uvm_ok s' ps t;
  cl_low : forall a, 0 <= a < TRAPFRAME -> leaf (mem s') t a = leaf (mem s) t a;
  cl_leaf : forall a, 0 <= a < MAXVA -> valid (leaf (mem s') t a) = valid (leaf (mem s) t a) && bool_decide (a / PGSIZE <> va / PGSIZE);
  cl_frame : forall q, valid_page q -> q ∉ ps -> q ∉ pt_pages t -> same_page (mem s) (mem s') q;
}.

Lemma high_page_ne va a : TRAPFRAME <= va -> a < TRAPFRAME -> a / PGSIZE <> va / PGSIZE.
Proof.
  intros Hva Ha E. change TRAPFRAME with (67108862 * PGSIZE) in *. unfold PGSIZE in *.
  pose proof (Z.div_mod a 4096). pose proof (Z.div_mod va 4096). pose proof (Z.mod_pos_bound a 4096). pose proof (Z.mod_pos_bound va 4096). lia.
Qed.

Lemma unmap_high s ps t va : uvm_ok s ps t -> va mod PGSIZE = 0 -> TRAPFRAME <= va < MAXVA ->
  exists s', uvmunmap (pt_root t) va 1 false s = Ok tt s' /\ cleared s ps t s' va.
Proof.
  intros H Hal Hva. assert (Hva0 : 0 <= va < MAXVA) by (change TRAPFRAME with 274877898752 in Hva; lia).
  destruct (unmap_keep s ps t va (uv_vm _ _ _ H) Hal Hva0) as (s' & v & E & Hv & G). exists s'. split; [done|].
  assert (Hlow : forall a, 0 <= a < TRAPFRAME -> leaf (mem s') t a = leaf (mem s) t a).
  { intros a Ha. rewrite (gr_leaf _ _ _ _ _ _ _ G) by (by apply low_maxva). apply set_leaf_out, high_page_ne; lia. }
  split; [apply G| |done| |apply G].
  - split; [apply G|..].
    + intros a Ha. rewrite Hlow by done. intros Hl. destruct (uv_page _ _ _ H a Ha Hl) as (H1 & H2 & H3 & H4).
      split_and!; try done. eapply same_page_mapped; [by apply G|done].
    + intros a a' Ha Ha'. rewrite !Hlow by done. by apply H.
    + intros a Ha. rewrite (gr_leaf _ _ _ _ _ _ _ G) by (change TRAPFRAME with 274877898752 in Ha; lia). unfold set_leaf.
      case_decide; [unfold user_pte; by rewrite Hv|by apply H].
  - intros a Ha. rewrite (gr_leaf _ _ _ _ _ _ _ G) by done. unfold set_leaf. fold PGSIZE. case_decide as Ep.
    + rewrite Hv, bool_decide_false by (intros Hn; by apply Hn). by rewrite andb_false_r.
    + by rewrite bool_decide_true, andb_true_r.
Qed.

Lemma cleared_owns s ps t s' va q : cleared s ps t s' va -> owns (mem s') t q <-> owns (mem s) t q.
Proof.
  intros C. unfold owns. f_equiv. split; intros (a & Ha & Hv & Hq); exists a; rewrite ?(cl_low _ _ _ _ _ C) in * by done; done.
Qed.

(** ** [uvmfree] *)

(** What giving up the address space [t] does: its pages become free. *)
Record freed (s : kstate) (ps : list Z) (t : ptree) (s' : kstate) (ps' : list Z) : Prop := {
  fd_only : s' = s <| mem := mem s' |> <| freelist := freelist s' |>;
  fd_inv : kmem_inv s' ps';
  fd_free : forall q, q ∈ ps' <-> q ∈ ps \/ owns (mem s) t q;
  fd_frame : forall q, valid_page q -> q ∉ ps -> ~ owns (mem s) t q -> same_page (mem s) (mem s') q;
}.

(** Nothing is mapped from [lo] to [hi]. *)
Definition unmapped (m : memory) (t : ptree) (lo hi : Z) : Prop := forall va, lo <= va < hi -> valid (leaf m t va) = false.

Lemma unmapped_view m t va : valid (leaf m t va) = false -> uview m t va = None.
Proof. intros H. unfold uview. by rewrite H. Qed.

Lemma uvmfree_unmaps s ps t sz : uvm_ok s ps t -> 0 <= sz <= TRAPFRAME -> unmapped (mem s) t (PGROUNDUP sz) MAXVA ->
  exists s' ps', when (0 <? sz) (uvmunmap (pt_root t) 0 (PGROUNDUP sz / PGSIZE) true) s = Ok tt s' /\
    ustep s ps t s' ps' t /\ no_leaves (mem s') t.
Proof.
  intros H Hsz Hu. destruct (roundup_low sz Hsz) as (Hal & Hr & Hmax). destruct (Z.ltb_spec 0 sz) as [Hpos|Hneg].
  2: { exists s, ps. split_and!; [done|by apply ustep_refl|]. intros va Hva. apply Hu.
       replace sz with 0 by lia. change (PGROUNDUP 0) with 0. lia. }
  assert (Hb : PGROUNDUP sz / PGSIZE * PGSIZE = PGROUNDUP sz).
  { unfold PGSIZE in *. pose proof (Z.div_mod (PGROUNDUP sz) 4096). lia. }
  destruct (uvmunmap_ok s ps t 0 (PGROUNDUP sz / PGSIZE)) as (s' & ps' & E & [U V] & _); try done.
  - apply Z.div_pos; [lia|done].
  - by rewrite Hb.
  - exists s', ps'. split_and!; [done..|]. intros va Hva. destruct (decide (va < TRAPFRAME)) as [Hlow|Hhigh].
    + apply unmapped_leaf; [lia|]. rewrite V by lia. rewrite Hb. unfold without_pages. case_decide as Hd; [done|].
      apply unmapped_view, Hu. lia.
    + rewrite (us_high _ _ _ _ _ _ U) by lia. apply Hu. lia.
Qed.

Lemma no_leaves_owns m t q : no_leaves m t -> owns m t q <-> q ∈ pt_pages t.
Proof. intros H. unfold owns. split; [|by left]. intros [?|(va & Hva & Hv & _)]; [done|]. by rewrite H in Hv by (by apply low_maxva). Qed.

Lemma uvmfree_ok s ps t sz : uvm_ok s ps t -> 0 <= sz <= TRAPFRAME -> unmapped (mem s) t (PGROUNDUP sz) MAXVA ->
  exists s' ps', uvmfree (pt_root t) sz s = Ok tt s' /\ freed s ps t s' ps'.
Proof.
  intros H Hsz Hu. destruct (uvmfree_unmaps s ps t sz H Hsz Hu) as (s1 & ps1 & E1 & U & Hno).
  destruct (freewalk_space s1 ps1 t) as (s2 & ps2 & fr & E2 & F & Hfr); [apply U|done|].
  exists s2, ps2. split; [unfold uvmfree; by run E1|].
  assert (Hc : forall q, q ∈ ps1 \/ q ∈ pt_pages t <-> q ∈ ps \/ owns (mem s) t q).
  { intros q. rewrite <- (us_conserve _ _ _ _ _ _ U), no_leaves_owns by done. done. }
  split.
  - rewrite (fr_only _ _ _ _ _ _ F), (us_only _ _ _ _ _ _ U) at 1. rs. st_eq s.
  - apply F.
  - intros q. rewrite (fr_free _ _ _ _ _ _ F), elem_of_app, Hfr, <- Hc. tauto.
  - intros q Hq Hps Ho. specialize (Hc q). eapply same_page_trans; [by apply U|]. apply F; [done|tauto|]. rewrite Hfr. tauto.
Qed.

(** ** [proc_freepagetable] *)

Lemma freed_cleared s ps t s1 va s' ps' : cleared s ps t s1 va -> freed s1 ps t s' ps' -> freed s ps t s' ps'.
Proof.
  intros C F. split.
  - rewrite (fd_only _ _ _ _ _ F), (cl_only _ _ _ _ _ C) at 1. rs. st_eq s.
  - apply F.
  - intros q. by rewrite (fd_free _ _ _ _ _ F), (cleared_owns _ _ _ _ _ _ C).
  - intros q Hq Hps Ho. eapply same_page_trans.
    + apply C; [done|done|]. intros ?. apply Ho. by left.
    + apply F; [done|done|]. by rewrite (cleared_owns _ _ _ _ _ _ C).
Qed.

Lemma proc_freepagetable_ok s ps t sz : uvm_ok s ps t -> 0 <= sz <= TRAPFRAME -> unmapped (mem s) t (PGROUNDUP sz) TRAPFRAME ->
  exists s' ps', proc_freepagetable (pt_root t) sz s = Ok tt s' /\ freed s ps t s' ps'.
Proof.
  intros H Hsz Hu. destruct (roundup_low sz Hsz) as (_ & Hr & Hmax).
  destruct (unmap_high s ps t TRAMPOLINE H) as (s1 & E1 & C1); [done|done|].
  destruct (unmap_high s1 ps t TRAPFRAME) as (s2 & E2 & C2); [apply C1|done|done|].
  destruct (uvmfree_ok s2 ps t sz) as (s3 & ps3 & E3 & F); [apply C2|done| |].
  - intros va Hva. assert (Hva0 : 0 <= va < MAXVA) by lia. rewrite (cl_leaf _ _ _ _ _ C2), (cl_leaf _ _ _ _ _ C1) by done.
    destruct (decide (va < TRAPFRAME)) as [Hlow|Hhigh]; [by rewrite Hu by lia|].
    assert (va / PGSIZE = TRAPFRAME / PGSIZE \/ va / PGSIZE = TRAMPOLINE / PGSIZE) as [Ep|Ep].
    { change (TRAPFRAME / PGSIZE) with 67108862. change (TRAMPOLINE / PGSIZE) with 67108863.
      change TRAPFRAME with 274877898752 in Hhigh. change MAXVA with 274877906944 in Hva0. unfold PGSIZE.
      pose proof (Z.div_mod va 4096). pose proof (Z.mod_pos_bound va 4096). lia. }
    + by rewrite (bool_decide_false (va / PGSIZE <> TRAPFRAME / PGSIZE)), andb_false_r by (intros Hn; by apply Hn).
    + by rewrite (bool_decide_false (va / PGSIZE <> TRAMPOLINE / PGSIZE)), andb_false_r by (intros Hn; by apply Hn).
  - exists s3, ps3. split; [unfold proc_freepagetable; by run E1; run E2|]. by eapply freed_cleared, freed_cleared.
Qed.

(** ** [proc_pagetable] *)

(** The entries for the trampoline and for a trap frame. *)
Definition tramp_pte : Z := mk_pte trampoline (Z.lor PTE_R PTE_X).
Definition frame_pte (tf : Z) : Z := mk_pte tf (Z.lor PTE_R PTE_W).

(** A new address space with the trampoline and the trap frame [tf] above user memory, which is empty. *)
Record new_space (s : kstate) (ps : list Z) (tf : Z) (s' : kstate) (ps' : list Z) (t : ptree) : Prop := {
  ns_only : s' = s <| mem := mem s' |> <| freelist := freelist s' |>;
  ns_ok : uvm_ok s' ps' t;
  ns_free : forall q, q ∈ ps <-> q ∈ ps' \/ owns (mem s') t q;
  ns_frame : forall q, valid_page q -> q ∉ ps -> same_page (mem s) (mem s') q;
  ns_empty : unmapped (mem s') t 0 TRAPFRAME;
  ns_trampoline : leaf (mem s') t TRAMPOLINE = tramp_pte;
  ns_trapframe : leaf (mem s') t TRAPFRAME = frame_pte tf;
  ns_few : (length (pt_pages t) <= 5)%nat;
}.

(** The same pages are free, perhaps in another order. *)
Record undone (s : kstate) (ps : list Z) (s' : kstate) (ps' : list Z) : Prop := {
  ud_only : s' = s <| mem := mem s' |> <| freelist := freelist s' |>;
  ud_inv : kmem_inv s' ps';
  ud_free : forall q, q ∈ ps' <-> q ∈ ps;
  ud_frame : forall q, valid_page q -> q ∉ ps -> same_page (mem s) (mem s') q;
}.

(** A table that has been grown from the empty one. *)
Record fresh (s : kstate) (ps : list Z) (s' : kstate) (ps' : list Z) (t : ptree) : Prop := {
  fs_only : s' = s <| mem := mem s' |> <| freelist := freelist s' |>;
  fs_ok : vm_ok s' ps' t;
  fs_free : forall q, q ∈ ps <-> q ∈ ps' \/ q ∈ pt_pages t;
  fs_frame : forall q, valid_page q -> q ∉ ps -> same_page (mem s) (mem s') q;
}.

Lemma fresh_empty s p ps : kmem_inv s (p :: ps) -> L_kmem ∉ held s ->
  exists s', uvmcreate s = Ok p s' /\ fresh s (p :: ps) s' ps (mkPt p ∅ ∅) /\ forall va, leaf (mem s') (mkPt p ∅ ∅) va = 0.
Proof.
  intros HK Hl. destruct (uvmcreate_ok s p ps HK Hl) as (m & fl & E & H & Hs). eexists. split; [exact E|]. split.
  - split; rs; [st_eq s|done| |].
    + intros q. unfold pt_pages. cbn [pt_root pt_l1 pt_l0]. rewrite !map_to_list_empty. cbn. rewrite list_elem_of_singleton, elem_of_cons. tauto.
    + intros q Hq [? _]%not_elem_of_cons. by apply Hs.
  - intros va. apply leaf_empty.
Qed.

Lemma fresh_grown s ps s1 ps1 t1 s2 ps2 t2 lf : fresh s ps s1 ps1 t1 -> grown s1 ps1 t1 s2 ps2 t2 lf -> fresh s ps s2 ps2 t2.
Proof.
  intros F G. destruct (gr_used _ _ _ _ _ _ _ G) as (us & Eu & Pu). split.
  - rewrite (gr_only _ _ _ _ _ _ _ G), (fs_only _ _ _ _ _ F) at 1. rs. st_eq s.
  - apply G.
  - intros q. rewrite (fs_free _ _ _ _ _ F), Eu, Pu, !elem_of_app. tauto.
  - intros q Hq Hps. rewrite (fs_free _ _ _ _ _ F) in Hps. eapply same_page_trans; [apply F; [done|]|apply G; [done|tauto..]].
    by rewrite (fs_free _ _ _ _ _ F).
Qed.

(** The free list has run out: every page that was free is in the table. *)
Lemma fresh_out s ps s' t : NoDup ps -> fresh s ps s' [] t -> (length ps <= length (pt_pages t))%nat.
Proof.
  intros Hnd F. apply submseteq_length, NoDup_submseteq; [done|]. intros q Hq. apply (fs_free _ _ _ _ _ F) in Hq as [Hq|Hq]; [|done].
  by apply not_elem_of_nil in Hq.
Qed.

Lemma fresh_space s ps s' ps' t : fresh s ps s' ps' t -> unmapped (mem s') t 0 TRAPFRAME ->
  (forall va, TRAPFRAME <= va < MAXVA -> user_pte (leaf (mem s') t va) = false) -> uvm_ok s' ps' t.
Proof. intros F Hu Hh. split; [apply F|..|done]; intros va; intros; by rewrite Hu in *. Qed.

Lemma unmapped_owns m t q : unmapped m t 0 TRAPFRAME -> owns m t q <-> q ∈ pt_pages t.
Proof. intros H. unfold owns. split; [|by left]. intros [?|(va & Hva & Hv & _)]; [done|]. by rewrite H in Hv. Qed.

Lemma fresh_undone s ps s1 ps1 t s' ps' : fresh s ps s1 ps1 t -> no_leaves (mem s1) t -> freed s1 ps1 t s' ps' -> undone s ps s' ps'.
Proof.
  intros F Hno Fd. assert (Ho : forall q, q ∈ ps <-> q ∈ ps1 \/ owns (mem s1) t q).
  { intros q. rewrite no_leaves_owns by done. apply F. }
  split.
  - rewrite (fd_only _ _ _ _ _ Fd), (fs_only _ _ _ _ _ F) at 1. rs. st_eq s.
  - apply Fd.
  - intros q. by rewrite (fd_free _ _ _ _ _ Fd), Ho.
  - intros q Hq Hps. eapply same_page_trans; [by apply F|]. rewrite Ho in Hps. apply Fd; tauto.
Qed.

(** [uvmfree(pagetable, 0)], with which [proc_pagetable] gives up. *)
Lemma uvmfree_fresh s ps s1 ps1 t : fresh s ps s1 ps1 t -> no_leaves (mem s1) t ->
  exists s' ps', uvmfree (pt_root t) 0 s1 = Ok tt s' /\ undone s ps s' ps'.
Proof.
  intros F Hno. destruct (uvmfree_ok s1 ps1 t 0) as (s' & ps' & E & Fd).
  - eapply fresh_space; [done|intros va Hva; by apply Hno, low_maxva|]. intros va Hva. unfold user_pte.
    by rewrite Hno by (change TRAPFRAME with 274877898752 in Hva; lia).
  - done.
  - intros va Hva. by apply Hno.
  - exists s', ps'. split; [done|]. by eapply fresh_undone.
Qed.

(** Mapping one page. *)
Lemma map_one s ps t va pa perm : vm_ok s ps t -> va mod PGSIZE = 0 -> 0 <= va -> va + PGSIZE <= MAXVA -> 0 <= perm < 1024 ->
  0 <= pa -> pa + PGSIZE <= 2 ^ 56 -> valid (leaf (mem s) t va) = false ->
  exists s' ps' t' r, mappages (pt_root t) va PGSIZE pa perm s = Ok r s' /\ (length (pt_pages t') <= 2 + length (pt_pages t))%nat /\
    ((r = 0 /\ grown s ps t s' ps' t' (set_leaf va (mk_pte pa perm) (leaf (mem s) t))) \/
     (r = -1 /\ grown s ps t s' ps' t' (leaf (mem s) t) /\ ps' = [])).
Proof.
  intros H Hal Hva Hmax Hperm Hpa Hpm Hno.
  destruct (mappages_ok s ps t va PGSIZE pa perm) as (s' & ps' & t' & r & k & E & G & Hlen & Hr); try done.
  { intros a Ha. by rewrite (leaf_page _ _ a va) by (by apply div_page). }
  exists s', ps', t', r. split; [done|]. change (PGSIZE / PGSIZE) with 1 in Hr, Hlen.
  split; [pose proof (grown_few _ _ _ _ _ _ _ G); lia|].
  destruct Hr as [[-> ->]|(-> & Hk & ->)]; [left|right]; (split; [done|]); [|split; [|done]]; (eapply grown_ext; [exact G|]); intros a Ha.
  - by apply map_leaves_1.
  - replace k with 0 by lia. apply map_leaves_0.
Qed.

Lemma kernel_pte pa perm : 0 <= pa < 2 ^ 56 -> pa mod 4096 = 0 -> 0 <= perm < 1024 -> has_flag perm PTE_U = false ->
  user_pte (mk_pte pa perm) = false.
Proof.
  intros Hp Ha Hperm Hu. unfold user_pte. change PTE_U with (2 ^ 4) in *. destruct (mk_pte_spec pa perm) as (_ & _ & E); [done..|].
  rewrite E by lia. by rewrite Hu, andb_false_r.
Qed.

Definition proc_pagetable_post (s : kstate) (ps : list Z) (tf : Z) (r : Z) (s' : kstate) (ps' : list Z) : Prop :=
  (r = 0 /\ undone s ps s' ps' /\ (length ps <= 5)%nat) \/ (r <> 0 /\ exists t, pt_root t = r /\ new_space s ps tf s' ps' t).

Lemma trampoline_pa : 0 <= trampoline < 2 ^ 56 /\ trampoline + PGSIZE <= 2 ^ 56 /\ trampoline mod 4096 = 0.
Proof.
  pose proof trampoline_range as Ht. pose proof etext_range as He. pose proof end_range as Hn. pose proof trampoline_aligned as Ha.
  unfold KERNBASE, PHYSTOP, PGSIZE in *. unfold KERNBASE in *. lia.
Qed.

(** The second half: the table has the trampoline, and gets the trap frame. *)
Lemma proc_pagetable_frame s ps s1 ps1 t tf : NoDup ps -> fresh s ps s1 ps1 t -> (length (pt_pages t) <= 3)%nat -> valid_page tf ->
  (forall va, 0 <= va < MAXVA -> leaf (mem s1) t va = set_leaf TRAMPOLINE tramp_pte (fun _ => 0) va) ->
  exists r s' ps',
    (r <- mappages (pt_root t) TRAPFRAME PGSIZE tf (Z.lor PTE_R PTE_W) ;;
     if r <? 0 then uvmunmap (pt_root t) TRAMPOLINE 1 false ;; uvmfree (pt_root t) 0 ;; ret 0 else ret (pt_root t)) s1 = Ok r s' /\
    proc_pagetable_post s ps tf r s' ps'.
Proof.
  intros Hnd F Hfew Htf Hlf. destruct (valid_page_pos tf Htf) as [Hpos Hal]. destruct trampoline_pa as (Hp1 & Hp2 & Hp3).
  destruct (map_one s1 ps1 t TRAPFRAME tf (Z.lor PTE_R PTE_W)) as (s2 & ps2 & t2 & r & E & Hlen & Hr); try done; [apply F|lia|destruct Htf; unfold PHYSTOP, KERNBASE, PGSIZE in *; lia|by rewrite Hlf|].
  run E. destruct Hr as [[-> G]|(-> & G & ->)]; pose proof (fresh_grown _ _ _ _ _ _ _ _ _ F G) as F2; pose proof (gr_root _ _ _ _ _ _ _ G) as Hroot; rewrite <- Hroot.
  - exists (pt_root t2), s2, ps2. split; [done|]. right. split.
    { destruct (valid_page_pos (pt_root t2)); [|lia]. eapply pt_page_valid; [apply F2|apply pt_pages_root]. }
    exists t2. split; [done|].
    assert (Hlow : unmapped (mem s2) t2 0 TRAPFRAME).
    { intros va Hva. rewrite (gr_leaf _ _ _ _ _ _ _ G) by (by apply low_maxva).
      rewrite set_leaf_out, Hlf, set_leaf_out; [done|..]; try (by apply low_maxva); apply high_page_ne; done || lia. }
    split; try apply F2.
    + eapply fresh_space; [exact F2|done|]. intros va Hva.
      assert (Hva' : 0 <= va < MAXVA) by (change TRAPFRAME with 274877898752 in Hva; lia).
      rewrite (gr_leaf _ _ _ _ _ _ _ G) by done. unfold set_leaf at 1. case_decide; [apply kernel_pte; done || lia|].
      rewrite Hlf by done. unfold set_leaf. case_decide; [by apply kernel_pte|done].
    + intros q. rewrite unmapped_owns by done. apply F2.
    + done.
    + rewrite (gr_leaf _ _ _ _ _ _ _ G), set_leaf_out, Hlf by done. by rewrite set_leaf_in.
    + rewrite (gr_leaf _ _ _ _ _ _ _ G) by done. by rewrite set_leaf_in.
    + lia.
  - destruct (unmap_keep s2 [] t2 TRAMPOLINE) as (s3 & v & E3 & Hv & G3); [apply F2|done|done|].
    change (-1 <? 0) with true. cbv iota. run E3.
    pose proof (fresh_grown _ _ _ _ _ _ _ _ _ F2 G3) as F3.
    destruct (uvmfree_fresh s ps s3 [] t2 F3) as (s4 & ps4 & E4 & U).
    { intros va Hva. rewrite (gr_leaf _ _ _ _ _ _ _ G3) by done. unfold set_leaf. case_decide as Ed; [done|].
      rewrite (gr_leaf _ _ _ _ _ _ _ G), Hlf, set_leaf_out; [done| |done..]. by intros ?. }
    run E4. exists 0, s4, ps4. split; [done|]. left. split_and!; [done..|]. pose proof (fresh_out _ _ _ _ Hnd F2). lia.
Qed.

Lemma proc_pagetable_ok i p s ps : kmem_inv s ps -> L_kmem ∉ held s -> procs s !! i = Some p -> valid_page (p_trapframe p) ->
  exists r s' ps', proc_pagetable i s = Ok r s' /\ proc_pagetable_post s ps (p_trapframe p) r s' ps'.
Proof.
  intros HK Hl Hi Htf. destruct ps as [|pt ps].
  { exists 0, s, []. split; [|left; split_and!; [done|split; try done; by destruct s|cbn; lia]].
    assert (E : uvmcreate s = Ok 0 s) by (destruct HK as (Hf & _); unfold uvmcreate; by run (kalloc_empty s Hf Hl)).
    unfold proc_pagetable. by run E. }
  destruct (fresh_empty s pt ps HK Hl) as (s1 & E1 & F1 & Hz). unfold proc_pagetable. run E1.
  assert (Hpt : valid_page pt) by (destruct HK as (_ & _ & Hv & _); by apply Forall_cons in Hv as [? _]).
  pose proof (valid_page_pos pt Hpt) as [Hpos _]. rewrite (proj2 (Z.eqb_neq pt 0)) by lia.
  destruct trampoline_pa as (Hp1 & Hp2 & Hp3).
  destruct (map_one s1 ps (mkPt pt ∅ ∅) TRAMPOLINE trampoline (Z.lor PTE_R PTE_X)) as (s2 & ps2 & t2 & r & E & Hlen & Hr); try done; [apply F1|lia|].
  assert (Hnd : NoDup (pt :: ps)) by apply HK.
  assert (Hone : pt_pages (mkPt pt ∅ ∅) = [pt]) by (unfold pt_pages; cbn [pt_root pt_l1 pt_l0]; by rewrite !map_to_list_empty).
  rewrite Hone in Hlen. cbn [length] in Hlen.
  cbn [pt_root] in E. run E. destruct Hr as [[-> G]|(-> & G & ->)]; pose proof (fresh_grown _ _ _ _ _ _ _ _ _ F1 G) as F2.
  - change (0 <? 0) with false. cbv iota. erewrite bind_ok; [|apply get_at_ok; by rewrite (fs_only _ _ _ _ _ F2); rs].
    assert (Hroot : pt_root t2 = pt) by apply (gr_root _ _ _ _ _ _ _ G).
    pose proof (proc_pagetable_frame s (pt :: ps) s2 ps2 t2 (p_trapframe p) Hnd F2 ltac:(lia) Htf) as X. rewrite Hroot in X. apply X.
    intros va Hva. rewrite (gr_leaf _ _ _ _ _ _ _ G) by done. unfold set_leaf. by case_decide.
  - assert (Hroot : pt_root t2 = pt) by apply (gr_root _ _ _ _ _ _ _ G).
    destruct (uvmfree_fresh s (pt :: ps) s2 [] t2 F2) as (s4 & ps4 & E4 & U).
    { intros va Hva. by rewrite (gr_leaf _ _ _ _ _ _ _ G), Hz. }
    rewrite Hroot in E4. change (-1 <? 0) with true. cbv iota. run E4. exists 0, s4, ps4. split; [done|]. left. split_and!; [done..|].
    pose proof (fresh_out _ _ _ _ Hnd F2). lia.
Qed.

End space.
