(* ===== verification/Fork.v ===== *)
(** Processes and their memory (kernel/proc.c): [allocproc], [freeproc], [kfork] and [kwait] keep every page with one owner, and a
    child starts as a copy of its parent. *)

From stdpp Require Import prelude gmap strings.
From Stdlib Require Import ZArith Lia.
From S2P Require Import Prelude Bytes Params State Spinlock CString Sched Kalloc Vm PageTable User Uvm Log Fs File Proc Space.

Local Open Scope Z_scope.
Local Open Scope kernel_scope.

Section spaces.
Context {L : Linker} {LOk : LinkerOk L}.

(** ** The memory of processes *)

(** What a process has: the page of its trap frame, and its page table. *)
Definition has (m : memory) (x : Z * ptree) (q : Z) : Prop := q = x.1 \/ owns m x.2 q.

Record space_ok (s : kstate) (ps : list Z) (x : Z * ptree) : Prop := {
  sp_vm : uvm_ok s ps x.2;
  sp_frame : valid_page x.1 /\ page_mapped (mem s) x.1 /\ x.1 ∉ ps;
  sp_apart : ~ owns (mem s) x.2 x.1;
  sp_trampoline : leaf (mem s) x.2 TRAMPOLINE = tramp_pte;
  sp_trapframe : leaf (mem s) x.2 TRAPFRAME = frame_pte x.1;
}.

(** The address spaces [A] of processes, by process, with the free pages [ps]: no page has two owners. *)
Record spaces_ok (s : kstate) (ps : list Z) (A : gmap nat (Z * ptree)) : Prop := {
  ss_kmem : kmem_inv s ps;
  ss_lock : L_kmem ∉ held s;
  ss_ok : forall i x, A !! i = Some x -> space_ok s ps x;
  ss_apart : forall i j x y q, A !! i = Some x -> A !! j = Some y -> has (mem s) x q -> has (mem s) y q -> i = j;
}.

(** The pages that are free or have an owner. *)
Definition accounted (m : memory) (ps : list Z) (A : gmap nat (Z * ptree)) (q : Z) : Prop :=
  q ∈ ps \/ exists i x, A !! i = Some x /\ has m x q.

(** From [s] to [s']: only free pages and pages in [own] change. *)
Record mchange (s : kstate) (ps : list Z) (own : Z -> Prop) (s' : kstate) (ps' : list Z) : Prop := {
  mc_inv : kmem_inv s' ps';
  mc_lock : L_kmem ∉ held s';
  mc_frame : forall q, valid_page q -> q ∉ ps -> ~ own q -> same_page (mem s) (mem s') q;
  mc_free : forall q, q ∈ ps' -> q ∈ ps \/ own q;
}.

Lemma has_page s ps x q : space_ok s ps x -> has (mem s) x q -> valid_page q /\ page_mapped (mem s) q /\ q ∉ ps.
Proof. intros H [-> |Hq]; [apply H|]. eapply owns_valid; [apply H|done]. Qed.

Lemma has_same m m' x : (forall q, has m x q -> same_page m m' q) -> forall q, has m' x q <-> has m x q.
Proof. intros H q. unfold has. rewrite owns_same; [done|]. intros r Hr. apply H. by right. Qed.

Section change.
Context (s : kstate) (ps : list Z) (own : Z -> Prop) (s' : kstate) (ps' : list Z).
Hypothesis C : mchange s ps own s' ps'.

Lemma change_same x q : space_ok s ps x -> has (mem s) x q -> ~ own q -> same_page (mem s) (mem s') q.
Proof. intros H Hq Hn. destruct (has_page _ _ _ _ H Hq) as (? & _ & ?). by apply C. Qed.

Lemma change_space x : space_ok s ps x -> (forall q, has (mem s) x q -> ~ own q) -> space_ok s' ps' x.
Proof.
  intros H Hn. assert (Hs : forall q, has (mem s) x q -> same_page (mem s) (mem s') q).
  { intros q Hq. eapply change_same; [done..|by apply Hn]. }
  assert (Hs' : forall q, owns (mem s) x.2 q -> same_page (mem s) (mem s') q) by (intros q Hq; apply Hs; by right).
  assert (Hf : forall q, has (mem s) x q -> q ∉ ps').
  { intros q Hq Hin. destruct (has_page _ _ _ _ H Hq) as (_ & _ & ?). destruct (mc_free _ _ _ _ _ C q Hin) as [?|?]; [done|by apply (Hn q)]. }
  destruct (sp_frame _ _ _ H) as (H1 & H2 & H3). split.
  - eapply uvm_frame; [apply H|apply C|apply C|done|]. intros q Hin Hq. by apply (Hf q); [right|].
  - split_and!; [done|eapply same_page_mapped; [apply Hs; by left|done]|apply Hf; by left].
  - rewrite (owns_same (mem s)) by done. apply H.
  - rewrite (leaf_same (mem s)) by done. apply H.
  - rewrite (leaf_same (mem s)) by done. apply H.
Qed.

Lemma change_spaces A : spaces_ok s ps A -> (forall i x q, A !! i = Some x -> has (mem s) x q -> ~ own q) -> spaces_ok s' ps' A.
Proof.
  intros H Hn. split; [apply C|apply C| |].
  - intros i x Hi. apply change_space; [by eapply ss_ok|]. intros q. by eapply Hn.
  - assert (Hs : forall i x, A !! i = Some x -> forall q, has (mem s') x q <-> has (mem s) x q).
    { intros i x Hi. apply has_same. intros q Hq. eapply change_same; [by eapply ss_ok|done|by eapply Hn]. }
    intros i j x y q Hi Hj Hx Hy. rewrite (Hs i) in Hx by done. rewrite (Hs j) in Hy by done. by eapply (ss_apart _ _ _ H i j).
Qed.
End change.

(** A process is given a space, or loses it. *)
Lemma spaces_insert s ps A i x : spaces_ok s ps A -> space_ok s ps x ->
  (forall j y q, j <> i -> A !! j = Some y -> has (mem s) y q -> ~ has (mem s) x q) -> spaces_ok s ps (<[i := x]> A).
Proof.
  intros H Hx Hd. split; [apply H|apply H| |].
  - intros j y [[<- <-]|[_ Hj]]%lookup_insert_Some; [done|by eapply ss_ok].
  - intros j k y z q [[<- <-]|[Hne Hj]]%lookup_insert_Some [[<- <-]|[Hne' Hk]]%lookup_insert_Some Hy Hz; [done|..].
    + by destruct (Hd k z q).
    + by destruct (Hd j y q).
    + by eapply (ss_apart _ _ _ H j k).
Qed.

Lemma spaces_delete s ps A i : spaces_ok s ps A -> spaces_ok s ps (delete i A).
Proof.
  intros H. split; [apply H|apply H| |].
  - intros j y [_ Hj]%lookup_delete_Some. by eapply ss_ok.
  - intros j k y z q [_ Hj]%lookup_delete_Some [_ Hk]%lookup_delete_Some. by eapply (ss_apart _ _ _ H j k).
Qed.

(** ** Changes of memory *)

Lemma mchange_weaken s ps (own own' : Z -> Prop) s' ps' : mchange s ps own s' ps' -> (forall q, own q -> own' q) -> mchange s ps own' s' ps'.
Proof. intros [H1 H2 H3 H4] Hw. split; [done|done| |]; intros q; [intros; apply H3; auto|]. intros Hq. destruct (H4 q Hq); auto. Qed.

Lemma mchange_trans s ps own s1 ps1 s2 ps2 : mchange s ps own s1 ps1 -> mchange s1 ps1 own s2 ps2 -> mchange s ps own s2 ps2.
Proof.
  intros C1 C2. split; [apply C2|apply C2| |].
  - intros q Hq Hps Ho. eapply same_page_trans; [by apply C1|]. apply C2; [done| |done].
    intros Hin. by destruct (mc_free _ _ _ _ _ C1 q Hin).
  - intros q Hq. destruct (mc_free _ _ _ _ _ C2 q Hq) as [Hq1|?]; [by apply C1|by right].
Qed.

Lemma mchange_free s ps (own : Z -> Prop) s' ps' : mchange s ps own s' ps' -> (forall q, own q -> q ∈ ps) -> mchange s ps (fun _ => False) s' ps'.
Proof. intros [H1 H2 H3 H4] Hw. split; [done|done| |]; intros q; [intros; apply H3; auto|]. intros Hq. destruct (H4 q Hq); auto. Qed.

(** The part of the state that is not memory does not matter. *)
Lemma mchange_mem s ps own s' ps' s0 s0' : mchange s ps own s' ps' ->
  mem s0 = mem s -> mem s0' = mem s' -> freelist s0' = freelist s' -> L_kmem ∉ held s0' -> mchange s0 ps own s0' ps'.
Proof.
  intros [H1 H2 H3 H4] E1 E2 E3 Hl. split; [|done| |done].
  - unfold kmem_inv in *. by rewrite E2, E3.
  - by rewrite E1, E2.
Qed.

Lemma spaces_mem s ps A s' : spaces_ok s ps A -> mem s' = mem s -> freelist s' = freelist s -> L_kmem ∉ held s' -> spaces_ok s' ps A.
Proof.
  intros H Em Ef Hl. eapply (change_spaces s ps (fun _ => False)); [|done|tauto]. pose proof (ss_kmem _ _ _ H) as HK.
  split; [unfold kmem_inv in *; by rewrite Em, Ef|done| |by left]. intros q _ _ _. rewrite Em. apply same_page_refl.
Qed.

Lemma kalloc_change s p ps : kmem_inv s (p :: ps) -> L_kmem ∉ held s -> exists s', kalloc s = Ok p s' /\
  s' = s <| mem := mem s' |> <| freelist := freelist s' |> /\ mchange s (p :: ps) (fun _ => False) s' ps /\
  valid_page p /\ page_mapped (mem s') p /\ p ∉ ps.
Proof.
  intros HK Hl. pose proof HK as ([Hf (l & Hn & _)] & Hnd & Hv & Hm). apply NoDup_cons in Hnd as [Hp _].
  apply Forall_cons in Hv as [Hvp _]. apply Forall_cons in Hm as [Hmp _]. eexists.
  split; [by apply (kalloc_ok s p l)|]. rs. split; [st_eq s|]. split; [|split_and!; [done|by apply mapped_store|done]].
  split; rs; [by eapply kmem_inv_kalloc|done| |].
  - intros q Hq [Hne _]%not_elem_of_cons _. apply store_page_frame; congruence.
  - intros q Hq. left. by right.
Qed.

Lemma undone_change s ps s' ps' : undone s ps s' ps' -> L_kmem ∉ held s -> mchange s ps (fun _ => False) s' ps'.
Proof.
  intros U Hl. split; [apply U|rewrite (ud_only _ _ _ _ U); by rs|intros; by apply U|]. intros q Hq. left. by apply U.
Qed.

Lemma new_space_change s ps tf s' ps' t : new_space s ps tf s' ps' t -> L_kmem ∉ held s -> mchange s ps (fun _ => False) s' ps'.
Proof.
  intros N Hl. split; [by apply (uv_vm _ _ _ (ns_ok _ _ _ _ _ _ N))|rewrite (ns_only _ _ _ _ _ _ N); by rs|intros; by apply N|].
  intros q Hq. left. apply (ns_free _ _ _ _ _ _ N). by left.
Qed.

Lemma ustep_change s ps t s' ps' t' : ustep s ps t s' ps' t' -> mchange s ps (owns (mem s) t) s' ps'.
Proof.
  intros U. destruct (uv_vm _ _ _ (us_ok _ _ _ _ _ _ U)) as (HK & _ & _ & Hl). split; [done|done|apply U|].
  intros q Hq. apply (us_conserve _ _ _ _ _ _ U). by left.
Qed.

Lemma freed_change s ps t s' ps' : freed s ps t s' ps' -> L_kmem ∉ held s -> mchange s ps (owns (mem s) t) s' ps'.
Proof.
  intros F Hl. split; [apply F|rewrite (fd_only _ _ _ _ _ F); by rs|apply F|]. intros q. apply F.
Qed.

Lemma kfree_change s p ps : kmem_inv s ps -> L_kmem ∉ held s -> valid_page p -> page_mapped (mem s) p -> p ∉ ps ->
  exists s', kfree p s = Ok tt s' /\ s' = s <| mem := mem s' |> <| freelist := freelist s' |> /\ mchange s ps (eq p) s' (p :: ps).
Proof.
  intros HK Hl Hv Hm Hp. destruct (kfree_frees s ps p HK Hl Hv Hm Hp) as (s' & E & F). exists s'. split_and!; [done|apply F|].
  split; [apply F|rewrite (frees_held _ _ _ _ _ _ F); done| |].
  - intros q Hq Hps Hne. apply F; [done..|]. intros ->%list_elem_of_singleton. by apply Hne.
  - intros q [-> |?]%elem_of_cons; [by right|by left].
Qed.

Lemma store_change s ps p off l : kmem_inv s ps -> L_kmem ∉ held s -> valid_page p -> p ∉ ps -> 0 <= off ->
  off + Z.of_nat (length l) <= 4096 -> mchange s ps (eq p) (s <| mem := store_bytes (mem s) (p + off) l |>) ps.
Proof.
  intros HK Hl Hv Hp Ho Hlen. split; rs; [|done| |by left].
  - unfold kmem_inv. rs. apply (kmem_at_store _ _ _ _ _ p); try done; lia.
  - intros q Hq _ Hne. by apply valid_pages_aligned_frame.
Qed.

(** ** [freeproc] *)

(** What [freeproc] leaves of the entry. *)
Definition cleared_proc (p : proc) : proc :=
  p <| p_trapframe := 0 |> <| p_pagetable := 0 |> <| p_sz := 0 |> <| p_pid := 0 |> <| p_name ::= <[0%nat := 0]> |>
    <| p_chan := None |> <| p_killed := false |> <| p_xstate := 0 |> <| p_state := UNUSED |>.

(** Only memory, and the entry of process [i], which becomes [p]. *)
Definition proc_only (s : kstate) (i : nat) (p : proc) (s' : kstate) : Prop :=
  s' = s <| mem := mem s' |> <| freelist := freelist s' |> <| procs := <[i := p]> (procs s) |>.

Lemma bind_getproc {B} i p (k : proc -> K B) s : procs s !! i = Some p -> bind (getproc i) k s = k p s.
Proof. intros H. by rewrite (bind_ok _ _ _ _ _ (get_at_ok procs i p s H)). Qed.

Lemma updproc_at i f p s : procs s !! i = Some p -> updproc i f s = Ok tt (s <| procs := <[i := f p]> (procs s) |>).
Proof. intros H. unfold updproc, modify. by rewrite (alter_insert _ _ _ _ H). Qed.

Lemma set_proc_lookup {A} (l : list A) i x y : l !! i = Some x -> <[i := y]> l !! i = Some y.
Proof. intros H. apply list_lookup_insert_eq. by eapply lookup_lt_Some. Qed.

(** Without memory. *)
Lemma freeproc_none i p s : procs s !! i = Some p -> p_trapframe p = 0 -> p_pagetable p = 0 ->
  freeproc i s = Ok tt (s <| procs := <[i := cleared_proc p]> (procs s) |>).
Proof.
  intros Hi Ht Hp. unfold freeproc. rewrite (bind_getproc i p) by done. rewrite Ht, Hp. cbn [Z.eqb negb when].
  rewrite bind_ret. run (updproc_at i _ p s Hi). rewrite bind_ret.
  erewrite updproc_at by (rs; by eapply set_proc_lookup). apply Ok_eq; [done|]. rs. rewrite list_insert_insert_eq. st_eq s.
Qed.

(** With a trap frame and no page table. *)
Lemma freeproc_frame i p s ps : kmem_inv s ps -> L_kmem ∉ held s -> procs s !! i = Some p -> p_pagetable p = 0 ->
  valid_page (p_trapframe p) -> page_mapped (mem s) (p_trapframe p) -> p_trapframe p ∉ ps ->
  exists s', freeproc i s = Ok tt s' /\ proc_only s i (cleared_proc p) s' /\ mchange s ps (eq (p_trapframe p)) s' (p_trapframe p :: ps).
Proof.
  intros HK Hl Hi Hp Hv Hm Hn. unfold freeproc. rewrite (bind_getproc i p) by done.
  pose proof (valid_page_pos _ Hv) as [Hpos _]. rewrite (proj2 (Z.eqb_neq (p_trapframe p) 0)) by lia. rewrite Hp. cbn [Z.eqb negb when].
  destruct (kfree_change s (p_trapframe p) ps) as (s1 & E1 & O1 & C1); [done..|]. run E1.
  assert (Hi1 : procs s1 !! i = Some p) by (rewrite O1; by rs). run (updproc_at i _ p s1 Hi1). rewrite bind_ret.
  erewrite updproc_at by (rs; by eapply set_proc_lookup). eexists. split; [done|]. unfold proc_only. rs. split.
  - rewrite list_insert_insert_eq, O1. rs. st_eq s.
  - eapply mchange_mem; [exact C1|..]; rs; done || apply C1.
Qed.

(** With all its memory. *)
Lemma freeproc_space i p s ps t : procs s !! i = Some p -> space_ok s ps (p_trapframe p, t) -> p_pagetable p = pt_root t ->
  0 <= p_sz p <= TRAPFRAME -> unmapped (mem s) t (PGROUNDUP (p_sz p)) TRAPFRAME ->
  exists s' ps', freeproc i s = Ok tt s' /\ proc_only s i (cleared_proc p) s' /\
    mchange s ps (has (mem s) (p_trapframe p, t)) s' ps' /\ forall q, q ∈ ps' <-> q ∈ ps \/ has (mem s) (p_trapframe p, t) q.
Proof.
  intros Hi H Hp Hsz Hu. destruct (uv_vm _ _ _ (sp_vm _ _ _ H)) as (HK & HT & _ & Hl). destruct (sp_frame _ _ _ H) as (Hv & Hm & Hn). cbn [fst snd] in *.
  unfold freeproc. rewrite (bind_getproc i p) by done.
  pose proof (valid_page_pos _ Hv) as [Hpos _]. rewrite (proj2 (Z.eqb_neq (p_trapframe p) 0)) by lia.
  assert (Hr : p_pagetable p <> 0).
  { rewrite Hp. destruct (valid_page_pos (pt_root t)); [eapply pt_page_valid; [done|apply pt_pages_root]|lia]. }
  rewrite (proj2 (Z.eqb_neq _ _) Hr), Hp. cbn [negb when].
  destruct (kfree_change s (p_trapframe p) ps) as (s1 & E1 & O1 & C1); [done..|]. run E1.
  assert (Hi1 : procs s1 !! i = Some p) by (rewrite O1; by rs). run (updproc_at i _ p s1 Hi1). set (s2 := s1 <| procs := _ |>).
  assert (Hs : forall q, owns (mem s) t q -> same_page (mem s) (mem s2) q).
  { intros q Hq. destruct (owns_valid _ _ _ _ (sp_vm _ _ _ H) Hq) as (? & _ & ?). apply C1; [done..|]. intros <-. by apply (sp_apart _ _ _ H). }
  destruct (proc_freepagetable_ok s2 (p_trapframe p :: ps) t (p_sz p)) as (s3 & ps3 & E3 & F3); [..|done| |].
  - eapply uvm_frame; [apply H|apply C1|apply C1|done|]. intros q [-> |Hq]%elem_of_cons Ho; [by apply (sp_apart _ _ _ H)|].
    by destruct (owns_valid _ _ _ _ (sp_vm _ _ _ H) Ho) as (_ & _ & ?).
  - intros va Hva. rewrite (leaf_same (mem s)) by done. by apply Hu.
  - run E3. assert (O3 := fd_only _ _ _ _ _ F3).
    assert (Hi3 : procs s3 !! i = Some (p <| p_trapframe := 0 |>)) by (rewrite O3; unfold s2; rs; by eapply set_proc_lookup).
    rewrite (updproc_at i _ _ s3 Hi3). eexists _, ps3. split; [done|]. unfold proc_only. rs.
    assert (Ho : forall q, owns (mem s2) t q <-> owns (mem s) t q) by (intros q; by apply owns_same).
    split_and!.
    + rewrite O3. unfold s2. rs. rewrite list_insert_insert_eq, O1. rs. st_eq s.
    + eapply mchange_trans; [eapply mchange_weaken; [exact C1|intros q <-; by left]|].
      eapply mchange_weaken; [|intros q Hq; right; by apply Ho].
      eapply mchange_mem; [apply (freed_change _ _ _ _ _ F3)|..]; rs; try done; [apply C1|rewrite O3; unfold s2; rs; apply C1].
    + intros q. rewrite (fd_free _ _ _ _ _ F3), Ho, elem_of_cons. unfold has. cbn [fst snd]. tauto.
Qed.

(** ** [allocproc] *)

Definition used (s : kstate) (j : nat) : Prop := forall p, procs s !! j = Some p -> p_state p <> UNUSED.

Lemma find_unused_from k n s : (forall j, L_proc j ∉ held s) -> length (procs s) = (k + n)%nat ->
  (find_unused_proc (seq k n) s = Ok None s /\ forall j, (k <= j)%nat -> used s j) \/
  exists np q, find_unused_proc (seq k n) s = Ok (Some np) (s <| held := L_proc np :: held s |>) /\
    procs s !! np = Some q /\ p_state q = UNUSED /\ (k <= np)%nat /\ forall j, (k <= j < np)%nat -> used s j.
Proof.
  intros Hl. revert k. induction n as [|n IH]; intros k Hlen; cbn [seq find_unused_proc].
  { left. split; [done|]. intros j Hj p Hp. apply lookup_lt_Some in Hp. lia. }
  destruct (lookup_lt_is_Some_2 (procs s) k) as [p Hp]; [lia|].
  run (acquire_ok (L_proc k) s (Hl k)). rewrite (bind_getproc k p) by (by rs). destruct (decide (p_state p = UNUSED)) as [Hu|Hu].
  { right. exists k, p. split_and!; try done. intros j Hj. lia. }
  erewrite (bind_ok (release _)) by (eapply release_ok; [rs; reflexivity|apply Hl]). rs.
  assert (Hk : used s k) by (intros p' Hp'; congruence).
  replace (s <| held := _ |> <| held := held s |>) with s by st_eq s.
  destruct (IH (S k)) as [[E Hall]|(np & q & E & Hq & Hqu & Hnp & Hall)]; [lia|left|right].
  - split; [done|]. intros j Hj. destruct (decide (j = k)) as [-> |]; [done|]. apply Hall. lia.
  - exists np, q. split_and!; try done; [lia|]. intros j Hj. destruct (decide (j = k)) as [-> |]; [done|]. apply Hall. lia.
Qed.

Lemma allocpid_ok s : L_pid ∉ held s -> allocpid s = Ok (nextpid s) (s <| nextpid := s32 (nextpid s + 1) |>).
Proof. intros Hl. apply wp_to_eq. unfold allocpid. wsteps. split; [done|]. rs. st_eq s. Qed.

(** What [allocproc] makes of an unused entry. *)
Definition new_proc (q : proc) (pid tf pt : Z) : proc :=
  q <| p_pid := pid |> <| p_state := USED |> <| p_trapframe := tf |> <| p_pagetable := pt |>
    <| p_context := mkContext forkret_addr (u64 (p_kstack q + PGSIZE)) (replicate 12 0) |>.

(** It fails with the free pages as they were, or returns the first unused entry, locked, with an empty address space. *)
Definition allocproc_post (s : kstate) (ps : list Z) (r : option nat) (s' : kstate) (ps' : list Z) : Prop :=
  match r with
  | None => ((forall j, used s j) \/ (length ps <= 6)%nat) /\ (forall q, q ∈ ps' <-> q ∈ ps) /\ held s' = held s /\
      exists l n, s' = s <| mem := mem s' |> <| freelist := freelist s' |> <| procs := l |> <| nextpid := n |> /\
        (l = procs s \/ exists np q, procs s !! np = Some q /\ p_state q = UNUSED /\ l = <[np := cleared_proc q]> (procs s))
  | Some np => exists q tf t, procs s !! np = Some q /\ p_state q = UNUSED /\ (forall j, (j < np)%nat -> used s j) /\
      s' = s <| mem := mem s' |> <| freelist := freelist s' |> <| procs := <[np := new_proc q (nextpid s) tf (pt_root t)]> (procs s) |>
             <| held := L_proc np :: held s |> <| nextpid := s32 (nextpid s + 1) |> /\
      space_ok s' ps' (tf, t) /\ unmapped (mem s') t 0 TRAPFRAME /\ (forall x, x ∈ ps <-> x ∈ ps' \/ has (mem s') (tf, t) x) /\ (length (pt_pages t) <= 5)%nat
  end.

Definition clean (p : proc) : Prop := p_trapframe p = 0 /\ p_pagetable p = 0 /\ p_sz p = 0 /\ p_ofile p = replicate NOFILE None.

Lemma uvm_mem s ps t s' : uvm_ok s ps t -> mem s' = mem s -> freelist s' = freelist s -> L_kmem ∉ held s' -> uvm_ok s' ps t.
Proof.
  intros H Em Ef Hl. destruct (uv_vm _ _ _ H) as (HK & _ & _ & _). eapply uvm_frame; [done|unfold kmem_inv in *; by rewrite Em, Ef|done|..].
  - intros q _. rewrite Em. apply same_page_refl.
  - intros q Hq Ho. by destruct (owns_valid _ _ _ _ H Ho) as (_ & _ & ?).
Qed.

(** The end of [allocproc], when memory has run out. *)
Lemma allocproc_fails np s s1 h : freeproc np s = Ok tt s1 -> held s1 = L_proc np :: h -> L_proc np ∉ h ->
  (freeproc np ;; release (L_proc np) ;; ret (None : option nat)) s = Ok None (s1 <| held := h |>).
Proof. intros E Hh Hn. run E. by run (release_ok (L_proc np) h s1 Hh Hn). Qed.

Lemma cleared_again q pid tf : cleared_proc (q <| p_pid := pid |> <| p_state := USED |> <| p_trapframe := tf |>) = cleared_proc q.
Proof. by destruct q. Qed.

Lemma cleared_again_pt q pt : cleared_proc (q <| p_pagetable := pt |>) = cleared_proc q.
Proof. by destruct q. Qed.

Section alloc.
Context (s : kstate) (np : nat) (q : proc).
Hypothesis Hkm : L_kmem ∉ held s.
Hypothesis Hl : L_proc np ∉ held s.
Hypothesis Hq : procs s !! np = Some q.
Hypothesis Hqu : p_state q = UNUSED.
Hypothesis Hcl : clean q.

(** The state in which [allocproc] asks for memory. *)
Let q1 : proc := q <| p_pid := nextpid s |> <| p_state := USED |>.
Let s1 : kstate := s <| held := L_proc np :: held s |> <| nextpid := s32 (nextpid s + 1) |> <| procs := <[np := q1]> (procs s) |>.

Lemma alloc_lookup x : (<[np := x]> (procs s) : list proc) !! np = Some x.
Proof. by eapply set_proc_lookup. Qed.

(** The first allocation fails. *)
Lemma alloc_no_frame (k : Z -> K (option nat)) : kmem_inv s [] ->
  exists s', (tf <- kalloc ;; updproc np (fun p => p <| p_trapframe := tf |>) ;;
     if tf =? 0 then freeproc np ;; release (L_proc np) ;; ret None else k tf) s1 = Ok None s' /\
    mchange s [] (fun _ => False) s' [] /\ allocproc_post s [] None s' [].
Proof.
  intros HK. destruct HK as (Hf & HK').
  assert (E1 : kalloc s1 = Ok 0 s1) by (apply kalloc_empty; [done|unfold s1; rs; by rewrite not_elem_of_cons]). run E1.
  assert (E2 := updproc_at np (fun p => p <| p_trapframe := 0 |>) q1 s1 (alloc_lookup q1)). run E2.
  change (0 =? 0) with true. cbv iota. destruct Hcl as (Hc1 & Hc2 & _).
  erewrite allocproc_fails; [|apply freeproc_none; [rs; eapply set_proc_lookup, (alloc_lookup q1)|done|done]|by unfold s1; rs|done].
  eexists. split; [done|]. unfold s1. rs. split.
  - split; unfold kmem_inv; rs; [by split|done| |by left]. intros x _ _ _. apply same_page_refl.
  - split; [right; cbn; lia|]. split; [done|]. split; [by rs|]. exists (<[np := cleared_proc q]> (procs s)), (s32 (nextpid s + 1)). split; [|right; by exists np, q].
    rewrite !list_insert_insert_eq. unfold q1. rewrite cleared_again. rs. st_eq s.
Qed.

(** The rest of it, once there is a trap frame [tf]. *)
Section frame.
Context (tf : Z) (ps : list Z) (s3 : kstate).
Let q3 : proc := q1 <| p_trapframe := tf |>.
Hypothesis O3 : s3 = s <| mem := mem s3 |> <| freelist := freelist s3 |> <| held := L_proc np :: held s |>
  <| nextpid := s32 (nextpid s + 1) |> <| procs := <[np := q3]> (procs s) |>.
Hypothesis C3 : mchange s (tf :: ps) (fun _ => False) s3 ps.
Hypothesis Hv : valid_page tf.
Hypothesis Hm : page_mapped (mem s3) tf.
Hypothesis Hn : tf ∉ ps.

Lemma frame_proc s4 : s4 = s3 <| mem := mem s4 |> <| freelist := freelist s4 |> -> procs s4 !! np = Some q3.
Proof. intros ->. rs. rewrite O3. rs. apply alloc_lookup. Qed.

Lemma alloc_no_table s4 ps4 : undone s3 ps s4 ps4 -> (length ps <= 5)%nat -> exists s',
  (updproc np (fun p => p <| p_pagetable := 0 |>) ;; freeproc np ;; release (L_proc np) ;; ret (None : option nat)) s4 = Ok None s' /\
  mchange s (tf :: ps) (fun _ => False) s' (tf :: ps4) /\ allocproc_post s (tf :: ps) None s' (tf :: ps4).
Proof.
  intros U Hfew. pose proof (frame_proc s4 (ud_only _ _ _ _ U)) as H4. run (updproc_at np (fun p => p <| p_pagetable := 0 |>) q3 s4 H4).
  set (q5 := q3 <| p_pagetable := 0 |>). set (s5 := s4 <| procs := <[np := q5]> (procs s4) |>).
  assert (Hn4 : tf ∉ ps4) by (by rewrite (ud_free _ _ _ _ U)).
  assert (Hl4 : L_kmem ∉ held s4) by (rewrite (ud_only _ _ _ _ U); rs; apply C3).
  destruct (freeproc_frame np q5 s5 ps4) as (s6 & E6 & O6 & C6); try done; [apply U|unfold s5; rs; by eapply set_proc_lookup|by eapply same_page_mapped; [apply U|]|].
  assert (Hh6 : held s6 = L_proc np :: held s) by (rewrite O6; unfold s5; rs; rewrite (ud_only _ _ _ _ U); rs; by rewrite O3; rs).
  rewrite (allocproc_fails np s5 s6 (held s) E6 Hh6 Hl). eexists. split; [done|]. split.
  - eapply (mchange_free _ _ (eq tf)); [|intros x <-; by left]. eapply mchange_trans; [by eapply mchange_weaken; [exact C3|]|].
    eapply mchange_trans; [by eapply mchange_weaken; [apply (undone_change _ _ _ _ U); apply C3|]|].
    eapply mchange_mem; [exact C6|..]; done.
  - split; [right; cbn [length]; lia|]. split; [intros x; rewrite !elem_of_cons, (ud_free _ _ _ _ U); done|]. split; [by rs|].
    exists (<[np := cleared_proc q]> (procs s)), (s32 (nextpid s + 1)). split; [|right; by exists np, q].
    rs. rewrite O6. unfold s5. rs. rewrite (ud_only _ _ _ _ U). rs. rewrite O3. unfold q5, q3, q1. rs.
    rewrite !list_insert_insert_eq, cleared_again_pt, cleared_again. st_eq s.
Qed.

Lemma alloc_table s4 ps4 t : new_space s3 ps tf s4 ps4 t -> exists s',
  (updproc np (fun p => p <| p_pagetable := pt_root t |>) ;;
   updproc np (fun p => p <| p_context := mkContext forkret_addr (u64 (p_kstack p + PGSIZE)) (replicate 12 0) |>) ;; ret (Some np)) s4 = Ok (Some np) s' /\
  mchange s (tf :: ps) (fun _ => False) s' ps4 /\ ((forall j, (j < np)%nat -> used s j) -> allocproc_post s (tf :: ps) (Some np) s' ps4).
Proof.
  intros N. pose proof (frame_proc s4 (ns_only _ _ _ _ _ _ N)) as H4. run (updproc_at np (fun p => p <| p_pagetable := pt_root t |>) q3 s4 H4).
  erewrite (bind_ok (updproc np _)) by (apply updproc_at; rs; by eapply set_proc_lookup).
  assert (Hl4 : L_kmem ∉ held s4) by (rewrite (ns_only _ _ _ _ _ _ N); rs; apply C3).
  eexists. split; [done|]. split.
  - eapply mchange_trans; [exact C3|]. eapply mchange_mem; [apply (new_space_change _ _ _ _ _ _ N); apply C3|..]; done.
  - intros Hu. exists q, tf, t. split_and!; [done..| | | | |apply N].
    + rs. rewrite (ns_only _ _ _ _ _ _ N). rs. rewrite O3. rs. rewrite !list_insert_insert_eq. st_eq s.
    + assert (Hx : tf ∉ ps4 /\ ~ owns (mem s4) t tf) by (split; intros ?; apply Hn, (ns_free _ _ _ _ _ _ N); auto).
      split; rs; cbn [fst snd]; try apply N; [by eapply uvm_mem; [apply N|..]|split_and!; [done| |apply Hx]|apply Hx].
      eapply same_page_mapped; [by apply N|done].
    + apply N.
    + rs. intros x. unfold has. cbn [fst snd]. rewrite elem_of_cons, (ns_free _ _ _ _ _ _ N). tauto.
Qed.
End frame.

(** The trap frame has been allocated. *)
Lemma alloc_frame tf ps : kmem_inv s (tf :: ps) -> exists r s' ps',
  (tf <- kalloc ;; updproc np (fun p => p <| p_trapframe := tf |>) ;;
   if tf =? 0 then freeproc np ;; release (L_proc np) ;; ret None
   else
     pt <- proc_pagetable np ;;
     updproc np (fun p => p <| p_pagetable := pt |>) ;;
     if pt =? 0 then freeproc np ;; release (L_proc np) ;; ret None
     else
       updproc np (fun p => p <| p_context := mkContext forkret_addr (u64 (p_kstack p + PGSIZE)) (replicate 12 0) |>) ;;
       ret (Some np)) s1 = Ok r s' /\
  mchange s (tf :: ps) (fun _ => False) s' ps' /\ ((forall j, (j < np)%nat -> used s j) -> allocproc_post s (tf :: ps) r s' ps').
Proof.
  intros HK. assert (Hlk1 : L_kmem ∉ held s1) by (unfold s1; rs; by rewrite not_elem_of_cons).
  destruct (kalloc_change s1 tf ps HK Hlk1) as (s2 & E2 & O2 & C2 & Hv & Hm & Hn). run E2.
  assert (H2 : procs s2 !! np = Some q1) by (rewrite O2; apply alloc_lookup). run (updproc_at np (fun p => p <| p_trapframe := tf |>) q1 s2 H2).
  pose proof (valid_page_pos _ Hv) as [Hpos _]. rewrite (proj2 (Z.eqb_neq tf 0)) by lia.
  set (q3 := q1 <| p_trapframe := tf |>). set (s3 := s2 <| procs := <[np := q3]> (procs s2) |>).
  assert (C3 : mchange s (tf :: ps) (fun _ => False) s3 ps) by (eapply mchange_mem; [exact C2|..]; done || apply C2).
  assert (O3 : s3 = s <| mem := mem s3 |> <| freelist := freelist s3 |> <| held := L_proc np :: held s |>
    <| nextpid := s32 (nextpid s + 1) |> <| procs := <[np := q3]> (procs s) |>).
  { unfold s3. rs. rewrite O2. unfold s1. rs. rewrite list_insert_insert_eq. st_eq s. }
  destruct (proc_pagetable_ok np q3 s3 ps) as (r & s4 & ps4 & E4 & P4); [apply C3|apply C3|rewrite O3; apply alloc_lookup|done|].
  run E4. destruct P4 as [(-> & U & Hfew)|(Hr & t & <- & N)].
  - destruct (alloc_no_table tf ps s3 O3 C3 Hv Hm Hn s4 ps4 U Hfew) as (s' & E & C & P). by exists None, s', (tf :: ps4).
  - rewrite (proj2 (Z.eqb_neq _ _) Hr). destruct (alloc_table tf ps s3 O3 C3 Hv Hm Hn s4 ps4 t N) as (s' & E & C & P). by exists (Some np), s', ps4.
Qed.

End alloc.

Lemma allocproc_ok s ps : kmem_inv s ps -> length (procs s) = NPROC -> (forall j, L_proc j ∉ held s) -> L_pid ∉ held s -> L_kmem ∉ held s ->
  (forall j q, procs s !! j = Some q -> p_state q = UNUSED -> clean q) ->
  exists r s' ps', allocproc s = Ok r s' /\ mchange s ps (fun _ => False) s' ps' /\ allocproc_post s ps r s' ps'.
Proof.
  intros HK Hlen Hl Hpid Hkm Hcl. unfold allocproc.
  destruct (find_unused_from 0 NPROC s Hl Hlen) as [[E Hall]|(np & q & E & Hq & Hqu & _ & Hall)]; run E.
  { exists None, s, ps. split; [done|]. split; [by split; [..|by left]|]. split; [left; intros j; apply Hall; lia|]. split; [done|]. split; [done|].
    exists (procs s), (nextpid s). split; [by destruct s|by left]. }
  erewrite (bind_ok allocpid) by (apply allocpid_ok; rs; by rewrite not_elem_of_cons). cbv beta. rs.
  erewrite (bind_ok (updproc np _)) by (apply updproc_at; rs; exact Hq).
  pose proof (Hcl np q Hq Hqu) as Hc. destruct ps as [|tf ps].
  - destruct (alloc_no_frame s np q Hkm (Hl np) Hq Hqu Hc (fun tf => pt <- proc_pagetable np ;;
       updproc np (fun p => p <| p_pagetable := pt |>) ;;
       if pt =? 0 then freeproc np ;; release (L_proc np) ;; ret None
       else updproc np (fun p => p <| p_context := mkContext forkret_addr (u64 (p_kstack p + PGSIZE)) (replicate 12 0) |>) ;; ret (Some np)) HK)
      as (s' & E' & C & P). by exists None, s', [].
  - destruct (alloc_frame s np q Hkm (Hl np) Hq Hqu tf ps HK) as (r & s' & ps' & E' & C & P). exists r, s', ps'. split_and!; [done..|].
    apply P. intros j Hj. apply Hall. lia.
Qed.

(** ** The address space of the child *)

Lemma space_ustep s ps tf t s' ps' t' : space_ok s ps (tf, t) -> ustep s ps t s' ps' t' -> space_ok s' ps' (tf, t').
Proof.
  intros H U. destruct (sp_frame _ _ _ H) as (Hv & Hm & Hn). pose proof (sp_apart _ _ _ H) as Ha. cbn [fst snd] in *.
  assert (Hx : ~ (tf ∈ ps' \/ owns (mem s') t' tf)) by (rewrite (us_conserve _ _ _ _ _ _ U); tauto).
  split; cbn [fst snd].
  - apply U.
  - split_and!; [done|eapply same_page_mapped; [by apply U|done]|tauto].
  - tauto.
  - rewrite (us_high _ _ _ _ _ _ U) by done. apply H.
  - rewrite (us_high _ _ _ _ _ _ U) by done. apply H.
Qed.

(** Stores into the trap frame. *)
Lemma space_frame_store s ps tf t s' : space_ok s ps (tf, t) -> mchange s ps (eq tf) s' ps -> page_mapped (mem s') tf -> space_ok s' ps (tf, t).
Proof.
  intros H C Hm. destruct (sp_frame _ _ _ H) as (Hv & _ & Hn). pose proof (sp_apart _ _ _ H) as Ha. cbn [fst snd] in *.
  assert (Hs : forall q, owns (mem s) t q -> same_page (mem s) (mem s') q).
  { intros q Hq. destruct (owns_valid _ _ _ _ (sp_vm _ _ _ H) Hq) as (? & _ & ?). apply C; [done..|]. by intros <-. }
  split; cbn [fst snd].
  - eapply uvm_frame; [apply H|apply C|apply C|done|]. intros q Hin Hq. by destruct (owns_valid _ _ _ _ (sp_vm _ _ _ H) Hq) as (_ & _ & ?).
  - done.
  - by rewrite (owns_same (mem s)).
  - rewrite (leaf_same (mem s)) by done. apply H.
  - rewrite (leaf_same (mem s)) by done. apply H.
Qed.

(** The spaces [A] of the other processes next to that of a new one, [x]. *)
Record with_new (s : kstate) (ps : list Z) (A : gmap nat (Z * ptree)) (x : Z * ptree) : Prop := {
  wn_spaces : spaces_ok s ps A;
  wn_new : space_ok s ps x;
  wn_apart : forall j y q, A !! j = Some y -> has (mem s) y q -> ~ has (mem s) x q;
}.

(** The pages of [A] keep their contents. *)
Definition kept (A : gmap nat (Z * ptree)) (m m' : memory) : Prop :=
  forall j y q, A !! j = Some y -> has m y q -> same_page m m' q.

Lemma kept_has A m m' j y q : kept A m m' -> A !! j = Some y -> has m' y q <-> has m y q.
Proof. intros K Hj. apply has_same. intros r. by eapply K. Qed.

Lemma kept_trans A m m1 m2 : kept A m m1 -> kept A m1 m2 -> kept A m m2.
Proof. intros K1 K2 j y q Hj Hq. eapply same_page_trans; [by eapply K1|]. eapply K2; [done|]. by rewrite (kept_has A m). Qed.

Lemma change_kept s ps own s' ps' A : mchange s ps own s' ps' -> spaces_ok s ps A ->
  (forall i x q, A !! i = Some x -> has (mem s) x q -> ~ own q) -> kept A (mem s) (mem s').
Proof. intros C H Hn j y q Hj Hq. eapply change_same; [done|by eapply ss_ok|done|by eapply Hn]. Qed.

Lemma alloc_with_new s ps A s1 ps1 x : spaces_ok s ps A -> mchange s ps (fun _ => False) s1 ps1 -> space_ok s1 ps1 x ->
  (forall q, q ∈ ps <-> q ∈ ps1 \/ has (mem s1) x q) -> with_new s1 ps1 A x /\ kept A (mem s) (mem s1).
Proof.
  intros H C Hx Hfree. assert (K : kept A (mem s) (mem s1)) by (eapply change_kept; [done|done|tauto]).
  split; [|done]. split; [eapply change_spaces; [done|done|tauto]|done|]. intros j y q Hj Hy Hq.
  rewrite (kept_has A (mem s)) in Hy by done. destruct (has_page _ _ _ _ (ss_ok _ _ _ H j y Hj) Hy) as (_ & _ & Hps).
  apply Hps, Hfree. by right.
Qed.

(** A change of the new space, in memory that is free or its own. *)
Lemma change_with_new s ps A x s' ps' x' : with_new s ps A x -> mchange s ps (has (mem s) x) s' ps' -> space_ok s' ps' x' ->
  (forall q, q ∈ ps' \/ has (mem s') x' q <-> q ∈ ps \/ has (mem s) x q) -> with_new s' ps' A x' /\ kept A (mem s) (mem s').
Proof.
  intros [H Hx Ha] C Hx' Hfree. assert (K : kept A (mem s) (mem s')) by (eapply change_kept; done).
  split; [|done]. split; [by eapply change_spaces|done|]. intros j y q Hj Hy Hq. rewrite (kept_has A (mem s)) in Hy by done.
  destruct (has_page _ _ _ _ (ss_ok _ _ _ H j y Hj) Hy) as (_ & _ & Hps). destruct (proj1 (Hfree q) (or_intror Hq)); [done|by eapply Ha].
Qed.

Lemma with_new_insert s ps A i x : with_new s ps A x -> spaces_ok s ps (<[i := x]> A).
Proof. intros [H Hx Ha]. apply spaces_insert; [done..|]. intros j y q _. by eapply Ha. Qed.

Lemma ustep_with_new s ps A tf t s' ps' t' : with_new s ps A (tf, t) -> ustep s ps t s' ps' t' ->
  with_new s' ps' A (tf, t') /\ kept A (mem s) (mem s') /\ forall q, q ∈ ps' \/ has (mem s') (tf, t') q <-> q ∈ ps \/ has (mem s) (tf, t) q.
Proof.
  intros H U. assert (Hf : forall q, q ∈ ps' \/ has (mem s') (tf, t') q <-> q ∈ ps \/ has (mem s) (tf, t) q).
  { intros q. unfold has. cbn [fst snd]. pose proof (us_conserve _ _ _ _ _ _ U q). tauto. }
  destruct (change_with_new s ps A (tf, t) s' ps' (tf, t') H) as [H' K]; [| |done|done].
  - eapply mchange_weaken; [by eapply ustep_change|]. intros q Hq. by right.
  - eapply space_ustep; [apply H|done].
Qed.

Lemma frame_with_new s ps A tf t s' : with_new s ps A (tf, t) -> mchange s ps (eq tf) s' ps -> page_mapped (mem s') tf ->
  with_new s' ps A (tf, t) /\ kept A (mem s) (mem s') /\ (forall q, owns (mem s) t q -> same_page (mem s) (mem s') q) /\
  forall q, q ∈ ps \/ has (mem s') (tf, t) q <-> q ∈ ps \/ has (mem s) (tf, t) q.
Proof.
  intros H C Hm. assert (Hs : forall q, owns (mem s) t q -> same_page (mem s) (mem s') q).
  { intros q Hq. destruct (owns_valid _ _ _ _ (sp_vm _ _ _ (wn_new _ _ _ _ H)) Hq) as (? & _ & ?). apply C; [done..|].
    intros <-. by apply (sp_apart _ _ _ (wn_new _ _ _ _ H)). }
  assert (Hf : forall q, q ∈ ps \/ has (mem s') (tf, t) q <-> q ∈ ps \/ has (mem s) (tf, t) q).
  { intros q. unfold has. cbn [fst snd]. by rewrite (owns_same (mem s)). }
  destruct (change_with_new s ps A (tf, t) s' ps (tf, t) H) as [H' K]; [| |done|done].
  - eapply mchange_weaken; [exact C|]. intros q <-. by left.
  - eapply space_frame_store; [apply H|done..].
Qed.

(** ** Open files *)

Definition zsum {B : Type} (f : B -> Z) (l : list B) : Z := foldr (fun x n => f x + n) 0 l.

Lemma zsum_app {B} (f : B -> Z) l1 l2 : zsum f (l1 ++ l2) = zsum f l1 + zsum f l2.
Proof. induction l1 as [|x l1 IH]; cbn; [done|]. fold (zsum f (l1 ++ l2)). fold (zsum f l1). lia. Qed.

Lemma zsum_insert {B} (f : B -> Z) l i x y : l !! i = Some x -> zsum f (<[i := y]> l) = zsum f l - f x + f y.
Proof.
  intros Hi. pose proof (take_drop_middle _ _ _ Hi) as Hl. rewrite <- Hl at 2.
  rewrite insert_take_drop by (by eapply lookup_lt_Some). rewrite !zsum_app. cbn. fold (zsum f (drop (S i) l)). lia.
Qed.

Lemma zsum_ge {B} (f : B -> Z) l i x : (forall y, 0 <= f y) -> l !! i = Some x -> f x <= zsum f l.
Proof.
  intros Hf Hi. pose proof (take_drop_middle _ _ _ Hi) as <-. rewrite zsum_app. cbn. fold (zsum f (drop (S i) l)).
  assert (Hp : forall k, 0 <= zsum f k) by (induction k as [|y k IH]; cbn; [done|]; fold (zsum f k); specialize (Hf y); lia).
  pose proof (Hp (take i l)). pose proof (Hp (drop (S i) l)). lia.
Qed.

(** How often file [f] is among the descriptors [l], and among those of all processes. *)
Definition fds (f : nat) (l : list (option nat)) : Z := zsum (fun o => if decide (o = Some f) then 1 else 0) l.
Definition fd_total (f : nat) (l : list proc) : Z := zsum (fun p => fds f (p_ofile p)) l.

(** The file table with the references that the descriptors [l] stand for added. *)
Definition refs_plus (l : list (option nat)) (ft : list file) : list file := imap (fun f fl => fl <| f_ref := f_ref fl + fds f l |>) ft.

Lemma refs_plus_lookup l ft f : refs_plus l ft !! f = (fun fl => fl <| f_ref := f_ref fl + fds f l |>) <$> ft !! f.
Proof. unfold refs_plus. by rewrite list_lookup_imap. Qed.

Lemma fds_nonneg f l : 0 <= fds f l.
Proof. unfold fds. induction l as [|o l IH]; cbn; [done|]. case_decide; fold (zsum (fun o => if decide (o = Some f) then 1 else 0) l); lia. Qed.

Lemma refs_plus_nil ft : refs_plus [] ft = ft.
Proof.
  apply list_eq. intros f. rewrite refs_plus_lookup. destruct (ft !! f) as [fl|]; [|done]. cbn [fmap option_fmap option_map].
  change (fds f []) with 0. rewrite Z.add_0_r. by destruct fl.
Qed.

Lemma fds_snoc f l o : fds f (l ++ [o]) = fds f l + (if decide (o = Some f) then 1 else 0).
Proof. unfold fds. rewrite zsum_app. cbn [zsum foldr]. lia. Qed.

Lemma refs_plus_none l ft : refs_plus (l ++ [None]) ft = refs_plus l ft.
Proof. apply list_eq. intros f. rewrite !refs_plus_lookup, fds_snoc. by rewrite Z.add_0_r. Qed.

Lemma refs_plus_some l g ft : refs_plus (l ++ [Some g]) ft = alter (fun fl => fl <| f_ref := f_ref fl + 1 |>) g (refs_plus l ft).
Proof.
  apply list_eq. intros f. rewrite list_lookup_alter, !refs_plus_lookup, fds_snoc. destruct (decide (g = f)) as [-> |Hne].
  - rewrite decide_True by done. destruct (ft !! f) as [fl|]; [|done]. cbn [fmap option_fmap option_map]. rewrite Z.add_assoc. by destruct fl.
  - rewrite decide_False by congruence. by rewrite Z.add_0_r.
Qed.

Lemma filedup_ok f fl s : ftable s !! f = Some fl -> 1 <= f_ref fl -> L_ftable ∉ held s ->
  filedup f s = Ok f (s <| ftable := alter (fun fl => fl <| f_ref := f_ref fl + 1 |>) f (ftable s) |>).
Proof.
  intros Hf Hr Hl. unfold filedup. run (acquire_ok L_ftable s Hl).
  erewrite (bind_ok (getfile f)) by (by apply get_at_ok). rewrite bind_panic_if by (by apply Z.ltb_ge).
  unfold updfile. rewrite bind_modify. erewrite (bind_ok (release _)) by (eapply release_ok; [by rs|done]).
  apply Ok_eq; [done|]. rs. st_eq s.
Qed.

(** The descriptors of the child when [k] of the parent's have been copied. *)
Definition copied_fds (l : list (option nat)) (k : nat) : list (option nat) := take k l ++ replicate (NOFILE - k) None.

Lemma copied_fds_set l k o : l !! k = Some o -> (k < NOFILE)%nat ->
  <[k := o]> (copied_fds l k) = copied_fds l (S k) /\ copied_fds l k !! k = Some None.
Proof.
  intros Hk Hn. assert (Hl : length (take k l) = k) by (apply length_take_le; apply lookup_lt_Some in Hk; lia).
  unfold copied_fds. rewrite (take_S_r _ _ _ Hk). replace (NOFILE - k)%nat with (S (NOFILE - S k)) by lia. cbn [replicate]. split.
  - rewrite insert_app_r_alt by lia. rewrite Hl, Nat.sub_diag. by rewrite <- app_assoc.
  - rewrite lookup_app_r by lia. by rewrite Hl, Nat.sub_diag.
Qed.

Section dup.
Context (i np : nat) (p q : proc) (s : kstate).
Hypothesis Hne : i <> np.
Hypothesis Hp : procs s !! i = Some p.
Hypothesis Hq : procs s !! np = Some q.
Hypothesis Hlen : length (p_ofile p) = NOFILE.
Hypothesis Hl : L_ftable ∉ held s.
Hypothesis Hrefs : forall fd f, p_ofile p !! fd = Some (Some f) -> exists fl, ftable s !! f = Some fl /\ 1 <= f_ref fl.

Let dup_state (k : nat) : kstate :=
  s <| procs := <[np := q <| p_ofile := copied_fds (p_ofile p) k |>]> (procs s) |> <| ftable := refs_plus (take k (p_ofile p)) (ftable s) |>.

Lemma dup_step k : (k < NOFILE)%nat -> dup_file i np (Z.of_nat k) (dup_state k) = Ok tt (dup_state (S k)).
Proof.
  intros Hk. unfold dup_file. rewrite (bind_getproc i p) by (unfold dup_state; rs; by rewrite list_lookup_insert_ne).
  rewrite Nat2Z.id. destruct (lookup_lt_is_Some_2 (p_ofile p) k) as [o Ho]; [lia|]. rewrite Ho.
  destruct (copied_fds_set _ _ _ Ho Hk) as [Hset Hnone]. destruct o as [f|].
  - destruct (Hrefs k f Ho) as (fl & Hf & Hr). pose proof (fds_nonneg f (take k (p_ofile p))).
    erewrite (bind_ok (filedup f)); [|eapply filedup_ok; [unfold dup_state; rs; by rewrite refs_plus_lookup, Hf|rs; lia|done]].
    unfold set_ofile. erewrite updproc_at; [|unfold dup_state; rs; by eapply set_proc_lookup].
    apply Ok_eq; [done|]. unfold dup_state. rs. rewrite (take_S_r _ _ _ Ho), refs_plus_some, list_insert_insert_eq, <- Hset, Nat2Z.id.
    destruct q. st_eq s.
  - unfold ret. apply Ok_eq; [done|]. unfold dup_state. rewrite (take_S_r _ _ _ Ho), refs_plus_none, <- Hset.
    by rewrite (list_insert_id (copied_fds _ _)).
Qed.

Lemma dup_files : p_ofile q = replicate NOFILE None ->
  foreach (seqZ 0 (Z.of_nat NOFILE)) (dup_file i np) s =
    Ok tt (s <| procs := <[np := q <| p_ofile := p_ofile p |>]> (procs s) |> <| ftable := refs_plus (p_ofile p) (ftable s) |>).
Proof.
  intros Hq0. destruct (foreach_range (fun k t => t = dup_state (Z.to_nat k)) (Z.of_nat NOFILE) (dup_file i np) s) as (s' & E & ->).
  - lia.
  - unfold dup_state, copied_fds. change (Z.to_nat 0) with 0%nat. rewrite take_0, refs_plus_nil, Nat.sub_0_r. cbn [app].
    rewrite <- Hq0. rewrite list_insert_id by (rewrite Hq; by destruct q). st_eq s.
  - intros k t Hk ->. eexists. split; [rewrite <- (Z2Nat.id k) at 1 by lia; apply dup_step; lia|].
    f_equal. lia.
  - rewrite E, Nat2Z.id. apply Ok_eq; [done|]. unfold dup_state, copied_fds. rewrite Nat.sub_diag, app_nil_r.
    by rewrite (take_ge (p_ofile p)) by lia.
Qed.
End dup.

(** ** The process table *)

(** The entry [p] of a process with the space [o], if it has one, where [ft] is the file table. *)
Record entry_ok (m : memory) (ft : list file) (o : option (Z * ptree)) (p : proc) : Prop := {
  en_mem : match o with
           | Some x => p_trapframe p = x.1 /\ p_pagetable p = pt_root x.2 /\ 0 <= p_sz p <= TRAPFRAME /\ unmapped m x.2 (PGROUNDUP (p_sz p)) TRAPFRAME
           | None => p_trapframe p = 0 /\ p_pagetable p = 0 /\ p_sz p = 0
           end;
  en_unused : p_state p = UNUSED <-> o = None;
  en_closed : p_state p = UNUSED \/ p_state p = ZOMBIE -> p_ofile p = replicate NOFILE None;
  en_length : length (p_ofile p) = NOFILE;
  en_fds : forall fd f, p_ofile p !! fd = Some (Some f) -> is_Some (ft !! f);
}.

Record ptable_ok (s : kstate) (ps : list Z) (A : gmap nat (Z * ptree)) : Prop := {
  pk_spaces : spaces_ok s ps A;
  pk_length : length (procs s) = NPROC;
  pk_entry : forall i p, procs s !! i = Some p -> entry_ok (mem s) (ftable s) (A !! i) p;
  pk_dom : forall i x, A !! i = Some x -> is_Some (procs s !! i);
  pk_refs : forall f fl, ftable s !! f = Some fl -> fd_total f (procs s) <= f_ref fl;
}.

Lemma pk_some s ps A i p x : ptable_ok s ps A -> procs s !! i = Some p -> A !! i = Some x -> p_trapframe p = x.1 /\ p_pagetable p = pt_root x.2 /\
  0 <= p_sz p <= TRAPFRAME /\ unmapped (mem s) x.2 (PGROUNDUP (p_sz p)) TRAPFRAME.
Proof. intros H Hp Hx. pose proof (en_mem _ _ _ _ (pk_entry _ _ _ H i p Hp)) as Hm. by rewrite Hx in Hm. Qed.

Lemma kept_unmapped A m m' j y lo hi : kept A m m' -> A !! j = Some y -> unmapped m y.2 lo hi -> unmapped m' y.2 lo hi.
Proof. intros K Hj Hu va Hva. rewrite (leaf_same m); [by apply Hu|]. intros q Hq. eapply K; [done|by right]. Qed.

Lemma fds_none f n : fds f (replicate n None) = 0.
Proof. induction n as [|n IH]; [done|]. unfold fds in *. cbn. fold (zsum (fun o => if decide (o = Some f) then 1 else 0) (replicate n None)). by rewrite IH. Qed.

(** An unused entry stays unused. *)
Definition idle_of (q q' : proc) : Prop := p_state q' = UNUSED /\ p_trapframe q' = 0 /\ p_pagetable q' = 0 /\ p_sz q' = 0 /\ p_ofile q' = p_ofile q.

Definition idle_change (l l' : list proc) : Prop :=
  l' = l \/ exists np q q', l !! np = Some q /\ p_state q = UNUSED /\ idle_of q q' /\ l' = <[np := q']> l.

Lemma idle_used l l' j q : idle_change l l' -> l !! j = Some q -> p_state q <> UNUSED -> l' !! j = Some q.
Proof. intros [-> |(np & q' & r & Hq & Hu & Hi & ->)] Hj Hn; [done|]. rewrite list_lookup_insert_ne; [done|]. intros ->. congruence. Qed.

(** An entry whose space keeps its contents. *)
Lemma entry_same m ft o p m' ft' : entry_ok m ft o p -> (forall x va, o = Some x -> leaf m' x.2 va = leaf m x.2 va) ->
  (forall f, is_Some (ft !! f) -> is_Some (ft' !! f)) -> entry_ok m' ft' o p.
Proof.
  intros [H1 H2 H3 H4 H5] Hl Hf. split; try done; [|intros fd f Hfd; by eapply Hf, H5]. destruct o as [x|]; [|done].
  destruct H1 as (? & ? & ? & Hu). split_and!; try done; try lia. intros va Hva. rewrite Hl by done. by apply Hu.
Qed.

Lemma kept_leaf A m m' j y va : kept A m m' -> A !! j = Some y -> leaf m' y.2 va = leaf m y.2 va.
Proof. intros K Hj. apply leaf_same. intros q Hq. eapply K; [done|by right]. Qed.

(** The entry of process [i] changes. *)
Lemma ptable_update s ps A i p s' ps' A' p' : ptable_ok s ps A -> procs s !! i = Some p -> procs s' = <[i := p']> (procs s) ->
  spaces_ok s' ps' A' -> (forall j, j <> i -> A' !! j = A !! j) -> kept (delete i A) (mem s) (mem s') ->
  entry_ok (mem s') (ftable s') (A' !! i) p' -> (forall f, is_Some (ftable s !! f) -> is_Some (ftable s' !! f)) ->
  (forall f fl', ftable s' !! f = Some fl' -> exists fl, ftable s !! f = Some fl /\ f_ref fl - fds f (p_ofile p) + fds f (p_ofile p') <= f_ref fl') ->
  ptable_ok s' ps' A'.
Proof.
  intros H Hp El HS HA K He Hft Hrefs. split; rewrite ?El; [done|rewrite length_insert; apply H|..].
  - intros j q Hj. destruct (decide (j = i)) as [-> |Hne].
    + rewrite (set_proc_lookup _ _ _ _ Hp) in Hj. by injection Hj as <-.
    + rewrite list_lookup_insert_ne in Hj by done. rewrite HA by done. eapply entry_same; [by apply H| |done].
      intros x va Hx. eapply kept_leaf; [exact K|]. by rewrite lookup_delete_ne.
  - intros j x Hj. destruct (decide (j = i)) as [-> |Hne]; [rewrite (set_proc_lookup _ _ _ _ Hp); eauto|].
    rewrite list_lookup_insert_ne by done. rewrite HA in Hj by done. by eapply pk_dom.
  - intros f fl' Hf. destruct (Hrefs f fl' Hf) as (fl & Hfl & Hr). pose proof (pk_refs _ _ _ H f fl Hfl).
    unfold fd_total in *. rewrite (zsum_insert _ _ _ _ _ Hp). lia.
Qed.

Lemma kept_delete A i m m' : kept A m m' -> kept (delete i A) m m'.
Proof. intros K j y q [_ Hj]%lookup_delete_Some. by eapply K. Qed.

Lemma ptable_idle s ps A s' ps' l n : ptable_ok s ps A -> spaces_ok s' ps' A -> kept A (mem s) (mem s') ->
  s' = s <| mem := mem s' |> <| freelist := freelist s' |> <| procs := l |> <| nextpid := n |> -> idle_change (procs s) l -> ptable_ok s' ps' A.
Proof.
  intros H HS K Es Hl. assert (El : procs s' = l) by (rewrite Es; by rs). assert (Ef : ftable s' = ftable s) by (rewrite Es; by rs). clear Es.
  destruct Hl as [-> |(np & q & q' & Hq & Hu & (Hu' & H1 & H2 & H3 & H4) & ->)].
  - split; rewrite ?El, ?Ef; [done|apply H| |apply H|apply H]. intros j p Hp. eapply entry_same; [by apply H| |done].
    intros x va Hx. by eapply kept_leaf.
  - pose proof (pk_entry _ _ _ H np q Hq) as He. assert (Hn : A !! np = None) by (by apply He).
    eapply ptable_update; [exact H|exact Hq|done|done|done|by apply kept_delete| |by rewrite Ef|].
    + rewrite Hn, Ef. split; [done|by rewrite Hu'|rewrite H4; intros _; apply He; by left|rewrite H4; apply He|rewrite H4; apply He].
    + intros f fl. rewrite Ef, H4. intros Hf. exists fl. split; [done|lia].
Qed.

(** ** [kfork] *)

(** What [kfork] does once the child has its memory. *)
Definition fork_rest (i np : nat) (p q : proc) : K Z :=
  updproc np (fun q => q <| p_sz := p_sz p |>) ;;
  kmemmove (p_trapframe q) (p_trapframe p) TF_SIZE ;;
  tf_set np TF_a0 0 ;;
  foreach (seqZ 0 (Z.of_nat NOFILE)) (dup_file i np) ;;
  cwd <- (match p_cwd p with Some c => idup c | None => fault end) ;;
  updproc np (fun q => q <| p_cwd := Some cwd |> <| p_name ::= blit 0 (safestrcpy (p_name p) 16) |>) ;;
  q <- getproc np ;;
  let pid := p_pid q in
  release (L_proc np) ;;
  acquire L_wait ;;
  updproc np (fun q => q <| p_parent := Some i |>) ;;
  release L_wait ;;
  acquire (L_proc np) ;;
  updproc np (fun q => q <| p_state := RUNNABLE |>) ;;
  release (L_proc np) ;;
  ret pid.

(** The child's entry, from what [allocproc] left there. *)
Definition child_of (i : nat) (p q : proc) : proc :=
  q <| p_sz := p_sz p |> <| p_ofile := p_ofile p |> <| p_cwd := p_cwd p |> <| p_name ::= blit 0 (safestrcpy (p_name p) 16) |>
    <| p_parent := Some i |> <| p_state := RUNNABLE |>.

(** The child's trap frame: the parent's, with 0 for the register [a0] in which the system call returns. *)
Definition child_frame (m : memory) (tf : Z) (l : list Z) : memory :=
  store_bytes (store_bytes m tf l) (tf + TF_a0) (le_encode 8 0).

Lemma idup_ok c s : L_itable ∉ held s -> idup c s = Ok c (s <| itable := alter (fun ip => ip <| i_ref := i_ref ip + 1 |>) c (itable s) |>).
Proof.
  intros Hl. unfold idup. run (acquire_ok L_itable s Hl). unfold updinode. rewrite bind_modify.
  erewrite (bind_ok (release _)) by (eapply release_ok; [by rs|done]). apply Ok_eq; [done|]. rs. st_eq s.
Qed.

(** The child gets a directory, a name and a parent, and may run. *)
Lemma fork_publish i np c p q s : procs s !! np = Some q -> held s = [L_proc np] ->
  (updproc np (fun q => q <| p_cwd := Some c |> <| p_name ::= blit 0 (safestrcpy (p_name p) 16) |>) ;;
   q <- getproc np ;;
   release (L_proc np) ;; acquire L_wait ;; updproc np (fun q => q <| p_parent := Some i |>) ;; release L_wait ;;
   acquire (L_proc np) ;; updproc np (fun q => q <| p_state := RUNNABLE |>) ;; release (L_proc np) ;; ret (p_pid q)) s =
  Ok (p_pid q) (s <| procs := <[np := q <| p_cwd := Some c |> <| p_name ::= blit 0 (safestrcpy (p_name p) 16) |>
                                       <| p_parent := Some i |> <| p_state := RUNNABLE |>]> (procs s) |> <| held := [] |>).
Proof.
  intros Hq Hh. erewrite (bind_ok (updproc np _)) by (by apply updproc_at).
  rewrite (bind_getproc np (q <| p_cwd := Some c |> <| p_name ::= blit 0 (safestrcpy (p_name p) 16) |>)) by (rs; by eapply set_proc_lookup).
  erewrite (bind_ok (release _)) by (eapply release_ok; [by rs|set_solver]).
  erewrite (bind_ok (acquire _)) by (apply acquire_ok; rs; set_solver).
  erewrite (bind_ok (updproc np _)) by (apply updproc_at; rs; by eapply set_proc_lookup).
  erewrite (bind_ok (release _)) by (eapply release_ok; [rs; reflexivity|set_solver]).
  erewrite (bind_ok (acquire _)) by (apply acquire_ok; rs; set_solver).
  erewrite (bind_ok (updproc np _)) by (apply updproc_at; rs; by eapply set_proc_lookup, set_proc_lookup).
  erewrite (bind_ok (release _)) by (eapply release_ok; [rs; reflexivity|set_solver]).
  unfold ret. apply Ok_eq; [by rs|]. rs. rewrite !list_insert_insert_eq. st_eq s.
Qed.

Lemma fork_rest_ok i np p q c l s : i <> np -> procs s !! i = Some p -> procs s !! np = Some q -> held s = [L_proc np] ->
  length (p_ofile p) = NOFILE -> p_ofile q = replicate NOFILE None -> p_cwd p = Some c ->
  (forall fd f, p_ofile p !! fd = Some (Some f) -> exists fl, ftable s !! f = Some fl /\ 1 <= f_ref fl) ->
  page_mapped (mem s) (p_trapframe q) -> load_bytes (mem s) (p_trapframe p) 288 = Some l ->
  fork_rest i np p q s = Ok (p_pid q)
    (s <| mem := child_frame (mem s) (p_trapframe q) l |> <| procs := <[np := child_of i p q]> (procs s) |>
       <| ftable := refs_plus (p_ofile p) (ftable s) |> <| itable := alter (fun ip => ip <| i_ref := i_ref ip + 1 |>) c (itable s) |> <| held := [] |>).
Proof.
  intros Hne Hp Hq Hh Hlen Hof Hcwd Hrefs Hm Hload. unfold fork_rest.
  erewrite (bind_ok (updproc np _)) by (by apply updproc_at). set (s1 := s <| procs := _ |>).
  assert (E2 : kmemmove (p_trapframe q) (p_trapframe p) TF_SIZE s1 = Ok tt (s1 <| mem := store_bytes (mem s) (p_trapframe q) l |>)).
  { unfold kmemmove. unfold s1. rs. rewrite (memmove_ok _ _ _ _ l); [done|done|done|]. eapply mapped_sub; [exact Hm|..]; unfold TF_SIZE; lia. }
  run E2. set (s2 := s1 <| mem := _ |>).
  assert (H2 : procs s2 !! np = Some (q <| p_sz := p_sz p |>)) by (unfold s2, s1; rs; by eapply set_proc_lookup).
  assert (E3 : tf_set np TF_a0 0 s2 = Ok tt (s2 <| mem := child_frame (mem s) (p_trapframe q) l |>)).
  { unfold tf_set. rewrite (bind_getproc np (q <| p_sz := p_sz p |>)) by done. rs. apply store64_ok. unfold s2. rs. apply mapped_store.
    eapply mapped_sub; [exact Hm|..]; unfold TF_a0; lia. }
  run E3. set (s3 := s2 <| mem := _ |>).
  assert (E4 := dup_files i np p (q <| p_sz := p_sz p |>) s3 Hne).
  erewrite (bind_ok (foreach _ _)); [|apply E4; clear E4; unfold s3, s2, s1; rs; try done].
  2: by rewrite list_lookup_insert_ne.
  2: rewrite Hh; set_solver.
  rewrite Hcwd. erewrite (bind_ok (idup c)); [|apply idup_ok; unfold s3, s2, s1; rs; rewrite Hh; set_solver].
  rewrite (fork_publish i np c p (q <| p_sz := p_sz p |> <| p_ofile := p_ofile p |>)); unfold s3, s2, s1; rs; [|by eapply set_proc_lookup, set_proc_lookup|done].
  apply Ok_eq; [done|]. rewrite !list_insert_insert_eq. unfold child_of. rewrite Hcwd. st_eq s.
Qed.

Lemma load_sub m a n l k : load_bytes m a n = Some l -> 0 <= k -> k + 8 <= Z.of_nat n ->
  load_bytes m (a + k) 8 = Some (take 8 (drop (Z.to_nat k) l)).
Proof.
  intros Hl Hk Hn. pose proof (length_load_bytes _ _ _ _ Hl) as Hlen.
  assert (Hlt : length (take 8 (drop (Z.to_nat k) l)) = 8%nat) by (rewrite length_take, length_drop; lia).
  rewrite <- Hlt at 1. apply load_bytes_Some. rewrite Hlt. intros j Hj. rewrite lookup_take_lt by lia. rewrite lookup_drop.
  replace j with (a + (j - a)) at 1 by lia. rewrite (load_bytes_lookup _ _ _ _ _ Hl) by lia. f_equal. lia.
Qed.

Lemma child_frame_word m m0 tf tf0 l k : load_bytes m0 tf0 288 = Some l -> 0 <= k < 36 ->
  word (child_frame m tf l) (tf + 8 * k) = if decide (k = 14) then 0 else word m0 (tf0 + 8 * k).
Proof.
  intros Hl Hk. pose proof (length_load_bytes _ _ _ _ Hl) as Hlen. unfold child_frame. case_decide as E.
  - subst k. change (8 * 14) with TF_a0. by apply word_store.
  - rewrite word_store_other by (rewrite length_le_encode; unfold TF_a0; lia). unfold word.
    assert (Hs : load_bytes (store_bytes m tf l) tf 288 = Some l) by (rewrite <- Hlen; apply load_store_same).
    by rewrite (load_sub _ _ _ _ _ Hl), (load_sub _ _ _ _ _ Hs) by lia.
Qed.

(** A child for process [i], whose entry is [p] and whose space is [(tf, t)]. *)
Record forked (s : kstate) (i : nat) (p : proc) (tf : Z) (t : ptree) (np : nat) (q : proc) (x : Z * ptree) (s' : kstate) : Prop := {
  fk_slot : procs s !! np = Some q;
  fk_unused : p_state q = UNUSED;
  fk_first : forall j, (j < np)%nat -> used s j;
  fk_state : exists c, p_cwd p = Some c /\
    s' = s <| mem := mem s' |> <| freelist := freelist s' |> <| nextpid := s32 (nextpid s + 1) |>
           <| procs := <[np := child_of i p (new_proc q (nextpid s) x.1 (pt_root x.2))]> (procs s) |>
           <| ftable := refs_plus (p_ofile p) (ftable s) |> <| itable := alter (fun ip => ip <| i_ref := i_ref ip + 1 |>) c (itable s) |>;
  fk_memory : forall a, 0 <= a < TRAPFRAME -> uview (mem s') x.2 a = uview (mem s) t a;
  fk_frame : forall k, 0 <= k < 36 -> word (mem s') (x.1 + 8 * k) = if decide (k = 14) then 0 else word (mem s) (tf + 8 * k);
}.

(** A child is entered. *)
Lemma ptable_child s ps A s' ps' i p tf t np q x : ptable_ok s ps A -> procs s !! i = Some p -> A !! i = Some (tf, t) -> forked s i p tf t np q x s' ->
  spaces_ok s' ps' (<[np := x]> A) -> kept A (mem s) (mem s') -> ptable_ok s' ps' (<[np := x]> A).
Proof.
  intros H Hp HA F HS K. pose proof (fk_slot _ _ _ _ _ _ _ _ _ F) as Hq. pose proof (fk_unused _ _ _ _ _ _ _ _ _ F) as Hu.
  destruct (fk_state _ _ _ _ _ _ _ _ _ F) as (c & Hc & Es). set (ch := child_of i p (new_proc q (nextpid s) x.1 (pt_root x.2))) in *.
  assert (El : procs s' = <[np := ch]> (procs s)) by (rewrite Es; by rs). assert (Ef : ftable s' = refs_plus (p_ofile p) (ftable s)) by (rewrite Es; by rs). clear Es.
  destruct (pk_some _ _ _ _ _ _ H Hp HA) as (_ & _ & Hsz & Hun). cbn [snd] in Hun. pose proof (pk_entry _ _ _ H i p Hp) as Hep.
  assert (Hft : forall f, is_Some (ftable s !! f) -> is_Some (ftable s' !! f)).
  { intros f Hf. rewrite Ef, refs_plus_lookup. by apply fmap_is_Some. }
  eapply ptable_update; [exact H|exact Hq|exact El|exact HS|intros j Hne; by rewrite lookup_insert_ne|by apply kept_delete| |exact Hft|].
  - rewrite lookup_insert_eq. split; [|done|by intros [?|?]|apply Hep|intros fd f Hfd; by eapply Hft, (en_fds _ _ _ _ Hep)].
    split_and!; [done|done|apply Hsz|apply Hsz|]. intros va Hva. change (p_sz ch) with (p_sz p) in Hva.
    destruct (roundup_low _ Hsz) as (_ & Hr & _). apply unmapped_leaf; [lia|].
    rewrite (fk_memory _ _ _ _ _ _ _ _ _ F) by lia. by apply unmapped_view, Hun.
  - intros f fl'. rewrite Ef, refs_plus_lookup. intros (fl & Hf & ->)%fmap_Some. exists fl. split; [done|].
    rewrite (en_closed _ _ _ _ (pk_entry _ _ _ H np q Hq)), fds_none by (by left). rs. change (p_ofile ch) with (p_ofile p). lia.
Qed.

Section fork.
Context (s : kstate) (ps : list Z) (A : gmap nat (Z * ptree)) (i : nat) (p : proc) (tf : Z) (t : ptree) (c : nat).
Hypothesis H : ptable_ok s ps A.
Hypothesis Hh : held s = [].
Hypothesis Hp : procs s !! i = Some p.
Hypothesis Hrun : p_state p <> UNUSED.
Hypothesis HA : A !! i = Some (tf, t).
Hypothesis Hcwd : p_cwd p = Some c.

Lemma parent_mem : p_trapframe p = tf /\ p_pagetable p = pt_root t /\ 0 <= p_sz p <= TRAPFRAME /\ unmapped (mem s) t (PGROUNDUP (p_sz p)) TRAPFRAME.
Proof. exact (pk_some _ _ _ _ _ _ H Hp HA). Qed.

Lemma fork_clean j q : procs s !! j = Some q -> p_state q = UNUSED -> clean q.
Proof.
  intros Hj Hu. pose proof (pk_entry _ _ _ H j q Hj) as He. pose proof (en_mem _ _ _ _ He) as Hm.
  rewrite (proj1 (en_unused _ _ _ _ He) Hu) in Hm. destruct Hm as (? & ? & ?). split_and!; try done. apply He. by left.
Qed.

Lemma parent_refs fd f : p_ofile p !! fd = Some (Some f) -> exists fl, ftable s !! f = Some fl /\ 1 <= f_ref fl.
Proof.
  intros Hfd. destruct (en_fds _ _ _ _ (pk_entry _ _ _ H i p Hp) fd f Hfd) as [fl Hfl]. exists fl. split; [done|].
  pose proof (pk_refs _ _ _ H f fl Hfl) as Hr.
  assert (H1 : fds f (p_ofile p) <= fd_total f (procs s)).
  { apply (zsum_ge (fun p => fds f (p_ofile p)) (procs s) i p); [|done]. intros y. apply fds_nonneg. }
  assert (H2 : 1 <= fds f (p_ofile p)).
  { assert (Hnn : forall o : option nat, 0 <= (if decide (o = Some f) then 1 else 0)) by (intros o; case_decide; lia).
    pose proof (zsum_ge (fun o => if decide (o = Some f) then 1 else 0) _ _ _ Hnn Hfd) as Hx.
    cbv beta in Hx. rewrite decide_True in Hx by done. exact Hx. }
  lia.
Qed.

(** The free pages and the child's are those that were free. *)
Section child.
Context (ps1 : list Z) (s1 : kstate) (np : nat) (q : proc) (tf1 : Z) (t1 : ptree).
Let q1 : proc := new_proc q (nextpid s) tf1 (pt_root t1).
Hypothesis Hq : procs s !! np = Some q.
Hypothesis Hqu : p_state q = UNUSED.
Hypothesis Hfirst : forall j, (j < np)%nat -> used s j.
Hypothesis O1 : s1 = s <| mem := mem s1 |> <| freelist := freelist s1 |> <| procs := <[np := q1]> (procs s) |>
  <| held := L_proc np :: held s |> <| nextpid := s32 (nextpid s + 1) |>.
Hypothesis W1 : with_new s1 ps1 A (tf1, t1).
Hypothesis K1 : kept A (mem s) (mem s1).
Hypothesis F1 : forall x, x ∈ ps <-> x ∈ ps1 \/ has (mem s1) (tf1, t1) x.

Lemma child_other : i <> np.
Proof. intros ->. congruence. Qed.

Lemma child_procs s2 : s2 = s1 <| mem := mem s2 |> <| freelist := freelist s2 |> -> 
  procs s2 !! i = Some p /\ procs s2 !! np = Some q1 /\ held s2 = [L_proc np].
Proof.
  intros ->. rewrite O1. rs. rewrite Hh. split_and!; [|by eapply set_proc_lookup|done].
  rewrite list_lookup_insert_ne by (intros E; by apply child_other). done.
Qed.

(** The table of the child's pages after a step in its address space. *)
Lemma child_insert s2 ps2 t2 : with_new s2 ps2 A (tf1, t2) -> kept A (mem s) (mem s2) ->
  (forall x, x ∈ ps2 \/ has (mem s2) (tf1, t2) x <-> x ∈ ps1 \/ has (mem s1) (tf1, t1) x) -> A !! np = None ->
  forall x, accounted (mem s2) ps2 (<[np := (tf1, t2)]> A) x <-> accounted (mem s) ps A x.
Proof.
  intros W K F Hnone x. unfold accounted. rewrite F1, <- F. split.
  - intros [?|(j & y & [[<- <-]|[Hne Hj]]%lookup_insert_Some & Hy)]; [by left; left|by left; right|].
    right. exists j, y. by rewrite <- (kept_has A (mem s) (mem s2)).
  - intros [[?|?]|(j & y & Hj & Hy)]; [by left|right; exists np, (tf1, t2); by rewrite lookup_insert_eq|].
    right. exists j, y. rewrite lookup_insert_ne by congruence. by rewrite (kept_has A (mem s) (mem s2)).
Qed.

(** What [kfork] gives. *)
Definition fork_post (r : Z) (s' : kstate) (ps' : list Z) (A' : gmap nat (Z * ptree)) : Prop :=
  (r = -1 /\ A' = A /\ ftable s' = ftable s /\ itable s' = itable s /\
   ((forall j, used s j) \/ Z.of_nat (length ps) <= 3 * (PGROUNDUP (p_sz p) / PGSIZE) + 9)) \/
  exists np q x, r = nextpid s /\ A' = <[np := x]> A /\ forked s i p tf t np q x s'.

Record fork_ok (r : Z) (s' : kstate) (ps' : list Z) (A' : gmap nat (Z * ptree)) : Prop := {
  fo_table : ptable_ok s' ps' A';
  fo_held : held s' = [];
  fo_pages : forall x, accounted (mem s') ps' A' x <-> accounted (mem s) ps A x;
  fo_kept : kept A (mem s) (mem s');
  fo_procs : forall j q, procs s !! j = Some q -> p_state q <> UNUSED -> procs s' !! j = Some q;
  fo_post : fork_post r s' ps' A';
}.

Lemma child_frame_change m2 ps2 l : kmem_inv m2 ps2 -> L_kmem ∉ held m2 -> valid_page tf1 -> tf1 ∉ ps2 -> page_mapped (mem m2) tf1 -> length l = 288%nat ->
  mchange m2 ps2 (eq tf1) (m2 <| mem := child_frame (mem m2) tf1 l |>) ps2 /\ page_mapped (child_frame (mem m2) tf1 l) tf1.
Proof.
  intros HK Hl Hv Hn Hm Hlen. split; [|by do 2 apply mapped_store].
  pose proof (store_change m2 ps2 tf1 0 l HK Hl Hv Hn ltac:(lia) ltac:(lia)) as C1. rewrite Z.add_0_r in C1.
  pose proof (store_change (m2 <| mem := store_bytes (mem m2) tf1 l |>) ps2 tf1 TF_a0 (le_encode 8 0) (mc_inv _ _ _ _ _ C1) Hl Hv Hn) as C2.
  eapply mchange_trans; [exact C1|]. eapply mchange_mem; [apply C2; rewrite ?length_le_encode; unfold TF_a0; lia|..]; done.
Qed.

Lemma fork_success s2 ps2 t2 : A !! np = None -> ustep s1 ps1 t1 s2 ps2 t2 ->
  (forall a, 0 <= a < TRAPFRAME -> uview (mem s2) t2 a = uview (mem s1) t a) ->
  exists r s', fork_rest i np p q1 s2 = Ok r s' /\ fork_ok r s' ps2 (<[np := (tf1, t2)]> A).
Proof.
  intros Hnone U V. destruct (ustep_with_new _ _ _ _ _ _ _ _ W1 U) as (W2 & K2 & F2).
  pose proof (kept_trans _ _ _ _ K1 K2) as K. destruct (child_procs s2 (us_only _ _ _ _ _ _ U)) as (Hi2 & Hnp2 & Hh2).
  destruct parent_mem as (Etf & Ept & Hsz & _).
  destruct (sp_frame _ _ _ (ss_ok _ _ _ (wn_spaces _ _ _ _ W2) i _ HA)) as (_ & Hmtf & _). cbn [fst] in Hmtf.
  destruct (load_bytes_mapped (mem s2) tf 288) as [l Hload]; [eapply mapped_sub; [exact Hmtf|lia|lia]|].
  destruct (sp_frame _ _ _ (wn_new _ _ _ _ W2)) as (Hv1 & Hm1 & Hn1). cbn [fst] in Hv1, Hm1, Hn1.
  assert (Ef2 : ftable s2 = ftable s) by (rewrite (us_only _ _ _ _ _ _ U); rs; rewrite O1; by rs).
  assert (Er := fork_rest_ok i np p q1 c l s2 child_other Hi2 Hnp2 Hh2).
  specialize (Er (en_length _ _ _ _ (pk_entry _ _ _ H i p Hp)) (en_closed _ _ _ _ (pk_entry _ _ _ H np q Hq) (or_introl Hqu)) Hcwd).
  rewrite Ef2, Etf in Er. specialize (Er parent_refs Hm1 Hload).
  eexists _, _. split; [exact Er|]. clear Er. set (s' := s2 <| mem := _ |> <| procs := _ |> <| ftable := _ |> <| itable := _ |> <| held := _ |>).
  destruct (uv_vm _ _ _ (sp_vm _ _ _ (wn_new _ _ _ _ W2))) as (HK2 & _ & _ & Hlk2).
  destruct (child_frame_change s2 ps2 l HK2 Hlk2 Hv1 Hn1 Hm1 (length_load_bytes _ _ _ _ Hload)) as [C3 Hm3].
  assert (C3' : mchange s2 ps2 (eq tf1) s' ps2) by (eapply mchange_mem; [exact C3|done..|]; unfold s'; rs; set_solver).
  destruct (frame_with_new _ _ _ _ _ _ W2 C3' Hm3) as (W3 & K3 & S3 & F3). pose proof (kept_trans _ _ _ _ K K3) as K'.
  assert (F : forked s i p tf t np q (tf1, t2) s').
  { split; try done.
    - exists c. split; [done|]. unfold s'. rs. rewrite (us_only _ _ _ _ _ _ U). rs. rewrite O1. unfold q1. rs. cbn [fst snd].
      rewrite (us_root _ _ _ _ _ _ U), list_insert_insert_eq. change (p_trapframe (new_proc _ _ ?x _)) with x. rewrite <- Hh. st_eq s.
    - cbn [snd]. intros a Ha. unfold s'. rs. rewrite (uview_same (mem s2)) by done. rewrite V by done.
      apply uview_same; [|done]. intros x Hx. eapply K1; [exact HA|by right].
    - cbn [fst]. intros k Hk. unfold s'. rs. rewrite (child_frame_word _ _ _ _ _ _ Hload Hk). case_decide; [done|].
      apply same_page_word; [|lia]. eapply K; [exact HA|by left]. }
  pose proof (with_new_insert _ _ _ np _ W3) as HS. split; [exact (ptable_child s ps A s' ps2 i p tf t np q (tf1, t2) H Hp HA F HS K')|done| |exact K'| |right; by exists np, q, (tf1, t2)].
  - apply (child_insert s' ps2 t2 W3 K'); [|done]. intros x. by rewrite F3, F2.
  - intros j q' Hj Hu. unfold s'. rs. rewrite (us_only _ _ _ _ _ _ U). rs. rewrite O1. rs. rewrite list_insert_insert_eq, list_lookup_insert_ne; [done|].
    intros ->. congruence.
Qed.

(** Memory ran out: how many pages there can have been. *)
Lemma fork_short s2 ps2 t2 : with_new s2 ps2 A (tf1, t2) -> (forall x, x ∈ ps2 \/ has (mem s2) (tf1, t2) x <-> x ∈ ps1 \/ has (mem s1) (tf1, t1) x) ->
  (forall a, 0 <= a < TRAPFRAME -> uview (mem s2) t2 a = None) -> (length (pt_pages t1) <= 5)%nat ->
  few_tables t1 t2 (Z.to_nat (p_sz p / PGSIZE + 1)) -> Z.of_nat (length ps2) <= 1 + PGROUNDUP (p_sz p) / PGSIZE ->
  Z.of_nat (length ps) <= 3 * (PGROUNDUP (p_sz p) / PGSIZE) + 9.
Proof.
  intros W2 F2 V Hfew1 Hfew Hout. assert (Hle : (length ps <= length (ps2 ++ tf1 :: pt_pages t2))%nat).
  { apply submseteq_length, NoDup_submseteq; [apply (ss_kmem _ _ _ (pk_spaces _ _ _ H))|]. intros x Hx. rewrite F1, <- F2 in Hx.
    rewrite elem_of_app, elem_of_cons. unfold has in Hx. cbn [fst snd] in Hx.
    rewrite unmapped_owns in Hx by (intros va Hva; apply unmapped_leaf; [done|by apply V]). done. }
  rewrite length_app in Hle. cbn [length] in Hle. unfold few_tables in Hfew. destruct parent_mem as (_ & _ & Hsz & _).
  destruct (roundup_low _ Hsz) as (_ & Hr & _). pose proof (Z.div_le_mono (p_sz p) (PGROUNDUP (p_sz p)) PGSIZE ltac:(done) ltac:(lia)).
  pose proof (Z.div_pos (p_sz p) PGSIZE ltac:(lia) ltac:(done)). lia.
Qed.

Lemma fork_fail s2 ps2 t2 : ustep s1 ps1 t1 s2 ps2 t2 -> (forall a, 0 <= a < TRAPFRAME -> uview (mem s2) t2 a = None) ->
  (length (pt_pages t1) <= 5)%nat -> few_tables t1 t2 (Z.to_nat (p_sz p / PGSIZE + 1)) -> Z.of_nat (length ps2) <= 1 + PGROUNDUP (p_sz p) / PGSIZE ->
  exists s' ps', (freeproc np ;; release (L_proc np) ;; ret (-1)) s2 = Ok (-1) s' /\ fork_ok (-1) s' ps' A.
Proof.
  intros U V Hfew1 Hfew Hout. destruct (ustep_with_new _ _ _ _ _ _ _ _ W1 U) as (W2 & K2 & F2). pose proof (kept_trans _ _ _ _ K1 K2) as K.
  destruct (child_procs s2 (us_only _ _ _ _ _ _ U)) as (Hi2 & Hnp2 & Hh2). destruct (fork_clean np q Hq Hqu) as (_ & _ & Hz & _).
  destruct (freeproc_space np q1 s2 ps2 t2 Hnp2 (wn_new _ _ _ _ W2)) as (s3 & ps3 & E3 & O3 & C3 & F3).
  { by rewrite (us_root _ _ _ _ _ _ U). }
  { change (p_sz q1) with (p_sz q). by rewrite Hz. }
  { change (p_sz q1) with (p_sz q). rewrite Hz. intros va Hva. apply unmapped_leaf; [done|by apply V]. }
  change (p_trapframe q1) with tf1 in C3, F3.
  assert (Hh3 : held s3 = [L_proc np]) by (rewrite O3; by rs). run E3. run (release_ok (L_proc np) [] s3 Hh3 ltac:(set_solver)).
  assert (K3 : kept A (mem s) (mem s3)) by (eapply kept_trans; [exact K|]; eapply change_kept; [exact C3|apply W2|apply W2]).
  eexists _, ps3. split; [done|]. set (s' := s3 <| held := [] |>).
  assert (HS : spaces_ok s' ps3 A).
  { eapply change_spaces; [|apply W2|apply W2]. eapply mchange_mem; [exact C3|done..|]. unfold s'. rs. set_solver. }
  assert (Es : s' = s <| mem := mem s' |> <| freelist := freelist s' |> <| procs := <[np := cleared_proc q1]> (procs s) |> <| nextpid := s32 (nextpid s + 1) |>).
  { unfold s'. rs. rewrite O3. rs. rewrite (us_only _ _ _ _ _ _ U). rs. rewrite O1. rs. rewrite list_insert_insert_eq, <- Hh. st_eq s. }
  assert (Hi : idle_change (procs s) (<[np := cleared_proc q1]> (procs s))) by (right; by exists np, q, (cleared_proc q1)).
  split; [by eapply ptable_idle|done| |exact K3| |left].
  - intros x. unfold accounted. rewrite F3, F2, <- F1. f_equiv. split; intros (j & y & Hj & Hy); exists j, y;
      [rewrite <- (kept_has A (mem s) (mem s'))|rewrite (kept_has A (mem s) (mem s'))]; done.
  - intros j q' Hj Hu. rewrite Es. rs. by eapply idle_used.
  - split_and!; [done|done|rewrite Es; by rs|rewrite Es; by rs|right]. by eapply fork_short.
Qed.

End child.

(** No child: [allocproc] has failed. *)
Lemma fork_none s1 ps1 : mchange s ps (fun _ => False) s1 ps1 -> allocproc_post s ps None s1 ps1 -> fork_ok (-1) s1 ps1 A.
Proof.
  intros C (Hwhy & Hf & Hh1 & l & n & Es & Hl). pose proof (pk_spaces _ _ _ H) as HS.
  assert (K : kept A (mem s) (mem s1)) by (eapply change_kept; [exact C|done|tauto]).
  assert (Hi : idle_change (procs s) l).
  { destruct Hl as [-> |(np & q & Hq & Hu & ->)]; [by left|right]. by exists np, q, (cleared_proc q). }
  split; [|by rewrite Hh1, Hh| |done| |left].
  - eapply ptable_idle; [done| |done|done|done]. eapply change_spaces; [exact C|done|tauto].
  - intros x. unfold accounted. rewrite Hf. f_equiv. split; intros (j & y & Hj & Hy); exists j, y;
      [rewrite <- (kept_has A (mem s) (mem s1))|rewrite (kept_has A (mem s) (mem s1))]; done.
  - intros j q Hj Hu. rewrite Es. rs. by eapply idle_used.
  - split_and!; [done|done|rewrite Es; by rs|rewrite Es; by rs|]. destruct Hwhy as [?|Hfew]; [by left|right].
    destruct parent_mem as (_ & _ & Hsz & _). destruct (roundup_low _ Hsz) as (_ & Hr & _).
    pose proof (Z.div_pos (PGROUNDUP (p_sz p)) PGSIZE ltac:(lia) ltac:(done)). lia.
Qed.

Lemma kfork_ok : cpu_proc s = Some i -> exists r s' ps' A', kfork s = Ok r s' /\ fork_ok r s' ps' A'.
Proof.
  intros Hcpu. pose proof (pk_spaces _ _ _ H) as HS. unfold kfork. rewrite (bind_curproc i) by done.
  destruct (allocproc_ok s ps) as (r & s1 & ps1 & E1 & C1 & P1); try (rewrite Hh; set_solver); [apply HS|apply H|exact fork_clean|].
  run E1. destruct r as [np|]; [|exists (-1), s1, ps1, A; split; [done|by apply fork_none]].
  destruct P1 as (q & tf1 & t1 & Hq & Hqu & Hfirst & O1 & Hx & Hempty & F1 & Hfew1).
  destruct (alloc_with_new _ _ _ _ _ _ HS C1 Hx F1) as [W1 K1].
  destruct (child_procs s1 np q tf1 t1 Hq Hqu O1 s1) as (Hi1 & Hnp1 & _); [by destruct s1|].
  rewrite (bind_getproc i p) by done. rewrite (bind_getproc np _ _ _ Hnp1).
  destruct parent_mem as (Etf & Ept & Hsz & Hun). rewrite Ept.
  pose proof (ss_ok _ _ _ (wn_spaces _ _ _ _ W1) i _ HA) as Hpar.
  destruct (uvmcopy_space s1 ps1 t t1 (p_sz p)) as (s2 & ps2 & t2 & r & E2 & U & _ & _ & _ & Hr & _ & _ & Hfew).
  - apply Hpar.
  - apply Hx.
  - intros x Hx1 Hx2. eapply (wn_apart _ _ _ _ W1 i _ x HA); by right.
  - done.
  - intros a Ha. by apply unmapped_view, Hempty.
  - intros a Ha. apply unmapped_view. by apply (kept_unmapped _ _ _ _ _ _ _ K1 HA Hun).
  - run E2. destruct Hr as [[-> V]|(-> & V & Hout)].
    + destruct (fork_success ps1 s1 np q tf1 t1 Hq Hqu Hfirst O1 W1 K1 F1 s2 ps2 t2) as (r & s' & E3 & FO); [|done|done|].
      { by apply (en_unused _ _ _ _ (pk_entry _ _ _ H np q Hq)). }
      by exists r, s', ps2, (<[np := (tf1, t2)]> A).
    + destruct (fork_fail ps1 s1 np q tf1 t1 Hq Hqu Hfirst O1 W1 K1 F1 s2 ps2 t2 U V Hfew1 Hfew Hout) as (s' & ps' & E3 & FO).
      by exists (-1), s', ps', A.
Qed.

End fork.

(** C13: [kfork] makes a copy of the running process, or has no effect that lasts.  If it succeeds, the first unused entry of the process table is
    the child: it has the parent's size, open files, directory and name, its memory has the same contents and permissions, and its
    registers are the parent's except that [a0] is 0; the child has a new pid, which is what the parent gets, the parent as its parent, and may run;
    every file it has open and its directory have been counted.  If [kfork] fails it returns -1, and then there was no unused
    entry or less memory than the child needs.  Either way the page tables, trap frames and memory of no two processes share a page, every page that was
    free or had an owner still is or has, the other processes are as they were, and no lock is held. *)
Theorem kfork_copies s ps A i p tf t c : ptable_ok s ps A -> held s = [] -> cpu_proc s = Some i -> procs s !! i = Some p ->
  p_state p <> UNUSED -> A !! i = Some (tf, t) -> p_cwd p = Some c ->
  exists r s' ps' A', kfork s = Ok r s' /\ fork_ok s ps A i p tf t r s' ps' A'.
Proof. intros H Hh Hcpu Hp Hrun HA Hc. by apply (kfork_ok s ps A i p tf t c). Qed.

End spaces.

Section witnesses.
Import Small.

Lemma fd_total_replicate f n q : fds f (p_ofile q) = 0 -> fd_total f (replicate n q) = 0.
Proof. intros Hq. induction n as [|n IH]; [done|]. unfold fd_total in *. cbn. rewrite Hq. exact IH. Qed.

(** The process table at boot. *)
Lemma boot_table : exists s ps, ptable_ok s ps ∅ /\ held s = [] /\ (32 <= length ps)%nat /\ procs s = replicate NPROC zero_proc.
Proof.
  destruct booted_pages as (s0 & ps & HK & Hlen). exists (boot_state <| mem := mem s0 |> <| freelist := freelist s0 |>), ps.
  split; [|done]. split.
  - split; [done|apply not_elem_of_nil|..]; intros *; by rewrite ?lookup_empty.
  - done.
  - intros i p [-> _]%lookup_replicate. rewrite lookup_empty. split; try done. intros fd f [? _]%lookup_replicate. done.
  - intros i x. by rewrite lookup_empty.
  - intros f fl [-> _]%lookup_replicate. change (fd_total f (replicate NPROC zero_proc) <= 0). by rewrite fd_total_replicate by apply fds_none.
Qed.

(** One process runs. *)
Lemma one_process : exists s ps i p tf t, ptable_ok s ps {[i := (tf, t)]} /\ held s = [] /\ cpu_proc s = Some i /\ procs s !! i = Some p /\
  p_state p = RUNNING /\ p_cwd p = Some 0%nat /\ p_sz p = 0 /\ (26 <= length ps)%nat /\ exists j q, procs s !! j = Some q /\ p_state q = UNUSED.
Proof.
  destruct boot_table as (s & ps & H & Hh & Hlen & Hprocs).
  destruct (allocproc_ok s ps) as (r & s1 & ps1 & E & C & P); try (rewrite Hh; set_solver); [apply H|apply H|by eapply fork_clean|].
  destruct r as [np|].
  2: { destruct P as ([Hu|Hfew] & _); [|lia]. exfalso. apply (Hu 0%nat zero_proc); [by rewrite Hprocs|done]. }
  destruct P as (q & tf & t & Hq & Hqu & Hfirst & O1 & Hx & Hempty & F1 & Hfew).
  destruct (alloc_with_new _ _ _ _ _ _ (pk_spaces _ _ _ H) C Hx F1) as [W K].
  set (p := (new_proc q (nextpid s) tf (pt_root t)) <| p_state := RUNNING |> <| p_cwd := Some 0%nat |>).
  set (s2 := s1 <| held := [] |> <| cpu_proc := Some np |> <| procs := <[np := p]> (procs s) |>).
  assert (Hp : procs s2 !! np = Some p) by (unfold s2; rs; by eapply set_proc_lookup).
  assert (Hq0 : q = zero_proc) by (rewrite Hprocs in Hq; by apply lookup_replicate in Hq as [-> _]).
  exists s2, ps1, np, p, tf, t. split; [|split_and!; [done|done|done|done|done|by subst q| |]].
  - pose proof (with_new_insert _ _ _ np _ W) as HS. rewrite insert_empty in HS.
    assert (Ef : ftable s2 = ftable s) by (unfold s2; rs; rewrite O1; by rs).
    eapply (ptable_update s ps ∅ np q); [done|done|done|eapply spaces_mem; [exact HS|done|done|apply not_elem_of_nil]| | | |by rewrite Ef|].
    + intros j Hne. by rewrite lookup_singleton_ne.
    + by apply kept_delete.
    + rewrite lookup_singleton_eq. subst q. split; [split_and!; done|done|by intros [?|?]|done|]. intros fd f [? _]%lookup_replicate. done.
    + intros f fl. rewrite Ef. intros Hf. exists fl. split; [done|]. change (p_ofile p) with (p_ofile q). lia.
  - assert (Hle : (length ps <= length (ps1 ++ tf :: pt_pages t))%nat); [|rewrite length_app in Hle; cbn [length] in Hle; lia].
    apply submseteq_length, NoDup_submseteq; [apply (ss_kmem _ _ _ (pk_spaces _ _ _ H))|]. intros x Hx'. apply F1 in Hx'.
    rewrite elem_of_app, elem_of_cons. unfold has in Hx'. cbn [fst snd] in Hx'. by rewrite unmapped_owns in Hx'.
  - exists (if decide (np = 0%nat) then 1%nat else 0%nat), zero_proc. unfold s2. rs. rewrite list_lookup_insert_ne by (case_decide; lia).
    rewrite Hprocs. by case_decide.
Qed.

Lemma kfork_copies_witness : exists s ps A i p tf t s' ps' np x, ptable_ok s ps A /\
  kfork s = Ok (nextpid s) s' /\ ptable_ok s' ps' (<[np := x]> A) /\ fork_ok s ps A i p tf t (nextpid s) s' ps' (<[np := x]> A).
Proof.
  destruct one_process as (s & ps & i & p & tf & t & H & Hh & Hcpu & Hp & Hrun & Hc & Hsz & Hlen & j & q & Hj & Hu).
  destruct (kfork_copies s ps {[i := (tf, t)]} i p tf t 0%nat) as (r & s' & ps' & A' & E & FO); try done.
  - by rewrite Hrun.
  - apply lookup_singleton_eq.
  - destruct (fo_post _ _ _ _ _ _ _ _ _ _ _ FO) as [(_ & _ & _ & _ & [Hall|Hfew])|(np & q' & x & -> & -> & _)].
    + by destruct (Hall j q Hj).
    + exfalso. rewrite Hsz in Hfew. change (PGROUNDUP 0 / PGSIZE) with 0 in Hfew. lia.
    + exists s, ps, {[i := (tf, t)]}, i, p, tf, t, s', ps', np, x. split_and!; [done|done|apply FO|done].
Defined.

End witnesses.
