(* ===== verification/Wait.v ===== *)
(** Exiting children and changes of size (kernel/proc.c): what [kwait] and [growproc] do to the process table of Fork. *)

From stdpp Require Import prelude gmap strings.
From Stdlib Require Import ZArith Lia.
From S2P Require Import Prelude Bytes Params State Spinlock CString Sched Kalloc Vm PageTable User Uvm Log Fs File Proc Space Fork.

Local Open Scope Z_scope.
Local Open Scope kernel_scope.

Section wait.
Context {F : Fuel} {L : Linker} {LOk : LinkerOk L}.

(** ** One process among the others *)

Lemma spaces_split s ps A i x : spaces_ok s ps A -> A !! i = Some x -> with_new s ps (delete i A) x.
Proof.
  intros H Hi. split; [by apply spaces_delete|by eapply ss_ok|]. intros j y q [Hne Hj]%lookup_delete_Some Hy Hq.
  by apply Hne, (ss_apart _ _ _ H i j x y q).
Qed.

Lemma accounted_split m ps A i y x : A !! i = Some y ->
  accounted m ps A x <-> (x ∈ ps \/ has m y x) \/ exists j z, delete i A !! j = Some z /\ has m z x.
Proof.
  intros Hi. unfold accounted. split.
  - intros [?|(j & z & Hj & Hz)]; [by left; left|]. destruct (decide (j = i)) as [-> |Hne]; [left; right; congruence|].
    right. exists j, z. by rewrite lookup_delete_ne.
  - intros [[?|?]|(j & z & [_ Hj]%lookup_delete_Some & Hz)]; [by left|right; by exists i, y|right; by exists j, z].
Qed.

(** The pages that have an owner, when the space of one process changes and the others keep theirs. *)
Lemma accounted_change m ps A i y m' ps' y' : A !! i = Some y -> kept (delete i A) m m' ->
  (forall q, q ∈ ps' \/ has m' y' q <-> q ∈ ps \/ has m y q) -> forall x, accounted m' ps' (<[i := y']> A) x <-> accounted m ps A x.
Proof.
  intros Hi K Hf x. rewrite (accounted_split m ps A i y) by done. rewrite (accounted_split m' ps' _ i y') by apply lookup_insert_eq.
  rewrite Hf, delete_insert_eq. f_equiv. split; intros (j & z & Hj & Hz); exists j, z; (split; [done|]).
  - by rewrite <- (kept_has (delete i A) m m').
  - by rewrite (kept_has (delete i A) m m').
Qed.

(** ** A step in the address space of a process *)

(** Process [i] changes its memory, and perhaps its size. *)
Lemma ptable_step s ps A i p tf t s' ps' t' sz : ptable_ok s ps A -> procs s !! i = Some p -> A !! i = Some (tf, t) ->
  ustep s ps t s' ps' t' -> 0 <= sz <= TRAPFRAME -> unmapped (mem s') t' (PGROUNDUP sz) TRAPFRAME ->
  let s1 := s' <| procs := <[i := p <| p_sz := sz |>]> (procs s) |> in
  ptable_ok s1 ps' (<[i := (tf, t')]> A) /\ (forall x, accounted (mem s1) ps' (<[i := (tf, t')]> A) x <-> accounted (mem s) ps A x) /\
  kept (delete i A) (mem s) (mem s1).
Proof.
  intros H Hp HA U Hsz Hun s1. destruct (ustep_with_new _ _ _ _ _ _ _ _ (spaces_split _ _ _ _ _ (pk_spaces _ _ _ H) HA) U) as (W & K & Hf).
  split; [|split; [by eapply accounted_change|done]]. pose proof (with_new_insert _ _ _ i _ W) as HS. rewrite insert_delete_eq in HS.
  destruct (pk_some _ _ _ _ _ _ H Hp HA) as (H1 & H2 & _). cbn [fst snd] in *.
  assert (Ef : ftable s1 = ftable s) by (unfold s1; rs; rewrite (us_only _ _ _ _ _ _ U); by rs).
  pose proof (pk_entry _ _ _ H i p Hp) as He. rewrite HA in He.
  eapply ptable_update; [exact H|exact Hp|done| |intros j Hne; by rewrite lookup_insert_ne|exact K| |by rewrite Ef|].
  - eapply spaces_mem; [exact HS|done|done|]. apply HS.
  - rewrite lookup_insert_eq, Ef. split; [|split; [by intros Hu; apply He in Hu|done]|apply He|apply He|apply He].
    cbn [fst snd]. rewrite (us_root _ _ _ _ _ _ U). split_and!; try done; apply Hsz.
  - intros f fl. rewrite Ef. intros Hfl. exists fl. split; [done|]. change (p_ofile (p <| p_sz := sz |>)) with (p_ofile p). lia.
Qed.

Lemma ptable_step_same s ps A i p tf t s' ps' t' : ptable_ok s ps A -> procs s !! i = Some p -> A !! i = Some (tf, t) ->
  ustep s ps t s' ps' t' -> unmapped (mem s') t' (PGROUNDUP (p_sz p)) TRAPFRAME ->
  ptable_ok s' ps' (<[i := (tf, t')]> A) /\ (forall x, accounted (mem s') ps' (<[i := (tf, t')]> A) x <-> accounted (mem s) ps A x) /\
  kept (delete i A) (mem s) (mem s').
Proof.
  intros H Hp HA U Hun. destruct (pk_some _ _ _ _ _ _ H Hp HA) as (_ & _ & Hsz & _).
  pose proof (ptable_step s ps A i p tf t s' ps' t' (p_sz p) H Hp HA U Hsz Hun) as S. cbn zeta in S.
  replace (p <| p_sz := p_sz p |>) with p in S by (by destruct p). rewrite list_insert_id in S by done.
  assert (El : procs s' = procs s) by (rewrite (us_only _ _ _ _ _ _ U); by rs).
  by replace (s' <| procs := procs s |>) with s' in S by (rewrite <- El; st_eq s').
Qed.

(** ** A process that has exited is given up *)

Lemma ptable_reap s ps A j q x s' ps' q' : ptable_ok s ps A -> procs s !! j = Some q -> A !! j = Some x -> p_state q = ZOMBIE -> idle_of q q' ->
  proc_only s j q' s' -> mchange s ps (has (mem s) x) s' ps' -> (forall r, r ∈ ps' <-> r ∈ ps \/ has (mem s) x r) ->
  ptable_ok s' ps' (delete j A) /\ (forall r, accounted (mem s') ps' (delete j A) r <-> accounted (mem s) ps A r) /\ kept (delete j A) (mem s) (mem s').
Proof.
  intros H Hq HA Hz (Hu & H1 & H2 & H3 & H4) O C Hf. pose proof (spaces_split _ _ _ _ _ (pk_spaces _ _ _ H) HA) as W.
  assert (K : kept (delete j A) (mem s) (mem s')) by (eapply change_kept; [exact C|apply W|apply W]).
  assert (Ef : ftable s' = ftable s) by (rewrite O; by rs). pose proof (pk_entry _ _ _ H j q Hq) as He. split; [|split; [|done]].
  - eapply ptable_update; [exact H|exact Hq|rewrite O; by rs|eapply change_spaces; [exact C|apply W|apply W]|intros k Hne; by rewrite lookup_delete_ne|exact K| |by rewrite Ef|].
    + rewrite lookup_delete_eq, Ef. split; [done|done|rewrite H4; intros _; apply He; by right|rewrite H4; apply He|rewrite H4; apply He].
    + intros f fl. rewrite Ef, H4. intros Hfl. exists fl. split; [done|lia].
  - intros r. rewrite (accounted_split (mem s) ps A j x) by done. unfold accounted. rewrite Hf. f_equiv.
    split; intros (k & z & Hk & Hz'); exists k, z; [rewrite <- (kept_has (delete j A) (mem s) (mem s'))|rewrite (kept_has (delete j A) (mem s) (mem s'))]; done.
Qed.

(** ** [growproc] *)

(** The size that [growproc(n)] asks for; a size below 0 leaves the process as it is. *)
Definition grown_size (sz n : Z) : Z := if 0 <=? sz + n then sz + n else sz.

(** User memory after a change of size from [sz] to [sz']: zeroes above, or nothing. *)
Definition resized (sz sz' : Z) (w : Z -> option (Z * option Z)) : Z -> option (Z * option Z) :=
  if sz <=? sz' then with_zeroes (PGROUNDUP sz) (PGROUNDUP sz') (Z.lor (heap_perm PTE_W) PTE_V) w
  else without_pages (PGROUNDUP sz') (PGROUNDUP sz) w.

Section grow.
Context (s : kstate) (ps : list Z) (A : gmap nat (Z * ptree)) (i : nat) (p : proc) (tf : Z) (t : ptree).
Hypothesis H : ptable_ok s ps A.
Hypothesis Hp : procs s !! i = Some p.
Hypothesis HA : A !! i = Some (tf, t).
Hypothesis Hcpu : cpu_proc s = Some i.

(** The process has changed its memory to [w], and its size to [sz]. *)
Record stepped (sz : Z) (w : Z -> option (Z * option Z)) (s' : kstate) (ps' : list Z) (t' : ptree) : Prop := {
  sd_table : ptable_ok s' ps' (<[i := (tf, t')]> A);
  sd_state : s' = s <| mem := mem s' |> <| freelist := freelist s' |> <| procs := <[i := p <| p_sz := sz |>]> (procs s) |>;
  sd_pages : forall x, accounted (mem s') ps' (<[i := (tf, t')]> A) x <-> accounted (mem s) ps A x;
  sd_kept : kept (delete i A) (mem s) (mem s');
  sd_view : forall a, 0 <= a < TRAPFRAME -> uview (mem s') t' a = w a;
}.

Lemma step_stepped s' ps' t' sz w : uchange s ps t s' ps' t' w -> 0 <= sz <= TRAPFRAME ->
  (forall a, PGROUNDUP sz <= a < TRAPFRAME -> w a = None) -> stepped sz w (s' <| procs := <[i := p <| p_sz := sz |>]> (procs s) |>) ps' t'.
Proof.
  intros [U V] Hsz Hno. destruct (roundup_low sz Hsz) as (_ & Hr & _).
  destruct (ptable_step s ps A i p tf t s' ps' t' sz H Hp HA U Hsz) as (HT & Hacc & K).
  { intros va Hva. apply unmapped_leaf; [lia|]. rewrite V by lia. by apply Hno. }
  split; [done| |done|done|done]. rewrite (us_only _ _ _ _ _ _ U) at 1. rs. st_eq s.
Qed.

Lemma size_same : p <| p_sz := p_sz p |> = p.
Proof. by destruct p. Qed.

Lemma above_none a : PGROUNDUP (p_sz p) <= a < TRAPFRAME -> uview (mem s) t a = None.
Proof. intros Ha. destruct (pk_some _ _ _ _ _ _ H Hp HA) as (_ & _ & Hsz & Hun). by apply unmapped_view, Hun. Qed.

Lemma space_uvm : uvm_ok s ps t.
Proof. exact (sp_vm _ _ _ (ss_ok _ _ _ (pk_spaces _ _ _ H) i _ HA)). Qed.

Lemma roundup_mono x y : 0 <= x <= y -> y <= TRAPFRAME -> PGROUNDUP x <= PGROUNDUP y.
Proof.
  intros Hxy Hy. destruct (roundup_low x) as (Hx & Hx' & _); [lia|]. destruct (roundup_low y) as (Hy' & Hy'' & _); [lia|].
  unfold PGSIZE in *. pose proof (Z.div_mod (PGROUNDUP x) 4096). pose proof (Z.div_mod (PGROUNDUP y) 4096). lia.
Qed.

(** A step that leaves the size as it is. *)
Lemma stepped_same s' ps' t' : uchange s ps t s' ps' t' (uview (mem s) t) -> stepped (p_sz p) (uview (mem s) t) s' ps' t'.
Proof.
  intros C. destruct (pk_some _ _ _ _ _ _ H Hp HA) as (_ & _ & Hsz & _).
  pose proof (step_stepped s' ps' t' (p_sz p) _ C Hsz above_none) as S. rewrite size_same, list_insert_id in S by done.
  assert (El : procs s' = procs s) by (destruct C as [U _]; rewrite (us_only _ _ _ _ _ _ U); by rs).
  by replace (s' <| procs := procs s |>) with s' in S by (rewrite <- El; st_eq s').
Qed.

Lemma growproc_grows n : 0 < n < 2 ^ 31 -> p_sz p + n <= TRAPFRAME -> exists r s' ps' t', growproc n s = Ok r s' /\
  ((r = 0 /\ stepped (p_sz p + n) (resized (p_sz p) (p_sz p + n) (uview (mem s) t)) s' ps' t') \/
   (r = -1 /\ stepped (p_sz p) (uview (mem s) t) s' ps' t' /\
    Z.of_nat (length ps') <= 1 + (PGROUNDUP (p_sz p + n) - PGROUNDUP (p_sz p)) / PGSIZE)).
Proof.
  intros Hn Hmax. destruct (pk_some _ _ _ _ _ _ H Hp HA) as (_ & Ept & Hsz & Hun). cbn [fst snd] in *.
  unfold growproc. rewrite (bind_curproc i) by done. rewrite (bind_getproc i p) by done. cbn zeta.
  rewrite (proj2 (Z.ltb_lt 0 n)) by lia. rewrite u64_small by (change TRAPFRAME with 274877898752 in *; lia).
  rewrite (proj2 (Z.ltb_ge _ _)) by done. rewrite Ept.
  destruct (uvmalloc_ok s ps t (p_sz p) (p_sz p + n) PTE_W) as (s' & ps' & t' & r & E & C); try done; try lia.
  - exact space_uvm.
  - intros b Hb. apply above_none. destruct (roundup_low (p_sz p + n)) as (_ & _ & ?); lia.
  - destruct (roundup_low (p_sz p) Hsz) as (_ & Hr & _). run E. destruct C as [[-> C]|(-> & C & Hl)].
    + rewrite (proj2 (Z.eqb_neq _ _)) by lia.
      assert (Hi' : procs s' !! i = Some p) by (destruct C as [U _]; rewrite (us_only _ _ _ _ _ _ U); by rs).
      erewrite (bind_ok (updproc i _)) by (apply updproc_at; exact Hi'). eexists 0, _, ps', t'. split; [done|]. left. split; [done|].
      assert (El : procs s' = procs s) by (destruct C as [U _]; rewrite (us_only _ _ _ _ _ _ U); by rs). rewrite El.
      apply step_stepped; [|lia|]; unfold resized; rewrite (proj2 (Z.leb_le _ _)) by lia; [done|].
      intros a Ha. unfold with_zeroes. rewrite decide_False by lia. apply above_none.
      pose proof (roundup_mono (p_sz p) (p_sz p + n)). lia.
    + exists (-1), s', ps', t'. split; [done|]. right. split; [done|]. split; [|done]. apply stepped_same.
      eapply uchange_ext; [exact C|]. intros a _. apply without_same. lia.
Qed.

Lemma growproc_refuses n : 0 < n < 2 ^ 31 -> TRAPFRAME < p_sz p + n -> growproc n s = Ok (-1) s.
Proof.
  intros Hn Hmax. destruct (pk_some _ _ _ _ _ _ H Hp HA) as (_ & _ & Hsz & _).
  unfold growproc. rewrite (bind_curproc i) by done. rewrite (bind_getproc i p) by done. cbn zeta.
  rewrite (proj2 (Z.ltb_lt 0 n)) by lia. rewrite u64_small by (change TRAPFRAME with 274877898752 in *; lia).
  by rewrite (proj2 (Z.ltb_lt _ _)) by done.
Qed.

(** The part of [growproc] that gives memory up. *)
Lemma shrink_memory n : - 2 ^ 31 <= n <= 0 -> exists s' ps',
  (if n <? 0 then uvmdealloc (pt_root t) (p_sz p) (u64 (p_sz p + n)) else ret (p_sz p)) s = Ok (grown_size (p_sz p) n) s' /\
  uchange s ps t s' ps' t (resized (p_sz p) (grown_size (p_sz p) n) (uview (mem s) t)).
Proof.
  intros Hn. destruct (pk_some _ _ _ _ _ _ H Hp HA) as (_ & _ & Hsz & _).
  assert (Hsame : uchange s ps t s ps t (resized (p_sz p) (p_sz p) (uview (mem s) t))).
  { eapply uchange_ext; [apply uchange_refl, space_uvm|]. intros a _. unfold resized, with_zeroes. rewrite Z.leb_refl, decide_False by lia. done. }
  unfold grown_size. destruct (Z.leb_spec 0 (p_sz p + n)) as [H0|H0].
  - destruct (Z.ltb_spec n 0) as [Hneg|Hz].
    + rewrite u64_small by (change TRAPFRAME with 274877898752 in *; lia).
      destruct (uvmdealloc_ok s ps t (p_sz p) (p_sz p + n) space_uvm) as (s' & ps' & E & C & _); [lia|lia|].
      rewrite Z.min_r in E by lia. exists s', ps'. split; [done|]. unfold resized. by rewrite (proj2 (Z.leb_gt _ _)) by lia.
    + replace (p_sz p + n) with (p_sz p) by lia. by exists s, ps.
  - rewrite (proj2 (Z.ltb_lt n 0)) by lia. exists s, ps. split; [|done].
    assert (Hu : u64 (p_sz p + n) = p_sz p + n + 2 ^ 64).
    { unfold wrap. rewrite <- (Z.mod_add _ 1) by lia. apply Z.mod_small. change TRAPFRAME with 274877898752 in *. lia. }
    unfold uvmdealloc. rewrite Hu, (proj2 (Z.leb_le _ _)); [done|]. change TRAPFRAME with 274877898752 in *. lia.
Qed.

Lemma growproc_shrinks n : - 2 ^ 31 <= n <= 0 -> exists s' ps' t', growproc n s = Ok 0 s' /\
  stepped (grown_size (p_sz p) n) (resized (p_sz p) (grown_size (p_sz p) n) (uview (mem s) t)) s' ps' t'.
Proof.
  intros Hn. destruct (pk_some _ _ _ _ _ _ H Hp HA) as (_ & Ept & Hsz & Hun). cbn [fst snd] in *.
  unfold growproc. rewrite (bind_curproc i) by done. rewrite (bind_getproc i p) by done. cbn zeta. rewrite (proj2 (Z.ltb_ge 0 n)) by lia. rewrite Ept.
  destruct (shrink_memory n Hn) as (s' & ps' & E & C). run E.
  assert (El : procs s' = procs s) by (destruct C as [U _]; rewrite (us_only _ _ _ _ _ _ U); by rs).
  erewrite (bind_ok (updproc i _)) by (apply updproc_at; by rewrite El). rewrite El. eexists _, ps', t. split; [done|].
  unfold grown_size in *. destruct (roundup_low (p_sz p) Hsz) as (_ & Hr & _).
  apply step_stepped; [done|case_match; lia|]. intros a Ha. unfold resized, with_zeroes, without_pages.
  destruct (Z.leb_spec (p_sz p) (if 0 <=? p_sz p + n then p_sz p + n else p_sz p)) as [Hle|Hle].
  - replace (if 0 <=? p_sz p + n then p_sz p + n else p_sz p) with (p_sz p) in * by (case_match; lia).
    rewrite decide_False by lia. by apply above_none.
  - case_decide; [done|]. apply above_none. lia.
Qed.
End grow.

(** ** The scan of [kwait] *)

Definition child_of_at (s : kstate) (i j : nat) : bool :=
  match procs s !! j with Some q => bool_decide (p_parent q = Some i) | None => false end.

Definition zombie_child (s : kstate) (i j : nat) (q : proc) : Prop := procs s !! j = Some q /\ p_parent q = Some i /\ p_state q = ZOMBIE.

Lemma scan_skip s i addr hk k rest q : (forall j, L_proc j ∉ held s) -> procs s !! k = Some q -> ~ zombie_child s i k q ->
  kwait_scan (k :: rest) i addr hk s = kwait_scan rest i addr (hk || child_of_at s i k) s.
Proof.
  intros Hl Hq Hz. cbn [kwait_scan]. rewrite (bind_getproc k q) by done. unfold child_of_at. rewrite Hq.
  destruct (bool_decide_reflect (p_parent q = Some i)) as [Hpar|Hpar]; [|by rewrite orb_false_r]. rewrite orb_true_r.
  run (acquire_ok (L_proc k) s (Hl k)). rewrite (bind_getproc k q) by done. rewrite decide_False by (intros Hs; by apply Hz).
  erewrite (bind_ok (release _)) by (eapply release_ok; [by rs|apply Hl]). f_equal. rs. st_eq s.
Qed.

Lemma scan_prefix s i addr n : (forall j, L_proc j ∉ held s) -> forall k hk rest, (k + n <= length (procs s))%nat ->
  (forall j q, (k <= j < k + n)%nat -> ~ zombie_child s i j q) ->
  kwait_scan (seq k n ++ rest) i addr hk s = kwait_scan rest i addr (hk || existsb (child_of_at s i) (seq k n)) s.
Proof.
  intros Hl. induction n as [|n IH]; intros k hk rest Hlen Hz; cbn [seq app existsb]; [by rewrite orb_false_r|].
  destruct (lookup_lt_is_Some_2 (procs s) k) as [q Hq]; [lia|]. rewrite (scan_skip s i addr hk k _ q); [|done|done|apply Hz; lia].
  rewrite IH; [by rewrite orb_assoc|lia|]. intros j q' Hj. apply Hz. lia.
Qed.

(** The status of the child, at [addr] in the memory of its parent. *)
Definition with_status (addr x : Z) (f : Z -> option Z) : Z -> option Z := if addr =? 0 then f else with_bytes addr (le_encode 4 x) f.

(** Why the status could not be stored. *)
Definition no_status (s : kstate) (t : ptree) (psz addr : Z) (ps' : list Z) : Prop :=
  addr <> 0 /\ exists k, 0 <= k < 4 /\ (uwritable (mem s) t psz (addr + k) = false \/ no_memory ps' (mem s) t (addr + k)).

Lemma ubyte_kept m m' t psz a : (forall r, owns m t r -> same_page m m' r) -> ubyte m' t psz a = ubyte m t psz a.
Proof.
  intros Hs. unfold ubyte. destruct ((0 <=? a) && (a <? TRAPFRAME)) eqn:E; [|done]. apply low_bool in E. by rewrite (uview_same m m').
Qed.

Lemma lazy_unmapped s t psz s' t' : 0 <= psz <= TRAPFRAME -> unmapped (mem s) t (PGROUNDUP psz) TRAPFRAME ->
  (forall a, present (mem s') t' a = true -> present (mem s) t a = true \/ lazy psz a = true) -> unmapped (mem s') t' (PGROUNDUP psz) TRAPFRAME.
Proof.
  intros Hsz Hun Hnew va Hva. destruct (roundup_low psz Hsz) as (Hal & Hr & _). destruct (valid (leaf (mem s') t' va)) eqn:Hv; [|done].
  destruct (Hnew va) as [Hp|Hl].
  - unfold present. by rewrite (proj2 (low_bool va)), Hv by lia.
  - unfold present in Hp. by rewrite (Hun va), andb_false_r in Hp by done.
  - unfold lazy in Hl. apply Z.ltb_lt in Hl. unfold PGSIZE in *. pose proof (Z.div_mod va 4096). pose proof (Z.div_mod (PGROUNDUP psz) 4096).
    pose proof (Z.mod_pos_bound va 4096). lia.
Qed.

Lemma wait_status s ps t psz addr x : uvm_ok s ps t -> 0 <= psz <= TRAPFRAME -> 0 <= addr < 2 ^ 64 -> unmapped (mem s) t (PGROUNDUP psz) TRAPFRAME ->
  exists r s' ps' t', (if addr =? 0 then ret 0 else copyout (pt_root t) psz addr (le_encode 4 x)) s = Ok r s' /\ ustep s ps t s' ps' t' /\
    unmapped (mem s') t' (PGROUNDUP psz) TRAPFRAME /\
    ((r = 0 /\ forall a, ubyte (mem s') t' psz a = with_status addr x (ubyte (mem s) t psz) a) \/ (r = -1 /\ no_status s t psz addr ps')).
Proof.
  intros H Hsz Hva Hun. unfold with_status. destruct (Z.eqb_spec addr 0) as [-> |Hne].
  { exists 0, s, ps, t. split; [done|]. split; [by apply ustep_refl|]. split; [done|by left]. }
  destruct (copyout_loop_ok (length (le_encode 4 x)) s ps t psz addr (le_encode 4 x) H) as (s' & ps' & t' & r & k & E & U & V & _ & _ & N & _ & Hr); [lia|done|lia|].
  exists r, s', ps', t'. split; [exact E|]. split; [done|]. split; [by eapply lazy_unmapped|]. rewrite length_le_encode in Hr.
  destruct Hr as [[-> ->]|(-> & Hk & Hr)]; [left|right]; (split; [done|]).
  - intros a. rewrite V, take_ge; [done|]. by rewrite length_le_encode.
  - split; [done|]. exists (Z.of_nat k). split; [lia|done].
Qed.

(** Locks that are held do not matter. *)
Lemma ptable_held s ps A h : ptable_ok s ps A -> L_kmem ∉ h -> ptable_ok (s <| held := h |>) ps A.
Proof. intros [H1 H2 H3 H4 H5] Hl. split; try done. by eapply spaces_mem. Qed.

(** ** Reaping a child *)

Section reap.
Context (s : kstate) (ps : list Z) (A : gmap nat (Z * ptree)) (i : nat) (p : proc) (tf : Z) (t : ptree) (addr : Z) (j : nat) (q : proc).
Hypothesis H : ptable_ok s ps A.
Hypothesis Hh : held s = [].
Hypothesis Hp : procs s !! i = Some p.
Hypothesis Hrun : p_state p <> ZOMBIE.
Hypothesis HA : A !! i = Some (tf, t).
Hypothesis Haddr : 0 <= addr < 2 ^ 64.
Hypothesis Hz : zombie_child s i j q.

(** The child's entry afterwards. *)
Definition reaped_proc : proc := cleared_proc (q <| p_parent := None |>).

(** The child is gone and its pages are free, and its status has been stored; or it could not be, and the child stays. *)
Definition wait_post (r : Z) (s' : kstate) (ps' : list Z) (t' : ptree) : Prop :=
  (r = p_pid q /\ ptable_ok s' ps' (delete j (<[i := (tf, t')]> A)) /\
   s' = s <| mem := mem s' |> <| freelist := freelist s' |> <| procs := <[j := reaped_proc]> (procs s) |> /\
   (forall x, accounted (mem s') ps' (delete j (<[i := (tf, t')]> A)) x <-> accounted (mem s) ps A x) /\
   kept (delete j (delete i A)) (mem s) (mem s') /\
   forall a, ubyte (mem s') t' (p_sz p) a = with_status addr (p_xstate q) (ubyte (mem s) t (p_sz p)) a) \/
  (r = -1 /\ ptable_ok s' ps' (<[i := (tf, t')]> A) /\ s' = s <| mem := mem s' |> <| freelist := freelist s' |> /\
   (forall x, accounted (mem s') ps' (<[i := (tf, t')]> A) x <-> accounted (mem s) ps A x) /\
   kept (delete i A) (mem s) (mem s') /\ no_status s t (p_sz p) addr ps').

Lemma child_not_self : j <> i.
Proof. intros ->. destruct Hz as (Hq & _ & Hs). congruence. Qed.

(** The memory of the child. *)
Lemma zombie_space : exists x, A !! j = Some x.
Proof.
  destruct Hz as (Hq & _ & Hs). destruct (A !! j) as [x|] eqn:E; [eauto|]. 
  apply (en_unused _ _ _ _ (pk_entry _ _ _ H j q Hq)) in E. congruence.
Qed.

(** The child is freed, from a state in which its status has been stored. *)
Lemma reap_child s1 ps1 A1 x : ptable_ok s1 ps1 A1 -> procs s1 = procs s -> A1 !! j = Some x -> exists s2 ps2,
  freeproc j (s1 <| procs := <[j := q <| p_parent := None |>]> (procs s1) |>) = Ok tt s2 /\ proc_only s1 j reaped_proc s2 /\
  ptable_ok s2 ps2 (delete j A1) /\ (forall r, accounted (mem s2) ps2 (delete j A1) r <-> accounted (mem s1) ps1 A1 r) /\ kept (delete j A1) (mem s1) (mem s2).
Proof.
  intros H1 El Hx. destruct Hz as (Hq & Hpar & Hs). rewrite <- El in Hq.
  set (q1 := q <| p_parent := None |>). set (s1' := s1 <| procs := <[j := q1]> (procs s1) |>).
  destruct (pk_some _ _ _ _ _ _ H1 Hq Hx) as (M1 & M2 & M3 & M4). pose proof (ss_ok _ _ _ (pk_spaces _ _ _ H1) j x Hx) as Hsp.
  assert (Hsp' : space_ok s1' ps1 (p_trapframe q1, x.2)).
  { change (p_trapframe q1) with (p_trapframe q). rewrite M1, <- surjective_pairing.
    assert (HS : spaces_ok s1' ps1 A1) by (eapply spaces_mem; [apply H1|done|done|apply (pk_spaces _ _ _ H1)]). by eapply ss_ok. }
  destruct (freeproc_space j q1 s1' ps1 x.2) as (s2 & ps2 & E2 & O2 & C2 & F2); [by eapply set_proc_lookup|done|done|done|done|].
  change (p_trapframe q1) with (p_trapframe q) in C2, F2. rewrite M1, <- surjective_pairing in C2, F2.
  assert (O : proc_only s1 j reaped_proc s2).
  { unfold proc_only in *. rewrite O2 at 1. unfold s1'. rs. rewrite list_insert_insert_eq. st_eq s1. }
  exists s2, ps2. split; [done|]. split; [done|].
  eapply (ptable_reap s1 ps1 A1 j q x); [done..| |done| |done].
  - done.
  - eapply mchange_mem; [exact C2|done..|apply C2].
Qed.

(** The scan has come to the child. *)
Lemma scan_zombie rest hk : exists r s' ps' t', kwait_scan (j :: rest) i addr hk (s <| held := [L_wait] |>) = Ok (inl r) s' /\ wait_post r s' ps' t'.
Proof.
  pose proof Hz as (Hq & Hpar & Hs). cbn [kwait_scan]. rewrite (bind_getproc j q) by done. rewrite bool_decide_true by done.
  erewrite (bind_ok (acquire _)) by (apply acquire_ok; rs; set_solver). rs. rewrite (bind_getproc j q) by done. rewrite decide_True by done.
  rewrite (bind_getproc i p) by done. set (s1 := s <| held := _ |> <| held := _ |>).
  assert (H1 : ptable_ok s1 ps A) by (do 2 (apply ptable_held; [|set_solver]); exact H).
  destruct (pk_some _ _ _ _ _ _ H1 Hp HA) as (_ & Ept & Hsz & Hun). cbn [snd] in Ept, Hun. rewrite Ept.
  destruct (wait_status s1 ps t (p_sz p) addr (p_xstate q)) as (r & s2 & ps2 & t2 & E2 & U & Hun2 & Hr); [by eapply space_uvm|done..|]. run E2.
  destruct (ptable_step_same s1 ps A i p tf t s2 ps2 t2 H1 Hp HA U Hun2) as (H2 & Acc2 & K2).
  assert (O2 := us_only _ _ _ _ _ _ U). assert (Hh2 : held s2 = [L_proc j; L_wait]) by (rewrite O2; by rs).
  destruct Hr as [[-> Hst]|[-> Hst]].
  - change (0 <? 0) with false. cbv iota. assert (El : procs s2 = procs s) by (rewrite O2; by rs).
    destruct zombie_space as [x Hx]. destruct (reap_child s2 ps2 (<[i := (tf, t2)]> A) x H2 El) as (s3 & ps3 & E3 & O3 & H3 & Acc3 & K3).
    { rewrite lookup_insert_ne; [done|]. apply not_eq_sym, child_not_self. }
    erewrite (bind_ok (updproc j _)) by (apply updproc_at; by rewrite El). run E3.
    assert (Hh3 : held s3 = [L_proc j; L_wait]) by (rewrite O3; by rs).
    run (release_ok (L_proc j) [L_wait] s3 Hh3 ltac:(set_solver)). erewrite (bind_ok (release _)) by (eapply release_ok; [by rs|set_solver]).
    eexists (p_pid q), _, ps3, t2. split; [done|]. left. split; [done|]. rs.
    split; [by do 2 (apply ptable_held; [|set_solver])|]. split; [|split; [|split]].
    + rewrite O3, El. rs. rewrite O2. unfold s1. rs. rewrite <- Hh. st_eq s.
    + intros r. by rewrite Acc3, Acc2.
    + intros k y r [Hkj [Hki Hk]%lookup_delete_Some]%lookup_delete_Some Hy.
      assert (Hy2 : delete i A !! k = Some y) by (by rewrite lookup_delete_ne).
      eapply same_page_trans; [by eapply K2|]. eapply K3; [|by rewrite (kept_has _ _ _ _ _ _ K2 Hy2)].
      by rewrite lookup_delete_ne, lookup_insert_ne.
    + intros a. rewrite <- Hst. apply ubyte_kept. intros r Hr'. apply (K3 i (tf, t2) r); [|by right].
      rewrite lookup_delete_ne by exact child_not_self. apply lookup_insert_eq.
  - change (-1 <? 0) with true. cbv iota. run (release_ok (L_proc j) [L_wait] s2 Hh2 ltac:(set_solver)).
    erewrite (bind_ok (release _)) by (eapply release_ok; [by rs|set_solver]).
    eexists (-1), _, ps2, t2. split; [done|]. right. split; [done|]. rs. split; [by do 2 (apply ptable_held; [|set_solver])|].
    split; [|split; [done|split; [done|done]]]. rewrite O2. unfold s1. rs. rewrite <- Hh. st_eq s.
Qed.

End reap.

Lemma other_lock (l l' : lockid) : l <> l' -> l ∉ [l'].
Proof. intros Hne ->%list_elem_of_singleton. done. Qed.

(** ** [kwait] *)

Section kwait.
Context (s : kstate) (ps : list Z) (A : gmap nat (Z * ptree)) (i : nat) (p : proc) (tf : Z) (t : ptree) (addr : Z).
Hypothesis H : ptable_ok s ps A.
Hypothesis Hh : held s = [].
Hypothesis Hcpu : cpu_proc s = Some i.
Hypothesis Hp : procs s !! i = Some p.
Let s0 : kstate := s <| held := [L_wait] |>.

Lemma kwait_start : kwait addr s = kwait_loop sleep_fuel i addr s0.
Proof. unfold kwait. rewrite (bind_curproc i) by done. erewrite (bind_ok (acquire _)) by (apply acquire_ok; rewrite Hh; set_solver). by rewrite Hh. Qed.

Lemma kwait_zombie j q : p_state p <> ZOMBIE -> A !! i = Some (tf, t) -> 0 <= addr < 2 ^ 64 -> zombie_child s i j q ->
  (forall k q', (k < j)%nat -> ~ zombie_child s i k q') ->
  exists r s' ps' t', kwait addr s = Ok r s' /\ wait_post s ps A i p tf t addr j q r s' ps' t'.
Proof.
  intros Hrun HA Haddr Hz Hfirst. rewrite kwait_start. pose proof (pk_length _ _ _ H) as Hlen.
  assert (Hj : (j < NPROC)%nat) by (destruct Hz as (Hq & _); apply lookup_lt_Some in Hq; lia).
  assert (E : forall hk, exists r s' ps' t', kwait_scan (seq 0 NPROC) i addr hk s0 = Ok (inl r) s' /\ wait_post s ps A i p tf t addr j q r s' ps' t').
  { intros hk. replace NPROC with (j + S (NPROC - S j))%nat by lia. rewrite seq_app, scan_prefix.
    - apply scan_zombie; done.
    - intros k. unfold s0. rs. set_solver.
    - unfold s0. rs. lia.
    - intros k q' Hk. apply Hfirst. lia. }
  destruct (E false) as (r & s' & ps' & t' & Es & P). exists r, s', ps', t'. split; [|done].
  destruct sleep_fuel; cbn [kwait_loop]; by run Es.
Qed.

(** Without such a child, the scan tells whether there are children at all. *)
Lemma kwait_scan_none : (forall j q, ~ zombie_child s i j q) ->
  kwait_scan (seq 0 NPROC) i addr false s0 = Ok (inr (existsb (child_of_at s i) (seq 0 NPROC))) s0.
Proof.
  intros Hz. rewrite <- (app_nil_r (seq 0 NPROC)) at 1. rewrite scan_prefix; [done| |unfold s0; rs; rewrite (pk_length _ _ _ H); lia|intros j q _; apply Hz].
  intros k. unfold s0. rs. set_solver.
Qed.

Lemma any_child j : child_of_at s i j = true -> existsb (child_of_at s i) (seq 0 NPROC) = true.
Proof.
  intros Hj. apply existsb_exists. exists j. split; [|done]. apply in_seq. unfold child_of_at in Hj.
  destruct (procs s !! j) as [q|] eqn:E; [|done]. apply lookup_lt_Some in E. rewrite (pk_length _ _ _ H) in E. lia.
Qed.

Lemma kwait_fails : (forall j q, ~ zombie_child s i j q) -> (forall j, child_of_at s i j = false) \/ p_killed p = true -> kwait addr s = Ok (-1) s.
Proof.
  intros Hz Hc. rewrite kwait_start. pose proof (kwait_scan_none Hz) as Es. set (b := existsb (child_of_at s i) (seq 0 NPROC)) in *.
  assert (Ek : (if b then killed i else ret true) s0 = Ok true s0).
  { destruct b eqn:Eb; [|done]. destruct Hc as [Hc|Hc].
    - apply existsb_exists in Eb as (j & _ & Hj). by rewrite Hc in Hj.
    - rewrite <- Hc. apply killed_ok; [done|by apply other_lock]. }
  assert (Er : (release L_wait ;; ret (-1)) s0 = Ok (-1) s).
  { erewrite (bind_ok (release _)) by (eapply release_ok; [by unfold s0; rs|apply not_elem_of_nil]). apply Ok_eq; [done|]. unfold s0. rs. rewrite <- Hh. st_eq s. }
  destruct sleep_fuel; cbn [kwait_loop]; run Es; by run Ek.
Qed.

(** The process sleeps until a child exits. *)
Lemma kwait_sleeps j : (forall j q, ~ zombie_child s i j q) -> child_of_at s i j = true -> p_killed p = false -> (0 < sleep_fuel)%nat ->
  exists k, kwait addr s =
    Switch (s <| held := [L_proc i] |> <| procs := <[i := p <| p_chan := Some (Ch_proc i) |> <| p_state := SLEEPING |>]> (procs s) |>) k.
Proof.
  intros Hz Hj Hk Hf. rewrite kwait_start. pose proof (kwait_scan_none Hz) as Es. rewrite (any_child j Hj) in Es.
  destruct sleep_fuel as [|n]; [lia|]. cbn [kwait_loop]. run Es.
  assert (Ek : killed i s0 = Ok false s0) by (rewrite <- Hk; apply killed_ok; [done|by apply other_lock]). cbv iota. run Ek.
  erewrite (bind_ok (sleep_prepare _)) by (apply sleep_prepare_ok; [done|by apply other_lock]).
  erewrite (bind_ok (release _)) by (eapply release_ok; [by unfold s0; rs|apply not_elem_of_nil]).
  unfold bind at 1. erewrite (sleep_switch i); unfold s0; rs; [|done|by rewrite list_lookup_alter_eq, Hp|done|done]. cbn [obind]. eexists.
  f_equal. rewrite (alter_insert _ _ _ _ Hp), (alter_insert _ _ _ (p <| p_chan := Some (Ch_proc i) |>)) by (by eapply set_proc_lookup).
  rewrite list_insert_insert_eq. st_eq s.
Qed.

End kwait.

End wait.
