(* ===== verification/Exec.v ===== *)
(** kernel/exec.c: loading a program into a new address space. *)

From stdpp Require Import prelude gmap strings.
From Stdlib Require Import ZArith Lia Ascii.
From S2P Require Import Prelude Bytes Params State Spinlock CString Sched Kalloc Vm Log Copy Fs Proc.

Local Open Scope Z_scope.
Local Open Scope kernel_scope.

(** ** kernel/elf.h *)

Definition ELFHDR_SIZE : Z := 64.
Definition PROGHDR_SIZE : Z := 56.

Record elfhdr := mkElfhdr { e_magic : Z; e_entry : Z; e_phoff : Z; e_phnum : Z }.
Record proghdr := mkProghdr {
  ph_type : Z; ph_flags : Z; ph_off : Z; ph_vaddr : Z; ph_filesz : Z; ph_memsz : Z
}.

Definition field (off n : nat) (data : list Z) : Z := le_decode (slice off n data).

Definition get_elfhdr (d : list Z) : elfhdr :=
  mkElfhdr (field 0 4 d) (field 24 8 d) (field 32 8 d) (field 56 2 d).
Definition get_proghdr (d : list Z) : proghdr :=
  mkProghdr (field 0 4 d) (field 4 4 d) (field 8 8 d) (field 16 8 d) (field 32 8 d) (field 40 8 d).

Definition flags2perm (flags : Z) : Z :=
  let perm := if has_flag flags 0x1 then PTE_X else 0 in
  if has_flag flags 0x2 then Z.lor perm PTE_W else perm.

(** An argument string of [kexec]: in a page, or a constant of the kernel. *)
Inductive kstr := Str_page (pa : Z) | Str_const (s : list Z).

(** The characters of a string in memory before its NUL. *)
Fixpoint read_str (fuel : nat) (a : Z) : K (list Z) :=
  match fuel with
  | O => no_fuel
  | S n =>
      c <- load a 1 ;;
      if hd 0 c =? 0 then ret [] else rest <- read_str n (a + 1) ;; ret (hd 0 c :: rest)
  end.

Definition kstr_chars (x : kstr) : K (list Z) :=
  match x with
  | Str_page pa => read_str (Z.to_nat PGSIZE) pa
  | Str_const s => ret (cstring s)
  end.

(** [for (last = s = path; *s; s++) if ( *s == '/') last = s + 1;] *)
Fixpoint last_elem (s last : list Z) : list Z :=
  match s with
  | [] => last
  | c :: s' => if c =? 0 then last else last_elem s' (if c =? ch "/" then s' else last)
  end.

Section exec.
Context {F : Fuel} {L : Linker}.

Fixpoint loadseg_loop (fuel : nat) (pagetable va : Z) (ip : nat) (offset sz i : Z) : K Z :=
  if i <? sz then
    match fuel with
    | O => no_fuel
    | S fuel' =>
        pa <- walkaddr pagetable (u64 (va + i)) ;;
        panic_if (pa =? 0) "loadseg: address should exist" ;;
        let n := if sz - i <? PGSIZE then sz - i else PGSIZE in
        r <- readi ip (D_phys pa) (u32 (offset + i)) n ;;
        if negb (fst r =? n) then ret (-1)
        else loadseg_loop fuel' pagetable va ip offset sz (u32 (i + PGSIZE))
    end
  else ret 0.

Definition loadseg (pagetable va : Z) (ip : nat) (offset sz : Z) : K Z :=
  loadseg_loop (Z.to_nat (sz / PGSIZE + 1)) pagetable va ip offset sz 0.

(** The loop over the program headers: whether it reached its end, and [sz]. *)
Fixpoint load_segments (left : nat) (pagetable : Z) (ip : nat) (off sz : Z) : K (bool * Z) :=
  match left with
  | O => ret (true, sz)
  | S left' =>
      r <- readi ip D_local (u32 off) PROGHDR_SIZE ;;
      if negb (fst r =? PROGHDR_SIZE) then ret (false, sz)
      else
        let ph := get_proghdr (snd r) in
        let next := s32 (off + PROGHDR_SIZE) in
        if negb (ph_type ph =? ELF_PROG_LOAD) then load_segments left' pagetable ip next sz
        else if ph_memsz ph <? ph_filesz ph then ret (false, sz)
        else if u64 (ph_vaddr ph + ph_memsz ph) <? ph_vaddr ph then ret (false, sz)
        else if negb (ph_vaddr ph mod PGSIZE =? 0) then ret (false, sz)
        else
          sz1 <- uvmalloc pagetable sz (u64 (ph_vaddr ph + ph_memsz ph)) (flags2perm (ph_flags ph)) ;;
          if sz1 =? 0 then ret (false, sz)
          else
            r <- loadseg pagetable (ph_vaddr ph) ip (u32 (ph_off ph)) (u32 (ph_filesz ph)) ;;
            if r <? 0 then ret (false, sz1) else load_segments left' pagetable ip next sz1
  end.

(** The loop that copies the argument strings: the addresses and [sp], or [None]
    for [goto bad]. *)
Fixpoint push_args (pagetable sz stackbase sp : Z) (argv : list kstr) : K (option (list Z * Z)) :=
  match argv with
  | [] => ret (Some ([], sp))
  | x :: argv' =>
      s <- kstr_chars x ;;
      let sp := u64 (sp - (Z.of_nat (length s) + 1)) in
      let sp := sp - sp mod 16 in
      if sp <? stackbase then ret None
      else
        r <- copyout pagetable sz sp (s ++ [0]) ;;
        if r <? 0 then ret None
        else
          rest <- push_args pagetable sz stackbase sp argv' ;;
          ret (match rest with Some (us, sp') => Some (sp :: us, sp') | None => None end)
  end.

(** The stack of the new program: [argc], [sp] and the new size. *)
Definition build_stack (pagetable sz : Z) (argv : list kstr) : K (option (Z * Z) * Z) :=
  let sz := PGROUNDUP sz in
  sz1 <- uvmalloc pagetable sz (u64 (sz + (USERSTACK + 1) * PGSIZE)) PTE_W ;;
  if sz1 =? 0 then ret (None, sz)
  else
    uvmclear pagetable (u64 (sz1 - (USERSTACK + 1) * PGSIZE)) ;;
    let stackbase := u64 (sz1 - USERSTACK * PGSIZE) in
    r <- push_args pagetable sz1 stackbase sz1 argv ;;
    match r with
    | None => ret (None, sz1)
    | Some (us, sp) =>
        let argc := Z.of_nat (length us) in
        let sp := u64 (sp - (argc + 1) * 8) in
        let sp := sp - sp mod 16 in
        if sp <? stackbase then ret (None, sz1)
        else
          r <- copyout pagetable sz1 sp (concat (map (le_encode 8) (us ++ [0]))) ;;
          if r <? 0 then ret (None, sz1) else ret (Some (argc, sp), sz1)
    end.

(** [bad:] with the inode still open, or not. *)
Definition kexec_bad (pagetable sz : Z) (ip : option nat) : K Z :=
  when (negb (pagetable =? 0)) (proc_freepagetable pagetable sz) ;;
  (match ip with Some i => iunlockput i ;; end_op | None => ret tt end) ;;
  ret (-1).

(** Replace the image of process [p]. *)
Definition kexec_commit (p : nat) (path : list Z) (pagetable sz entry sp oldsz : Z) : K unit :=
  tf_set p TF_a1 sp ;;
  pr <- getproc p ;;
  updproc p (fun q => q <| p_name ::= blit 0 (safestrcpy (last_elem path path) 16) |>
                        <| p_pagetable := pagetable |> <| p_sz := sz |>) ;;
  tf_set p TF_epc entry ;;
  tf_set p TF_sp sp ;;
  proc_freepagetable (p_pagetable pr) oldsz.

Definition kexec (path : list Z) (argv : list kstr) : K Z :=
  p <- curproc ;;
  begin_op ;;
  o <- namei path ;;
  match o with
  | None => end_op ;; ret (-1)
  | Some ip =>
      ilock ip ;;
      r <- readi ip D_local 0 ELFHDR_SIZE ;;
      let elf := get_elfhdr (snd r) in
      if negb (fst r =? ELFHDR_SIZE) then kexec_bad 0 0 (Some ip)
      else if negb (e_magic elf =? ELF_MAGIC) then kexec_bad 0 0 (Some ip)
      else
        pagetable <- proc_pagetable p ;;
        if pagetable =? 0 then kexec_bad 0 0 (Some ip)
        else
          r <- load_segments (Z.to_nat (e_phnum elf)) pagetable ip (s32 (e_phoff elf)) 0 ;;
          if negb (fst r) then kexec_bad pagetable (snd r) (Some ip)
          else
            iunlockput ip ;;
            end_op ;;
            pr <- getproc p ;;
            let oldsz := p_sz pr in
            r <- build_stack pagetable (snd r) argv ;;
            match fst r with
            | None => kexec_bad pagetable (snd r) None
            | Some (argc, sp) =>
                kexec_commit p path pagetable (snd r) (e_entry elf) sp oldsz ;;
                ret (s32 argc)
            end
  end.

End exec.
