(* ===== verification/Syscall.v ===== *)
(** kernel/sysproc.c, kernel/sysfile.c and the argument fetching of
    kernel/syscall.c. *)

From stdpp Require Import prelude gmap strings.
From Stdlib Require Import ZArith Lia.
From S2P Require Import Prelude Bytes Params State Spinlock CString Uart Printk Sched Kalloc Vm Log Copy Fs Pipe File Proc Exec.

Local Open Scope Z_scope.
Local Open Scope kernel_scope.

Section args.
Context {L : Linker}.

(** The status and the value fetched. *)
Definition fetchaddr (addr : Z) : K (Z * Z) :=
  i <- curproc ;;
  p <- getproc i ;;
  if (p_sz p <=? addr) || (p_sz p <? u64 (addr + 8)) then ret (-1, 0)
  else
    r <- copyin (p_pagetable p) (p_sz p) addr 8 ;;
    if negb (fst r =? 0) then ret (-1, 0) else ret (0, le_decode (snd r)).

(** The length or -1, and the bytes stored in the buffer. *)
Definition fetchstr (addr max : Z) : K (Z * list Z) :=
  i <- curproc ;;
  p <- getproc i ;;
  r <- copyinstr (p_pagetable p) (p_sz p) addr max ;;
  if fst r <? 0 then ret (-1, snd r) else ret (strlen (snd r), snd r).

Definition argraw (n : Z) : K Z :=
  i <- curproc ;;
  if n =? 0 then tf_get i TF_a0
  else if n =? 1 then tf_get i TF_a1
  else if n =? 2 then tf_get i TF_a2
  else if n =? 3 then tf_get i TF_a3
  else if n =? 4 then tf_get i TF_a4
  else if n =? 5 then tf_get i TF_a5
  else panic "argraw".

Definition argint (n : Z) : K Z := v <- argraw n ;; ret (s32 v).
Definition argaddr (n : Z) : K Z := argraw n.
Definition argstr (n max : Z) : K (Z * list Z) := addr <- argaddr n ;; fetchstr addr max.

(** The descriptor and the file; [None] for -1. *)
Definition argfd (n : Z) : K (option (Z * nat)) :=
  fd <- argint n ;;
  if (fd <? 0) || (Z.of_nat NOFILE <=? fd) then ret None
  else
    i <- curproc ;;
    p <- getproc i ;;
    match p_ofile p !! Z.to_nat fd with
    | Some (Some f) => ret (Some (fd, f))
    | _ => ret None
    end.

End args.

(** The first free descriptor. *)
Fixpoint find_fd (l : list (option nat)) (fd : Z) : option Z :=
  match l with
  | [] => None
  | None :: _ => Some fd
  | Some _ :: l' => find_fd l' (fd + 1)
  end.

Definition fdalloc (f : nat) : K Z :=
  i <- curproc ;;
  p <- getproc i ;;
  match find_fd (p_ofile p) 0 with
  | Some fd => set_ofile i fd (Some f) ;; ret fd
  | None => ret (-1)
  end.

Section sysproc.
Context {F : Fuel} {L : Linker}.

Definition sys_exit : K Z := n <- argint 0 ;; kexit n ;; ret 0.

Definition sys_getpid : K Z := i <- curproc ;; p <- getproc i ;; ret (p_pid p).

Definition sys_fork : K Z := kfork.

Definition sys_wait : K Z := p <- argaddr 0 ;; kwait p.

Definition sys_sbrk : K Z :=
  n <- argint 0 ;;
  t <- argint 1 ;;
  i <- curproc ;;
  p <- getproc i ;;
  let addr := p_sz p in
  if (t =? SBRK_EAGER) || (n <? 0) then
    r <- growproc n ;;
    if r <? 0 then ret (-1) else ret addr
  else if u64 (addr + n) <? addr then ret (-1)
  else if TRAPFRAME <? u64 (addr + n) then ret (-1)
  else updproc i (fun p => p <| p_sz := u64 (p_sz p + n) |>) ;; ret addr.

(** [while (ticks - ticks0 < n)]: true when the process was killed. *)
Fixpoint pause_loop (fuel : nat) (ticks0 n : Z) : K bool :=
  t <- gets ticks ;;
  if u32 (t - ticks0) <? n then
    i <- curproc ;;
    k <- killed i ;;
    if (k : bool) then ret true
    else
      match fuel with
      | O => no_fuel
      | S fuel' =>
          sleep_prepare (Some Ch_ticks) ;;
          release L_ticks ;;
          sleep ;;
          acquire L_ticks ;;
          pause_loop fuel' ticks0 n
      end
  else ret false.

Definition sys_pause : K Z :=
  n <- argint 0 ;;
  let n := if n <? 0 then 0 else n in
  acquire L_ticks ;;
  ticks0 <- gets ticks ;;
  k <- pause_loop sleep_fuel ticks0 n ;;
  release L_ticks ;;
  ret (if (k : bool) then -1 else 0).

Definition sys_kill : K Z := pid <- argint 0 ;; kkill pid.

Definition sys_uptime : K Z :=
  acquire L_ticks ;;
  t <- gets ticks ;;
  release L_ticks ;;
  ret t.

End sysproc.

Section sysfile.
Context {F : Fuel} {L : Linker}.

Definition sys_dup : K Z :=
  r <- argfd 0 ;;
  match r with
  | None => ret (-1)
  | Some (_, f) =>
      fd <- fdalloc f ;;
      if fd <? 0 then ret (-1) else filedup f ;; ret fd
  end.

Definition sys_read : K Z :=
  p <- argaddr 1 ;;
  n <- argint 2 ;;
  r <- argfd 0 ;;
  match r with None => ret (-1) | Some (_, f) => fileread f p n end.

Definition sys_write : K Z :=
  p <- argaddr 1 ;;
  n <- argint 2 ;;
  r <- argfd 0 ;;
  match r with None => ret (-1) | Some (_, f) => filewrite f p n end.

Definition sys_close : K Z :=
  r <- argfd 0 ;;
  match r with
  | None => ret (-1)
  | Some (fd, f) =>
      i <- curproc ;;
      set_ofile i fd None ;;
      fileclose f ;;
      ret 0
  end.

Definition sys_fstat `{StackJunk} : K Z :=
  st <- argaddr 1 ;;
  r <- argfd 0 ;;
  match r with None => ret (-1) | Some (_, f) => filestat f st end.

(** [bad:] of [sys_link]. *)
Definition link_bad (ip : nat) : K Z :=
  ilock ip ;;
  updinode ip (fun x => x <| i_nlink := s16 (i_nlink x - 1) |>) ;;
  iupdate ip ;;
  iunlockput ip ;;
  end_op ;;
  ret (-1).

Definition sys_link : K Z :=
  old <- argstr 0 MAXPATH ;;
  if fst old <? 0 then ret (-1)
  else
    new <- argstr 1 MAXPATH ;;
    if fst new <? 0 then ret (-1)
    else
      begin_op ;;
      o <- namei (snd old) ;;
      match o with
      | None => end_op ;; ret (-1)
      | Some ip =>
          ilock ip ;;
          x <- getinode ip ;;
          if i_type x =? T_DIR then iunlockput ip ;; end_op ;; ret (-1)
          else if NLINK_MAX <=? i_nlink x then iunlockput ip ;; end_op ;; ret (-1)
          else
            updinode ip (fun x => x <| i_nlink := s16 (i_nlink x + 1) |>) ;;
            iupdate ip ;;
            iunlock ip ;;
            o <- nameiparent (snd new) ;;
            match o with
            | None => link_bad ip
            | Some (dp, name) =>
                ilock dp ;;
                d <- getinode dp ;;
                if i_nlink d =? 0 then iunlockput dp ;; link_bad ip
                else
                  x <- getinode ip ;;
                  r <- (if negb (i_dev d =? i_dev x) then ret (-1) else dirlink dp name (i_inum x)) ;;
                  if r <? 0 then iunlockput dp ;; link_bad ip
                  else iunlockput dp ;; iput ip ;; end_op ;; ret 0
            end
      end.

(** [for (off = 2 * sizeof(de); off < dp->size; off += sizeof(de))] *)
Fixpoint isdirempty_loop (fuel : nat) (dp : nat) (off : Z) : K bool :=
  d <- getinode dp ;;
  if off <? i_size d then
    match fuel with
    | O => no_fuel
    | S n =>
        r <- readi dp D_local off DIRENT_SIZE ;;
        panic_if (negb (fst r =? DIRENT_SIZE)) "isdirempty: readi" ;;
        if negb (dirent_inum (snd r) =? 0) then ret false else isdirempty_loop n dp (off + DIRENT_SIZE)
    end
  else ret true.

Definition isdirempty (dp : nat) : K bool :=
  d <- getinode dp ;;
  isdirempty_loop (Z.to_nat (i_size d)) dp (2 * DIRENT_SIZE).

(** [bad:] of [sys_unlink]. *)
Definition unlink_bad (dp : nat) : K Z := iunlockput dp ;; end_op ;; ret (-1).

Definition sys_unlink : K Z :=
  path <- argstr 0 MAXPATH ;;
  if fst path <? 0 then ret (-1)
  else
    begin_op ;;
    o <- nameiparent (snd path) ;;
    match o with
    | None => end_op ;; ret (-1)
    | Some (dp, name) =>
        ilock dp ;;
        if (namecmp name (str ".") =? 0) || (namecmp name (str "..") =? 0) then unlink_bad dp
        else
          o <- dirlookup dp name ;;
          match o with
          | None => unlink_bad dp
          | Some (ip, off) =>
              ilock ip ;;
              x <- getinode ip ;;
              panic_if (i_nlink x <? 1) "unlink: nlink < 1" ;;
              e <- (if i_type x =? T_DIR then isdirempty ip else ret true) ;;
              if negb e then iunlockput ip ;; unlink_bad dp
              else
                n <- writei dp (S_local (replicate 16 0)) off DIRENT_SIZE ;;
                panic_if (negb (n =? DIRENT_SIZE)) "unlink: writei" ;;
                x <- getinode ip ;;
                when (i_type x =? T_DIR)
                  (updinode dp (fun d => d <| i_nlink := s16 (i_nlink d - 1) |>) ;;
                   iupdate dp) ;;
                iunlockput dp ;;
                updinode ip (fun x => x <| i_nlink := s16 (i_nlink x - 1) |>) ;;
                iupdate ip ;;
                iunlockput ip ;;
                end_op ;;
                ret 0
          end
    end.

(** [fail:] of [create]. *)
Definition create_fail (ip dp : nat) : K (option nat) :=
  updinode ip (fun x => x <| i_nlink := 0 |>) ;;
  iupdate ip ;;
  iunlockput ip ;;
  iunlockput dp ;;
  ret None.

(** Create the entries of a new inode: the "." and ".." of a directory, and its
    name in [dp]; the result is negative when one of them fails. *)
Definition create_entries (ip dp : nat) (name : list Z) (type : Z) : K Z :=
  x <- getinode ip ;;
  d <- getinode dp ;;
  r <- (if type =? T_DIR then
          r <- dirlink ip (str ".") (i_inum x) ;;
          if r <? 0 then ret r else dirlink ip (str "..") (i_inum d)
        else ret 0) ;;
  if r <? 0 then ret r else dirlink dp name (i_inum x).

Definition create (path : list Z) (type major minor : Z) : K (option nat) :=
  o <- nameiparent path ;;
  match o with
  | None => ret None
  | Some (dp, name) =>
      ilock dp ;;
      d <- getinode dp ;;
      if i_nlink d =? 0 then iunlockput dp ;; ret None
      else if (type =? T_DIR) && (NLINK_MAX <=? i_nlink d) then iunlockput dp ;; ret None
      else
        o <- dirlookup dp name ;;
        match o with
        | Some (ip, _) =>
            iunlockput dp ;;
            ilock ip ;;
            x <- getinode ip ;;
            if (type =? T_FILE) && ((i_type x =? T_FILE) || (i_type x =? T_DEVICE)) then ret (Some ip)
            else iunlockput ip ;; ret None
        | None =>
            o <- ialloc (i_dev d) type ;;
            match o with
            | None => iunlockput dp ;; ret None
            | Some ip =>
                ilock ip ;;
                updinode ip (fun x => x <| i_major := major |> <| i_minor := minor |> <| i_nlink := 1 |>) ;;
                iupdate ip ;;
                r <- create_entries ip dp name type ;;
                if r <? 0 then create_fail ip dp
                else
                  when (type =? T_DIR)
                    (updinode dp (fun d => d <| i_nlink := s16 (i_nlink d + 1) |>) ;;
                     iupdate dp) ;;
                  iunlockput dp ;;
                  ret (Some ip)
            end
        end
  end.

(** The first part of [sys_open]: the locked inode, or [None] after [end_op]. *)
Definition open_inode (path : list Z) (omode : Z) : K (option nat) :=
  if has_flag omode O_CREATE then
    o <- create path T_FILE 0 0 ;;
    match o with
    | None => end_op ;; ret None
    | Some ip => ret (Some ip)
    end
  else
    o <- namei path ;;
    match o with
    | None => end_op ;; ret None
    | Some ip =>
        ilock ip ;;
        x <- getinode ip ;;
        if (i_type x =? T_DIR) && negb (omode =? O_RDONLY) then iunlockput ip ;; end_op ;; ret None
        else ret (Some ip)
    end.

(** The file structure of a newly opened inode. *)
Definition open_file (ip : nat) (x : inode) (omode : Z) (f : file) : file :=
  (if i_type x =? T_DEVICE then f <| f_type := FD_DEVICE |> <| f_major := i_major x |>
   else f <| f_type := FD_INODE |> <| f_off := 0 |>)
    <| f_ip := ip |>
    <| f_readable := negb (has_flag omode O_WRONLY) |>
    <| f_writable := has_flag omode O_WRONLY || has_flag omode O_RDWR |>.

Definition sys_open : K Z :=
  omode <- argint 1 ;;
  path <- argstr 0 MAXPATH ;;
  if fst path <? 0 then ret (-1)
  else
    begin_op ;;
    o <- open_inode (snd path) omode ;;
    match o with
    | None => ret (-1)
    | Some ip =>
        x <- getinode ip ;;
        if (i_type x =? T_DEVICE) && ((i_major x <? 0) || (Z.of_nat NDEV <=? i_major x)) then
          iunlockput ip ;; end_op ;; ret (-1)
        else
          f <- filealloc ;;
          fd <- (match f with Some f => fdalloc f | None => ret (-1) end) ;;
          match f with
          | Some f =>
              if fd <? 0 then fileclose f ;; iunlockput ip ;; end_op ;; ret (-1)
              else
                x <- getinode ip ;;
                updfile f (open_file ip x omode) ;;
                when (has_flag omode O_TRUNC && (i_type x =? T_FILE)) (itrunc ip) ;;
                iunlock ip ;;
                end_op ;;
                ret fd
          | None => iunlockput ip ;; end_op ;; ret (-1)
          end
    end.

Definition sys_mkdir : K Z :=
  begin_op ;;
  path <- argstr 0 MAXPATH ;;
  o <- (if fst path <? 0 then ret None else create (snd path) T_DIR 0 0) ;;
  match o with
  | None => end_op ;; ret (-1)
  | Some ip => iunlockput ip ;; end_op ;; ret 0
  end.

Definition sys_mknod : K Z :=
  begin_op ;;
  major <- argint 1 ;;
  minor <- argint 2 ;;
  path <- argstr 0 MAXPATH ;;
  o <- (if fst path <? 0 then ret None else create (snd path) T_DEVICE (s16 major) (s16 minor)) ;;
  match o with
  | None => end_op ;; ret (-1)
  | Some ip => iunlockput ip ;; end_op ;; ret 0
  end.

Definition sys_chdir : K Z :=
  i <- curproc ;;
  begin_op ;;
  path <- argstr 0 MAXPATH ;;
  o <- (if fst path <? 0 then ret None else namei (snd path)) ;;
  match o with
  | None => end_op ;; ret (-1)
  | Some ip =>
      ilock ip ;;
      x <- getinode ip ;;
      if negb (i_type x =? T_DIR) then iunlockput ip ;; end_op ;; ret (-1)
      else
        iunlock ip ;;
        p <- getproc i ;;
        (match p_cwd p with Some c => iput c | None => fault end) ;;
        end_op ;;
        updproc i (fun p => p <| p_cwd := Some ip |>) ;;
        ret 0
  end.

(** The loop of [sys_exec] that fetches the arguments: whether it reached a null
    pointer, and the pages allocated. *)
Fixpoint fetch_args (left : nat) (uargv i : Z) (argv : list Z) : K (bool * list Z) :=
  match left with
  | O => ret (false, argv)
  | S n =>
      r <- fetchaddr (u64 (uargv + 8 * i)) ;;
      if fst r <? 0 then ret (false, argv)
      else if snd r =? 0 then ret (true, argv)
      else
        pa <- kalloc ;;
        if pa =? 0 then ret (false, argv)
        else
          s <- fetchstr (snd r) PGSIZE ;;
          store pa (snd s) ;;
          if fst s <? 0 then ret (false, argv ++ [pa])
          else fetch_args n uargv (i + 1) (argv ++ [pa])
  end.

Definition sys_exec : K Z :=
  uargv <- argaddr 1 ;;
  path <- argstr 0 MAXPATH ;;
  if fst path <? 0 then ret (-1)
  else
    r <- fetch_args MAXARG uargv 0 [] ;;
    v <- (if fst r then kexec (snd path) (map Str_page (snd r)) else ret (-1)) ;;
    foreach (snd r) kfree ;;
    ret v.

Definition sys_pipe : K Z :=
  i <- curproc ;;
  fdarray <- argaddr 0 ;;
  r <- pipealloc ;;
  match r with
  | None => ret (-1)
  | Some (rf, wf) =>
      fd0 <- fdalloc rf ;;
      fd1 <- (if fd0 <? 0 then ret (-1) else fdalloc wf) ;;
      if (fd0 <? 0) || (fd1 <? 0) then
        when (0 <=? fd0) (set_ofile i fd0 None) ;;
        fileclose rf ;;
        fileclose wf ;;
        ret (-1)
      else
        p <- getproc i ;;
        r <- copyout (p_pagetable p) (p_sz p) fdarray (le_encode 4 fd0) ;;
        r <- (if r <? 0 then ret r
              else copyout (p_pagetable p) (p_sz p) (u64 (fdarray + 4)) (le_encode 4 fd1)) ;;
        if r <? 0 then
          set_ofile i fd0 None ;;
          set_ofile i fd1 None ;;
          fileclose rf ;;
          fileclose wf ;;
          ret (-1)
        else ret 0
  end.

End sysfile.

(** ** Dispatch (kernel/syscall.h, kernel/syscall.c) *)

Section dispatch.
Context {F : Fuel} {L : Linker} `{StackJunk}.

(** [syscalls[num]] *)
Definition syscalls (num : Z) : option (K Z) :=
  nth_error
    [sys_fork; sys_exit; sys_wait; sys_pipe; sys_read; sys_kill; sys_exec; sys_fstat; sys_chdir;
     sys_dup; sys_getpid; sys_sbrk; sys_pause; sys_uptime; sys_open; sys_write; sys_mknod;
     sys_unlink; sys_link; sys_mkdir; sys_close; sys_sync]
    (Z.to_nat (num - 1)).

Definition NELEM_syscalls : Z := 23.

Definition syscall : K unit :=
  i <- curproc ;;
  a7 <- tf_get i TF_a7 ;;
  let num := s32 a7 in
  match (if (0 <? num) && (num <? NELEM_syscalls) then syscalls num else None) with
  | Some f => v <- f ;; tf_set i TF_a0 (u64 v)
  | None =>
      p <- getproc i ;;
      printk (strn "%d %s: unknown sys call %d")
        [A_int (p_pid p); A_str (Some (cstring (p_name p))); A_int num] ;;
      tf_set i TF_a0 (u64 (-1))
  end.

End dispatch.
