(* ===== verification/Trap.v ===== *)
(** kernel/trap.c, kernel/plic.c, [forkret] of kernel/proc.c, [kvminithart] of
    kernel/vm.c and kernel/main.c.

    The control registers are in [csr].  The interrupt-enable bit of [sstatus] is
    kept as the trap code sets it; between an [acquire] and its [release]
    interrupts are off whatever the bit says, as [held] records. *)

From stdpp Require Import prelude gmap strings.
From Stdlib Require Import ZArith Lia.
From S2P Require Import Prelude Bytes Params State Spinlock CString Uart Printk Sched Sleeplock Kalloc Vm Bio Log Fs Console Virtio File Proc Exec Syscall.

Local Open Scope Z_scope.
Local Open Scope kernel_scope.

(** ** Control registers (kernel/riscv.h) *)

Definition SSTATUS_SPP : Z := Z.shiftl 1 8.
Definition SSTATUS_SPIE : Z := Z.shiftl 1 5.
Definition SSTATUS_SIE : Z := Z.shiftl 1 1.

Definition updcsr (f : csrs -> csrs) : K unit := modify (fun s => s <| csr := f (csr s) |>).

Definition intr_on : K unit := updcsr (fun c => c <| r_sstatus := Z.lor (r_sstatus c) SSTATUS_SIE |>).
Definition intr_off : K unit := updcsr (fun c => c <| r_sstatus := Z.ldiff (r_sstatus c) SSTATUS_SIE |>).
Definition intr_get : K bool := c <- gets csr ;; ret (has_flag (r_sstatus c) SSTATUS_SIE).

Definition w_stvec (x : Z) : K unit := updcsr (fun c => c <| r_stvec := x |>).
Definition w_sepc (x : Z) : K unit := updcsr (fun c => c <| r_sepc := x |>).
Definition w_sstatus (x : Z) : K unit := updcsr (fun c => c <| r_sstatus := x |>).
Definition w_satp (x : Z) : K unit := updcsr (fun c => c <| r_satp := x |>).
Definition w_stimecmp (x : Z) : K unit := updcsr (fun c => c <| r_stimecmp := u64 x |>).

Definition kvminithart : K unit := pt <- gets kernel_pagetable ;; w_satp (MAKE_SATP pt).

(** ** kernel/plic.c *)

Definition plicinit : K unit :=
  mmio_write (PLIC + UART0_IRQ * 4) 1 ;;
  mmio_write (PLIC + VIRTIO0_IRQ * 4) 1.

Definition plicinithart : K unit :=
  hart <- cpuid ;;
  mmio_write (PLIC_SENABLE hart) (Z.lor (Z.shiftl 1 UART0_IRQ) (Z.shiftl 1 VIRTIO0_IRQ)) ;;
  mmio_write (PLIC_SPRIORITY hart) 0.

Definition plic_claim : K Z :=
  hart <- cpuid ;;
  irq <- mmio_read (PLIC_SCLAIM hart) ;;
  ret (s32 irq).

Definition plic_complete (irq : Z) : K unit :=
  hart <- cpuid ;;
  mmio_write (PLIC_SCLAIM hart) (u32 irq).

(** ** kernel/trap.c *)

Definition trapinithart `{Linker} : K unit := w_stvec kernelvec_addr.

Definition clockintr : K unit :=
  id <- cpuid ;;
  when (id =? 0)
    (acquire L_ticks ;;
     modify (fun s => s <| ticks := u32 (ticks s + 1) |>) ;;
     wakeup (Some Ch_ticks) ;;
     release L_ticks) ;;
  c <- gets csr ;;
  w_stimecmp (r_time c + 1000000).

Definition devintr : K Z :=
  c <- gets csr ;;
  if r_scause c =? 0x8000000000000009 then
    irq <- plic_claim ;;
    (if irq =? UART0_IRQ then uartintr
     else if irq =? VIRTIO0_IRQ then virtio_disk_intr
     else when (negb (irq =? 0)) (printk (strn "unexpected interrupt irq=%d") [A_int irq] ;; ret tt)) ;;
    when (negb (irq =? 0)) (plic_complete irq) ;;
    ret 1
  else if r_scause c =? 0x8000000000000005 then clockintr ;; ret 2
  else ret 0.

Definition prepare_return `{Linker} : K unit :=
  i <- curproc ;;
  intr_off ;;
  w_stvec (TRAMPOLINE + uservec_off) ;;
  c <- gets csr ;;
  p <- getproc i ;;
  tf_set i TF_kernel_satp (r_satp c) ;;
  tf_set i TF_kernel_sp (u64 (p_kstack p + PGSIZE)) ;;
  tf_set i TF_kernel_trap usertrap_addr ;;
  tf_set i TF_kernel_hartid (r_tp c) ;;
  w_sstatus (Z.lor (Z.ldiff (r_sstatus c) SSTATUS_SPP) SSTATUS_SPIE) ;;
  epc <- tf_get i TF_epc ;;
  w_sepc epc.

Definition kerneltrap : K unit :=
  c <- gets csr ;;
  panic_if (negb (has_flag (r_sstatus c) SSTATUS_SPP)) "kerneltrap: not from supervisor mode" ;;
  on <- intr_get ;;
  panic_if on "kerneltrap: interrupts enabled" ;;
  which_dev <- devintr ;;
  (if which_dev =? 0 then
     printk (strn "scause=0x%lx sepc=0x%lx stval=0x%lx")
       [A_int (r_scause c); A_int (r_sepc c); A_int (r_stval c)] ;;
     panic "kerneltrap"
   else ret tt) ;;
  p <- myproc ;;
  when ((which_dev =? 2) && bool_decide (p <> None)) yield ;;
  w_sepc (r_sepc c) ;;
  w_sstatus (r_sstatus c).

Section usertrap.
Context {F : Fuel} {L : Linker} `{StackJunk}.

(** The body of [usertrap] between saving the program counter and the last check
    for a kill: [which_dev]. *)
Definition usertrap_cause (i : nat) : K Z :=
  c <- gets csr ;;
  if r_scause c =? 8 then
    k <- killed i ;;
    when k (kexit (-1)) ;;
    epc <- tf_get i TF_epc ;;
    tf_set i TF_epc (u64 (epc + 4)) ;;
    intr_on ;;
    syscall ;;
    ret 0
  else
    which_dev <- devintr ;;
    if negb (which_dev =? 0) then ret which_dev
    else
      p <- getproc i ;;
      r <- (if (r_scause c =? 15) || (r_scause c =? 13) then vmfault (p_pagetable p) (p_sz p) (r_stval c)
            else ret 0) ;;
      if negb (r =? 0) then ret 0
      else
        printk (strn "usertrap(): unexpected scause 0x%lx pid=%d") [A_int (r_scause c); A_int (p_pid p)] ;;
        printk (strn "            sepc=0x%lx stval=0x%lx") [A_int (r_sepc c); A_int (r_stval c)] ;;
        setkilled i ;;
        ret 0.

Definition usertrap : K Z :=
  c <- gets csr ;;
  panic_if (has_flag (r_sstatus c) SSTATUS_SPP) "usertrap: not from user mode" ;;
  w_stvec kernelvec_addr ;;
  i <- curproc ;;
  tf_set i TF_epc (r_sepc c) ;;
  which_dev <- usertrap_cause i ;;
  k <- killed i ;;
  when k (kexit (-1)) ;;
  when (which_dev =? 2) yield ;;
  prepare_return ;;
  p <- getproc i ;;
  ret (MAKE_SATP (p_pagetable p)).

(** [forkret]: the address it jumps to and the argument. *)
Definition forkret : K (Z * Z) :=
  i <- curproc ;;
  release (L_proc i) ;;
  fi <- gets first ;;
  when fi
    (fsinit ROOTDEV ;;
     modify (fun s => s <| first := false |>) ;;
     r <- kexec (str "/init") [Str_const (str "/init")] ;;
     tf_set i TF_a0 (u64 r) ;;
     a0 <- tf_get i TF_a0 ;;
     panic_if (a0 =? u64 (-1)) "exec") ;;
  prepare_return ;;
  p <- getproc i ;;
  ret (TRAMPOLINE + userret_off, MAKE_SATP (p_pagetable p)).

(** [main] on the boot hart, up to [scheduler]. *)
Definition main_hart0 : K unit :=
  consoleinit ;;
  printk [10] [] ;;
  printk (strn "xv6 kernel is booting") [] ;;
  printk [10] [] ;;
  kinit ;;
  kvminit ;;
  kvminithart ;;
  procinit ;;
  trapinithart ;;
  plicinit ;;
  plicinithart ;;
  binit ;;
  iinit ;;
  virtio_disk_init ;;
  userinit.

(** [main] on another hart after [started] is set, up to [scheduler]. *)
Definition main_other : K unit :=
  hart <- cpuid ;;
  printk (strn "hart %d starting") [A_int hart] ;;
  kvminithart ;;
  trapinithart ;;
  plicinithart.

Definition main : K unit :=
  id <- cpuid ;;
  if id =? 0 then main_hart0 else main_other.

End usertrap.
