(* ===== verification/Start.v ===== *)
(** kernel/start.c: what a hart does in machine mode before [main]. *)

From stdpp Require Import prelude.
From Stdlib Require Import ZArith Lia.
From S2P Require Import Prelude.

Local Open Scope Z_scope.
Local Open Scope kernel_scope.

(** ** Machine-mode registers (kernel/riscv.h) *)

Definition MSTATUS_MPP_MASK : Z := Z.shiftl 3 11.
Definition MSTATUS_MPP_S : Z := Z.shiftl 1 11.
Definition SIE_SEIE : Z := Z.shiftl 1 9.
Definition SIE_STIE : Z := Z.shiftl 1 5.
Definition MENVCFG_STCE : Z := Z.shiftl 1 63.
Definition MENVCFG_ADUE : Z := Z.shiftl 1 61.

Record mregs := mkMregs {
  m_status : Z;
  m_epc : Z;
  m_satp : Z;
  m_edeleg : Z;
  m_ideleg : Z;
  m_sie : Z;
  m_pmpaddr0 : Z;
  m_pmpcfg0 : Z;
  m_envcfg : Z;
  m_counteren : Z;
  m_stimecmp : Z;
  m_time : Z;
  m_hartid : Z;
  m_tp : Z;
}.

#[export] Instance eta_mregs : Eta mregs := fun r =>
  mkMregs (m_status r) (m_epc r) (m_satp r) (m_edeleg r) (m_ideleg r) (m_sie r) (m_pmpaddr0 r)
    (m_pmpcfg0 r) (m_envcfg r) (m_counteren r) (m_stimecmp r) (m_time r) (m_hartid r) (m_tp r).
#[export] Instance set_m_status : Setter m_status := ltac:(solve_setter).
#[export] Instance set_m_epc : Setter m_epc := ltac:(solve_setter).
#[export] Instance set_m_satp : Setter m_satp := ltac:(solve_setter).
#[export] Instance set_m_edeleg : Setter m_edeleg := ltac:(solve_setter).
#[export] Instance set_m_ideleg : Setter m_ideleg := ltac:(solve_setter).
#[export] Instance set_m_sie : Setter m_sie := ltac:(solve_setter).
#[export] Instance set_m_pmpaddr0 : Setter m_pmpaddr0 := ltac:(solve_setter).
#[export] Instance set_m_pmpcfg0 : Setter m_pmpcfg0 := ltac:(solve_setter).
#[export] Instance set_m_envcfg : Setter m_envcfg := ltac:(solve_setter).
#[export] Instance set_m_counteren : Setter m_counteren := ltac:(solve_setter).
#[export] Instance set_m_stimecmp : Setter m_stimecmp := ltac:(solve_setter).
#[export] Instance set_m_time : Setter m_time := ltac:(solve_setter).
#[export] Instance set_m_hartid : Setter m_hartid := ltac:(solve_setter).
#[export] Instance set_m_tp : Setter m_tp := ltac:(solve_setter).

Definition timerinit (r : mregs) : mregs :=
  let r := r <| m_envcfg := Z.lor (m_envcfg r) MENVCFG_STCE |> in
  let r := r <| m_counteren := Z.lor (m_counteren r) 2 |> in
  r <| m_stimecmp := u64 (m_time r + 1000000) |>.

(** [start], with the address of [main], up to the [mret]. *)
Definition start (main_addr : Z) (r : mregs) : mregs :=
  let r := r <| m_status := Z.lor (Z.ldiff (m_status r) MSTATUS_MPP_MASK) MSTATUS_MPP_S |> in
  let r := r <| m_epc := main_addr |> in
  let r := r <| m_satp := 0 |> in
  let r := r <| m_edeleg := 0xffff |> in
  let r := r <| m_ideleg := 0xffff |> in
  let r := r <| m_sie := Z.lor (Z.lor (m_sie r) SIE_SEIE) SIE_STIE |> in
  let r := r <| m_pmpaddr0 := 0x3fffffffffffff |> in
  let r := r <| m_pmpcfg0 := 0xf |> in
  let r := r <| m_envcfg := Z.lor (m_envcfg r) MENVCFG_ADUE |> in
  let r := timerinit r in
  r <| m_tp := s32 (m_hartid r) |>.
