(* ===== verification/Ulib.v ===== *)
(** user/ulib.c: the C library of user programs, and what [read] and [write] are to
    a program.

    Strings are the bytes of an array; a NUL or the end of the list ends them.  Memory
    is byte-addressed, as in the kernel's string routines. *)

From stdpp Require Import prelude gmap strings.
From Stdlib Require Import ZArith Lia Ascii.
From S2P Require Import Prelude Bytes Params CString.

Local Open Scope Z_scope.

(** The bytes that [strcpy(s, t)] stores at [s]. *)
Fixpoint strcpy (t : list Z) : list Z :=
  match t with
  | [] => [0]
  | c :: t' => c :: (if c =? 0 then [] else strcpy t')
  end.

Fixpoint strcmp (p q : list Z) : Z :=
  match p with
  | [] => - char_at q
  | c :: p' =>
      if negb (c =? 0) && (c =? char_at q) then strcmp p' (tl q) else c - char_at q
  end.

(** [for (n = 0; s[n]; n++)] *)
Fixpoint strlen_loop (s : list Z) (n : Z) : Z :=
  match s with
  | [] => n
  | c :: s' => if c =? 0 then n else strlen_loop s' (n + 1)
  end.

Definition strlen (s : list Z) : Z := strlen_loop s 0.

Definition memset (m : memory) (dst c n : Z) : option memory := memset_loop m dst c (Z.to_nat n).

(** The index of the first [c]; the terminating NUL is not searched. *)
Fixpoint strchr (s : list Z) (c : Z) : option nat :=
  match s with
  | [] => None
  | x :: s' => if x =? 0 then None else if x =? c then Some 0%nat else S <$> strchr s' c
  end.

(** Converts the digits at the start of [s]; an [int] wraps. *)
Fixpoint atoi_loop (s : list Z) (n : Z) : Z :=
  match s with
  | [] => n
  | c :: s' => if (ch "0" <=? c) && (c <=? ch "9") then atoi_loop s' (s32 (n * 10 + c - ch "0")) else n
  end.

Definition atoi (s : list Z) : Z := atoi_loop s 0.

Definition memmove (m : memory) (vdst vsrc n : Z) : option memory :=
  if vdst <? vsrc then copy_up m vdst vsrc (Z.to_nat n)
  else copy_down m (vdst + n) (vsrc + n) (Z.to_nat n).

Definition memcpy (m : memory) (dst src n : Z) : option memory := memmove m dst src n.

Definition memcmp (m : memory) (s1 s2 n : Z) : option Z := memcmp_loop m s1 s2 (Z.to_nat n).

(** ** Reading a file

    The bytes a descriptor still has to give, and how many of them are ready at each
    call: [read] returns at least one byte, if there is one and it was asked for one. *)
Record input := mkInput { i_bytes : list Z; i_ready : nat -> nat; i_call : nat }.

Definition read (size : nat) (i : input) : list Z * input :=
  let n := Nat.min size (S (i_ready i (i_call i))) in
  (take n (i_bytes i), mkInput (drop n (i_bytes i)) (i_ready i) (S (i_call i))).

(** The loop of [gets]: the bytes stored in [buf] after the [i] that are there. *)
Fixpoint gets_loop (left : nat) (inp : input) (buf : list Z) : list Z * input :=
  match left with
  | O => (buf, inp)
  | S left' =>
      match read 1 inp with
      | (c :: _, inp') =>
          if (c =? 10) || (c =? 13) then (buf ++ [c], inp') else gets_loop left' inp' (buf ++ [c])
      | ([], inp') => (buf, inp')
      end
  end.

(** What is stored in [buf], with the NUL. *)
Definition gets (max : nat) (inp : input) : list Z * input :=
  let (l, inp') := gets_loop (max - 1) inp [] in (l ++ [0], inp').

(** ** Lemmas *)

Lemma ulib_strlen s : strlen s = Z.of_nat (length (cstring s)).
Proof.
  unfold strlen. assert (H : forall n, strlen_loop s n = n + Z.of_nat (length (cstring s))); [|apply H].
  induction s as [|c s IH]; intros n; cbn [strlen_loop cstring]; [cbn; lia|].
  destruct (c =? 0); [cbn; lia|]. rewrite IH. cbn [length]. lia.
Qed.

Lemma strchr_app_nul c l r : strchr (l ++ 0 :: r) c = strchr l c.
Proof.
  induction l as [|x l IH]; [done|]. cbn [app strchr]. by rewrite IH.
Qed.

Lemma strchr_Some l c k :
  strchr l c = Some k -> exists a b, l = a ++ c :: b /\ length a = k /\ c ∉ a /\ 0 ∉ a.
Proof.
  revert k. induction l as [|x l IH]; intros k; cbn [strchr]; [done|].
  destruct (Z.eqb_spec x 0) as [->|Hx]; [done|]. destruct (Z.eqb_spec x c) as [->|Hc].
  - intros [= <-]. exists [], l. split; [done|]. split; [done|]. split; apply not_elem_of_nil.
  - destruct (strchr l c) as [j|]; [|done]. intros [= <-].
    destruct (IH j eq_refl) as (a & b & -> & <- & Ha & H0). exists (x :: a), b.
    split; [done|]. split; [done|]. split; apply not_elem_of_cons; split; done || congruence.
Qed.

Lemma strchr_None l c : 0 ∉ l -> strchr l c = None -> c ∉ l.
Proof.
  induction l as [|x l IH]; intros H0; cbn [strchr]; [intros _; apply not_elem_of_nil|].
  apply not_elem_of_cons in H0 as [Hx H0].
  rewrite (proj2 (Z.eqb_neq x 0)) by congruence. destruct (Z.eqb_spec x c) as [->|Hc]; [done|].
  destruct (strchr l c); [done|]. intros _. apply not_elem_of_cons. split; [congruence|]. by apply IH.
Qed.

Lemma read_spec size i l i' :
  read size i = (l, i') ->
  i_bytes i = l ++ i_bytes i' /\ (length l <= size)%nat /\ (l = [] -> size = 0%nat \/ i_bytes i = []).
Proof.
  unfold read. intros [= <- <-]. cbn [i_bytes]. rewrite take_drop. split; [done|].
  rewrite length_take. split; [lia|]. intros E. apply (f_equal length) in E. rewrite length_take in E.
  cbn [length] in E. destruct (i_bytes i); [by right|left]. cbn [length] in E. lia.
Qed.
