(* ===== verification/Grep.v ===== *)
(** user/grep.c: the pattern matcher, and the loop that reads lines.

    [matches] says what a pattern means; [match_] is the matcher.  [grep] is shown to
    print the matching lines of its input however the input arrives. *)

From stdpp Require Import prelude gmap strings.
From Stdlib Require Import ZArith Lia Ascii.
From S2P Require Import Prelude Bytes Params CString Ulib.

Local Open Scope Z_scope.

(** ** The code *)

(** [matchstar(c, re, text)], where [here] is [matchhere] for [re]. *)
Fixpoint matchstar (here : list Z -> bool) (c : Z) (text : list Z) : bool :=
  here text ||
  match text with
  | t :: text' =>
      if negb (t =? 0) && ((t =? c) || (c =? ch ".")) then matchstar here c text' else false
  | [] => false
  end.

Fixpoint matchhere (re text : list Z) : bool :=
  match re with
  | [] => true
  | c :: re' =>
      if c =? 0 then true
      else if char_at re' =? ch "*" then
        match re' with
        | _ :: re2 => matchstar (matchhere re2) c text
        | [] => false
        end
      else if (c =? ch "$") && (char_at re' =? 0) then char_at text =? 0
      else
        match text with
        | t :: text' =>
            if negb (t =? 0) && ((c =? ch ".") || (c =? t)) then matchhere re' text' else false
        | [] => false
        end
  end.

(** [do ... while ( *text++ != 0)] *)
Fixpoint match_loop (re text : list Z) : bool :=
  matchhere re text ||
  match text with
  | t :: text' => if t =? 0 then false else match_loop re text'
  | [] => false
  end.

Definition match_ (re text : list Z) : bool :=
  if char_at re =? ch "^" then matchhere (tl re) text else match_loop re text.

Definition NL : Z := 10.

(** [while ((q = strchr(p, '\n')) != 0)]: the buffer, [p] and what was written. *)
Fixpoint line_loop (fuel : nat) (pattern buf : list Z) (p : nat) (out : list Z)
    : option (list Z * nat * list Z) :=
  match strchr (drop p buf) NL with
  | None => Some (buf, p, out)
  | Some k =>
      match fuel with
      | O => None
      | S n =>
          let buf1 := <[(p + k)%nat := 0]> buf in
          if match_ pattern (drop p buf1) then
            let buf2 := <[(p + k)%nat := NL]> buf1 in
            line_loop n pattern buf2 (p + k + 1) (out ++ slice p (k + 1) buf2)
          else line_loop n pattern buf1 (p + k + 1) out
      end
  end.

(** The outer loop, with [m] bytes in [buf]; the result is what was written. *)
Fixpoint grep_loop (fuel : nat) (pattern buf : list Z) (m : nat) (inp : input) (out : list Z)
    : option (list Z) :=
  match read (1024 - m - 1) inp with
  | ([], _) => Some out
  | (l, inp') =>
      match fuel with
      | O => None
      | S n =>
          let m := (m + length l)%nat in
          let buf := <[m := 0]> (blit (m - length l) l buf) in
          match line_loop (length buf) pattern buf 0 out with
          | None => None
          | Some (buf, p, out) =>
              grep_loop n pattern (blit 0 (slice p (m - p) buf) buf) (m - p) inp' out
          end
      end
  end.

(** The buffer is zero at the start. *)
Definition grep (pattern : list Z) (inp : input) : option (list Z) :=
  grep_loop (length (i_bytes inp)) pattern (replicate 1024 0) 0 inp [].

(** ** What a pattern means *)

Inductive item := Char (c : Z) | Star (c : Z).

(** A pattern, without its [^]: its items, and whether it ends in [$]. *)
Fixpoint parse_re (re : list Z) : list item * bool :=
  match re with
  | [] => ([], false)
  | c :: re' =>
      if c =? 0 then ([], false)
      else
        match re' with
        | x :: re2 =>
            if x =? ch "*" then let (l, e) := parse_re re2 in (Star c :: l, e)
            else if (c =? ch "$") && (x =? 0) then ([], true)
            else let (l, e) := parse_re re' in (Char c :: l, e)
        | [] => if c =? ch "$" then ([], true) else ([Char c], false)
        end
  end.

(** A dot stands for any character. *)
Definition char_ok (c t : Z) : Prop := c = ch "." \/ c = t.

(** [text] starts with something that the items describe; with [e], it is all of it. *)
Inductive here_ok : list item -> bool -> list Z -> Prop :=
| here_nil text : here_ok [] false text
| here_end : here_ok [] true []
| here_char c l e t text : char_ok c t -> here_ok l e text -> here_ok (Char c :: l) e (t :: text)
| here_star c l e u text : Forall (char_ok c) u -> here_ok l e text -> here_ok (Star c :: l) e (u ++ text).

Definition matches (re text : list Z) : Prop :=
  if char_at re =? ch "^" then let (l, e) := parse_re (tl re) in here_ok l e text
  else let (l, e) := parse_re re in exists u v, text = u ++ v /\ here_ok l e v.

(** ** The matcher is right *)

Lemma matchstar_ok here c text :
  0 ∉ text ->
  matchstar here c text = true <->
  exists u v, text = u ++ v /\ Forall (char_ok c) u /\ here v = true.
Proof.
  induction text as [|t text IH]; intros H0; cbn [matchstar].
  - rewrite orb_false_r. split.
    + intros H. by exists [], [].
    + intros (u & v & E & _ & H). symmetry in E. apply app_nil in E as [-> ->]. done.
  - apply not_elem_of_cons in H0 as [Ht H0]. rewrite (proj2 (Z.eqb_neq t 0)) by congruence.
    cbn [negb andb]. rewrite orb_true_iff. split.
    + intros [H|H]; [by exists [], (t :: text)|].
      destruct ((t =? c) || (c =? ch ".")) eqn:Ec; [|done].
      apply IH in H as (u & v & -> & Hu & Hv); [|done]. exists (t :: u), v. split; [done|]. split; [|done].
      constructor; [|done]. apply orb_true_iff in Ec as [Ec%Z.eqb_eq|Ec%Z.eqb_eq]; [right|left]; congruence.
    + intros (u & v & E & Hu & Hv). destruct u as [|x u]; [left; cbn in E; congruence|right].
      cbn [app] in E. injection E as <- ->. apply Forall_cons in Hu as [Hx Hu].
      replace ((t =? c) || (c =? ch ".")) with true; [by apply IH; [|exists u, v]|].
      symmetry. apply orb_true_iff. destruct Hx as [->| ->]; [right|left]; apply Z.eqb_refl.
Qed.

Lemma here_end_iff text : here_ok [] true text <-> text = [].
Proof. split; [by inversion 1|intros ->; constructor]. Qed.

Lemma here_char_iff c l e text :
  here_ok (Char c :: l) e text <-> exists t text', text = t :: text' /\ char_ok c t /\ here_ok l e text'.
Proof.
  split; [inversion 1; subst; eauto|]. intros (t & text' & -> & ? & ?). by constructor.
Qed.

Lemma here_star_iff c l e text :
  here_ok (Star c :: l) e text <-> exists u v, text = u ++ v /\ Forall (char_ok c) u /\ here_ok l e v.
Proof.
  split; [inversion 1; subst; eauto|]. intros (u & v & -> & ? & ?). by constructor.
Qed.

(** One ordinary character of the pattern. *)
Lemma match_char c (here : list Z -> bool) l e text :
  0 ∉ text -> (forall text', 0 ∉ text' -> here text' = true <-> here_ok l e text') ->
  match text with
  | t :: text' => if negb (t =? 0) && ((c =? ch ".") || (c =? t)) then here text' else false
  | [] => false
  end = true <-> here_ok (Char c :: l) e text.
Proof.
  intros H0 Hh. rewrite here_char_iff. destruct text as [|t text].
  { split; [done|]. by intros (? & ? & ? & _). }
  apply not_elem_of_cons in H0 as [Ht H0]. rewrite (proj2 (Z.eqb_neq t 0)) by congruence. cbn [negb andb].
  assert (Hc : (c =? ch ".") || (c =? t) = true <-> char_ok c t).
  { unfold char_ok. by rewrite orb_true_iff, !Z.eqb_eq. }
  destruct ((c =? ch ".") || (c =? t)) eqn:Ec.
  - rewrite Hh by done. split; [intros H; exists t, text; by split_and!; [|apply Hc|]|].
    by intros (? & ? & [= -> ->] & _ & ?).
  - split; [done|]. intros (? & ? & [= <- <-] & H & _). apply Hc in H. done.
Qed.

Lemma nul_false text : 0 ∉ text -> char_at text =? 0 = true <-> text = [].
Proof.
  destruct text as [|t text]; [done|]. intros [Ht _]%not_elem_of_cons. cbn. rewrite Z.eqb_eq. split; congruence.
Qed.

Lemma matchhere_ok n re text :
  (length re <= n)%nat -> 0 ∉ text ->
  matchhere re text = true <-> let (l, e) := parse_re re in here_ok l e text.
Proof.
  revert re text. induction n as [|n IH]; intros re text Hn H0; destruct re as [|c re]; cbn [length] in Hn; try lia.
  1, 2: cbn; split; [constructor|done].
  cbn [matchhere parse_re]. destruct (Z.eqb_spec c 0) as [->|Hc]; [split; [constructor|done]|].
  destruct re as [|x re2].
  - cbn [char_at hd]. change (0 =? ch "*") with false. cbn [Z.eqb]. rewrite andb_true_r. cbv iota.
    destruct (c =? ch "$"); [rewrite nul_false by done; by rewrite here_end_iff|].
    apply match_char; [done|]. intros text' H'. split; [constructor|by cbn].
  - cbn [char_at hd]. destruct (Z.eqb_spec x (ch "*")) as [->|Hx].
    + cbn [length] in Hn. destruct (parse_re re2) as [l e] eqn:Ep.
      rewrite matchstar_ok, here_star_iff by done.
      assert (Hh : forall v, 0 ∉ v -> matchhere re2 v = true <-> here_ok l e v).
      { intros v Hv. rewrite IH by (done || lia). by rewrite Ep. }
      split; intros (u & v & -> & Hu & Hv); exists u, v; (split; [done|]); (split; [done|]);
        apply Hh; try done; intros Hin; apply H0, elem_of_app; by right.
    + destruct ((c =? ch "$") && (x =? 0)) eqn:Ed; [rewrite nul_false by done; by rewrite here_end_iff|].
      destruct (parse_re (x :: re2)) as [l e] eqn:Ep. apply match_char; [done|].
      intros text' H'. rewrite IH by (done || cbn [length] in *; lia). by rewrite Ep.
Qed.

Lemma match_loop_ok re text :
  0 ∉ text ->
  match_loop re text = true <->
  let (l, e) := parse_re re in exists u v, text = u ++ v /\ here_ok l e v.
Proof.
  destruct (parse_re re) as [l e] eqn:Ep.
  assert (Hh : forall v, 0 ∉ v -> matchhere re v = true <-> here_ok l e v).
  { intros v Hv. rewrite (matchhere_ok (length re)) by done. by rewrite Ep. }
  induction text as [|t text IH]; intros H0; cbn [match_loop].
  - rewrite orb_false_r, Hh by done. split; [intros H; by exists [], []|].
    intros (u & v & E & H). symmetry in E. apply app_nil in E as [-> ->]. done.
  - pose proof H0 as [Ht H0']%not_elem_of_cons. rewrite (proj2 (Z.eqb_neq t 0)) by congruence.
    rewrite orb_true_iff, Hh, IH by done. split.
    + intros [H|(u & v & -> & H)]; [by exists [], (t :: text)|by exists (t :: u), v].
    + intros (u & v & E & H). destruct u as [|x u]; [left; cbn in E; congruence|right].
      cbn [app] in E. injection E as <- ->. by exists u, v.
Qed.

Lemma match_ok re text : 0 ∉ text -> match_ re text = true <-> matches re text.
Proof.
  intros H0. unfold match_, matches. destruct (char_at re =? ch "^"); [|by apply match_loop_ok].
  by apply (matchhere_ok (length (tl re))).
Qed.

(** ** The text ends at its NUL *)

Lemma matchstar_nul here c l r :
  (forall l, here (l ++ 0 :: r) = here l) -> matchstar here c (l ++ 0 :: r) = matchstar here c l.
Proof.
  intros Hh. induction l as [|t l IH]; cbn [app matchstar].
  - pose proof (Hh []) as E. cbn [app] in E. by rewrite E.
  - pose proof (Hh (t :: l)) as E. cbn [app] in E. by rewrite E, IH.
Qed.

Lemma char_at_nul l r : char_at (l ++ 0 :: r) = char_at l.
Proof. by destruct l. Qed.

Lemma matchhere_nul n re r l :
  (length re <= n)%nat -> matchhere re (l ++ 0 :: r) = matchhere re l.
Proof.
  revert re l. induction n as [|n IH]; intros re l Hn; destruct re as [|c re]; cbn [length] in Hn; try lia; try done.
  cbn [matchhere]. rewrite char_at_nul. destruct (c =? 0); [done|].
  destruct (char_at re =? ch "*").
  - destruct re as [|x re2]; [done|]. apply matchstar_nul. intros l'. apply IH. cbn [length] in Hn. lia.
  - destruct ((c =? ch "$") && _); [done|]. destruct l as [|t l]; [done|]. cbn [app].
    destruct (negb (t =? 0) && _); [|done]. apply IH. lia.
Qed.

Lemma match_nul re r l : match_ re (l ++ 0 :: r) = match_ re l.
Proof.
  unfold match_. destruct (char_at re =? ch "^"); [by eapply matchhere_nul|].
  induction l as [|t l IH]; cbn [app match_loop].
  - by rewrite <- (matchhere_nul (length re) re r []).
  - pose proof (matchhere_nul (length re) re r (t :: l)) as E. cbn [app] in E. rewrite E by done.
    by rewrite IH.
Qed.

(** ** The lines of the input *)

(** The complete lines of [inp] after the characters [acc], and the characters after
    the last of them. *)
Fixpoint lines_from (acc inp : list Z) : list (list Z) :=
  match inp with
  | [] => []
  | c :: inp' => if c =? NL then acc :: lines_from [] inp' else lines_from (acc ++ [c]) inp'
  end.

Fixpoint rest_from (acc inp : list Z) : list Z :=
  match inp with
  | [] => acc
  | c :: inp' => if c =? NL then rest_from [] inp' else rest_from (acc ++ [c]) inp'
  end.

(** What [grep] prints for some lines. *)
Definition print_lines (re : list Z) (l : list (list Z)) : list Z :=
  concat (map (fun line => line ++ [NL]) (filter (fun line => match_ re line = true) l)).

Lemma lines_app acc l r : lines_from acc (l ++ r) = lines_from acc l ++ lines_from (rest_from acc l) r.
Proof.
  revert acc. induction l as [|c l IH]; intros acc; [done|]. cbn [app lines_from rest_from].
  destruct (c =? NL); [cbn [app]; by rewrite IH|apply IH].
Qed.

Lemma lines_plain acc l : NL ∉ l -> lines_from acc l = [] /\ rest_from acc l = acc ++ l.
Proof.
  revert acc. induction l as [|c l IH]; intros acc Hn; [by rewrite app_nil_r|].
  apply not_elem_of_cons in Hn as [Hc Hn]. cbn [lines_from rest_from].
  rewrite (proj2 (Z.eqb_neq c NL)) by congruence. destruct (IH (acc ++ [c]) Hn) as [-> ->].
  by rewrite <- app_assoc.
Qed.

Lemma print_app re l l' : print_lines re (l ++ l') = print_lines re l ++ print_lines re l'.
Proof. unfold print_lines. by rewrite filter_app, map_app, concat_app. Qed.

Lemma print_one re l : print_lines re [l] = if match_ re l then l ++ [NL] else [].
Proof.
  unfold print_lines. rewrite filter_cons, filter_nil.
  destruct (match_ re l); [rewrite decide_True by done|by rewrite decide_False].
  apply app_nil_r.
Qed.

(** The first line is at least as long as what there already is of it. *)
Lemma lines_first acc inp l ls : lines_from acc inp = l :: ls -> (length acc <= length l)%nat.
Proof.
  revert acc. induction inp as [|c inp IH]; intros acc; cbn [lines_from]; [done|].
  destruct (c =? NL); [by intros [= <- _]|]. intros H. apply IH in H. rewrite length_app in H. lia.
Qed.

(** The inner loop prints the complete lines of the buffer and stops behind them. *)
Lemma line_loop_ok fuel re buf p w tail out :
  drop p buf = w ++ 0 :: tail -> 0 ∉ w -> (length w <= fuel)%nat -> (p + length w < length buf)%nat ->
  exists buf' p',
    line_loop fuel re buf p out = Some (buf', p', out ++ print_lines re (lines_from [] w)) /\
    (p <= p')%nat /\ length buf' = length buf /\
    slice p' (p + length w - p') buf' = rest_from [] w /\ (p' + length (rest_from [] w) = p + length w)%nat.
Proof.
  revert buf p w out. induction fuel as [|fuel IH]; intros buf p w out Hd H0 Hf Hp;
    cbn [line_loop]; rewrite Hd, strchr_app_nul.
  { destruct w; [|cbn in Hf; lia]. cbn [strchr]. exists buf, p. rewrite app_nil_r.
    replace (p + length [] - p)%nat with 0%nat by (cbn; lia). done. }
  destruct (strchr w NL) as [k|] eqn:Es.
  2: { apply strchr_None in Es; [|done]. destruct (lines_plain [] w Es) as [-> ->]. exists buf, p.
       cbn [print_lines app concat map]. rewrite app_nil_r. split; [done|]. split; [lia|]. split; [done|].
       replace (p + length w - p)%nat with (length w) by lia. split; [|done].
       unfold slice. rewrite Hd. by apply take_app_length. }
  apply strchr_Some in Es as (l & w' & -> & <- & Hl & Hl0).
  set (k := length l). rewrite length_app in Hf, Hp. cbn [length] in Hf, Hp.
  set (buf1 := <[(p + k)%nat := 0]> buf).
  assert (Hd1 : forall x, drop p (<[(p + k)%nat := x]> buf) = l ++ x :: w' ++ 0 :: tail).
  { intros x. rewrite drop_insert_ge by lia. replace (p + k - p)%nat with k by lia.
    rewrite Hd, <- app_assoc. unfold k. rewrite insert_app_r_alt by lia. by rewrite Nat.sub_diag. }
  unfold buf1. rewrite Hd1, match_nul, list_insert_insert_eq.
  assert (Hlines : print_lines re (lines_from [] (l ++ NL :: w')) =
    (if match_ re l then l ++ [NL] else []) ++ print_lines re (lines_from [] w')).
  { rewrite lines_app. destruct (lines_plain [] l Hl) as [-> ->]. cbn [app lines_from].
    rewrite Z.eqb_refl. change (l :: lines_from [] w') with ([l] ++ lines_from [] w').
    by rewrite print_app, print_one. }
  assert (Hrest : rest_from [] (l ++ NL :: w') = rest_from [] w').
  { clear. assert (forall acc, rest_from acc (l ++ NL :: w') = rest_from [] w') as H; [|apply H].
    induction l as [|c l IH]; intros acc; cbn [app rest_from]; [by rewrite Z.eqb_refl|].
    destruct (c =? NL); apply IH. }
  rewrite Hlines, Hrest, length_app. cbn [length].
  assert (Hw : 0 ∉ w' /\ forall x, drop (p + k + 1) (<[(p + k)%nat := x]> buf) = w' ++ 0 :: tail).
  { split; [intros Hin; apply H0, elem_of_app; right; by right|]. intros x.
    rewrite <- Nat.add_assoc, <- drop_drop, Hd1. unfold k.
    rewrite drop_app_add. done. }
  destruct Hw as [Hw0 Hdw].
  destruct (IH (<[(p + k)%nat := if match_ re l then NL else 0]> buf) (p + k + 1)%nat w'
    (out ++ if match_ re l then l ++ [NL] else [])) as (buf' & p' & E & Hp' & Hlen & Hs & Hpl);
    [apply Hdw|done|lia|rewrite length_insert; unfold k; lia|].
  exists buf', p'. rewrite app_assoc. rewrite length_insert in Hlen.
  replace (p + (length l + S (length w')))%nat with (p + k + 1 + length w')%nat by (unfold k; lia).
  split; [|split; [lia|done]]. destruct (match_ re l).
  - rewrite <- E. f_equal. f_equal. unfold slice. rewrite Hd1. change (k + 1)%nat with (length l + 1)%nat.
    rewrite take_app_add. done.
  - by rewrite app_nil_r in E |- *.
Qed.

Lemma rest_app acc l r : rest_from acc (l ++ r) = rest_from (rest_from acc l) r.
Proof.
  revert acc. induction l as [|c l IH]; intros acc; [done|]. cbn [app rest_from].
  destruct (c =? NL); apply IH.
Qed.

Lemma rest_plain acc l : NL ∉ acc -> NL ∉ rest_from acc l.
Proof.
  revert acc. induction l as [|c l IH]; intros acc Ha; [done|]. cbn [rest_from].
  destruct (Z.eqb_spec c NL) as [->|Hc]; apply IH; [apply not_elem_of_nil|].
  rewrite elem_of_app, list_elem_of_singleton. intros [?|?]; congruence.
Qed.

Lemma rest_nonul acc l : 0 ∉ acc -> 0 ∉ l -> 0 ∉ rest_from acc l.
Proof.
  revert acc. induction l as [|c l IH]; intros acc Ha Hl; [done|]. cbn [rest_from].
  apply not_elem_of_cons in Hl as [Hc Hl]. destruct (c =? NL); apply IH; try done; [apply not_elem_of_nil|].
  rewrite elem_of_app, list_elem_of_singleton. intros [?|?]; congruence.
Qed.

Lemma lines_nonul acc inp line : 0 ∉ acc -> 0 ∉ inp -> line ∈ lines_from acc inp -> 0 ∉ line.
Proof.
  revert acc. induction inp as [|c inp IH]; intros acc Ha Hi; cbn [lines_from]; [by intros ?%not_elem_of_nil|].
  apply not_elem_of_cons in Hi as [Hc Hi]. destruct (c =? NL).
  - intros [->|H]%elem_of_cons; [done|]. by apply (IH []); [apply not_elem_of_nil|..].
  - apply IH; [|done]. rewrite elem_of_app, list_elem_of_singleton. intros [?|?]; congruence.
Qed.

(** One round: [acc] was in the buffer, [l] has been read. *)
Lemma grep_round re buf acc l out :
  length buf = 1024%nat -> take (length acc) buf = acc -> (length acc + length l <= 1023)%nat ->
  NL ∉ acc -> 0 ∉ acc -> 0 ∉ l ->
  let m := (length acc + length l)%nat in
  let buf1 := <[m := 0]> (blit (m - length l) l buf) in
  exists buf2 p,
    line_loop (length buf1) re buf1 0 out = Some (buf2, p, out ++ print_lines re (lines_from acc l)) /\
    length buf2 = 1024%nat /\ slice p (m - p) buf2 = rest_from acc l /\
    (m - p)%nat = length (rest_from acc l).
Proof.
  intros Hb Ha Hm Hn H0 Hl0 m buf1.
  assert (Hlb : length (blit (length acc) l buf) = 1024%nat) by (rewrite length_blit; lia).
  assert (Hd : drop 0 buf1 = (acc ++ l) ++ 0 :: drop (S m) buf).
  { cbn [drop]. unfold buf1, m. replace (length acc + length l - length l)%nat with (length acc) by lia.
    rewrite insert_take_drop by lia. unfold blit. rewrite Ha, (app_assoc acc l).
    rewrite <- length_app, take_app_length. f_equal. f_equal.
    rewrite <- (Nat.add_1_r (length (acc ++ l))), drop_app_add, drop_drop. f_equal; rewrite ?length_app; lia. }
  assert (Hlen : length buf1 = 1024%nat).
  { unfold buf1. rewrite length_insert. by replace (m - length l)%nat with (length acc) by (unfold m; lia). }
  destruct (line_loop_ok (length buf1) re buf1 0 (acc ++ l) (drop (S m) buf) out Hd)
    as (buf2 & p & E & _ & Hlen2 & Hs & Hp).
  { rewrite elem_of_app. tauto. }
  { rewrite length_app. lia. }
  { rewrite length_app. lia. }
  destruct (lines_plain [] acc Hn) as [El Er]. cbn [app] in Er.
  rewrite lines_app, El, Er in E. rewrite rest_app, Er in Hs, Hp. rewrite Nat.add_0_l, length_app in Hs, Hp.
  exists buf2, p. split; [exact E|]. split; [lia|]. split; [exact Hs|]. fold m in Hp. lia.
Qed.

Lemma grep_loop_ok fuel re buf acc inp out :
  length buf = 1024%nat -> take (length acc) buf = acc -> (length acc <= 1023)%nat ->
  NL ∉ acc -> 0 ∉ acc -> 0 ∉ i_bytes inp -> (length (i_bytes inp) <= fuel)%nat ->
  Forall (fun l => (length l <= 1022)%nat) (lines_from acc (i_bytes inp)) ->
  grep_loop fuel re buf (length acc) inp out =
    Some (out ++ print_lines re (lines_from acc (i_bytes inp))).
Proof.
  revert buf acc inp out. induction fuel as [|fuel IH]; intros buf acc inp out Hb Ha Hm Hn H0 Hi Hf Hl;
    cbn [grep_loop]; destruct (read (1024 - length acc - 1) inp) as [l inp'] eqn:Er;
    destruct (read_spec _ _ _ _ Er) as (Ei & Hsz & Hnil); destruct l as [|c l].
  1, 3: assert (lines_from acc (i_bytes inp) = []) as ->; [|by rewrite app_nil_r];
    destruct (Hnil eq_refl) as [Hz| ->]; [|done];
    destruct (lines_from acc (i_bytes inp)) as [|x ls] eqn:El; [done|];
    apply lines_first in El as Hx; apply Forall_cons in Hl as [Hl _]; lia.
  { rewrite Ei in Hf. cbn in Hf. lia. }
  rewrite Ei in Hi. pose proof Hi as Hi'. rewrite elem_of_app in Hi'.
  destruct (grep_round re buf acc (c :: l) out) as (buf2 & p & E & Hb2 & Hs & Hp); try done; [lia|tauto|].
  rewrite Hp in Hs. rewrite E, Hp, Hs, Ei, lines_app, print_app, app_assoc. assert (Hlr : (length (rest_from acc (c :: l)) <= 1023)%nat) by lia.
  apply IH.
  - rewrite length_blit; [done|]. lia.
  - unfold blit. rewrite take_0, app_nil_l. apply take_app_length.
  - done.
  - by apply rest_plain.
  - apply rest_nonul; tauto.
  - tauto.
  - rewrite Ei, length_app in Hf. cbn [length] in Hf. lia.
  - rewrite Ei, lines_app, Forall_app in Hl. tauto.
Qed.

(** C24: [grep] prints the lines that match.  For an input of lines of at most 1022
    characters and without NULs, whatever amounts of it the reads return, the output is
    the complete lines that contain what the pattern describes, in order and with their
    newlines; a line fed in pieces is matched as a whole.  The matcher terminates and
    agrees with the meaning of patterns: anchors, [.] and [c*]. *)
Theorem grep_prints_matches re inp :
  0 ∉ i_bytes inp -> Forall (fun l => (length l <= 1022)%nat) (lines_from [] (i_bytes inp)) ->
  exists out, grep re inp = Some out /\ out = print_lines re (lines_from [] (i_bytes inp)) /\
    forall line, line ∈ lines_from [] (i_bytes inp) ->
      (match_ re line = true <-> matches re line).
Proof.
  intros H0 Hl. eexists. split; [|split; [reflexivity|]].
  - unfold grep. apply (grep_loop_ok _ re _ []); try done; try apply not_elem_of_nil. cbn. lia.
  - intros line Hin. apply match_ok. intros Hz. revert Hin Hz. apply lines_nonul; [apply not_elem_of_nil|done].
Qed.

(** Two lines, of which the reads return 2, 1, 1, ... bytes at a time. *)
Lemma grep_prints_matches_witness :
  let inp := mkInput (strn "cat" ++ strn "dog" ++ str "c") (fun i => (1 - i)%nat) 0 in
  grep (str "^c.*t$") inp = Some (strn "cat").
Proof.
  intros inp. destruct (grep_prints_matches (str "^c.*t$") inp) as (out & -> & -> & _).
  - unfold inp. cbn [i_bytes]. apply (bool_decide_eq_true_1 (0 ∉ _)). reflexivity.
  - unfold inp. repeat constructor.
  - reflexivity.
Defined.
