(* ===== verification/Umalloc.v ===== *)
(** user/umalloc.c: the memory allocator of user programs.

    Memory is seen as the headers in it: [h_ptr a] and [h_size a] are the fields of the
    [Header] at address [a], of 16 bytes.  [base] is the address of the static header;
    [room z] says whether the kernel can grow the program to [z] bytes. *)

From stdpp Require Import prelude gmap strings.
From Stdlib Require Import ZArith Lia.
From S2P Require Import Prelude Bytes Params.

Local Open Scope Z_scope.

(** ** The code *)

Record heap := mkHeap { h_ptr : Z -> Z; h_size : Z -> Z; h_freep : Z; h_brk : Z }.

Definition upd (f : Z -> Z) (a v : Z) : Z -> Z := fun x => if x =? a then v else f x.

Definition set_ptr (a v : Z) (h : heap) : heap :=
  mkHeap (upd (h_ptr h) a v) (h_size h) (h_freep h) (h_brk h).
Definition set_size (a v : Z) (h : heap) : heap :=
  mkHeap (h_ptr h) (upd (h_size h) a v) (h_freep h) (h_brk h).
Definition set_freep (v : Z) (h : heap) : heap := mkHeap (h_ptr h) (h_size h) v (h_brk h).
Definition set_brk (v : Z) (h : heap) : heap := mkHeap (h_ptr h) (h_size h) (h_freep h) v.

(** [p + n] for a [Header *]. *)
Definition hdr_add (p n : Z) : Z := p + 16 * n.

(** The loop of [free] that looks for the place of [bp]. *)
Fixpoint find_place (fuel : nat) (h : heap) (bp p : Z) : option Z :=
  if (p <? bp) && (bp <? h_ptr h p) then Some p
  else if (h_ptr h p <=? p) && ((p <? bp) || (bp <? h_ptr h p)) then Some p
  else match fuel with O => None | S n => find_place n h bp (h_ptr h p) end.

(** [free] joins [bp] with the block [next] after it, if they touch, ... *)
Definition join_upper (bp next : Z) (h : heap) : heap :=
  if hdr_add bp (h_size h bp) =? next then
    set_ptr bp (h_ptr h next) (set_size bp (u32 (h_size h bp + h_size h next)) h)
  else set_ptr bp next h.

(** ... and with the block [p] before it. *)
Definition join_lower (bp p : Z) (h : heap) : heap :=
  if hdr_add p (h_size h p) =? bp then
    set_ptr p (h_ptr h bp) (set_size p (u32 (h_size h p + h_size h bp)) h)
  else set_ptr p bp h.

(** The rest of [free]: put [bp] behind [p]. *)
Definition insert_block (bp p : Z) (h : heap) : heap :=
  set_freep p (join_lower bp p (join_upper bp (h_ptr h p) h)).

Definition free (fuel : nat) (ap : Z) (h : heap) : option heap :=
  let bp := ap - 16 in
  p ← find_place fuel h bp (h_freep h); Some (insert_block bp p h).

Section malloc.
Context (base : Z) (room : Z -> bool).

(** [sbrk]: the system call of kernel/sysproc.c as a program sees it.  Growing to [z] bytes
    succeeds when there is memory, [room z]; shrinking below zero leaves the size alone. *)
Definition sbrk (n : Z) (h : heap) : Z * heap :=
  if n <? 0 then (h_brk h, if 0 <=? h_brk h + n then set_brk (h_brk h + n) h else h)
  else if (n =? 0) || room (h_brk h + n) then (h_brk h, set_brk (h_brk h + n) h)
  else (-1, h).

(** The argument of [sbrk] is an [int]. *)
Definition morecore (fuel : nat) (nu : Z) (h : heap) : option (Z * heap) :=
  let nu := if nu <? 4096 then 4096 else nu in
  let (p, h) := sbrk (s32 (nu * 16)) h in
  if p =? -1 then Some (0, h)
  else h ← free fuel (p + 16) (set_size p nu h); Some (h_freep h, h).

(** Take [nunits] out of the free block [p] behind [prevp]. *)
Definition take_block (nunits prevp p : Z) (h : heap) : Z * heap :=
  if h_size h p =? nunits then (p + 16, set_freep prevp (set_ptr prevp (h_ptr h p) h))
  else
    let h := set_size p (u32 (h_size h p - nunits)) h in
    let q := hdr_add p (h_size h p) in
    (q + 16, set_freep prevp (set_size q nunits h)).

Fixpoint malloc_loop (fuel : nat) (nunits prevp p : Z) (h : heap) : option (Z * heap) :=
  if nunits <=? h_size h p then Some (take_block nunits prevp p h)
  else
    match fuel with
    | O => None
    | S n =>
        if p =? h_freep h then
          r ← morecore n nunits h;
          if r.1 =? 0 then Some (0, r.2) else malloc_loop n nunits r.1 (h_ptr r.2 r.1) r.2
        else malloc_loop n nunits p (h_ptr h p) h
    end.

Definition malloc (fuel : nat) (nbytes : Z) (h : heap) : option (Z * heap) :=
  let nunits := u32 ((nbytes + 16 - 1) / 16 + 1) in
  let h := if h_freep h =? 0 then set_size base 0 (set_freep base (set_ptr base base h)) else h in
  malloc_loop fuel nunits (h_freep h) (h_ptr h (h_freep h)) h.

End malloc.

(** ** The free list *)

(** From [a], the pointers [f] visit [l] and come to [b]. *)
Fixpoint path (f : Z -> Z) (a : Z) (l : list Z) (b : Z) : Prop :=
  match l with
  | [] => f a = b
  | x :: l' => f a = x /\ path f x l' b
  end.

(** Blocks in the order of their addresses, no two of them adjacent. *)
Fixpoint sorted (lo : Z) (l : list (Z * Z)) : Prop :=
  match l with
  | [] => True
  | (a, n) :: l' => lo < a /\ 0 < n /\ sorted (a + 16 * n) l'
  end.

(** The blocks of [n] units at [a] and of [n'] at [a'] do not overlap. *)
Definition apart (a n a' n' : Z) : Prop := a + 16 * n <= a' \/ a' + 16 * n' <= a.

Lemma path_app f a l1 x l2 b : path f a (l1 ++ x :: l2) b <-> path f a l1 x /\ path f x l2 b.
Proof. revert a. induction l1 as [|y l1 IH]; intros a; cbn; [done|]. rewrite IH. tauto. Qed.

Lemma path_ext f g a l b : (forall x, x ∈ a :: l -> g x = f x) -> path f a l b -> path g a l b.
Proof.
  revert a. induction l as [|y l IH]; intros a H; cbn; [intros <-; apply H; left|].
  intros [<- Hp]. split; [apply H; left|]. apply IH; [|done]. intros x Hx. apply H. by right.
Qed.

(** The last element of [a :: l]. *)
Definition last_of (a : Z) (l : list Z) : Z := default a (last l).

Lemma last_of_in a l : last_of a l ∈ a :: l.
Proof.
  unfold last_of. destruct (last l) eqn:E; [right; by apply last_Some_elem_of|left].
Qed.

Lemma path_last f a l b : path f a l b -> f (last_of a l) = b.
Proof.
  revert a. induction l as [|x l IH]; intros a; [done|]. intros [_ Hp]. apply IH in Hp.
  unfold last_of in *. rewrite last_cons. by destruct (last l).
Qed.

Lemma upd_eq f a v : upd f a v a = v.
Proof. unfold upd. by rewrite Z.eqb_refl. Qed.

Lemma upd_ne f a v x : x <> a -> upd f a v x = f x.
Proof. intros H. unfold upd. by rewrite (proj2 (Z.eqb_neq x a)). Qed.

(** [a'] put in the place of the start [a]. *)
Lemma path_restart f a a' l b : path f a l b -> a' ∉ l -> path (upd f a' (f a)) a' l b.
Proof.
  destruct l as [|x l]; cbn; rewrite upd_eq; [done|]. intros [-> Hp] Hn. split; [done|].
  eapply path_ext; [|exact Hp]. intros y Hy. apply upd_ne. intros ->. done.
Qed.

(** Redirecting the end of a path. *)
Lemma path_redirect f a l b b' :
  path f a l b -> NoDup (a :: l) -> path (upd f (last_of a l) b') a l b'.
Proof.
  revert a. induction l as [|x l IH]; intros a Hp Hn.
  - cbn. unfold upd. by rewrite Z.eqb_refl.
  - destruct Hp as [Ha Hp]. apply NoDup_cons in Hn as [Hax Hn]. split.
    + unfold upd. rewrite (proj2 (Z.eqb_neq a _)); [done|]. intros E. apply Hax. rewrite E.
      unfold last_of. rewrite last_cons. destruct (last l) eqn:El; [right; by apply last_Some_elem_of|left].
    + assert (E : last_of a (x :: l) = last_of x l) by (unfold last_of; rewrite last_cons; by destruct (last l)).
      rewrite E. by apply IH.
Qed.

Lemma sorted_app lo l1 l2 :
  sorted lo (l1 ++ l2) <->
  sorted lo l1 /\ sorted (match last l1 with Some (a, n) => a + 16 * n | None => lo end) l2.
Proof.
  revert lo. induction l1 as [|[a n] l1 IH]; intros lo; cbn [app sorted]; [cbn; tauto|].
  rewrite IH, last_cons. destruct (last l1) as [[a' n']|]; tauto.
Qed.

Lemma sorted_lower lo l a n : sorted lo l -> (a, n) ∈ l -> lo < a /\ 0 < n.
Proof.
  revert lo. induction l as [|[a' n'] l IH]; intros lo; cbn [sorted]; [by intros _ ?%not_elem_of_nil|].
  intros (H1 & H2 & H3) [[= -> ->]|Hin]%elem_of_cons; [done|]. destruct (IH _ H3 Hin). lia.
Qed.

Lemma sorted_weaken lo lo' l : lo' <= lo -> sorted lo l -> sorted lo' l.
Proof. destruct l as [|[a n] l]; [done|]. cbn [sorted]. intros H (? & ? & ?). split_and!; done || lia. Qed.

Lemma sorted_nodup lo l : sorted lo l -> NoDup (lo :: l.*1).
Proof.
  assert (H : forall lo l x, sorted lo l -> x ∈ l.*1 -> lo < x).
  { clear. intros lo l x Hs Hx. apply list_elem_of_fmap in Hx as ([a n] & -> & Hin).
    by apply (sorted_lower lo l a n). }
  revert lo. induction l as [|[a n] l IH]; intros lo Hs.
  - apply NoDup_singleton.
  - apply NoDup_cons. split; [intros Hin; apply (H _ _ _ Hs) in Hin; lia|].
    destruct Hs as (? & ? & Hs). apply (sorted_weaken _ a) in Hs; [|lia]. by apply IH.
Qed.

Section heap.
Context (base : Z) (room : Z -> bool).
Hypothesis Hbase : 0 < base.
Hypothesis Hroom : forall z, room z = true -> z <= 2 ^ 36.

(** A block within the heap that overlaps no block of [al]. *)
Definition spare (brk : Z) (al : gmap Z Z) (a n : Z) : Prop :=
  base + 16 <= a /\ 0 < n /\ a + 16 * n <= brk /\ (forall a' n', al !! a' = Some n' -> apart a n a' n').

(** The free blocks are [l], the allocated ones [al], by address. *)
Record heap_inv (h : heap) (l : list (Z * Z)) (al : gmap Z Z) : Prop := {
  hi_path : path (h_ptr h) base l.*1 base;
  hi_sorted : sorted base l;
  hi_freep : h_freep h ∈ base :: l.*1;
  hi_base : h_size h base = 0;
  hi_free : forall a n, (a, n) ∈ l -> h_size h a = n /\ spare (h_brk h) al a n;
  hi_alloc : forall a n, al !! a = Some n -> h_size h a = n /\ spare (h_brk h) (delete a al) a n;
  hi_brk : base + 16 <= h_brk h <= 2 ^ 36;
}.

(** ** Looking for the place of a block *)

(** The loop of [free] stops at [p]. *)
Definition stops (h : heap) (bp p : Z) : bool :=
  ((p <? bp) && (bp <? h_ptr h p)) || ((h_ptr h p <=? p) && ((p <? bp) || (bp <? h_ptr h p))).

Lemma find_stop fuel h bp p : stops h bp p = true -> find_place fuel h bp p = Some p.
Proof.
  unfold stops. destruct fuel; cbn [find_place]; destruct (_ && (bp <? h_ptr h p)); try done; cbn [orb];
    by intros ->.
Qed.

Lemma find_step fuel h bp p :
  stops h bp p = false -> find_place (S fuel) h bp p = find_place fuel h bp (h_ptr h p).
Proof.
  unfold stops. cbn [find_place]. destruct (_ && (bp <? h_ptr h p)); [done|]. cbn [orb]. by intros ->.
Qed.

Lemma find_in fuel h bp t p m q :
  path (h_ptr h) p m q -> (forall x, x ∈ p :: m -> stops h bp x = true <-> x = t) -> t ∈ p :: m ->
  (length m <= fuel)%nat -> find_place fuel h bp p = Some t.
Proof.
  revert fuel p. induction m as [|x m IH]; intros fuel p Hp Hs Ht Hf;
    (destruct (decide (p = t)) as [->|Hne]; [apply find_stop, Hs; [left|done]|]).
  - apply list_elem_of_singleton in Ht. congruence.
  - destruct Hp as [<- Hp]. destruct fuel as [|fuel]; [cbn in Hf; lia|]. rewrite find_step.
    + apply IH; [done|..].
      * intros y Hy. apply Hs. by right.
      * apply elem_of_cons in Ht as [->|Ht]; [congruence|done].
      * cbn in Hf. lia.
    + apply not_true_is_false. intros E. apply Hs in E; [congruence|left].
Qed.

Lemma find_past k h bp p m q :
  path (h_ptr h) p m q -> (forall x, x ∈ p :: m -> stops h bp x = false) ->
  find_place (length m + 1 + k) h bp p = find_place k h bp q.
Proof.
  revert p. induction m as [|x m IH]; intros p Hp Hs; cbn [length].
  - replace (0 + 1 + k)%nat with (S k) by lia. rewrite find_step by (apply Hs; left). by rewrite Hp.
  - destruct Hp as [<- Hp]. replace (S (length m) + 1 + k)%nat with (S (length m + 1 + k)) by lia.
    rewrite find_step by (apply Hs; left). apply IH; [done|]. intros y Hy. apply Hs. by right.
Qed.

Lemma find_more fuel fuel' h bp p t :
  find_place fuel h bp p = Some t -> (fuel <= fuel')%nat -> find_place fuel' h bp p = Some t.
Proof.
  revert fuel' p. induction fuel as [|fuel IH]; intros fuel' p H Hf; destruct (stops h bp p) eqn:E.
  - rewrite find_stop in H by done. by rewrite find_stop.
  - revert E H. unfold stops. cbn [find_place]. destruct (_ && (bp <? h_ptr h p)); [done|]. cbn [orb]. by intros ->.
  - rewrite find_stop in H by done. by rewrite find_stop.
  - rewrite find_step in H by done. destruct fuel' as [|fuel']; [lia|]. rewrite find_step by done.
    apply IH; [done|lia].
Qed.

(** Twice around the list is enough from anywhere. *)
Lemma find_anywhere fuel h bp t p l :
  path (h_ptr h) base l base -> p ∈ base :: l -> t ∈ base :: l ->
  (forall x, x ∈ base :: l -> stops h bp x = true <-> x = t) -> (2 * length l + 2 <= fuel)%nat ->
  find_place fuel h bp p = Some t.
Proof.
  intros Hp Hin Ht Hs Hf.
  assert (Hround : find_place (length l) h bp base = Some t) by (by eapply find_in).
  apply elem_of_cons in Hin as [->|Hin]; [eapply find_more; [exact Hround|lia]|].
  apply list_elem_of_split in Hin as (l1 & l2 & ->). apply path_app in Hp as [_ Hp].
  rewrite length_app in Hf. cbn [length] in Hf.
  assert (Hsub : forall x, x ∈ p :: l2 -> x ∈ base :: l1 ++ p :: l2).
  { intros x Hx. right. apply elem_of_app. by right. }
  destruct (decide (t ∈ p :: l2)) as [Hin|Hout].
  - eapply find_in; [exact Hp| |done|lia]. intros x Hx. apply Hs. by apply Hsub.
  - eapply (find_more (length l2 + 1 + length (l1 ++ p :: l2))); [|rewrite length_app; cbn [length]; lia].
    rewrite (find_past _ _ _ _ _ _ Hp); [done|]. intros x Hx. apply not_true_is_false. intros E.
    apply Hs in E; [congruence|by apply Hsub].
Qed.

(** An element of the list and its successor. *)
Lemma path_next f lo l b x :
  path f lo l.*1 b -> sorted lo l -> x ∈ lo :: l.*1 ->
  (x = last_of lo l.*1 /\ f x = b) \/ (x < f x /\ f x ∈ l.*1).
Proof.
  revert lo. induction l as [|[a n] l IH]; intros lo Hp Hs Hx.
  - apply list_elem_of_singleton in Hx as ->. by left.
  - cbn [fmap list_fmap fst] in *. destruct Hp as [Ha Hp]. destruct Hs as (Hlo & Hn & Hs).
    assert (El : last_of lo (a :: l.*1) = last_of a l.*1).
    { unfold last_of. rewrite last_cons. by destruct (last l.*1). }
    apply elem_of_cons in Hx as [->|Hx]; [right; rewrite Ha; split; [lia|left]|].
    destruct (IH a Hp) as [[-> H]|[H1 H2]]; [eapply sorted_weaken; [|exact Hs]; lia|done| |].
    + left. by rewrite El.
    + right. split; [done|by right].
Qed.

Lemma sorted_start lo l x : sorted lo l -> x ∈ l.*1 -> lo < x.
Proof.
  intros Hs Hx. apply list_elem_of_fmap in Hx as ([a n] & -> & Hin). by apply (sorted_lower lo l a n).
Qed.

(** The place of [bp] is the last free block before it. *)
Lemma stops_place h l1 l2 bp x :
  path (h_ptr h) base (l1 ++ l2).*1 base -> sorted base (l1 ++ l2) -> base < bp ->
  (forall y, y ∈ l1.*1 -> y < bp) -> (forall y, y ∈ l2.*1 -> bp < y) -> x ∈ base :: (l1 ++ l2).*1 ->
  stops h bp x = true <-> x = last_of base l1.*1.
Proof.
  intros Hp Hs Hb H1 H2 Hx. rewrite fmap_app in *.
  pose proof Hs as [Hs1 Hs2]%sorted_app.
  assert (Hlow : forall y, y ∈ base :: l1.*1 -> base <= y < bp).
  { intros y [->|Hy]%elem_of_cons; [lia|]. pose proof (sorted_start _ _ _ Hs1 Hy). pose proof (H1 _ Hy). lia. }
  pose proof (Hlow _ (last_of_in base l1.*1)) as Hlast.
  unfold stops. rewrite orb_true_iff, !andb_true_iff, orb_true_iff, !Z.ltb_lt, Z.leb_le.
  destruct l2 as [|[a2 n2] l2]; cbn [fmap list_fmap fst] in *.
  - rewrite app_nil_r in *. pose proof (Hlow x Hx). pose proof (path_last _ _ _ _ Hp) as El.
    destruct (path_next _ _ _ _ x Hp Hs1 Hx) as [[-> E]|[E1 E2]]; [lia|].
    pose proof (H1 _ E2). split; [lia|]. intros ->. lia.
  - apply path_app in Hp as [Hp1 Hp2]. destruct Hs2 as (_ & Hn2 & Hs2).
    apply (sorted_weaken _ a2) in Hs2; [|lia]. pose proof (path_last _ _ _ _ Hp1) as El.
    pose proof (H2 a2 (list_elem_of_here _ _)) as Ha2.
    apply elem_of_cons in Hx as [Hx|[Hx|Hx]%elem_of_app].
    1: assert (Hin : x ∈ base :: l1.*1) by (rewrite Hx; left).
    2: assert (Hin : x ∈ base :: l1.*1) by (by right).
    1,2: pose proof (Hlow x Hin);
      destruct (path_next _ _ _ _ x Hp1 Hs1 Hin) as [[-> E]|[E1 E2]]; [lia|];
      pose proof (Hlow (h_ptr h x) ltac:(by right)); split; [lia|intros ->; lia].
    pose proof (H2 _ Hx). destruct (path_next _ _ _ _ x Hp2 Hs2 Hx) as [[_ E]|[E1 E2]]; lia.
Qed.

(** ** Joining blocks *)

Lemma spare_join brk al a n m :
  (forall a' n', al !! a' = Some n' -> 0 < n') ->
  spare brk al a n -> spare brk al (a + 16 * n) m -> spare brk al a (n + m).
Proof.
  intros Hpos (H1 & H2 & H3 & H4) (K1 & K2 & K3 & K4). split_and!; [lia..|].
  intros a' n' Ha. pose proof (H4 _ _ Ha). pose proof (K4 _ _ Ha). pose proof (Hpos _ _ Ha). unfold apart in *. lia.
Qed.

Lemma spare_weaken brk brk' al al' a n :
  al' ⊆ al -> brk <= brk' -> spare brk al a n -> spare brk' al' a n.
Proof.
  intros Hsub Hle (H1 & H2 & H3 & H4). split_and!; [lia..|]. intros a' n' Ha. apply H4. by eapply lookup_weaken.
Qed.

Lemma spare_small brk al a n : brk <= 2 ^ 36 -> spare brk al a n -> u32 n = n.
Proof. intros Hb (H1 & H2 & H3 & _). unfold wrap. apply Z.mod_small. lia. Qed.

(** What [h'] changed of [h] is the header at [a]. *)
Definition only_at (a : Z) (h h' : heap) : Prop :=
  h_brk h' = h_brk h /\ h_freep h' = h_freep h /\
  forall x, x <> a -> h_ptr h' x = h_ptr h x /\ h_size h' x = h_size h x.

(** The blocks of [l] as [h] has them. *)
Definition listed (h : heap) (al : gmap Z Z) (l : list (Z * Z)) : Prop :=
  forall a n, (a, n) ∈ l -> h_size h a = n /\ spare (h_brk h) al a n.

Definition units (l : list (Z * Z)) : Z := foldr (fun b s => b.2 + s) 0 l.

Lemma join_upper_ok h al t l2 bp n :
  (forall a' n', al !! a' = Some n' -> 0 < n') -> h_brk h <= 2 ^ 36 ->
  path (h_ptr h) t l2.*1 base -> t <> bp -> listed h al ((bp, n) :: l2) -> sorted (bp + 16 * n - 1) l2 ->
  let h' := join_upper bp (h_ptr h t) h in
  exists m r, path (h_ptr h') bp r.*1 base /\ listed h' al ((bp, m) :: r) /\ sorted (bp + 16 * m) r /\
    units ((bp, m) :: r) = units ((bp, n) :: l2) /\ n <= m /\ (length r <= length l2)%nat /\ only_at bp h h'.
Proof.
  intros Hpos Hbrk Hp Ht Hl Hs. destruct (Hl bp n (list_elem_of_here _ _)) as [Hn Hsp].
  unfold join_upper, hdr_add. rewrite Hn.
  destruct l2 as [|[a2 n2] l2]; cbn [fmap list_fmap fst path] in Hp.
  - rewrite Hp, (proj2 (Z.eqb_neq _ _)) by (destruct Hsp; lia). exists n, []. cbn. rewrite upd_eq.
    split_and!; try done || lia. split_and!; [done..|]. intros x Hx. cbn. by rewrite upd_ne.
  - destruct Hp as [-> Hp]. destruct Hs as (Hlo & Hn2 & Hs).
    destruct (Hl a2 n2) as [Ha2 Hsp2]; [right; left|]. rewrite Ha2.
    assert (Hne : forall a m, (a, m) ∈ (a2, n2) :: l2 -> a <> bp).
    { intros a m Hin. assert (bp + 16 * n - 1 < a); [|destruct Hsp; lia].
      eapply (sorted_lower _ ((a2, n2) :: l2)); [|exact Hin]. by split_and!. }
    assert (Hne' : forall x, x ∈ a2 :: l2.*1 -> x <> bp).
    { intros x Hx. change (a2 :: l2.*1) with ((a2, n2) :: l2).*1 in Hx.
      apply list_elem_of_fmap in Hx as ([a m] & -> & Hin). by eapply Hne. }
    destruct (Z.eqb_spec (bp + 16 * n) a2) as [<-|Hgap].
    + assert (Hj : spare (h_brk h) al bp (n + n2)) by (by apply spare_join).
      rewrite (spare_small _ _ _ _ Hbrk Hj). exists (n + n2), l2. cbn [h_ptr h_size set_ptr set_size h_brk].
      split_and!; [| | | |lia|cbn; lia|].
      * apply path_restart; [done|]. intros Hin. by apply (Hne' bp); [right|].
      * intros a m [[= -> ->]|Hin]%elem_of_cons; cbn; [by rewrite upd_eq|].
        rewrite upd_ne by (eapply Hne; by right). apply Hl. right. by right.
      * replace (bp + 16 * (n + n2)) with (bp + 16 * n + 16 * n2) by lia. done.
      * cbn. lia.
      * split_and!; [done..|]. intros x Hx. cbn. by rewrite !upd_ne.
    + exists n, ((a2, n2) :: l2). cbn [h_ptr h_size set_ptr set_size h_brk fmap list_fmap fst path].
      rewrite upd_eq. split_and!; try done || lia.
      * eapply path_ext; [|exact Hp]. intros x Hx. by apply upd_ne, Hne'.
      * split_and!; [lia|done..].
      * split_and!; [done..|]. intros x Hx. cbn. by rewrite upd_ne.
Qed.

(** Where the blocks of [l] end. *)
Definition ends (lo : Z) (l : list (Z * Z)) : Z :=
  match last l with Some (a, n) => a + 16 * n | None => lo end.

Lemma ends_cons lo a n l : ends lo ((a, n) :: l) = ends (a + 16 * n) l.
Proof. unfold ends. rewrite last_cons. by destruct (last l) as [[]|]. Qed.

Lemma sorted_ends lo l : sorted lo l -> lo <= ends lo l /\ forall a n, (a, n) ∈ l -> a + 16 * n <= ends lo l.
Proof.
  revert lo. induction l as [|[a n] l IH]; intros lo Hs.
  - split; [unfold ends; cbn; lia|]. by intros ? ? ?%not_elem_of_nil.
  - rewrite ends_cons. destruct Hs as (H1 & H2 & H3). destruct (IH _ H3) as [K1 K2]. split; [lia|].
    intros a' n' [[= -> ->]|Hin]%elem_of_cons; [lia|by apply K2].
Qed.

Lemma units_app l l' : units (l ++ l') = units l + units l'.
Proof. unfold units. induction l as [|[a n] l IH]; cbn in *; [done|]. rewrite IH. lia. Qed.

Lemma last_block lo (l : list (Z * Z)) :
  last_of lo l.*1 = match last l with Some (a, _) => a | None => lo end.
Proof. unfold last_of. rewrite fmap_last. by destruct (last l) as [[]|]. Qed.

Section lower.
Context (h : heap) (al : gmap Z Z) (l1 r : list (Z * Z)) (bp m x : Z).
Hypothesis Hpos : forall a' n', al !! a' = Some n' -> 0 < n'.
Hypothesis Hbrk : h_brk h <= 2 ^ 36.
Hypothesis Hb0 : h_size h base = 0.
Hypothesis Hp1 : path (h_ptr h) base l1.*1 x.
Hypothesis Hp2 : path (h_ptr h) bp r.*1 base.
Hypothesis Hs1 : sorted base l1.
Hypothesis Hlt : base < bp.
Hypothesis Hend : ends base l1 <= bp.
Hypothesis Hs2 : sorted (bp + 16 * m) r.
Hypothesis Hl1 : listed h al l1.
Hypothesis Hl2 : listed h al ((bp, m) :: r).

Let t := last_of base l1.*1.

Lemma lower_starts y : y ∈ base :: l1.*1 -> y < bp.
Proof.
  intros [->|Hy]%elem_of_cons; [done|]. apply list_elem_of_fmap in Hy as ([a k] & -> & Hin).
  pose proof (proj2 (sorted_ends _ _ Hs1) _ _ Hin). pose proof (sorted_lower _ _ _ _ Hs1 Hin). cbn. lia.
Qed.

Lemma upper_starts y : y ∈ bp :: r.*1 -> bp <= y.
Proof.
  intros [->|Hy]%elem_of_cons; [lia|]. pose proof (sorted_start _ _ _ Hs2 Hy).
  destruct (Hl2 bp m (list_elem_of_here _ _)) as (_ & _ & ? & _). lia.
Qed.

Lemma lower_not_upper y : y ∈ bp :: r.*1 -> y <> t.
Proof. intros Hy ->. apply upper_starts in Hy. pose proof (lower_starts _ (last_of_in base l1.*1)). unfold t in Hy. lia. Qed.

(** Without touching, the block becomes an element of its own. *)
Lemma lower_gap : t + 16 * h_size h t <> bp ->
  path (upd (h_ptr h) t bp) base (l1 ++ (bp, m) :: r).*1 base /\ sorted base (l1 ++ (bp, m) :: r).
Proof.
  intros Hgap. rewrite fmap_app. cbn [fmap list_fmap fst]. split.
  - apply path_app. split; [eapply path_redirect; [done|by apply sorted_nodup]|].
    eapply path_ext; [|exact Hp2]. intros y Hy. by apply upd_ne, lower_not_upper.
  - apply sorted_app. split; [done|]. destruct (Hl2 bp m (list_elem_of_here _ _)) as (_ & _ & ? & _).
    split_and!; [|lia|done]. unfold t in Hgap. rewrite last_block in Hgap. unfold ends in Hend.
    destruct (last l1) as [[a1 n1]|] eqn:El; [|done]. destruct (Hl1 a1 n1) as [Hn1 _]; [|lia].
    by apply last_Some_elem_of.
Qed.

(** Touching, it makes the last block before it larger. *)
Lemma lower_touch : t + 16 * h_size h t = bp ->
  exists l1' n1, l1 = l1' ++ [(t, n1)] /\ h_size h t = n1 /\ spare (h_brk h) al t (n1 + m) /\
    path (upd (h_ptr h) t (h_ptr h bp)) base (l1' ++ (t, n1 + m) :: r).*1 base /\
    sorted base (l1' ++ (t, n1 + m) :: r).
Proof.
  intros Hadj. destruct (Hl2 bp m (list_elem_of_here _ _)) as [Hm Hsp].
  destruct (last l1) as [[a1 n1]|] eqn:El.
  all: assert (Et := last_block base l1); rewrite El in Et; fold t in Et.
  2: rewrite Et, Hb0 in Hadj; lia.
  pose proof El as Hin%last_Some_elem_of. apply last_Some in El as [l1' El].
  exists l1', n1. rewrite <- Et in *. destruct (Hl1 t n1 Hin) as [Hn1 Hsp1].
  pose proof (sorted_nodup _ _ Hs1) as Hnd. rewrite El, fmap_app in Hnd, Hp1. cbn [fmap list_fmap fst] in *.
  apply path_app in Hp1 as [Hp _].
  split_and!; [done|done| | |].
  - apply spare_join; [done..|]. rewrite <- Hn1, Hadj. done.
  - rewrite fmap_app. apply path_app. split.
    + eapply path_ext; [|exact Hp]. intros y Hy. apply upd_ne. intros ->.
      change (base :: l1'.*1 ++ [t]) with ((base :: l1'.*1) ++ [t]) in Hnd.
      apply NoDup_app in Hnd as (_ & Hnd & _). apply (Hnd t Hy). left.
    + apply path_restart; [done|]. intros Hy. by apply (lower_not_upper t); [right|].
  - rewrite El in Hs1. apply sorted_app in Hs1 as [K1 (K2 & K3 & _)]. apply sorted_app. split; [done|].
    destruct Hsp as (_ & ? & _). split_and!; [done|lia|].
    replace (t + 16 * (n1 + m)) with (bp + 16 * m) by lia. done.
Qed.

Lemma join_lower_ok :
  let h' := join_lower bp t h in
  exists l, path (h_ptr h') base l.*1 base /\ listed h' al l /\ sorted base l /\
    units l = units l1 + units ((bp, m) :: r) /\ (length l <= length l1 + 1 + length r)%nat /\
    t ∈ base :: l.*1 /\ h_size h' base = 0 /\ only_at t h h' /\ (exists a k, (a, k) ∈ l /\ m <= k).
Proof.
  unfold join_lower, hdr_add. destruct (Hl2 bp m (list_elem_of_here _ _)) as [Hm _]. rewrite Hm.
  destruct (Z.eqb_spec (t + 16 * h_size h t) bp) as [Hadj|Hgap].
  - destruct (lower_touch Hadj) as (l1' & n1 & El & Hn1 & Hsp & Hp & Hs).
    exists (l1' ++ (t, n1 + m) :: r). rewrite Hn1, (spare_small _ _ _ _ Hbrk Hsp).
    cbn [h_ptr h_size set_ptr set_size h_brk]. split_and!; [done| |done|..].
    + intros a k [Hin|[[= -> ->]|Hin]%elem_of_cons]%elem_of_app; cbn; [|by rewrite upd_eq|].
      * rewrite upd_ne; [apply Hl1; rewrite El; apply elem_of_app; by left|]. intros ->.
        pose proof (sorted_nodup _ _ Hs1) as [_ Hnd]%NoDup_cons. rewrite El, fmap_app in Hnd.
        apply NoDup_app in Hnd as (_ & Hnd & _). apply (Hnd t); [|left]. by apply (list_elem_of_fmap_2' fst _ (t, k)).
      * rewrite upd_ne; [by apply Hl2; right|]. apply lower_not_upper. right. by apply (list_elem_of_fmap_2' fst _ (a, k)).
    + rewrite El, !units_app. cbn. lia.
    + rewrite El, !length_app. cbn. lia.
    + right. rewrite fmap_app. apply elem_of_app. right. left.
    + rewrite upd_ne; [done|]. intros E. pose proof (sorted_start _ _ t Hs1) as H. 
      rewrite El, fmap_app in H. specialize (H ltac:(apply elem_of_app; right; left)). lia.
    + split_and!; [done..|]. intros y Hy. cbn. by rewrite !upd_ne.
    + exists t, (n1 + m). split; [apply elem_of_app; right; left|].
      destruct (Hl1 t n1) as (_ & _ & ? & _); [rewrite El; apply elem_of_app; right; left|lia].
  - destruct (lower_gap Hgap) as [Hp Hs]. exists (l1 ++ (bp, m) :: r). cbn [h_ptr h_size set_ptr h_brk].
    split_and!; [done| |done| | | |done| |].
    + intros a k [Hin|Hin]%elem_of_app; [by apply Hl1|by apply Hl2].
    + by rewrite units_app.
    + rewrite length_app. cbn. lia.
    + rewrite fmap_app. change (base :: l1.*1 ++ ((bp, m) :: r).*1) with ((base :: l1.*1) ++ ((bp, m) :: r).*1).
      apply elem_of_app. left. apply last_of_in.
    + split_and!; [done..|]. intros y Hy. cbn. by rewrite upd_ne.
    + exists bp, m. split; [apply elem_of_app; right; left|lia].
Qed.

End lower.

(** ** Freeing *)

(** The blocks before and after one that overlaps none. *)
Lemma sorted_split lo l bp n :
  sorted lo l -> 0 < n -> (forall a m, (a, m) ∈ l -> apart bp n a m) ->
  exists l1 l2, l = l1 ++ l2 /\ (forall a m, (a, m) ∈ l1 -> a + 16 * m <= bp) /\
    (forall a m, (a, m) ∈ l2 -> bp + 16 * n <= a).
Proof.
  revert lo. induction l as [|[a m] l IH]; intros lo Hs Hn Ha.
  - exists [], []. split_and!; [done|..]; by intros ? ? ?%not_elem_of_nil.
  - destruct Hs as (H1 & H2 & H3). pose proof (Ha a m (list_elem_of_here _ _)) as Hap.
    destruct (decide (a + 16 * m <= bp)) as [Hle|Hgt].
    + destruct (IH _ H3 Hn) as (l1 & l2 & -> & K1 & K2); [intros; apply Ha; by right|].
      exists ((a, m) :: l1), l2. split_and!; [done| |done].
      intros a' m' [[= -> ->]|Hin]%elem_of_cons; [done|by apply K1].
    + exists [], ((a, m) :: l). split_and!; [done|by intros ? ? ?%not_elem_of_nil|].
      assert (bp + 16 * n <= a) by (unfold apart in Hap; lia).
      intros a' m' [[= -> ->]|Hin]%elem_of_cons; [done|].
      pose proof (sorted_lower _ _ _ _ H3 Hin). lia.
Qed.

(** No header write of the allocator reaches an allocated block. *)
Definition keeps (al : gmap Z Z) (h h' : heap) : Prop :=
  forall a n x, al !! a = Some n -> a - 16 < x < a + 16 * n ->
    h_ptr h' x = h_ptr h x /\ h_size h' x = h_size h x.

Lemma keeps_trans al h1 h2 h3 : keeps al h1 h2 -> keeps al h2 h3 -> keeps al h1 h3.
Proof. intros H K a n x Ha Hx. destruct (H a n x Ha Hx) as [<- <-]. by apply (K a n). Qed.

Lemma keeps_spare al h h' brk b m :
  spare brk al b m -> (forall x, x <> b -> h_ptr h' x = h_ptr h x /\ h_size h' x = h_size h x) -> keeps al h h'.
Proof.
  intros (_ & H1 & _ & H2) H a n x Ha Hx. apply H. pose proof (H2 _ _ Ha). unfold apart in *. lia.
Qed.

Lemma keeps_touch al l brk h h' t :
  (forall a n, (a, n) ∈ l -> spare brk al a n) ->
  (forall a n, al !! a = Some n -> spare brk (delete a al) a n) ->
  (forall x, x <> t -> h_ptr h' x = h_ptr h x /\ h_size h' x = h_size h x) -> t ∈ base :: l.*1 -> keeps al h h'.
Proof.
  intros Hl Hal Ho [->|Hin]%elem_of_cons.
  - intros a n x Ha Hx. apply Ho. destruct (Hal a n Ha). lia.
  - apply list_elem_of_fmap in Hin as ([b m] & -> & Hin). by eapply keeps_spare; [apply Hl|].
Qed.

Lemma hi_pos h l al a n : heap_inv h l al -> al !! a = Some n -> 0 < n.
Proof. intros Hi Ha. by destruct (hi_alloc _ _ _ Hi a n Ha) as (_ & _ & ? & _). Qed.

Lemma path_cut f a l1 l2 b :
  path f a (l1 ++ l2) b <-> path f a l1 (f (last_of a l1)) /\ path f (last_of a l1) l2 b.
Proof.
  revert a. induction l1 as [|x l1 IH]; intros a; cbn [app path].
  - unfold last_of. cbn. tauto.
  - assert (E : last_of a (x :: l1) = last_of x l1) by (unfold last_of; rewrite last_cons; by destruct (last l1)).
    rewrite IH, E. tauto.
Qed.

Lemma sorted_raise lo lo' l : sorted lo l -> (forall a m, (a, m) ∈ l -> lo' < a) -> sorted lo' l.
Proof.
  destruct l as [|[a m] l]; [done|]. intros (_ & H2 & H3) H. split_and!; [|done..]. apply (H a m). left.
Qed.

Lemma only_at_listed a h h' al l : only_at a h h' -> a ∉ l.*1 -> listed h al l -> listed h' al l.
Proof.
  intros (Hb & _ & H) Ha Hl a' n' Hin. destruct (H a') as [_ ->]; [|rewrite Hb; by apply Hl].
  intros ->. apply Ha. by apply (list_elem_of_fmap_2' fst _ (a, n')).
Qed.

(** [insert_block] behind the last block before [bp]. *)
Lemma insert_ok h l1 l2 al bp n :
  heap_inv h (l1 ++ l2) al -> h_size h bp = n -> spare (h_brk h) al bp n ->
  (forall a m, (a, m) ∈ l1 -> a + 16 * m <= bp) -> (forall a m, (a, m) ∈ l2 -> bp + 16 * n <= a) ->
  let h' := insert_block bp (last_of base l1.*1) h in
  exists l', heap_inv h' l' al /\ units l' = units (l1 ++ l2) + n /\
    (length l' <= S (length (l1 ++ l2)))%nat /\ keeps al h h' /\ h_brk h' = h_brk h /\
    (exists a m, (a, m) ∈ l' /\ n <= m).
Proof.
  intros Hi Hn Hsp H1 H2. pose proof Hi as [Hp Hs Hfp Hb0 Hl Hal Hbrk].
  assert (Hpos : forall a' n', al !! a' = Some n' -> 0 < n') by (intros; by eapply hi_pos).
  pose proof Hsp as (Hlo & Hn0 & _). set (t := last_of base l1.*1).
  rewrite fmap_app in Hp. apply path_cut in Hp as [Hp1 Hp2]. fold t in Hp1, Hp2.
  apply sorted_app in Hs as [Hs1 Hs2].
  assert (Hend : ends base l1 <= bp).
  { unfold ends. destruct (last l1) as [[a m]|] eqn:E; [by apply H1, last_Some_elem_of|lia]. }
  assert (Hlow : forall y, y ∈ base :: l1.*1 -> y < bp).
  { intros y Hy. apply (lower_starts l1 bp); try done. lia. }
  assert (Hbt : t <> bp) by (pose proof (Hlow t (last_of_in _ _)); lia).
  destruct (join_upper_ok h al t l2 bp n) as (m & r & Hpr & Hlr & Hsr & Hu & Hnm & Hlen & Honly); try done; [lia|..].
  { intros a k [[= -> ->]|Hin]%elem_of_cons; [done|]. apply Hl, elem_of_app. by right. }
  { eapply sorted_raise; [done|]. intros a k Hin. pose proof (H2 _ _ Hin). lia. }
  set (h1 := join_upper bp (h_ptr h t) h) in *. pose proof Honly as (Hbrk1 & Hfp1 & Ho).
  destruct (join_lower_ok h1 al l1 r bp m (h_ptr h t)) as (l' & K1 & K2 & K3 & K4 & K5 & K6 & K7 & K8 & (b & kb & K9)); try done.
  { lia. } { rewrite (proj2 (Ho base ltac:(lia))). done. }
  { eapply path_ext; [|exact Hp1]. intros y Hy. apply Ho. pose proof (Hlow y Hy). lia. }
  { lia. }
  { eapply only_at_listed; [done| |intros a k Hin; apply Hl, elem_of_app; by left].
    intros Hin. pose proof (Hlow bp ltac:(by right)). lia. }
  assert (Hk : keeps al h (set_freep t (join_lower bp t h1))).
  { apply (keeps_trans _ _ h1); [by eapply keeps_spare|].
    apply (keeps_touch _ l1 (h_brk h) h1 (join_lower bp t h1) t); [|by intros; apply Hal|apply K8|apply last_of_in].
    intros a k Hin. apply Hl, elem_of_app. by left. }
  destruct K8 as (Hbrk2 & _). fold t in Hbrk2. exists l'. unfold insert_block. fold t h1. cbn [h_brk set_freep].
  split_and!; [|rewrite units_app; change (units ((bp, n) :: l2)) with (n + units l2) in Hu; lia|rewrite length_app; lia|done|congruence
    |exists b, kb; split; [apply K9|lia]].
  split; try done; cbn; [|by rewrite Hbrk2, Hbrk1].
  intros a k Ha. destruct (Hal a k Ha) as [Hsz Hspa]. pose proof (Hpos _ _ Ha).
  destruct (Hk a k a Ha ltac:(lia)) as [_ E]. cbn in E. by rewrite E, Hbrk2, Hbrk1.
Qed.

Lemma free_block fuel h l al bp n :
  heap_inv h l al -> h_size h bp = n -> spare (h_brk h) al bp n ->
  (forall a m, (a, m) ∈ l -> apart bp n a m) -> (2 * length l + 2 <= fuel)%nat ->
  exists h' l', free fuel (bp + 16) h = Some h' /\ heap_inv h' l' al /\ units l' = units l + n /\
    (length l' <= S (length l))%nat /\ keeps al h h' /\ h_brk h' = h_brk h /\
    (exists a m, (a, m) ∈ l' /\ n <= m).
Proof.
  intros Hi Hn Hsp Hap Hf. pose proof Hi as [Hp Hs Hfp Hb0 Hl Hal Hbrk].
  assert (Hpos := hi_pos h l al). pose proof Hsp as (Hlo & Hn0 & _).
  destruct (sorted_split _ _ bp n Hs Hn0 Hap) as (l1 & l2 & -> & H1 & H2).
  set (t := last_of base l1.*1).
  assert (Hfind : find_place fuel h bp (h_freep h) = Some t).
  { eapply (find_anywhere fuel h bp t _ (l1 ++ l2).*1); [done|done| | |by rewrite length_fmap].
    - rewrite fmap_app. apply (elem_of_app (base :: l1.*1)). left. apply last_of_in.
    - intros x Hx. eapply stops_place; try done; [lia|..]; intros y ([a m] & -> & Hin)%list_elem_of_fmap; cbn.
      + pose proof (H1 _ _ Hin). assert (0 < m); [|lia]. apply (sorted_lower _ _ a _ Hs), elem_of_app. by left.
      + pose proof (H2 _ _ Hin). lia. }
  destruct (insert_ok h l1 l2 al bp n Hi Hn Hsp H1 H2) as (l' & K). exists (insert_block bp t h), l'.
  unfold free. replace (bp + 16 - 16) with bp by lia. by rewrite Hfind.
Qed.

(** [free] of an allocated block. *)
Lemma free_ok fuel h l al bp n :
  heap_inv h l al -> al !! bp = Some n -> (2 * length l + 2 <= fuel)%nat ->
  exists h' l', free fuel (bp + 16) h = Some h' /\ heap_inv h' l' (delete bp al) /\ units l' = units l + n /\
    (length l' <= S (length l))%nat /\ keeps (delete bp al) h h' /\ h_brk h' = h_brk h /\
    (exists a m, (a, m) ∈ l' /\ n <= m).
Proof.
  intros Hi Hbp Hf. destruct (hi_alloc _ _ _ Hi _ _ Hbp) as [Hn Hsp].
  apply free_block; [|done..| |done].
  - destruct Hi as [Hp Hs Hfp Hb0 Hl Hal Hbrk]. split; try done.
    + intros a m Hin. destruct (Hl a m Hin). split; [done|]. eapply spare_weaken; [|done|done].
      apply delete_subseteq.
    + intros a m [Hne Ha]%lookup_delete_Some. destruct (Hal a m Ha). split; [done|].
      eapply spare_weaken; [|done|done]. apply delete_mono, delete_subseteq.
  - intros a m Hin. destruct (hi_free _ _ _ Hi _ _ Hin) as (_ & _ & _ & _ & H).
    pose proof (H _ _ Hbp). unfold apart in *. lia.
Qed.

(** ** Taking a block *)

Lemma spare_insert brk al a n q m : spare brk al a n -> apart a n q m -> spare brk (<[q := m]> al) a n.
Proof.
  intros (H1 & H2 & H3 & H4) Hq. split_and!; [lia..|].
  intros a' n' [[<- <-]|[_ Ha]]%lookup_insert_Some; [done|by apply H4].
Qed.

Lemma sorted_apart lo l1 p sz l2 a m :
  sorted lo (l1 ++ (p, sz) :: l2) -> (a, m) ∈ l1 ++ l2 -> apart a m p sz.
Proof.
  intros [Hs1 (H1 & H2 & Hs2)]%sorted_app. fold (ends lo l1) in H1. intros [Hin|Hin]%elem_of_app.
  - pose proof (proj2 (sorted_ends _ _ Hs1) _ _ Hin). left. lia.
  - pose proof (sorted_lower _ _ _ _ Hs2 Hin). right. lia.
Qed.

Lemma sorted_drop lo l1 p sz l2 : sorted lo (l1 ++ (p, sz) :: l2) -> sorted lo (l1 ++ l2).
Proof.
  intros [Hs1 (H1 & H2 & Hs2)]%sorted_app. apply sorted_app. split; [done|].
  eapply sorted_weaken; [|done]. fold (ends lo l1) in *. lia.
Qed.

Lemma sorted_shrink lo l1 p sz sz' l2 :
  0 < sz' <= sz -> sorted lo (l1 ++ (p, sz) :: l2) -> sorted lo (l1 ++ (p, sz') :: l2).
Proof.
  intros Hsz [Hs1 (H1 & H2 & Hs2)]%sorted_app. apply sorted_app. split; [done|].
  split_and!; [done|lia|]. eapply sorted_weaken; [|done]. lia.
Qed.

(** The invariant with the block of [n] units at [q], a part of the free block [(p, sz)], allocated. *)
Lemma take_inv h h' l1 p sz l2 l' al q n :
  heap_inv h (l1 ++ (p, sz) :: l2) al -> 0 < n -> p <= q -> q + 16 * n <= p + 16 * sz ->
  path (h_ptr h') base l'.*1 base -> sorted base l' -> h_freep h' ∈ base :: l'.*1 -> h_brk h' = h_brk h ->
  (forall a m, (a, m) ∈ l' -> h_size h' a = m /\
     ((a, m) ∈ l1 ++ l2 \/ (a = p /\ 0 < m /\ p + 16 * m <= q))) ->
  h_size h' q = n -> (forall x, x <> p -> x <> q -> h_size h' x = h_size h x) ->
  al !! q = None /\ heap_inv h' l' (<[q := n]> al).
Proof.
  intros Hi Hn Hpq Hq Hp Hs Hfp Hbrk Hl' Hsz Ho. pose proof Hi as [_ Hs0 _ Hb0 Hl Hal Hbk].
  destruct (Hl p sz) as [_ Hsp]; [apply elem_of_app; right; left|]. pose proof Hsp as (Hpl & Hsz0 & Hpe & Hpa).
  assert (Hqa : forall a m, al !! a = Some m -> 0 < m /\ apart p sz a m).
  { intros a m Ha. split; [by eapply hi_pos|by apply Hpa]. }
  assert (Hq0 : al !! q = None).
  { destruct (al !! q) as [m|] eqn:E; [|done]. apply Hqa in E as [? ?]. unfold apart in *. lia. }
  split; [done|]. split; try done; rewrite ?Hbrk; [|..|done].
  - rewrite Ho by lia. done.
  - intros a m Hin. destruct (Hl' a m Hin) as [Ha [Hin'|(-> & Hm & He)]]; (split; [done|]).
    + destruct (Hl a m) as [_ Hspa]; [apply elem_of_app; apply elem_of_app in Hin' as [?|?]; [by left|right; by right]|].
      apply spare_insert; [done|]. pose proof (sorted_apart _ _ _ _ _ _ _ Hs0 Hin'). unfold apart in *. lia.
    + apply spare_insert; [|unfold apart; lia]. split_and!; [lia..|].
      intros a' n' Ha'. destruct (Hqa _ _ Ha'). unfold apart in *. lia.
  - intros a m [[<- <-]|[Hne Ha]]%lookup_insert_Some.
    + split; [done|]. rewrite delete_insert_id by done. split_and!; [lia..|].
      intros a' n' Ha'. destruct (Hqa _ _ Ha'). unfold apart in *. lia.
    + destruct (Hal a m Ha) as [Hsa Hspa]. destruct (Hqa _ _ Ha) as [Hm Hap].
      rewrite Ho; [|unfold apart in Hap; lia|done]. split; [done|].
      rewrite delete_insert_ne by done. apply spare_insert; [done|]. unfold apart in *. lia.
Qed.

Lemma keeps_inside brk al p sz h h' :
  spare brk al p sz -> (forall x, ~ (p <= x <= p + 16 * sz - 16) -> h_ptr h' x = h_ptr h x /\ h_size h' x = h_size h x) ->
  keeps al h h'.
Proof.
  intros (_ & H1 & _ & H2) H a n x Ha Hx. apply H. pose proof (H2 _ _ Ha). unfold apart in *. lia.
Qed.

(** What [malloc] and its parts promise of a block of [n] units they give out. *)
Definition gave (h : heap) (al : gmap Z Z) (n : Z) (r : Z * heap) : Prop :=
  exists q l', r.1 = q + 16 /\ al !! q = None /\ heap_inv r.2 l' (<[q := n]> al) /\ keeps al h r.2.

Section take.
Context (h : heap) (l1 : list (Z * Z)) (p sz : Z) (l2 : list (Z * Z)) (al : gmap Z Z) (n : Z).
Hypothesis Hi : heap_inv h (l1 ++ (p, sz) :: l2) al.
Hypothesis Hn : 0 < n.

Let t := last_of base l1.*1.

Lemma taken_block : h_size h p = sz /\ spare (h_brk h) al p sz.
Proof. apply (hi_free _ _ _ Hi). apply elem_of_app. right. left. Qed.

Lemma taken_others a m : (a, m) ∈ l1 ++ l2 -> h_size h a = m /\ spare (h_brk h) al a m.
Proof. intros Hin. apply (hi_free _ _ _ Hi). rewrite elem_of_app, elem_of_cons. apply elem_of_app in Hin. tauto. Qed.

Lemma taken_prev l' : t ∈ base :: (l1 ++ l').*1.
Proof. rewrite fmap_app. apply (elem_of_app (base :: l1.*1)). left. apply last_of_in. Qed.

(** The free block that fits exactly is unlinked. *)
Lemma take_exact : sz = n -> gave h al n (p + 16, set_freep t (set_ptr t (h_ptr h p) h)).
Proof.
  intros E. pose proof Hi as [Hp Hs Hfp Hb0 Hl Hal Hbrk]. destruct taken_block as [Hsz Hsp].
  pose proof (sorted_nodup _ _ Hs) as Hnd. rewrite fmap_app in Hp, Hnd.
  change (base :: l1.*1 ++ ((p, sz) :: l2).*1) with ((base :: l1.*1) ++ p :: l2.*1) in Hnd.
  apply NoDup_app in Hnd as (Hnd1 & Hnd12 & Hnd2). pose proof Hp as [Hp1 Hp2]%path_app.
  exists p, (l1 ++ l2). cbn [fst snd].
  destruct (take_inv h (set_freep t (set_ptr t (h_ptr h p) h)) l1 p sz l2 (l1 ++ l2) al p n) as [H1 H2]; try done; try lia.
  - rewrite fmap_app. apply path_cut. cbn [h_ptr set_freep set_ptr]. fold t. rewrite upd_eq. split.
    + by eapply path_redirect.
    + apply path_restart; [done|]. intros Hin. apply (Hnd12 t (last_of_in _ _)). by right.
  - by eapply sorted_drop.
  - apply taken_prev.
  - intros a m Hin. split; [by apply taken_others|by left].
  - cbn. congruence.
  - split_and!; try done. eapply (keeps_touch al (l1 ++ (p, sz) :: l2) (h_brk h)); [by intros; apply Hl|by intros; apply Hal|..].
    + intros x Hx. cbn. by rewrite upd_ne.
    + apply taken_prev.
Qed.

(** A larger one gives its tail. *)
Lemma take_tail : n < sz ->
  let q := p + 16 * (sz - n) in
  gave h al n (q + 16, set_freep t (set_size q n (set_size p (u32 (sz - n)) h))).
Proof.
  intros Hlt q. pose proof Hi as [Hp Hs Hfp Hb0 Hl Hal Hbrk]. destruct taken_block as [Hsz Hsp].
  assert (Hw : u32 (sz - n) = sz - n) by (destruct Hsp; unfold wrap; apply Z.mod_small; lia).
  rewrite Hw. set (h' := set_freep t _).
  assert (Hsame : forall x, x <> p -> x <> q -> h_size h' x = h_size h x) by (intros; cbn; by rewrite !upd_ne).
  exists q, (l1 ++ (p, sz - n) :: l2). cbn [fst snd].
  destruct (take_inv h h' l1 p sz l2 (l1 ++ (p, sz - n) :: l2) al q n) as [H1 H2]; try done; try lia.
  - by rewrite fmap_app in *.
  - apply (sorted_shrink _ _ _ sz); [lia|done].
  - apply taken_prev.
  - intros a m Hin.
    assert ((a, m) ∈ l1 ++ l2 \/ (a, m) = (p, sz - n)) as [Hin'|[= -> ->]].
    { apply elem_of_app in Hin as [?|[?|?]%elem_of_cons]; rewrite elem_of_app; tauto. }
    + pose proof (sorted_apart _ _ _ _ _ _ _ Hs Hin') as Hap. destruct (taken_others a m Hin') as (Ha & _ & ? & _).
      split; [|by left]. rewrite Hsame; [done|unfold apart in Hap; lia..].
    + split; [|right; lia]. cbn. by rewrite upd_ne, upd_eq by lia.
  - cbn. by rewrite upd_eq.
  - split_and!; try done. eapply (keeps_inside _ _ _ _ _ _ Hsp). intros x Hx. split; [done|]. apply Hsame; lia.
Qed.

Lemma take_ok : n <= sz -> gave h al n (take_block n t p h).
Proof.
  intros Hle. destruct taken_block as [Hsz _]. unfold take_block, hdr_add. rewrite Hsz. cbn [h_size set_size].
  assert (Hw : u32 (sz - n) = sz - n).
  { destruct taken_block as (_ & ? & _ & ? & _). pose proof (hi_brk _ _ _ Hi). unfold wrap. apply Z.mod_small. lia. }
  destruct (Z.eqb_spec sz n) as [E|Hne]; [by apply take_exact|].
  rewrite upd_eq, Hw. pose proof (take_tail ltac:(lia)) as H. cbn zeta in H. by rewrite Hw in H.
Qed.

End take.

(** ** Searching and growing *)

(** A round of the list from any of its elements. *)
Lemma round f l p :
  path f base l base -> p ∈ base :: l -> exists c, path f p c p /\ c ++ [p] ≡ₚ base :: l.
Proof.
  intros Hp [->|Hin]%elem_of_cons.
  - exists l. split; [done|]. by rewrite Permutation_app_comm.
  - apply list_elem_of_split in Hin as (l1 & l2 & ->). apply path_app in Hp as [Hp1 Hp2].
    exists (l2 ++ base :: l1). split; [by apply path_app|]. solve_Permutation.
Qed.

(** The search of [malloc] when a block of the rest [c] of the round fits ... *)
Lemma scan_fits fuel h n prevp c :
  path (h_ptr h) prevp c (h_freep h) -> (exists b, b ∈ c ++ [h_freep h] /\ n <= h_size h b) ->
  h_freep h ∉ c -> (length c <= fuel)%nat ->
  exists q, malloc_loop room fuel n prevp (h_ptr h prevp) h = Some (take_block n q (h_ptr h q) h) /\
    q ∈ prevp :: c /\ n <= h_size h (h_ptr h q).
Proof.
  revert fuel prevp. induction c as [|x c IH]; intros fuel prevp Hp (b & Hb & Hn) Hf Hfu.
  - apply list_elem_of_singleton in Hb as ->. exists prevp. rewrite <- Hp in Hn.
    split_and!; [|left|done]. destruct fuel; cbn [malloc_loop]; by rewrite (proj2 (Z.leb_le _ _)).
  - destruct Hp as [Hx Hp]. apply not_elem_of_cons in Hf as [Hfx Hf].
    destruct (Z.leb_spec n (h_size h x)) as [Hle|Hgt].
    + exists prevp. rewrite Hx. split_and!; [|left|done].
      destruct fuel; cbn [malloc_loop]; by rewrite (proj2 (Z.leb_le _ _)).
    + destruct fuel as [|fuel]; [cbn in Hfu; lia|]. cbn [malloc_loop].
      rewrite Hx, (proj2 (Z.leb_gt _ _)), (proj2 (Z.eqb_neq _ _)) by done || congruence.
      destruct (IH fuel x Hp) as (q & -> & Hq & Hnq); [|done|cbn in Hfu; lia|].
      * exists b. split; [|done]. apply elem_of_cons in Hb as [->|Hb]; [lia|done].
      * exists q. split_and!; [done|by right|done].
Qed.

(** ... and when none does. *)
Lemma scan_none k h n prevp c :
  path (h_ptr h) prevp c (h_freep h) -> (forall b, b ∈ c ++ [h_freep h] -> h_size h b < n) -> h_freep h ∉ c ->
  malloc_loop room (length c + S k) n prevp (h_ptr h prevp) h =
    r ← morecore room k n h; if r.1 =? 0 then Some (0, r.2) else malloc_loop room k n r.1 (h_ptr r.2 r.1) r.2.
Proof.
  revert prevp. induction c as [|x c IH]; intros prevp Hp Hn Hf.
  - cbn [length plus malloc_loop]. cbn in Hp. rewrite Hp, (proj2 (Z.leb_gt _ _)), Z.eqb_refl by (apply Hn; left). done.
  - destruct Hp as [Hx Hp]. apply not_elem_of_cons in Hf as [Hfx Hf]. cbn [length plus malloc_loop].
    rewrite Hx, (proj2 (Z.leb_gt _ _)), (proj2 (Z.eqb_neq _ _)) by (congruence || apply Hn; left).
    apply IH; [done| |done]. intros b Hb. apply Hn. by right.
Qed.

(** The successor of an element is the block after it, or [base]. *)
Lemma successor f (l : list (Z * Z)) b x :
  path f base l.*1 b -> x ∈ base :: l.*1 ->
  f x = b \/ exists l1 p sz l2, l = l1 ++ (p, sz) :: l2 /\ x = last_of base l1.*1 /\ f x = p.
Proof.
  intros Hp Hx.
  assert (exists l1 l2, l = l1 ++ l2 /\ x = last_of base l1.*1) as (l1 & l2 & -> & ->).
  { apply elem_of_cons in Hx as [->|Hx]; [by exists [], l|].
    apply list_elem_of_fmap in Hx as ([a n] & -> & Hin). apply list_elem_of_split in Hin as (l1 & l2 & ->).
    exists (l1 ++ [(a, n)]), l2. rewrite <- app_assoc. split; [done|]. by rewrite last_block, last_snoc. }
  rewrite fmap_app in Hp. apply path_cut in Hp as [_ Hp].
  destruct l2 as [|[p sz] l2]; [by left|]. right. exists l1, p, sz, l2. by destruct Hp.
Qed.

Section search.
Context (h : heap) (l : list (Z * Z)) (al : gmap Z Z) (n : Z).
Hypothesis Hi : heap_inv h l al.
Hypothesis Hn : 0 < n.

Lemma freep_round :
  exists c, path (h_ptr h) (h_freep h) c (h_freep h) /\ c ++ [h_freep h] ≡ₚ base :: l.*1 /\
    h_freep h ∉ c /\ length c = length l.
Proof.
  destruct Hi as [Hp Hs Hfp _ _ _ _]. destruct (round _ _ _ Hp Hfp) as (c & Hc & Hperm).
  exists c. split_and!; [done..| |].
  - pose proof (sorted_nodup _ _ Hs) as Hnd. rewrite <- Hperm in Hnd. apply NoDup_app in Hnd as (_ & Hnd & _).
    intros Hin. apply (Hnd _ Hin). left.
  - apply Permutation_length in Hperm. rewrite length_app in Hperm. cbn in Hperm. rewrite length_fmap in Hperm. lia.
Qed.

(** The search finds a block when one fits. *)
Lemma search_ok fuel :
  (exists a m, (a, m) ∈ l /\ n <= m) -> (length l <= fuel)%nat ->
  exists r, malloc_loop room fuel n (h_freep h) (h_ptr h (h_freep h)) h = Some r /\ gave h al n r.
Proof.
  intros (a & m & Hin & Hm) Hf. destruct freep_round as (c & Hc & Hperm & Hfc & Hlen).
  destruct (scan_fits fuel h n (h_freep h) c) as (q & -> & Hq & Hnq); [done| |done|lia|].
  - exists a. rewrite Hperm. destruct (hi_free _ _ _ Hi a m Hin) as [-> _]. split; [|done].
    right. by apply (list_elem_of_fmap_2' fst _ (a, m)).
  - eexists. split; [done|].
    assert (Hql : q ∈ base :: l.*1).
    { rewrite <- Hperm, elem_of_app, list_elem_of_singleton. apply elem_of_cons in Hq. tauto. }
    destruct (successor _ _ _ _ (hi_path _ _ _ Hi) Hql) as [E|(l1 & p & sz & l2 & El & -> & E)].
    + rewrite E, (hi_base _ _ _ Hi) in Hnq. lia.
    + rewrite E in *. pose proof Hi as Hi'. rewrite El in Hi'. apply (take_ok _ _ _ sz _ _ _ Hi' Hn).
      destruct (hi_free _ _ _ Hi p sz) as [<- _]; [|done]. rewrite El. apply elem_of_app. right. left.
Qed.

(** The header of a block taken from the kernel. *)
Lemma grown_inv nu :
  0 < nu -> h_brk h + 16 * nu <= 2 ^ 36 ->
  let h' := set_size (h_brk h) nu (set_brk (h_brk h + 16 * nu) h) in
  heap_inv h' l al /\ spare (h_brk h') al (h_brk h) nu /\ (forall a m, (a, m) ∈ l -> apart (h_brk h) nu a m) /\
  keeps al h h'.
Proof.
  intros Hnu Hmax h'. destruct Hi as [Hp Hs Hfp Hb0 Hl Hal Hbrk]. split_and!.
  - split; try done; cbn; [by rewrite upd_ne by lia|..|lia].
    + intros a m Hin. destruct (Hl a m Hin) as [Ha Hsp]. pose proof Hsp as (? & ? & ? & _).
      rewrite upd_ne by lia. split; [done|]. eapply spare_weaken; [done| |done]. lia.
    + intros a m Ha. destruct (Hal a m Ha) as [Hsa Hsp]. pose proof Hsp as (? & ? & ? & _).
      rewrite upd_ne by lia. split; [done|]. eapply spare_weaken; [done| |done]. lia.
  - split_and!; cbn; [lia..|]. intros a m Ha. destruct (Hal a m Ha) as (_ & _ & _ & ? & _). right. lia.
  - intros a m Hin. destruct (Hl a m Hin) as (_ & _ & _ & ? & _). right. lia.
  - intros a m x Ha Hx. cbn. destruct (Hal a m Ha) as (_ & _ & _ & ? & _). by rewrite upd_ne by lia.
Qed.

Lemma morecore_ok fuel :
  n <= 2 ^ 27 - 1 -> (2 * length l + 2 <= fuel)%nat ->
  let nu := Z.max 4096 n in
  if room (h_brk h + 16 * nu) then
    exists h' l', morecore room fuel n h = Some (h_freep h', h') /\ heap_inv h' l' al /\
      (length l' <= S (length l))%nat /\ keeps al h h' /\ (exists a m, (a, m) ∈ l' /\ nu <= m)
  else morecore room fuel n h = Some (0, h).
Proof.
  intros Hmax Hf nu. unfold morecore.
  replace (if n <? 4096 then 4096 else n) with nu by (unfold nu; destruct (Z.ltb_spec n 4096); lia).
  assert (Hs : s32 (nu * 16) = 16 * nu) by (unfold swrap; rewrite Z.mod_small; lia).
  unfold sbrk. rewrite Hs, (proj2 (Z.ltb_ge _ _)), (proj2 (Z.eqb_neq _ _)) by lia. cbn [orb].
  destruct (room (h_brk h + 16 * nu)) eqn:Er; [|done].
  pose proof (hi_brk _ _ _ Hi). rewrite (proj2 (Z.eqb_neq _ _)) by lia.
  destruct (grown_inv nu) as (H1 & H2 & H3 & H4); [lia|by apply Hroom|].
  destruct (free_block fuel _ l al (h_brk h) nu H1) as (h' & l' & -> & K1 & _ & K3 & K4 & _ & K6);
    [cbn; by rewrite upd_eq|done..|].
  exists h', l'. split_and!; try done. by eapply keeps_trans.
Qed.

End search.

(** ** The allocator *)

(** The units, header included, that [nb] bytes take. *)
Definition units_of (nb : Z) : Z := (nb + 15) / 16 + 1.

Lemma units_of_range nb : 0 <= nb <= 2 ^ 31 - 32 -> 1 <= units_of nb <= 2 ^ 27 - 1 /\ nb <= 16 * (units_of nb - 1).
Proof. unfold units_of. intros H. Z.div_mod_to_equations. lia. Qed.

(** [malloc] could not satisfy a request of [n] units. *)
Definition refused (h : heap) (l : list (Z * Z)) (n : Z) (r : Z * heap) : Prop :=
  r = (0, h) /\ (forall a m, (a, m) ∈ l -> m < n) /\ room (h_brk h + 16 * Z.max 4096 n) = false.

Lemma malloc_loop_ok fuel h l al n :
  heap_inv h l al -> 0 < n <= 2 ^ 27 - 1 -> (3 * length l + 3 <= fuel)%nat ->
  exists r, malloc_loop room fuel n (h_freep h) (h_ptr h (h_freep h)) h = Some r /\
    (gave h al n r \/ refused h l n r).
Proof.
  intros Hi Hn Hf. destruct (decide (Exists (fun b => n <= b.2) l)) as [Hex|Hno].
  - apply Exists_exists in Hex as ([a m] & Hin & Hm).
    destruct (search_ok h l al n Hi ltac:(lia) fuel) as (r & Hr & Hg); [by exists a, m|lia|]. eauto.
  - assert (Hsmall : forall a m, (a, m) ∈ l -> m < n).
    { intros a m Hin. destruct (decide (n <= m)) as [Hle|]; [|lia]. exfalso. apply Hno, Exists_exists. by exists (a, m). }
    destruct (freep_round h l al Hi) as (c & Hc & Hperm & Hfc & Hlen).
    pose (k := (fuel - length c - 1)%nat). replace fuel with (length c + S k)%nat by lia.
    rewrite scan_none; [|done| |done].
    2: { intros b Hb. rewrite Hperm in Hb. apply elem_of_cons in Hb as [->|Hb]; [rewrite (hi_base _ _ _ Hi); lia|].
         apply list_elem_of_fmap in Hb as ([a m] & -> & Hin). cbn.
         destruct (hi_free _ _ _ Hi a m Hin) as [-> _]. by eapply Hsmall. }
    pose proof (morecore_ok h l al n Hi k ltac:(lia) ltac:(lia)) as Hmc. cbn zeta in Hmc.
    destruct (room _) eqn:Er.
    + destruct Hmc as (h' & l' & -> & Hi' & Hlen' & Hk & a & m & Hin & Hm). cbn [mbind option_bind fst snd].
      pose proof (hi_freep _ _ _ Hi') as Hfp. rewrite (proj2 (Z.eqb_neq _ _)).
      * destruct (search_ok h' l' al n Hi' ltac:(lia) k) as (r & Hr & q & l'' & G1 & G2 & G3 & G4);
          [exists a, m; split; [done|lia]|lia|]. exists r. split; [done|left]. exists q, l''.
        split_and!; try done. by eapply keeps_trans.
      * apply elem_of_cons in Hfp as [->|Hfp]; [lia|]. pose proof (sorted_start _ _ _ (hi_sorted _ _ _ Hi') Hfp). lia.
    + rewrite Hmc. eexists. split; [done|]. by right.
Qed.

(** The heap before the first call, and after it. *)
Definition ready (h : heap) (l : list (Z * Z)) (al : gmap Z Z) : Prop :=
  heap_inv h l al \/ (h_freep h = 0 /\ l = [] /\ al = ∅ /\ base + 16 <= h_brk h <= 2 ^ 36).

Lemma malloc_ok fuel h l al nb :
  ready h l al -> 0 <= nb <= 2 ^ 31 - 32 -> (3 * length l + 3 <= fuel)%nat ->
  exists r h0, malloc base room fuel nb h = Some r /\ heap_inv h0 l al /\ keeps al h h0 /\ h_brk h0 = h_brk h /\
    (gave h al (units_of nb) r \/ refused h0 l (units_of nb) r).
Proof.
  intros Hr Hnb Hf. destruct (units_of_range nb Hnb) as [Hu _].
  assert (Hw : u32 ((nb + 16 - 1) / 16 + 1) = units_of nb).
  { replace (nb + 16 - 1) with (nb + 15) by lia. unfold wrap. apply Z.mod_small. unfold units_of in *. lia. }
  unfold malloc. rewrite Hw. destruct Hr as [Hi|(Hfp & -> & -> & Hbrk)].
  - assert (Hfp : h_freep h <> 0).
    { pose proof (hi_freep _ _ _ Hi) as [->|Hin]%elem_of_cons; [lia|].
      pose proof (sorted_start _ _ _ (hi_sorted _ _ _ Hi) Hin). lia. }
    rewrite (proj2 (Z.eqb_neq _ _)) by done.
    destruct (malloc_loop_ok fuel h l al (units_of nb) Hi) as (r & Hr & H); [lia|done|].
    exists r, h. by split_and!.
  - rewrite Hfp. cbn [Z.eqb]. set (h0 := set_size base 0 _).
    assert (Hi : heap_inv h0 [] ∅).
    { split; cbn; try done; rewrite ?upd_eq; try done || lia; [left|]. by intros ? ? ?%not_elem_of_nil. }
    destruct (malloc_loop_ok fuel h0 [] ∅ (units_of nb) Hi) as (r & Hr & H); [lia|done|].
    exists r, h0. split_and!; try done. destruct H as [(q & l' & G1 & G2 & G3 & G4)|H]; [left|by right].
    by exists q, l'.
Qed.

(** More fuel does not change a result. *)
Lemma free_more fuel fuel' ap h h' : free fuel ap h = Some h' -> (fuel <= fuel')%nat -> free fuel' ap h = Some h'.
Proof.
  unfold free. intros (p & Hp & Hr)%bind_Some Hf. by rewrite (find_more _ _ _ _ _ _ Hp Hf).
Qed.

Lemma morecore_more fuel fuel' n h r :
  morecore room fuel n h = Some r -> (fuel <= fuel')%nat -> morecore room fuel' n h = Some r.
Proof.
  unfold morecore. destruct (sbrk _ _ h) as [p h1]. destruct (p =? -1); [done|].
  intros (h2 & Hp & Hr)%bind_Some Hf. by rewrite (free_more _ _ _ _ _ Hp Hf).
Qed.

Lemma malloc_loop_more fuel fuel' n prevp p h r :
  malloc_loop room fuel n prevp p h = Some r -> (fuel <= fuel')%nat -> malloc_loop room fuel' n prevp p h = Some r.
Proof.
  revert fuel' prevp p h. induction fuel as [|fuel IH]; intros [|fuel'] prevp p h H Hf; cbn [malloc_loop] in *;
    destruct (n <=? h_size h p); try done || lia.
  destruct (p =? h_freep h); [|apply IH; [done|lia]].
  apply bind_Some in H as (r1 & Hr1 & H). rewrite (morecore_more _ fuel' _ _ _ Hr1) by lia. cbn.
  destruct (r1.1 =? 0); [done|]. apply IH; [done|lia].
Qed.

(** ** A program that uses the allocator *)

(** [run h live]: [malloc] and [free] were called in any order, [free] on blocks in use only,
    and the blocks in use, the [nb] bytes at [p] for each [p] of [live], were written at will. *)
Inductive run : heap -> gmap Z Z -> Prop :=
| run_start h : h_freep h = 0 -> base + 16 <= h_brk h <= 2 ^ 36 -> run h ∅
| run_malloc fuel h live nb p h' :
    run h live -> 0 <= nb <= 2 ^ 31 - 32 -> malloc base room fuel nb h = Some (p, h') ->
    run h' (if p =? 0 then live else <[p := nb]> live)
| run_free fuel h live p nb h' :
    run h live -> live !! p = Some nb -> free fuel p h = Some h' -> run h' (delete p live)
| run_write h live p nb h' :
    run h live -> live !! p = Some nb -> h_freep h' = h_freep h -> h_brk h' = h_brk h ->
    (forall x, ~ (p - 16 < x < p + nb) -> h_ptr h' x = h_ptr h x /\ h_size h' x = h_size h x) ->
    run h' live.

(** The blocks in use are the allocated blocks behind their headers. *)
Definition in_use (live al : gmap Z Z) : Prop :=
  (forall p nb, live !! p = Some nb -> 0 <= nb <= 2 ^ 31 - 32 /\ al !! (p - 16) = Some (units_of nb)) /\
  (forall a n, al !! a = Some n -> is_Some (live !! (a + 16))).

Lemma ready_alloc h l al a n : ready h l al -> al !! a = Some n -> heap_inv h l al.
Proof. intros [Hi|(_ & _ & -> & _)]; [done|]. by intros ?%lookup_empty_Some. Qed.

Lemma in_use_insert live al q nb :
  in_use live al -> 0 <= nb <= 2 ^ 31 - 32 -> in_use (<[q + 16 := nb]> live) (<[q := units_of nb]> al).
Proof.
  intros [H1 H2] Hnb. split.
  - intros p nb' [[<- <-]|[Hne Hp]]%lookup_insert_Some.
    + replace (q + 16 - 16) with q by lia. by rewrite lookup_insert_eq.
    + rewrite lookup_insert_ne by lia. by apply H1.
  - intros a n [[<- <-]|[Hne Ha]]%lookup_insert_Some; [rewrite lookup_insert_eq; eauto|].
    rewrite lookup_insert_ne by lia. by eapply H2.
Qed.

Lemma in_use_delete live al p : in_use live al -> in_use (delete p live) (delete (p - 16) al).
Proof.
  intros [H1 H2]. split.
  - intros p' nb' [Hne Hp]%lookup_delete_Some. rewrite lookup_delete_ne by lia. by apply H1.
  - intros a n [Hne Ha]%lookup_delete_Some. rewrite lookup_delete_ne by lia. by eapply H2.
Qed.

(** The invariant depends on no byte of a block in use. *)
Lemma write_inv h h' l al a n :
  heap_inv h l al -> al !! a = Some n -> h_freep h' = h_freep h -> h_brk h' = h_brk h ->
  (forall x, ~ (a < x < a + 16 * n) -> h_ptr h' x = h_ptr h x /\ h_size h' x = h_size h x) ->
  heap_inv h' l al.
Proof.
  intros [Hp Hs Hfp Hb0 Hl Hal Hbrk] Ha Efp Ebrk Ho.
  destruct (Hal a n Ha) as (_ & Hlo & Hn & _ & Hap).
  assert (Hlo' : forall b m, (b, m) ∈ l -> ~ (a < b < a + 16 * n)).
  { intros b m Hin. destruct (Hl b m Hin) as (_ & _ & ? & _ & H). pose proof (H _ _ Ha). unfold apart in *. lia. }
  split; rewrite ?Efp, ?Ebrk; try done.
  - eapply path_ext; [|exact Hp]. intros x Hx. apply Ho. apply elem_of_cons in Hx as [->|Hx]; [lia|].
    apply list_elem_of_fmap in Hx as ([b m] & -> & Hin). by eapply Hlo'.
  - rewrite (proj2 (Ho base ltac:(lia))). done.
  - intros b m Hin. rewrite (proj2 (Ho b (Hlo' b m Hin))). by apply Hl.
  - intros b m Hb. destruct (Ho b) as [_ ->]; [|by apply Hal].
    destruct (decide (b = a)) as [->|Hne]; [lia|].
    pose proof (Hap b m ltac:(by apply lookup_delete_Some)) as H.
    destruct (Hal b m Hb) as (_ & _ & ? & _). unfold apart in *. lia.
Qed.

Lemma malloc_more fuel fuel' nb h r :
  malloc base room fuel nb h = Some r -> (fuel <= fuel')%nat -> malloc base room fuel' nb h = Some r.
Proof. unfold malloc. apply malloc_loop_more. Qed.

Lemma run_inv h live : run h live -> exists l al, ready h l al /\ in_use live al.
Proof.
  induction 1 as [h Hf Hb|fuel h live nb p h' _ (l & al & Hr & Hu) Hnb Hm|fuel h live p nb h' _ (l & al & Hr & Hu) Hp Hm
    |h live p nb h' _ (l & al & Hr & Hu) Hp Hf Hb Ho].
  - exists [], ∅. split; [by right|]. split; by intros ? ? ?%lookup_empty_Some.
  - destruct (malloc_ok (fuel + (3 * length l + 3)) h l al nb Hr Hnb) as (r & h0 & Hm' & Hi & _ & _ & H); [lia|].
    apply (malloc_more _ (fuel + (3 * length l + 3))) in Hm; [|lia]. rewrite Hm in Hm'. injection Hm' as <-.
    destruct H as [(q & l' & G1 & G2 & G3 & G4)|([= -> ->] & _)].
    + cbn in *. subst p. destruct (hi_alloc _ _ _ G3 q (units_of nb)) as (_ & ? & _); [by rewrite lookup_insert_eq|].
      rewrite (proj2 (Z.eqb_neq _ _)) by lia. exists l', (<[q := units_of nb]> al). split; [by left|].
      by apply in_use_insert.
    + exists l, al. split; [by left|done].
  - destruct (proj1 Hu p nb Hp) as [Hnb Ha]. pose proof (ready_alloc _ _ _ _ _ Hr Ha) as Hi.
    destruct (free_ok (fuel + (2 * length l + 2)) h l al (p - 16) _ Hi Ha) as (h1 & l' & Hf & Hi' & _); [lia|].
    replace (p - 16 + 16) with p in Hf by lia.
    apply (free_more _ (fuel + (2 * length l + 2))) in Hm; [|lia]. rewrite Hm in Hf. injection Hf as <-.
    exists l', (delete (p - 16) al). split; [by left|by apply in_use_delete].
  - destruct (proj1 Hu p nb Hp) as [Hnb Ha]. pose proof (ready_alloc _ _ _ _ _ Hr Ha) as Hi.
    destruct (units_of_range nb Hnb). exists l, al. split; [left|done].
    eapply (write_inv h h' l al _ _ Hi Ha); [done..|]. intros x Hx. apply Ho. lia.
Qed.

(** The blocks in use are not written. *)
Definition contents (live : gmap Z Z) (h h' : heap) : Prop :=
  forall p nb x, live !! p = Some nb -> p - 16 < x < p + nb ->
    h_ptr h' x = h_ptr h x /\ h_size h' x = h_size h x.

Lemma keeps_contents live al h h' : in_use live al -> keeps al h h' -> contents live h h'.
Proof.
  intros [Hu _] Hk p nb x Hp Hx. destruct (Hu p nb Hp) as [Hnb Ha]. destruct (units_of_range nb Hnb).
  apply (Hk _ _ x Ha). lia.
Qed.

(** C22: whatever a program does with [malloc], [free] and the memory it gets, the blocks it
    holds lie in its heap behind their headers, no two of them overlap, and neither call
    changes a byte of one (of the others, for [free]); a new block is not one of them. *)
Theorem malloc_safe h live :
  run h live ->
  (forall p nb, live !! p = Some nb -> base + 32 <= p /\ p + nb <= h_brk h) /\
  (forall p nb p' nb', live !! p = Some nb -> live !! p' = Some nb' -> p <> p' ->
     p + nb <= p' - 16 \/ p' + nb' <= p - 16) /\
  (forall fuel nb p h', 0 <= nb <= 2 ^ 31 - 32 -> malloc base room fuel nb h = Some (p, h') ->
     contents live h h' /\ live !! p = None) /\
  (forall fuel p h', is_Some (live !! p) -> free fuel p h = Some h' -> contents (delete p live) h h').
Proof.
  intros (l & al & Hr & Hu)%run_inv. pose proof Hu as [Hu1 Hu2].
  assert (Hblk : forall p nb, live !! p = Some nb -> heap_inv h l al /\ nb <= 16 * (units_of nb - 1) /\
    al !! (p - 16) = Some (units_of nb) /\ spare (h_brk h) (delete (p - 16) al) (p - 16) (units_of nb)).
  { intros p nb Hp. destruct (Hu1 p nb Hp) as [Hnb Ha]. pose proof (ready_alloc _ _ _ _ _ Hr Ha) as Hi.
    destruct (units_of_range nb Hnb). split_and!; try done. by apply (hi_alloc _ _ _ Hi). }
  split_and!.
  - intros p nb Hp. destruct (Hblk p nb Hp) as (_ & ? & _ & ? & ? & ? & _). lia.
  - intros p nb p' nb' Hp Hp' Hne. destruct (Hblk p nb Hp) as (_ & ? & _ & _ & _ & _ & H).
    destruct (Hblk p' nb' Hp') as (_ & ? & Ha' & _).
    destruct (H (p' - 16) (units_of nb')); [apply lookup_delete_Some; split; [lia|done]|lia..].
  - intros fuel nb p h' Hnb Hm. apply (malloc_more _ (fuel + (3 * length l + 3))) in Hm; [|lia].
    destruct (malloc_ok _ h l al nb Hr Hnb (Nat.le_add_l _ fuel)) as (r & h0 & Hm' & _ & Hk & _ & H).
    rewrite Hm in Hm'. injection Hm' as <-. destruct H as [(q & l' & E & Hq & Hi' & Hk')|([= -> ->] & _)].
    + cbn in *. subst p. split; [by eapply keeps_contents|].
      destruct (live !! (q + 16)) as [nb'|] eqn:E; [|done]. destruct (Hu1 _ _ E) as [_ Ha].
      replace (q + 16 - 16) with q in Ha by lia. congruence.
    + split; [by eapply keeps_contents|]. destruct (live !! 0) as [nb'|] eqn:E; [|done].
      destruct (Hblk _ _ E) as (_ & _ & _ & ? & _). lia.
  - intros fuel p h' [nb Hp] Hf. destruct (Hblk p nb Hp) as (Hi & _ & Ha & _).
    apply (free_more _ (fuel + (2 * length l + 2))) in Hf; [|lia].
    destruct (free_ok _ h l al _ _ Hi Ha (Nat.le_add_l _ fuel)) as (h1 & l' & Hf' & _ & _ & _ & Hk & _).
    replace (p - 16 + 16) with p in Hf' by lia. rewrite Hf in Hf'. injection Hf' as <-.
    eapply keeps_contents; [by apply in_use_delete|done].
Qed.

(** C23: [malloc] and [free] return: the searches of the free list end, also when [malloc] has
    to ask the kernel for memory and searches again; and [malloc] gives up only when the kernel
    refused to grow the heap. *)
Theorem malloc_free_return h live :
  run h live ->
  exists fuel,
    (forall nb, 0 <= nb <= 2 ^ 31 - 32 -> exists p h', malloc base room fuel nb h = Some (p, h') /\
       (p = 0 -> room (h_brk h + 16 * Z.max 4096 (units_of nb)) = false)) /\
    (forall p, is_Some (live !! p) -> is_Some (free fuel p h)).
Proof.
  intros (l & al & Hr & Hu)%run_inv. exists (3 * length l + 3)%nat. split.
  - intros nb Hnb. destruct (malloc_ok _ h l al nb Hr Hnb (le_n _)) as ([p h'] & h0 & Hm & _ & _ & Hb & H).
    exists p, h'. split; [done|]. intros ->. destruct H as [(q & l' & E & Hq & Hi' & _)|(_ & _ & H)].
    + cbn in *. destruct (hi_alloc _ _ _ Hi' q (units_of nb)) as (_ & ? & _); [by rewrite lookup_insert_eq|lia].
    + by rewrite <- Hb.
  - intros p [nb Hp]. destruct (proj1 Hu p nb Hp) as [_ Ha]. pose proof (ready_alloc _ _ _ _ _ Hr Ha) as Hi.
    destruct (free_ok (3 * length l + 3) h l al _ _ Hi Ha) as (h1 & l' & Hf & _); [lia|].
    replace (p - 16 + 16) with p in Hf by lia. by rewrite Hf.
Qed.

End heap.

(** ** A program *)

Definition small_room (z : Z) : bool := z <=? 2 ^ 20.
Definition empty_heap : heap := mkHeap (fun _ => 0) (fun _ => 0) 0 8192.

Definition first_call : option (Z * heap) := malloc 4096 small_room 10 100 empty_heap.
Definition first_heap : heap := default empty_heap (snd <$> first_call).

Lemma first_run : run 4096 small_room first_heap {[ 73616 := 100 ]}.
Proof.
  change {[ 73616 := 100 ]} with (if 73616 =? 0 then ∅ else <[73616 := 100]> (∅ : gmap Z Z)).
  eapply (run_malloc _ _ 10 empty_heap ∅ 100); [by constructor|lia|]. vm_compute. reflexivity.
Qed.

Lemma small_room_bound z : small_room z = true -> z <= 2 ^ 36.
Proof. unfold small_room. intros ?%Z.leb_le. lia. Qed.

Lemma malloc_safe_witness :
  73616 + 100 <= h_brk first_heap /\
  forall fuel h', free fuel 73616 first_heap = Some h' -> contents ∅ first_heap h'.
Proof.
  destruct (malloc_safe 4096 small_room ltac:(lia) small_room_bound _ _ first_run) as (H1 & _ & _ & H4). split.
  - by apply H1.
  - intros fuel h' Hf. apply (H4 fuel 73616 h'); [by exists 100|done].
Defined.

Lemma malloc_free_return_witness :
  exists fuel, is_Some (free fuel 73616 first_heap) /\
    forall nb, 0 <= nb <= 2 ^ 31 - 32 -> exists r, malloc 4096 small_room fuel nb first_heap = Some r.
Proof.
  destruct (malloc_free_return 4096 small_room ltac:(lia) small_room_bound _ _ first_run) as (fuel & H1 & H2).
  exists fuel. split; [apply H2; by exists 100|]. intros nb Hnb. destruct (H1 nb Hnb) as (p & h' & Hm & _). eauto.
Defined.

(** ** Requests beyond the range of [int] *)

(** A request whose size in bytes does not fit the [int] argument of [sbrk]: [malloc] of
    [2 ^ 32 - 1] bytes asks for 16, which succeeds, and returns a block that runs
    past the end of the heap. *)
Lemma malloc_truncates :
  exists p h', malloc 4096 small_room 10 (2 ^ 32 - 1) empty_heap = Some (p, h') /\ p <> 0 /\
    h_brk h' = h_brk empty_heap + 16 /\ p + (2 ^ 32 - 1) > h_brk h'.
Proof. eexists _, _. split; [vm_compute; reflexivity|]. cbn. lia. Qed.
