(* ===== verification/Sh.v ===== *)
(** user/sh.c: the command parser of the shell.

    A command line is a buffer of characters; the parser walks it with a position, the
    state of the monad, and builds a tree whose words are pairs of positions.
    [nulterminate] then cuts the words out of the buffer in place.  [malloc] is taken to
    succeed. *)

From stdpp Require Import prelude gmap strings.
From Stdlib Require Import ZArith Lia Ascii.
From S2P Require Import Prelude Bytes Params CString Ulib.

Local Open Scope Z_scope.
Local Open Scope kernel_scope.

(** ** The code *)

Definition MAXARGS : nat := 10.

(** Words are given by the positions of their first character and of the one behind
    their last.  [argv] and [eargv] of [struct execcmd] up to the null pointer. *)
Inductive cmd :=
| EXEC (argv : list (nat * nat))
| REDIR (c : cmd) (file efile : nat) (mode fd : Z)
| PIPE (left right : cmd)
| LIST (left right : cmd)
| BACK (c : cmd).

Definition whitespace : list Z := [32; 9; 13; 10; 11].
Definition symbols : list Z := [ch "<"; ch "|"; ch ">"; ch "&"; ch ";"; ch "("; ch ")"].

(** [strchr(set, c)] as a condition. *)
Definition among (set : list Z) (c : Z) : bool :=
  match strchr set c with Some _ => true | None => false end.

Section parser.
Context (buf : list Z) (es : nat).

(** [*s] *)
Definition char (s : nat) : Z := default 0 (buf !! s).

(** [while (s < es && strchr(whitespace, *s)) s++;] *)
Fixpoint skip_ws_loop (n s : nat) : nat :=
  match n with
  | O => s
  | S n' => if (s <? es)%nat && among whitespace (char s) then skip_ws_loop n' (S s) else s
  end.

Definition skip_ws (s : nat) : nat := skip_ws_loop (es - s) s.

(** [while (s < es && !strchr(whitespace, *s) && !strchr(symbols, *s)) s++;] *)
Fixpoint skip_word_loop (n s : nat) : nat :=
  match n with
  | O => s
  | S n' =>
      if (s <? es)%nat && negb (among whitespace (char s)) && negb (among symbols (char s))
      then skip_word_loop n' (S s) else s
  end.

Definition skip_word (s : nat) : nat := skip_word_loop (es - s) s.

(** The [switch] of [gettoken]: the kind of the token at [s], and where it ends. *)
Definition token_at (s : nat) : Z * nat :=
  let c := char s in
  if c =? 0 then (c, s)
  else if (c =? ch "|") || (c =? ch "(") || (c =? ch ")") || (c =? ch ";") || (c =? ch "&") || (c =? ch "<")
  then (c, S s)
  else if c =? ch ">" then if char (S s) =? ch ">" then (ch "+", S (S s)) else (c, S s)
  else (ch "a", skip_word s).

(** The kind of the token, and the positions stored in [*q] and [*eq]. *)
Definition gettoken : M nat (Z * nat * nat) :=
  s <- Prelude.gets skip_ws ;;
  let (tok, e) := token_at s in
  modify (fun _ => skip_ws e) ;;
  ret (tok, s, e).

Definition peek (toks : list Z) : M nat bool :=
  modify skip_ws ;;
  s <- Prelude.gets id ;;
  ret (negb (char s =? 0) && among toks (char s)).

Fixpoint parseredirs_loop (n : nat) (c : cmd) : M nat cmd :=
  b <- peek [ch "<"; ch ">"] ;;
  if (b : bool) then
    match n with
    | O => no_fuel
    | S n' =>
        t <- gettoken ;;
        w <- gettoken ;;
        panic_if (negb (w.1.1 =? ch "a")) "missing file for redirection" ;;
        let (q, eq) := (w.1.2, w.2) in
        parseredirs_loop n'
          (if t.1.1 =? ch "<" then REDIR c q eq O_RDONLY 0
           else if t.1.1 =? ch ">" then REDIR c q eq (Z.lor (Z.lor O_WRONLY O_CREATE) O_TRUNC) 1
           else if t.1.1 =? ch "+" then REDIR c q eq (Z.lor O_WRONLY O_CREATE) 1
           else c)
    end
  else ret c.

Definition parseredirs (c : cmd) : M nat cmd := parseredirs_loop es c.

(** [cmd->argv[argc] = q; cmd->eargv[argc] = eq;] where [cmd] points to the [EXEC] node
    inside the tree [ret] built so far. *)
Fixpoint set_arg (q eq : nat) (ret : cmd) : cmd :=
  match ret with
  | EXEC argv => EXEC (argv ++ [(q, eq)])
  | REDIR c file efile mode fd => REDIR (set_arg q eq c) file efile mode fd
  | _ => ret
  end.

Fixpoint parseexec_loop (n argc : nat) (r : cmd) : M nat cmd :=
  b <- peek [ch "|"; ch ")"; ch "&"; ch ";"] ;;
  if (b : bool) then ret r
  else
    match n with
    | O => no_fuel
    | S n' =>
        t <- gettoken ;;
        if t.1.1 =? 0 then ret r
        else
          panic_if (negb (t.1.1 =? ch "a")) "syntax" ;;
          panic_if (MAXARGS <=? S argc)%nat "too many args" ;;
          r' <- parseredirs (set_arg t.1.2 t.2 r) ;;
          parseexec_loop n' (S argc) r'
    end.

(** [while (peek(ps, es, "&"))] *)
Fixpoint back_loop (n : nat) (c : cmd) : M nat cmd :=
  b <- peek [ch "&"] ;;
  if (b : bool) then
    match n with
    | O => no_fuel
    | S n' => gettoken ;; back_loop n' (BACK c)
    end
  else ret c.

Fixpoint parseline (fuel : nat) : M nat cmd :=
  match fuel with
  | O => no_fuel
  | S n =>
      c <- parsepipe n ;;
      c <- back_loop es c ;;
      b <- peek [ch ";"] ;;
      if (b : bool) then gettoken ;; c' <- parseline n ;; ret (LIST c c')
      else ret c
  end
with parsepipe (fuel : nat) : M nat cmd :=
  match fuel with
  | O => no_fuel
  | S n =>
      c <- parseexec n ;;
      b <- peek [ch "|"] ;;
      if (b : bool) then gettoken ;; c' <- parsepipe n ;; ret (PIPE c c')
      else ret c
  end
with parseexec (fuel : nat) : M nat cmd :=
  match fuel with
  | O => no_fuel
  | S n =>
      b <- peek [ch "("] ;;
      if (b : bool) then parseblock n
      else
        r <- parseredirs (EXEC []) ;;
        parseexec_loop (S es) 0 r
  end
with parseblock (fuel : nat) : M nat cmd :=
  match fuel with
  | O => no_fuel
  | S n =>
      b <- peek [ch "("] ;;
      panic_if (negb b) "parseblock" ;;
      gettoken ;;
      c <- parseline n ;;
      b <- peek [ch ")"] ;;
      panic_if (negb b) "syntax - missing )" ;;
      gettoken ;;
      parseredirs c
  end.

End parser.

(** The buffer with the words of a command cut out. *)
Fixpoint nulterminate (c : cmd) (buf : list Z) : list Z :=
  match c with
  | EXEC argv => foldl (fun b w => <[w.2 := 0]> b) buf argv
  | REDIR c _ efile _ _ => <[efile := 0]> (nulterminate c buf)
  | PIPE l r => nulterminate r (nulterminate l buf)
  | LIST l r => nulterminate r (nulterminate l buf)
  | BACK c => nulterminate c buf
  end.

(** The command and the buffer its words are in.  The message about the rest of the line,
    before [panic("syntax")], is left out. *)
Definition parsecmd (buf : list Z) : outcome nat (cmd * list Z) :=
  let es := Z.to_nat (Ulib.strlen buf) in
  (c <- parseline buf es (4 * es + 4) ;;
   peek buf es [] ;;
   s <- Prelude.gets id ;;
   panic_if (negb (s =? es)%nat) "syntax" ;;
   ret (c, nulterminate c buf)) 0%nat.

(** ** Running commands

    A program as the system calls it makes, with what it does next for each result. *)
Inductive prog :=
| P_exit (status : Z)
| P_exec (path : list Z) (argv : list (list Z)) (failed : prog)
| P_close (fd : Z) (k : prog)
| P_open (file : list Z) (mode : Z) (k : Z -> prog)
| P_pipe2 (k : option (Z * Z) -> prog)
| P_dup (fd : Z) (k : prog)
| P_fork (child parent failed : prog)
| P_wait (k : prog)
| P_chdir (path : list Z) (k : Z -> prog)
| P_write (fd : Z) (s : list Z) (k : prog).

Definition panic_ (msg : string) : prog := P_write 2 (str msg ++ [10]) (P_exit 1).

(** [fork1() == 0], and otherwise. *)
Definition fork1 (child parent : prog) : prog := P_fork child parent (panic_ "fork").

Section running.
Context (buf : list Z).

(** The string at a position. *)
Definition string_at (q : nat) : list Z := cstring (drop q buf).

Fixpoint runcmd (c : cmd) : prog :=
  match c with
  | EXEC [] => P_exit 1
  | EXEC (((q, _) :: _) as argv) =>
      P_exec (string_at q) (map (fun w => string_at w.1) argv)
        (P_write 2 (str "exec " ++ string_at q ++ str " failed" ++ [10]) (P_exit 0))
  | REDIR c file _ mode fd =>
      P_close fd (P_open (string_at file) mode (fun r =>
        if r <? 0 then P_write 2 (str "open " ++ string_at file ++ str " failed" ++ [10]) (P_exit 1)
        else runcmd c))
  | LIST l r => fork1 (runcmd l) (P_wait (runcmd r))
  | PIPE l r =>
      P_pipe2 (fun p =>
        match p with
        | None => panic_ "pipe"
        | Some (p0, p1) =>
            fork1 (P_close 1 (P_dup p1 (P_close p0 (P_close p1 (runcmd l)))))
              (fork1 (P_close 0 (P_dup p0 (P_close p0 (P_close p1 (runcmd r)))))
                 (P_close p0 (P_close p1 (P_wait (P_wait (P_exit 0))))))
        end)
  | BACK c => fork1 (runcmd c) (P_exit 0)
  end.

End running.

(** [getcmd]: the 100-byte buffer with the next line, or nothing at the end of the input. *)
Definition getcmd (nbuf : nat) (inp : input) : option (list Z * input) :=
  let (l, inp') := Ulib.gets nbuf inp in
  let buf := l ++ replicate (nbuf - length l) 0 in
  if char_at buf =? 0 then None else Some (buf, inp').

(** [while ( *cmd == ' ' || *cmd == '\t') cmd++;] *)
Fixpoint skip_blanks (cmd : list Z) : list Z :=
  match cmd with
  | c :: cmd' => if (c =? 32) || (c =? 9) then skip_blanks cmd' else cmd
  | [] => []
  end.

(** The loop of [main]: the lines of the input, the first [fuel] of them. *)
Fixpoint main_loop (fuel : nat) (inp : input) : prog :=
  P_write 2 (str "$ ")
    match fuel, getcmd 100 inp with
    | S n, Some (buf, inp') =>
        let cmd := skip_blanks buf in
        if char_at cmd =? 10 then main_loop n inp'
        else if (char cmd 0 =? ch "c") && (char cmd 1 =? ch "d") && (char cmd 2 =? 32) then
          let cmd := <[Z.to_nat (Ulib.strlen cmd - 1) := 0]> cmd in
          P_chdir (cstring (drop 3 cmd)) (fun r =>
            if r <? 0 then P_write 2 (str "cannot cd " ++ cstring (drop 3 cmd) ++ [10]) (main_loop n inp')
            else main_loop n inp')
        else
          fork1
            match parsecmd cmd with
            | Ok (c, b) _ => runcmd b c
            | Panic msg => panic_ msg
            | _ => P_exit 1
            end
            (P_wait (main_loop n inp'))
    | _, _ => P_exit 0
    end.

(** [while ((fd = open("console", O_RDWR)) >= 0)], which ends at the latest with the fourth
    descriptor. *)
Fixpoint open_console (n : nat) (k : prog) : prog :=
  match n with
  | O => k
  | S n' =>
      P_open (str "console") O_RDWR (fun fd =>
        if 0 <=? fd then if 3 <=? fd then P_close fd k else open_console n' k else k)
  end.

Definition sh_main (fuel : nat) (inp : input) : prog := open_console 4 (main_loop fuel inp).

(** ** Command lines

    The tokens of a line; [>>] is the symbol [+].  [spells l s]: the text [s] is the tokens [l],
    with blanks wherever they may stand. *)

Inductive token := T_word (w : list Z) | T_sym (c : Z).

Definition wordchar (c : Z) : bool := negb (c =? 0) && negb (among whitespace c) && negb (among symbols c).

Inductive spells : list token -> list Z -> Prop :=
| sp_end : spells [] []
| sp_blank c l r : among whitespace c = true -> spells l r -> spells l (c :: r)
| sp_word w l r :
    w <> [] -> Forall (fun c => wordchar c = true) w -> wordchar (char_at r) = false ->
    spells l r -> spells (T_word w :: l) (w ++ r)
| sp_sym c l r :
    c ∈ [ch "|"; ch "("; ch ")"; ch ";"; ch "&"; ch "<"] -> spells l r -> spells (T_sym c :: l) (c :: r)
| sp_gt l r : char_at r <> ch ">" -> spells l r -> spells (T_sym (ch ">") :: l) (ch ">" :: r)
| sp_append l r : spells l r -> spells (T_sym (ch "+") :: l) (ch ">" :: ch ">" :: r).

(** The grammar.  A redirection is the symbol [<], [>] or [+] and a file name. *)
Definition word : Type := list Z.
Definition redir : Type := Z * word.

Inductive line :=
| L_end (p : pipe) (amps : nat)
| L_seq (p : pipe) (amps : nat) (l : line)
with pipe :=
| P_end (e : exec)
| P_pipe (e : exec) (p : pipe)
with exec :=
| E_simple (rs : list redir) (args : list (word * list redir))
| E_block (l : line) (rs : list redir).

Definition redir_tokens (rs : list redir) : list token :=
  concat (map (fun r => [T_sym r.1; T_word r.2]) rs).
Definition arg_tokens (args : list (word * list redir)) : list token :=
  concat (map (fun a => T_word a.1 :: redir_tokens a.2) args).

Fixpoint line_tokens (l : line) : list token :=
  match l with
  | L_end p n => pipe_tokens p ++ replicate n (T_sym (ch "&"))
  | L_seq p n l => pipe_tokens p ++ replicate n (T_sym (ch "&")) ++ T_sym (ch ";") :: line_tokens l
  end
with pipe_tokens (p : pipe) : list token :=
  match p with
  | P_end e => exec_tokens e
  | P_pipe e p => exec_tokens e ++ T_sym (ch "|") :: pipe_tokens p
  end
with exec_tokens (e : exec) : list token :=
  match e with
  | E_simple rs args => redir_tokens rs ++ arg_tokens args
  | E_block l rs => T_sym (ch "(") :: line_tokens l ++ T_sym (ch ")") :: redir_tokens rs
  end.

(** The command a line stands for. *)
Inductive scmd :=
| Exec (argv : list word)
| Redir (c : scmd) (file : word) (mode fd : Z)
| Pipe (left right : scmd)
| List (left right : scmd)
| Back (c : scmd).

(** The flags and the descriptor of a redirection. *)
Definition redir_mode (k : Z) : Z * Z :=
  if k =? ch "<" then (O_RDONLY, 0)
  else if k =? ch ">" then (Z.lor (Z.lor O_WRONLY O_CREATE) O_TRUNC, 1)
  else (Z.lor O_WRONLY O_CREATE, 1).

Definition with_redir (c : scmd) (r : redir) : scmd :=
  Redir c r.2 (redir_mode r.1).1 (redir_mode r.1).2.

Fixpoint line_cmd (l : line) : scmd :=
  match l with
  | L_end p n => Nat.iter n Back (pipe_cmd p)
  | L_seq p n l => List (Nat.iter n Back (pipe_cmd p)) (line_cmd l)
  end
with pipe_cmd (p : pipe) : scmd :=
  match p with
  | P_end e => exec_cmd e
  | P_pipe e p => Pipe (exec_cmd e) (pipe_cmd p)
  end
with exec_cmd (e : exec) : scmd :=
  match e with
  | E_simple rs args => foldl with_redir (Exec (map fst args)) (rs ++ concat (map snd args))
  | E_block l rs => foldl with_redir (line_cmd l) rs
  end.

(** The redirections are of the three kinds, and no command has more than nine words. *)
Definition redirs_ok (rs : list redir) : Prop := Forall (fun r => r.1 ∈ [ch "<"; ch ">"; ch "+"]) rs.

Fixpoint line_ok (l : line) : Prop :=
  match l with
  | L_end p n => pipe_ok p
  | L_seq p n l => pipe_ok p /\ line_ok l
  end
with pipe_ok (p : pipe) : Prop :=
  match p with
  | P_end e => exec_ok e
  | P_pipe e p => exec_ok e /\ pipe_ok p
  end
with exec_ok (e : exec) : Prop :=
  match e with
  | E_simple rs args =>
      redirs_ok rs /\ Forall (fun a => redirs_ok a.2) args /\ (length args < MAXARGS)%nat
  | E_block l rs => line_ok l /\ redirs_ok rs
  end.

(** What the shell sees of a parsed command: its words as C strings. *)
Fixpoint view (buf : list Z) (c : cmd) : scmd :=
  match c with
  | EXEC argv => Exec (map (fun w => cstring (drop w.1 buf)) argv)
  | REDIR c file _ mode fd => Redir (view buf c) (cstring (drop file buf)) mode fd
  | PIPE l r => Pipe (view buf l) (view buf r)
  | LIST l r => List (view buf l) (view buf r)
  | BACK c => Back (view buf c)
  end.

(** ** Tokens *)

Lemma among_iff set c : 0 ∉ set -> among set c = true <-> c ∈ set.
Proof.
  intros H0. unfold among. destruct (strchr set c) as [k|] eqn:E.
  - apply strchr_Some in E as (a & b & -> & _). split; [|done]. intros _. apply elem_of_app. right. left.
  - apply strchr_None in E; [|done]. done.
Qed.

Lemma symbols_nul : 0 ∉ symbols.
Proof. compute_done. Qed.

Lemma redirs_length rs : (length rs <= length (redir_tokens rs))%nat.
Proof. unfold redir_tokens. induction rs; cbn; lia. Qed.

Lemma spells_length l d : spells l d -> (length l <= length d)%nat.
Proof.
  induction 1 as [|? ? ? _ _ IH|w l r Hw _ _ _ IH| | |]; cbn in *; try lia.
  rewrite length_app. destruct w; [done|]. cbn. lia.
Qed.

Section lexer.
Context (s junk : list Z).
Hypothesis Hnul : 0 ∉ s.

Let buf : list Z := s ++ 0 :: junk.
Let es : nat := length s.

Lemma char_drop i : (i <= es)%nat -> char buf i = char_at (drop i s).
Proof.
  intros Hi. unfold char, buf, char_at. destruct (decide (i = es)) as [->|Hne].
  - rewrite lookup_app_r, drop_ge by done. by replace (es - length s)%nat with 0%nat by lia.
  - rewrite lookup_app_l by lia. destruct (lookup_lt_is_Some_2 s i) as [c Hc]; [lia|].
    by rewrite Hc, (drop_S s c i Hc).
Qed.

Lemma char_in i c r : drop i s = c :: r -> char buf i = c /\ (i < es)%nat /\ drop (S i) s = r /\ c <> 0.
Proof.
  intros E. assert (Hi : (i < es)%nat).
  { destruct (decide (i < es)%nat) as [|Hge]; [done|]. rewrite drop_ge in E; [done|lia]. }
  rewrite char_drop, E by lia. split_and!; [done|done| |].
  - destruct (lookup_lt_is_Some_2 s i Hi) as [c' Hc]. rewrite (drop_S s c' i Hc) in E. congruence.
  - intros ->. apply Hnul. rewrite <- (take_drop i s), E. apply elem_of_app. right. left.
Qed.

Lemma spells_blank l c r : among whitespace c = true -> spells l (c :: r) <-> spells l r.
Proof.
  intros Hc. split; [|by constructor]. inversion 1 as [| |w l' r' Hw Hf|? ? ? Hin| |]; subst; try done.
  - destruct w as [|c' w]; [done|]. simplify_eq/=. apply Forall_cons_1 in Hf as [Hf _].
    unfold wordchar in Hf. rewrite Hc, andb_false_r in Hf. done.
  - rewrite !elem_of_cons in Hin. revert Hc. by destruct Hin as [->|[->|[->|[->|[->|[->|?%not_elem_of_nil]]]]]].
Qed.

Lemma skip_ws_spec i :
  (i <= es)%nat ->
  let j := skip_ws buf es i in
  (i <= j <= es)%nat /\ (forall l, spells l (drop i s) <-> spells l (drop j s)) /\
  among whitespace (char_at (drop j s)) = false.
Proof.
  unfold skip_ws. remember (es - i)%nat as n eqn:En. revert i En. induction n as [|n IH]; intros i En Hi.
  - replace i with es by lia. cbn. rewrite drop_ge by done. split_and!; done || lia.
  - cbn [skip_ws_loop]. rewrite (proj2 (Nat.ltb_lt i es)) by lia. cbn [andb].
    rewrite char_drop by done. destruct (drop i s) as [|c r] eqn:E.
    { apply (f_equal length) in E. rewrite length_drop in E. cbn in E. unfold es in *. lia. }
    destruct (char_in i c r E) as (_ & _ & Er & _). cbn [char_at hd].
    destruct (among whitespace c) eqn:Ec; [|rewrite E; split_and!; done || lia].
    destruct (IH (S i)) as (H1 & H2 & H3); [lia|lia|]. split_and!; [lia|lia| |done].
    intros l. rewrite <- (H2 l), Er. by apply spells_blank.
Qed.

(** At position [i] the tokens [l] are still to be read. *)
Definition rem (i : nat) (l : list token) : Prop := (i <= es)%nat /\ spells l (drop i s).

(** The word [w] stands from [q] to [e]. *)
Definition span (w : word) (q e : nat) : Prop :=
  w <> [] /\ Forall (fun c => wordchar c = true) w /\ (e = q + length w)%nat /\ (e <= es)%nat /\
  drop q s = w ++ drop e s /\ wordchar (char_at (drop e s)) = false.

Lemma rem_skip i l :
  rem i l -> rem (skip_ws buf es i) l /\ among whitespace (char_at (drop (skip_ws buf es i) s)) = false.
Proof. intros [Hi Hs]. destruct (skip_ws_spec i Hi) as (H1 & H2 & H3). split; [|done]. split; [lia|by apply H2]. Qed.

Lemma skip_word_spec w i r :
  drop i s = w ++ r -> Forall (fun c => wordchar c = true) w -> wordchar (char_at r) = false ->
  skip_word buf es i = (i + length w)%nat /\ drop (i + length w) s = r.
Proof.
  intros E Hw Hr. assert (Hl : (length w + length r = es - i)%nat).
  { apply (f_equal length) in E. rewrite length_drop, length_app in E. done. }
  unfold skip_word. rewrite <- Hl. clear Hl. revert i E. induction w as [|c w IH]; intros i E.
  - cbn [app length plus] in *. rewrite Nat.add_0_r. split; [|done]. destruct r as [|c r]; [done|].
    destruct (char_in i c r E) as (Hc & Hi & _ & Hc0). cbn [length skip_word_loop].
    rewrite (proj2 (Nat.ltb_lt _ _) Hi), Hc. cbn [char_at hd] in Hr. unfold wordchar in Hr.
    rewrite (proj2 (Z.eqb_neq c 0) Hc0) in Hr. cbn [negb andb] in *. by rewrite Hr.
  - cbn [app] in E. destruct (char_in i c (w ++ r) E) as (Hc & Hi & E' & Hc0).
    apply Forall_cons_1 in Hw as [Hcw Hw]. unfold wordchar in Hcw. rewrite (proj2 (Z.eqb_neq c 0) Hc0) in Hcw.
    cbn [length plus skip_word_loop]. rewrite (proj2 (Nat.ltb_lt _ _) Hi), Hc. cbn [negb andb] in *.
    rewrite Hcw. destruct (IH Hw (S i) E') as [-> <-]. split; [lia|]. f_equal. lia.
Qed.

Definition tok_kind (t : token) : Z := match t with T_word _ => ch "a" | T_sym c => c end.

Lemma wordchar_not c x : wordchar c = true -> x ∈ symbols -> (c =? x) = false.
Proof.
  unfold wordchar. rewrite !andb_true_iff, !negb_true_iff. intros [_ H] Hx. apply Z.eqb_neq. intros ->.
  assert (among symbols x = true); [|congruence]. apply among_iff; [|done].
  apply symbols_nul.
Qed.

Lemma token_at_word j w r :
  drop j s = w ++ r -> w <> [] -> Forall (fun c => wordchar c = true) w -> wordchar (char_at r) = false ->
  token_at buf es j = (ch "a", j + length w)%nat /\ span w j (j + length w)%nat /\ drop (j + length w) s = r.
Proof.
  intros E Hw Hf Hr. destruct (skip_word_spec w j r E Hf Hr) as [Hk Ed]. destruct w as [|c w]; [done|].
  cbn [app] in E. destruct (char_in j c _ E) as (Hc & Hj & _ & Hc0). pose proof (Forall_cons_1 _ _ _ Hf) as [Hcw _].
  split_and!; [|split_and!|]; try done.
  - unfold token_at. rewrite Hc, (proj2 (Z.eqb_neq c 0) Hc0), Hk.
    assert (Hn : forall x, x ∈ symbols -> (c =? x) = false) by (intros; by apply wordchar_not).
    rewrite !Hn by (unfold symbols; rewrite !elem_of_cons; tauto). done.
  - apply (f_equal length) in E. cbn in E. rewrite length_drop, length_app in E. cbn [length]. unfold es in *. lia.
  - by rewrite Ed.
  - by rewrite Ed.
Qed.

Lemma token_at_ok j t l :
  (j <= es)%nat -> spells (t :: l) (drop j s) -> among whitespace (char_at (drop j s)) = false ->
  exists e, token_at buf es j = (tok_kind t, e) /\ rem e l /\ (forall w, t = T_word w -> span w j e).
Proof.
  intros Hj Hs Hws. remember (drop j s) as d eqn:E. symmetry in E.
  inversion Hs as [|? ? ? Hb|w l' r Hw Hf Hr Hl|c l' r Hin Hl|l' r Hgt Hl|l' r Hl]; clear Hs; simplify_eq/=.
  - match goal with H : _ :: _ = drop _ s |- _ => rewrite <- H in Hws end. cbn in Hws. congruence.
  - destruct (token_at_word j w r) as (K1 & K2 & K3); [congruence|done..|].
    exists (j + length w)%nat. split_and!; [done| |by intros ? [= <-]]. split; [apply K2|by rewrite K3].
  - destruct (char_in j c r) as (Hc & Hlt & Er & Hc0); [congruence|]. exists (S j).
    split_and!; [|split; [lia|congruence]|done]. unfold token_at. rewrite Hc, (proj2 (Z.eqb_neq c 0) Hc0).
    rewrite !elem_of_cons in Hin. by destruct Hin as [->|[->|[->|[->|[->|[->|?%not_elem_of_nil]]]]]].
  - destruct (char_in j (ch ">") r) as (Hc & Hlt & Er & _); [congruence|]. exists (S j).
    split_and!; [|split; [lia|congruence]|done]. unfold token_at. rewrite Hc. cbn -[char].
    rewrite char_drop, Er by lia. by rewrite (proj2 (Z.eqb_neq _ _) Hgt).
  - destruct (char_in j (ch ">") (ch ">" :: r)) as (Hc & Hlt & Er & _); [congruence|].
    destruct (char_in (S j) (ch ">") r Er) as (Hc' & Hlt' & Er' & _). exists (S (S j)).
    split_and!; [|split; [lia|congruence]|done]. unfold token_at. by rewrite Hc, Hc'.
Qed.

Lemma gettoken_ok i t l :
  rem i (t :: l) ->
  exists q e j, gettoken buf es i = Ok (tok_kind t, q, e) j /\ rem j l /\ (forall w, t = T_word w -> span w q e).
Proof.
  intros [[Hj Hs] Hws]%rem_skip. destruct (token_at_ok _ _ _ Hj Hs Hws) as (e & Ht & Hr & Hw).
  exists (skip_ws buf es i), e, (skip_ws buf es e). unfold gettoken. rewrite bind_gets, Ht.
  split_and!; [done|by apply rem_skip|done].
Qed.

Lemma spells_nil d : spells [] d -> among whitespace (char_at d) = false -> d = [].
Proof. inversion 1; [done|]. cbn. congruence. Qed.

Lemma rem_nil_skip i : rem i [] -> skip_ws buf es i = es.
Proof.
  intros [[Hj Hs] Hws]%rem_skip. apply spells_nil in Hs; [|done]. apply (f_equal length) in Hs.
  rewrite length_drop in Hs. cbn in Hs. unfold es in *. lia.
Qed.

Lemma char_end : char buf es = 0.
Proof. rewrite char_drop by lia. by rewrite drop_ge. Qed.

Lemma gettoken_end i : rem i [] -> exists q e j, gettoken buf es i = Ok (0, q, e) j /\ rem j [].
Proof.
  intros Hr. pose proof (rem_nil_skip i Hr) as E. apply rem_skip in Hr as [Hr _]. exists es, es, es.
  unfold gettoken. rewrite bind_gets, E. unfold token_at. rewrite char_end. cbn -[skip_ws].
  rewrite E in Hr. rewrite (rem_nil_skip es Hr). done.
Qed.

(** The first character of the next token. *)
Definition first_char (l : list token) : Z :=
  match l with
  | [] => 0
  | T_word w :: _ => char_at w
  | T_sym c :: _ => if c =? ch "+" then ch ">" else c
  end.

Lemma peek_ok toks i l :
  rem i l ->
  exists j, peek buf es toks i = Ok (negb (first_char l =? 0) && among toks (first_char l)) j /\ rem j l.
Proof.
  intros [[Hj Hs] Hws]%rem_skip. exists (skip_ws buf es i). split; [|done].
  unfold peek. rewrite bind_modify, bind_gets. unfold ret, id. rewrite char_drop by done.
  assert (E : char_at (drop (skip_ws buf es i) s) = first_char l); [|by rewrite E].
  inversion Hs as [|? ? ? Hb|w l' r Hw Hf Hr Hl|c l' r Hin Hl|l' r Hgt Hl|l' r Hl]; clear Hs; simplify_eq/=; try done.
  - match goal with H : _ :: _ = drop _ s |- _ => rewrite <- H in Hws end. cbn in Hws. congruence.
  - by destruct w.
  - rewrite !elem_of_cons in Hin. by destruct Hin as [->|[->|[->|[->|[->|[->|?%not_elem_of_nil]]]]]].
Qed.

Lemma rem_length i l : rem i l -> (length l <= es)%nat.
Proof. intros [Hi Hs]. apply spells_length in Hs. rewrite length_drop in Hs. unfold es. lia. Qed.

Lemma spells_word w l d : spells (T_word w :: l) d -> wordchar (char_at w) = true.
Proof.
  remember (T_word w :: l) as l' eqn:E. induction 1 as [|? ? ? _ _ IH|w' l'' r Hw Hf _ _ _| | |]; simplify_eq; [auto|].
  destruct w; [done|]. by apply Forall_cons_1 in Hf as [Hf _].
Qed.

Lemma peek_true toks i l :
  rem i l -> 0 ∉ toks -> first_char l ∈ toks -> exists j, peek buf es toks i = Ok true j /\ rem j l.
Proof.
  intros Hr H0 Hl. destruct (peek_ok toks i l Hr) as (j & -> & Hj). exists j. split; [|done]. f_equal.
  rewrite (proj2 (among_iff toks _ H0) Hl), (proj2 (Z.eqb_neq _ _)); [done|congruence].
Qed.

Lemma peek_false toks i l :
  rem i l -> 0 ∉ toks -> first_char l ∉ toks -> exists j, peek buf es toks i = Ok false j /\ rem j l.
Proof.
  intros Hr H0 Hl. destruct (peek_ok toks i l Hr) as (j & -> & Hj). exists j. split; [|done]. f_equal.
  apply andb_false_iff. right. apply not_true_is_false. by rewrite among_iff.
Qed.

Lemma first_char_nonzero i t l : rem i (t :: l) -> first_char (t :: l) <> 0.
Proof.
  intros [_ Hs]. remember (t :: l) as l' eqn:E. revert E.
  induction Hs as [|? ? ? _ _ IH|w l' r Hw Hf _ _ _|c l' r Hin _ _| |]; intros E; simplify_eq; try done; [by apply IH|cbn..].
  - destruct w; [done|]. apply Forall_cons_1 in Hf as [Hf _]. cbn. intros ->. done.
  - rewrite !elem_of_cons in Hin. by destruct Hin as [->|[->|[->|[->|[->|[->|?%not_elem_of_nil]]]]]].
Qed.

(** Token lists that can be written. *)
Definition valid (l : list token) : Prop := exists d, spells l d.

Lemma rem_valid i l : rem i l -> valid l.
Proof. intros [_ Hs]. by eexists. Qed.

Lemma valid_app l l' : valid (l ++ l') -> valid l'.
Proof.
  induction l as [|t l IH]; [done|]. intros [d Hs]. apply IH. cbn in Hs. remember (t :: l ++ l') as x eqn:E.
  induction Hs; simplify_eq; by eauto || eexists.
Qed.

Lemma word_first_char w l toks : valid (T_word w :: l) -> toks ⊆ symbols -> first_char (T_word w :: l) ∉ toks.
Proof.
  intros [d Hs%spells_word] Hsub Hx%Hsub. pose proof (wordchar_not _ _ Hs Hx) as E. by rewrite Z.eqb_refl in E.
Qed.

(** ** Parsing *)

(** The parsed command [c] is the command [t], its words in their places. *)
Inductive sees : cmd -> scmd -> Prop :=
| see_exec argv ws : Forall2 (fun p w => span w p.1 p.2) argv ws -> sees (EXEC argv) (Exec ws)
| see_redir c t q e w mode fd : sees c t -> span w q e -> sees (REDIR c q e mode fd) (Redir t w mode fd)
| see_pipe l r l' r' : sees l l' -> sees r r' -> sees (PIPE l r) (Pipe l' r')
| see_list l r l' r' : sees l l' -> sees r r' -> sees (LIST l r) (List l' r')
| see_back c t : sees c t -> sees (BACK c) (Back t).

Lemma sees_redir c t q e k w :
  sees c t -> span w q e -> k ∈ [ch "<"; ch ">"; ch "+"] ->
  sees (if k =? ch "<" then REDIR c q e O_RDONLY 0
        else if k =? ch ">" then REDIR c q e (Z.lor (Z.lor O_WRONLY O_CREATE) O_TRUNC) 1
        else if k =? ch "+" then REDIR c q e (Z.lor O_WRONLY O_CREATE) 1 else c)
       (with_redir t (k, w)).
Proof.
  intros Hc Hw Hk. rewrite !elem_of_cons in Hk. 
  destruct Hk as [->|[->|[->|?%not_elem_of_nil]]]; [..|done]; by constructor.
Qed.

Lemma parseredirs_ok n c t rs i l :
  rem i (redir_tokens rs ++ l) -> redirs_ok rs -> first_char l ∉ [ch "<"; ch ">"] -> (length rs <= n)%nat -> sees c t ->
  exists c' j, parseredirs_loop buf es n c i = Ok c' j /\ rem j l /\ sees c' (foldl with_redir t rs).
Proof.
  revert n c t i. induction rs as [|[k w] rs IH]; intros n c t i Hr Hok Hl Hn Hc.
  - destruct (peek_false [ch "<"; ch ">"] i l Hr) as (j & Hp & Hj); [compute_done|done|].
    exists c, j. split_and!; [|done..]. destruct n; cbn [parseredirs_loop]; by run Hp.
  - apply Forall_cons in Hok as [Hk Hok]. cbn in Hk.
    change (redir_tokens ((k, w) :: rs) ++ l) with (T_sym k :: T_word w :: redir_tokens rs ++ l) in Hr.
    destruct n as [|n]; [cbn in Hn; lia|].
    destruct (peek_true [ch "<"; ch ">"] i _ Hr) as (i1 & Hp & Hr1); [compute_done| |].
    { rewrite !elem_of_cons in *. destruct Hk as [->|[->|[->|?%not_elem_of_nil]]]; cbn; tauto. }
    destruct (gettoken_ok i1 _ _ Hr1) as (q1 & e1 & i2 & Ht & Hr2 & _).
    destruct (gettoken_ok i2 _ _ Hr2) as (q2 & e2 & i3 & Hw & Hr3 & Hsp). specialize (Hsp w eq_refl).
    destruct (IH n _ _ i3 Hr3 Hok Hl ltac:(cbn in Hn; lia) (sees_redir c t q2 e2 k w Hc Hsp Hk)) as (c' & j & HL & Hj & Hs).
    exists c', j. split_and!; [|done..]. cbn [parseredirs_loop]. run Hp. run Ht. run Hw. exact HL.
Qed.

(** Writing an argument under the redirections around it. *)
Lemma sees_set_arg r ws rs q e w :
  sees r (foldl with_redir (Exec ws) rs) -> span w q e ->
  sees (set_arg q e r) (foldl with_redir (Exec (ws ++ [w])) rs).
Proof.
  revert r. induction rs as [|k rs IH] using rev_ind; intros r Hr Hw.
  - cbn in *. inversion Hr; subst. constructor. apply Forall2_app; [done|]. by constructor.
  - rewrite foldl_app in *. cbn [foldl] in *. unfold with_redir at 1 in Hr. inversion Hr; subst. cbn [set_arg].
    unfold with_redir at 1. constructor; [by apply IH|done].
Qed.

(** What can stand behind a command. *)
Definition ends_exec : list Z := [0; ch "|"; ch ")"; ch "&"; ch ";"].

Lemma arg_tokens_cons w rs args l :
  arg_tokens ((w, rs) :: args) ++ l = T_word w :: redir_tokens rs ++ arg_tokens args ++ l.
Proof. unfold arg_tokens. cbn. by rewrite <- !app_assoc. Qed.

Lemma args_first_char args l toks :
  valid (arg_tokens args ++ l) -> toks ⊆ symbols -> first_char l ∉ toks -> first_char (arg_tokens args ++ l) ∉ toks.
Proof.
  destruct args as [|[w rs] args]; [done|]. rewrite arg_tokens_cons. intros Hr Hsub _.
  by eapply word_first_char.
Qed.

Lemma parseexec_loop_ok n argc r ws rs0 args i l :
  rem i (arg_tokens args ++ l) -> Forall (fun a => redirs_ok a.2) args -> first_char l ∈ ends_exec ->
  (length args < n)%nat -> (argc + length args < MAXARGS)%nat ->
  sees r (foldl with_redir (Exec ws) rs0) ->
  exists c j, parseexec_loop buf es n argc r i = Ok c j /\ rem j l /\
    sees c (foldl with_redir (Exec (ws ++ map fst args)) (rs0 ++ concat (map snd args))).
Proof.
  revert n argc r ws rs0 i. induction args as [|[w rs] args IH]; intros n argc r ws rs0 i Hr Hok Hl Hn Ha Hs;
    (destruct n as [|n]; [cbn in Hn; lia|]); cbn [parseexec_loop].
  - cbn [map concat]. rewrite !app_nil_r. change (arg_tokens [] ++ l) with l in Hr. destruct l as [|t l].
    + destruct (peek_false [ch "|"; ch ")"; ch "&"; ch ";"] i [] Hr) as (j & Hp & Hj); [compute_done..|].
      destruct (gettoken_end j Hj) as (q & e & j' & Ht & Hj'). exists r, j'. split_and!; [|done..].
      run Hp. cbv beta iota. by run Ht.
    + destruct (peek_true [ch "|"; ch ")"; ch "&"; ch ";"] i (t :: l) Hr) as (j & Hp & Hj); [compute_done| |].
      { unfold ends_exec in Hl. apply elem_of_cons in Hl as [Hl|Hl]; [|done]. by apply first_char_nonzero in Hr. }
      exists r, j. split_and!; [|done..]. by run Hp.
  - rewrite arg_tokens_cons in Hr. apply Forall_cons in Hok as [Hrs Hok]. cbn in Hrs, Hn, Ha.
    destruct (peek_false [ch "|"; ch ")"; ch "&"; ch ";"] i _ Hr) as (i1 & Hp & Hr1); [compute_done| |].
    { eapply word_first_char; [by eapply rem_valid|compute_done]. }
    destruct (gettoken_ok i1 _ _ Hr1) as (q & e & i2 & Ht & Hr2 & Hsp). specialize (Hsp w eq_refl).
    pose proof (sees_set_arg _ _ _ q e w Hs Hsp) as Hs2.
    destruct (parseredirs_ok es (set_arg q e r) (foldl with_redir (Exec (ws ++ [w])) rs0) rs i2 (arg_tokens args ++ l)
      Hr2 Hrs) as (r' & i3 & Hrd & Hr3 & Hs3); [| |done|].
    { apply args_first_char; [by eapply valid_app, rem_valid|compute_done|].
      unfold ends_exec in Hl. rewrite !elem_of_cons in Hl.
      destruct Hl as [->|[->|[->|[->|[->|?%not_elem_of_nil]]]]]; [compute_done..|done]. }
    { pose proof (rem_length _ _ Hr2) as HL. rewrite length_app in HL. pose proof (redirs_length rs). lia. }
    destruct (IH n (S argc) r' (ws ++ [w]) (rs0 ++ rs) i3) as (c & j & Hc & Hj & Hs'); [done..|lia|lia|by rewrite foldl_app|].
    exists c, j. split_and!; [|done|].
    + run Hp. cbv beta iota. run Ht. change (tok_kind (T_word w), q, e).1.1 with (ch "a"). change (ch "a" =? 0) with false.
      cbv beta iota. rewrite bind_panic_if by done. rewrite bind_panic_if by (apply Nat.leb_gt; lia). by run Hrd.
    + cbn [map concat fst snd]. by rewrite <- !app_assoc in Hs'.
Qed.

Lemma back_loop_ok n k c t i l :
  rem i (replicate k (T_sym (ch "&")) ++ l) -> first_char l ∉ [ch "&"] -> (k <= n)%nat -> sees c t ->
  exists c' j, back_loop buf es n c i = Ok c' j /\ rem j l /\ sees c' (Nat.iter k Back t).
Proof.
  revert n c t i. induction k as [|k IH]; intros n c t i Hr Hl Hn Hc.
  - destruct (peek_false [ch "&"] i l Hr) as (j & Hp & Hj); [compute_done|done|].
    exists c, j. split_and!; [|done..]. destruct n; cbn [back_loop]; by run Hp.
  - destruct n as [|n]; [lia|]. cbn [replicate app] in Hr.
    destruct (peek_true [ch "&"] i _ Hr) as (i1 & Hp & Hr1); [compute_done|cbn; left|].
    destruct (gettoken_ok i1 _ _ Hr1) as (q & e & i2 & Ht & Hr2 & _).
    destruct (IH n (BACK c) (Back t) i2 Hr2 Hl ltac:(lia) (see_back _ _ Hc)) as (c' & j & HL & Hj & Hs).
    exists c', j. split_and!; [|done|].
    + cbn [back_loop]. run Hp. cbv beta iota. by run Ht.
    + by rewrite Nat.iter_succ_r.
Qed.

End lexer.

Scheme line_mut := Induction for line Sort Prop
  with pipe_mut := Induction for pipe Sort Prop
  with exec_mut := Induction for exec Sort Prop.
Combined Scheme grammar_ind from line_mut, pipe_mut, exec_mut.

(** Decide whether a first character known to be in one set is in another. *)
Ltac follow H :=
  let H' := fresh in pose proof H as H'; unfold ends_exec in H'; rewrite !elem_of_cons in H';
  repeat lazymatch type of H' with
  | _ \/ _ =>
      destruct H' as [H'|H'];
      [solve [cbn [replicate app]; first [rewrite H'; compute_done|cbn; rewrite ?H'; compute_done]]|]
  end; by apply not_elem_of_nil in H'.

Section parse.
Context (s junk : list Z).
Hypothesis Hnul : 0 ∉ s.

Let buf : list Z := s ++ 0 :: junk.
Let es : nat := length s.

(** [parse] reads the tokens [l] and returns the command [t], whatever follows that may. *)
Definition parses (parse : nat -> M nat cmd) (extra : nat) (l : list token) (t : scmd) (follow : list Z) : Prop :=
  forall fuel i r, rem s i (l ++ r) -> first_char r ∈ follow -> (4 * length l + extra <= fuel)%nat ->
    exists c j, parse fuel i = Ok c j /\ rem s j r /\ sees s c t.

Lemma parses_line_end P k :
  parses (parsepipe buf es) 3 (pipe_tokens P) (pipe_cmd P) [0; ch ")"; ch "&"; ch ";"] ->
  parses (parseline buf es) 4 (line_tokens (L_end P k)) (line_cmd (L_end P k)) [0; ch ")"].
Proof.
  intros IH fuel i r Hr Hl Hf. cbn [line_tokens] in *. rewrite <- app_assoc in Hr. rewrite length_app in Hf.
  destruct fuel as [|n]; [lia|].
  destruct (IH n i _ Hr) as (c & i1 & Hc & Hr1 & Hs1); [by destruct k; follow Hl|lia|].
  destruct (back_loop_ok s junk Hnul es k c (pipe_cmd P) i1 r Hr1) as (c' & i2 & Hb & Hr2 & Hs2); [follow Hl| |done|].
  { pose proof (rem_length _ _ _ Hr1) as HL. rewrite length_app, length_replicate in HL. lia. }
  destruct (peek_false s junk Hnul [ch ";"] i2 r Hr2) as (i3 & Hp & Hr3); [compute_done|follow Hl|].
  exists c', i3. split_and!; [|done..]. cbn [parseline]. run Hc. run Hb. by run Hp.
Qed.

Lemma parses_line_seq P k L :
  parses (parsepipe buf es) 3 (pipe_tokens P) (pipe_cmd P) [0; ch ")"; ch "&"; ch ";"] ->
  parses (parseline buf es) 4 (line_tokens L) (line_cmd L) [0; ch ")"] ->
  parses (parseline buf es) 4 (line_tokens (L_seq P k L)) (line_cmd (L_seq P k L)) [0; ch ")"].
Proof.
  intros IH IHL fuel i r Hr Hl Hf. cbn [line_tokens] in *. rewrite <- !app_assoc in Hr. rewrite !length_app in Hf.
  cbn [length app] in *. destruct fuel as [|n]; [lia|].
  destruct (IH n i _ Hr) as (c & i1 & Hc & Hr1 & Hs1); [by destruct k; compute_done|lia|].
  destruct (back_loop_ok s junk Hnul es k c (pipe_cmd P) i1 _ Hr1) as (c' & i2 & Hb & Hr2 & Hs2); [compute_done| |done|].
  { pose proof (rem_length _ _ _ Hr1) as HL. rewrite length_app, length_replicate in HL. lia. }
  destruct (peek_true s junk Hnul [ch ";"] i2 _ Hr2) as (i3 & Hp & Hr3); [compute_done|compute_done|].
  destruct (gettoken_ok s junk Hnul i3 _ _ Hr3) as (q & e & i4 & Ht & Hr4 & _).
  destruct (IHL n i4 _ Hr4 Hl) as (c2 & i5 & Hc2 & Hr5 & Hs5); [lia|].
  exists (LIST c' c2), i5. split_and!; [|done|by constructor].
  cbn [parseline]. run Hc. run Hb. run Hp. cbv beta iota. run Ht. by run Hc2.
Qed.

Lemma parses_pipe_end E :
  parses (parseexec buf es) 2 (exec_tokens E) (exec_cmd E) ends_exec ->
  parses (parsepipe buf es) 3 (pipe_tokens (P_end E)) (pipe_cmd (P_end E)) [0; ch ")"; ch "&"; ch ";"].
Proof.
  intros IH fuel i r Hr Hl Hf. cbn [pipe_tokens] in *. destruct fuel as [|n]; [lia|].
  destruct (IH n i r Hr) as (c & i1 & Hc & Hr1 & Hs1); [follow Hl|lia|].
  destruct (peek_false s junk Hnul [ch "|"] i1 r Hr1) as (i2 & Hp & Hr2); [compute_done|follow Hl|].
  exists c, i2. split_and!; [|done..]. cbn [parsepipe]. run Hc. by run Hp.
Qed.

Lemma parses_pipe_pipe E P :
  parses (parseexec buf es) 2 (exec_tokens E) (exec_cmd E) ends_exec ->
  parses (parsepipe buf es) 3 (pipe_tokens P) (pipe_cmd P) [0; ch ")"; ch "&"; ch ";"] ->
  parses (parsepipe buf es) 3 (pipe_tokens (P_pipe E P)) (pipe_cmd (P_pipe E P)) [0; ch ")"; ch "&"; ch ";"].
Proof.
  intros IH IHP fuel i r Hr Hl Hf. cbn [pipe_tokens] in *. rewrite <- app_assoc in Hr. rewrite length_app in Hf.
  cbn [length app] in *. destruct fuel as [|n]; [lia|].
  destruct (IH n i _ Hr) as (c & i1 & Hc & Hr1 & Hs1); [compute_done|lia|].
  destruct (peek_true s junk Hnul [ch "|"] i1 _ Hr1) as (i2 & Hp & Hr2); [compute_done|compute_done|].
  destruct (gettoken_ok s junk Hnul i2 _ _ Hr2) as (q & e & i3 & Ht & Hr3 & _).
  destruct (IHP n i3 _ Hr3 Hl) as (c2 & i4 & Hc2 & Hr4 & Hs4); [lia|].
  exists (PIPE c c2), i4. split_and!; [|done|by constructor].
  cbn [parsepipe]. run Hc. run Hp. cbv beta iota. run Ht. by run Hc2.
Qed.

Lemma parses_simple rs args :
  exec_ok (E_simple rs args) ->
  parses (parseexec buf es) 2 (exec_tokens (E_simple rs args)) (exec_cmd (E_simple rs args)) ends_exec.
Proof.
  intros (Hrs & Hargs & Hlen) fuel i r Hr Hl Hf. cbn [exec_tokens exec_cmd] in *. rewrite <- app_assoc in Hr.
  destruct fuel as [|n]; [lia|].
  assert (Ha : forall toks, toks ⊆ symbols -> first_char r ∉ toks -> first_char (arg_tokens args ++ r) ∉ toks).
  { intros toks Hsub Ht. apply args_first_char; [by eapply valid_app, rem_valid|done|done]. }
  destruct (peek_false s junk Hnul [ch "("] i _ Hr) as (i1 & Hp & Hr1); [compute_done| |].
  { destruct rs as [|[k w] rs]; [cbn; apply Ha; [compute_done|follow Hl]|]. cbn.
    apply Forall_cons in Hrs as [Hk _]. cbn in Hk. follow Hk. }
  pose proof (rem_length _ _ _ Hr1) as HL. rewrite !length_app in HL. pose proof (redirs_length rs).
  destruct (parseredirs_ok s junk Hnul es (EXEC []) (Exec []) rs i1 _ Hr1 Hrs) as (c & i2 & Hc & Hr2 & Hs2);
    [apply Ha; [compute_done|follow Hl]|fold es in HL; lia|by do 2 constructor|].
  assert (length args <= length (arg_tokens args))%nat.
  { clear. unfold arg_tokens. induction args as [|[w rs] args IH]; cbn; [lia|]. rewrite length_app. lia. }
  destruct (parseexec_loop_ok s junk Hnul (S es) 0 c [] rs args i2 r Hr2 Hargs Hl) as (c' & j & Hc' & Hj & Hs');
    [fold es in HL; lia|done|done|].
  exists c', j. split_and!; [|done..]. cbn [parseexec]. run Hp. cbv beta iota. by run Hc.
Qed.

Lemma parses_block L rs :
  redirs_ok rs -> parses (parseline buf es) 4 (line_tokens L) (line_cmd L) [0; ch ")"] ->
  parses (parseexec buf es) 2 (exec_tokens (E_block L rs)) (exec_cmd (E_block L rs)) ends_exec.
Proof.
  intros Hrs IH fuel i r Hr Hl Hf. cbn [exec_tokens exec_cmd app] in *. rewrite <- app_assoc in Hr.
  cbn [length app] in *. rewrite length_app in Hf. cbn [length] in Hf. destruct fuel as [|[|n]]; [lia..|].
  destruct (peek_true s junk Hnul [ch "("] i _ Hr) as (i1 & Hp & Hr1); [compute_done|compute_done|].
  destruct (peek_true s junk Hnul [ch "("] i1 _ Hr1) as (i2 & Hp2 & Hr2); [compute_done|compute_done|].
  destruct (gettoken_ok s junk Hnul i2 _ _ Hr2) as (q & e & i3 & Ht & Hr3 & _).
  destruct (IH n i3 _ Hr3) as (c & i4 & Hc & Hr4 & Hs4); [compute_done|lia|].
  destruct (peek_true s junk Hnul [ch ")"] i4 _ Hr4) as (i5 & Hp5 & Hr5); [compute_done|compute_done|].
  destruct (gettoken_ok s junk Hnul i5 _ _ Hr5) as (q' & e' & i6 & Ht6 & Hr6 & _).
  pose proof (rem_length _ _ _ Hr6) as HL. rewrite !length_app in HL. pose proof (redirs_length rs). fold es in HL.
  destruct (parseredirs_ok s junk Hnul es c (line_cmd L) rs i6 _ Hr6 Hrs) as (c' & j & Hc' & Hj & Hs'); [follow Hl|lia|done|].
  exists c', j. split_and!; [|done..]. cbn [parseexec]. run Hp. cbv beta iota. cbn [parseblock].
  run Hp2. rewrite bind_panic_if by done. run Ht. run Hc. run Hp5. rewrite bind_panic_if by done. by run Ht6.
Qed.

Lemma parses_grammar :
  (forall L, line_ok L -> parses (parseline buf es) 4 (line_tokens L) (line_cmd L) [0; ch ")"]) /\
  (forall P, pipe_ok P -> parses (parsepipe buf es) 3 (pipe_tokens P) (pipe_cmd P) [0; ch ")"; ch "&"; ch ";"]) /\
  (forall E, exec_ok E -> parses (parseexec buf es) 2 (exec_tokens E) (exec_cmd E) ends_exec).
Proof.
  apply grammar_ind.
  - intros P IH k HP. by apply parses_line_end, IH.
  - intros P IH k L IHL [HP HL]. apply parses_line_seq; auto.
  - intros E IH HE. by apply parses_pipe_end, IH.
  - intros E IH P IHP [HE HP]. apply parses_pipe_pipe; auto.
  - intros rs args. apply parses_simple.
  - intros L IH rs [HL Hrs]. apply parses_block; auto.
Qed.

(** ** Cutting out the words *)

(** The positions that [nulterminate] clears. *)
Fixpoint cmd_ends (c : cmd) : list nat :=
  match c with
  | EXEC argv => map snd argv
  | REDIR c _ efile _ _ => cmd_ends c ++ [efile]
  | PIPE l r | LIST l r => cmd_ends l ++ cmd_ends r
  | BACK c => cmd_ends c
  end.

Definition clear (es : list nat) (b : list Z) : list Z := foldl (fun b e => <[e := 0]> b) b es.

Lemma nulterminate_clear c b : nulterminate c b = clear (cmd_ends c) b.
Proof.
  unfold clear. revert b. induction c as [argv|c IH f e m d|l IHl r IHr|l IHl r IHr|c IH]; intros b;
    cbn [nulterminate cmd_ends]; rewrite ?foldl_app, ?IHl, ?IHr, ?IH; try done.
  revert b. induction argv as [|a argv IH]; intros b; [done|]. cbn. apply IH.
Qed.

Lemma lookup_clear_other l b k : k ∉ l -> clear l b !! k = b !! k.
Proof.
  unfold clear. revert b. induction l as [|e l IH]; intros b Hk; [done|]. apply not_elem_of_cons in Hk as [Hke Hk].
  cbn. rewrite IH by done. by apply list_lookup_insert_ne.
Qed.

Lemma lookup_clear l b e : e ∈ l -> (e < length b)%nat -> clear l b !! e = Some 0.
Proof.
  unfold clear. revert b. induction l as [|x l IH]; intros b He Hlen; [by apply not_elem_of_nil in He|]. cbn.
  destruct (decide (e ∈ l)) as [Hin|Hout]; [apply IH; [done|by rewrite length_insert]|].
  apply elem_of_cons in He as [->|He]; [|done]. fold (clear l (<[x := 0]> b)).
  rewrite lookup_clear_other by done. by apply list_lookup_insert_eq.
Qed.

Lemma cstring_word w r : 0 ∉ w -> cstring (w ++ 0 :: r) = w.
Proof.
  induction w as [|c w IH]; intros H0; [done|]. apply not_elem_of_cons in H0 as [Hc H0]. cbn.
  rewrite (proj2 (Z.eqb_neq c 0)) by congruence. by rewrite IH.
Qed.

Lemma wordchars_nonzero w : Forall (fun c => wordchar c = true) w -> 0 ∉ w.
Proof. intros Hf Hin. by apply (proj1 (Forall_forall _ _) Hf) in Hin. Qed.

(** Every cleared position is behind a word. *)
Lemma sees_ends c t e : sees s c t -> e ∈ cmd_ends c -> (e <= es)%nat /\ wordchar (char_at (drop e s)) = false.
Proof.
  induction 1 as [argv ws Hf|c t q e' w m d _ IH (? & ? & ? & ? & ? & ?)|l r l' r' _ IHl _ IHr|l r l' r' _ IHl _ IHr|c t _ IH];
    cbn [cmd_ends]; rewrite ?elem_of_app.
  - intros ([q e'] & -> & Hin)%list_elem_of_fmap. apply (list_elem_of_lookup_1) in Hin as [k Hk].
    destruct (Forall2_lookup_l _ _ _ _ _ Hf Hk) as (w & _ & ? & ? & ? & ? & ? & ?). done.
  - intros [He| ->%list_elem_of_singleton]; [by apply IH|done].
  - intros [He|He]; auto.
  - intros [He|He]; auto.
  - done.
Qed.

Lemma span_view l (w : list Z) q e :
  span s w q e -> e ∈ l -> (forall x, x ∈ l -> (x <= es)%nat /\ wordchar (char_at (drop x s)) = false) ->
  cstring (drop q (clear l buf)) = w.
Proof.
  intros (Hw & Hf & He & Hle & Hd & _) Hin Hl.
  assert (E : drop q (clear l buf) = w ++ 0 :: drop (S e) (clear l buf)).
  { rewrite <- (take_drop (length w) (drop q _)). f_equal.
    - apply list_eq. intros k. destruct (decide (k < length w)%nat) as [Hk|Hk].
      + rewrite lookup_take_lt, lookup_drop by done. 
        assert (Hs : s !! (q + k)%nat = w !! k) by (rewrite <- lookup_drop, Hd; by apply lookup_app_l).
        rewrite lookup_clear_other.
        * unfold buf. rewrite lookup_app_l by (subst e; fold es; lia). done.
        * intros Hx. apply Hl in Hx as [_ Hx]. destruct (lookup_lt_is_Some_2 w k Hk) as [c Hc].
          rewrite Hc in Hs. rewrite (drop_S _ _ _ Hs) in Hx. cbn in Hx.
          apply (proj1 (Forall_lookup _ _) Hf) in Hc. congruence.
      + rewrite lookup_ge_None_2; [by rewrite lookup_ge_None_2 by lia|]. rewrite length_take. lia.
    - rewrite drop_drop. replace (q + length w)%nat with e by lia.
      apply drop_S, lookup_clear; [done|]. unfold buf. rewrite length_app. cbn. fold es. lia. }
  rewrite E. apply cstring_word, wordchars_nonzero, Hf.
Qed.

Lemma sees_view l c t :
  sees s c t -> cmd_ends c ⊆ l ->
  (forall x, x ∈ l -> (x <= es)%nat /\ wordchar (char_at (drop x s)) = false) ->
  view (clear l buf) c = t.
Proof.
  intros Hs Hsub Hl. 
  induction Hs as [argv ws Hf|c t q e w m d _ IH Hsp|c1 c2 l' r' _ IHl _ IHr|c1 c2 l' r' _ IHl _ IHr|c t _ IH];
    cbn [cmd_ends view] in *.
  - f_equal. clear -Hf Hsub Hl. induction Hf as [|[q e] w argv ws Hsp _ IH]; [done|]. cbn in *.
    f_equal; [eapply span_view; [exact Hsp|apply Hsub; left|done]|]. apply IH. intros x Hx. apply Hsub. by right.
  - rewrite IH; [f_equal|intros x Hx; apply Hsub, elem_of_app; by left].
    eapply span_view; [exact Hsp|apply Hsub, elem_of_app; right; left|done].
  - rewrite IHl, IHr; [done|intros x Hx; apply Hsub, elem_of_app..]; [by right|by left].
  - rewrite IHl, IHr; [done|intros x Hx; apply Hsub, elem_of_app..]; [by right|by left].
  - by rewrite IH.
Qed.

(** ** What is accepted *)

(** [m] ends, in a call of [panic] or with a result that satisfies [Q]. *)
Definition ends_with {A} (m : M nat A) (Q : A -> nat -> Prop) (i : nat) : Prop :=
  match m i with Ok a j => Q a j | Panic _ => True | _ => False end.

Lemma ends_bind {A B} (m : M nat A) (f : A -> M nat B) Q i :
  ends_with m (fun a j => ends_with (f a) Q j) i -> ends_with (bind m f) Q i.
Proof. unfold ends_with, bind. by destruct (m i). Qed.

Lemma ends_run {A B} (m : M nat A) (f : A -> M nat B) Q i a j :
  m i = Ok a j -> ends_with (f a) Q j -> ends_with (bind m f) Q i.
Proof. intros E H. apply ends_bind. unfold ends_with at 1. by rewrite E. Qed.

Lemma ends_panic_if {B} b msg (f : unit -> M nat B) Q i :
  (b = false -> ends_with (f tt) Q i) -> ends_with (bind (panic_if b msg) f) Q i.
Proof. destruct b; [done|]. intros H. by apply H. Qed.

Lemma ends_mono {A} (m : M nat A) (Q Q' : A -> nat -> Prop) i :
  ends_with m Q i -> (forall a j, Q a j -> Q' a j) -> ends_with m Q' i.
Proof. unfold ends_with. destruct (m i); naive_solver. Qed.

(** A token that is not a word is one of the symbols. *)
Lemma sym_valid c l : valid (T_sym c :: l) -> c ∈ [ch "|"; ch "("; ch ")"; ch ";"; ch "&"; ch "<"; ch ">"; ch "+"].
Proof.
  intros [d Hs]. remember (T_sym c :: l) as x eqn:E.
  induction Hs as [| |?|c' l' r Hin _ _| |]; simplify_eq; auto; [|compute_done..].
  rewrite !elem_of_cons in *. tauto.
Qed.

(** [peek] says whether the next token is one of the symbols that start so. *)
Lemma peek_cases toks i l :
  rem s i l -> toks ⊆ symbols ->
  exists b j, peek buf es toks i = Ok b j /\ rem s j l /\
    if b : bool then exists c l', l = T_sym c :: l' /\ first_char l ∈ toks else first_char l ∉ toks.
Proof.
  intros Hr Hsub. assert (H0 : 0 ∉ toks) by (intros ?%Hsub%symbols_nul; done).
  destruct (decide (first_char l ∈ toks)) as [Hin|Hout].
  - destruct (peek_true s junk Hnul toks i l Hr H0 Hin) as (j & Hp & Hj). exists true, j. split_and!; [done..|].
    destruct l as [|[w|c] l]; [done| |by exists c, l]. by apply word_first_char in Hin; [|eapply rem_valid|].
  - destruct (peek_false s junk Hnul toks i l Hr H0 Hout) as (j & Hp & Hj). by exists false, j.
Qed.

(** [gettoken] for a word, and for anything else. *)
Lemma gettoken_cases i l :
  rem s i l ->
  exists k q e j, gettoken buf es i = Ok (k, q, e) j /\
    match l with
    | [] => k = 0 /\ rem s j []
    | T_word w :: l' => k = ch "a" /\ rem s j l' /\ span s w q e
    | T_sym c :: l' => k = c /\ rem s j l' /\ k <> ch "a" /\ k <> 0
    end.
Proof.
  intros Hr. destruct l as [|t l].
  - destruct (gettoken_end s junk Hnul i Hr) as (q & e & j & Ht & Hj). by exists 0, q, e, j.
  - destruct (gettoken_ok s junk Hnul i t l Hr) as (q & e & j & Ht & Hj & Hw). exists (tok_kind t), q, e, j.
    split; [done|]. destruct t as [w|c]; [by auto|]. cbn. pose proof (sym_valid _ _ (rem_valid _ _ _ Hr)) as Hc.
    split_and!; [done..| |]; intros ->; revert Hc; compute_done.
Qed.

Lemma sym_first k l (toks : list Z) : first_char (T_sym k :: l) ∈ toks -> (k = ch "+" /\ ch ">" ∈ toks) \/ k ∈ toks.
Proof. cbn. destruct (Z.eqb_spec k (ch "+")); auto. Qed.

Lemma sym_is k l x : first_char (T_sym k :: l) ∈ [x] -> x <> ch ">" -> k = x.
Proof. intros [[_ H%list_elem_of_singleton]|H%list_elem_of_singleton]%sym_first; congruence. Qed.

Lemma redirs_sound n c i l :
  rem s i l -> (length l <= n)%nat ->
  ends_with (parseredirs_loop buf es n c) (fun c' j => exists rs r, l = redir_tokens rs ++ r /\ redirs_ok rs /\
    rem s j r /\ forall t, sees s c t -> sees s c' (foldl with_redir t rs)) i.
Proof.
  revert c i l. induction n as [|n IH]; intros c i l Hr Hn; cbn [parseredirs_loop];
    destruct (peek_cases [ch "<"; ch ">"] i l Hr) as (b & i1 & Hp & Hr1 & Hb); try compute_done;
    (eapply ends_run; [exact Hp|]); destruct b.
  - destruct Hb as (c' & l' & -> & _). cbn in Hn. lia.
  - exists [], l. by split_and!; [|constructor|..].
  - destruct Hb as (k & l' & -> & Hk).
    destruct (gettoken_cases i1 _ Hr1) as (k' & q1 & e1 & i2 & Ht & -> & Hr2 & _). eapply ends_run; [exact Ht|].
    destruct (gettoken_cases i2 _ Hr2) as (k2 & q2 & e2 & i3 & Hw & Hcase). eapply ends_run; [exact Hw|].
    apply ends_panic_if. intros Ha%negb_false_iff%Z.eqb_eq. cbn in Ha. subst k2.
    destruct l' as [|[w|c'] l']; [by destruct Hcase| |by destruct Hcase as (_ & _ & ? & _)].
    destruct Hcase as (_ & Hr3 & Hsp). cbn [fst snd].
    assert (Hk3 : k ∈ [ch "<"; ch ">"; ch "+"]).
    { apply sym_first in Hk as [[-> _]|Hk]; [compute_done|]. rewrite !elem_of_cons in *. tauto. }
    eapply ends_mono; [apply (IH _ i3 l' Hr3); cbn in Hn; lia|]. intros c' j (rs & r & -> & Hrs & Hj & Hs).
    exists ((k, w) :: rs), r. split_and!; [done|by constructor|done|]. intros t Ht'. cbn [foldl].
    apply Hs. by apply sees_redir.
  - exists [], l. by split_and!; [|constructor|..].
Qed.

Lemma back_sound n c i l :
  rem s i l -> (length l <= n)%nat ->
  ends_with (back_loop buf es n c) (fun c' j => exists k r, l = replicate k (T_sym (ch "&")) ++ r /\
    rem s j r /\ forall t, sees s c t -> sees s c' (Nat.iter k Back t)) i.
Proof.
  revert c i l. induction n as [|n IH]; intros c i l Hr Hn; cbn [back_loop];
    destruct (peek_cases [ch "&"] i l Hr) as (b & i1 & Hp & Hr1 & Hb); try compute_done;
    (eapply ends_run; [exact Hp|]); destruct b.
  - destruct Hb as (c' & l' & -> & _). cbn in Hn. lia.
  - by exists 0%nat, l.
  - destruct Hb as (k & l' & -> & Hk).
    destruct (gettoken_cases i1 _ Hr1) as (k' & q1 & e1 & i2 & Ht & -> & Hr2 & _). eapply ends_run; [exact Ht|].
    eapply ends_mono; [apply (IH _ i2 l' Hr2); cbn in Hn; lia|]. intros c' j (m & r & -> & Hj & Hs).
    assert (k = ch "&") as -> by (by eapply sym_is).
    exists (S m), r. split_and!; [done..|]. intros t Ht'. rewrite Nat.iter_succ_r. apply Hs. by constructor.
  - by exists 0%nat, l.
Qed.

Lemma args_sound n argc c i l :
  rem s i l -> (length l < n)%nat -> (argc < MAXARGS)%nat ->
  ends_with (parseexec_loop buf es n argc c) (fun c' j => exists args r, l = arg_tokens args ++ r /\
    Forall (fun a => redirs_ok a.2) args /\ (argc + length args < MAXARGS)%nat /\ rem s j r /\
    forall ws rs0, sees s c (foldl with_redir (Exec ws) rs0) ->
      sees s c' (foldl with_redir (Exec (ws ++ map fst args)) (rs0 ++ concat (map snd args)))) i.
Proof.
  revert argc c i l. induction n as [|n IH]; intros argc c i l Hr Hn Ha; [lia|]; cbn [parseexec_loop].
  destruct (peek_cases [ch "|"; ch ")"; ch "&"; ch ";"] i l Hr) as (b & i1 & Hp & Hr1 & Hb); [compute_done|].
  eapply ends_run; [exact Hp|]. destruct b.
  { exists [], l. split_and!; try done; [cbn; lia|]. intros ws rs0. cbn. by rewrite !app_nil_r. }
  destruct (gettoken_cases i1 _ Hr1) as (k & q & e & i2 & Ht & Hcase). eapply ends_run; [exact Ht|]. cbn [fst snd].
  destruct l as [|[w|c'] l].
  - destruct Hcase as [-> Hr2]. exists [], []. split_and!; try done; [cbn; lia|]. intros ws rs0. cbn. by rewrite !app_nil_r.
  - destruct Hcase as (-> & Hr2 & Hsp). change (ch "a" =? 0) with false. cbv iota.
    apply ends_panic_if. intros _. apply ends_panic_if. intros Hargc%Nat.leb_gt.
    apply ends_bind. eapply ends_mono; [apply (redirs_sound es _ i2 l Hr2); by eapply rem_length|].
    intros r' i3 (rs & r & -> & Hrs & Hr3 & Hs). cbn in Hn. rewrite length_app in Hn.
    eapply ends_mono; [apply (IH (S argc) r' i3 r Hr3); lia|].
    intros c' j (args & r2 & -> & Hok & Hlen & Hj & Hs'). exists ((w, rs) :: args), r2.
    split_and!; [by rewrite arg_tokens_cons|by constructor|cbn; lia|done|]. intros ws rs0 Hc.
    pose proof (Hs' (ws ++ [w]) (rs0 ++ rs)) as H. cbn [map concat fst snd]. rewrite <- !app_assoc in H. apply H.
    rewrite foldl_app. apply Hs. by apply sees_set_arg.
  - destruct Hcase as (-> & _ & Hna & Hn0). rewrite (proj2 (Z.eqb_neq _ _) Hn0). cbv iota.
    apply ends_panic_if. by rewrite (proj2 (Z.eqb_neq _ _) Hna).
Qed.

(** With [fuel] for the tokens left, [parse] panics or reads a phrase [g] of the grammar. *)
Definition accepts {G : Type} (parse : nat -> M nat cmd) (extra fuel : nat)
    (tok : G -> list token) (ok : G -> Prop) (sem : G -> scmd) : Prop :=
  forall i l, rem s i l -> (4 * length l + extra <= fuel)%nat ->
    ends_with (parse fuel) (fun c j => exists g r, l = tok g ++ r /\ ok g /\ rem s j r /\ sees s c (sem g)) i.

Lemma accepts_line n :
  accepts (parseline buf es) 4 n line_tokens line_ok line_cmd ->
  accepts (parsepipe buf es) 3 n pipe_tokens pipe_ok pipe_cmd ->
  accepts (parseline buf es) 4 (S n) line_tokens line_ok line_cmd.
Proof.
  intros IHL IHP i l Hr Hf. cbn [parseline]. apply ends_bind.
  eapply ends_mono; [apply (IHP i l Hr); lia|]. intros c i1 (P & l1 & -> & HP & Hr1 & Hs1).
  apply ends_bind. eapply ends_mono; [apply (back_sound es c i1 l1 Hr1); by eapply rem_length|].
  intros c1 i2 (k & l2 & -> & Hr2 & Hs2). rewrite !length_app in Hf.
  destruct (peek_cases [ch ";"] i2 l2 Hr2) as (b & i3 & Hp & Hr3 & Hb); [compute_done|].
  eapply ends_run; [exact Hp|]. destruct b.
  - destruct Hb as (x & l3 & -> & Hx).
    assert (x = ch ";") as -> by (by eapply sym_is).
    destruct (gettoken_cases i3 _ Hr3) as (k' & q & e & i4 & Ht & _ & Hr4 & _). eapply ends_run; [exact Ht|].
    apply ends_bind. eapply ends_mono; [apply (IHL i4 l3 Hr4); cbn in Hf; lia|].
    intros c2 j (L & r & -> & HL & Hj & HsL). exists (L_seq P k L), r. cbn [line_tokens line_cmd line_ok].
    rewrite <- !app_assoc. split_and!; try done. constructor; [by apply Hs2|done].
  - exists (L_end P k), l2. cbn [line_tokens line_cmd line_ok]. rewrite <- app_assoc. split_and!; try done. by apply Hs2.
Qed.

Lemma accepts_pipe n :
  accepts (parsepipe buf es) 3 n pipe_tokens pipe_ok pipe_cmd ->
  accepts (parseexec buf es) 2 n exec_tokens exec_ok exec_cmd ->
  accepts (parsepipe buf es) 3 (S n) pipe_tokens pipe_ok pipe_cmd.
Proof.
  intros IHP IHE i l Hr Hf. cbn [parsepipe]. apply ends_bind.
  eapply ends_mono; [apply (IHE i l Hr); lia|]. intros c i1 (E & l1 & -> & HE & Hr1 & Hs1).
  rewrite length_app in Hf. destruct (peek_cases [ch "|"] i1 l1 Hr1) as (b & i2 & Hp & Hr2 & Hb); [compute_done|].
  eapply ends_run; [exact Hp|]. destruct b.
  - destruct Hb as (x & l2 & -> & Hx).
    assert (x = ch "|") as -> by (by eapply sym_is).
    destruct (gettoken_cases i2 _ Hr2) as (k' & q & e & i3 & Ht & _ & Hr3 & _). eapply ends_run; [exact Ht|].
    apply ends_bind. eapply ends_mono; [apply (IHP i3 l2 Hr3); cbn in Hf; lia|].
    intros c2 j (P & r & -> & HP & Hj & HsP). exists (P_pipe E P), r. cbn [pipe_tokens pipe_cmd pipe_ok].
    rewrite <- !app_assoc. split_and!; try done. by constructor.
  - by exists (P_end E), l1.
Qed.

Lemma accepts_block n i l :
  accepts (parseline buf es) 4 n line_tokens line_ok line_cmd ->
  rem s i (T_sym (ch "(") :: l) -> (4 * length l + 4 <= n)%nat ->
  ends_with (parseblock buf es (S n)) (fun c j => exists g r, T_sym (ch "(") :: l = exec_tokens g ++ r /\
    exec_ok g /\ rem s j r /\ sees s c (exec_cmd g)) i.
Proof.
  intros IHL Hr Hf. cbn [parseblock].
  destruct (peek_true s junk Hnul [ch "("] i _ Hr) as (i1 & Hp & Hr1); [compute_done|compute_done|].
  eapply ends_run; [exact Hp|]. apply ends_panic_if. intros _.
  destruct (gettoken_cases i1 _ Hr1) as (k' & q & e & i2 & Ht & _ & Hr2 & _). eapply ends_run; [exact Ht|].
  apply ends_bind. eapply ends_mono; [apply (IHL i2 l Hr2); lia|].
  intros c i3 (L & l1 & -> & HL & Hr3 & Hs3).
  destruct (peek_cases [ch ")"] i3 l1 Hr3) as (b & i4 & Hp4 & Hr4 & Hb); [compute_done|].
  eapply ends_run; [exact Hp4|]. apply ends_panic_if. intros ->%negb_false_iff.
  destruct Hb as (x & l2 & -> & Hx).
  assert (x = ch ")") as -> by (by eapply sym_is).
  destruct (gettoken_cases i4 _ Hr4) as (k2 & q2 & e2 & i5 & Ht5 & _ & Hr5 & _). eapply ends_run; [exact Ht5|].
  eapply ends_mono; [apply (redirs_sound es c i5 l2 Hr5); by eapply rem_length|].
  intros c' j (rs & r & -> & Hrs & Hj & Hs). exists (E_block L rs), r. cbn [exec_tokens exec_cmd exec_ok].
  split_and!; try done; [cbn; by rewrite <- app_assoc|by apply Hs].
Qed.

Lemma accepts_exec n :
  accepts (parseline buf es) 4 (n - 1) line_tokens line_ok line_cmd ->
  accepts (parseexec buf es) 2 (S n) exec_tokens exec_ok exec_cmd.
Proof.
  intros IHL i l Hr Hf. cbn [parseexec].
  destruct (peek_cases [ch "("] i l Hr) as (b & i1 & Hp & Hr1 & Hb); [compute_done|].
  eapply ends_run; [exact Hp|]. destruct b.
  - destruct Hb as (x & l1 & -> & Hx).
    assert (x = ch "(") as -> by (by eapply sym_is).
    destruct n as [|n]; [cbn in Hf; lia|]. replace (S n - 1)%nat with n in IHL by lia.
    apply accepts_block; [done|done|cbn in Hf; lia].
  - apply ends_bind. eapply ends_mono; [apply (redirs_sound es (EXEC []) i1 l Hr1); by eapply rem_length|].
    intros c i2 (rs & l1 & -> & Hrs & Hr2 & Hs2).
    eapply ends_mono; [apply (args_sound (S es) 0 c i2 l1 Hr2)|].
    { pose proof (rem_length _ _ _ Hr2). unfold es. lia. } { unfold MAXARGS. lia. }
    intros c' j (args & r & -> & Hok & Hlen & Hj & Hs). exists (E_simple rs args), r.
    cbn [exec_tokens exec_cmd exec_ok]. rewrite <- app_assoc. split_and!; try done.
    apply (Hs [] rs). apply Hs2. by do 2 constructor.
Qed.

Lemma accepts_grammar fuel :
  accepts (parseline buf es) 4 fuel line_tokens line_ok line_cmd /\
  accepts (parsepipe buf es) 3 fuel pipe_tokens pipe_ok pipe_cmd /\
  accepts (parseexec buf es) 2 fuel exec_tokens exec_ok exec_cmd.
Proof.
  induction fuel as [fuel IH] using lt_wf_ind. destruct fuel as [|n].
  { split_and!; intros i l Hr Hf; lia. }
  destruct (IH n ltac:(lia)) as (IHL & IHP & IHE). split_and!.
  - by apply accepts_line.
  - by apply accepts_pipe.
  - apply accepts_exec. destruct n as [|n]; [intros i l Hr Hf; cbn in Hf; lia|].
    replace (S n - 1)%nat with n by lia. by apply IH; lia.
Qed.

(** ** The shell's parser *)

Lemma strlen_nul : Ulib.strlen buf = Z.of_nat es.
Proof.
  unfold Ulib.strlen, buf, es. assert (H : forall l n, 0 ∉ l -> strlen_loop (l ++ 0 :: junk) n = n + Z.of_nat (length l)).
  { clear. induction l as [|c l IH]; intros n H0; cbn [app strlen_loop length]; [cbn; lia|].
    apply not_elem_of_cons in H0 as [Hc H0]. rewrite (proj2 (Z.eqb_neq c 0)) by congruence. rewrite IH by done. lia. }
  by rewrite H.
Qed.

Lemma parsecmd_accepts L :
  line_ok L -> spells (line_tokens L) s ->
  exists c b j, parsecmd buf = Ok (c, b) j /\ view b c = line_cmd L.
Proof.
  intros HL Hs. unfold parsecmd. rewrite strlen_nul, Nat2Z.id.
  assert (Hr : rem s 0 (line_tokens L ++ [])) by (rewrite app_nil_r; split; [lia|done]).
  destruct (proj1 parses_grammar L HL (4 * es + 4)%nat 0%nat [] Hr) as (c & i & Hc & Hi & Hsee); [compute_done| |].
  { pose proof (rem_length _ _ _ Hr) as Hlen. rewrite length_app in Hlen. unfold es. lia. }
  destruct (peek_false s junk Hnul [] i [] Hi) as (j & Hp & Hj); [compute_done..|].
  exists c, (nulterminate c buf), j. split.
  - run Hc. run Hp. rewrite bind_gets, bind_panic_if; [done|]. apply negb_false_iff, Nat.eqb_eq.
    unfold peek in Hp. rewrite bind_modify, bind_gets in Hp. injection Hp as _ <-. by apply rem_nil_skip.
  - rewrite nulterminate_clear. eapply sees_view; [done..|]. intros x Hx. by eapply sees_ends.
Qed.

Lemma word_split d :
  exists w r, d = w ++ r /\ Forall (fun c => wordchar c = true) w /\ wordchar (char_at r) = false.
Proof.
  induction d as [|c d (w & r & -> & Hw & Hr)]; [by exists [], []|]. destruct (wordchar c) eqn:E.
  - exists (c :: w), r. split_and!; [done|by constructor|done].
  - by exists [], (c :: w ++ r).
Qed.

(** Every text without a NUL has its tokens. *)
Lemma spells_total d : 0 ∉ d -> exists l, spells l d.
Proof.
  remember (length d) as n eqn:En. revert d En. induction n as [n IH] using lt_wf_ind. intros d -> H0.
  destruct d as [|c d]; [by exists []; constructor|]. pose proof H0 as [Hc Hd]%not_elem_of_cons.
  destruct (IH (length d) ltac:(cbn; lia) d eq_refl Hd) as [l Hl].
  destruct (among whitespace c) eqn:Ew; [exists l; by constructor|].
  destruct (among symbols c) eqn:Es.
  - apply among_iff in Es; [|apply symbols_nul]. destruct (Z.eqb_spec c (ch ">")) as [->|Hgt].
    + destruct d as [|c' d]; [exists (T_sym (ch ">") :: l); by constructor|].
      destruct (Z.eqb_spec c' (ch ">")) as [->|Hgt'].
      * apply not_elem_of_cons in Hd as [_ Hd]. destruct (IH (length d) ltac:(cbn; lia) d eq_refl Hd) as [l' Hl'].
        exists (T_sym (ch "+") :: l'). by constructor.
      * exists (T_sym (ch ">") :: l). by constructor.
    + exists (T_sym c :: l). constructor; [|done]. unfold symbols in Es. rewrite !elem_of_cons in *. tauto.
  - destruct (word_split d) as (w & r & E & Hw & Hr).
    assert (Hlen : length d = (length w + length r)%nat) by (by rewrite E, length_app).
    destruct (IH (length r) ltac:(cbn; lia) r eq_refl) as [l' Hl'].
    { intros Hin. apply Hd. rewrite E. apply elem_of_app. by right. }
    exists (T_word (c :: w) :: l'). rewrite E. apply (sp_word (c :: w)); [done| |done|done].
    constructor; [|done]. unfold wordchar. rewrite Ew, Es, (proj2 (Z.eqb_neq c 0)) by congruence. done.
Qed.

Lemma parsecmd_sound :
  match parsecmd buf with
  | Ok cb _ => exists L, line_ok L /\ spells (line_tokens L) s /\ view cb.2 cb.1 = line_cmd L
  | Panic _ => True
  | _ => False
  end.
Proof.
  destruct (spells_total s Hnul) as [l Hl]. assert (Hr : rem s 0 l) by (split; [lia|done]).
  unfold parsecmd. rewrite strlen_nul, Nat2Z.id. apply ends_bind.
  eapply ends_mono; [apply (proj1 (accepts_grammar (4 * es + 4)) 0%nat l Hr)|].
  { pose proof (rem_length _ _ _ Hr). unfold es. lia. }
  intros c i (L & r & -> & HL & Hi & Hs). destruct (peek_ok s junk Hnul [] i r Hi) as (j & Hp & Hj).
  eapply ends_run; [exact Hp|]. change (ends_with (bind (Prelude.gets id) ?f) ?Q j) with (ends_with (f j) Q j).
  apply ends_panic_if. intros Hend%negb_false_iff%Nat.eqb_eq. cbn in Hend. subst j.
  assert (r = []) as ->.
  { destruct Hj as [_ Hj]. rewrite drop_ge in Hj by done. apply spells_length in Hj. destruct r; [done|cbn in Hj; lia]. }
  rewrite app_nil_r in Hl. exists L. split_and!; [done..|]. cbn [fst snd]. rewrite nulterminate_clear.
  eapply sees_view; [done..|]. intros x Hx. by eapply sees_ends.
Qed.

End parse.

(** C20: the parser of the shell and its grammar agree.  A line that is a sentence of the grammar, however its tokens
    are separated, is parsed as the command it stands for, with the words cut out of the
    buffer; and [parsecmd] returns a command for no other line: it ends in [panic] or with the
    command of a sentence that the line spells. *)
Theorem parsecmd_grammar s junk :
  0 ∉ s ->
  (forall L, line_ok L -> spells (line_tokens L) s ->
     exists c b j, parsecmd (s ++ 0 :: junk) = Ok (c, b) j /\ view b c = line_cmd L) /\
  match parsecmd (s ++ 0 :: junk) with
  | Ok cb _ => exists L, line_ok L /\ spells (line_tokens L) s /\ view cb.2 cb.1 = line_cmd L
  | Panic _ => True
  | _ => False
  end.
Proof. intros Hnul. split; [by apply parsecmd_accepts|by apply parsecmd_sound]. Qed.

(** [ls>f|wc], with blanks. *)
Definition ls_wc : list Z := [ch "l"; ch "s"; ch ">"; 32; ch "f"; ch "|"; ch "w"; ch "c"; 10].
Definition ls_wc_line : line :=
  L_end (P_pipe (E_simple [] [([ch "l"; ch "s"], [(ch ">", [ch "f"])])])
           (P_end (E_simple [] [([ch "w"; ch "c"], [])]))) 0.

Lemma ls_wc_spells : spells (line_tokens ls_wc_line) ls_wc.
Proof.
  apply (sp_word [ch "l"; ch "s"]); [done|by repeat constructor|done|].
  apply sp_gt; [done|]. apply sp_blank; [done|].
  apply (sp_word [ch "f"]); [done|by repeat constructor|done|]. apply sp_sym; [compute_done|].
  apply (sp_word [ch "w"; ch "c"]); [done|by repeat constructor|done|]. apply sp_blank; [done|]. apply sp_end.
Qed.

Lemma ls_wc_ok : line_ok ls_wc_line.
Proof.
  cbn [ls_wc_line line_ok pipe_ok exec_ok]. unfold redirs_ok, MAXARGS.
  split; split_and!; rewrite ?Forall_cons, ?Forall_nil; cbn; try lia; split_and!; try done.
  rewrite Forall_cons. split; [cbn; compute_done|done].
Qed.

Lemma parsecmd_grammar_witness :
  0 ∉ ls_wc /\
  exists c b j, parsecmd (ls_wc ++ [0]) = Ok (c, b) j /\
    view b c = Pipe (Redir (Exec [[ch "l"; ch "s"]]) [ch "f"] (Z.lor (Z.lor O_WRONLY O_CREATE) O_TRUNC) 1)
                    (Exec [[ch "w"; ch "c"]]).
Proof.
  assert (H0 : 0 ∉ ls_wc) by compute_done. split; [done|].
  pose proof (parsecmd_grammar ls_wc [] H0) as [H _].
  pose proof (H ls_wc_line ls_wc_ok ls_wc_spells) as (c & b & j & Hp & Hv).
  exists c, b, j. split; [exact Hp|exact Hv].
Defined.
