(* ===== verification/Shrun.v ===== *)
(** What the commands of the shell start, and with which descriptors.

    [starts] runs the system calls of a program on a table of open files, as the kernel does
    it (kernel/sysfile.c takes the lowest free descriptor), and lists the programs that are
    executed; [wires] says what a command line asks for. *)

From stdpp Require Import prelude gmap strings.
From Stdlib Require Import ZArith Lia Ascii.
From S2P Require Import Prelude Bytes Params CString Ulib Sh.

Local Open Scope Z_scope.

(** What a descriptor refers to: something the shell was given, an end of the [n]th pipe, or a file. *)
Inductive fobj := F_given (n : nat) | F_read (n : nat) | F_write (n : nat) | F_file (name : word) (mode : Z).

Definition table : Type := list (option fobj).

(** The lowest free descriptor. *)
Fixpoint lowest (t : table) : option nat :=
  match t with
  | [] => None
  | None :: _ => Some 0%nat
  | Some _ :: t' => S <$> lowest t'
  end.

(** The programs executed, each with its table, and the number of the next pipe. *)
Fixpoint starts (p : prog) (t : table) (n : nat) : list (list word * table) * nat :=
  match p with
  | P_exit _ => ([], n)
  | P_exec _ argv _ => ([(argv, t)], n)
  | P_close fd k => starts k (<[Z.to_nat fd := None]> t) n
  | P_open f m k =>
      match lowest t with
      | Some i => starts (k (Z.of_nat i)) (<[i := Some (F_file f m)]> t) n
      | None => starts (k (-1)) t n
      end
  | P_pipe2 k =>
      match lowest t with
      | Some i =>
          let t1 := <[i := Some (F_read n)]> t in
          match lowest t1 with
          | Some j => starts (k (Some (Z.of_nat i, Z.of_nat j))) (<[j := Some (F_write n)]> t1) (S n)
          | None => starts (k None) t n
          end
      | None => starts (k None) t n
      end
  | P_dup fd k =>
      match lowest t with
      | Some i => starts k (<[i := mjoin (t !! Z.to_nat fd)]> t) n
      | None => starts k t n
      end
  | P_fork c q _ =>
      let (l, n1) := starts c t n in
      let (l', n2) := starts q t n1 in (l ++ l', n2)
  | P_wait k => starts k t n
  | P_chdir _ k => starts (k 0) t n
  | P_write _ _ k => starts k t n
  end.

(** A program with its standard input, output and error. *)
Definition started : Type := list word * (fobj * fobj * fobj).

Fixpoint wires (c : scmd) (i o e : fobj) (n : nat) : list started * nat :=
  match c with
  | Exec [] => ([], n)
  | Exec argv => ([(argv, (i, o, e))], n)
  | Redir c f m fd => if fd =? 0 then wires c (F_file f m) o e n else wires c i (F_file f m) e n
  | Pipe l r =>
      let (a, n1) := wires l i (F_write n) e (S n) in
      let (b, n2) := wires r (F_read n) o e n1 in (a ++ b, n2)
  | List l r =>
      let (a, n1) := wires l i o e n in
      let (b, n2) := wires r i o e n1 in (a ++ b, n2)
  | Back c => wires c i o e n
  end.

(** The descriptors 0, 1 and 2 open, the others of the [NOFILE] free. *)
Definition std (i o e : fobj) : table := Some i :: Some o :: Some e :: replicate (NOFILE - 3) None.

Definition as_table (s : started) : list word * table :=
  match s with (argv, (i, o, e)) => (argv, std i o e) end.

(** The redirections of standard input and output, the only ones the parser makes. *)
Fixpoint std_redirs (c : scmd) : Prop :=
  match c with
  | Exec _ => True
  | Redir c _ _ fd => std_redirs c /\ (fd = 0 \/ fd = 1)
  | Pipe l r | List l r => std_redirs l /\ std_redirs r
  | Back c => std_redirs c
  end.

Lemma runcmd_wires buf c i o e n :
  std_redirs (view buf c) ->
  starts (runcmd buf c) (std i o e) n =
    (map as_table (wires (view buf c) i o e n).1, (wires (view buf c) i o e n).2).
Proof.
  revert i o e n. induction c as [argv|c IH f ef m fd|l IHl r IHr|l IHl r IHr|c IH]; intros i o e n Hs.
  - destruct argv as [|[q x] argv]; done.
  - destruct Hs as [Hs [->| ->]]; apply IH, Hs.
  - destruct Hs as [Hl Hr].
    change (starts (runcmd buf (PIPE l r)) (std i o e) n) with
      (let (a, n1) := starts (runcmd buf l) (std i (F_write n) e) (S n) in
       let (b, n2) := (let (b1, n2) := starts (runcmd buf r) (std (F_read n) o e) n1 in (b1 ++ [], n2)) in (a ++ b, n2)).
    rewrite (IHl _ _ _ _ Hl). cbn [view wires]. destruct (wires (view buf l) i (F_write n) e (S n)) as [a n1].
    cbn [fst snd]. rewrite (IHr _ _ _ _ Hr). destruct (wires (view buf r) (F_read n) o e n1) as [b n2].
    cbn [fst snd]. by rewrite app_nil_r, map_app.
  - destruct Hs as [Hl Hr].
    change (starts (runcmd buf (LIST l r)) (std i o e) n) with
      (let (a, n1) := starts (runcmd buf l) (std i o e) n in
       let (b, n2) := starts (runcmd buf r) (std i o e) n1 in (a ++ b, n2)).
    rewrite (IHl _ _ _ _ Hl). cbn [view wires]. destruct (wires (view buf l) i o e n) as [a n1].
    cbn [fst snd]. rewrite (IHr _ _ _ _ Hr). destruct (wires (view buf r) i o e n1) as [b n2].
    cbn [fst snd]. by rewrite map_app.
  - change (starts (runcmd buf (BACK c)) (std i o e) n) with
      (let (a, n1) := starts (runcmd buf c) (std i o e) n in (a ++ [], n1)).
    rewrite (IH _ _ _ _ Hs). cbn [view wires]. destruct (wires (view buf c) i o e n) as [a n1].
    by rewrite app_nil_r.
Qed.

Lemma redirs_std c rs : std_redirs c -> std_redirs (foldl with_redir c rs).
Proof.
  revert c. induction rs as [|[k w] rs IH]; intros c Hc; [done|]. cbn [foldl]. apply IH. split; [done|].
  cbn. unfold redir_mode. destruct (k =? ch "<"); [by left|]. destruct (k =? ch ">"); by right.
Qed.

Lemma iter_back_std n c : std_redirs c -> std_redirs (Nat.iter n Back c).
Proof. intros Hc. induction n; done. Qed.

(** Commands that come from command lines. *)
Lemma grammar_std :
  (forall L, std_redirs (line_cmd L)) /\ (forall P, std_redirs (pipe_cmd P)) /\ (forall E, std_redirs (exec_cmd E)).
Proof.
  apply grammar_ind; intros; cbn [line_cmd pipe_cmd exec_cmd std_redirs];
    repeat split; try apply redirs_std; try apply iter_back_std; done.
Qed.

(** C21: a command line that spells a sentence of the grammar is parsed and run as it says.  The
    child of the shell starts the programs of the line in order, each with
    the standard input and output that the pipes and redirections of the line give it, and with no
    other descriptor open: no end of a pipe is left behind. *)
Theorem shell_runs_line s junk L i o e n :
  0 ∉ s -> line_ok L -> spells (line_tokens L) s ->
  exists c b j, parsecmd (s ++ 0 :: junk) = Ok (c, b) j /\
    starts (runcmd b c) (std i o e) n = (map as_table (wires (line_cmd L) i o e n).1, (wires (line_cmd L) i o e n).2).
Proof.
  intros Hnul HL Hs. destruct (parsecmd_accepts s junk Hnul L HL Hs) as (c & b & j & Hp & Hv).
  exists c, b, j. split; [done|]. rewrite <- Hv. apply runcmd_wires. rewrite Hv. apply grammar_std.
Qed.

(** [ls> f|wc]: [ls] writes the file, and [wc] reads the pipe. *)
Lemma shell_runs_line_witness :
  exists c b j, parsecmd (ls_wc ++ [0]) = Ok (c, b) j /\
    starts (runcmd b c) (std (F_given 0) (F_given 1) (F_given 2)) 0 =
      ([([[ch "l"; ch "s"]], std (F_given 0) (F_file [ch "f"] 1537) (F_given 2));
        ([[ch "w"; ch "c"]], std (F_read 0) (F_given 1) (F_given 2))], 1%nat).
Proof.
  assert (H0 : 0 ∉ ls_wc) by compute_done.
  pose proof (shell_runs_line ls_wc [] ls_wc_line (F_given 0) (F_given 1) (F_given 2) 0 H0 ls_wc_ok ls_wc_spells)
    as (c & b & j & Hp & Hs).
  exists c, b, j. split; [exact Hp|exact Hs].
Defined.
