(* ===== verification/Usys.v ===== *)
(** User programs: the system calls (user/user.h, user/usys.pl) and the environment of a program.

    A program is an interaction tree over the system calls, so that programs that run forever are
    trees like the others.  [world] is an environment with files and descriptors; it gives the
    calls their documented results.  [gives] and [halts] say what a program does in it. *)

From stdpp Require Import prelude gmap strings.
From Stdlib Require Import ZArith Lia Ascii.
From ITree Require Import ITree ITreeFacts Events.State Events.StateFacts.
From S2P Require Import Prelude Bytes Params CString Fs Ulib.

Local Open Scope Z_scope.

(** ** System calls *)

(** The stubs of usys.pl, with the types of user.h.  [Read] returns the bytes that were stored in the buffer,
    and nothing for -1; [Fstat] and [Pipe] what was stored.  [Exit] does not return, and
    [Exec] only when it fails.  [Fault] is not a call: it stands for an access that C leaves undefined. *)
Inductive sysE : Type -> Type :=
| Fork : sysE Z
| Exit (status : Z) : sysE Empty_set
| Wait : sysE Z
| Pipe : sysE (option (Z * Z))
| Write (fd : Z) (bytes : list Z) : sysE Z
| Read (fd : Z) (n : nat) : sysE (option (list Z))
| Close (fd : Z) : sysE Z
| Kill (pid : Z) : sysE Z
| Exec (path : list Z) (argv : list (list Z)) : sysE Z
| Open (path : list Z) (mode : Z) : sysE Z
| Mknod (path : list Z) (major minor : Z) : sysE Z
| Unlink (path : list Z) : sysE Z
| Fstat (fd : Z) : sysE (option stat)
| Link (old new : list Z) : sysE Z
| Mkdir (path : list Z) : sysE Z
| Chdir (path : list Z) : sysE Z
| Dup (fd : Z) : sysE Z
| Getpid : sysE Z
| Sbrk (n t : Z) : sysE Z
| Pause (n : Z) : sysE Z
| Uptime : sysE Z
| Sync : sysE Z
| Fault : sysE Empty_set.

Abbreviation U := (itree sysE).

Declare Scope user_scope.
Delimit Scope user_scope with user.
Notation "x <- t ;; k" := (ITree.bind t (fun x => k)) : user_scope.
Notation "t ;; k" := (ITree.bind t (fun _ => k)) : user_scope.
Local Open Scope user_scope.

Definition call {A} (e : sysE A) : U A := ITree.trigger e.

Definition exit {A} (status : Z) : U A := v <- call (Exit status) ;; match v : Empty_set with end.
Definition fault {A} : U A := v <- call Fault ;; match v : Empty_set with end.

(** [while (1) body]: [body] returns the next state of the loop, or the result. *)
Definition loop {I A} (body : I -> U (I + A)) : I -> U A := ITree.iter body.

(** [for (...; x in l; ...) body(x)] *)
Fixpoint each {A} (l : list A) (body : A -> U unit) : U unit :=
  match l with
  | [] => Ret tt
  | x :: l' => body x ;; each l' body
  end.

(** ** The environment *)

Record ufile := mkFile { f_stat : stat; f_data : list Z }.

(** An open descriptor: what is left to read (nothing, if [read] fails on it), whether [write] works on it, and what [fstat] says. *)
Record desc := mkDesc { d_in : option input; d_write : bool; d_stat : stat }.

(** The files by their paths, the descriptors, what was written, with
    the descriptor, in order, and when the bytes of files that are opened are ready. *)
Record world := World {
  w_files : gmap (list Z) ufile;
  w_fds : list (option desc);
  w_out : list (Z * list Z);
  w_ready : nat -> nat;
}.

#[export] Instance eta_world : Eta world := fun r => World (w_files r) (w_fds r) (w_out r) (w_ready r).
#[export] Instance set_w_files : Setter w_files := ltac:(solve_setter).
#[export] Instance set_w_fds : Setter w_fds := ltac:(solve_setter).
#[export] Instance set_w_out : Setter w_out := ltac:(solve_setter).

(** Equal worlds, field by field. *)
Ltac w_eq w :=
  destruct w; cbv beta iota delta [upd set_w_files set_w_fds set_w_out w_files w_fds w_out w_ready]; f_equal.

Definition fd_of (w : world) (fd : Z) : option desc :=
  if 0 <=? fd then mjoin (w_fds w !! Z.to_nat fd) else None.

Definition set_fd (fd : Z) (d : option desc) (w : world) : world := w <| w_fds ::= <[Z.to_nat fd := d]> |>.

(** The lowest free descriptor. *)
Definition free_fd (w : world) : option nat := fst <$> list_find (fun d => d = None) (w_fds w).

Definition do_read (fd : Z) (n : nat) (w : world) : world * option (list Z) :=
  match fd_of w fd with
  | Some (mkDesc (Some inp) wr st) =>
      let (l, inp') := read n inp in (set_fd fd (Some (mkDesc (Some inp') wr st)) w, Some l)
  | _ => (w, None)
  end.

Definition do_write (fd : Z) (bytes : list Z) (w : world) : world * Z :=
  match fd_of w fd with
  | Some (mkDesc _ true _) => (w <| w_out ::= (fun o => o ++ [(fd, bytes)]) |>, Z.of_nat (length bytes))
  | _ => (w, -1)
  end.

Definition do_close (fd : Z) (w : world) : world * Z :=
  match fd_of w fd with
  | Some _ => (set_fd fd None w, 0)
  | None => (w, -1)
  end.

(** Existing files only; directories are not opened for writing. *)
Definition do_open (path : list Z) (mode : Z) (w : world) : world * Z :=
  match w_files w !! path, free_fd w with
  | Some f, Some n =>
      if (st_type (f_stat f) =? T_DIR) && negb (mode =? O_RDONLY) then (w, -1)
      else (set_fd (Z.of_nat n) (Some (mkDesc (Some (mkInput (f_data f) (w_ready w) 0)) (negb (mode =? O_RDONLY)) (f_stat f))) w,
            Z.of_nat n)
  | _, _ => (w, -1)
  end.

Definition do_unlink (path : list Z) (w : world) : world * Z :=
  match w_files w !! path with
  | Some _ => (w <| w_files ::= delete path |>, 0)
  | None => (w, -1)
  end.

Definition do_link (old new : list Z) (w : world) : world * Z :=
  match w_files w !! old, w_files w !! new with
  | Some f, None => if st_type (f_stat f) =? T_DIR then (w, -1) else (w <| w_files ::= <[new := f]> |>, 0)
  | _, _ => (w, -1)
  end.

Definition do_mkdir (path : list Z) (w : world) : world * Z :=
  match w_files w !! path with
  | None => (w <| w_files ::= <[path := mkFile (mkStat 1 0 T_DIR 1 32) []]> |>, 0)
  | Some _ => (w, -1)
  end.

Definition do_dup (fd : Z) (w : world) : world * Z :=
  match fd_of w fd, free_fd w with
  | Some d, Some n => (set_fd (Z.of_nat n) (Some d) w, Z.of_nat n)
  | _, _ => (w, -1)
  end.

(** How a program ends. *)
Inductive haltE : Type -> Type :=
| Halt (status : Z) (w : world) : haltE Empty_set
| Crash : haltE Empty_set.

Definition halted {A} (status : Z) (w : world) : itree haltE A :=
  Vis (Halt status w) (fun v : Empty_set => match v with end).
Definition crashed {A} : itree haltE A := Vis Crash (fun v : Empty_set => match v with end).

(** The calls in this environment; those that concern other processes fail. *)
Definition h_sys : sysE ~> Monads.stateT world (itree haltE) := fun _ e w =>
  match e with
  | Exit status => halted status w
  | Fault => crashed
  | Write fd b => Ret (do_write fd b w)
  | Read fd n => Ret (do_read fd n w)
  | Close fd => Ret (do_close fd w)
  | Open path mode => Ret (do_open path mode w)
  | Fstat fd => Ret (w, d_stat <$> fd_of w fd)
  | Unlink path => Ret (do_unlink path w)
  | Link old new => Ret (do_link old new w)
  | Mkdir path => Ret (do_mkdir path w)
  | Dup fd => Ret (do_dup fd w)
  | Sync => Ret (w, 0)
  | Getpid => Ret (w, 1)
  | Uptime => Ret (w, 0)
  | Pause _ => Ret (w, 0)
  | Pipe => Ret (w, None)
  | Fork | Wait | Kill _ | Exec _ _ | Mknod _ _ _ | Chdir _ | Sbrk _ _ => Ret (w, -1)
  end.

Definition run_in {A} (t : U A) (w : world) : itree haltE (world * A) := interp_state h_sys t w.

(** The program returns [x], and leaves the world [w']. *)
Definition gives {A} (t : U A) (w : world) (x : A) (w' : world) : Prop := eutt eq (run_in t w) (Ret (w', x)).

(** The program exits. *)
Definition halts {A} (t : U A) (w : world) (status : Z) (w' : world) : Prop := eutt eq (run_in t w) (halted status w').

(** ** Rules *)

Lemma gives_ret {A} (x : A) w : gives (Ret x) w x w.
Proof. unfold gives, run_in. rewrite interp_state_ret. reflexivity. Qed.

Lemma gives_call {A} (e : sysE A) w w' x : h_sys A e w = Ret (w', x) -> gives (call e) w x w'.
Proof. intros E. unfold gives, run_in, call. rewrite interp_state_trigger. rewrite E. reflexivity. Qed.

Lemma run_bind {A B} (t : U A) (k : A -> U B) w :
  eutt eq (run_in (ITree.bind t k) w) (ITree.bind (run_in t w) (fun r => run_in (k r.2) r.1)).
Proof. unfold run_in. rewrite interp_state_bind. reflexivity. Qed.

Lemma halted_bind {A B} status w (k : A -> itree haltE B) : eutt eq (ITree.bind (halted status w) k) (halted status w).
Proof. unfold halted. rewrite bind_vis. apply eqit_Vis. intros []. Qed.

Lemma run_after {A B} (t : U A) (k : A -> U B) w x w' :
  gives t w x w' -> eutt eq (run_in (ITree.bind t k) w) (run_in (k x) w').
Proof. intros H. rewrite run_bind. unfold gives in H. rewrite H, bind_ret_l. reflexivity. Qed.

Lemma gives_bind {A B} (t : U A) (k : A -> U B) w x w' y w'' :
  gives t w x w' -> gives (k x) w' y w'' -> gives (ITree.bind t k) w y w''.
Proof. intros H1 H2. unfold gives. rewrite (run_after t k w x w' H1). exact H2. Qed.

Lemma halts_bind {A B} (t : U A) (k : A -> U B) w x w' status w'' :
  gives t w x w' -> halts (k x) w' status w'' -> halts (ITree.bind t k) w status w''.
Proof. intros H1 H2. unfold halts. rewrite (run_after t k w x w' H1). exact H2. Qed.

Lemma halts_now {A B} (t : U A) (k : A -> U B) w status w' :
  halts t w status w' -> halts (ITree.bind t k) w status w'.
Proof. intros H. unfold halts. rewrite run_bind. unfold halts in H. rewrite H. apply halted_bind. Qed.

Lemma halts_exit {A} status w : halts (@exit A status) w status w.
Proof. unfold exit. apply halts_now. unfold halts, run_in, call. rewrite interp_state_trigger. reflexivity. Qed.

Lemma run_assoc {A B C} (t : U A) (k : A -> U B) (h : B -> U C) w :
  eutt eq (run_in (ITree.bind (ITree.bind t k) h) w) (run_in (ITree.bind t (fun x => ITree.bind (k x) h)) w).
Proof. unfold run_in. rewrite bind_bind. reflexivity. Qed.

(** A round of a loop. *)
Lemma run_loop {I A} (body : I -> U (I + A)) i w :
  eutt eq (run_in (loop body i) w) (run_in (ITree.bind (body i) (fun r => match r with inl i' => loop body i' | inr x => Ret x end)) w).
Proof.
  unfold run_in, loop. rewrite unfold_iter. rewrite !interp_state_bind. apply eutt_clo_bind with (UU := eq); [reflexivity|].
  intros ? [w' [i'|x]] ->; cbn; [|reflexivity]. rewrite interp_state_tau, tau_eutt. reflexivity.
Qed.

Lemma gives_again {I A} (body : I -> U (I + A)) i w i' w' x w'' :
  gives (body i) w (inl i') w' -> gives (loop body i') w' x w'' -> gives (loop body i) w x w''.
Proof. intros H1 H2. unfold gives. rewrite run_loop. by apply (gives_bind _ _ _ _ _ _ _ H1). Qed.

Lemma gives_done {I A} (body : I -> U (I + A)) i w x w' : gives (body i) w (inr x) w' -> gives (loop body i) w x w'.
Proof. intros H. unfold gives. rewrite run_loop. apply (gives_bind _ _ _ _ _ _ _ H). apply gives_ret. Qed.

Lemma halts_again {I A} (body : I -> U (I + A)) i w i' w' status w'' :
  gives (body i) w (inl i') w' -> halts (loop body i') w' status w'' -> halts (loop body i) w status w''.
Proof. intros H1 H2. unfold halts. rewrite run_loop. by apply (halts_bind _ _ _ _ _ _ _ H1). Qed.

Lemma halts_loop {I A} (body : I -> U (I + A)) i w status w' : halts (body i) w status w' -> halts (loop body i) w status w'.
Proof. intros H. unfold halts. rewrite run_loop. by apply halts_now. Qed.
