(* ===== verification/Uprintf.v ===== *)
(** user/printf.c: formatted output of user programs.

    As in the kernel, the characters that a call prints are computed first: they do not depend on what the
    writes return.  [None] is a fault: an argument that was not passed. *)

From stdpp Require Import prelude gmap strings.
From Stdlib Require Import ZArith Lia Ascii.
From ITree Require Import ITree.
From S2P Require Import Prelude Bytes Params CString Printk Fs Ulib Usys.

Local Open Scope Z_scope.
Local Open Scope user_scope.

Definition digits : list Z := str "0123456789ABCDEF".

Definition putc (fd c : Z) : U Z := call (Write fd [u8 c]).

(** The characters of [printint] and [printptr]; the code is the same as in the kernel. *)
Definition uprintint (xx base : Z) (sgn : bool) : option (list Z) := printint digits xx base sgn.
Definition uprintptr (x : Z) : list Z := printptr digits x.

(** The conversions, by [c0], [c1] and [c2]: what is printed, the arguments left, and how much further [i] moves. *)
Definition uconversion (c0 c1 c2 : Z) (ap : list arg) : option (list Z * list arg * nat) :=
  let int (conv : Z -> Z) base sgn k :=
    '(v, ap') ← va_int ap; out ← uprintint (conv v) base sgn; Some (out, ap', k) in
  if c0 =? ch "d" then int s32 10 true 0%nat
  else if (c0 =? ch "l") && (c1 =? ch "d") then int s64 10 true 1%nat
  else if (c0 =? ch "l") && (c1 =? ch "l") && (c2 =? ch "d") then int s64 10 true 2%nat
  else if c0 =? ch "u" then int u32 10 false 0%nat
  else if (c0 =? ch "l") && (c1 =? ch "u") then int s64 10 false 1%nat
  else if (c0 =? ch "l") && (c1 =? ch "l") && (c2 =? ch "u") then int s64 10 false 2%nat
  else if c0 =? ch "x" then int u32 16 false 0%nat
  else if (c0 =? ch "l") && (c1 =? ch "x") then int s64 16 false 1%nat
  else if (c0 =? ch "l") && (c1 =? ch "l") && (c2 =? ch "x") then int s64 16 false 2%nat
  else if c0 =? ch "p" then '(v, ap') ← va_int ap; Some (uprintptr (u64 v), ap', 0%nat)
  else if c0 =? ch "c" then '(v, ap') ← va_int ap; Some ([u8 v], ap', 0%nat)
  else if c0 =? ch "s" then '(v, ap') ← va_str ap; Some (cstring (default (str "(null)") v), ap', 0%nat)
  else if c0 =? ch "%" then Some ([ch "%"], ap, 0%nat)
  else Some ([ch "%"; c0], ap, 0%nat).

(** [for (i = 0; fmt[i]; i++)]; [state] is 0 or '%'. *)
Fixpoint vprintf_loop (fuel : nat) (fmt : list Z) (i : nat) (state : Z) (ap : list arg) : option (list Z) :=
  let c0 := fmt_at fmt i in
  if c0 =? 0 then Some []
  else
    match fuel with
    | O => None
    | S n =>
        if state =? 0 then
          if c0 =? ch "%" then vprintf_loop n fmt (S i) (ch "%") ap
          else out ← vprintf_loop n fmt (S i) 0 ap; Some (c0 :: out)
        else if state =? ch "%" then
          let c1 := fmt_at fmt (i + 1) in
          let c2 := if c1 =? 0 then 0 else fmt_at fmt (i + 2) in
          '(out, ap', k) ← uconversion c0 c1 c2 ap;
          out' ← vprintf_loop n fmt (S (i + k)) 0 ap'; Some (out ++ out')
        else vprintf_loop n fmt (S i) state ap
    end.

Definition vprintf_chars (fmt : list Z) (ap : list arg) : option (list Z) := vprintf_loop (length fmt) fmt 0 0 ap.

Definition vprintf (fd : Z) (fmt : list Z) (ap : list arg) : U unit :=
  match vprintf_chars fmt ap with
  | Some out => each out (fun c => putc fd c ;; Ret tt)
  | None => fault
  end.

Definition fprintf : Z -> list Z -> list arg -> U unit := vprintf.
Definition printf (fmt : list Z) (ap : list arg) : U unit := vprintf 1 fmt ap.

(** ** Formats *)

(** A format is a sequence of characters and conversions; the number of [l]s gives the size of an integer. *)
Inductive radix := V_d | V_u | V_x.
Inductive item :=
| I_char (c : Z)
| I_int (ls : nat) (r : radix)
| I_ptr
| I_byte
| I_str
| I_percent
| I_other (c : Z).

Definition radix_char (r : radix) : Z := match r with V_d => ch "d" | V_u => ch "u" | V_x => ch "x" end.

Definition spell1 (t : item) : list Z :=
  match t with
  | I_char c => [c]
  | I_int ls r => ch "%" :: replicate ls (ch "l") ++ [radix_char r]
  | I_ptr => [ch "%"; ch "p"]
  | I_byte => [ch "%"; ch "c"]
  | I_str => [ch "%"; ch "s"]
  | I_percent => [ch "%"; ch "%"]
  | I_other c => [ch "%"; c]
  end.

Fixpoint spell (l : list item) : list Z :=
  match l with
  | [] => []
  | t :: l' => spell1 t ++ spell l'
  end.

Definition radix_chars : list Z := [ch "d"; ch "u"; ch "x"].

(** What may stand before the rest [r] of a format. *)
Definition item_ok (t : item) (r : list Z) : Prop :=
  match t with
  | I_char c => c <> 0 /\ c <> ch "%"
  | I_int ls _ => (ls <= 2)%nat
  | I_other c => c ∉ 0 :: ch "p" :: ch "c" :: ch "s" :: ch "%" :: radix_chars /\
      (c = ch "l" -> char_at r ∉ radix_chars /\ (char_at r = ch "l" -> char_at (tl r) ∉ radix_chars))
  | _ => True
  end.

(** A lone [%] may end the format; it prints nothing. *)
Fixpoint items_ok (l : list item) (e : list Z) : Prop :=
  match l with
  | [] => e = [] \/ e = [ch "%"]
  | t :: l' => item_ok t (spell l' ++ e) /\ items_ok l' e
  end.

(** The number that an integer conversion prints, and how. *)
Definition int_arg (ls : nat) (r : radix) (v : Z) : Z :=
  match r, ls with
  | V_d, O => s32 v
  | V_d, _ => s64 v
  | _, O => u32 v
  | _, _ => u64 v
  end.

Definition int_text (r : radix) (x : Z) (out : list Z) : Prop :=
  let base := match r with V_x => 16 | _ => 10 end in
  if x <? 0 then exists num, out = ch "-" :: num /\ is_numeral digits base (- x) num
  else is_numeral digits base x out.

(** The 16 digits of an address. *)
Definition ptr_text (x : Z) (out : list Z) : Prop :=
  exists ds, out = ch "0" :: ch "x" :: map (fun d => digits !!! Z.to_nat d) ds /\ length ds = 16%nat /\
    Forall (fun d => 0 <= d < 16) ds /\ number 16 ds = x.

(** What a format prints with its arguments. *)
Inductive renders : list item -> list arg -> list Z -> Prop :=
| R_nil ap : renders [] ap []
| R_char c l ap out : renders l ap out -> renders (I_char c :: l) ap (c :: out)
| R_int ls r l v ap txt out :
    int_text r (int_arg ls r v) txt -> renders l ap out -> renders (I_int ls r :: l) (A_int v :: ap) (txt ++ out)
| R_ptr l v ap txt out : ptr_text (u64 v) txt -> renders l ap out -> renders (I_ptr :: l) (A_int v :: ap) (txt ++ out)
| R_byte l v ap out : renders l ap out -> renders (I_byte :: l) (A_int v :: ap) (u8 v :: out)
| R_str l v ap out : renders l ap out -> renders (I_str :: l) (A_str (Some v) :: ap) (cstring v ++ out)
| R_null l ap out : renders l ap out -> renders (I_str :: l) (A_str None :: ap) (str "(null)" ++ out)
| R_percent l ap out : renders l ap out -> renders (I_percent :: l) ap (ch "%" :: out)
| R_other c l ap out : renders l ap out -> renders (I_other c :: l) ap (ch "%" :: c :: out).

(** The arguments that a format needs are there. *)
Fixpoint passed (l : list item) (ap : list arg) : bool :=
  match l, ap with
  | [], _ => true
  | (I_int _ _ | I_ptr | I_byte) :: l', A_int _ :: ap' => passed l' ap'
  | (I_int _ _ | I_ptr | I_byte) :: _, _ => false
  | I_str :: l', A_str _ :: ap' => passed l' ap'
  | I_str :: _, _ => false
  | _ :: l', _ => passed l' ap
  end.

(** ** Lemmas *)

Lemma uprintint_text r xx base sgn :
  base = match r with V_x => 16 | _ => 10 end -> - 2 ^ 63 <= xx < 2 ^ 64 -> (sgn = true -> xx < 2 ^ 63) ->
  exists out, uprintint xx base sgn = Some out /\ int_text r (if sgn then xx else u64 xx) out.
Proof.
  intros Hb Hx Hs. destruct (printint_ok digits xx base sgn) as (out & E & Hn & _); [destruct r; auto|done..|].
  unfold uprintint. rewrite E. eexists. split; [done|]. unfold int_text. rewrite <- Hb. destruct sgn; cbn [andb] in *.
  - destruct (Z.ltb_spec xx 0); [by exists out|]. by rewrite u64_small in Hn by lia.
  - pose proof (u64_range xx). by rewrite (proj2 (Z.ltb_ge _ _)) by lia.
Qed.

Lemma ptr_loop_text n x : 0 <= x < 2 ^ 64 ->
  exists ds, ptr_loop n digits x = map (fun d => digits !!! Z.to_nat d) ds /\ length ds = n /\
    Forall (fun d => 0 <= d < 16) ds /\ ((n <= 16)%nat -> number 16 ds = x / 2 ^ (64 - 4 * Z.of_nat n)).
Proof.
  revert x. induction n as [|n IH]; intros x Hx; cbn [ptr_loop].
  { exists []. split_and!; try done. intros _. change (64 - 4 * Z.of_nat 0) with 64. rewrite Z.div_small by done. done. }
  destruct (IH (u64 (Z.shiftl x 4))) as (ds & E & Hl & Hf & Hn); [apply u64_range|].
  exists (Z.shiftr x 60 :: ds). rewrite E. split_and!; [done|cbn; lia|..].
  - apply Forall_cons. split; [|done]. rewrite Z.shiftr_div_pow2 by lia. Z.div_mod_to_equations. lia.
  - intros Hle. rewrite number_cons, Hl, Hn by lia. rewrite Z.shiftr_div_pow2, Z.shiftl_mul_pow2 by lia.
    set (k := Z.of_nat n) in *. replace (64 - 4 * Z.of_nat (S n)) with (60 - 4 * k) by lia.
    unfold u64, wrap. change (2 ^ 64) with (2 ^ 4 * 2 ^ 60). rewrite (Z.mul_comm x), Z.mul_mod_distr_l by lia.
    replace (64 - 4 * k) with (4 + (60 - 4 * k)) by lia. rewrite Z.pow_add_r by lia. rewrite Z.div_mul_cancel_l by lia.
    replace (16 ^ k) with (2 ^ (4 * k)) by (rewrite Z.pow_mul_r by lia; done).
    assert (E60 : 2 ^ 60 = 2 ^ (60 - 4 * k) * 2 ^ (4 * k)) by (rewrite <- Z.pow_add_r by lia; f_equal; lia).
    rewrite (Z.div_mod x (2 ^ 60)) at 3 by lia. rewrite E60 at 3.
    replace (2 ^ (60 - 4 * k) * 2 ^ (4 * k) * (x / 2 ^ 60) + x mod 2 ^ 60)
      with (x mod 2 ^ 60 + (2 ^ (4 * k) * (x / 2 ^ 60)) * 2 ^ (60 - 4 * k)) by ring.
    rewrite Z.div_add by (apply Z.pow_nonzero; lia). lia.
Qed.

Lemma uprintptr_text x : 0 <= x < 2 ^ 64 -> ptr_text x (uprintptr x).
Proof.
  intros Hx. destruct (ptr_loop_text 16 x Hx) as (ds & E & Hl & Hf & Hn). exists ds. unfold uprintptr, printptr. rewrite E.
  split_and!; try done. rewrite Hn by lia. apply Z.div_1_r.
Qed.

(** One conversion: [s] is the format after the [%]. *)
Definition converts (t : item) (s : list Z) (ap : list arg) : Prop :=
  exists out ap' k,
    uconversion (char_at s) (nth 1 s 0) (if nth 1 s 0 =? 0 then 0 else nth 2 s 0) ap = Some (out, ap', k) /\
    length (spell1 t) = S (S k) /\ (forall l, passed (t :: l) ap = passed l ap') /\
    forall l out', renders l ap' out' -> renders (t :: l) ap (out ++ out').

Lemma int_converts ls r conv s ap k :
  passed [I_int ls r] ap = true -> length (spell1 (I_int ls r)) = S (S k) ->
  (forall v, int_arg ls r v = if match r with V_d => true | _ => false end then conv v else u64 (conv v)) ->
  (forall v, - 2 ^ 63 <= conv v < 2 ^ 63) ->
  uconversion (char_at s) (nth 1 s 0) (if nth 1 s 0 =? 0 then 0 else nth 2 s 0) ap =
    ('(v, ap') ← va_int ap; out ← uprintint (conv v) (match r with V_x => 16 | _ => 10 end) (match r with V_d => true | _ => false end);
     Some (out, ap', k)) ->
  converts (I_int ls r) s ap.
Proof.
  intros Hp Hk Ha Hc E. destruct ap as [|[v|v] ap]; try done. unfold converts. rewrite E. cbn [va_int mbind option_bind].
  destruct (uprintint_text r (conv v) _ (match r with V_d => true | _ => false end) eq_refl) as (out & Eo & Ht); [specialize (Hc v); lia..|].
  rewrite Eo. exists out, ap, k. split_and!; try done. intros l out' Hr. constructor; [|done]. by rewrite Ha.
Qed.

Lemma s32_in v : - 2 ^ 63 <= s32 v < 2 ^ 63.
Proof. pose proof (swrap_range 32 v ltac:(lia)) as H. change (32 - 1) with 31 in H. lia. Qed.

Lemma s64_in v : - 2 ^ 63 <= s64 v < 2 ^ 63.
Proof. exact (swrap_range 64 v ltac:(lia)). Qed.

Lemma u32_in v : - 2 ^ 63 <= u32 v < 2 ^ 63.
Proof. pose proof (u32_range v). lia. Qed.

Lemma u64_s64 v : u64 (s64 v) = u64 v.
Proof.
  unfold u64, s64, swrap, wrap. change (64 - 1) with 63. rewrite Zminus_mod_idemp_l. by replace (v + 2 ^ 63 - 2 ^ 63) with v by lia.
Qed.

Lemma u64_u32 v : u64 (u32 v) = u32 v.
Proof. apply u64_small. pose proof (u32_range v). lia. Qed.

(** The characters that are no conversion. *)
Lemma other_conversion c r ap :
  c ∉ 0 :: ch "p" :: ch "c" :: ch "s" :: ch "%" :: radix_chars ->
  (c = ch "l" -> char_at r ∉ radix_chars /\ (char_at r = ch "l" -> char_at (tl r) ∉ radix_chars)) ->
  uconversion c (char_at r) (if char_at r =? 0 then 0 else char_at (tl r)) ap = Some ([ch "%"; c], ap, 0%nat).
Proof.
  intros Hc Hl. unfold radix_chars in Hc. rewrite !not_elem_of_cons in Hc. destruct Hc as (H0 & H1 & H2 & H3 & H4 & H5 & H6 & H7 & _).
  assert (Hll : forall x, x ∈ radix_chars -> (c =? ch "l") && (char_at r =? x) = false /\
    (c =? ch "l") && (char_at r =? ch "l") && ((if char_at r =? 0 then 0 else char_at (tl r)) =? x) = false).
  { intros x Hx. destruct (Z.eqb_spec c (ch "l")) as [->|]; [|done]. destruct (Hl eq_refl) as [Ha Hb]. cbn [andb].
    split; [apply Z.eqb_neq; intros <-; by apply Ha|]. destruct (Z.eqb_spec (char_at r) (ch "l")) as [E|]; [|done].
    rewrite E. cbn [andb]. change (ch "l" =? 0) with false. cbn iota. apply Z.eqb_neq. intros <-. by apply (Hb E). }
  unfold uconversion. assert (Hd : ch "d" ∈ radix_chars) by (by left). assert (Hu : ch "u" ∈ radix_chars) by (right; by left).
  assert (Hx : ch "x" ∈ radix_chars) by (do 2 right; by left).
  destruct (Hll _ Hd) as [-> ->], (Hll _ Hu) as [-> ->], (Hll _ Hx) as [-> ->].
  by rewrite !(proj2 (Z.eqb_neq c _)) by congruence.
Qed.

Lemma item_converts t r ap :
  item_ok t r -> (forall c, t <> I_char c) -> passed [t] ap = true -> converts t (tl (spell1 t) ++ r) ap.
Proof.
  intros Hok Hnc Hp. destruct t as [c|ls rx| | | | |c].
  - by destruct (Hnc c).
  - cbn in Hok. destruct ls as [|[|[|ls]]]; [| | |lia]; destruct rx;
      (eapply int_converts; [done|reflexivity| | |reflexivity]);
      intros v; cbn [int_arg]; rewrite ?u64_s64, ?u64_u32; auto using s32_in, s64_in, u32_in.
  - destruct ap as [|[v|v] ap]; try done. exists (uprintptr (u64 v)), ap, 0%nat. split_and!; try done.
    intros l out' Hr. constructor; [|done]. apply uprintptr_text, u64_range.
  - destruct ap as [|[v|v] ap]; try done. exists [u8 v], ap, 0%nat. split_and!; try done. intros l out' Hr. by constructor.
  - destruct ap as [|[v|v] ap]; try done. exists (cstring (default (str "(null)") v)), ap, 0%nat. split_and!; try done.
    intros l out' Hr. destruct v; by constructor.
  - exists [ch "%"], ap, 0%nat. split_and!; try done. intros l out' Hr. by constructor.
  - destruct Hok as [Hc Hl]. exists [ch "%"; c], ap, 0%nat.
    split_and!; [|done|done|intros l out' Hr; by constructor].
    cbn [spell1 tl app char_at hd nth]. replace (nth 0 r 0) with (char_at r) by (by destruct r).
    replace (nth 1 r 0) with (char_at (tl r)) by (by destruct r as [|? []]). apply other_conversion; done.
Qed.

Lemma fmt_at_app pre s k : fmt_at (pre ++ s) (length pre + k) = nth k s 0.
Proof. unfold fmt_at. rewrite app_nth2_plus. done. Qed.

Lemma spell1_conv t r :
  item_ok t r -> (forall c, t <> I_char c) -> exists c s, spell1 t = ch "%" :: c :: s /\ c <> 0.
Proof.
  intros Hok Hnc. destruct t as [c|ls rx| | | | |c]; cbn [spell1]; try by eauto.
  - by destruct (Hnc c).
  - destruct ls as [|ls]; cbn; [destruct rx|]; by eauto.
  - exists c, []. split; [done|]. destruct Hok as [Hc _]. by apply not_elem_of_cons in Hc as [? _].
Qed.

(** The loop prints what the items say. *)
Lemma vprintf_loop_ok e l : forall pre fuel ap,
  items_ok l e -> passed l ap = true -> (length (spell l ++ e) <= fuel)%nat ->
  exists out, vprintf_loop fuel (pre ++ spell l ++ e) (length pre) 0 ap = Some out /\ renders l ap out.
Proof.
  assert (At : forall pre s k, fmt_at (pre ++ s) (length pre + k) = nth k s 0) by apply fmt_at_app.
  assert (At0 : forall pre s, fmt_at (pre ++ s) (length pre) = char_at s).
  { intros pre s. rewrite <- (Nat.add_0_r (length pre)), At. by destruct s. }
  induction l as [|t l IH]; intros pre fuel ap Hok Hp Hf; cbn [spell items_ok] in *.
  { exists []. split; [|constructor]. destruct Hok as [-> | ->]; cbn [app] in *.
    - destruct fuel; cbn [vprintf_loop]; by rewrite At0.
    - destruct fuel as [|[|fuel]]; [cbn in Hf; lia|..]; cbn [vprintf_loop]; rewrite At0; cbn;
        replace (S (length pre)) with (length pre + 1)%nat by lia; by rewrite At. }
  destruct Hok as [Ht Hl]. rewrite <- app_assoc in *. rewrite length_app in Hf.
  assert (Hdec : (exists c, t = I_char c) \/ forall c, t <> I_char c) by (destruct t; eauto).
  destruct Hdec as [[c ->]|Hnc].
  - cbn [spell1 app length] in *. destruct Ht as [H0 Hpc]. destruct fuel as [|fuel]; [lia|]. cbn [vprintf_loop]. rewrite At0. cbn [char_at hd].
    rewrite (proj2 (Z.eqb_neq c 0)), (proj2 (Z.eqb_neq c (ch "%"))) by done. cbn [Z.eqb].
    destruct (IH (pre ++ [c]) fuel ap Hl Hp) as (out & E & Hr); [lia|]. rewrite length_app, <- app_assoc in E. cbn [length app] in E.
    rewrite Nat.add_1_r in E. rewrite E. exists (c :: out). split; [done|by constructor].
  - destruct (item_converts t (spell l ++ e) ap Ht Hnc) as (out & ap' & k & Ec & Hk & Hps & Hr).
    { destruct t; destruct ap as [|[] ap]; done. }
    destruct (spell1_conv t (spell l ++ e) Ht Hnc) as (c & s & Es & Hc0). rewrite Es in *. cbn [tl app length char_at hd] in *.
    destruct fuel as [|[|fuel]]; [lia..|]. cbn [vprintf_loop]. rewrite At0. cbn [char_at hd]. change (ch "%" =? 0) with false.
    change (ch "%" =? ch "%") with true. change (0 =? 0) with true. cbn iota. rewrite <- Nat.add_1_r, At. cbn [nth].
    rewrite (proj2 (Z.eqb_neq c 0)) by done. change (ch "%" =? 0) with false. change (ch "%" =? ch "%") with true. cbn iota zeta.
    rewrite <- !Nat.add_assoc, !At. cbn [Nat.add nth] in *. rewrite Ec. cbn [mbind option_bind].
    rewrite Hps in Hp. destruct (IH (pre ++ spell1 t) fuel ap' Hl Hp) as (out' & E & Hr'); [lia|].
    rewrite length_app, <- app_assoc, Es in E. cbn [length app] in E. replace (S (length pre + 1 + k)) with (length pre + S (S (length s)))%nat by lia.
    rewrite E. exists (out ++ out'). split; [done|by apply Hr].
Qed.

Lemma vprintf_items l e ap : items_ok l e -> passed l ap = true ->
  exists out, vprintf_chars (spell l ++ e) ap = Some out /\ renders l ap out.
Proof. intros Hl Hp. apply (vprintf_loop_ok e l []); [done..|lia]. Qed.

(** The environment after [out] was printed, character by character. *)
Definition print (fd : Z) (out : list Z) (w : world) : world := w <| w_out ::= (fun o => o ++ map (fun c => (fd, [u8 c])) out) |>.

Definition writable (w : world) (fd : Z) : Prop := exists d, fd_of w fd = Some d /\ d_write d = true.

Lemma gives_write fd b w : writable w fd ->
  gives (call (Write fd b)) w (Z.of_nat (length b)) (w <| w_out ::= (fun o => o ++ [(fd, b)]) |>).
Proof. intros ([i wr st] & Hd & Hw). cbn in Hw. subst wr. apply gives_call. cbn. unfold do_write. by rewrite Hd. Qed.

Lemma writable_out f w fd : writable (w <| w_out ::= f |>) fd <-> writable w fd.
Proof. done. Qed.

Lemma print_nil fd w : print fd [] w = w.
Proof. unfold print. w_eq w. apply app_nil_r. Qed.

Lemma printed_app fd out out' w : print fd (out ++ out') w = print fd out' (print fd out w).
Proof. unfold print. w_eq w. by rewrite map_app, app_assoc. Qed.

Lemma gives_chars fd out w : writable w fd -> gives (each out (fun c => putc fd c ;; Ret tt)) w tt (print fd out w).
Proof.
  revert w. induction out as [|c out IH]; intros w Hw; cbn [each]; [rewrite print_nil; apply gives_ret|].
  eapply gives_bind; [eapply gives_bind; [by apply gives_write|apply gives_ret]|].
  change (c :: out) with ([c] ++ out). rewrite printed_app. by apply IH, writable_out.
Qed.

Lemma gives_vprintf fd fmt ap out w :
  vprintf_chars fmt ap = Some out -> writable w fd -> gives (vprintf fd fmt ap) w tt (print fd out w).
Proof. intros E Hw. unfold vprintf. rewrite E. by apply gives_chars. Qed.

(** Every format is a sequence of items. *)
Lemma radix_of c : c ∈ radix_chars -> exists r, c = radix_char r.
Proof.
  unfold radix_chars. rewrite !elem_of_cons. intros [->|[->|[->|H]]]; [by exists V_d|by exists V_u|by exists V_x|by apply elem_of_nil in H].
Qed.

Lemma next_item c s : c <> 0 -> exists t r, ch "%" :: c :: s = spell1 t ++ r /\ item_ok t r.
Proof.
  intros H0. destruct (decide (c ∈ radix_chars)) as [[r ->]%radix_of|Hr].
  { exists (I_int 0 r), s. split; [done|cbn; lia]. }
  destruct (decide (c = ch "p")) as [->|Hp]; [by exists I_ptr, s|].
  destruct (decide (c = ch "c")) as [->|Hc]; [by exists I_byte, s|].
  destruct (decide (c = ch "s")) as [->|Hs]; [by exists I_str, s|].
  destruct (decide (c = ch "%")) as [->|Hpc]; [by exists I_percent, s|].
  assert (Hother : c ∉ 0 :: ch "p" :: ch "c" :: ch "s" :: ch "%" :: radix_chars) by (rewrite !not_elem_of_cons; done).
  assert (H0r : 0 ∉ radix_chars) by (by compute_done).
  destruct (decide (c = ch "l")) as [->|Hl]; [|by exists (I_other c), s].
  destruct (decide (char_at s ∈ radix_chars)) as [Hs1|Hs1].
  { destruct s as [|c1 s]; [done|]. cbn in Hs1. apply radix_of in Hs1 as [r ->]. exists (I_int 1 r), s. split; [done|cbn; lia]. }
  destruct (decide (char_at s = ch "l" /\ char_at (tl s) ∈ radix_chars)) as [[Hs2 Hs3]|Hs2].
  - destruct s as [|c1 [|c2 s]]; [done..|]. cbn in Hs2, Hs3. subst c1. apply radix_of in Hs3 as [r ->].
    exists (I_int 2 r), s. split; [done|cbn; lia].
  - exists (I_other (ch "l")), s. split; [done|]. split; [done|]. intros _. split; [done|]. intros E Hx. by apply Hs2.
Qed.

Lemma every_format fmt : 0 ∉ fmt -> exists l e, fmt = spell l ++ e /\ items_ok l e.
Proof.
  remember (length fmt) as n eqn:Hn. revert fmt Hn. induction n as [n IH] using lt_wf_ind. intros fmt -> H0.
  destruct fmt as [|c fmt]; [exists [], []; split; [done|by left]|]. pose proof H0 as H0f. apply not_elem_of_cons in H0 as [Hc H0].
  destruct (decide (c = ch "%")) as [->|Hpc].
  - destruct fmt as [|c1 fmt]; [exists [], [ch "%"]; split; [done|by right]|]. apply not_elem_of_cons in H0 as [Hc1 H0].
    destruct (next_item c1 fmt) as (t & r & E & Ht); [congruence|]. rewrite E in *.
    destruct (IH (length r) ltac:(rewrite length_app; destruct t; cbn; lia) r eq_refl) as (l & e & -> & Hl).
    { intros Hr. apply H0f, elem_of_app. by right. }
    exists (t :: l), e. cbn [spell items_ok]. by rewrite app_assoc.
  - destruct (IH (length fmt) ltac:(cbn; lia) fmt eq_refl H0) as (l & e & -> & Hl).
    exists (I_char c :: l), e. split; [done|]. cbn [items_ok item_ok]. split; [split; [congruence|done]|done].
Qed.

(** C26: [vprintf] prints what its format says.  Every format is a sequence of characters and conversions;
    if the arguments that they need are passed, [vprintf] writes to the descriptor the text that they
    stand for, one after the other: integers as numerals in their base, as wide as the number of
    [l]s says, addresses with 16 digits, strings up to their NUL.  An unknown conversion is printed as it
    is, and a [%] at the end is dropped. *)
Theorem vprintf_formats :
  (forall fmt, 0 ∉ fmt -> exists l e, fmt = spell l ++ e /\ items_ok l e) /\
  (forall l e fd ap w, items_ok l e -> passed l ap = true -> writable w fd ->
    exists out, renders l ap out /\ gives (vprintf fd (spell l ++ e) ap) w tt (print fd out w)).
Proof.
  split; [apply every_format|]. intros l e fd ap w Hl Hp Hw.
  destruct (vprintf_items l e ap Hl Hp) as (out & E & Hr).
  exists out. split; [done|]. by apply gives_vprintf.
Qed.

(** A terminal on the first three descriptors. *)
Definition tty (inp : list Z) : world :=
  World ∅ (replicate 3 (Some (mkDesc (Some (mkInput inp (fun _ => 0%nat) 0)) true (mkStat 1 1 T_DEVICE 1 0))) ++ replicate 13 None) []
    (fun _ => 0%nat).

Lemma vprintf_formats_witness :
  exists out, renders [I_int 0 V_d; I_char 32; I_int 1 V_x; I_other (ch "q"); I_str] [A_int (-5); A_int 255; A_str None] out /\
    gives (vprintf 1 (str "%d %lx%q%s%") [A_int (-5); A_int 255; A_str None]) (tty []) tt (print 1 out (tty [])).
Proof.
  apply (proj2 vprintf_formats [I_int 0 V_d; I_char 32; I_int 1 V_x; I_other (ch "q"); I_str] [ch "%"]).
  - cbn. split_and!; try done; [lia..| |by right]. compute_done.
  - reflexivity.
  - by eexists.
Defined.
