(* ===== verification/Uprog.v ===== *)
(** Small user programs: cat.c, echo.c, wc.c, kill.c, ln.c, rm.c, mkdir.c, sync.c, zombie.c, init.c and
    ls.c, and the routines of ulib.c that make system calls.

    [argv] is the whole vector, with the name of the program; strings are lists of bytes that end at a
    NUL or with the list. *)

From stdpp Require Import prelude gmap strings.
From Stdlib Require Import ZArith Lia Ascii.
From ITree Require Import ITree.
From S2P Require Import Prelude Bytes Params CString Printk Fs Ulib Usys Uprintf.

Local Open Scope Z_scope.
Local Open Scope user_scope.

(** ** ulib.c: calls of the system *)

Definition start (main : list (list Z) -> U Z) (argv : list (list Z)) : U unit :=
  r <- main argv ;; exit r.

Definition sbrk (n : Z) : U Z := call (Sbrk n SBRK_EAGER).
Definition sbrklazy (n : Z) : U Z := call (Sbrk n SBRK_LAZY).

Definition ustat (n : list Z) : U (option stat) :=
  fd <- call (Open n O_RDONLY) ;;
  if fd <? 0 then Ret None
  else r <- call (Fstat fd) ;; call (Close fd) ;; Ret r.

(** ** cat.c *)

Definition cat (fd : Z) : U unit :=
  n <- loop (fun _ : unit =>
         r <- call (Read fd 512) ;;
         match r with
         | None => Ret (inr (-1))
         | Some [] => Ret (inr 0)
         | Some buf =>
             k <- call (Write 1 buf) ;;
             if k =? Z.of_nat (length buf) then Ret (inl tt)
             else fprintf 2 (strn "cat: write error") [] ;; exit 1
         end) tt ;;
  if n <? 0 then fprintf 2 (strn "cat: read error") [] ;; exit 1 else Ret tt.

Definition cat_arg (a : list Z) : U unit :=
  fd <- call (Open a O_RDONLY) ;;
  if fd <? 0 then fprintf 2 (strn "cat: cannot open %s") [A_str (Some a)] ;; exit 1
  else cat fd ;; call (Close fd) ;; Ret tt.

Definition cat_main (argv : list (list Z)) : U unit :=
  if decide (length argv <= 1)%nat then cat 0 ;; exit 0
  else each (tl argv) cat_arg ;; exit 0.

(** ** echo.c *)

Fixpoint echo_args (args : list (list Z)) : U unit :=
  match args with
  | [] => Ret tt
  | a :: rest =>
      call (Write 1 (cstring a)) ;;
      (match rest with [] => call (Write 1 [10]) | _ => call (Write 1 [32]) end) ;;
      echo_args rest
  end.

Definition echo_main (argv : list (list Z)) : U unit := echo_args (tl argv) ;; exit 0.

(** ** wc.c *)

Record counts := mkCounts { n_l : Z; n_w : Z; n_c : Z; inword : bool }.

Definition wc_blanks : list Z := [32; 13; 9; 10; 11].

(** One character. *)
Definition count1 (k : counts) (ch : Z) : counts :=
  let c := s32 (n_c k + 1) in
  let l := if ch =? 10 then s32 (n_l k + 1) else n_l k in
  match strchr wc_blanks ch with
  | Some _ => mkCounts l (n_w k) c false
  | None => if inword k then mkCounts l (n_w k) c true else mkCounts l (s32 (n_w k + 1)) c true
  end.

Definition wc (fd : Z) (name : list Z) : U unit :=
  r <- loop (fun k : counts =>
         r <- call (Read fd 512) ;;
         match r with
         | None => Ret (inr None)
         | Some [] => Ret (inr (Some k))
         | Some buf => Ret (inl (foldl count1 k buf))
         end) (mkCounts 0 0 0 false) ;;
  match r with
  | None => printf (strn "wc: read error") [] ;; exit 1
  | Some k => printf (strn "%d %d %d %s") [A_int (n_l k); A_int (n_w k); A_int (n_c k); A_str (Some name)]
  end.

Definition wc_arg (a : list Z) : U unit :=
  fd <- call (Open a O_RDONLY) ;;
  if fd <? 0 then printf (strn "wc: cannot open %s") [A_str (Some a)] ;; exit 1
  else wc fd a ;; call (Close fd) ;; Ret tt.

Definition wc_main (argv : list (list Z)) : U unit :=
  if decide (length argv <= 1)%nat then wc 0 [] ;; exit 0
  else each (tl argv) wc_arg ;; exit 0.

(** ** kill.c, ln.c, rm.c, mkdir.c, sync.c, zombie.c *)

Definition kill_main (argv : list (list Z)) : U unit :=
  if decide (length argv < 2)%nat then fprintf 2 (strn "usage: kill pid...") [] ;; exit 1
  else each (tl argv) (fun a => call (Kill (atoi a)) ;; Ret tt) ;; exit 0.

Definition ln_main (argv : list (list Z)) : U unit :=
  match argv with
  | [_; old; new] =>
      r <- call (Link old new) ;;
      (if r <? 0 then fprintf 2 (strn "link %s %s: failed") [A_str (Some old); A_str (Some new)] else Ret tt) ;;
      exit 0
  | _ => fprintf 2 (strn "Usage: ln old new") [] ;; exit 1
  end.

(** The loop of rm and mkdir stops at the first failure. *)
Fixpoint until_failure (f : list Z -> sysE Z) (fmt : list Z) (args : list (list Z)) : U unit :=
  match args with
  | [] => Ret tt
  | a :: rest =>
      r <- call (f a) ;;
      if r <? 0 then fprintf 2 fmt [A_str (Some a)] else until_failure f fmt rest
  end.

Definition rm_main (argv : list (list Z)) : U unit :=
  if decide (length argv < 2)%nat then fprintf 2 (strn "Usage: rm files...") [] ;; exit 1
  else until_failure Unlink (strn "rm: %s failed to delete") (tl argv) ;; exit 0.

Definition mkdir_main (argv : list (list Z)) : U unit :=
  if decide (length argv < 2)%nat then fprintf 2 (strn "Usage: mkdir files...") [] ;; exit 1
  else until_failure Mkdir (strn "mkdir: %s failed to create") (tl argv) ;; exit 0.

Definition sync_main : U unit := call Sync ;; exit 0.

Definition zombie_main : U unit :=
  pid <- call Fork ;;
  (if 0 <? pid then call (Pause 5) ;; Ret tt else Ret tt) ;;
  exit 0.

(** ** init.c *)

(** [wait] until the shell is gone. *)
Definition init_wait (pid : Z) : U unit :=
  loop (fun _ : unit =>
    wpid <- call Wait ;;
    if wpid =? pid then Ret (inr tt)
    else if wpid <? 0 then printf (strn "init: wait returned an error") [] ;; exit 1
    else Ret (inl tt)) tt.

Definition init_round : U unit :=
  printf (strn "init: starting sh") [] ;;
  pid <- call Fork ;;
  if pid <? 0 then printf (strn "init: fork failed") [] ;; exit 1
  else if pid =? 0 then
    call (Exec (str "sh") [str "sh"]) ;;
    printf (strn "init: exec sh failed") [] ;;
    exit 1
  else init_wait pid.

Definition init_main : U Empty_set :=
  fd <- call (Open (str "console") O_RDWR) ;;
  (if fd <? 0 then
     call (Mknod (str "console") CONSOLE 0) ;;
     call (Open (str "console") O_RDWR) ;;
     Ret tt
   else Ret tt) ;;
  call (Dup 0) ;;
  call (Dup 0) ;;
  loop (fun _ : unit => init_round ;; Ret (inl tt)) tt.

(** ** ls.c *)

(** [for (p = path + n; p >= path && *p != '/'; p--); p++;] *)
Fixpoint after_slash (path : list Z) (n : nat) : nat :=
  if default 0 (path !! n) =? ch "/" then S n
  else match n with O => O | S n' => after_slash path n' end.

Definition fmtname (path : list Z) : list Z :=
  let p := drop (after_slash path (length (cstring path))) path in
  let n := Ulib.strlen p in
  if Z.of_nat DIRSIZ <=? n then cstring p
  else take (Z.to_nat n) p ++ replicate (DIRSIZ - Z.to_nat n) 32.

Definition ls_line (path : list Z) (st : stat) : U unit :=
  printf (strn "%s %d %d %d") [A_str (Some (fmtname path)); A_int (st_type st); A_int (st_ino st); A_int (st_size st)].

(** One entry of a directory; [path] already has the slash. *)
Definition ls_entry (path de : list Z) : U unit :=
  if dirent_inum de =? 0 then Ret tt
  else
    let buf := cstring (path ++ dirent_name de) in
    r <- ustat buf ;;
    match r with
    | None => printf (strn "ls: cannot stat %s") [A_str (Some buf)]
    | Some st => ls_line buf st
    end.

Definition ls_dir (fd : Z) (path : list Z) : U unit :=
  loop (fun _ : unit =>
    r <- call (Read fd (Z.to_nat DIRENT_SIZE)) ;;
    match r with
    | Some de => if Z.of_nat (length de) =? DIRENT_SIZE then ls_entry path de ;; Ret (inl tt) else Ret (inr tt)
    | None => Ret (inr tt)
    end) tt.

Definition ls (path : list Z) : U unit :=
  fd <- call (Open path O_RDONLY) ;;
  if fd <? 0 then fprintf 2 (strn "ls: cannot open %s") [A_str (Some path)]
  else
    r <- call (Fstat fd) ;;
    match r with
    | None =>
        fprintf 2 (strn "ls: cannot stat %s") [A_str (Some path)] ;;
        call (Close fd) ;;
        Ret tt
    | Some st =>
        (if (st_type st =? T_DEVICE) || (st_type st =? T_FILE) then ls_line path st
         else if st_type st =? T_DIR then
           if 512 <? Ulib.strlen path + 1 + Z.of_nat DIRSIZ + 1 then printf (strn "ls: path too long") []
           else ls_dir fd (cstring path ++ [ch "/"])
         else Ret tt) ;;
        call (Close fd) ;;
        Ret tt
    end.

Definition ls_main (argv : list (list Z)) : U unit :=
  if decide (length argv < 2)%nat then ls (str ".") ;; exit 0
  else each (tl argv) ls ;; exit 0.
