(* ===== verification/Utools.v ===== *)
(** What cat, echo, wc, rm and ls do in an environment with files (user/cat.c, echo.c, wc.c, rm.c, ls.c). *)

From stdpp Require Import prelude gmap strings pretty.
From Stdlib Require Import ZArith Lia Ascii.
From ITree Require Import ITree.
From S2P Require Import Prelude Bytes Params CString Printk Fs Ulib Usys Uprintf Uprog.

Local Open Scope Z_scope.
Local Open Scope user_scope.

(** ** What the environment sees *)

(** The bytes written to a descriptor, in order. *)
Definition written (fd : Z) (w : world) : list Z := concat (map snd (filter (fun o => o.1 = fd) (w_out w))).

(** From [w] to [w'] the program wrote [out] to descriptor 1 and [err] to 2, and nothing else has changed but
    descriptors. *)
Record wrote (w w' : world) (out err : list Z) : Prop := {
  wr_out : written 1 w' = written 1 w ++ out;
  wr_err : written 2 w' = written 2 w ++ err;
  wr_files : w_files w' = w_files w;
  wr_ready : w_ready w' = w_ready w;
}.

Lemma wrote_refl w : wrote w w [] [].
Proof. split; by rewrite ?app_nil_r. Qed.

Lemma wrote_trans w w1 w2 out err out' err' :
  wrote w w1 out err -> wrote w1 w2 out' err' -> wrote w w2 (out ++ out') (err ++ err').
Proof.
  intros [A1 A2 A3 A4] [B1 B2 B3 B4]. split; [by rewrite B1, A1, app_assoc|by rewrite B2, A2, app_assoc|congruence..].
Qed.

Lemma wrote_before w w1 w2 out err : wrote w w1 [] [] -> wrote w1 w2 out err -> wrote w w2 out err.
Proof. apply wrote_trans. Qed.

Lemma wrote_after w w1 w2 out err : wrote w w1 out err -> wrote w1 w2 [] [] -> wrote w w2 out err.
Proof. intros H1 H2. rewrite <- (app_nil_r out), <- (app_nil_r err). by eapply wrote_trans. Qed.

Lemma wrote_fd w fd d : wrote w (set_fd fd d w) [] [].
Proof. split; by rewrite ?app_nil_r. Qed.

Lemma written_out o fd w : written fd (w <| w_out ::= (fun l => l ++ o) |>) = written fd w ++ concat (map snd (filter (fun x => x.1 = fd) o)).
Proof. unfold written. change (w_out (w <| w_out ::= _ |>)) with (w_out w ++ o). by rewrite filter_app, map_app, concat_app. Qed.

Lemma wrote_1 w b : wrote w (w <| w_out ::= (fun l => l ++ [(1, b)]) |>) b [].
Proof.
  split; [..|done|done]; rewrite written_out.
  - rewrite filter_cons_True, filter_nil by done. cbn. by rewrite app_nil_r.
  - rewrite filter_cons_False, filter_nil by done. cbn. by rewrite app_nil_r.
Qed.

Lemma print_written fd fd' out w : written fd' (print fd out w) = written fd' w ++ (if decide (fd = fd') then map u8 out else []).
Proof.
  unfold print. rewrite written_out. f_equal. induction out as [|c out IH]; [by case_decide|]. cbn [map].
  case_decide as E.
  - rewrite filter_cons_True by done. cbn [map concat snd app]. by rewrite IH.
  - by rewrite filter_cons_False by done.
Qed.

Lemma wrote_print1 out w : wrote w (print 1 out w) (map u8 out) [].
Proof. split; [|..|done|done]; rewrite print_written; [by rewrite decide_True|by rewrite decide_False, app_nil_r]. Qed.

Lemma wrote_print2 out w : wrote w (print 2 out w) [] (map u8 out).
Proof. split; [|..|done|done]; rewrite print_written; [by rewrite decide_False, app_nil_r|by rewrite decide_True]. Qed.

(** ** Descriptors *)

Lemma fd_of_lt w fd d : fd_of w fd = Some d -> 0 <= fd /\ (Z.to_nat fd < length (w_fds w))%nat.
Proof.
  unfold fd_of. destruct (Z.leb_spec 0 fd); [|done]. intros H'. split; [done|].
  destruct (w_fds w !! Z.to_nat fd) eqn:E; [by eapply lookup_lt_Some|done].
Qed.

Lemma fd_of_set w fd d : 0 <= fd -> (Z.to_nat fd < length (w_fds w))%nat -> fd_of (set_fd fd d w) fd = d.
Proof.
  intros H0 Hl. unfold fd_of, set_fd. rewrite (proj2 (Z.leb_le 0 fd)) by done.
  change (w_fds (w <| w_fds ::= _ |>)) with (<[Z.to_nat fd := d]> (w_fds w)). rewrite list_lookup_insert_eq by done. by destruct d.
Qed.

Lemma fd_of_ne w fd fd' d : 0 <= fd -> fd' <> fd -> fd_of (set_fd fd d w) fd' = fd_of w fd'.
Proof.
  intros H0 Hne. unfold fd_of, set_fd. destruct (Z.leb_spec 0 fd'); [|done].
  change (w_fds (w <| w_fds ::= _ |>)) with (<[Z.to_nat fd := d]> (w_fds w)). rewrite list_lookup_insert_ne by lia. done.
Qed.

Lemma set_fd_set fd d d' w : set_fd fd d (set_fd fd d' w) = set_fd fd d w.
Proof. unfold set_fd. w_eq w. apply list_insert_insert_eq. Qed.

(** The reading descriptors: [i_bytes] are to come. *)
Definition reads (w : world) (fd : Z) (bytes : list Z) : Prop :=
  exists inp wr st, fd_of w fd = Some (mkDesc (Some inp) wr st) /\ i_bytes inp = bytes.

(** A [read] gives the next bytes, one at least if there are any, and changes what is left. *)
Lemma gives_read w fd n bytes : reads w fd bytes -> (0 < n)%nat ->
  exists l bytes' d d', fd_of w fd = Some d /\ d_write d' = d_write d /\ gives (call (Read fd n)) w (Some l) (set_fd fd (Some d') w) /\
    bytes = l ++ bytes' /\ (l = [] -> bytes = []) /\ reads (set_fd fd (Some d') w) fd bytes'.
Proof.
  intros (inp & wr & st & Hd & <-) Hn. destruct (read n inp) as [l inp'] eqn:E. destruct (read_spec _ _ _ _ E) as (Hb & _ & Hl).
  exists l, (i_bytes inp'), (mkDesc (Some inp) wr st), (mkDesc (Some inp') wr st). split_and!; try done.
  - apply gives_call. cbn. unfold do_read. by rewrite Hd, E.
  - intros ->. destruct (Hl eq_refl); [lia|done].
  - exists inp', wr, st. destruct (fd_of_lt _ _ _ Hd). by rewrite fd_of_set.
Qed.

(** Writing is possible where it was. *)
Lemma writable_set w fd d d' k : fd_of w fd = Some d -> d_write d' = d_write d -> writable w k -> writable (set_fd fd (Some d') w) k.
Proof.
  intros Hd Hw (dk & Hk & Hwk). destruct (fd_of_lt _ _ _ Hd) as [H0 Hl]. destruct (decide (k = fd)) as [->|Hne].
  - exists d'. rewrite fd_of_set by done. split; [done|congruence].
  - exists dk. by rewrite fd_of_ne.
Qed.

(** ** cat *)

Definition cat_step (fd : Z) (_ : unit) : U (unit + Z) :=
  r <- call (Read fd 512) ;;
  match r with
  | None => Ret (inr (-1))
  | Some [] => Ret (inr 0)
  | Some buf =>
      k <- call (Write 1 buf) ;;
      if k =? Z.of_nat (length buf) then Ret (inl tt)
      else fprintf 2 (strn "cat: write error") [] ;; exit 1
  end.

(** [w'] is [w] with [fd] at its end. *)
Definition at_end (w w' : world) (fd : Z) : Prop :=
  exists d d', fd_of w fd = Some d /\ d_write d' = d_write d /\ w_fds w' = <[Z.to_nat fd := Some d']> (w_fds w).

Lemma at_end_again w w1 fd d d' w' :
  fd_of w fd = Some d -> d_write d' = d_write d -> w_fds w1 = w_fds (set_fd fd (Some d') w) -> at_end w1 w' fd -> at_end w w' fd.
Proof.
  intros Hd Hdw E (d1 & d2 & Hd1 & Hdw2 & Hf). exists d, d2. destruct (fd_of_lt _ _ _ Hd) as [H0 Hlt].
  assert (Hd1' : fd_of (set_fd fd (Some d') w) fd = Some d1) by (unfold fd_of in *; by rewrite <- E).
  rewrite fd_of_set in Hd1' by done. injection Hd1' as <-.
  split_and!; [done|congruence|]. rewrite Hf, E. apply list_insert_insert_eq.
Qed.

Lemma writable_end w w' fd k : at_end w w' fd -> writable w k -> writable w' k.
Proof.
  intros (d & d' & Hd & Hdw & Hf) Hw. destruct (writable_set w fd d d' k Hd Hdw Hw) as (dk & Hk & Hwk).
  exists dk. split; [|done]. unfold fd_of in *. by rewrite Hf.
Qed.

Lemma cat_loop fd bytes : forall w, reads w fd bytes -> writable w 1 ->
  exists w', gives (loop (cat_step fd) tt) w 0 w' /\ wrote w w' bytes [] /\ at_end w w' fd.
Proof.
  remember (length bytes) as n eqn:Hn. revert bytes Hn. induction n as [n IH] using lt_wf_ind. intros bytes -> w Hr Hw.
  destruct (gives_read w fd 512 bytes Hr ltac:(lia)) as (l & bytes' & d & d' & Hd & Hdw & Hg & -> & Hl & Hr').
  destruct l as [|c l].
  - exists (set_fd fd (Some d') w). specialize (Hl eq_refl). cbn [app] in *. subst bytes'. split_and!.
    + apply gives_done. eapply gives_bind; [exact Hg|]. apply gives_ret.
    + apply wrote_fd.
    + by exists d, d'.
  - set (w1 := set_fd fd (Some d') w) in *. assert (Hw1 : writable w1 1) by (by eapply writable_set).
    set (w2 := w1 <| w_out ::= (fun o => o ++ [(1, c :: l)]) |>).
    destruct (IH (length bytes')) with (bytes := bytes') (w := w2) as (w' & Hg' & Hwr & He); [rewrite length_app; cbn; lia|done..|].
    exists w'. split_and!.
    + eapply gives_again; [|exact Hg']. eapply gives_bind; [exact Hg|]. cbv beta iota. eapply gives_bind; [by apply gives_write|].
      cbv beta. rewrite Z.eqb_refl. apply gives_ret.
    + apply (wrote_before _ w1); [apply wrote_fd|]. eapply (wrote_trans _ w2 _ _ []); [apply wrote_1|done].
    + by eapply (at_end_again w w2).
Qed.

Lemma cat_ok fd bytes w : reads w fd bytes -> writable w 1 ->
  exists w', gives (cat fd) w tt w' /\ wrote w w' bytes [] /\ at_end w w' fd.
Proof.
  intros Hr Hw. destruct (cat_loop fd bytes w Hr Hw) as (w' & Hg & Hwr & He). exists w'. split_and!; try done.
  unfold cat. eapply gives_bind; [exact Hg|]. apply gives_ret.
Qed.

(** ** Programs that work on the files they are given *)

(** A terminal or the like to write to, and a free descriptor. *)
Record ready (w : world) : Prop := {
  rd_out : writable w 1;
  rd_err : writable w 2;
  rd_free : is_Some (free_fd w);
}.

Lemma ready_fds w w' : w_fds w' = w_fds w -> ready w -> ready w'.
Proof.
  intros E [H1 H2 H3]. unfold writable, free_fd, fd_of in *. split; unfold writable, free_fd, fd_of; by rewrite E.
Qed.

(** [open] of a file that is there. *)
Lemma gives_open w a f : ready w -> w_files w !! a = Some f ->
  exists n, let w' := set_fd (Z.of_nat n) (Some (mkDesc (Some (mkInput (f_data f) (w_ready w) 0)) false (f_stat f))) w in
    gives (call (Open a O_RDONLY)) w (Z.of_nat n) w' /\ w_fds w !! n = Some None /\ reads w' (Z.of_nat n) (f_data f) /\
    writable w' 1 /\ writable w' 2.
Proof.
  intros [H1 H2 [n Hn]] Hf. exists n. pose proof Hn as Hfree. unfold free_fd in Hn.
  apply fmap_Some in Hn as ([? ?] & (Hnone & -> & _)%list_find_Some & ->). cbn [fst] in *. pose proof (lookup_lt_Some _ _ _ Hnone) as Hlt.
  set (w' := set_fd _ _ w). assert (Hk : forall k, writable w k -> writable w' k).
  { intros k (d & Hd & Hw). exists d. split; [|done]. unfold w'. rewrite fd_of_ne; [done|lia|]. intros ->.
    unfold fd_of in Hd. rewrite (proj2 (Z.leb_le _ _)), Nat2Z.id, Hnone in Hd by lia. done. }
  split_and!; [|done| |by apply Hk..].
  - apply gives_call. cbn. unfold do_open. rewrite Hf, Hfree. by rewrite andb_false_r.
  - eexists _, _, _. unfold w'. rewrite fd_of_set; [done|lia|by rewrite Nat2Z.id].
Qed.

Lemma gives_no_file w a mode : w_files w !! a = None -> gives (call (Open a mode)) w (-1) w.
Proof. intros H. apply gives_call. cbn. unfold do_open. by rewrite H. Qed.

Lemma gives_close w fd d : fd_of w fd = Some d -> gives (call (Close fd)) w 0 (set_fd fd None w).
Proof. intros H. apply gives_call. cbn. unfold do_close. by rewrite H. Qed.

(** The descriptor [n] of a file that was opened is closed. *)
Lemma closes w n d w2 out err :
  let w1 := set_fd (Z.of_nat n) (Some d) w in
  w_fds w !! n = Some None -> wrote w1 w2 out err -> at_end w1 w2 (Z.of_nat n) \/ w_fds w2 = w_fds w1 ->
  exists w3, gives (call (Close (Z.of_nat n)) ;; Ret tt) w2 tt w3 /\ w_fds w3 = w_fds w /\ wrote w w3 out err.
Proof.
  intros w1 Hnone Hwr Hfd. exists (set_fd (Z.of_nat n) None w2). pose proof (lookup_lt_Some _ _ _ Hnone) as Hlt.
  assert (E1 : w_fds w1 = <[n := Some d]> (w_fds w)) by (unfold w1, set_fd; by rewrite Nat2Z.id).
  assert (exists d', w_fds w2 = <[n := Some d']> (w_fds w)) as (d' & Ed).
  { destruct Hfd as [(? & d' & _ & _ & Ed)|Ed]; [|exists d; congruence]. exists d'. by rewrite Ed, E1, Nat2Z.id, list_insert_insert_eq. }
  split_and!.
  - eapply gives_bind; [|apply gives_ret]. apply (gives_close _ _ d'). unfold fd_of.
    rewrite (proj2 (Z.leb_le _ _)), Nat2Z.id, Ed, list_lookup_insert_eq by lia. done.
  - unfold set_fd. change (w_fds (w2 <| w_fds ::= ?g |>)) with (g (w_fds w2)). rewrite Ed, Nat2Z.id, list_insert_insert_eq.
    by apply list_insert_id.
  - apply (wrote_before _ w1); [apply wrote_fd|]. by apply (wrote_after _ w2), wrote_fd.
Qed.

(** A file is opened, worked on by [body], which reads it to its end and writes [out], and closed again. *)
Lemma on_file (body : Z -> U unit) (out : list Z) w a f fail :
  ready w -> w_files w !! a = Some f ->
  (forall fd w, reads w fd (f_data f) -> writable w 1 -> exists w', gives (body fd) w tt w' /\ wrote w w' out [] /\ at_end w w' fd) ->
  exists w', gives (fd <- call (Open a O_RDONLY) ;; if fd <? 0 then fail else body fd ;; call (Close fd) ;; Ret tt) w tt w' /\
    wrote w w' out [] /\ w_fds w' = w_fds w.
Proof.
  intros Hr Hf Hbody. destruct (gives_open w a f Hr Hf) as (n & Hg & Hnone & Hrd & Hw1 & _).
  destruct (Hbody _ _ Hrd Hw1) as (w1 & Hg1 & Hwr & He).
  destruct (closes _ _ _ _ _ _ Hnone Hwr (or_introl He)) as (w2 & Hg2 & Hfd & Hwr2). exists w2. split_and!; [|done..].
  eapply gives_bind; [exact Hg|]. rewrite (proj2 (Z.ltb_ge _ _)) by lia. eapply gives_bind; [exact Hg1|exact Hg2].
Qed.

(** What a program that treats its arguments one by one writes to descriptors 1 and 2, and its status, when
    [out] is what it makes of a file and [fail] its message about a missing one. *)
Fixpoint treat (files : gmap (list Z) ufile) (out : list Z -> list Z -> list Z) (fail : list Z -> list Z * list Z)
    (args : list (list Z)) : list Z * list Z * Z :=
  match args with
  | [] => ([], [], 0)
  | a :: rest =>
      match files !! a with
      | Some f => let '(o, e, st) := treat files out fail rest in (out a (f_data f) ++ o, e, st)
      | None => (fail a, 1)
      end
  end.

Lemma treats (arg : list Z -> U unit) out fail files :
  (forall w a f, ready w -> w_files w = files -> w_files w !! a = Some f ->
    exists w', gives (arg a) w tt w' /\ wrote w w' (out a (f_data f)) [] /\ w_fds w' = w_fds w) ->
  (forall w a, ready w -> w_files w !! a = None -> exists w', halts (arg a) w 1 w' /\ wrote w w' (fail a).1 (fail a).2) ->
  forall args w, ready w -> w_files w = files -> exists w', let '(o, e, st) := treat files out fail args in
    halts (each args arg ;; exit (A := unit) 0) w st w' /\ wrote w w' o e.
Proof.
  intros Hfile Hmiss. induction args as [|a args IH]; intros w Hr Hfs; cbn [treat each].
  { exists w. split; [|apply wrote_refl]. eapply halts_bind; [apply gives_ret|apply halts_exit]. }
  destruct (files !! a) as [f|] eqn:Hf; rewrite <- Hfs in Hf.
  - destruct (Hfile w a f Hr Hfs Hf) as (w1 & Hg & Hwr & Hfd). destruct (IH w1) as [w' H']; [by eapply ready_fds|by rewrite (wr_files _ _ _ _ Hwr)|].
    destruct (treat _ _ _ args) as [[o e] st]. destruct H' as [Hh Hwr']. exists w'. split.
    + unfold halts. rewrite run_assoc. eapply halts_bind; [exact Hg|exact Hh].
    + rewrite <- (app_nil_l e). by eapply wrote_trans.
  - destruct (Hmiss w a Hr Hf) as (w' & Hh & Hwr). exists w'. destruct (fail a) as [o e]. split; [|done].
    by apply halts_now, halts_now.
Qed.

(** ** cat and wc *)

Definition cat_out (a data : list Z) : list Z := data.
Definition cat_fail (a : list Z) : list Z * list Z := ([], map u8 (str "cat: cannot open " ++ cstring a ++ [10])).

Lemma cat_treats args w : ready w -> exists w', let '(o, e, st) := treat (w_files w) cat_out cat_fail args in
  halts (each args cat_arg ;; exit (A := unit) 0) w st w' /\ wrote w w' o e.
Proof.
  intros Hw. apply treats; [..|done|done].
  - intros w1 a f Hr _ Hf. apply (on_file cat _ _ _ f _ Hr Hf). intros fd w2. apply cat_ok.
  - intros w1 a Hr Hf. exists (print 2 (str "cat: cannot open " ++ cstring a ++ [10]) w1). split; [|apply wrote_print2].
    eapply halts_bind; [by apply gives_no_file|]. change (-1 <? 0) with true. cbv iota.
    eapply halts_bind; [apply gives_vprintf; [reflexivity|apply Hr]|apply halts_exit].
Qed.

(** C28: [cat] copies.  With arguments, it writes the contents of these files to its standard output, one after the other, and
    exits with 0; at the first file that is not there it says so on descriptor 2 and exits with 1.  Without
    arguments it copies its standard input.  In how many pieces the bytes arrive makes no
    difference. *)
Theorem cat_copies argv w bytes :
  ready w -> reads w 0 bytes ->
  exists w', let '(out, err, status) :=
      if decide (length argv <= 1)%nat then (bytes, [], 0) else treat (w_files w) cat_out cat_fail (tl argv) in
    halts (cat_main argv) w status w' /\ wrote w w' out err.
Proof.
  intros Hw Hr. unfold cat_main. case_decide; [|by apply cat_treats].
  destruct (cat_ok 0 bytes w Hr (rd_out w Hw)) as (w' & Hg & Hwr & _). exists w'. split; [|done].
  eapply halts_bind; [exact Hg|apply halts_exit].
Qed.

Definition two_files : world :=
  (tty (str "hi")) <| w_files := {[str "a" := mkFile (mkStat 1 2 T_FILE 1 600) (replicate 600 7); str "b" := mkFile (mkStat 1 3 T_FILE 1 1) [8]]} |>.

Lemma two_files_ready : ready two_files.
Proof. split; [by eexists..|]. by exists 3%nat. Qed.

Lemma cat_copies_witness :
  exists w', halts (cat_main [str "cat"; str "b"; str "a"; str "c"]) two_files 1 w' /\
    wrote two_files w' ([8] ++ replicate 600 7) (str "cat: cannot open c" ++ [10]).
Proof.
  destruct (cat_copies [str "cat"; str "b"; str "a"; str "c"] two_files (str "hi")) as (w' & Hw).
  - apply two_files_ready.
  - by eexists _, _, _.
  - exists w'. exact Hw.
Defined.

(** ** Words *)

Definition is_blank (c : Z) : bool := bool_decide (c ∈ wc_blanks).

(** A text between blanks. *)
Fixpoint split_blanks (l : list Z) : list (list Z) :=
  match l with
  | [] => [[]]
  | c :: l' =>
      if is_blank c then [] :: split_blanks l'
      else match split_blanks l' with w :: ws => (c :: w) :: ws | [] => [[c]] end
  end.

Definition words (l : list Z) : list (list Z) := filter (fun w => w <> []) (split_blanks l).

Definition lines (l : list Z) : Z := Z.of_nat (length (filter (fun c => c = 10) l)).

Lemma strchr_blanks c : strchr wc_blanks c = None <-> is_blank c = false.
Proof.
  unfold is_blank. rewrite bool_decide_eq_false. split.
  - intros H. apply strchr_None; [by compute_done|done].
  - intros H. destruct (strchr wc_blanks c) as [k|] eqn:E; [|done]. destruct H.
    apply strchr_Some in E as (a & b & -> & _). apply elem_of_app. right. by left.
Qed.

(** Whether a word goes on at the start of [l]. *)
Definition starts_word (l : list Z) : bool := match l with c :: _ => negb (is_blank c) | [] => false end.

Lemma split_blanks_hd l : exists w ws, split_blanks l = w :: ws /\ (starts_word l = false <-> w = []).
Proof.
  destruct l as [|c l]; cbn [split_blanks starts_word]; [by exists [], []|].
  destruct (is_blank c); [by eexists [], _|]. destruct (split_blanks l) as [|w ws]; [by exists [c], []|by exists (c :: w), ws].
Qed.

Lemma words_cons c l :
  length (words (c :: l)) = (length (words l) + (if negb (is_blank c) && negb (starts_word l) then 1 else 0))%nat.
Proof.
  unfold words. cbn [split_blanks]. destruct (split_blanks_hd l) as (w & ws & -> & Hw). destruct (is_blank c); cbn [negb andb].
  - rewrite filter_cons_False by (intros H; by apply H). lia.
  - rewrite filter_cons_True by done. destruct (starts_word l); cbn [negb].
    + rewrite filter_cons_True; [cbn; lia|]. intros ->. by destruct Hw as [_ Hw]; specialize (Hw eq_refl).
    + destruct Hw as [Hw _]. rewrite (Hw eq_refl). rewrite filter_cons_False by (intros H; by apply H). cbn. lia.
Qed.

Lemma lines_cons c l : lines (c :: l) = lines l + (if c =? 10 then 1 else 0).
Proof.
  unfold lines. destruct (Z.eqb_spec c 10) as [->|Hne]; [rewrite filter_cons_True by done|rewrite filter_cons_False by done]; cbn [length]; lia.
Qed.

Lemma words_le l : (length (words l) <= length l)%nat.
Proof. induction l as [|c l IH]; [done|]. rewrite words_cons. cbn [length]. destruct (_ && _); lia. Qed.

Lemma lines_range l : 0 <= lines l <= Z.of_nat (length l).
Proof. unfold lines. pose proof (length_filter (fun c => c = 10) l). lia. Qed.

(** The counters, from any state of them. *)
Lemma count_all l : forall k, 0 <= n_l k -> 0 <= n_w k -> 0 <= n_c k ->
  n_l k + Z.of_nat (length l) < 2 ^ 31 -> n_w k + Z.of_nat (length l) < 2 ^ 31 -> n_c k + Z.of_nat (length l) < 2 ^ 31 ->
  let k' := foldl count1 k l in
  n_l k' = n_l k + lines l /\ n_c k' = n_c k + Z.of_nat (length l) /\
  n_w k' = n_w k + Z.of_nat (length (words l)) - (if inword k && starts_word l then 1 else 0).
Proof.
  induction l as [|c l IH]; intros k H1 H2 H3 B1 B2 B3; cbn [foldl length] in *.
  { change (lines []) with 0. change (length (words [])) with 0%nat. cbn [starts_word]. rewrite andb_false_r. lia. }
  destruct (IH (count1 k c)) as (E1 & E2 & E3); try (unfold count1; destruct (strchr wc_blanks c), (inword k), (c =? 10); cbn [n_l n_w n_c];
    rewrite ?s32_small by lia; lia).
  cbn zeta. rewrite E1, E2, E3, lines_cons, words_cons. cbn [starts_word]. unfold count1.
  assert (Hb : strchr wc_blanks c = None <-> is_blank c = false) by apply strchr_blanks.
  destruct (strchr wc_blanks c) as [j|], (is_blank c); try (destruct Hb as [Hb1 Hb2]; (specialize (Hb1 eq_refl) || specialize (Hb2 eq_refl)); done);
    destruct (inword k), (starts_word l), (c =? 10); cbn [n_l n_w n_c inword negb andb]; rewrite ?s32_small by lia; lia.
Qed.

(** ** Numbers in decimal *)

Definition dec (x : Z) : list Z := str (pretty (Z.to_N x)).

Definition dec_char (d : Z) : Z := digits !!! Z.to_nat d.

Lemma pretty_char d : 0 <= d < 10 -> ch (pretty_N_char (Z.to_N d)) = dec_char d.
Proof.
  intros Hd. assert (Hall : Forall (fun d => ch (pretty_N_char (Z.to_N d)) = dec_char d) (seqZ 0 10)) by (by compute_done).
  rewrite Forall_forall in Hall. apply Hall, elem_of_seqZ. lia.
Qed.

Lemma number_nonneg ds : Forall (fun d => 0 <= d < 10) ds -> 0 <= number 10 ds.
Proof.
  induction 1 as [|d ds Hd Hf IH]; [done|]. rewrite number_cons.
  assert (0 <= 10 ^ Z.of_nat (length ds)) by (apply Z.pow_nonneg; lia). nia.
Qed.

Lemma pretty_digits ds : forall s, Forall (fun d => 0 <= d < 10) ds -> ds = [] \/ hd 0 ds <> 0 ->
  str (pretty_N_go (Z.to_N (number 10 ds)) s) = map dec_char ds ++ str s.
Proof.
  induction ds as [|d ds IH] using rev_ind; intros s Hf Hh; [done|].
  apply Forall_app in Hf as [Hf Hd]. rewrite Forall_singleton in Hd. rewrite number_snoc, map_app, <- app_assoc. cbn [map app].
  assert (Hds : ds = [] \/ hd 0 ds <> 0) by (destruct Hh as [Hh|Hh]; [by destruct ds|destruct ds; [by left|by right]]).
  assert (Hpos : 0 <= number 10 ds /\ (ds = [] \/ 0 < number 10 ds)).
  { destruct ds as [|e ds]; [split; [done|by left]|]. rewrite number_cons. apply Forall_cons in Hf as [He Hf].
    pose proof (number_nonneg ds Hf) as Hb. destruct Hds as [|Hne]; [done|]. cbn in Hne.
    assert (0 < 10 ^ Z.of_nat (length ds)) by (apply Z.pow_pos_nonneg; lia). split; [nia|right; nia]. }
  assert (Hx : 0 < number 10 ds * 10 + d).
  { destruct Hpos as [? [-> |?]]; [|lia]. destruct Hh as [Hh|Hh]; [done|]. cbn in *. lia. }
  rewrite pretty_N_go_step by lia.
  replace (Z.to_N (number 10 ds * 10 + d) `mod` 10)%N with (Z.to_N d) by (rewrite <- (Z2N.inj_mod _ 10) by lia; f_equal; Z.div_mod_to_equations; lia).
  replace (Z.to_N (number 10 ds * 10 + d) `div` 10)%N with (Z.to_N (number 10 ds)) by (rewrite <- (Z2N.inj_div _ 10) by lia; f_equal; Z.div_mod_to_equations; lia).
  rewrite IH by done. f_equal. unfold str. cbn. by rewrite pretty_char.
Qed.

Lemma numeral_dec x out : 0 <= x -> is_numeral digits 10 x out -> out = dec x.
Proof.
  intros Hx (ds & -> & Hf & Hn & Hz). unfold dec, pretty, pretty_N. destruct Hz as [->|Hh]; [by cbn in Hn; subst x|].
  pose proof (pretty_digits ds "" Hf (or_intror Hh)) as E. rewrite app_nil_r, Hn in E. case_decide as H0; [|by rewrite E].
  destruct ds as [|d ds]; [by cbn in Hh|]. exfalso. cbn in Hh. apply Forall_cons in Hf as [Hd Hf].
  rewrite number_cons in Hn. pose proof (number_nonneg ds Hf).
  assert (0 < 10 ^ Z.of_nat (length ds)) by (apply Z.pow_pos_nonneg; lia). nia.
Qed.

Lemma int_text_dec x out : 0 <= x -> int_text V_d x out -> out = dec x.
Proof. intros Hx. unfold int_text. rewrite (proj2 (Z.ltb_ge _ _)) by done. by apply numeral_dec. Qed.

(** Reads off what a sequence of items prints. *)
Ltac read_items :=
  repeat match goal with
         | H : renders (_ :: _) _ _ |- _ => inversion H; subst; clear H
         | H : renders [] _ _ |- _ => inversion H; subst; clear H
         | H : int_text V_d (int_arg _ _ ?v) _ |- _ =>
             change (int_arg 0 V_d v) with (s32 v) in H; rewrite (s32_small v) in H by lia; apply int_text_dec in H; [subst|lia]
         end.

(** ** wc *)

Definition wc_step (fd : Z) (k : counts) : U (counts + option counts) :=
  r <- call (Read fd 512) ;;
  match r with
  | None => Ret (inr None)
  | Some [] => Ret (inr (Some k))
  | Some buf => Ret (inl (foldl count1 k buf))
  end.

Lemma wc_loop fd bytes : forall w k, reads w fd bytes ->
  exists w', gives (loop (wc_step fd) k) w (Some (foldl count1 k bytes)) w' /\ wrote w w' [] [] /\ at_end w w' fd.
Proof.
  remember (length bytes) as n eqn:Hn. revert bytes Hn. induction n as [n IH] using lt_wf_ind. intros bytes -> w k Hr.
  destruct (gives_read w fd 512 bytes Hr ltac:(lia)) as (l & bytes' & d & d' & Hd & Hdw & Hg & -> & Hl & Hr').
  destruct l as [|c l].
  - exists (set_fd fd (Some d') w). specialize (Hl eq_refl). cbn [app] in *. subst bytes'. split_and!.
    + apply gives_done. eapply gives_bind; [exact Hg|]. apply gives_ret.
    + apply wrote_fd.
    + by exists d, d'.
  - set (w1 := set_fd fd (Some d') w) in *.
    destruct (IH (length bytes')) with (bytes := bytes') (w := w1) (k := foldl count1 k (c :: l)) as (w' & Hg' & Hwr & He);
      [rewrite length_app; cbn; lia|done..|].
    exists w'. split_and!.
    + eapply gives_again; [eapply gives_bind; [exact Hg|apply gives_ret]|]. rewrite foldl_app. exact Hg'.
    + apply (wrote_before _ w1); [apply wrote_fd|done].
    + by eapply at_end_again.
Qed.

Definition wc_text (name data : list Z) : list Z :=
  dec (lines data) ++ [32] ++ dec (Z.of_nat (length (words data))) ++ [32] ++ dec (Z.of_nat (length data)) ++ [32] ++
  cstring name ++ [10].

Definition wc_items : list item :=
  [I_int 0 V_d; I_char 32; I_int 0 V_d; I_char 32; I_int 0 V_d; I_char 32; I_str; I_char 10].

Lemma wc_format x y z name : 0 <= x < 2 ^ 31 -> 0 <= y < 2 ^ 31 -> 0 <= z < 2 ^ 31 ->
  vprintf_chars (strn "%d %d %d %s") [A_int x; A_int y; A_int z; A_str (Some name)] =
    Some (dec x ++ [32] ++ dec y ++ [32] ++ dec z ++ [32] ++ cstring name ++ [10]).
Proof.
  intros Hx Hy Hz. destruct (vprintf_items wc_items [] [A_int x; A_int y; A_int z; A_str (Some name)])
    as (out & E & Hr); [cbn; split_and!; try done; try lia; by left|done|].
  assert (Ef : strn "%d %d %d %s" = spell wc_items ++ []) by (by vm_compute). rewrite Ef, E. f_equal. unfold wc_items in Hr.
  by read_items.
Qed.

Lemma wc_ok fd name data w : Z.of_nat (length data) < 2 ^ 31 -> reads w fd data -> writable w 1 ->
  exists w', gives (wc fd name) w tt w' /\ wrote w w' (map u8 (wc_text name data)) [] /\ at_end w w' fd.
Proof.
  intros Hlen Hr Hw. destruct (wc_loop fd data w (mkCounts 0 0 0 false) Hr) as (w1 & Hg & Hwr & He).
  destruct (count_all data (mkCounts 0 0 0 false)) as (E1 & E2 & E3); try (cbn; lia).
  cbn [n_l n_w n_c inword andb] in E1, E2, E3. pose proof (lines_range data). pose proof (words_le data).
  exists (print 1 (wc_text name data) w1). split_and!.
  - unfold wc. eapply gives_bind; [exact Hg|]. cbv beta iota. apply gives_vprintf; [|by eapply writable_end].
    rewrite E1, E2, E3. rewrite !Z.add_0_l, Z.sub_0_r. apply wc_format; lia.
  - eapply wrote_before; [done|apply wrote_print1].
  - done.
Qed.

Definition wc_out (a data : list Z) : list Z := map u8 (wc_text a data).
Definition wc_fail (a : list Z) : list Z * list Z := (map u8 (str "wc: cannot open " ++ cstring a ++ [10]), []).

Lemma wc_treats args w : ready w -> map_Forall (fun _ f => Z.of_nat (length (f_data f)) < 2 ^ 31) (w_files w) ->
  exists w', let '(o, e, st) := treat (w_files w) wc_out wc_fail args in
  halts (each args wc_arg ;; exit (A := unit) 0) w st w' /\ wrote w w' o e.
Proof.
  intros Hw Hsz. apply treats; [..|done|done].
  - intros w1 a f Hr Hfs Hf. apply (on_file (fun fd => wc fd a) _ _ _ f _ Hr Hf). intros fd w2. apply wc_ok.
    rewrite Hfs in Hf. by apply (Hsz a).
  - intros w1 a Hr Hf. exists (print 1 (str "wc: cannot open " ++ cstring a ++ [10]) w1). split; [|apply wrote_print1].
    eapply halts_bind; [by apply gives_no_file|]. change (-1 <? 0) with true. cbv iota.
    eapply halts_bind; [apply gives_vprintf; [reflexivity|apply Hr]|apply halts_exit].
Qed.

(** C27: [wc] counts.  For each file it is given, or for its standard input, it prints how many newlines, words and bytes
    there are, in decimal, and the name; a word is a longest sequence of bytes without blanks.  At the first file that is not there
    it says so and exits with 1.  In how many pieces the bytes arrive makes no difference; the counters do not
    overflow for files of less than 2^31 bytes. *)
Theorem wc_counts argv w bytes :
  ready w -> reads w 0 bytes -> Z.of_nat (length bytes) < 2 ^ 31 ->
  map_Forall (fun _ f => Z.of_nat (length (f_data f)) < 2 ^ 31) (w_files w) ->
  exists w', let '(out, err, status) :=
      if decide (length argv <= 1)%nat then (wc_out [] bytes, [], 0) else treat (w_files w) wc_out wc_fail (tl argv) in
    halts (wc_main argv) w status w' /\ wrote w w' out err.
Proof.
  intros Hw Hr Hb Hf. unfold wc_main. case_decide; [|by apply wc_treats].
  destruct (wc_ok 0 [] bytes w Hb Hr (rd_out w Hw)) as (w' & Hg & Hwr & _). exists w'. split; [|done].
  eapply halts_bind; [exact Hg|apply halts_exit].
Qed.

Definition wc_world : world :=
  (tty (str "one  two" ++ [10])) <| w_files := {[str "a" := mkFile (mkStat 1 2 T_FILE 1 12) (str " red" ++ [9] ++ str "green" ++ [10; 10])]} |>.

Lemma wc_counts_witness :
  exists w', halts (wc_main [str "wc"; str "a"; str "c"]) wc_world 1 w' /\
    wrote wc_world w' (str "2 2 12 a" ++ [10] ++ str "wc: cannot open c" ++ [10]) [].
Proof.
  destruct (wc_counts [str "wc"; str "a"; str "c"] wc_world (str "one  two" ++ [10])) as (w' & Hw).
  - split; [by eexists..|]. by exists 3%nat.
  - by eexists _, _, _.
  - by vm_compute.
  - by apply map_Forall_singleton.
  - exists w'. exact Hw.
Defined.

(** ** echo *)

(** The arguments with blanks between them, and a newline; nothing at all without arguments. *)
Fixpoint echo_text (args : list (list Z)) : list Z :=
  match args with
  | [] => []
  | [a] => cstring a ++ [10]
  | a :: rest => cstring a ++ [32] ++ echo_text rest
  end.

Lemma echo_prints argv w : writable w 1 -> exists w', halts (echo_main argv) w 0 w' /\ wrote w w' (echo_text (tl argv)) [].
Proof.
  intros Hw. unfold echo_main. assert (H : exists w', gives (echo_args (tl argv)) w tt w' /\ wrote w w' (echo_text (tl argv)) []).
  { generalize (tl argv). clear argv. intros args. revert w Hw. induction args as [|a rest IH]; intros w Hw.
    { exists w. split; [apply gives_ret|apply wrote_refl]. }
    set (w1 := w <| w_out ::= (fun o => o ++ [(1, cstring a)]) |>).
    set (c := match rest with [] => [10] | _ => [32] end). set (w2 := w1 <| w_out ::= (fun o => o ++ [(1, c)]) |>).
    destruct (IH w2 Hw) as (w' & Hg & Hwr). exists w'. split.
    - cbn [echo_args]. eapply gives_bind; [by apply gives_write|]. fold w1. apply (gives_bind _ _ _ 1 w2); [|exact Hg].
      unfold w2, c. destruct rest; [exact (gives_write 1 [10] w1 Hw)|exact (gives_write 1 [32] w1 Hw)].
    - replace (echo_text (a :: rest)) with (cstring a ++ c ++ echo_text rest) by (by destruct rest).
      eapply (wrote_trans _ w1 _ _ []); [apply wrote_1|]. eapply (wrote_trans _ w2 _ _ []); [apply wrote_1|exact Hwr]. }
  destruct H as (w' & Hg & Hwr). exists w'. split; [|done]. eapply halts_bind; [exact Hg|apply halts_exit].
Qed.
