(* ===== verification/Uls.v ===== *)
(** What ls prints (user/ls.c). *)

From stdpp Require Import prelude gmap strings pretty.
From Stdlib Require Import ZArith Lia Ascii.
From ITree Require Import ITree.
From S2P Require Import Prelude Bytes Params CString Printk Fs Ulib Usys Uprintf Uprog Utools.

Local Open Scope Z_scope.
Local Open Scope user_scope.

(** ** The reference *)

(** The last name of a path: what follows its last slash. *)
Fixpoint base (path : list Z) : list Z :=
  match path with
  | [] => []
  | _ :: path' => if decide (ch "/" ∈ path) then base path' else path
  end.

(** Padded with blanks. *)
Definition padded (name : list Z) : list Z := name ++ replicate (DIRSIZ - length name) 32.

Definition line_text (path : list Z) (st : stat) : list Z :=
  padded (base path) ++ [32] ++ dec (st_type st) ++ [32] ++ dec (st_ino st) ++ [32] ++ dec (st_size st) ++ [10].

(** The text for one entry of the directory [path]. *)
Definition entry_text (files : gmap (list Z) ufile) (path de : list Z) : list Z :=
  if dirent_inum de =? 0 then []
  else
    let name := path ++ [ch "/"] ++ cstring (dirent_name de) in
    match files !! name with
    | Some f => line_text name (f_stat f)
    | None => str "ls: cannot stat " ++ name ++ [10]
    end.

(** The entries of a directory. *)
Definition dirents (data : list Z) : list (list Z) := map (fun i => slice (16 * i) 16 data) (seq 0 (length data / 16)).

(** What ls writes to descriptors 1 and 2 for [path]. *)
Definition ls_text (files : gmap (list Z) ufile) (path : list Z) : list Z * list Z :=
  match files !! path with
  | None => ([], str "ls: cannot open " ++ path ++ [10])
  | Some f =>
      let ty := st_type (f_stat f) in
      if decide (ty = T_DEVICE \/ ty = T_FILE) then (line_text path (f_stat f), [])
      else if decide (ty = T_DIR) then
        if decide (length path <= 496)%nat then (concat (map (entry_text files path) (dirents (f_data f))), [])
        else (strn "ls: path too long", [])
      else ([], [])
  end.

(** ** [fmtname] *)

Lemma slash_split path : exists name, ch "/" ∉ name /\ (path = name \/ exists dir, path = dir ++ ch "/" :: name).
Proof.
  induction path as [|c path (name & Hn & H)]; [exists []; split; [apply not_elem_of_nil|by left]|].
  destruct H as [->|(dir & ->)].
  - destruct (decide (c = ch "/")) as [->|Hc]; [exists name; split; [done|right; by exists []]|].
    exists (c :: name). split; [|by left]. by apply not_elem_of_cons.
  - exists name. split; [done|]. right. by exists (c :: dir).
Qed.

Lemma base_name name : ch "/" ∉ name -> base name = name.
Proof. intros H. destruct name; [done|]. cbn [base]. by rewrite decide_False. Qed.

Lemma base_dir dir name : ch "/" ∉ name -> base (dir ++ ch "/" :: name) = name.
Proof.
  intros H. induction dir as [|c dir IH]; cbn [base app].
  - rewrite decide_True by (by left). by apply base_name.
  - rewrite decide_True; [done|]. right. apply elem_of_app. right. by left.
Qed.

Lemma after_slash_name name n : ch "/" ∉ name -> after_slash name n = 0%nat.
Proof.
  intros H. assert (Hc : forall k, default 0 (name !! k) =? ch "/" = false).
  { intros k. apply Z.eqb_neq. destruct (name !! k) as [c|] eqn:E; [|done]. cbn. intros ->. apply H. by eapply list_elem_of_lookup_2. }
  induction n as [|n IH]; cbn [after_slash]; by rewrite Hc.
Qed.

Lemma after_slash_dir dir name k : ch "/" ∉ name ->
  after_slash (dir ++ ch "/" :: name) (length dir + k) = S (length dir).
Proof.
  intros H. induction k as [|k IH].
  - rewrite Nat.add_0_r. assert (E : default 0 ((dir ++ ch "/" :: name) !! length dir) =? ch "/" = true) by (by rewrite list_lookup_middle).
    destruct (length dir) eqn:El; cbn [after_slash]; by rewrite E.
  - rewrite Nat.add_succ_r. cbn [after_slash]. rewrite IH.
    assert (E : default 0 ((dir ++ ch "/" :: name) !! S (length dir + k)) =? ch "/" = false); [|by rewrite E].
    apply Z.eqb_neq. rewrite lookup_app_r by lia. replace (S (length dir + k) - length dir)%nat with (S k) by lia. cbn [lookup list_lookup].
    destruct (name !! k) as [c|] eqn:E; [|done]. cbn. intros ->. apply H. by eapply list_elem_of_lookup_2.
Qed.

Lemma fmtname_base path : 0 ∉ path -> fmtname path = padded (base path).
Proof.
  intros H0. unfold fmtname. rewrite (cstring_id path H0).
  assert (Hd : drop (after_slash path (length path)) path = base path).
  { destruct (slash_split path) as (name & Hn & [->|(dir & ->)]).
    - by rewrite after_slash_name, base_name.
    - rewrite length_app. rewrite after_slash_dir, base_dir by done.
      replace (S (length dir)) with (length (dir ++ [ch "/"])) by (rewrite length_app; cbn; lia).
      replace (dir ++ ch "/" :: name) with ((dir ++ [ch "/"]) ++ name) by (by rewrite <- app_assoc). apply drop_app_length. }
  rewrite Hd. assert (Hb : 0 ∉ base path).
  { rewrite <- Hd. intros H. apply H0. by apply subseteq_drop in H. }
  unfold padded. rewrite ulib_strlen, (cstring_id _ Hb), Nat2Z.id.
  destruct (Z.leb_spec (Z.of_nat DIRSIZ) (Z.of_nat (length (base path)))) as [Hle|Hlt].
  - replace (DIRSIZ - length (base path))%nat with 0%nat by lia. by rewrite app_nil_r.
  - by rewrite take_ge.
Qed.

(** ** The environment *)

(** The numbers that ls prints are those of [struct stat], as an [int]. *)
Definition stat_ok (st : stat) : Prop := 0 <= st_type st < 2 ^ 31 /\ 0 <= st_ino st < 2 ^ 31 /\ 0 <= st_size st < 2 ^ 31.

Definition ls_files (files : gmap (list Z) ufile) : Prop := map_Forall (fun _ f => stat_ok (f_stat f)) files.

(** Output to descriptors 1 and 2, and two descriptors to open files on, whose bytes are ready when they are
    asked for. *)
Record ls_ready (w : world) : Prop := {
  lr_ready : ready w;
  lr_two : forall n d, w_fds w !! n = Some None -> is_Some (free_fd (set_fd (Z.of_nat n) (Some d) w));
  lr_bytes : forall k, (15 <= w_ready w k)%nat;
}.

Lemma set_fd_free w n d : w_fds w !! n = Some None -> set_fd (Z.of_nat n) None (set_fd (Z.of_nat n) d w) = w.
Proof. intros H. rewrite set_fd_set. unfold set_fd. rewrite Nat2Z.id. w_eq w. by apply list_insert_id. Qed.

Lemma ustat_ok w a f : ready w -> w_files w !! a = Some f -> gives (ustat a) w (Some (f_stat f)) w.
Proof.
  intros Hr Hf. destruct (gives_open w a f Hr Hf) as (n & Hg & Hnone & (inp & wr & st & Hd & _) & _). set (w1 := set_fd _ _ w) in *.
  unfold ustat. eapply gives_bind; [exact Hg|]. rewrite (proj2 (Z.ltb_ge _ _)) by lia.
  assert (Hd' : fd_of w1 (Z.of_nat n) = Some (mkDesc (Some (mkInput (f_data f) (w_ready w) 0)) false (f_stat f))).
  { destruct (fd_of_lt _ _ _ Hd) as [? Hlt]. unfold w1. apply fd_of_set; [lia|]. rewrite Nat2Z.id. by eapply lookup_lt_Some. }
  eapply gives_bind; [apply gives_call; cbn; by rewrite Hd'|]. eapply gives_bind; [by eapply gives_close|].
  unfold w1. rewrite set_fd_free by done. apply gives_ret.
Qed.

Lemma ustat_none w a : w_files w !! a = None -> gives (ustat a) w None w.
Proof. intros Hf. unfold ustat. eapply gives_bind; [by apply gives_no_file|]. apply gives_ret. Qed.

(** ** Lines *)

Definition ls_items : list item :=
  [I_str; I_char 32; I_int 0 V_d; I_char 32; I_int 0 V_d; I_char 32; I_int 0 V_d; I_char 10].

Lemma ls_format name x y z : 0 ∉ name -> 0 <= x < 2 ^ 31 -> 0 <= y < 2 ^ 31 -> 0 <= z < 2 ^ 31 ->
  vprintf_chars (strn "%s %d %d %d") [A_str (Some name); A_int x; A_int y; A_int z] =
    Some (name ++ [32] ++ dec x ++ [32] ++ dec y ++ [32] ++ dec z ++ [10]).
Proof.
  intros H0 Hx Hy Hz. destruct (vprintf_items ls_items [] [A_str (Some name); A_int x; A_int y; A_int z])
    as (out & E & Hr); [cbn; split_and!; try done; try lia; by left|done|].
  assert (Ef : strn "%s %d %d %d" = spell ls_items ++ []) by (by vm_compute). rewrite Ef, E. f_equal. unfold ls_items in Hr.
  read_items. by rewrite cstring_id.
Qed.

Lemma padded_nul name : 0 ∉ name -> 0 ∉ padded name.
Proof. intros H. unfold padded. rewrite not_elem_of_app. split; [done|]. by intros [? _]%elem_of_replicate. Qed.

Lemma base_nul path : 0 ∉ path -> 0 ∉ base path.
Proof.
  induction path as [|c path IH]; [done|]. intros H. cbn [base]. case_decide; [|done]. apply IH.
  by apply not_elem_of_cons in H as [_ ?].
Qed.

Lemma line_ok w path st : writable w 1 -> 0 ∉ path -> stat_ok st -> gives (ls_line path st) w tt (print 1 (line_text path st) w).
Proof.
  intros Hw H0 (Ht & Hi & Hs). apply gives_vprintf; [|done]. rewrite fmtname_base by done.
  apply ls_format; [by apply padded_nul, base_nul|done..].
Qed.

Lemma cstring_app_plain l r : 0 ∉ l -> cstring (l ++ r) = l ++ cstring r.
Proof.
  induction l as [|c l IH]; [done|]. intros [Hc Hl]%not_elem_of_cons. cbn [app cstring].
  rewrite (proj2 (Z.eqb_neq c 0)) by done. by rewrite IH.
Qed.

Lemma cstring_nul l : 0 ∉ cstring l.
Proof.
  induction l as [|c l IH]; cbn [cstring]; [apply not_elem_of_nil|]. destruct (Z.eqb_spec c 0); [apply not_elem_of_nil|].
  apply not_elem_of_cons. by split.
Qed.

Lemma entry_ok w path de : ready w -> ls_files (w_files w) -> 0 ∉ path ->
  gives (ls_entry (path ++ [ch "/"]) de) w tt (print 1 (entry_text (w_files w) path de) w).
Proof.
  intros Hr Hf H0. unfold ls_entry, entry_text. destruct (_ =? 0); [rewrite print_nil; apply gives_ret|].
  assert (Hp : 0 ∉ path ++ [ch "/"]) by (rewrite not_elem_of_app; split; [done|by compute_done]).
  rewrite (cstring_app_plain _ _ Hp), <- app_assoc. set (name := path ++ _ ++ _).
  assert (Hn : 0 ∉ name) by (unfold name; rewrite app_assoc, not_elem_of_app; split; [done|apply cstring_nul]).
  destruct (w_files w !! name) as [f|] eqn:E.
  - eapply gives_bind; [by apply ustat_ok|]. apply line_ok; [apply Hr|done|by apply (Hf name)].
  - eapply gives_bind; [by apply ustat_none|]. apply gives_vprintf; [|apply Hr].
    transitivity (Some (str "ls: cannot stat " ++ cstring name ++ [10])); [reflexivity|]. by rewrite cstring_id.
Qed.

(** ** Directories *)

Definition reads16 (w : world) (fd : Z) (bytes : list Z) : Prop :=
  exists inp wr st, fd_of w fd = Some (mkDesc (Some inp) wr st) /\ i_bytes inp = bytes /\ forall k, (15 <= i_ready inp k)%nat.

(** [read] of an entry. *)
Lemma gives_read16 w fd bytes : reads16 w fd bytes ->
  exists d d', fd_of w fd = Some d /\ d_write d' = d_write d /\
    gives (call (Read fd 16)) w (Some (take 16 bytes)) (set_fd fd (Some d') w) /\ reads16 (set_fd fd (Some d') w) fd (drop 16 bytes).
Proof.
  intros (inp & wr & st & Hd & <- & Hk). exists (mkDesc (Some inp) wr st), (mkDesc (Some (mkInput (drop 16 (i_bytes inp)) (i_ready inp) (S (i_call inp)))) wr st).
  assert (E : read 16 inp = (take 16 (i_bytes inp), mkInput (drop 16 (i_bytes inp)) (i_ready inp) (S (i_call inp)))).
  { unfold read. replace (Nat.min 16 (S (i_ready inp (i_call inp)))) with 16%nat; [done|]. specialize (Hk (i_call inp)). lia. }
  split_and!; try done.
  - apply gives_call. unfold h_sys, do_read. by rewrite Hd, E.
  - eexists _, _, _. destruct (fd_of_lt _ _ _ Hd). by rewrite fd_of_set.
Qed.

Lemma ready_set w fd d d' : fd_of w fd = Some d -> d_write d' = d_write d -> ready w -> ready (set_fd fd (Some d') w).
Proof.
  intros Hd Hw [H1 H2 [n Hn]]. split; [by eapply writable_set..|]. unfold free_fd in *.
  apply fmap_Some in Hn as ([k ?] & (Hnone & -> & _)%list_find_Some & _). cbn in Hnone.
  apply fmap_is_Some, (list_find_elem_of (fun d => d = None) _ None); [|done]. apply (list_elem_of_lookup_2 _ k).
  unfold set_fd. change (w_fds (w <| w_fds ::= ?g |>)) with (g (w_fds w)). rewrite list_lookup_insert_ne; [done|]. intros E.
  unfold fd_of in Hd. destruct (0 <=? fd); [|done]. by rewrite E, Hnone in Hd.
Qed.

Lemma dir_loop fd path tail : 0 ∉ path -> (length tail < 16)%nat -> forall des w,
  Forall (fun de => length de = 16%nat) des -> ready w -> ls_files (w_files w) -> reads16 w fd (concat des ++ tail) ->
  exists w', gives (ls_dir fd (path ++ [ch "/"])) w tt w' /\
    wrote w w' (map u8 (concat (map (entry_text (w_files w) path) des))) [] /\ at_end w w' fd.
Proof.
  intros H0 Ht. induction des as [|de des IH]; intros w Hl Hr Hf Hrd.
  - cbn [concat app] in Hrd. destruct (gives_read16 w fd tail Hrd) as (d & d' & Hd & Hdw & Hg & _).
    exists (set_fd fd (Some d') w). split_and!; [|apply wrote_fd|by exists d, d'].
    unfold ls_dir. apply gives_done. eapply gives_bind; [exact Hg|]. cbv beta iota. rewrite take_ge by lia. change DIRENT_SIZE with 16.
    rewrite (proj2 (Z.eqb_neq _ _)) by lia. apply gives_ret.
  - apply Forall_cons in Hl as [Hde Hl]. cbn [concat map] in *. rewrite <- app_assoc in Hrd.
    destruct (gives_read16 w fd _ Hrd) as (d & d' & Hd & Hdw & Hg & Hrd'). rewrite take_app_length', drop_app_length' in * by done.
    set (w1 := set_fd fd (Some d') w) in *. assert (Hr1 : ready w1) by (by eapply ready_set).
    set (w2 := print 1 (entry_text (w_files w) path de) w1).
    destruct (IH w2) as (w' & Hg' & Hwr & He); [done|by apply (ready_fds w1)|done|done|]. exists w'. split_and!.
    + unfold ls_dir. eapply gives_again; [|exact Hg']. eapply gives_bind; [exact Hg|]. cbv beta iota. rewrite Hde. cbn [Z.of_nat].
      change (Z.pos _ =? DIRENT_SIZE) with true. cbv iota. eapply gives_bind; [|apply gives_ret].
      exact (entry_ok w1 path de Hr1 Hf H0).
    + rewrite map_app. apply (wrote_before _ w1); [apply wrote_fd|]. eapply (wrote_trans _ w2 _ _ []); [apply wrote_print1|exact Hwr].
    + by eapply (at_end_again w w2).
Qed.

Lemma dirents_concat data : data = concat (dirents data) ++ drop (16 * (length data / 16)) data.
Proof.
  unfold dirents. set (n := (length data / 16)%nat). assert (Hn : (16 * n <= length data)%nat) by (unfold n; apply Nat.Div0.mul_div_le).
  assert (H : forall k, (k <= n)%nat -> take (16 * k) data = concat (map (fun i => slice (16 * i) 16 data) (seq 0 k))).
  { induction k as [|k IH]; intros Hk; [done|]. rewrite seq_S, map_app, concat_app, <- IH by lia. cbn [map concat Nat.add].
    rewrite app_nil_r. unfold slice. rewrite take_take_drop. f_equal. lia. }
  rewrite <- (H n) by lia. by rewrite take_drop.
Qed.

Lemma dirents_length data : Forall (fun de => length de = 16%nat) (dirents data).
Proof.
  apply Forall_forall. intros de (i & -> & Hi%elem_of_seq)%list_elem_of_fmap. unfold slice. rewrite length_take, length_drop.
  pose proof (Nat.Div0.mul_div_le (length data) 16). lia.
Qed.

(** ** ls *)

Lemma ls_ready_fds w w' : w_fds w' = w_fds w -> w_ready w' = w_ready w -> ls_ready w -> ls_ready w'.
Proof.
  intros E1 E2 [H1 H2 H3]. split; [by eapply ready_fds| |by rewrite E2]. intros n d Hn. rewrite E1 in Hn.
  specialize (H2 n d Hn). unfold free_fd, set_fd in *. change (w_fds (?x <| w_fds ::= ?g |>)) with (g (w_fds x)) in *. by rewrite E1.
Qed.

Lemma ls_one w path : ls_ready w -> ls_files (w_files w) -> 0 ∉ path ->
  exists w', gives (ls path) w tt w' /\ w_fds w' = w_fds w /\
    wrote w w' (map u8 (ls_text (w_files w) path).1) (map u8 (ls_text (w_files w) path).2).
Proof.
  intros [Hr H2 Hk] Hf H0. unfold ls_text. destruct (w_files w !! path) as [f|] eqn:E.
  2: { exists (print 2 (str "ls: cannot open " ++ path ++ [10]) w). split_and!; [|done|apply wrote_print2].
       eapply gives_bind; [by apply gives_no_file|]. apply gives_vprintf; [|apply Hr].
       transitivity (Some (str "ls: cannot open " ++ cstring path ++ [10])); [reflexivity|]. by rewrite cstring_id. }
  destruct (gives_open w path f Hr E) as (n & Hg & Hnone & (inp & wr & st & Hd & _) & Hw1 & Hw2). set (w1 := set_fd _ _ w) in *.
  assert (Hd' : fd_of w1 (Z.of_nat n) = Some (mkDesc (Some (mkInput (f_data f) (w_ready w) 0)) false (f_stat f))).
  { destruct (fd_of_lt _ _ _ Hd) as [? Hlt]. unfold w1. apply fd_of_set; [lia|]. rewrite Nat2Z.id. by eapply lookup_lt_Some. }
  assert (Hr1 : ready w1) by (split; [done|done|by apply H2]).
  assert (Hend : forall t out w2, gives t w1 tt w2 -> wrote w1 w2 out [] -> at_end w1 w2 (Z.of_nat n) \/ w_fds w2 = w_fds w1 ->
    exists w3, gives (t ;; call (Close (Z.of_nat n)) ;; Ret tt) w1 tt w3 /\ w_fds w3 = w_fds w /\ wrote w w3 out []).
  { intros t out w2 Ht Hwr Hfd. destruct (closes _ _ _ _ _ _ Hnone Hwr Hfd) as (w3 & Hg3 & Hfd3 & Hwr3).
    exists w3. split_and!; [|done..]. by eapply gives_bind. }
  assert (Hrun : forall t out w2, gives t w1 tt w2 -> wrote w1 w2 out [] -> at_end w1 w2 (Z.of_nat n) \/ w_fds w2 = w_fds w1 ->
    (if (st_type (f_stat f) =? T_DEVICE) || (st_type (f_stat f) =? T_FILE) then ls_line path (f_stat f)
     else if st_type (f_stat f) =? T_DIR then
       if 512 <? Ulib.strlen path + 1 + Z.of_nat DIRSIZ + 1 then printf (strn "ls: path too long") []
       else ls_dir (Z.of_nat n) (cstring path ++ [ch "/"])
     else Ret tt) = t ->
    exists w', gives (ls path) w tt w' /\ w_fds w' = w_fds w /\ wrote w w' out []).
  { intros t out w2 Ht Hwr Hfd Et. destruct (Hend t out w2 Ht Hwr Hfd) as (w3 & Hg3 & Hfd3 & Hwr3). exists w3. split_and!; [|done..].
    unfold ls. eapply gives_bind; [exact Hg|]. rewrite (proj2 (Z.ltb_ge _ _)) by lia.
    eapply gives_bind; [apply gives_call; cbn; by rewrite Hd'|]. cbv beta iota. cbn [fmap option_fmap option_map d_stat]. rewrite Et. exact Hg3. }
  assert (Hst : stat_ok (f_stat f)) by (exact (Hf path f E)). destruct (decide (_ \/ _)) as [Ht|Ht].
  { eapply Hrun; [by apply line_ok|apply wrote_print1|by right|].
    destruct Ht as [-> | ->]; by rewrite ?Z.eqb_refl, ?orb_true_r. }
  assert (Eb : (st_type (f_stat f) =? T_DEVICE) || (st_type (f_stat f) =? T_FILE) = false).
  { apply orb_false_iff. split; apply Z.eqb_neq; tauto. }
  rewrite Eb in Hrun. case_decide as Hdir.
  2: { rewrite (proj2 (Z.eqb_neq _ _)) in Hrun by done. eapply Hrun; [apply gives_ret|apply wrote_refl|by right|done]. }
  rewrite Hdir, Z.eqb_refl, ulib_strlen, cstring_id in Hrun by done. case_decide as Hlen.
  - destruct (dir_loop (Z.of_nat n) path (drop (16 * (length (f_data f) / 16)) (f_data f)) H0) with (des := dirents (f_data f)) (w := w1)
      as (w2 & Hg2 & Hwr2 & He); [rewrite length_drop; pose proof (Nat.div_mod_eq (length (f_data f)) 16);
        pose proof (Nat.mod_upper_bound (length (f_data f)) 16 ltac:(done)); lia|apply dirents_length|done|done| |].
    { rewrite <- dirents_concat. by eexists _, _, _. }
    eapply Hrun; [exact Hg2|exact Hwr2|by left|]. rewrite (proj2 (Z.ltb_ge _ _)); [done|]. change (Z.of_nat DIRSIZ) with 14. lia.
  - eapply (Hrun (printf (strn "ls: path too long") [])); [apply gives_vprintf; [reflexivity|done]|apply wrote_print1|by right|].
    rewrite (proj2 (Z.ltb_lt _ _)); [done|]. change (Z.of_nat DIRSIZ) with 14. lia.
Qed.

Lemma ls_each args : forall w, ls_ready w -> ls_files (w_files w) -> Forall (fun a => 0 ∉ a) args ->
  exists w', gives (each args ls) w tt w' /\ w_fds w' = w_fds w /\
    wrote w w' (map u8 (concat (map (fun a => (ls_text (w_files w) a).1) args)))
      (map u8 (concat (map (fun a => (ls_text (w_files w) a).2) args))).
Proof.
  induction args as [|a args IH]; intros w Hr Hf H0.
  { exists w. split_and!; [apply gives_ret|done|apply wrote_refl]. }
  apply Forall_cons in H0 as [Ha H0]. destruct (ls_one w a Hr Hf Ha) as (w1 & Hg & Hfd & Hwr).
  destruct (IH w1) as (w' & Hg' & Hfd' & Hwr'); [eapply ls_ready_fds; [done|apply Hwr|done]|by rewrite (wr_files _ _ _ _ Hwr)|done|].
  rewrite (wr_files _ _ _ _ Hwr) in Hwr'. exists w'. cbn [each map concat]. split_and!; [by eapply gives_bind|congruence|].
  rewrite !map_app. by eapply wrote_trans.
Qed.

(** C29: [ls] lists.  For each path it prints a line for a file or device, and for a directory a line for each entry in use,
    in order: the last name, padded to 14 characters, and type, inode number and size in decimal.  An entry that
    cannot be found, a path that does not fit the buffer of 512 bytes, and (on descriptor 2) a path that
    is not there get a message.  The descriptors are in the end as they were, and the status is 0. *)
Theorem ls_lists argv w :
  ls_ready w -> ls_files (w_files w) -> Forall (fun a => 0 ∉ a) argv ->
  let args := if decide (length argv < 2)%nat then [str "."] else tl argv in
  exists w', halts (ls_main argv) w 0 w' /\ w_fds w' = w_fds w /\
    wrote w w' (map u8 (concat (map (fun a => (ls_text (w_files w) a).1) args)))
      (map u8 (concat (map (fun a => (ls_text (w_files w) a).2) args))).
Proof.
  intros Hr Hf H0 args. unfold ls_main, args. case_decide.
  - destruct (ls_one w (str ".") Hr Hf) as (w' & Hg & Hfd & Hwr); [by compute_done|]. exists w'.
    split_and!; [eapply halts_bind; [exact Hg|apply halts_exit]|done|]. cbn [map concat]. by rewrite !app_nil_r.
  - destruct (ls_each (tl argv) w Hr Hf) as (w' & Hg & Hfd & Hwr); [destruct argv; [done|by apply Forall_cons in H0 as [_ ?]]|].
    exists w'. split_and!; [eapply halts_bind; [exact Hg|apply halts_exit]|done..].
Qed.

(** A directory with an entry for a file, one that is not in use, and one for a file that is gone. *)
Definition ls_world : world :=
  World {[str "d" := mkFile (mkStat 1 5 T_DIR 1 48) (le_encode 2 7 ++ strncpy (str "x") DIRSIZ ++ le_encode 2 0 ++ strncpy (str "y") DIRSIZ ++ le_encode 2 9 ++ strncpy (str "z") DIRSIZ);
          str "d/x" := mkFile (mkStat 1 7 T_FILE 1 120) []]}
    (replicate 3 (Some (mkDesc None true (mkStat 1 1 T_DEVICE 1 0))) ++ replicate 13 None) [] (fun _ => 511%nat).

Lemma ls_lists_witness :
  exists w', halts (ls_main [str "ls"; str "d"; str "q"]) ls_world 0 w' /\ w_fds w' = w_fds ls_world /\
    wrote ls_world w' (strn "x              2 7 120" ++ strn "ls: cannot stat d/z") (strn "ls: cannot open q").
Proof.
  destruct (ls_lists [str "ls"; str "d"; str "q"] ls_world) as (w' & Hh & Hfd & Hwr).
  - split; [split; [by eexists..|by exists 3%nat]| |intros k; cbn; lia]. intros n d Hn. unfold free_fd.
    apply fmap_is_Some, (list_find_elem_of (fun d => d = None) _ None); [|done].
    unfold set_fd. change (w_fds (ls_world <| w_fds ::= ?g |>)) with (g (w_fds ls_world)). rewrite Nat2Z.id.
    destruct (decide (n = 3)%nat) as [->|Hne]; [apply (list_elem_of_lookup_2 _ 4)|apply (list_elem_of_lookup_2 _ 3)];
      by rewrite list_lookup_insert_ne.
  - apply map_Forall_insert_2; [by vm_compute|]. apply map_Forall_singleton. by vm_compute.
  - repeat apply Forall_cons_2; [by compute_done..|done].
  - exists w'. split_and!; [exact Hh|exact Hfd|exact Hwr].
Defined.
