(* ===== verification/Uinit.v ===== *)
(** init (user/init.c) is a state machine: there is one shell at a time, for ever. *)

From stdpp Require Import prelude gmap strings.
From Stdlib Require Import ZArith Lia Ascii.
From ITree Require Import ITree ITreeFacts.
From S2P Require Import Prelude Bytes Params CString Printk Fs Ulib Usys Uprintf Uprog.

Local Open Scope Z_scope.
Local Open Scope user_scope.

(** ** The machine of init *)

Inductive phase :=
| P_open                                    (* the console is not open *)
| P_mknod                                   (* it does not exist *)
| P_reopen
| P_dup (n : nat)                           (* after this one, [n] more descriptors are duplicated *)
| P_say (c : Z) (text : list Z) (p : phase) (* printing, before the phase [p] *)
| P_fork                                    (* there is no shell *)
| P_shell (pid : Z)                         (* the shell [pid] runs *)
| P_child                                   (* the process that becomes the shell *)
| P_exit.

(** In a phase there is one system call; its result gives the next phase. *)
Record action := Act { a_type : Type; a_call : sysE a_type; a_next : a_type -> phase }.

Definition P_says (text : list Z) (p : phase) : phase := match text with [] => p | c :: text' => P_say c text' p end.
Definition P_start : phase := P_says (strn "init: starting sh") P_fork.

Definition step (p : phase) : action :=
  match p with
  | P_open => Act _ (Open (str "console") O_RDWR) (fun fd => if fd <? 0 then P_mknod else P_dup 1)
  | P_mknod => Act _ (Mknod (str "console") CONSOLE 0) (fun _ => P_reopen)
  | P_reopen => Act _ (Open (str "console") O_RDWR) (fun _ => P_dup 1)
  | P_dup n => Act _ (Dup 0) (fun _ => match n with O => P_start | S n' => P_dup n' end)
  | P_say c text p' => Act _ (Write 1 [c]) (fun _ => P_says text p')
  | P_fork => Act _ Fork (fun pid => if pid <? 0 then P_says (strn "init: fork failed") P_exit
                                    else if pid =? 0 then P_child else P_shell pid)
  | P_shell pid => Act _ Wait (fun wpid => if wpid =? pid then P_start
                                    else if wpid <? 0 then P_says (strn "init: wait returned an error") P_exit
                                    else P_shell pid)
  | P_child => Act _ (Exec (str "sh") [str "sh"]) (fun _ => P_says (strn "init: exec sh failed") P_exit)
  | P_exit => Act _ (Exit 1) (fun v => match v with end)
  end.

(** The program of the machine. *)
Definition machine : phase -> U Empty_set :=
  loop (fun p => x <- call (a_call (step p)) ;; Ret (inl (a_next (step p) x))).

(** The children that a process has started and that [wait] has not returned, after a call with result [x]. *)
Definition children {A} (e : sysE A) : A -> list Z -> list Z :=
  match e in sysE A return A -> list Z -> list Z with
  | Fork => fun pid l => if 0 <? pid then pid :: l else l
  | Wait => fun wpid l => filter (fun pid => pid <> wpid) l
  | _ => fun _ l => l
  end.

(** The phases that some results of the calls lead to, with the children there. *)
Inductive path : phase -> list Z -> Prop :=
| path_open : path P_open []
| path_call p l (x : a_type (step p)) : path p l -> path (a_next (step p) x) (children (a_call (step p)) x l).

(** ** Silent steps *)

(** A tree with more silent steps. *)
Ltac same_head := eapply eqit_bind; [reflexivity|]; intros ?.

Lemma machine_step p : euttge eq (machine p) (x <- call (a_call (step p)) ;; machine (a_next (step p) x)).
Proof. unfold machine, loop. rewrite unfold_iter, bind_bind. same_head. rewrite bind_ret_l, tau_euttge. reflexivity. Qed.

Lemma machine_vis p : euttge eq (machine p) (Vis (a_call (step p)) (fun x => machine (a_next (step p) x))).
Proof. rewrite machine_step. unfold call. rewrite bind_trigger. reflexivity. Qed.

Lemma machine_says fmt p (h : unit -> U Empty_set) :
  vprintf_chars fmt [] = Some fmt -> List.map u8 fmt = fmt -> euttge eq (machine p) (h tt) ->
  euttge eq (machine (P_says fmt p)) (ITree.bind (printf fmt []) h).
Proof.
  intros E1 E2 Eh. unfold printf, vprintf. rewrite E1. clear E1. induction fmt as [|c fmt IH]; cbn [each P_says].
  - rewrite bind_ret_l. exact Eh.
  - cbn [List.map] in E2. injection E2 as Ec E2. rewrite (machine_step (P_say _ _ _)), !bind_bind. unfold putc. rewrite Ec. cbn.
    same_head. rewrite !bind_ret_l. by apply IH.
Qed.

Lemma machine_fails {A} fmt (h : A -> U Empty_set) :
  vprintf_chars fmt [] = Some fmt -> List.map u8 fmt = fmt ->
  eutt eq (ITree.bind (printf fmt [] ;; exit 1) h) (machine (P_says fmt P_exit)).
Proof.
  intros E1 E2. symmetry. apply euttge_sub_eutt. rewrite bind_bind. apply machine_says; [done..|]. rewrite machine_step. unfold exit. rewrite bind_bind. cbn.
  same_head. destruct a.
Qed.

(** ** The rounds of init *)

Definition rounds : U Empty_set := loop (fun _ : unit => init_round ;; Ret (inl tt)) tt.

Lemma rounds_step : euttge eq rounds (init_round ;; rounds).
Proof. unfold rounds at 1, loop. rewrite unfold_iter, bind_bind. same_head. rewrite bind_ret_l, tau_euttge. reflexivity. Qed.

Lemma wait_step {A} pid (h : unit -> U A) :
  euttge eq (ITree.bind (init_wait pid) h) (wpid <- call Wait ;;
    if wpid =? pid then h tt
    else if wpid <? 0 then (printf (strn "init: wait returned an error") [] ;; exit 1 : U unit) ;; h tt
    else ITree.bind (init_wait pid) h).
Proof.
  unfold init_wait at 1, loop. rewrite unfold_iter, !bind_bind. same_head. destruct (_ =? pid); [by rewrite !bind_ret_l|]. destruct (_ <? 0).
  - rewrite !bind_bind. same_head. unfold exit. rewrite !bind_bind. same_head. destruct a1.
  - rewrite !bind_ret_l, bind_tau, tau_euttge. reflexivity.
Qed.

(** What is left of the program in the phases in which loops are entered. *)
Inductive rel : U Empty_set -> phase -> Prop :=
| rel_start : rel rounds P_start
| rel_shell pid : rel (init_wait pid ;; rounds) (P_shell pid).

Lemma rounds_machine : forall t p, rel t p -> eutt eq t (machine p).
Proof.
  assert (Hs : euttge eq (machine P_start) (printf (strn "init: starting sh") [] ;; machine P_fork)).
  { apply machine_says; reflexivity. }
  einit. ecofix CIH. intros t p [|pid].
  - rewrite rounds_step, Hs. unfold init_round. rewrite bind_bind. ebind. econstructor; [reflexivity|]. intros [] ? <-.
    rewrite machine_vis. unfold call. cbn [step a_type a_call a_next]. rewrite bind_bind, bind_trigger. evis. intros pid.
    destruct (pid <? 0). { efinal. by apply machine_fails. }
    destruct (pid =? 0); [|ebase; right; apply CIHH; constructor].
    efinal. rewrite bind_bind, machine_step. apply eutt_clo_bind with (UU := eq); [reflexivity|]. intros ? ? _. by apply machine_fails.
  - rewrite wait_step, machine_vis. unfold call. cbn [step a_type a_call a_next]. rewrite bind_trigger. evis. intros wpid. cbn [step a_type a_call a_next].
    destruct (wpid =? pid); [ebase; right; apply CIHH; constructor|].
    destruct (wpid <? 0); [efinal; by apply machine_fails|ebase; right; apply CIHH; constructor].
Qed.

Lemma main_machine : eutt eq init_main (machine P_open).
Proof.
  unfold init_main. fold rounds. rewrite (machine_step P_open). apply eutt_clo_bind with (UU := eq); [reflexivity|]. intros fd ? <-.
  cbn [step a_next].
  assert (Hd : eutt eq (call (Dup 0) ;; call (Dup 0) ;; rounds) (machine (P_dup 1))).
  { do 2 (rewrite machine_step; apply eutt_clo_bind with (UU := eq); [reflexivity|]; intros ? ? _).
    apply rounds_machine. constructor. }
  destruct (fd <? 0); [|by rewrite bind_ret_l].
  rewrite bind_bind, machine_step. apply eutt_clo_bind with (UU := eq); [reflexivity|]. intros ? ? _.
  rewrite bind_bind, machine_step. apply eutt_clo_bind with (UU := eq); [reflexivity|]. intros ? ? _.
  by rewrite bind_ret_l.
Qed.

(** The children in a phase. *)
Fixpoint has_children (p : phase) (l : list Z) : Prop :=
  match p with
  | P_shell pid => 0 < pid /\ l = [pid]
  | P_say _ _ p' => has_children p' l
  | P_exit => (length l <= 1)%nat
  | _ => l = []
  end.

Lemma has_says text p l : has_children p l -> has_children (P_says text p) l.
Proof. by destruct text. Qed.

Lemma path_children p l : path p l -> has_children p l.
Proof.
  induction 1 as [|p l x _ IH]; [done|].
  destruct p as [| | |n|c text p| |pid| |]; cbn [step a_type a_call a_next children has_children] in *.
  - by destruct (x <? 0).
  - done.
  - done.
  - destruct n; [by apply has_says|done].
  - by apply has_says.
  - subst l. destruct (Z.ltb_spec x 0); [rewrite (proj2 (Z.ltb_ge _ _)) by lia; apply has_says; cbn; lia|].
    destruct (Z.eqb_spec x 0) as [-> |]; [done|]. rewrite (proj2 (Z.ltb_lt _ _)) by lia. cbn. split; [lia|done].
  - destruct IH as [Hp ->]. rewrite filter_cons. destruct (Z.eqb_spec x pid) as [-> |].
    { rewrite decide_False by tauto. by apply has_says. }
    rewrite decide_True by done. destruct (x <? 0); [apply has_says; cbn; lia|done].
  - subst l. apply has_says. cbn. lia.
  - destruct x.
Qed.

(** C25: init keeps one shell running, for ever.  It is the machine from the phase [P_open], up to silent steps and
    whatever the system calls return: it opens the console, creating it first if that fails, and duplicates it
    for descriptors 1 and 2; then it says so and starts a shell, and does that again exactly when [wait] has returned
    that shell, passing over all other processes.  It exits only after [fork], [exec] or [wait] has failed.  So it never has
    two children of its own: it has none when it calls [fork], and the one shell while it waits. *)
Theorem init_one_shell :
  eutt eq init_main (machine P_open) /\
  forall p l, path p l ->
    (length l <= 1)%nat /\ (p = P_fork -> l = []) /\ (forall pid, p = P_shell pid -> 0 < pid /\ l = [pid]).
Proof.
  split; [apply main_machine|]. intros p l H%path_children. split_and!; [|by intros ->|by intros pid ->].
  revert H. induction p; cbn [has_children]; intros H; try (subst; cbn; lia); [tauto|destruct H as [_ ->]; cbn; lia].
Qed.

(** The console exists; the shell is process 5, and a process without a parent, 7, ends before it. *)
Lemma init_one_shell_witness : path (P_shell 5) [5] /\ (length [5] <= 1)%nat /\ 0 < 5.
Proof.
  assert (Hsay : forall text l, path (P_says text P_fork) l -> path P_fork l).
  { induction text as [|c text IH]; intros l H; [exact H|]. apply IH. exact (path_call (P_say c text P_fork) l 1 H). }
  assert (Hf : path P_fork []).
  { apply (Hsay (strn "init: starting sh")). apply (path_call (P_dup 0) [] 2). apply (path_call (P_dup 1) [] 1).
    apply (path_call P_open [] 0). constructor. }
  assert (H5 : path (P_shell 5) [5]) by (apply (path_call (P_shell 5) [5] 7); exact (path_call P_fork [] 5 Hf)).
  split; [exact H5|]. split; [exact (proj1 (proj2 init_one_shell _ _ H5))|]. exact (proj1 (proj2 (proj2 (proj2 init_one_shell _ _ H5)) 5 eq_refl)).
Defined.
