(* ===== verification/Mkfs.v ===== *)
(** mkfs/mkfs.c: the program that builds the file system image on the host.

    The image file is the list of its sectors: the program reads and writes whole sectors at
    multiples of their size only.  The byte order of the host, and what its files hold, are
    parameters. *)

From stdpp Require Import prelude gmap strings.
From Stdlib Require Import ZArith Lia Ascii.
From S2P Require Import Prelude Bytes Params State CString Fs.

Local Open Scope Z_scope.
Local Open Scope kernel_scope.

(** The host: its byte order; whether the image file can be created, and a sector written to it;
    and the files it has, each as the bytes that the successive calls of [read] with a
    buffer of [BSIZE] bytes return. *)
Class Host := {
  big_endian : bool;
  h_create : list Z -> bool;
  h_write : Z -> bool;
  h_file : list Z -> option (list (list Z));
}.

#[export] Instance eta_dinode : Eta dinode := fun r =>
  mkDinode (di_type r) (di_major r) (di_minor r) (di_nlink r) (di_size r) (di_addrs r).
#[export] Instance set_di_type : Setter di_type := ltac:(solve_setter).
#[export] Instance set_di_nlink : Setter di_nlink := ltac:(solve_setter).
#[export] Instance set_di_size : Setter di_size := ltac:(solve_setter).
#[export] Instance set_di_addrs : Setter di_addrs := ltac:(solve_setter).

(** The globals of the program, with the contents of the file [fsfd] and what it printed. *)
Record mkfs := MkFs {
  fsfd : list (list Z);
  freeinode : Z;
  freeblock : Z;
  msb : superblock;
  stdout : list (list Z * list Z);
}.

#[export] Instance eta_mkfs : Eta mkfs := fun r =>
  MkFs (fsfd r) (freeinode r) (freeblock r) (msb r) (stdout r).
#[export] Instance set_fsfd : Setter fsfd := ltac:(solve_setter).
#[export] Instance set_freeinode : Setter freeinode := ltac:(solve_setter).
#[export] Instance set_freeblock : Setter freeblock := ltac:(solve_setter).
#[export] Instance set_msb : Setter msb := ltac:(solve_setter).
#[export] Instance set_stdout : Setter stdout := ltac:(solve_setter).

Definition NINODES : Z := 200.
Definition nbitmap : Z := FSSIZE / BPB + 1.
Definition ninodeblocks : Z := NINODES / IPB + 1.
Definition nlog : Z := LOGBLOCKS + 1.
Definition zeroes : list Z := replicate (Z.to_nat BSIZE) 0.

Definition mkfs_start : mkfs := MkFs [] 1 0 zero_sb [].

Definition die {A : Type} : M mkfs A := panic "die".
Definition massert (b : bool) : M mkfs unit := panic_if (negb b) "assert".
Definition mprintf (fmt : list Z) (args : list Z) : M mkfs unit :=
  modify (fun m => m <| stdout ::= (fun l => l ++ [(fmt, args)]) |>).

Section mkfs.
Context {HO : Host}.

(** ** Integers in the memory of the host *)

Definition to_mem (n : nat) (x : Z) : list Z :=
  if big_endian then rev (le_encode n x) else le_encode n x.
Definition of_mem (l : list Z) : Z := if big_endian then le_decode (rev l) else le_decode l.

Definition xshort (x : Z) : Z := of_mem [u8 x; u8 (Z.shiftr x 8)].
Definition xint (x : Z) : Z := of_mem [u8 x; u8 (Z.shiftr x 8); u8 (Z.shiftr x 16); u8 (Z.shiftr x 24)].

(** The structures as the host has them in memory: [struct superblock], [struct dinode] and
    [struct dirent]. *)
Definition sb_mem (b : superblock) : list Z :=
  to_mem 4 (sb_magic b) ++ to_mem 4 (sb_size b) ++ to_mem 4 (sb_nblocks b) ++ to_mem 4 (sb_ninodes b) ++
  to_mem 4 (sb_nlog b) ++ to_mem 4 (sb_logstart b) ++ to_mem 4 (sb_inodestart b) ++ to_mem 4 (sb_bmapstart b).

Definition dinode_mem (d : dinode) : list Z :=
  to_mem 2 (di_type d) ++ to_mem 2 (di_major d) ++ to_mem 2 (di_minor d) ++ to_mem 2 (di_nlink d) ++
  to_mem 4 (di_size d) ++ mjoin (map (to_mem 4) (di_addrs d)).

Definition mem_dinode (off : nat) (buf : list Z) : dinode :=
  mkDinode (s16 (of_mem (slice off 2 buf))) (s16 (of_mem (slice (off + 2) 2 buf)))
    (s16 (of_mem (slice (off + 4) 2 buf))) (s16 (of_mem (slice (off + 6) 2 buf)))
    (of_mem (slice (off + 8) 4 buf)) (map (fun i => of_mem (slice (off + 12 + 4 * i) 4 buf)) (seq 0 13)).

Definition dirent_mem (inum : Z) (name : list Z) : list Z := to_mem 2 inum ++ name.

(** [strcpy(de.name, s)] after [bzero(&de, sizeof(de))]. *)
Definition strcpy_name (s : list Z) : list Z := blit 0 (s ++ [0]) (replicate DIRSIZ 0).

(** ** The image file *)

(** The file with the sector [n] written; what is skipped reads as zeroes. *)
Definition put_sector (n : nat) (buf : list Z) (f : list (list Z)) : list (list Z) :=
  if decide (n < length f)%nat then <[n := buf]> f else f ++ replicate (n - length f) zeroes ++ [buf].

Definition wsect (sec : Z) (buf : list Z) : M mkfs unit :=
  let pos := u32 (sec * BSIZE) in
  if h_write pos then modify (fun m => m <| fsfd ::= put_sector (Z.to_nat (pos / BSIZE)) buf |>) else die.

Definition rsect (sec : Z) : M mkfs (list Z) :=
  f <- gets fsfd ;;
  match f !! Z.to_nat (u32 (sec * BSIZE) / BSIZE) with
  | Some buf => ret buf
  | None => die
  end.

Definition winode (inum : Z) (ip : dinode) : M mkfs unit :=
  b <- gets msb ;;
  let bn := IBLOCK inum b in
  buf <- rsect bn ;;
  wsect bn (blit (dinode_off inum) (dinode_mem ip) buf).

Definition rinode (inum : Z) : M mkfs dinode :=
  b <- gets msb ;;
  buf <- rsect (IBLOCK inum b) ;;
  ret (mem_dinode (dinode_off inum) buf).

Definition ialloc (type : Z) : M mkfs Z :=
  inum <- gets freeinode ;;
  modify (fun m => m <| freeinode := u32 (inum + 1) |>) ;;
  winode inum (mkDinode (s16 (xshort type)) 0 0 (s16 (xshort 1)) (xint 0) (replicate 13 0)) ;;
  ret inum.

Definition balloc (used : Z) : M mkfs unit :=
  mprintf (strn "balloc: first %d blocks have been allocated") [used] ;;
  massert (used <? BPB) ;;
  let buf := foldl (fun b i => alter (fun x => Z.lor x (u8 (Z.shiftl 1 (i mod 8)))) (Z.to_nat (i / 8)) b)
               zeroes (seqZ 0 used) in
  b <- gets msb ;;
  mprintf (strn "balloc: write bitmap block at sector %d") [sb_bmapstart b] ;;
  wsect (sb_bmapstart b) buf.

(** [freeblock++] *)
Definition next_block : M mkfs Z :=
  b <- gets freeblock ;;
  modify (fun m => m <| freeblock := u32 (b + 1) |>) ;;
  ret b.

(** [if (xint(din.addrs[k]) == 0) din.addrs[k] = xint(freeblock++);] *)
Definition need_addr (k : Z) (din : dinode) : M mkfs dinode :=
  if xint (di_addrs din !!! Z.to_nat k) =? 0 then
    b <- next_block ;; ret (din <| di_addrs ::= <[Z.to_nat k := xint b]> |>)
  else ret din.

(** The block [x] of [iappend], and [din]. *)
Definition file_block (din : dinode) (fbn : Z) : M mkfs (dinode * Z) :=
  if fbn <? NDIRECT then
    din <- need_addr fbn din ;;
    ret (din, xint (di_addrs din !!! Z.to_nat fbn))
  else
    din <- need_addr NDIRECT din ;;
    let ind := xint (di_addrs din !!! Z.to_nat NDIRECT) in
    let at_ := (4 * Z.to_nat (fbn - NDIRECT))%nat in
    indirect <- rsect ind ;;
    indirect <- (if of_mem (slice at_ 4 indirect) =? 0 then
                   b <- next_block ;;
                   let indirect := blit at_ (to_mem 4 (xint b)) indirect in
                   wsect ind indirect ;;
                   ret indirect
                 else ret indirect) ;;
    ret (din, xint (of_mem (slice at_ 4 indirect))).

(** [while (n > 0)]; every round appends a byte or more. *)
Fixpoint append_loop (fuel : nat) (p : list Z) (n off : Z) (din : dinode) : M mkfs (Z * dinode) :=
  if n <=? 0 then ret (off, din)
  else
    match fuel with
    | O => no_fuel
    | S fuel' =>
        let fbn := off / BSIZE in
        massert (fbn <? MAXFILE) ;;
        r <- file_block din fbn ;;
        let '(din, x) := r in
        let n1 := Z.min n (u32 ((fbn + 1) * BSIZE - off)) in
        buf <- rsect x ;;
        wsect x (blit (Z.to_nat (u32 (off - fbn * BSIZE))) (take (Z.to_nat n1) p) buf) ;;
        append_loop fuel' (drop (Z.to_nat n1) p) (n - n1) (u32 (off + n1)) din
    end.

Definition iappend (inum : Z) (xp : list Z) : M mkfs unit :=
  let n := Z.of_nat (length xp) in
  din <- rinode inum ;;
  r <- append_loop (Z.to_nat n) xp n (xint (di_size din)) din ;;
  let '(off, din) := r in
  winode inum (din <| di_size := xint off |>).

(** ** [main] *)

(** The name in the file system of the argument [a]: without "user/" and a leading [_]. *)
Definition without_user (a : list Z) : list Z := if strncmp a (str "user/") 5 =? 0 then drop 5 a else a.
Definition without_underscore (a : list Z) : list Z := if char_at a =? ch "_" then tl a else a.

Definition add_file (rootino : Z) (a : list Z) : M mkfs unit :=
  let shortname := without_user a in
  massert (bool_decide (ch "/" ∉ shortname)) ;;
  match h_file a with
  | None => die
  | Some reads =>
      let shortname := without_underscore shortname in
      massert (strlen shortname <=? Z.of_nat DIRSIZ) ;;
      inum <- ialloc T_FILE ;;
      iappend rootino (dirent_mem (xshort inum) (strncpy shortname DIRSIZ)) ;;
      foreach reads (iappend inum)
  end.

Definition make_sb (nblocks : Z) : superblock :=
  mkSb FSMAGIC (xint FSSIZE) (xint nblocks) (xint NINODES) (xint nlog) (xint 2) (xint (2 + nlog))
    (xint (2 + nlog + ninodeblocks)).

(** Round the size of the root directory up. *)
Definition fix_root (rootino : Z) : M mkfs unit :=
  din <- rinode rootino ;;
  let off := xint (di_size din) in
  let off := u32 ((off / BSIZE + 1) * BSIZE) in
  winode rootino (din <| di_size := xint off |>).

Definition mkfs_main (argv : list (list Z)) : M mkfs unit :=
  match argv with
  | _ :: image :: files =>
      massert (BSIZE mod DINODE_SIZE =? 0) ;;
      massert (BSIZE mod DIRENT_SIZE =? 0) ;;
      (if h_create image then modify (fun m => m <| fsfd := [] |>) else die) ;;
      let nmeta := 2 + nlog + ninodeblocks + nbitmap in
      let nblocks := FSSIZE - nmeta in
      modify (fun m => m <| msb := make_sb nblocks |>) ;;
      mprintf (strn "nmeta %d (boot, super, log blocks %u, inode blocks %u, bitmap blocks %u) blocks %d total %d")
        [nmeta; nlog; ninodeblocks; nbitmap; nblocks; FSSIZE] ;;
      modify (fun m => m <| freeblock := nmeta |>) ;;
      foreach (seqZ 0 FSSIZE) (fun i => wsect i zeroes) ;;
      b <- gets msb ;;
      wsect 1 (blit 0 (sb_mem b) zeroes) ;;
      rootino <- ialloc T_DIR ;;
      massert (rootino =? ROOTINO) ;;
      iappend rootino (dirent_mem (xshort rootino) (strcpy_name (str "."))) ;;
      iappend rootino (dirent_mem (xshort rootino) (strcpy_name (str ".."))) ;;
      foreach files (add_file rootino) ;;
      fix_root rootino ;;
      used <- gets freeblock ;;
      balloc used
  | _ => panic "usage"
  end.

End mkfs.
