(* ===== verification/Image.v ===== *)
(** The image that mkfs builds (mkfs/mkfs.c): it has the files that mkfs was given, and it meets
    the invariants of the kernel's file system. *)

From stdpp Require Import prelude gmap strings.
From Stdlib Require Import ZArith Lia Ascii.
From S2P Require Import Prelude Bytes Params State CString Log Recovery Fs Block Inode Content Dir Path Mkfs.

Local Open Scope Z_scope.
Local Open Scope kernel_scope.

(** ** The image as a disk *)

Definition vol (m : mkfs) : gmap Z (list Z) := map_seqZ 0 (fsfd m).

Lemma vol_at m b : 0 <= b -> vol m !! b = fsfd m !! Z.to_nat b.
Proof. intros Hb. unfold vol. by rewrite lookup_map_seqZ_0. Qed.

Lemma vol_neg m b : b < 0 -> vol m !! b = None.
Proof. intros Hb. unfold vol. apply lookup_map_seqZ_None. lia. Qed.

Lemma vol_put m b buf m' :
  0 <= b < Z.of_nat (length (fsfd m)) -> fsfd m' = put_sector (Z.to_nat b) buf (fsfd m) -> vol m' = <[b := buf]> (vol m).
Proof.
  intros Hb E. apply map_eq. intros c. destruct (decide (c < 0)) as [Hc|Hc].
  { rewrite lookup_insert_ne by lia. by rewrite !vol_neg. }
  rewrite vol_at by lia. rewrite E. unfold put_sector. rewrite decide_True by lia.
  destruct (decide (c = b)) as [->|Hne].
  - rewrite lookup_insert_eq. apply list_lookup_insert_eq. lia.
  - rewrite lookup_insert_ne by done. rewrite vol_at by lia. apply list_lookup_insert_ne. lia.
Qed.

Lemma length_zeroes : length zeroes = 1024%nat.
Proof. apply length_replicate. Qed.

(** ** Little-endian hosts *)

Section image.
Context {HO : Host}.
Hypothesis LE : big_endian = false.

Lemma to_mem_le n x : to_mem n x = le_encode n x.
Proof. unfold to_mem. by rewrite LE. Qed.

Lemma of_mem_le l : of_mem l = le_decode l.
Proof. unfold of_mem. by rewrite LE. Qed.

Lemma xint_le x : 0 <= x < 2 ^ 32 -> xint x = x.
Proof.
  intros Hx. unfold xint. rewrite of_mem_le. etrans; [|apply (le_decode_encode_small 4 x); done]. f_equal.
  unfold le_encode, wrap. rewrite !Z.shiftr_div_pow2 by lia. by rewrite !Z.div_div by lia.
Qed.

Lemma xshort_le x : 0 <= x < 2 ^ 16 -> xshort x = x.
Proof.
  intros Hx. unfold xshort. rewrite of_mem_le. etrans; [|apply (le_decode_encode_small 2 x); done]. f_equal.
  unfold le_encode, wrap. by rewrite !Z.shiftr_div_pow2 by lia.
Qed.

Lemma dinode_mem_le d : dinode_mem d = dinode_bytes d.
Proof.
  unfold dinode_mem, dinode_bytes. rewrite !to_mem_le. do 5 f_equal. f_equal. apply map_ext. intros a. apply to_mem_le.
Qed.

Lemma mem_dinode_le off buf : mem_dinode off buf = get_dinode off buf.
Proof. unfold mem_dinode, get_dinode, get_s16, get_u32. rewrite !of_mem_le. f_equal. apply map_ext. intros i. apply of_mem_le. Qed.

Definition the_sb : superblock := mkSb FSMAGIC 2000 1953 200 31 2 33 46.

Lemma make_sb_le : make_sb 1953 = the_sb.
Proof. unfold make_sb. rewrite !xint_le by done. done. Qed.

Lemma IBLOCK_the j : 0 <= j < 208 -> IBLOCK j the_sb = j / 16 + 33.
Proof. intros Hj. unfold IBLOCK. change IPB with 16. apply u32_small. cbn. Z.div_mod_to_equations. lia. Qed.

Lemma IBLOCK_range j : 0 <= j < 208 -> 33 <= IBLOCK j the_sb < 46.
Proof. intros Hj. rewrite IBLOCK_the by done. Z.div_mod_to_equations. lia. Qed.

(** ** Allocated blocks

    [al] says for each block after the metadata, in order, which inode it was allocated for, and
    as which block of the file; -1 is the indirect block. *)
Definition at_block (al : list (Z * Z)) (a : Z) (x : Z * Z) : Prop := 47 <= a /\ al !! Z.to_nat (a - 47) = Some x.

Lemma at_block_fun al a x y : at_block al a x -> at_block al a y -> x = y.
Proof. intros [_ H1] [_ H2]. congruence. Qed.

Lemma at_block_lt al a x : at_block al a x -> 47 <= a < 47 + Z.of_nat (length al).
Proof. intros [H1 H2]. apply lookup_lt_Some in H2. lia. Qed.

Lemma at_block_app al l a x : at_block al a x -> at_block (al ++ l) a x.
Proof. intros [H1 H2]. split; [done|]. by apply lookup_app_l_Some. Qed.

Lemma at_block_new al x : at_block (al ++ [x]) (47 + Z.of_nat (length al)) x.
Proof. split; [lia|]. rewrite list_lookup_middle; [done|lia]. Qed.

Lemma addr_view j d k : addr_of (view j d) k = di_addrs d !!! Z.to_nat k.
Proof. unfold addr_of, view, load_dinode. by rs. Qed.

(** The first [nb] blocks of the file of inode [j] are allocated. *)
Record mapped_to (V : gmap Z (list Z)) (al : list (Z * Z)) (j : Z) (d : dinode) (nb : Z) : Prop := {
  mt_len : length (di_addrs d) = 13%nat;
  mt_nb : 0 <= nb <= MAXFILE;
  mt_some : forall bn, 0 <= bn < nb -> at_block al (faddr V (view j d) bn) (j, bn);
  mt_none : forall bn, nb <= bn < MAXFILE -> faddr V (view j d) bn = 0;
  mt_ind : if 12 <? nb then at_block al (addr_of (view j d) NDIRECT) (j, -1) else addr_of (view j d) NDIRECT = 0;
}.

Definition nblk (n : nat) : Z := (Z.of_nat n + 1023) / 1024.

(** The file of inode [j] has the content [c], then zeroes up to the end of its last block. *)
Record content_of (V : gmap Z (list Z)) (al : list (Z * Z)) (j : Z) (d : dinode) (c : list Z) : Prop := {
  co_map : mapped_to V al j d (nblk (length c));
  co_bytes : forall o, 0 <= o < 1024 * nblk (length c) -> file_byte V (view j d) o = default 0 (c !! Z.to_nat o);
}.

Definition file_inode (ty : Z) (c : list Z) (addrs : list Z) : dinode :=
  mkDinode ty 0 0 1 (Z.of_nat (length c)) addrs.

(** What the image has when the blocks [al] are allocated. *)
Record vol_inv (m : mkfs) (al : list (Z * Z)) : Prop := {
  vi_sb : msb m = the_sb;
  vi_len : length (fsfd m) = 2000%nat;
  vi_sect : forall b d, vol m !! b = Some d -> length d = 1024%nat;
  vi_fb : freeblock m = 47 + Z.of_nat (length al);
  vi_room : 47 + Z.of_nat (length al) <= 2000;
  vi_zero : forall b, 47 + Z.of_nat (length al) <= b < 2000 -> vol m !! b = Some zeroes;
  vi_meta : forall b, 0 <= b < 33 \/ b = 46 ->
    vol m !! b = Some (if decide (b = 1) then blit 0 (sb_mem the_sb) zeroes else zeroes);
}.

Lemma vi_some m al b : vol_inv m al -> 0 <= b < 2000 -> is_Some (vol m !! b).
Proof. intros Hv Hb. rewrite vol_at by lia. apply lookup_lt_is_Some. rewrite (vi_len _ _ Hv). lia. Qed.

Lemma rsect_ok m al b d : vol_inv m al -> 0 <= b < 2000 -> vol m !! b = Some d -> rsect b m = Ok d m.
Proof.
  intros Hv Hb Hd. unfold rsect. rewrite bind_gets. rewrite vol_at in Hd by lia.
  rewrite u32_small by (change BSIZE with 1024; lia). rewrite Z.div_mul by done. by rewrite Hd.
Qed.

Hypothesis WR : forall p, h_write p = true.

Definition written (b : Z) (d : list Z) (m : mkfs) : mkfs := m <| fsfd ::= put_sector (Z.to_nat b) d |>.

Lemma wsect_eq b d m : 0 <= b < 2 ^ 22 -> wsect b d m = Ok tt (written b d m).
Proof.
  intros Hb. unfold wsect. rewrite WR. rewrite u32_small by (change BSIZE with 1024; lia). by rewrite Z.div_mul.
Qed.

Lemma written_vol m al b d : vol_inv m al -> 0 <= b < 2000 -> vol (written b d m) = <[b := d]> (vol m).
Proof.
  intros Hv Hb. apply vol_put; [by rewrite (vi_len _ _ Hv)|]. unfold written. by rs.
Qed.

(** A sector that is not free or metadata is written. *)
Lemma vol_inv_written m al b d :
  vol_inv m al -> 33 <= b < 47 + Z.of_nat (length al) -> b <> 46 -> length d = 1024%nat -> vol_inv (written b d m) al.
Proof.
  intros Hv Hb Hne Hd. pose proof Hv as [Hsb Hl Hs Hf Hr Hz Hm].
  assert (Hvol : vol (written b d m) = <[b := d]> (vol m)) by (apply (written_vol m al); [done|lia]).
  split; rewrite ?Hvol; try done.
  - unfold written. rs. unfold put_sector. rewrite decide_True by lia. by rewrite length_insert.
  - intros c e [[<- <-]|[_ He]]%lookup_insert_Some; [done|by eapply Hs].
  - intros c Hc. rewrite lookup_insert_ne by lia. by apply Hz.
  - intros c Hc. rewrite lookup_insert_ne by lia. by apply Hm.
Qed.

Lemma same_dinode d : d = d <| di_addrs := di_addrs d |>.
Proof. by destruct d. Qed.

(** ** Allocation *)

Lemma next_block_ok m al x :
  vol_inv m al -> 47 + Z.of_nat (length al) < 2000 ->
  exists m', next_block m = Ok (47 + Z.of_nat (length al)) m' /\ vol_inv m' (al ++ [x]) /\ vol m' = vol m /\
    freeinode m' = freeinode m.
Proof.
  intros [Hsb Hl Hs Hf Hr Hz Hm] Hroom. unfold next_block. rewrite bind_gets, bind_modify, Hf.
  eexists. split; [done|]. rewrite u32_small by lia. split; [|by split; rs].
  split; rewrite ?length_app; cbn [length]; rs; try done; try lia.
  intros b Hb. apply Hz. lia.
Qed.

Lemma faddr_direct V j d bn : 0 <= bn < 12 -> faddr V (view j d) bn = di_addrs d !!! Z.to_nat bn.
Proof. intros Hb. unfold faddr. rewrite (proj2 (Z.ltb_lt _ _)) by (change NDIRECT with 12; lia). apply addr_view. Qed.

Lemma faddr_none V j d bn : 12 <= bn -> addr_of (view j d) NDIRECT = 0 -> faddr V (view j d) bn = 0.
Proof. intros Hb E. unfold faddr. rewrite (proj2 (Z.ltb_ge _ _)) by (change NDIRECT with 12; lia). by rewrite E. Qed.

Lemma faddr_indirect V j d bn e :
  12 <= bn -> addr_of (view j d) NDIRECT <> 0 -> V !! addr_of (view j d) NDIRECT = Some e ->
  faddr V (view j d) bn = get_u32 (4 * Z.to_nat (bn - 12)) e.
Proof.
  intros Hb Hne He. unfold faddr. rewrite (proj2 (Z.ltb_ge _ _)) by (change NDIRECT with 12; lia).
  rewrite (proj2 (Z.eqb_neq _ _)) by done. by rewrite He.
Qed.

Lemma faddr_frame V V' j d bn :
  V' !! addr_of (view j d) NDIRECT = V !! addr_of (view j d) NDIRECT -> faddr V' (view j d) bn = faddr V (view j d) bn.
Proof. intros E. unfold faddr. destruct (_ <? _); [done|]. destruct (_ =? _); [done|]. by rewrite E. Qed.

(** One more block. *)
Lemma mapped_next V V' al al' j d d' nb :
  mapped_to V al j d nb -> nb < MAXFILE -> (forall a x, at_block al a x -> at_block al' a x) ->
  length (di_addrs d') = 13%nat ->
  (forall bn, 0 <= bn < MAXFILE -> bn <> nb -> faddr V' (view j d') bn = faddr V (view j d) bn) ->
  at_block al' (faddr V' (view j d') nb) (j, nb) ->
  (if 12 <? nb + 1 then at_block al' (addr_of (view j d') NDIRECT) (j, -1) else addr_of (view j d') NDIRECT = 0) ->
  mapped_to V' al' j d' (nb + 1).
Proof.
  intros [Hl Hnb Hs Hn Hi] Hlt Hal Hl' Hf Hnew Hi'. split; [done|lia|..|done].
  - intros bn Hbn. destruct (decide (bn = nb)) as [->|Hne]; [done|]. rewrite Hf by lia. apply Hal, Hs. lia.
  - intros bn Hbn. rewrite Hf by lia. apply Hn. lia.
Qed.

Lemma mapped_mono V V' al al' j d nb :
  mapped_to V al j d nb -> (forall a x, at_block al a x -> at_block al' a x) ->
  (forall a, at_block al a (j, -1) -> V' !! a = V !! a) -> mapped_to V' al' j d nb.
Proof.
  intros [Hl Hnb Hs Hn Hi] Hal HV.
  assert (Hf : forall bn, 0 <= bn < MAXFILE -> faddr V' (view j d) bn = faddr V (view j d) bn).
  { intros bn Hbn. destruct (Z.ltb_spec 12 nb) as [H12|H12]; [by apply faddr_frame, HV|].
    destruct (decide (bn < 12)); [by rewrite !faddr_direct by lia|by rewrite !faddr_none by (done || lia)]. }
  split; [done|done|..].
  - intros bn Hbn. rewrite Hf by lia. by apply Hal, Hs.
  - intros bn Hbn. rewrite Hf by lia. by apply Hn.
  - destruct (12 <? nb); [by apply Hal|done].
Qed.

(** What [file_block] gives: the block [fbn] of the file, which is new and empty if [fbn] is [nb]. *)
Record got_block (m : mkfs) al j (d : dinode) (nb : Z) (m' : mkfs) al' (d' : dinode) : Prop := {
  gb_vol : vol_inv m' al';
  gb_inode : freeinode m' = freeinode m;
  gb_din : exists addrs, d' = d <| di_addrs := addrs |>;
  gb_map : mapped_to (vol m') al' j d' (nb + 1);
  gb_al : exists l, al' = al ++ l /\ Z.of_nat (length l) = if nb =? 12 then 2 else 1;
  gb_old : forall bn, 0 <= bn < nb -> faddr (vol m') (view j d') bn = faddr (vol m) (view j d) bn;
  gb_new : vol m' !! faddr (vol m') (view j d') nb = Some zeroes;
  gb_frame : forall a, 0 <= a < 47 + Z.of_nat (length al) -> ~ at_block al a (j, -1) -> vol m' !! a = vol m !! a;
}.

Lemma file_block_old m al j d nb fbn :
  vol_inv m al -> mapped_to (vol m) al j d nb -> 0 <= fbn < nb ->
  file_block d fbn m = Ok (d, faddr (vol m) (view j d) fbn) m.
Proof.
  intros Hv Hm Hf. pose proof Hm as [Hl Hnb Hs Hn Hi]. change MAXFILE with 268 in Hnb.
  pose proof (Hs fbn Hf) as Hat. pose proof (at_block_lt _ _ _ Hat) as Hrg. pose proof (vi_room _ _ Hv) as Hroom.
  unfold file_block, need_addr. change NDIRECT with 12 in *. destruct (Z.ltb_spec fbn 12) as [Hlt|Hge].
  - rewrite faddr_direct in * by lia. rewrite xint_le by lia. rewrite (proj2 (Z.eqb_neq _ 0)) by lia. rewrite bind_ret.
    rewrite xint_le by lia. done.
  - rewrite (proj2 (Z.ltb_lt _ _)) in Hi by lia. pose proof (at_block_lt _ _ _ Hi) as Hri.
    destruct (vi_some m al (addr_of (view j d) 12) Hv) as [e He]; [lia|].
    pose proof (faddr_indirect (vol m) j d fbn e Hge ltac:(change NDIRECT with 12; lia) He) as Ef. rewrite Ef in *.
    rewrite addr_view in *. rewrite xint_le by lia. rewrite (proj2 (Z.eqb_neq _ 0)) by lia. rewrite bind_ret.
    rewrite xint_le by lia. assert (Hri' : 0 <= di_addrs d !!! Z.to_nat 12 < 2000) by lia.
    run (rsect_ok m al _ e Hv Hri' He). rewrite of_mem_le.
    unfold get_u32 in *. rewrite (proj2 (Z.eqb_neq _ 0)) by lia. rewrite bind_ret, of_mem_le. rewrite xint_le by lia. done.
Qed.

Lemma file_block_direct m al j d nb :
  vol_inv m al -> mapped_to (vol m) al j d nb -> nb < 12 -> 47 + Z.of_nat (length al) < 2000 ->
  exists m' al' d', file_block d nb m = Ok (d', faddr (vol m') (view j d') nb) m' /\ got_block m al j d nb m' al' d'.
Proof.
  intros Hv Hm Hlt Hroom. pose proof Hm as [Hl Hnb Hs Hn Hi]. unfold file_block, need_addr.
  change NDIRECT with 12 in *. change MAXFILE with 268 in *. rewrite (proj2 (Z.ltb_lt nb 12)) by lia.
  assert (E0 : di_addrs d !!! Z.to_nat nb = 0) by (rewrite <- (faddr_direct (vol m) j) by lia; apply Hn; lia).
  rewrite E0. rewrite xint_le by lia. rewrite Z.eqb_refl.
  destruct (next_block_ok m al (j, nb) Hv Hroom) as (m' & En & Hv' & EV & Efi).
  set (b := 47 + Z.of_nat (length al)) in *. set (d' := d <| di_addrs ::= <[Z.to_nat nb := xint b]> |>).
  exists m', (al ++ [(j, nb)]), d'.
  assert (Ed : di_addrs d' = <[Z.to_nat nb := b]> (di_addrs d)) by (unfold d'; rs; by rewrite xint_le by lia).
  assert (Ef : forall bn, 0 <= bn < 268 -> faddr (vol m') (view j d') bn = if decide (bn = nb) then b else faddr (vol m) (view j d) bn).
  { intros bn Hbn. rewrite (proj2 (Z.ltb_ge 12 nb)) in Hi by lia.
    destruct (decide (bn < 12)) as [H12|H12].
    - rewrite !faddr_direct, Ed by lia. destruct (decide (bn = nb)) as [->|Hne].
      + rewrite list_lookup_total_insert_eq; [done|lia].
      + by rewrite list_lookup_total_insert_ne by lia.
    - rewrite decide_False by lia. rewrite !faddr_none; try done; try lia. rewrite addr_view in *. rewrite Ed.
      by rewrite list_lookup_total_insert_ne by (change NDIRECT with 12; lia). }
  assert (Eb : faddr (vol m') (view j d') nb = b) by (rewrite Ef by lia; by rewrite decide_True).
  split.
  - rewrite Eb. erewrite bind_ok; [|erewrite bind_ok; [|exact En]; reflexivity]. fold d'. rewrite Ed.
    rewrite list_lookup_total_insert_eq by lia. by rewrite xint_le by lia.
  - split; [done|done|by eexists|..].
    + eapply (mapped_next (vol m)); [done|change MAXFILE with 268; lia|intros; by apply at_block_app|by rewrite Ed, length_insert|..].
      * intros bn Hbn Hne. rewrite Ef by done. by rewrite decide_False.
      * rewrite Eb. apply at_block_new.
      * rewrite (proj2 (Z.ltb_ge 12 (nb + 1))) by lia. rewrite (proj2 (Z.ltb_ge 12 nb)) in Hi by lia.
        rewrite addr_view in *. change NDIRECT with 12 in *. rewrite Ed. by rewrite list_lookup_total_insert_ne by lia.
    + exists [(j, nb)]. split; [done|]. rewrite (proj2 (Z.eqb_neq nb 12)) by lia. done.
    + intros bn Hbn. rewrite Ef by lia. by rewrite decide_False by lia.
    + rewrite Eb, EV. apply (vi_zero _ _ Hv). lia.
    + intros. by rewrite EV.
Qed.

(** The indirect block. *)
Lemma need_indirect m al j d nb :
  vol_inv m al -> mapped_to (vol m) al j d nb -> 12 <= nb < 268 -> 47 + Z.of_nat (length al) < 2000 ->
  exists m1 l d1 ind, need_addr NDIRECT d m = Ok d1 m1 /\ vol_inv m1 (al ++ l) /\ freeinode m1 = freeinode m /\
    (exists addrs, d1 = d <| di_addrs := addrs |>) /\ length (di_addrs d1) = 13%nat /\
    length l = (if nb =? 12 then 1%nat else 0%nat) /\ vol m1 = vol m /\
    di_addrs d1 !!! Z.to_nat NDIRECT = ind /\ at_block (al ++ l) ind (j, -1) /\
    (nb = 12 -> ind = 47 + Z.of_nat (length al)) /\ (12 < nb -> at_block al ind (j, -1)) /\
    (forall bn, 0 <= bn < 268 -> faddr (vol m) (view j d1) bn = faddr (vol m) (view j d) bn).
Proof.
  intros Hv Hm Hnb Hroom. pose proof Hm as [Hl _ Hs Hn Hi]. change NDIRECT with 12 in *. change MAXFILE with 268 in *.
  unfold need_addr. rewrite addr_view in Hi. destruct (decide (nb = 12)) as [->|Hne].
  - change (12 <? 12) with false in Hi. cbv iota in Hi. rewrite Hi. rewrite xint_le, Z.eqb_refl by lia.
    destruct (next_block_ok m al (j, -1) Hv Hroom) as (m1 & En & Hv1 & EV & Efi).
    set (b := 47 + Z.of_nat (length al)) in *. set (d1 := d <| di_addrs ::= <[Z.to_nat 12 := xint b]> |>).
    assert (Ed : di_addrs d1 = <[Z.to_nat 12 := b]> (di_addrs d)) by (unfold d1; rs; by rewrite xint_le by lia).
    assert (E12 : di_addrs d1 !!! Z.to_nat 12 = b) by (rewrite Ed, list_lookup_total_insert_eq; [done|lia]).
    exists m1, [(j, -1)], d1, b. split_and!; try done; [by run En|by eexists|by rewrite Ed, length_insert|apply at_block_new|].
    intros bn Hbn. destruct (decide (bn < 12)) as [H12|H12].
    + rewrite !faddr_direct, Ed by lia. by rewrite list_lookup_total_insert_ne by lia.
    + rewrite (faddr_none (vol m) j d) by (done || lia || by rewrite addr_view).
      rewrite (faddr_indirect _ _ _ _ zeroes); [apply get_u32_zeroes|lia|..]; rewrite addr_view; change NDIRECT with 12; rewrite E12; [lia|].
      apply (vi_zero _ _ Hv). lia.
  - rewrite (proj2 (Z.ltb_lt 12 nb)) in Hi by lia. pose proof (at_block_lt _ _ _ Hi).
    rewrite xint_le by lia. rewrite (proj2 (Z.eqb_neq _ 0)) by lia.
    exists m, [], d, (di_addrs d !!! Z.to_nat 12). rewrite app_nil_r. rewrite (proj2 (Z.eqb_neq nb 12)) by done.
    split_and!; try done. exists (di_addrs d). apply same_dinode.
Qed.

Lemma file_block_indirect m al j d nb :
  vol_inv m al -> mapped_to (vol m) al j d nb -> 12 <= nb < 268 ->
  47 + Z.of_nat (length al) + (if nb =? 12 then 2 else 1) <= 2000 ->
  exists m' al' d', file_block d nb m = Ok (d', faddr (vol m') (view j d') nb) m' /\ got_block m al j d nb m' al' d'.
Proof.
  intros Hv Hm Hnb Hroom. unfold file_block. rewrite (proj2 (Z.ltb_ge nb NDIRECT)) by (change NDIRECT with 12; lia).
  destruct (need_indirect m al j d nb) as (m1 & l & d1 & ind & E1 & Hv1 & F1 & Hd1 & L1 & Ll & V1 & Ei & Hat & Hi12 & Hi13 & Hf1);
    [done..|destruct (nb =? 12); lia|]. run E1. rewrite Ei.
  pose proof (at_block_lt _ _ _ Hat) as Hri. pose proof (vi_room _ _ Hv1) as Hr1. rewrite xint_le by lia.
  destruct (vi_some m1 _ ind Hv1) as [e He]; [lia|]. pose proof (vi_sect _ _ Hv1 _ _ He) as Hle.
  assert (Hri' : 0 <= ind < 2000) by lia. run (rsect_ok m1 _ ind e Hv1 Hri' He). change NDIRECT with 12 in *.
  set (at_ := (4 * Z.to_nat (nb - 12))%nat). assert (Hat4 : (at_ + 4 <= 1024)%nat) by lia.
  assert (Hfi : forall V bn, 12 <= bn -> V !! ind = Some e -> faddr V (view j d1) bn = get_u32 (4 * Z.to_nat (bn - 12)) e).
  { intros V bn Hbn HV. apply faddr_indirect; [done|..]; rewrite addr_view; change NDIRECT with 12; rewrite Ei; [lia|done]. }
  assert (E0 : get_u32 at_ e = 0).
  { unfold at_. rewrite <- (Hfi (vol m) nb) by (lia || by rewrite <- V1). rewrite Hf1 by lia. apply (mt_none _ _ _ _ _ Hm).
    change MAXFILE with 268. lia. }
  rewrite of_mem_le. unfold get_u32 in E0. rewrite E0, Z.eqb_refl.
  destruct (next_block_ok m1 (al ++ l) (j, nb) Hv1) as (m2 & E2 & Hv2 & V2 & F2);
    [rewrite length_app, Ll; destruct (nb =? 12); lia|].
  set (b := 47 + Z.of_nat (length (al ++ l))) in *.
  assert (Hb : 47 <= b < 2000) by (pose proof (vi_room _ _ Hv2) as H; rewrite length_app in H; cbn in H; lia).
  set (e' := put_u32 at_ b e). assert (Hle' : length e' = 1024%nat) by (unfold e'; rewrite length_put_u32; lia).
  set (m3 := written ind e' m2).
  assert (E3 : (b <- next_block ;; wsect ind (blit at_ (to_mem 4 (xint b)) e) ;; ret (blit at_ (to_mem 4 (xint b)) e)) m1 = Ok e' m3).
  { run E2. rewrite xint_le, to_mem_le by lia. change (blit at_ (le_encode 4 b) e) with e'. by run (wsect_eq ind e' m2 ltac:(lia)). }
  run E3. rewrite of_mem_le. change (le_decode (slice at_ 4 e')) with (get_u32 at_ e'). unfold e' at 1.
  rewrite get_u32_put_same by lia. rewrite xint_le by lia.
  assert (Hv3 : vol_inv m3 ((al ++ l) ++ [(j, nb)])).
  { apply vol_inv_written; [done|rewrite length_app; cbn; lia|lia|done]. }
  assert (V3 : vol m3 = <[ind := e']> (vol m)) by (unfold m3; rewrite (written_vol _ _ _ _ Hv2) by lia; congruence).
  assert (Hf3 : forall bn, 0 <= bn < 268 -> faddr (vol m3) (view j d1) bn = if decide (bn = nb) then b else faddr (vol m) (view j d) bn).
  { intros bn Hbn. rewrite <- Hf1 by done. destruct (decide (bn < 12)) as [H12|H12].
    { rewrite decide_False by lia. by rewrite !faddr_direct by lia. }
    rewrite (faddr_indirect _ _ _ _ e'); [|lia|..]; try (rewrite addr_view; change NDIRECT with 12; rewrite Ei); [|lia|by rewrite V3, lookup_insert_eq].
    destruct (decide (bn = nb)) as [->|Hne]; [apply get_u32_put_same; lia|].
    rewrite Hfi by (lia || by rewrite <- V1). apply get_u32_put_other; lia. }
  assert (Hb3 : faddr (vol m3) (view j d1) nb = b) by (rewrite Hf3 by lia; by rewrite decide_True).
  exists m3, ((al ++ l) ++ [(j, nb)]), d1. rewrite Hb3. split; [done|]. split.
  - done.
  - change (freeinode m2 = freeinode m). congruence.
  - done.
  - eapply (mapped_next (vol m)); [done|change MAXFILE with 268; lia|intros; by do 2 apply at_block_app|done|..].
    + intros bn Hbn Hne. rewrite Hf3 by done. by rewrite decide_False.
    + rewrite Hb3. apply at_block_new.
    + rewrite (proj2 (Z.ltb_lt 12 (nb + 1))) by lia. rewrite addr_view. change NDIRECT with 12. rewrite Ei. by apply at_block_app.
  - exists (l ++ [(j, nb)]). split; [by rewrite app_assoc|]. rewrite length_app, Ll. by destruct (nb =? 12).
  - intros bn Hbn. rewrite Hf3 by lia. by rewrite decide_False by lia.
  - rewrite Hb3, V3. rewrite lookup_insert_ne by lia. rewrite <- V1. apply (vi_zero _ _ Hv1). lia.
  - intros a Ha Hna. rewrite V3. apply lookup_insert_ne. intros <-.
    destruct (decide (nb = 12)) as [E|Hne]; [specialize (Hi12 E); lia|]. apply Hna, Hi13. lia.
Qed.

Lemma file_block_new m al j d nb :
  vol_inv m al -> mapped_to (vol m) al j d nb -> nb < 268 ->
  47 + Z.of_nat (length al) + (if nb =? 12 then 2 else 1) <= 2000 ->
  exists m' al' d', file_block d nb m = Ok (d', faddr (vol m') (view j d') nb) m' /\ got_block m al j d nb m' al' d'.
Proof.
  intros Hv Hm Hnb Hroom. pose proof (mt_nb _ _ _ _ _ Hm). destruct (decide (nb < 12)) as [H12|H12].
  - apply file_block_direct; try done. destruct (nb =? 12); lia.
  - apply file_block_indirect; try done. lia.
Qed.

(** ** [iappend] *)

(** The blocks that a file of [nb] blocks takes. *)
Definition blocks (nb : Z) : Z := if 12 <? nb then nb + 1 else nb.

Lemma nblk_spec n : 0 <= nblk n /\ Z.of_nat n <= 1024 * nblk n < Z.of_nat n + 1024.
Proof. unfold nblk. Z.div_mod_to_equations. lia. Qed.

Lemma blocks_mono a b : a <= b -> blocks a <= blocks b.
Proof. unfold blocks. intros H. destruct (Z.ltb_spec 12 a), (Z.ltb_spec 12 b); lia. Qed.

Lemma file_byte_at V j d bn k e :
  0 <= bn -> 0 <= k < 1024 -> 0 < faddr V (view j d) bn -> V !! faddr V (view j d) bn = Some e ->
  file_byte V (view j d) (1024 * bn + k) = default 0 (e !! Z.to_nat k).
Proof.
  intros Hbn Hk Ha He. unfold file_byte. change BSIZE with 1024.
  replace ((1024 * bn + k) / 1024) with bn by (Z.div_mod_to_equations; lia).
  replace ((1024 * bn + k) mod 1024) with k by (Z.div_mod_to_equations; lia).
  rewrite (proj2 (Z.eqb_neq _ 0)) by lia. by rewrite He.
Qed.

(** A change that keeps the blocks of the file keeps its content. *)
Lemma content_frame V V' al al' j d c :
  content_of V al j d c -> (forall a x, at_block al a x -> at_block al' a x) ->
  (forall a bn, at_block al a (j, bn) -> V' !! a = V !! a) -> content_of V' al' j d c.
Proof.
  intros [Hm Hb] Hal HV. assert (Hm' : mapped_to V' al' j d (nblk (length c))) by (eapply mapped_mono; eauto).
  split; [done|]. intros o Ho. rewrite <- Hb by done. unfold file_byte. change BSIZE with 1024.
  assert (Hbn : 0 <= o / 1024 < nblk (length c)) by (Z.div_mod_to_equations; lia).
  assert (Ef : faddr V' (view j d) (o / 1024) = faddr V (view j d) (o / 1024)).
  { destruct (decide (o / 1024 < 12)); [by rewrite !faddr_direct by lia|]. apply faddr_frame.
    apply (HV _ (-1)). pose proof (mt_ind _ _ _ _ _ Hm) as Hi. by rewrite (proj2 (Z.ltb_lt 12 _)) in Hi by lia. }
  rewrite Ef. destruct (_ =? 0); [done|]. by rewrite (HV _ (o / 1024)) by (by apply (mt_some _ _ _ _ _ Hm)).
Qed.

(** What one or more rounds of [iappend] to inode [j] do besides the content. *)
Record appended (m : mkfs) al (d : dinode) (j : Z) (m' : mkfs) al' (d' : dinode) (cost : Z) : Prop := {
  ap_vol : vol_inv m' al';
  ap_inode : freeinode m' = freeinode m;
  ap_din : exists addrs, d' = d <| di_addrs := addrs |>;
  ap_al : exists l, al' = al ++ l /\ Z.of_nat (length l) = cost;
  ap_frame : forall a, 0 <= a < 47 + Z.of_nat (length al) -> (forall bn, ~ at_block al a (j, bn)) -> vol m' !! a = vol m !! a;
}.

Lemma appended_refl m al d j : vol_inv m al -> appended m al d j m al d 0.
Proof.
  intros Hv. split; [done|done|exists (di_addrs d); apply same_dinode|exists []; by rewrite app_nil_r|done].
Qed.

Lemma appended_trans m al d j m1 al1 d1 k1 m2 al2 d2 k2 :
  appended m al d j m1 al1 d1 k1 -> (forall a bn, at_block al1 a (j, bn) -> a < 47 + Z.of_nat (length al) -> at_block al a (j, bn)) ->
  appended m1 al1 d1 j m2 al2 d2 k2 -> appended m al d j m2 al2 d2 (k1 + k2).
Proof.
  intros [V1 I1 [a1 D1] (l1 & A1 & L1) F1] Hal [V2 I2 [a2 D2] (l2 & A2 & L2) F2]. split; [done|congruence|..].
  - exists a2. subst. by destruct d.
  - exists (l1 ++ l2). rewrite length_app. subst. rewrite app_assoc. split; [done|lia].
  - intros a Ha Hn. rewrite F2; [by apply F1|subst; rewrite length_app; lia|]. intros bn Hb. apply (Hn bn). apply Hal; [done|lia].
Qed.

Lemma at_block_app_inv al l a x : at_block (al ++ l) a x -> a < 47 + Z.of_nat (length al) -> at_block al a x.
Proof. intros [H1 H2] Ha. split; [done|]. by rewrite lookup_app_l in H2 by lia. Qed.

(** The block that the next bytes go to. *)
Lemma block_for m al j d c fbn :
  vol_inv m al -> content_of (vol m) al j d c -> fbn = Z.of_nat (length c) / 1024 -> fbn < 268 ->
  47 + Z.of_nat (length al) + (blocks (fbn + 1) - blocks (nblk (length c))) <= 2000 ->
  exists m1 al1 d1, file_block d fbn m = Ok (d1, faddr (vol m1) (view j d1) fbn) m1 /\
    appended m al d j m1 al1 d1 (blocks (fbn + 1) - blocks (nblk (length c))) /\
    mapped_to (vol m1) al1 j d1 (fbn + 1) /\
    forall o, 0 <= o < 1024 * (fbn + 1) -> file_byte (vol m1) (view j d1) o = default 0 (c !! Z.to_nat o).
Proof.
  intros Hv [Hm Hb] -> Hlt Hroom. set (nb := nblk (length c)) in *. set (fbn := Z.of_nat (length c) / 1024) in *.
  destruct (decide (Z.of_nat (length c) mod 1024 = 0)) as [Hmod|Hmod].
  - assert (nb = fbn /\ Z.of_nat (length c) = 1024 * fbn) as [En El] by (unfold nb, nblk, fbn; Z.div_mod_to_equations; lia).
    rewrite <- En in *. assert (Ec : blocks (nb + 1) - blocks nb = if nb =? 12 then 2 else 1).
    { unfold blocks. destruct (Z.eqb_spec nb 12) as [->|]; [done|]. destruct (Z.ltb_spec 12 (nb + 1)), (Z.ltb_spec 12 nb); lia. }
    rewrite Ec in *. destruct (file_block_new m al j d nb) as (m1 & al1 & d1 & E & [Gv Gi Gd Gm (l & Ga & Gl) Go Gn Gf]); [done..|].
    exists m1, al1, d1. split_and!; [done| |done|].
    + split; [done..|by exists l|]. intros a Ha Hn. by apply Gf.
    + intros o Ho. destruct (decide (o < 1024 * nb)) as [Hold|Hnew].
      * assert (Hbn : 0 <= o / 1024 < nb) by (Z.div_mod_to_equations; lia). rewrite <- Hb by lia.
        pose proof (mt_some _ _ _ _ _ Hm _ Hbn) as Hat. unfold file_byte. change BSIZE with 1024. rewrite Go by done.
        destruct (_ =? 0); [done|]. rewrite Gf; [done|by apply at_block_lt in Hat; lia|].
        intros Hi. pose proof (at_block_fun _ _ _ _ Hat Hi). simplify_eq. lia.
      * pose proof (mt_some _ _ _ _ _ Gm nb ltac:(lia)) as Hat. apply at_block_lt in Hat.
        replace o with (1024 * nb + (o - 1024 * nb)) by lia. rewrite (file_byte_at _ _ _ _ _ zeroes) by (done || lia).
        unfold zeroes. rewrite lookup_replicate_2 by (change (Z.to_nat BSIZE) with 1024%nat; lia).
        by rewrite lookup_ge_None_2 by lia.
  - assert (nb = fbn + 1) as En by (unfold nb, nblk, fbn; Z.div_mod_to_equations; lia). rewrite <- En, Z.sub_diag in *.
    exists m, al, d. split_and!; [|by apply appended_refl|done|done].
    apply (file_block_old m al j d nb); [done|done|]. pose proof (mt_nb _ _ _ _ _ Hm). unfold fbn. Z.div_mod_to_equations. lia.
Qed.

(** The bytes are stored into the block. *)
Lemma store_in_block m al j d c p fbn off e :
  vol_inv m al -> mapped_to (vol m) al j d (fbn + 1) -> 0 <= fbn ->
  (forall o, 0 <= o < 1024 * (fbn + 1) -> file_byte (vol m) (view j d) o = default 0 (c !! Z.to_nat o)) ->
  Z.of_nat (length c) = 1024 * fbn + Z.of_nat off -> (0 < length p)%nat -> (off + length p <= 1024)%nat ->
  vol m !! faddr (vol m) (view j d) fbn = Some e ->
  content_of (<[faddr (vol m) (view j d) fbn := blit off p e]> (vol m)) al j d (c ++ p).
Proof.
  intros Hv Hm Hf Hb Hc Hp Ho He. set (x := faddr (vol m) (view j d) fbn) in *. set (V' := <[x := _]> _).
  pose proof (vi_sect _ _ Hv _ _ He) as Hle. pose proof (mt_some _ _ _ _ _ Hm fbn ltac:(lia)) as Hat. fold x in Hat.
  assert (Hother : forall a bn, at_block al a (j, bn) -> bn <> fbn -> V' !! a = vol m !! a).
  { intros a bn Ha Hne. unfold V'. apply lookup_insert_ne. intros <-. pose proof (at_block_fun _ _ _ _ Hat Ha). simplify_eq. }
  assert (En : nblk (length (c ++ p)) = fbn + 1).
  { rewrite length_app. unfold nblk. rewrite Nat2Z.inj_add. Z.div_mod_to_equations. lia. }
  assert (Hm' : mapped_to V' al j d (fbn + 1)).
  { eapply mapped_mono; [done|done|]. intros a Ha. apply (Hother _ _ Ha). lia. }
  assert (Ef : forall bn, 0 <= bn < fbn + 1 -> faddr V' (view j d) bn = faddr (vol m) (view j d) bn).
  { intros bn Hbn. destruct (decide (bn < 12)); [by rewrite !faddr_direct by lia|]. apply faddr_frame.
    apply (Hother _ (-1)); [|lia]. pose proof (mt_ind _ _ _ _ _ Hm) as Hi. by rewrite (proj2 (Z.ltb_lt 12 _)) in Hi by lia. }
  split; rewrite En; [done|]. intros o Hor.
  assert (Hbn : 0 <= o / 1024 < fbn + 1) by (Z.div_mod_to_equations; lia).
  destruct (decide (o / 1024 = fbn)) as [Eo|Hne].
  - assert (Hk : 0 <= o - 1024 * fbn < 1024) by (Z.div_mod_to_equations; lia).
    pose proof (at_block_lt _ _ _ Hat) as Hx.
    specialize (Hb o Hor). revert Hb. replace o with (1024 * fbn + (o - 1024 * fbn)) by lia. intros Hb.
    rewrite (file_byte_at _ _ _ _ _ e) in Hb by (done || fold x; lia).
    rewrite (file_byte_at _ _ _ _ _ (blit off p e)); [|lia|lia|rewrite Ef by lia; fold x; lia|rewrite Ef by lia; apply lookup_insert_eq].
    destruct (decide (off <= Z.to_nat (o - 1024 * fbn) < off + length p)%nat) as [Hin|Hout].
    + rewrite lookup_blit_in by lia. rewrite lookup_app_r by lia. f_equal. f_equal. lia.
    + rewrite lookup_blit_out by lia. rewrite Hb. destruct (decide (Z.to_nat (1024 * fbn + (o - 1024 * fbn)) < length c)%nat).
      * by rewrite lookup_app_l.
      * rewrite !lookup_ge_None_2; [done|rewrite length_app; lia|lia].
  - assert (Hlt : (Z.to_nat o < length c)%nat) by (Z.div_mod_to_equations; lia).
    rewrite lookup_app_l by done. rewrite <- Hb by lia. unfold file_byte. change BSIZE with 1024. rewrite Ef by lia.
    destruct (_ =? 0); [done|]. rewrite (Hother _ (o / 1024)); [done| |done]. apply (mt_some _ _ _ _ _ Hm). lia.
Qed.

(** A round of [iappend], with the bytes [p] that it appends. *)
Lemma round_ok m al j d c p fbn off :
  vol_inv m al -> content_of (vol m) al j d c -> 0 <= j -> Z.of_nat (length c) = 1024 * fbn + Z.of_nat off ->
  0 <= fbn < 268 -> (0 < length p)%nat -> (off + length p <= 1024)%nat ->
  47 + Z.of_nat (length al) + (blocks (nblk (length (c ++ p))) - blocks (nblk (length c))) <= 2000 ->
  exists m1 m2 al' d' x e, file_block d fbn m = Ok (d', x) m1 /\ rsect x m1 = Ok e m1 /\
    wsect x (blit off p e) m1 = Ok tt m2 /\
    appended m al d j m2 al' d' (blocks (nblk (length (c ++ p))) - blocks (nblk (length c))) /\
    content_of (vol m2) al' j d' (c ++ p).
Proof.
  intros Hv Hc Hj Hl Hf Hp Ho Hroom.
  assert (En : nblk (length (c ++ p)) = fbn + 1).
  { rewrite length_app. unfold nblk. rewrite Nat2Z.inj_add. Z.div_mod_to_equations. lia. }
  rewrite En in *. destruct (block_for m al j d c fbn) as (m1 & al1 & d1 & E & Ha & Hm & Hb);
    [done|done|Z.div_mod_to_equations; lia|lia|done|].
  set (x := faddr (vol m1) (view j d1) fbn) in *. pose proof (mt_some _ _ _ _ _ Hm fbn ltac:(lia)) as Hat. fold x in Hat.
  pose proof (at_block_lt _ _ _ Hat) as Hx. pose proof Ha as [Hv1 Hi1 Hd1 (l & -> & Hl1) Hfr1]. pose proof (vi_room _ _ Hv1) as Hr1.
  destruct (vi_some m1 _ x Hv1) as [e He]; [lia|]. pose proof (vi_sect _ _ Hv1 _ _ He) as Hle.
  assert (Hx' : 0 <= x < 2000) by lia. assert (EV : vol (written x (blit off p e) m1) = <[x := blit off p e]> (vol m1)).
  { by apply (written_vol _ _ _ _ Hv1). }
  exists m1, (written x (blit off p e) m1), (al ++ l), d1, x, e. split_and!.
  - done.
  - by apply (rsect_ok m1 _ x e Hv1).
  - apply wsect_eq. lia.
  - rewrite <- (Z.add_0_r (_ - _)). eapply appended_trans; [exact Ha|intros; by eapply at_block_app_inv|]. split.
    + apply vol_inv_written; [done|lia|lia|rewrite length_blit; lia].
    + done.
    + exists (di_addrs d1). apply same_dinode.
    + exists []. by rewrite app_nil_r.
    + intros a Hra Hn. rewrite EV. apply lookup_insert_ne. intros <-. by apply (Hn fbn).
  - rewrite EV. apply (store_in_block m1 (al ++ l) j d1 c p fbn off e); try done. lia.
Qed.

Lemma append_loop_ok j : forall fuel p m al d c,
  (length p <= fuel)%nat -> vol_inv m al -> content_of (vol m) al j d c -> 0 <= j ->
  Z.of_nat (length (c ++ p)) <= MAXFILE * BSIZE ->
  47 + Z.of_nat (length al) + (blocks (nblk (length (c ++ p))) - blocks (nblk (length c))) <= 2000 ->
  exists m' al' d', append_loop fuel p (Z.of_nat (length p)) (Z.of_nat (length c)) d m = Ok (Z.of_nat (length (c ++ p)), d') m' /\
    appended m al d j m' al' d' (blocks (nblk (length (c ++ p))) - blocks (nblk (length c))) /\
    content_of (vol m') al' j d' (c ++ p).
Proof.
  change (MAXFILE * BSIZE) with 274432.
  induction fuel as [|fuel IH]; intros p m al d c Hfuel Hv Hc Hj Hmax Hroom.
  { destruct p; [|cbn in Hfuel; lia]. exists m, al, d. rewrite app_nil_r, Z.sub_diag. split_and!; [done|by apply appended_refl|done]. }
  destruct (decide (p = [])) as [->|Hne].
  { exists m, al, d. rewrite app_nil_r, Z.sub_diag. split_and!; [done|by apply appended_refl|done]. }
  assert (Hp : (0 < length p)%nat) by (destruct p; [done|cbn; lia]). cbn [append_loop]. rewrite length_app in Hmax.
  rewrite (proj2 (Z.leb_gt _ _)) by lia. change BSIZE with 1024. set (fbn := Z.of_nat (length c) / 1024).
  set (off := Z.to_nat (Z.of_nat (length c) mod 1024)).
  assert (Hoff : Z.of_nat (length c) = 1024 * fbn + Z.of_nat off /\ (off < 1024)%nat /\ 0 <= fbn < 268).
  { unfold fbn, off. Z.div_mod_to_equations. lia. }
  destruct Hoff as (Hoff & Hof & Hfbn). unfold massert. rewrite bind_panic_if.
  2: { change MAXFILE with 268. by rewrite (proj2 (Z.ltb_lt _ _)) by lia. }
  set (n1 := Nat.min (length p) (1024 - off)).
  assert (En1 : Z.min (Z.of_nat (length p)) (u32 ((fbn + 1) * 1024 - Z.of_nat (length c))) = Z.of_nat n1).
  { rewrite u32_small by lia. unfold n1. lia. }
  assert (Lt : length (take n1 p) = n1) by (rewrite length_take; lia).
  assert (Hle : blocks (nblk (length (c ++ take n1 p))) <= blocks (nblk (length (c ++ p)))).
  { apply blocks_mono. rewrite !length_app. unfold nblk. rewrite !Nat2Z.inj_add, Lt. Z.div_mod_to_equations. lia. }
  destruct (round_ok m al j d c (take n1 p) fbn off) as (m1 & m2 & al2 & d2 & x & e & E1 & E2 & E3 & Ha & Hc2);
    [done..|lia|lia|lia|]. run E1. rewrite En1, Nat2Z.id.
  assert (Eo : Z.to_nat (u32 (Z.of_nat (length c) - fbn * 1024)) = off) by (rewrite u32_small; lia).
  rewrite Eo. run E2. run E3.
  pose proof Ha as [Hv2 _ _ (l & -> & Hl) _].
  destruct (IH (drop n1 p) m2 (al ++ l) d2 (c ++ take n1 p)) as (m3 & al3 & d3 & E & Ha3 & Hc3); rewrite <- ?app_assoc, ?take_drop; try done.
  { rewrite length_drop. lia. }
  { rewrite length_app. lia. }
  { rewrite (length_app al l). lia. }
  exists m3, al3, d3. rewrite <- app_assoc, take_drop in E, Ha3, Hc3. split_and!; [|..|done].
  - rewrite <- E. f_equal; [rewrite length_drop; lia|]. rewrite length_app, Lt. rewrite u32_small; lia.
  - replace (blocks _ - blocks _) with ((blocks (nblk (length (c ++ take n1 p))) - blocks (nblk (length c))) +
      (blocks (nblk (length (c ++ p))) - blocks (nblk (length (c ++ take n1 p))))) by lia.
    eapply appended_trans; [exact Ha|intros; by eapply at_block_app_inv|done].
Qed.

(** ** The inodes *)

Lemma mapped_addrs V al j d nb :
  mapped_to V al j d nb -> Z.of_nat (length al) <= 1953 -> Forall (fun a => 0 <= a < 2 ^ 32) (di_addrs d).
Proof.
  intros [Hl Hnb Hs Hn Hi] Hal. change MAXFILE with 268 in *. apply Forall_lookup_2. intros k a Hk.
  pose proof (lookup_lt_Some _ _ _ Hk) as Hlt. rewrite Hl in Hlt.
  assert (Ea : di_addrs d !!! k = a) by (by apply list_lookup_total_correct).
  destruct (decide (k < 12)%nat) as [H12|H12].
  - specialize (Hs (Z.of_nat k)). specialize (Hn (Z.of_nat k)). rewrite faddr_direct, Nat2Z.id, Ea in Hs, Hn by lia.
    destruct (decide (Z.of_nat k < nb)); [apply at_block_lt in Hs; lia|rewrite Hn; lia].
  - assert (k = 12%nat) as -> by lia. rewrite addr_view in Hi. change (Z.to_nat NDIRECT) with 12%nat in Hi. rewrite Ea in Hi.
    destruct (12 <? nb); [apply at_block_lt in Hi|]; lia.
Qed.

Lemma file_inode_ok V al j ty c addrs :
  content_of V al j (file_inode ty c addrs) c -> Z.of_nat (length al) <= 1953 -> ty = T_DIR \/ ty = T_FILE ->
  dinode_ok (file_inode ty c addrs).
Proof.
  intros [Hm _] Hal Hty. pose proof (nblk_spec (length c)). pose proof (mt_nb _ _ _ _ _ Hm) as Hnb. change MAXFILE with 268 in Hnb.
  split; cbn; try lia; [by destruct Hty as [->| ->]|apply Hm|by apply (mapped_addrs _ _ _ _ _ Hm)].
Qed.

Lemma rinode_ok m al j d :
  vol_inv m al -> 0 <= j < 208 -> dinode_at the_sb (vol m) j = Some d -> rinode j m = Ok d m.
Proof.
  intros Hv Hj Hd. unfold rinode. rewrite bind_gets, (vi_sb _ _ Hv). unfold dinode_at in Hd.
  pose proof (IBLOCK_range j Hj) as Hr. apply fmap_Some in Hd as (e & He & ->).
  assert (Hr' : 0 <= IBLOCK j the_sb < 2000) by lia. run (rsect_ok m al _ e Hv Hr' He). by rewrite mem_dinode_le.
Qed.

Lemma winode_ok m al j d :
  vol_inv m al -> 0 <= j < 208 -> dinode_ok d ->
  exists m', winode j d m = Ok tt m' /\ vol_inv m' al /\ freeinode m' = freeinode m /\
    (forall b, 47 <= b -> vol m' !! b = vol m !! b) /\
    (forall i, 0 <= i < 208 -> dinode_at the_sb (vol m') i = if decide (i = j) then Some d else dinode_at the_sb (vol m) i).
Proof.
  intros Hv Hj Hd. pose proof (IBLOCK_range j Hj) as Hr. assert (Hr' : 0 <= IBLOCK j the_sb < 2000) by lia.
  unfold winode. rewrite bind_gets, (vi_sb _ _ Hv). destruct (vi_some m al _ Hv Hr') as [e He].
  pose proof (vi_sect _ _ Hv _ _ He) as Hle. run (rsect_ok m al _ e Hv Hr' He). rewrite dinode_mem_le, wsect_eq by lia.
  pose proof (length_dinode_bytes d (do_len _ Hd)) as Hlb. pose proof (dinode_off_range j ltac:(lia)) as Hof.
  eexists. split; [done|]. rewrite (written_vol _ _ _ _ Hv) by lia. split_and!; try done.
  - apply vol_inv_written; [done|lia|lia|]. rewrite length_blit; lia.
  - intros b Hb. apply lookup_insert_ne. lia.
  - intros i Hi. apply dinode_at_insert; try done; lia.
Qed.

(** ** The file system under construction *)

Definition cost (fl : list (Z * list Z)) : Z := foldr (fun x n => blocks (nblk (length x.2)) + n) 0 fl.

Definition zero_dinode : dinode := mkDinode 0 0 0 0 0 (replicate 13 0).

(** The image has the files [fl], with their types, as the inodes from 1 on. *)
Record mk_inv (m : mkfs) (al : list (Z * Z)) (fl : list (Z * list Z)) : Prop := {
  mk_vol : vol_inv m al;
  mk_next : freeinode m = 1 + Z.of_nat (length fl);
  mk_count : (length fl <= 199)%nat;
  mk_cost : Z.of_nat (length al) = cost fl;
  mk_types : forall k ty c, fl !! k = Some (ty, c) -> ty = T_DIR \/ ty = T_FILE;
  mk_files : forall k ty c, fl !! k = Some (ty, c) -> exists addrs,
    dinode_at the_sb (vol m) (Z.of_nat k + 1) = Some (file_inode ty c addrs) /\
    content_of (vol m) al (Z.of_nat k + 1) (file_inode ty c addrs) c;
  mk_rest : forall j, j = 0 \/ Z.of_nat (length fl) < j < 208 -> dinode_at the_sb (vol m) j = Some zero_dinode;
}.

Lemma cost_app fl1 fl2 : cost (fl1 ++ fl2) = cost fl1 + cost fl2.
Proof. induction fl1 as [|x fl1 IH]; [done|]. cbn. fold (cost (fl1 ++ fl2)) (cost fl1). lia. Qed.

Lemma cost_insert fl k ty c ty' c' :
  fl !! k = Some (ty, c) -> cost (<[k := (ty', c')]> fl) = cost fl + (blocks (nblk (length c')) - blocks (nblk (length c))).
Proof.
  intros Hk. rewrite insert_take_drop by (by eapply lookup_lt_Some). rewrite <- (take_drop_middle fl k _ Hk) at 3.
  rewrite !cost_app. cbn. lia.
Qed.

Lemma content_inode V al j d d' c : di_addrs d' = di_addrs d -> content_of V al j d c -> content_of V al j d' c.
Proof.
  intros E. assert (Ev : forall bn, faddr V (view j d') bn = faddr V (view j d) bn).
  { intros bn. unfold faddr. by rewrite !addr_view, E. }
  intros [[Hl Hn Hs Ho Hi] Hb]. rewrite addr_view in Hi. split; [split|]; rewrite ?addr_view, ?E; try done.
  - intros bn Hbn. rewrite Ev. by apply Hs.
  - intros bn Hbn. rewrite Ev. by apply Ho.
  - intros o Hr. rewrite <- Hb by done. unfold file_byte. by rewrite Ev.
Qed.

Lemma iappend_ok m al fl k ty c p :
  mk_inv m al fl -> fl !! k = Some (ty, c) -> Z.of_nat (length (c ++ p)) <= MAXFILE * BSIZE ->
  47 + cost (<[k := (ty, c ++ p)]> fl) <= 2000 ->
  exists m' al', iappend (Z.of_nat k + 1) p m = Ok tt m' /\ mk_inv m' al' (<[k := (ty, c ++ p)]> fl).
Proof.
  intros [Hv Hfi Hcnt Hcost Hty Hfl Hrest] Hk Hmax Hroom. rewrite (cost_insert _ _ _ _ _ _ Hk) in Hroom.
  destruct (Hfl k ty c Hk) as (addrs & Hd & Hc). pose proof (lookup_lt_Some _ _ _ Hk) as Hlt.
  set (j := Z.of_nat k + 1) in *. assert (Hj : 0 <= j < 208) by lia.
  pose proof (nblk_spec (length c)). pose proof (mt_nb _ _ _ _ _ (co_map _ _ _ _ _ Hc)) as Hnb. change MAXFILE with 268 in Hnb.
  unfold iappend. run (rinode_ok m al j _ Hv Hj Hd). cbn [di_size file_inode]. rewrite xint_le, Nat2Z.id by lia.
  destruct (append_loop_ok j (length p) p m al (file_inode ty c addrs) c) as (m1 & al1 & d1 & E & Ha & Hc1); [done..|lia|done|lia|].
  run E. rewrite length_app in Hmax. change (MAXFILE * BSIZE) with 274432 in Hmax.
  destruct Ha as [Hv1 Hi1 [addrs1 ->] (l & -> & Hl) Hfr]. rewrite xint_le by (rewrite length_app; lia).
  set (d1 := (file_inode ty c addrs) <| di_addrs := addrs1 |>) in *.
  change (d1 <| di_size := Z.of_nat (length (c ++ p)) |>) with (file_inode ty (c ++ p) addrs1).
  assert (Hc2 : content_of (vol m1) (al ++ l) j (file_inode ty (c ++ p) addrs1) (c ++ p)) by (by apply (content_inode _ _ _ d1)).
  pose proof (vi_room _ _ Hv1) as Hroom1.
  destruct (winode_ok m1 (al ++ l) j (file_inode ty (c ++ p) addrs1)) as (m2 & E2 & Hv2 & Hi2 & Hfr2 & Hd2); [done..| |].
  { eapply file_inode_ok; [exact Hc2|lia|by eapply Hty]. }
  rewrite E2. exists m2, (al ++ l). split; [done|].
  assert (Hkeep : forall i, 0 <= i < 208 -> i <> j -> dinode_at the_sb (vol m2) i = dinode_at the_sb (vol m) i).
  { intros i Hi Hne. rewrite Hd2, decide_False by done. unfold dinode_at. f_equal. pose proof (IBLOCK_range i Hi).
    apply Hfr; [lia|]. intros bn Hb. apply at_block_lt in Hb. lia. }
  split; rewrite ?length_insert; try done.
  - by rewrite Hi2, Hi1.
  - rewrite length_app, (cost_insert _ _ _ _ _ _ Hk). lia.
  - intros i ty' c' [(-> & E' & _)|(Hne & Hi)]%list_lookup_insert_Some; [injection E' as <- <-; by eapply Hty|by eapply Hty].
  - intros i ty' c' [(<- & E' & _)|(Hne & Hi)]%list_lookup_insert_Some.
    + injection E' as <- <-. exists addrs1. fold j. rewrite Hd2, decide_True by lia. split; [done|].
      eapply content_frame; [exact Hc2|done|]. intros a bn Hb. apply Hfr2. apply at_block_lt in Hb. lia.
    + pose proof (lookup_lt_Some _ _ _ Hi). destruct (Hfl i ty' c' Hi) as (addrs' & Hd' & Hc').
      exists addrs'. rewrite Hkeep by lia. split; [done|].
      eapply content_frame; [exact Hc'|intros; by apply at_block_app|]. intros a bn Hb. pose proof (at_block_lt _ _ _ Hb).
      rewrite Hfr2 by lia. apply Hfr; [lia|]. intros bn' Hb'. pose proof (at_block_fun _ _ _ _ Hb Hb') as E'. simplify_eq. lia.
  - intros i Hi. rewrite Hkeep; [by apply Hrest|lia|lia].
Qed.

Lemma content_nil V al j ty : content_of V al j (file_inode ty [] (replicate 13 0)) [].
Proof.
  assert (E12 : addr_of (view j (file_inode ty [] (replicate 13 0))) NDIRECT = 0) by (by rewrite addr_view).
  split; [|intros o Ho; change (nblk (length [])) with 0 in Ho; lia]. split; [done|done|intros bn Hbn; change (nblk (length [])) with 0 in Hbn; lia|..|done].
  intros bn Hbn. change (nblk (length [])) with 0 in Hbn. change MAXFILE with 268 in Hbn. destruct (decide (bn < 12)); [|apply faddr_none; [lia|done]].
  rewrite faddr_direct by lia. cbn [di_addrs file_inode]. rewrite lookup_total_replicate_2; [done|lia].
Qed.

Lemma ialloc_ok m al fl ty :
  mk_inv m al fl -> (length fl < 199)%nat -> ty = T_DIR \/ ty = T_FILE ->
  exists m', ialloc ty m = Ok (Z.of_nat (length fl) + 1) m' /\ mk_inv m' al (fl ++ [(ty, [])]).
Proof.
  intros [Hv Hfi Hcnt Hcost Hty Hfl Hrest] Hlt Ht. unfold ialloc. rewrite bind_gets, bind_modify, Hfi.
  rewrite u32_small by lia. set (j := 1 + Z.of_nat (length fl)). set (m1 := m <| freeinode := _ |>).
  assert (Ej : Z.of_nat (length fl) + 1 = j) by lia. assert (Hj : 0 <= j < 208) by lia.
  assert (Ed : mkDinode (s16 (xshort ty)) 0 0 (s16 (xshort 1)) (xint 0) (replicate 13 0) = file_inode ty [] (replicate 13 0)).
  { rewrite !xshort_le, xint_le by (done || by destruct Ht as [->| ->]). unfold file_inode. f_equal. by destruct Ht as [->| ->]. }
  rewrite Ed. assert (Hv1 : vol_inv m1 al) by (destruct Hv as [Hsb Hl Hs Hf Hr Hz Hm]; by split; unfold m1; rs).
  pose proof (vi_room _ _ Hv) as Hroom.
  destruct (winode_ok m1 al j (file_inode ty [] (replicate 13 0))) as (m2 & E2 & Hv2 & Hi2 & Hfr2 & Hd2); [done..| |].
  { eapply file_inode_ok; [apply (content_nil ∅ al j)|lia|done]. }
  rewrite Ej. run E2. exists m2. split; [done|]. change (vol m1) with (vol m) in *. split; rewrite ?length_app; cbn [length]; try done; try lia.
  - rewrite Hi2. unfold m1. rs. lia.
  - rewrite cost_app. change (cost [(ty, [])]) with 0. lia.
  - intros k ty' c' [Hk|[_ Hk]]%lookup_app_Some; [by eapply Hty|]. apply list_lookup_singleton_Some in Hk as [_ E]. by injection E as <- <-.
  - intros k ty' c' [Hk|[Hge Hk]]%lookup_app_Some.
    + pose proof (lookup_lt_Some _ _ _ Hk). destruct (Hfl k ty' c' Hk) as (addrs & Hd & Hc). exists addrs.
      rewrite Hd2, decide_False by lia. split; [done|]. eapply content_frame; [exact Hc|done|].
      intros a bn Hb. apply Hfr2. apply at_block_lt in Hb. lia.
    + apply list_lookup_singleton_Some in Hk as [Hk E]. injection E as <- <-. exists (replicate 13 0).
      rewrite Hd2, decide_True by lia. split; [done|apply content_nil].
  - intros i Hi. rewrite Hd2 by lia. rewrite decide_False by lia. apply Hrest. lia.
Qed.

(** ** The files of the command line *)

Definition short (a : list Z) : list Z := without_underscore (without_user a).
Definition content (a : list Z) : list Z := match h_file a with Some reads => mjoin reads | None => [] end.

(** What the image should have: the root directory, with the size that its entries take, and
    the files. *)
Definition root_bytes (files : list (list Z)) : list Z :=
  dirent (str ".") 1 ++ dirent (str "..") 1 ++ mjoin (imap (fun k a => dirent (short a) (Z.of_nat k + 2)) files).
Definition image_files (files : list (list Z)) : list (Z * list Z) :=
  (T_DIR, root_bytes files) :: map (fun a => (T_FILE, content a)) files.

Lemma nblk_mono a b : (a <= b)%nat -> nblk a <= nblk b.
Proof. intros H. unfold nblk. Z.div_mod_to_equations. lia. Qed.

Lemma dirent_mem_le inum name :
  0 <= inum < 2 ^ 16 -> dirent_mem (xshort inum) (strncpy name DIRSIZ) = dirent name inum.
Proof. intros Hi. unfold dirent_mem, dirent. by rewrite xshort_le, to_mem_le. Qed.

Lemma root_bytes_snoc files a :
  root_bytes (files ++ [a]) = root_bytes files ++ dirent (short a) (Z.of_nat (length files) + 2).
Proof.
  unfold root_bytes. rewrite <- !app_assoc. do 2 f_equal. rewrite imap_app, join_app. cbn. by rewrite app_nil_r, Nat.add_0_r.
Qed.

Lemma length_root_bytes files : length (root_bytes files) = (16 * (2 + length files))%nat.
Proof.
  induction files as [|a files IH] using rev_ind; [done|]. rewrite root_bytes_snoc, !length_app, IH, length_dirent. cbn. lia.
Qed.

Lemma image_files_snoc files a :
  image_files (files ++ [a]) =
    (T_DIR, root_bytes files ++ dirent (short a) (Z.of_nat (length files) + 2)) ::
      map (fun a => (T_FILE, content a)) files ++ [(T_FILE, content a)].
Proof. unfold image_files. by rewrite root_bytes_snoc, map_app. Qed.

Lemma cost_files rc fs c :
  cost ((T_DIR, rc) :: fs ++ [(T_FILE, c)]) = blocks (nblk (length rc)) + cost fs + blocks (nblk (length c)).
Proof. change (blocks (nblk (length rc)) + cost (fs ++ [(T_FILE, c)]) = blocks (nblk (length rc)) + cost fs + blocks (nblk (length c))).
  rewrite cost_app. cbn. lia.
Qed.

(** The reads of a file are appended to it. *)
Lemma append_reads rc fs reads : forall c m al,
  mk_inv m al ((T_DIR, rc) :: fs ++ [(T_FILE, c)]) ->
  Z.of_nat (length (c ++ mjoin reads)) <= MAXFILE * BSIZE ->
  47 + cost ((T_DIR, rc) :: fs ++ [(T_FILE, c ++ mjoin reads)]) <= 2000 ->
  exists m' al', foreach reads (iappend (Z.of_nat (length fs) + 2)) m = Ok tt m' /\
    mk_inv m' al' ((T_DIR, rc) :: fs ++ [(T_FILE, c ++ mjoin reads)]).
Proof.
  induction reads as [|p reads IH]; intros c m al Hm Hmax Hroom.
  { exists m, al. cbn. by rewrite app_nil_r. }
  change (mjoin (p :: reads)) with (p ++ mjoin reads) in *. rewrite app_assoc in *. cbn [foreach].
  set (k := S (length fs)). assert (Ek : Z.of_nat (length fs) + 2 = Z.of_nat k + 1) by lia.
  assert (Hk : ((T_DIR, rc) :: fs ++ [(T_FILE, c)]) !! k = Some (T_FILE, c)) by (unfold k; cbn; by apply list_lookup_middle).
  assert (Ei : <[k := (T_FILE, c ++ p)]> ((T_DIR, rc) :: fs ++ [(T_FILE, c)]) = (T_DIR, rc) :: fs ++ [(T_FILE, c ++ p)]).
  { transitivity ((T_DIR, rc) :: <[length fs := (T_FILE, c ++ p)]> (fs ++ [(T_FILE, c)])); [done|]. f_equal.
    rewrite insert_app_r_alt by lia. by rewrite Nat.sub_diag. }
  assert (Hlen : (length (c ++ p) <= length ((c ++ p) ++ mjoin reads))%nat) by (rewrite (length_app (c ++ p)); lia).
  destruct (iappend_ok m al _ k T_FILE c p Hm Hk) as (m1 & al1 & E1 & Hm1); [lia| |].
  { rewrite Ei. rewrite cost_files in *. pose proof (blocks_mono _ _ (nblk_mono _ _ Hlen)). lia. }
  rewrite Ei in Hm1. rewrite Ek. run E1. rewrite <- Ek. by apply (IH (c ++ p) m1 al1).
Qed.

(** What mkfs asks of an argument: a file of the host, with a name that fits an entry. *)
Definition arg_ok (a : list Z) : Prop :=
  ch "/" ∉ without_user a /\ is_Some (h_file a) /\ strlen (short a) <= Z.of_nat DIRSIZ /\
  Z.of_nat (length (content a)) <= MAXFILE * BSIZE.

Lemma add_file_ok m al files a :
  mk_inv m al (image_files files) -> arg_ok a -> (length files < 198)%nat -> 47 + cost (image_files (files ++ [a])) <= 2000 ->
  exists m' al', add_file 1 a m = Ok tt m' /\ mk_inv m' al' (image_files (files ++ [a])).
Proof.
  intros Hm (Hn & [reads Hr] & Hs & Hmax) Hlt Hroom. unfold add_file, massert.
  assert (Ec : content a = mjoin reads) by (unfold content; by rewrite Hr). rewrite image_files_snoc in *. rewrite Ec in *.
  rewrite bind_panic_if by (by rewrite bool_decide_eq_true_2). rewrite Hr.
  rewrite bind_panic_if by (fold (short a); by rewrite (proj2 (Z.leb_le _ _))).
  set (fs := map (fun a => (T_FILE, content a)) files) in *. assert (Lf : length fs = length files) by apply length_map.
  rewrite cost_files in Hroom. pose proof (nblk_spec (length (mjoin reads))).
  destruct (ialloc_ok m al (image_files files) T_FILE) as (m1 & E1 & Hm1); [done|cbn; fold fs; lia|by right|].
  cbn [length image_files] in E1. fold fs in E1. rewrite Lf in E1. run E1.
  replace (Z.of_nat (S (length files)) + 1) with (Z.of_nat (length files) + 2) in * by lia.
  set (inum := Z.of_nat (length files) + 2) in *. rewrite dirent_mem_le by lia. fold (short a).
  change (image_files files ++ [(T_FILE, [])]) with ((T_DIR, root_bytes files) :: fs ++ [(T_FILE, [])]) in Hm1.
  set (rc := root_bytes files ++ dirent (short a) inum) in *.
  assert (Hz : 0 <= blocks (nblk (length (mjoin reads)))) by (unfold blocks; destruct (_ <? _); lia).
  destruct (iappend_ok m1 al _ 0 T_DIR (root_bytes files) (dirent (short a) inum) Hm1) as (m2 & al2 & E2 & Hm2); [done|..].
  { rewrite length_app, length_root_bytes, length_dirent. change (MAXFILE * BSIZE) with 274432. lia. }
  { cbn [insert list_insert]. fold rc. rewrite cost_files. change (blocks (nblk (length []))) with 0. lia. }
  cbn [insert list_insert] in Hm2. fold rc in Hm2. change (Z.of_nat 0 + 1) with 1 in E2. run E2.
  destruct (append_reads rc fs reads [] m2 al2) as (m3 & al3 & E3 & Hm3); [done|exact Hmax|by rewrite cost_files|].
  rewrite Lf in E3. exists m3, al3. by split.
Qed.

Lemma cost_image_mono files l : cost (image_files files) <= cost (image_files (files ++ l)).
Proof.
  induction l as [|a l IH] using rev_ind; [by rewrite app_nil_r|]. rewrite app_assoc, image_files_snoc, cost_files.
  etrans; [exact IH|]. change (cost (image_files (files ++ l))) with
    (blocks (nblk (length (root_bytes (files ++ l)))) + cost (map (fun a => (T_FILE, content a)) (files ++ l))).
  pose proof (nblk_spec (length (content a))). rewrite length_app.
  assert (Hm : nblk (length (root_bytes (files ++ l))) <= nblk (length (root_bytes (files ++ l)) + length (dirent (short a) (Z.of_nat (length (files ++ l)) + 2)))) by (apply nblk_mono; lia).
  apply blocks_mono in Hm. assert (0 <= blocks (nblk (length (content a)))) by (unfold blocks; destruct (_ <? _); lia). lia.
Qed.

Lemma add_files_ok : forall todo files m al,
  mk_inv m al (image_files files) -> Forall arg_ok todo -> (length (files ++ todo) <= 198)%nat ->
  47 + cost (image_files (files ++ todo)) <= 2000 ->
  exists m' al', foreach todo (add_file 1) m = Ok tt m' /\ mk_inv m' al' (image_files (files ++ todo)).
Proof.
  induction todo as [|a todo IH]; intros files m al Hm Ha Hl Hroom.
  { exists m, al. by rewrite app_nil_r. }
  apply Forall_cons in Ha as [Ha Hrest]. rewrite (cons_middle a files todo), app_assoc in *. cbn [foreach].
  pose proof (cost_image_mono (files ++ [a]) todo). rewrite length_app in Hl. rewrite length_app in Hl. cbn in Hl.
  destruct (add_file_ok m al files a) as (m1 & al1 & E1 & Hm1); [done|done|lia|lia|]. run E1.
  apply (IH (files ++ [a]) m1 al1); try done. rewrite !length_app. cbn. lia.
Qed.

End image.
