(* ===== verification/Rootfs.v ===== *)
(** The finished image of mkfs (mkfs/mkfs.c), as the kernel's file system sees it. *)

From stdpp Require Import prelude gmap strings.
From Stdlib Require Import ZArith Lia Ascii.
From S2P Require Import Prelude Bytes Params State CString Log Recovery Crash Fs Block Inode Content Dir Path Mkfs Image.

Local Open Scope Z_scope.
Local Open Scope kernel_scope.

Lemma get_dinode_zeroes off : get_dinode off zeroes = zero_dinode.
Proof.
  assert (E : forall k n, le_decode (slice k n zeroes) = 0).
  { intros k n. unfold slice, zeroes. rewrite drop_replicate, take_replicate. apply le_decode_zeroes. }
  unfold get_dinode, get_s16, get_u32. cbn [seq map]. by rewrite !E.
Qed.

Section rootfs.
Context {HO : Host}.
Hypothesis LE : big_endian = false.
Hypothesis WR : forall p, h_write p = true.

(** ** An empty file system *)

Lemma clear_image m :
  fsfd m = [] -> exists m', foreach (seqZ 0 FSSIZE) (fun i => wsect i zeroes) m = Ok tt m' /\
    m' = m <| fsfd := replicate 2000 zeroes |>.
Proof.
  intros Hm. destruct (foreach_range (fun k t => t = m <| fsfd := replicate (Z.to_nat k) zeroes |>) FSSIZE (fun i => wsect i zeroes) m)
    as (m' & E & HI); [done|destruct m; cbn in Hm; by subst| |by exists m'].
  intros k t Hk ->. change FSSIZE with 2000 in Hk. eexists. split; [apply (wsect_eq WR); lia|]. unfold written.
  assert (Ep : put_sector (Z.to_nat k) zeroes (replicate (Z.to_nat k) zeroes) = replicate (Z.to_nat (k + 1)) zeroes).
  { unfold put_sector. rewrite length_replicate, decide_False by lia. rewrite Nat.sub_diag.
    replace (Z.to_nat (k + 1)) with (S (Z.to_nat k)) by lia. by rewrite replicate_S_end. }
  rewrite <- Ep. by destruct m.
Qed.

(** [mkfs_main] up to the superblock. *)
Lemma fresh_image m :
  fsfd m = <[1%nat := blit 0 (sb_mem the_sb) zeroes]> (replicate 2000 zeroes) -> msb m = the_sb ->
  freeblock m = 47 -> freeinode m = 1 -> mk_inv m [] [].
Proof.
  intros Hf Hs Hb Hi.
  assert (HV : forall b, 0 <= b < 2000 -> vol m !! b = Some (if decide (b = 1) then blit 0 (sb_mem the_sb) zeroes else zeroes)).
  { intros b Hr. rewrite vol_at, Hf by lia. destruct (decide (b = 1)) as [->|Hne].
    - apply list_lookup_insert_eq. rewrite length_replicate. lia.
    - rewrite list_lookup_insert_ne by lia. apply lookup_replicate_2. lia. }
  assert (Hv : vol_inv m []).
  { split; rewrite ?Hb; cbn [length]; try done; try lia.
    - by rewrite Hf, length_insert, length_replicate.
    - intros b d Hd. assert (Hr : 0 <= b < 2000).
      { destruct (decide (b < 0)); [by rewrite vol_neg in Hd|]. rewrite vol_at in Hd by lia. apply lookup_lt_Some in Hd.
        rewrite Hf, length_insert, length_replicate in Hd. lia. }
      rewrite HV in Hd by done. injection Hd as <-. destruct (decide (b = 1)); [|apply length_zeroes].
      unfold sb_mem. rewrite !(to_mem_le LE). rewrite length_blit; [apply length_zeroes|rewrite !length_app, !length_le_encode, length_zeroes; cbn; lia].
    - intros b Hr. rewrite HV, decide_False by lia. done.
    - intros b Hr. apply HV. lia. }
  split; try done; [cbn; lia|]. intros j Hj. cbn in Hj. pose proof (IBLOCK_range j ltac:(lia)). unfold dinode_at. rewrite HV, decide_False by lia.
  cbn. f_equal. apply get_dinode_zeroes.
Qed.

(** ** The last steps *)

Definition pad (c : list Z) : list Z := c ++ replicate (1024 - length c mod 1024) 0.

Lemma nblk_pad c : (length c mod 1024 <> 0)%nat -> nblk (length (pad c)) = nblk (length c) /\
  Z.of_nat (length (pad c)) = (Z.of_nat (length c) / 1024 + 1) * 1024.
Proof.
  intros Hm. unfold pad, nblk. rewrite length_app, length_replicate.
  pose proof (Nat.div_mod_eq (length c) 1024). pose proof (Nat.mod_upper_bound (length c) 1024 ltac:(done)).
  set (q := (length c / 1024)%nat) in *. set (r := (length c mod 1024)%nat) in *.
  rewrite Nat2Z.inj_add. Z.div_mod_to_equations. lia.
Qed.

Lemma content_pad V al j d c : (length c mod 1024 <> 0)%nat -> content_of V al j d c -> content_of V al j d (pad c).
Proof.
  intros Hm [Hmp Hb]. destruct (nblk_pad c Hm) as [En _]. split; rewrite En; [done|]. intros o Ho. rewrite Hb by done.
  unfold pad. destruct (decide (Z.to_nat o < length c)%nat); [by rewrite lookup_app_l|].
  rewrite lookup_ge_None_2 by lia. rewrite lookup_app_r by lia.
  destruct (replicate _ _ !! _) eqn:E; [|done]. by apply lookup_replicate in E as [-> _].
Qed.

Lemma fix_root_ok m al rc fs :
  mk_inv m al ((T_DIR, rc) :: fs) -> (length rc mod 1024 <> 0)%nat -> Z.of_nat (length rc) < 2 ^ 31 ->
  exists m', fix_root 1 m = Ok tt m' /\ mk_inv m' al ((T_DIR, pad rc) :: fs) /\ freeblock m' = freeblock m.
Proof.
  intros [Hv Hfi Hcnt Hcost Hty Hfl Hrest] Hmod Hlen. destruct (Hfl 0%nat T_DIR rc eq_refl) as (addrs & Hd & Hc).
  change (Z.of_nat 0 + 1) with 1 in Hd, Hc. destruct (nblk_pad rc Hmod) as [En El]. unfold fix_root.
  assert (H1 : 0 <= 1 < 208) by lia. run (rinode_ok LE m al 1 _ Hv H1 Hd). cbn [di_size file_inode].
  rewrite (xint_le LE (Z.of_nat (length rc))) by lia. change BSIZE with 1024. rewrite <- El. rewrite u32_small by (rewrite El; Z.div_mod_to_equations; lia).
  rewrite (xint_le LE) by (rewrite El; Z.div_mod_to_equations; lia).
  change ((file_inode T_DIR rc addrs) <| di_size := Z.of_nat (length (pad rc)) |>) with (file_inode T_DIR (pad rc) addrs).
  assert (Hc2 : content_of (vol m) al 1 (file_inode T_DIR (pad rc) addrs) (pad rc)).
  { apply (content_inode _ _ _ (file_inode T_DIR rc addrs)); [done|]. by apply content_pad. }
  pose proof (vi_room _ _ Hv) as Hroom.
  destruct (winode_ok LE WR m al 1 (file_inode T_DIR (pad rc) addrs)) as (m2 & E2 & Hv2 & Hi2 & Hfr2 & Hd2); [done..| |].
  { eapply file_inode_ok; [exact Hc2|lia|by left]. }
  exists m2. split; [done|]. split; [|by rewrite (vi_fb _ _ Hv), (vi_fb _ _ Hv2)]. cbn [length] in *. split; cbn [length]; try done; try congruence.
  - rewrite Hcost. cbn. by rewrite En.
  - intros k ty c Hk. destruct k; [injection Hk as <- <-; by left|by apply (Hty (S k) ty c)].
  - intros k ty c Hk. destruct k as [|k].
    + injection Hk as <- <-. exists addrs. change (Z.of_nat 0 + 1) with 1. rewrite Hd2, decide_True by lia. split; [done|].
      eapply content_frame; [exact Hc2|done|]. intros a bn Hb. apply Hfr2. apply at_block_lt in Hb. lia.
    + pose proof (lookup_lt_Some _ _ _ Hk). cbn in *. destruct (Hfl (S k) ty c Hk) as (addrs' & Hd' & Hc'). exists addrs'.
      rewrite Hd2, decide_False by lia. split; [done|]. eapply content_frame; [exact Hc'|done|].
      intros a bn Hb. apply Hfr2. apply at_block_lt in Hb. lia.
  - intros i Hi. rewrite Hd2, decide_False by lia. apply Hrest. done.
Qed.

(** The bitmap that [balloc] writes. *)
Definition bitmap_of (used : Z) : list Z :=
  foldl (fun b i => alter (fun x => Z.lor x (u8 (Z.shiftl 1 (i mod 8)))) (Z.to_nat (i / 8)) b) zeroes (seqZ 0 used).

Lemma u8_bit i : u8 (Z.shiftl 1 (i mod 8)) = Z.shiftl 1 (i mod 8).
Proof.
  pose proof (Z.mod_pos_bound i 8 ltac:(lia)). rewrite Z.shiftl_mul_pow2, Z.mul_1_l by lia. unfold wrap. apply Z.mod_small.
  split; [lia|]. apply Z.pow_lt_mono_r; lia.
Qed.

Lemma bitmap_of_bits (n : nat) :
  Z.of_nat n <= BPB -> length (bitmap_of (Z.of_nat n)) = 1024%nat /\
  forall b, 0 <= b < BPB -> bit_of (bitmap_of (Z.of_nat n)) b = (b <? Z.of_nat n).
Proof.
  induction n as [|n IH]; intros Hn.
  - split; [apply length_zeroes|]. intros b Hb. unfold bitmap_of. cbn [foldl seqZ]. unfold bit_of.
    rewrite (proj2 (Z.ltb_ge _ _)) by lia. change (foldl _ zeroes _) with zeroes. unfold zeroes.
    rewrite lookup_total_replicate_2; [apply Z.testbit_0_l|]. change BPB with 8192 in Hb. change (Z.to_nat BSIZE) with 1024%nat.
    Z.div_mod_to_equations. lia.
  - destruct IH as [Hl IH]; [lia|].
    assert (E : bitmap_of (Z.of_nat (S n)) = set_bit (Z.of_nat n) (bitmap_of (Z.of_nat n))).
    { unfold bitmap_of. rewrite Nat2Z.inj_succ, <- Z.add_1_r. rewrite seqZ_app by lia. rewrite foldl_app.
      assert (Es : seqZ (0 + Z.of_nat n) 1 = [Z.of_nat n]) by (by rewrite seqZ_cons, seqZ_nil by lia). rewrite Es. cbn [foldl]. unfold set_bit. by rewrite u8_bit. }
    rewrite E. split; [by rewrite length_set_bit|]. intros b Hb. rewrite bit_set, IH by lia.
    destruct (bool_decide_reflect (b = Z.of_nat n)); [subst; cbn; symmetry; apply Z.ltb_lt; lia|]. cbn.
    destruct (Z.ltb_spec b (Z.of_nat n)), (Z.ltb_spec b (Z.of_nat (S n))); done || lia.
Qed.

(** ** What the kernel finds *)

Lemma BBLOCK_the b : 0 <= b < 2000 -> BBLOCK b the_sb = 46.
Proof. intros Hb. unfold BBLOCK. change BPB with 8192. change (sb_bmapstart the_sb) with 46. by rewrite Z.div_small by lia. Qed.

Section finished.
Context (m : mkfs) (al : list (Z * Z)) (fl : list (Z * list Z)).
Hypothesis Hm : mk_inv m al fl.

Let U := 47 + Z.of_nat (length al).

(** A disk that has the blocks of the image outside of the log, and the bitmap. *)
Context (V : gmap Z (list Z)).
Hypothesis HVb : V !! 46 = Some (bitmap_of U).
Hypothesis HVd : forall b, 33 <= b < 2000 -> b <> 46 -> V !! b = vol m !! b.

Lemma U_range : 47 <= U <= 2000.
Proof. pose proof (vi_room _ _ (mk_vol _ _ _ Hm)). unfold U. lia. Qed.

Lemma bitmap_bits : length (bitmap_of U) = 1024%nat /\ forall b, 0 <= b < BPB -> bit_of (bitmap_of U) b = (b <? U).
Proof.
  pose proof U_range. unfold U in *. change BPB with 8192. replace (47 + Z.of_nat (length al)) with (Z.of_nat (47 + length al)) by lia.
  apply bitmap_of_bits. change BPB with 8192. lia.
Qed.

Lemma final_used b : 0 <= b < 2000 -> used the_sb V b = (b <? U).
Proof.
  intros Hb. unfold used. rewrite BBLOCK_the, HVb by done. change BPB with 8192. rewrite Z.mod_small by lia.
  apply bitmap_bits. change BPB with 8192. lia.
Qed.

Lemma final_block b : 33 <= b < 2000 -> fs_block 2 V b.
Proof.
  intros Hb. split; [lia|]. split; [unfold in_log; change LOGBLOCKS with 30; lia|].
  destruct (decide (b = 46)) as [->|Hne]; [by rewrite HVb|]. rewrite HVd by done. apply (vi_some m al); [apply Hm|lia].
Qed.

Lemma final_data b : 47 <= b -> data_block the_sb b.
Proof.
  intros Hb. split; intros c Hc; cbn in Hc; [rewrite BBLOCK_the by done; lia|]. pose proof (IBLOCK_range c ltac:(lia)). lia.
Qed.

Lemma final_bitmap : bitmap_ok 2 the_sb V.
Proof.
  split; [done|..]; change (sb_size the_sb) with 2000.
  - intros b Hb. rewrite BBLOCK_the by done. by apply final_block.
  - intros b Hb Hu. rewrite final_used in Hu by done. apply Z.ltb_ge in Hu. pose proof U_range.
    split; [lia|]. split; [apply final_block; lia|apply final_data; lia].
Qed.

Lemma final_inodes : inodes_ok 2 the_sb V.
Proof.
  split; [done|]. change (sb_ninodes the_sb) with 200. change (sb_size the_sb) with 2000. intros j Hj.
  pose proof (IBLOCK_range j ltac:(lia)). split; [apply final_block; lia|]. intros c Hc. rewrite BBLOCK_the by done. lia.
Qed.

Lemma final_owned a x : at_block al a x -> owned 2 the_sb V a.
Proof.
  intros Ha. apply at_block_lt in Ha. pose proof U_range. unfold U in *.
  split; [change (sb_size the_sb) with 2000; lia|]. split; [rewrite final_used by lia; apply Z.ltb_lt; unfold U; lia|].
  split; [apply final_block; lia|apply final_data; lia].
Qed.

Lemma final_dinode j : 0 <= j < 208 -> dinode_at the_sb V j = dinode_at the_sb (vol m) j.
Proof. intros Hj. pose proof (IBLOCK_range j Hj). unfold dinode_at. by rewrite HVd by lia. Qed.

Lemma final_content j d c : content_of (vol m) al j d c -> content_of V al j d c.
Proof.
  intros Hc. eapply content_frame; [exact Hc|done|]. intros a bn Ha. apply at_block_lt in Ha. pose proof U_range. unfold U in *. by rewrite HVd by lia.
Qed.

Lemma final_imap j d c : content_of V al j d c -> imap_ok 2 the_sb V (view j d).
Proof.
  intros [[Hl Hnb Hs Hn Hi] _]. set (nb := nblk (length c)) in *.
  assert (Hfa : forall bn, 0 <= bn < MAXFILE -> faddr V (view j d) bn <> 0 -> at_block al (faddr V (view j d) bn) (j, bn)).
  { intros bn Hbn Hne. destruct (decide (bn < nb)); [apply Hs; lia|]. by rewrite Hn in Hne by lia. }
  assert (Hin : addr_of (view j d) NDIRECT <> 0 -> at_block al (addr_of (view j d) NDIRECT) (j, -1)).
  { intros Hne. by destruct (12 <? nb). }
  split.
  - done.
  - exact Hl.
  - intros k Hk Hne. destruct (decide (k = NDIRECT)) as [->|Hk']; [by eapply final_owned, Hin|].
    change NDIRECT with 12 in *. eapply final_owned. rewrite addr_view, <- (faddr_direct V j d k) in * by lia.
    apply Hfa; [change MAXFILE with 268; lia|done].
  - intros bn Hbn Hne. by eapply final_owned, Hfa.
  - intros b1 b2 H1 H2 Hne E. pose proof (Hfa b1 H1 Hne) as A1. rewrite E in A1, Hne. pose proof (Hfa b2 H2 Hne) as A2.
    pose proof (at_block_fun _ _ _ _ A1 A2). congruence.
  - intros bn Hbn Hne E. pose proof (Hfa bn Hbn Hne) as A1. rewrite E in A1, Hne. pose proof (at_block_fun _ _ _ _ A1 (Hin Hne)) as E'.
    injection E' as ->. lia.
Qed.

Lemma final_file j ty c addrs :
  content_of V al j (file_inode ty c addrs) c ->
  file_ok 2 V (view j (file_inode ty c addrs)) /\ file_bytes V (view j (file_inode ty c addrs)) 0 (length c) = c.
Proof.
  intros Hc. pose proof Hc as [[Hl Hnb Hs Hn Hi] Hb]. pose proof (nblk_spec (length c)) as Hsp. set (nb := nblk (length c)) in *.
  change MAXFILE with 268 in *. set (ip := view j (file_inode ty c addrs)) in *.
  assert (Esz : i_size ip = Z.of_nat (length c)) by done.
  assert (Hblk : forall a x, at_block al a x -> a <> 0 /\ fs_block 2 V a).
  { intros a x Ha. destruct (final_owned _ _ Ha) as (_ & _ & ? & _). apply at_block_lt in Ha. split; [lia|done]. }
  split.
  - split; rewrite ?Esz; [done|change (MAXFILE * BSIZE) with 274432; lia|..].
    + intros Hne. destruct (12 <? nb); [by apply (Hblk _ _ Hi)|done].
    + intros bn Hbn Hlt. change BSIZE with 1024 in Hlt. apply (Hblk _ (j, bn)), Hs. lia.
  - apply list_eq. intros k. unfold file_bytes. rewrite list_lookup_fmap. destruct (decide (k < length c)%nat) as [Hk|Hk].
    + rewrite lookup_seq_lt by done. cbn. rewrite Hb by lia. replace (Z.to_nat _) with k by lia.
      destruct (lookup_lt_is_Some_2 c k Hk) as [x ->]. done.
    + rewrite lookup_seq_ge by lia. cbn. symmetry. apply lookup_ge_None_2. lia.
Qed.

(** The image as the kernel has it. *)
Record image_on (al' : list (Z * Z)) (fl' : list (Z * list Z)) : Prop := {
  ig_inodes : inodes_ok 2 the_sb V;
  ig_bitmap : bitmap_ok 2 the_sb V;
  ig_used : forall b, 0 <= b < 2000 -> used the_sb V b = (b <? 47 + Z.of_nat (length al'));
  ig_files : forall k ty c, fl' !! k = Some (ty, c) -> exists addrs, let d := file_inode ty c addrs in
    dinode_at the_sb V (Z.of_nat k + 1) = Some d /\ dinode_ok d /\ content_of V al' (Z.of_nat k + 1) d c /\
    imap_ok 2 the_sb V (view (Z.of_nat k + 1) d) /\ file_ok 2 V (view (Z.of_nat k + 1) d) /\
    file_bytes V (view (Z.of_nat k + 1) d) 0 (length c) = c;
  ig_rest : forall j, j = 0 \/ Z.of_nat (length fl') < j < 208 -> dinode_at the_sb V j = Some zero_dinode;
}.

Lemma finished_image : image_on al fl.
Proof.
  pose proof (mk_vol _ _ _ Hm) as Hv. split; [apply final_inodes|apply final_bitmap|apply final_used|..].
  - intros k ty c Hk. destruct (mk_files _ _ _ Hm k ty c Hk) as (addrs & Hd & Hc). exists addrs.
    pose proof (lookup_lt_Some _ _ _ Hk). pose proof (mk_count _ _ _ Hm).
    apply final_content in Hc. destruct (final_file _ _ _ _ Hc) as [Hf Hb]. split_and!; try done.
    + rewrite final_dinode; [done|lia].
    + eapply file_inode_ok; [exact Hc|pose proof (vi_room _ _ Hv); lia|by apply (mk_types _ _ _ Hm k ty c)].
    + by eapply final_imap.
  - intros j Hj. rewrite final_dinode; [by apply (mk_rest _ _ _ Hm)|]. pose proof (mk_count _ _ _ Hm). lia.
Qed.

End finished.

Lemma mkfs_balloc_ok m al fl :
  mk_inv m al fl ->
  exists m', balloc (freeblock m) m = Ok tt m' /\ vol m' = <[46 := bitmap_of (47 + Z.of_nat (length al))]> (vol m).
Proof.
  intros Hm. pose proof (mk_vol _ _ _ Hm) as Hv. pose proof (vi_room _ _ Hv). unfold balloc, mprintf, massert.
  rewrite (vi_fb _ _ Hv). rewrite bind_modify. rewrite bind_panic_if by (rewrite (proj2 (Z.ltb_lt _ _)); [done|change BPB with 8192; lia]).
  fold (bitmap_of (47 + Z.of_nat (length al))). rewrite bind_gets, bind_modify. rs. rewrite (vi_sb _ _ Hv).
  change (sb_bmapstart the_sb) with 46. rewrite (wsect_eq WR) by lia. eexists. split; [done|].
  apply vol_put; [rs; rewrite (vi_len _ _ Hv); lia|]. unfold written. by rs.
Qed.

(** ** [main] *)

(** The files as they are on the image: the root directory fills its last block. *)
Definition root_files (files : list (list Z)) : list (Z * list Z) :=
  (T_DIR, pad (root_bytes files)) :: map (fun a => (T_FILE, content a)) files.

Lemma root_start m :
  mk_inv m [] [] ->
  exists m1 m2 m3 al, ialloc T_DIR m = Ok 1 m1 /\
    iappend 1 (dirent_mem (xshort 1) (strcpy_name (str "."))) m1 = Ok tt m2 /\
    iappend 1 (dirent_mem (xshort 1) (strcpy_name (str ".."))) m2 = Ok tt m3 /\ mk_inv m3 al (image_files []).
Proof.
  intros Hm. destruct (ialloc_ok LE WR m [] [] T_DIR Hm) as (m1 & E1 & Hm1); [cbn; lia|by left|].
  change (strcpy_name (str ".")) with (strncpy (str ".") DIRSIZ). change (strcpy_name (str "..")) with (strncpy (str "..") DIRSIZ).
  rewrite !(dirent_mem_le LE) by lia. cbn [app] in Hm1.
  destruct (iappend_ok LE WR m1 [] _ 0 T_DIR [] (dirent (str ".") 1) Hm1 eq_refl) as (m2 & al2 & E2 & Hm2); [vm_compute; discriminate..|].
  cbn [insert list_insert app] in Hm2.
  destruct (iappend_ok LE WR m2 al2 _ 0 T_DIR (dirent (str ".") 1) (dirent (str "..") 1) Hm2 eq_refl) as (m3 & al3 & E3 & Hm3);
    [vm_compute; discriminate..|].
  exists m1, m2, m3, al3. by split_and!.
Qed.

Lemma root_partial files : ((2 + length files) mod 64 <> 0)%nat -> (length (root_bytes files) mod 1024 <> 0)%nat.
Proof.
  intros Hmod. rewrite length_root_bytes. intros E. apply Hmod.
  replace (16 * (2 + length files))%nat with ((2 + length files) * 16)%nat in E by lia.
  change 1024%nat with (64 * 16)%nat in E. rewrite Nat.Div0.mul_mod_distr_r in E. lia.
Qed.

Lemma main_ok prog image files :
  h_create image = true -> Forall arg_ok files -> (length files <= 198)%nat -> ((2 + length files) mod 64 <> 0)%nat ->
  47 + cost (image_files files) <= FSSIZE ->
  exists m m0 al, mkfs_main (prog :: image :: files) mkfs_start = Ok tt m /\ mk_inv m0 al (root_files files) /\
    vol m = <[46 := bitmap_of (47 + Z.of_nat (length al))]> (vol m0).
Proof.
  intros Hc Ha Hl Hmod Hroom. unfold mkfs_main, massert. rewrite !bind_panic_if by done. rewrite Hc, bind_modify.
  change (FSSIZE - (2 + nlog + ninodeblocks + nbitmap)) with 1953. change (2 + nlog + ninodeblocks + nbitmap) with 47.
  rewrite (make_sb_le LE). unfold mprintf. rewrite !bind_modify. set (m1 := _ <| freeblock := 47 |>).
  destruct (clear_image m1) as (m2 & E2 & ->); [done|]. run E2. rewrite bind_gets.
  assert (H1 : 0 <= 1 < 2 ^ 22) by lia. run (wsect_eq WR 1 (blit 0 (sb_mem (msb (m1 <| fsfd := replicate 2000 zeroes |>))) zeroes) _ H1).
  set (m3 := written _ _ _). assert (Hm3 : mk_inv m3 [] []).
  { by apply fresh_image. }
  destruct (root_start m3 Hm3) as (m4 & m4' & m4'' & al4 & E4 & E4' & E4'' & Hm4). run E4. rewrite bind_panic_if by done. run E4'. run E4''.
  destruct (add_files_ok LE WR files [] m4'' al4) as (m5 & al5 & E5 & Hm5); [done..|]. run E5.
  destruct (fix_root_ok m5 al5 (root_bytes files) (map (fun a => (T_FILE, content a)) files)) as (m6 & E6 & Hm6 & Hf6).
  { done. }
  { by apply root_partial. }
  { rewrite length_root_bytes. lia. }
  destruct (mkfs_balloc_ok m6 al5 _ Hm6) as (m7 & E7 & HV7). exists m7, m6, al5. split; [|by split].
  run E6. by rewrite bind_gets.
Qed.

Lemma cost_root files :
  ((2 + length files) mod 64 <> 0)%nat -> cost (root_files files) = cost (image_files files).
Proof.
  intros Hmod. unfold root_files, image_files. cbn. destruct (nblk_pad (root_bytes files)) as [-> _]; [|done].
  by apply root_partial.
Qed.

(** No block is in two files. *)
Lemma blocks_disjoint V al i j d d' c c' b b' :
  content_of V al i d c -> content_of V al j d' c' -> i <> j -> 0 <= b < MAXFILE -> 0 <= b' < MAXFILE ->
  faddr V (view i d) b = faddr V (view j d') b' -> faddr V (view i d) b = 0.
Proof.
  intros [[_ _ Hs Hn _] _] [[_ _ Hs' Hn' _] _] Hne Hb Hb' E.
  destruct (decide (b < nblk (length c))) as [Hlt|]; [|apply Hn; lia].
  destruct (decide (b' < nblk (length c'))) as [Hlt'|]; [|rewrite E; apply Hn'; lia].
  pose proof (Hs b ltac:(lia)) as A1. rewrite E in A1. pose proof (at_block_fun _ _ _ _ A1 (Hs' b' ltac:(lia))). congruence.
Qed.

(** C18: the image that mkfs writes is a file system of the kernel.  On a little-endian host, with files
    that have names for a directory entry and that fit, mkfs ends, and in the image: the superblock and the empty log
    are in place; the bitmap marks the blocks in use, and no others; the inodes are, in
    order, the root directory with an entry for each file, and the files with the bytes that were
    read from the host; each inode and its blocks meet the invariants that the kernel's operations rely
    on ([imap_ok], [file_ok]), no two inodes share a block, and the other inodes are free. *)
Theorem mkfs_image prog image files :
  h_create image = true -> Forall arg_ok files -> (length files <= 198)%nat -> ((2 + length files) mod 64 <> 0)%nat ->
  47 + cost (image_files files) <= FSSIZE ->
  exists m, mkfs_main (prog :: image :: files) mkfs_start = Ok tt m /\
    let V := vol m in
    get_sb <$> V !! 1 = Some the_sb /\ log_empty 2 V /\ bitmap_ok 2 the_sb V /\ inodes_ok 2 the_sb V /\
    (forall b, 0 <= b < FSSIZE -> used the_sb V b = (b <? 47 + cost (image_files files))) /\
    (forall k ty c, root_files files !! k = Some (ty, c) -> exists d,
       let ip := view (Z.of_nat k + 1) d in
       dinode_at the_sb V (Z.of_nat k + 1) = Some d /\ dinode_ok d /\
       di_type d = ty /\ di_nlink d = 1 /\ di_size d = Z.of_nat (length c) /\
       imap_ok 2 the_sb V ip /\ file_ok 2 V ip /\ file_bytes V ip 0 (length c) = c /\
       forall k' d' b b', k' <> k -> (k' <= length files)%nat -> dinode_at the_sb V (Z.of_nat k' + 1) = Some d' ->
         0 <= b < MAXFILE -> 0 <= b' < MAXFILE ->
         faddr V ip b = faddr V (view (Z.of_nat k' + 1) d') b' -> faddr V ip b = 0) /\
    (forall j, Z.of_nat (length files) + 1 < j < NINODES -> dinode_at the_sb V j = Some zero_dinode).
Proof.
  intros Hc Ha Hl Hmod Hroom. destruct (main_ok prog image files) as (m & m0 & al & E & Hm & HV); [done..|].
  exists m. split; [done|]. pose proof (mk_vol _ _ _ Hm) as Hv.
  assert (Eal : 47 + Z.of_nat (length al) = 47 + cost (image_files files)) by (rewrite (mk_cost _ _ _ Hm), cost_root; done).
  assert (Hlen : length (root_files files) = S (length files)) by (cbn; by rewrite length_map).
  destruct (finished_image m0 al (root_files files) Hm (vol m)) as [Hin Hbm Hus Hfl Hrest].
  { by rewrite HV, lookup_insert_eq. } { intros b Hb Hne. by rewrite HV, lookup_insert_ne. }
  split_and!; try done.
  - rewrite HV, lookup_insert_ne, (vi_meta _ _ Hv 1) by lia. cbn. f_equal. unfold sb_mem. rewrite !(to_mem_le LE). by vm_compute.
  - exists zeroes. rewrite HV, lookup_insert_ne, (vi_meta _ _ Hv 2) by lia. split; [done|]. split; [apply length_zeroes|by vm_compute].
  - intros b Hb. rewrite <- Eal. by apply Hus.
  - intros k ty c Hk. destruct (Hfl k ty c Hk) as (addrs & Hd & Hok & Hcn & Him & Hf & Hby). exists (file_inode ty c addrs).
    split_and!; try done. intros k' d' b b' Hne Hk' Hd' Hb Hb' Ef.
    destruct (lookup_lt_is_Some_2 (root_files files) k') as [[ty' c'] Hk'']; [lia|].
    destruct (Hfl k' ty' c' Hk'') as (addrs' & Hd'' & _ & Hcn' & _). rewrite Hd' in Hd''. injection Hd'' as ->.
    eapply (blocks_disjoint _ al _ (Z.of_nat k' + 1)); [exact Hcn|exact Hcn'|lia|done|done|exact Ef].
  - change NINODES with 200. intros j Hj. apply Hrest. lia.
Qed.

End rootfs.

(** ** Limits of mkfs *)

(** The entries of the root directory fill its blocks: rounding its size up adds a block that it
    does not have. *)
Lemma root_hole {HO : Host} (LE : big_endian = false) (WR : forall p, h_write p = true) m al rc fs :
  mk_inv m al ((T_DIR, rc) :: fs) -> Z.of_nat (length rc) mod 1024 = 0 -> Z.of_nat (length rc) < 268 * 1024 ->
  exists m' d, fix_root 1 m = Ok tt m' /\ dinode_at the_sb (vol m') 1 = Some d /\
    di_size d = Z.of_nat (length rc) + 1024 /\ faddr (vol m') (view 1 d) (Z.of_nat (length rc) / 1024) = 0.
Proof.
  intros Hm Hmod Hlen. pose proof (mk_vol _ _ _ Hm) as Hv. destruct (mk_files _ _ _ Hm 0%nat T_DIR rc eq_refl) as (addrs & Hd & Hc).
  change (Z.of_nat 0 + 1) with 1 in Hd, Hc. unfold fix_root. assert (H1 : 0 <= 1 < 208) by lia.
  run (rinode_ok LE m al 1 _ Hv H1 Hd). cbn [di_size file_inode]. rewrite (xint_le LE (Z.of_nat (length rc))) by lia. change BSIZE with 1024.
  set (q := Z.of_nat (length rc) / 1024). assert (Hq : Z.of_nat (length rc) = 1024 * q) by (unfold q; Z.div_mod_to_equations; lia).
  rewrite u32_small by lia. rewrite (xint_le LE) by lia. set (d := (file_inode T_DIR rc addrs) <| di_size := _ |>).
  assert (Hd' : dinode_ok d).
  { destruct (file_inode_ok _ _ _ _ _ _ Hc) as []; [pose proof (vi_room _ _ Hv); lia|by left|]. split; unfold d; rs; try done. lia. }
  destruct (winode_ok LE WR m al 1 d) as (m' & E & Hv' & _ & Hfr & Hdi); [done..|].
  exists m', d. split; [done|]. rewrite Hdi, decide_True by lia. split; [done|]. split; [unfold d; rs; lia|].
  assert (Hc' : content_of (vol m') al 1 d rc).
  { eapply content_frame; [apply (content_inode _ _ _ (file_inode T_DIR rc addrs)); [done|exact Hc]|done|].
    intros a bn Ha. apply Hfr. apply at_block_lt in Ha. lia. }
  apply (mt_none _ _ _ _ _ (co_map _ _ _ _ _ Hc')). unfold nblk. rewrite Hq. change MAXFILE with 268. Z.div_mod_to_equations. lia.
Qed.

(** On a big-endian host the magic number is stored in the byte order of the host. *)
Lemma big_endian_magic {HO : Host} n : big_endian = true -> sb_magic (get_sb (blit 0 (sb_mem (make_sb n)) zeroes)) = 0x40302010.
Proof.
  intros BE. unfold sb_mem, to_mem. rewrite BE. cbn [sb_magic make_sb]. change (rev (le_encode 4 FSMAGIC)) with [0x10; 0x20; 0x30; 0x40].
  by cbn.
Qed.

(** ** An image with one file *)

Definition demo_host : Host := {|
  big_endian := false; h_create := fun _ => true; h_write := fun _ => true;
  h_file := fun a => if decide (a = str "user/_echo") then Some [replicate 1024 1; [2; 3]] else None;
|}.

Lemma mkfs_image_witness :
  exists m d, @mkfs_main demo_host [str "mkfs"; str "fs.img"; str "user/_echo"] mkfs_start = Ok tt m /\
    dinode_at the_sb (vol m) 2 = Some d /\ file_bytes (vol m) (view 2 d) 0 1026 = replicate 1024 1 ++ [2; 3].
Proof.
  destruct (@mkfs_image demo_host eq_refl (fun _ => eq_refl) (str "mkfs") (str "fs.img") [str "user/_echo"])
    as (m & E & _ & _ & _ & _ & _ & Hf & _).
  - reflexivity.
  - apply Forall_singleton. split; [by compute_done|]. split; [by eexists|]. split; by vm_compute.
  - cbn. lia.
  - by vm_compute.
  - by vm_compute.
  - destruct (Hf 1%nat T_FILE (replicate 1024 1 ++ [2; 3])) as (d & Hd & _ & _ & _ & _ & _ & _ & Hb & _); [reflexivity|].
    exists m, d. split; [exact E|]. split; [exact Hd|exact Hb].
Defined.
