(* ===== verification/Bootfs.v ===== *)
(** The file system at boot (kernel/fs.c, [fsinit]), and the image of mkfs in it: the files that mkfs
    was given are found by their names and read back by the kernel. *)

From stdpp Require Import prelude gmap strings.
From Stdlib Require Import ZArith Lia Ascii.
From S2P Require Import Prelude Bytes Params State Spinlock CString Kalloc Sched Sleeplock Bio Cache Log Recovery Crash Txn Copy Fs.
From S2P Require Import Block Inode Content Dir Path Mkfs Image Rootfs.

Local Open Scope Z_scope.
Local Open Scope kernel_scope.

(** ** [fsinit] *)

Section mount.
Context {F : Fuel} {L : Linker} (pid : Z).
Implicit Types (s : kstate) (D V : gmap Z (list Z)).

(** The first process calls [fsinit], with the disk [D]. *)
Record booting s D : Prop := {
  bo_bufs : bufs s = boot_bufs;
  bo_disk : disk s = D;
  bo_env : fs_env pid s;
  bo_printing : panicking s = false;
  bo_array : length (l_block (klog s)) = Z.to_nat LOGBLOCKS;
  bo_data : forall b d, D !! b = Some d -> length d = 1024%nat;
  bo_unlocked : L_log ∉ held s;
}.

Lemma io_set_sb x s s' W : io_step s s' W -> io_step (s <| sb := x |>) (s' <| sb := x |>) W.
Proof. intros (bs & ub & ut & ->). exists bs, ub, ut. rs. st_eq s. Qed.

Lemma in_cache_sb x s V R H : in_cache pid s V R H -> in_cache pid (s <| sb := x |>) V R H.
Proof. intros [HC HE]. split; [by apply (cache_frame pid s)|by apply (fs_env_frame pid s)]. Qed.

Lemma readsb_ok s D d :
  booting s D -> D !! 1 = Some d ->
  exists s', readsb ROOTDEV s = Ok tt s' /\ io_step (s <| sb := get_sb d |>) s' [] /\ in_cache pid s' D ∅ ∅.
Proof.
  intros [Hb Hd HE _ _ Hlen _] H1. unfold readsb.
  assert (HC : in_cache pid s D ∅ ∅).
  { split; [|done]. pose proof (boot_cache pid s Hb) as HC. rewrite Hd in HC. by apply HC. }
  destruct (bread_step pid 1 d s D ∅ ∅) as (i & s1 & E1 & S1 & HC1); [done..|right; vm_compute; lia|]. run E1.
  run (bdata_step pid 1 i d s1 D ∅ _ HC1 (lookup_insert_eq _ _ _) H1). rewrite bind_modify.
  destruct (brelse_step pid 1 i (s1 <| sb := get_sb d |>) D ∅ (<[1 := i]> ∅)) as (s2 & E2 & S2 & HC2).
  { by apply in_cache_sb. } { apply lookup_insert_eq. }
  { right. rs. rewrite (io_disk _ _ _ S1). by rewrite Hd. }
  exists s2. split; [done|]. rewrite delete_insert_id in HC2 by done. split; [|done].
  apply (io_set_sb (get_sb d)) in S1. exact (io_trans _ _ _ [] [] S1 S2).
Qed.

Lemma dinode_at_same start sbl V V' j :
  ~ in_log start (IBLOCK j sbl) -> same_files start V' V -> dinode_at sbl V' j = dinode_at sbl V j.
Proof. intros Hb Hs. unfold dinode_at. by rewrite Hs. Qed.

Lemma inodes_ok_same start sbl V V' : inodes_ok start sbl V -> same_files start V' V -> inodes_ok start sbl V'.
Proof.
  intros [Hn H] Hs. split; [done|]. intros j Hj. destruct (H j Hj) as [(H1 & H2 & H3) H4]. split; [|done].
  split; [done|]. split; [done|]. by rewrite Hs.
Qed.

(** Every inode in use has a link. *)
Definition no_orphans (sbl : superblock) V : Prop :=
  forall j d, 0 < j < sb_ninodes sbl -> dinode_at sbl V j = Some d -> di_type d <> 0 -> di_nlink d <> 0.

(** [ireclaim] has nothing to do. *)
Lemma ireclaim_ok start sbl m s V :
  fs_ok pid start 0 (S m) [] s V ∅ -> sb s = sbl -> inodes_ok start sbl V -> no_orphans sbl V ->
  exists s', ireclaim ROOTDEV s = Ok tt s' /\ fs_step s s' /\ fs_ok pid start 0 (S m) [] s' V ∅.
Proof.
  intros HF Hsb [Hn Hin] Horph. unfold ireclaim. rewrite bind_gets, Hsb.
  destruct (wp_inv (foreach (seqZ 1 (sb_ninodes sbl - 1)) (ireclaim1 ROOTDEV))
    (fun _ t => fs_step s t /\ fs_ok pid start 0 (S m) [] t V ∅) s) as ([] & s' & E & HS & HF'); [|by exists s'].
  apply wp_foreach; [split; [apply fs_refl|done]|]. intros j t Hj%elem_of_seqZ [HS HFt].
  assert (Hj' : 0 <= j < sb_ninodes sbl) by lia. destruct (Hin j Hj') as [(_ & Hnl & data & Hdata) _].
  destruct (fs_read pid start 0 m [] t V ∅ (IBLOCK j sbl) data) as (i & t1 & t2 & E1 & E2 & E3 & _ & S2 & _ & HF2); [done..|].
  unfold wp, ireclaim1. rewrite bind_gets, (fs_sb HS), Hsb. run E1. run E2.
  assert (Hno : negb (di_type (get_dinode (dinode_off j) data) =? 0) && (di_nlink (get_dinode (dinode_off j) data) =? 0) = false).
  { destruct (Z.eqb_spec (di_type (get_dinode (dinode_off j) data)) 0) as [|Ht]; [done|]. cbn [negb andb]. apply Z.eqb_neq.
    apply (Horph j); [lia| |done]. unfold dinode_at. by rewrite Hdata. }
  rewrite Hno, bind_ret. run E3. split; [by eapply fs_trans|done].
Qed.

(** [fsinit] of a disk whose log [commit] could have left. *)
Lemma fsinit_ok s D d sbl :
  let start := sb_logstart sbl in
  booting s D -> D !! 1 = Some d -> get_sb d = sbl -> sb_magic sbl = FSMAGIC -> log_ok start D ->
  inodes_ok start sbl (replay start D) -> no_orphans sbl (replay start D) ->
  exists s', fsinit ROOTDEV s = Ok tt s' /\ sb s' = sbl /\ itable s' = itable s /\ held s' = held s /\
    same_files start (disk s') (replay start D) /\
    forall m, (m <= NBUF)%nat -> fs_ok pid start 0 m [] s' (disk s') ∅.
Proof.
  intros start Hb H1 Hsb Hmag Hok Hin Horph. unfold fsinit.
  destruct (readsb_ok s D d Hb H1) as (s1 & E1 & S1 & HC1). run E1. rewrite bind_gets.
  pose proof (io_disk _ _ _ S1) as D1. rs_in D1. rewrite (bo_disk _ _ Hb) in D1. cbn in D1.
  pose proof (io_klog _ _ _ S1) as K1. rs_in K1. pose proof (io_panicking _ _ _ S1) as P1. rs_in P1.
  assert (B1 : sb s1 = sbl) by (destruct S1 as (? & ? & ? & ->); by rs).
  rewrite B1, Hmag, bind_panic_if by done.
  destruct (initlog_cached pid start s1 D) as (h & s2 & Hh & E2 & S2 & _ & D2 & HI2); try done.
  { by rewrite P1, (bo_printing _ _ Hb). } { by rewrite B1. } { by rewrite K1, (bo_array _ _ Hb). }
  run E2. assert (B2 : sb s2 = sbl) by (destruct S2 as (? & ? & ? & ->); rs; done).
  assert (I2 : itable s2 = itable s) by (destruct S2 as (? & ? & ? & ->), S1 as (? & ? & ? & ->); by rs).
  assert (H2 : held s2 = held s) by (destruct S2 as (? & ? & ? & ->), S1 as (? & ? & ? & ->); by rs).
  destruct (recovery_complete start D h Hok Hh) as [_ Hsame]. rewrite <- D2 in Hsame.
  assert (HF2 : forall m, (m <= NBUF)%nat -> fs_ok pid start 0 m [] s2 (disk s2) ∅).
  { intros m Hm. split; [done|rewrite H2; apply Hb|lia|rewrite map_size_empty; cbn [length]; lia]. }
  destruct (ireclaim_ok start sbl 29 s2 (disk s2)) as (s3 & E3 & S3 & HF3).
  { apply HF2. change NBUF with 30%nat. lia. } { done. } { by eapply inodes_ok_same. }
  { intros j dd Hj Hd. apply (Horph j); [done|]. rewrite <- Hd. symmetry. apply (dinode_at_same start); [|done].
    destruct Hin as [_ Hin]. by apply (Hin j ltac:(lia)). }
  exists s3. split; [done|]. rewrite (fs_disk S3), (fs_sb S3), (fs_itable S3), (fs_held S3). split_and!; try done.
  intros m Hm. change NBUF with 30%nat in Hm. eapply (fo_weaken _ _ 0 30); [lia| |exact HF3]. lia.
Qed.

End mount.

(** ** The directory of the image *)

Lemma lookup_file_bytes V ip off n k :
  (k < n)%nat -> file_bytes V ip off n !! k = Some (file_byte V ip (off + Z.of_nat k)).
Proof. intros Hk. unfold file_bytes. rewrite list_lookup_fmap, lookup_seq_lt by done. done. Qed.

Lemma file_bytes_slice V ip c off n :
  file_bytes V ip 0 (length c) = c -> (off + n <= length c)%nat -> file_bytes V ip (Z.of_nat off) n = slice off n c.
Proof.
  intros Hc Hl. apply list_eq. intros k. destruct (decide (k < n)%nat) as [Hk|Hk].
  - rewrite lookup_file_bytes, lookup_slice by done. rewrite <- Hc, lookup_file_bytes by lia. f_equal. f_equal. lia.
  - rewrite !lookup_ge_None_2; [done|rewrite length_slice; lia|rewrite length_file_bytes; lia].
Qed.

Lemma slice_mjoin (ls : list (list Z)) e x r :
  Forall (fun l => length l = 16%nat) ls -> ls !! e = Some x -> slice (16 * e) 16 (mjoin ls ++ r) = x.
Proof.
  intros Hl. revert e. induction Hl as [|l ls H16 Hl IH]; intros e He; [done|].
  change (mjoin (l :: ls)) with (l ++ mjoin ls). rewrite <- app_assoc. destruct e as [|e]; cbn in He.
  - injection He as ->. unfold slice. cbn [drop]. change (16 * 0)%nat with 0%nat. rewrite drop_0. rewrite <- H16 at 1. apply take_app_length.
  - rewrite <- (IH e He). unfold slice. f_equal. rewrite drop_app_ge by lia. f_equal. lia.
Qed.

Lemma length_mjoin16 (ls : list (list Z)) : Forall (fun l => length l = 16%nat) ls -> length (mjoin ls) = (16 * length ls)%nat.
Proof.
  induction 1 as [|l ls H16 Hl IH]; [done|]. change (mjoin (l :: ls)) with (l ++ mjoin ls). rewrite length_app, IH, H16. cbn. lia.
Qed.

Section files.
Context {HO : Host}.
Implicit Types (files : list (list Z)) (V : gmap Z (list Z)).

(** The names in the root directory, with their inodes. *)
Definition root_entries files : list (list Z * Z) :=
  (str ".", 1) :: (str "..", 1) :: imap (fun k a => (short a, Z.of_nat k + 2)) files.

Lemma root_bytes_entries files : root_bytes files = mjoin (map (fun x => dirent x.1 x.2) (root_entries files)).
Proof.
  unfold root_bytes, root_entries. change (map ?f (?a :: ?b :: ?l)) with (f a :: f b :: map f l).
  change (mjoin (?a :: ?b :: ?l)) with (a ++ b ++ mjoin l). do 2 f_equal. f_equal.
  symmetry. exact (fmap_imap (fun k a => (short a, Z.of_nat k + 2)) (fun x : list Z * Z => dirent x.1 x.2) files).
Qed.

Lemma length_root_entries files : length (root_entries files) = (2 + length files)%nat.
Proof. unfold root_entries. cbn. by rewrite length_imap. Qed.

Lemma root_entries_inum files e n i :
  root_entries files !! e = Some (n, i) -> 0 < i <= Z.of_nat (length files) + 1.
Proof.
  unfold root_entries. destruct e as [|[|e]]; [intros [= <- <-]; lia..|].
  change ((?a :: ?b :: ?l) !! S (S e)) with (l !! e). rewrite list_lookup_imap. intros (a & Ha & [= -> ->])%fmap_Some. apply lookup_lt_Some in Ha. lia.
Qed.

(** The entry [e] of the root directory. *)
Lemma root_entry V ip files e n i :
  file_bytes V ip 0 (length (pad (root_bytes files))) = pad (root_bytes files) -> (length files <= 198)%nat ->
  root_entries files !! e = Some (n, i) ->
  let de := file_bytes V ip (16 * Z.of_nat e) 16 in dirent_inum de = i /\ dirent_name de = strncpy n DIRSIZ.
Proof.
  intros Hb Hl He. pose proof (root_entries_inum _ _ _ _ He) as Hi. pose proof (lookup_lt_Some _ _ _ He) as Hlt.
  rewrite length_root_entries in Hlt. replace (16 * Z.of_nat e) with (Z.of_nat (16 * e)) by lia.
  rewrite (file_bytes_slice V ip (pad (root_bytes files))); [|done|unfold pad; rewrite length_app, length_root_bytes; lia].
  unfold pad. rewrite root_bytes_entries. erewrite slice_mjoin.
  - apply dirent_fields. lia.
  - apply Forall_fmap, Forall_true. intros x. apply length_dirent.
  - by rewrite list_lookup_fmap, He.
Qed.

(** After the entries the directory has unused ones. *)
Lemma root_unused V ip files (e : nat) :
  file_bytes V ip 0 (length (pad (root_bytes files))) = pad (root_bytes files) ->
  (2 + length files <= e)%nat -> (16 * e + 16 <= length (pad (root_bytes files)))%nat ->
  inum_at V ip (16 * Z.of_nat e) = 0.
Proof.
  intros Hb He Hl. unfold inum_at. replace (16 * Z.of_nat e) with (Z.of_nat (16 * e)) by lia.
  rewrite (file_bytes_slice V ip (pad (root_bytes files))) by done. unfold pad, slice.
  rewrite drop_app_ge by (rewrite length_root_bytes; lia). rewrite drop_replicate, take_replicate. unfold dirent_inum, slice.
  rewrite drop_replicate, take_replicate. apply le_decode_zeroes.
Qed.

(** ** The tree of the image *)

Lemma root_files_at files k ty c :
  root_files files !! k = Some (ty, c) ->
  (k = 0%nat /\ ty = T_DIR /\ c = pad (root_bytes files)) \/
  (exists a k', k = S k' /\ files !! k' = Some a /\ ty = T_FILE /\ c = content a).
Proof.
  unfold root_files. destruct k as [|k]; cbn; [intros [= <- <-]; by left|]. intros H. right.
  change (map (fun a => (T_FILE, content a)) files !! k = Some (ty, c)) in H. rewrite list_lookup_fmap in H.
  apply fmap_Some in H as (a & Ha & [= -> ->]). by exists a, k.
Qed.

Section tree.
Context (V : gmap Z (list Z)) (al : list (Z * Z)) (files : list (list Z)).
Hypothesis Hg : image_on V al (root_files files).
Hypothesis Hn : (length files <= 198)%nat.
Hypothesis Hpart : ((2 + length files) mod 64 <> 0)%nat.

Lemma length_root_files : length (root_files files) = S (length files).
Proof. unfold root_files. cbn. by rewrite length_map. Qed.

Lemma inode_used_image j : 0 < j <= Z.of_nat (length files) + 1 -> inode_used the_sb V j.
Proof.
  intros Hj. split; [change (sb_ninodes the_sb) with 200; lia|].
  destruct (lookup_lt_is_Some_2 (root_files files) (Z.to_nat (j - 1))) as [[ty c] Hk]; [rewrite length_root_files; lia|].
  destruct (ig_files _ _ _ Hg _ _ _ Hk) as (addrs & Hd & _). replace (Z.of_nat (Z.to_nat (j - 1)) + 1) with j in Hd by lia.
  eexists. split; [exact Hd|]. cbn. by destruct (root_files_at _ _ _ _ Hk) as [(_ & -> & _)|(? & ? & _ & _ & -> & _)].
Qed.

Lemma image_tree : tree_ok 2 the_sb V.
Proof.
  intros j d Hj Hd Hty. change (sb_ninodes the_sb) with 200 in Hj.
  destruct (decide (Z.of_nat (length files) + 1 < j)) as [Hbig|Hsm].
  { rewrite (ig_rest _ _ _ Hg) in Hd by (rewrite length_root_files; lia). by injection Hd as <-. }
  destruct (lookup_lt_is_Some_2 (root_files files) (Z.to_nat (j - 1))) as [[ty c] Hk]; [rewrite length_root_files; lia|].
  destruct (ig_files _ _ _ Hg _ _ _ Hk) as (addrs & Hd' & _ & _ & _ & Hf & Hb).
  replace (Z.of_nat (Z.to_nat (j - 1)) + 1) with j in * by lia. rewrite Hd in Hd'. injection Hd' as ->.
  split; [done|..]; intros Et; cbn in Et; subst ty;
    (destruct (root_files_at _ _ _ _ Hk) as [(Ek & _ & ->)|(? & ? & _ & _ & ? & _)]; [|done]).
  - destruct (nblk_pad (root_bytes files) (root_partial files Hpart)) as [_ El].
    split; [done|done|]. change (Z.of_nat (length (pad (root_bytes files))) mod 16 = 0). rewrite El. Z.div_mod_to_equations. lia.
  - intros off Ho Hm n Hne. apply inode_used_image. cbn [di_size file_inode] in Ho. change DIRENT_SIZE with 16 in Hm.
    destruct (nblk_pad (root_bytes files) (root_partial files Hpart)) as [_ El].
    set (e := Z.to_nat (off / 16)). assert (Eo : off = 16 * Z.of_nat e) by (unfold e; Z.div_mod_to_equations; lia).
    unfold n in *. rewrite Eo in *. destruct (decide (e < 2 + length files)%nat) as [Hlt|Hge].
    + destruct (lookup_lt_is_Some_2 (root_entries files) e) as [[nm i] He]; [by rewrite length_root_entries|].
      destruct (root_entry V _ files e nm i Hb Hn He) as [Ei _]. unfold inum_at. rewrite Ei. by eapply root_entries_inum.
    + exfalso. apply Hne. apply (root_unused V _ files e Hb); [lia|]. Z.div_mod_to_equations. lia.
Qed.

(** Names are compared as they are. *)
Definition plain_name (n : list Z) : Prop := 0 ∉ n /\ (length n <= DIRSIZ)%nat.

Lemma namecmp_plain n n' : plain_name n -> plain_name n' -> namecmp n (strncpy n' DIRSIZ) = 0 <-> n = n'.
Proof.
  intros [H0 Hl] [H0' Hl']. unfold namecmp. destruct (strncpy_strncmp n' n DIRSIZ) as [_ ->].
  by rewrite !cstring_id, !take_ge.
Qed.

Lemma image_find d e n i :
  dinode_at the_sb V 1 = Some d -> root_entries files !! e = Some (n, i) ->
  (forall x, x ∈ root_entries files -> plain_name x.1) -> NoDup (map fst (root_entries files)) ->
  dir_find V (view 1 d) n = Some i.
Proof.
  intros Hd He Hpl Hnd. destruct (ig_files _ _ _ Hg 0%nat T_DIR (pad (root_bytes files)) eq_refl) as (addrs & Hd' & _ & _ & _ & Hf & Hb).
  change (Z.of_nat 0 + 1) with 1 in *. rewrite Hd in Hd'. injection Hd' as ->. set (ip := view 1 _) in *.
  destruct (nblk_pad (root_bytes files) (root_partial files Hpart)) as [_ El]. rewrite length_root_bytes in El.
  pose proof (lookup_lt_Some _ _ _ He) as Hlt. rewrite length_root_entries in Hlt.
  assert (Hname : forall e' n' i', root_entries files !! e' = Some (n', i') -> has_name V ip n (16 * Z.of_nat e') <-> n = n').
  { intros e' n' i' He'. destruct (root_entry V ip files e' n' i' Hb Hn He') as [Ei En]. unfold has_name. rewrite Ei, En.
    pose proof (root_entries_inum _ _ _ _ He'). rewrite namecmp_plain.
    - split; [by intros [_ ?]|]. intros ?. split; [lia|done].
    - apply (Hpl (n, i)). by eapply list_elem_of_lookup_2.
    - apply (Hpl (n', i')). by eapply list_elem_of_lookup_2. }
  assert (Esz : i_size ip = Z.of_nat (length (pad (root_bytes files)))) by done.
  assert (Hrange : forall e', (e' < 2 + length files)%nat -> dir_offs ip !! e' = Some (16 * Z.of_nat e')).
  { intros e' He'. rewrite <- (Nat2Z.id e') at 1. rewrite dir_offs_at; [f_equal; change DIRENT_SIZE with 16; lia|].
    rewrite Esz, El. change DIRENT_SIZE with 16. Z.div_mod_to_equations. lia. }
  unfold dir_find. assert (E : list_find (has_name V ip n) (dir_offs ip) = Some (e, 16 * Z.of_nat e)).
  { apply list_find_Some. split_and!; [by apply Hrange|by apply (Hname e n i)|].
    intros e' y Hy Hlt'. rewrite Hrange in Hy by lia. injection Hy as <-.
    destruct (lookup_lt_is_Some_2 (root_entries files) e') as [[n' i'] He']; [rewrite length_root_entries; lia|].
    rewrite (Hname e' n' i' He'). intros <-. assert (e' = e); [|lia].
    apply (NoDup_lookup (map fst (root_entries files)) e' e n Hnd); by rewrite list_lookup_fmap, ?He', ?He. }
  rewrite E. f_equal. by destruct (root_entry V ip files e n i Hb Hn He) as [Ei _].
Qed.

End tree.

(** ** The image is mounted *)

Section boot.
Context {F : Fuel} {L : Linker} (pid : Z).
Hypothesis LE : big_endian = false.
Hypothesis WR : forall p, h_write p = true.

(** [fsinit] finds the image of mkfs in order, and leaves its files as they are. *)
Lemma image_boots prog image files :
  h_create image = true -> Forall arg_ok files -> (length files <= 198)%nat -> ((2 + length files) mod 64 <> 0)%nat ->
  47 + cost (image_files files) <= FSSIZE ->
  exists m, mkfs_main (prog :: image :: files) mkfs_start = Ok tt m /\
    (forall b d, vol m !! b = Some d -> length d = 1024%nat) /\
    forall s, booting pid s (vol m) -> exists s1 al,
      fsinit ROOTDEV s = Ok tt s1 /\ sb s1 = the_sb /\ itable s1 = itable s /\ held s1 = held s /\
      image_on (disk s1) al (root_files files) /\ fs_ok pid 2 0 NBUF [] s1 (disk s1) ∅.
Proof.
  intros Hc Ha Hl Hmod Hroom. destruct (main_ok LE WR prog image files) as (m & m0 & al & E & Hm & HV); [done..|].
  pose proof (mk_vol _ _ _ Hm) as Hv. exists m. split; [done|].
  assert (Hsome : forall b, 0 <= b < 2000 -> is_Some (vol m !! b)).
  { intros b Hb. rewrite HV. destruct (decide (b = 46)) as [->|]; [by rewrite lookup_insert_eq|].
    rewrite lookup_insert_ne by done. by apply (vi_some m0 al). }
  assert (Hi : forall V', same_files 2 V' (vol m) -> image_on V' al (root_files files)).
  { intros V' Hs. apply (finished_image m0); [done|..].
    - rewrite Hs by (unfold in_log; change LOGBLOCKS with 30; lia). by rewrite HV, lookup_insert_eq.
    - intros b Hb Hne. rewrite Hs by (unfold in_log; change LOGBLOCKS with 30; lia). by rewrite HV, lookup_insert_ne. }
  split.
  { intros b d. rewrite HV. destruct (decide (b = 46)) as [->|]; [|rewrite lookup_insert_ne by done; apply (vi_sect _ _ Hv)].
    rewrite lookup_insert_eq. intros [= <-]. apply (bitmap_bits m0 al (root_files files) Hm). }
  assert (Hmeta : forall b, 0 <= b < 33 -> vol m !! b = Some (if decide (b = 1) then blit 0 (sb_mem the_sb) zeroes else zeroes)).
  { intros b Hb. rewrite HV, lookup_insert_ne by lia. apply (vi_meta _ _ Hv). lia. }
  assert (He : log_empty 2 (vol m)).
  { exists zeroes. rewrite Hmeta by lia. split; [done|]. split; [apply length_zeroes|by vm_compute]. }
  assert (Hlog : log_ok 2 (vol m)).
  { apply log_empty_ok; [lia|done| |done]. intros b Hb. apply Hsome. unfold in_log in Hb. change LOGBLOCKS with 30 in Hb. lia. }
  pose proof (Hi (vol m) ltac:(done)) as Him. intros s Hs.
  destruct (fsinit_ok pid s (vol m) (blit 0 (sb_mem the_sb) zeroes) the_sb) as (s1 & E1 & Hsb & Hit & Hh & Hd & HF);
    [done|by rewrite Hmeta| |done|exact Hlog|..].
  { unfold sb_mem. rewrite !(to_mem_le LE). by vm_compute. }
  { change (sb_logstart the_sb) with 2. rewrite replay_empty by done. apply Him. }
  { change (sb_logstart the_sb) with 2. rewrite replay_empty by done. intros j d Hj Hd Hty.
    apply (iw_links _ _ _ _ _ (image_tree _ al files Him Hl Hmod j d Hj Hd Hty)). }
  change (sb_logstart the_sb) with 2 in *. rewrite replay_empty in Hd by done.
  exists s1, al. split_and!; try done; [by apply Hi|by apply HF].
Qed.

(** A name of the root directory is a path of one name. *)
Lemma split_slash_one n : ch "/" ∉ n -> split_slash n = [n].
Proof.
  induction n as [|c n IH]; [done|]. intros [Hc Hn]%not_elem_of_cons. cbn [split_slash].
  rewrite (proj2 (Z.eqb_neq c (ch "/"))) by done. by rewrite IH.
Qed.

Lemma path_names_one n : ch "/" ∉ n -> n <> [] -> (length n <= DIRSIZ)%nat -> path_names (ch "/" :: n) = [n].
Proof.
  intros Hs Hn Hl. rewrite names_slash. unfold path_names. rewrite split_slash_one, filter_cons_True, filter_nil by done.
  cbn [map]. by rewrite take_ge.
Qed.

Lemma table_empty sbl V : table_ok sbl V None (replicate NINODE zero_inode).
Proof. split; [split|..]; intros *; rewrite lookup_replicate; [intros [-> _]; done|by intros [-> _]..|by intros [-> _]]. Qed.

(** The names of the files, as a path can have them. *)
Record names_ok files : Prop := {
  nk_chars : Forall (fun a => 0 ∉ a /\ short a <> []) files;
  nk_once : NoDup (map fst (root_entries files));
}.

Lemma short_in a x : x ∈ short a -> x ∈ without_user a /\ x ∈ a.
Proof.
  intros Hx. assert (Hu : x ∈ without_user a).
  { unfold short, without_underscore in Hx. destruct (_ =? _); [|done]. destruct (without_user a); [done|by right]. }
  split; [done|]. unfold without_user in Hu. destruct (_ =? _); [by apply subseteq_drop in Hu|done].
Qed.

Section named.
Context (files : list (list Z)).
Hypothesis Hargs : Forall arg_ok files.
Hypothesis Hnames : names_ok files.
Hypothesis Hn : (length files <= 198)%nat.
Hypothesis Hpart : ((2 + length files) mod 64 <> 0)%nat.

Lemma short_plain a : a ∈ files -> plain_name (short a) /\ short a <> [] /\ ch "/" ∉ short a.
Proof.
  intros Ha. rewrite Forall_forall in Hargs. destruct (Hargs a Ha) as (Hs & _ & Hl & _).
  pose proof (nk_chars _ Hnames) as Hc. rewrite Forall_forall in Hc. destruct (Hc a Ha) as [H0 Hne].
  assert (H0' : 0 ∉ short a) by (by intros [_ ?]%short_in). rewrite strlen_cstring, cstring_id in Hl by done.
  split_and!; [split; [done|lia]|done|by intros [? _]%short_in].
Qed.

Lemma entries_plain x : x ∈ root_entries files -> plain_name x.1.
Proof.
  unfold root_entries. rewrite !elem_of_cons. intros [->|[->|He]]; [split; [by compute_done|by apply Nat.leb_le]..|].
  apply list_elem_of_lookup_1 in He as [k He]. rewrite list_lookup_imap in He. apply fmap_Some in He as (a & Ha & ->).
  apply short_plain. by eapply list_elem_of_lookup_2.
Qed.

Lemma image_resolve V al k a :
  image_on V al (root_files files) -> files !! k = Some a ->
  resolve the_sb V ROOTINO (path_names (ch "/" :: short a)) = Some (Z.of_nat k + 2).
Proof.
  intros Hg Hk. destruct (short_plain a) as ([H0 Hl] & Hne & Hs); [by eapply list_elem_of_lookup_2|].
  rewrite path_names_one by done. cbn [resolve]. change ROOTINO with 1.
  destruct (ig_files _ _ _ Hg 0%nat T_DIR (pad (root_bytes files)) eq_refl) as (addrs & Hd & _). change (Z.of_nat 0 + 1) with 1 in Hd.
  rewrite Hd. cbn [mbind option_bind]. change (di_type _ =? T_DIR) with true. cbn iota.
  rewrite (image_find V al files Hg Hn Hpart _ (2 + k)%nat (short a) (Z.of_nat k + 2) Hd); [done|..].
  - unfold root_entries. change ((?a :: ?b :: ?l) !! (2 + k)%nat) with (l !! k). by rewrite list_lookup_imap, Hk.
  - apply entries_plain.
  - apply nk_once, Hnames.
Qed.

(** [namei], [ilock] and [readi] on a file of the image. *)
Lemma image_file s al k a :
  image_on (disk s) al (root_files files) -> fs_ok pid 2 0 NBUF [] s (disk s) ∅ -> sb s = the_sb ->
  itable s = replicate NINODE zero_inode -> L_itable ∉ held s -> files !! k = Some a ->
  exists i s2 s3 s4, namei (ch "/" :: short a) s = Ok (Some i) s2 /\ ilock i s2 = Ok tt s3 /\
    readi i D_local 0 (Z.of_nat (length (content a))) s3 = Ok (Z.of_nat (length (content a)), content a) s4.
Proof.
  intros Hg HF Hsb Hit Hh Hk. pose proof (image_tree _ al files Hg Hn Hpart) as Htree.
  destruct (short_plain a) as ([H0 Hl] & Hne & Hs); [by eapply list_elem_of_lookup_2|].
  destruct (namei_ok pid 2 the_sb 0 29 [] (disk s) s (ch "/" :: short a) ROOTINO) as (o & s2 & E2 & S2 & HF2 & Ht2 & Hfound); try done.
  { apply Hg. } { apply (inode_used_image _ al files Hg); change ROOTINO with 1; lia. } { rewrite Hit. apply table_empty. } { rewrite Hit. by vm_compute. }
  { by intros [?|?]%elem_of_cons. }
  rewrite (image_resolve _ al k a Hg Hk) in Hfound. destruct Hfound as (i & ip & -> & Hi & Hin & Hr & _).
  destruct (ig_files _ _ _ Hg (S k) T_FILE (content a)) as (addrs & Hd & Hok & _ & _ & Hf & Hb).
  { unfold root_files. cbn. change (map (fun a => (T_FILE, content a)) files !! k = Some (T_FILE, content a)). by rewrite list_lookup_fmap, Hk. }
  replace (Z.of_nat (S k) + 1) with (Z.of_nat k + 2) in * by lia. pose proof (fs_sb S2) as Hsb2. rs_in Hsb2.
  destruct (ilock_any pid 2 the_sb 0 29 [] s2 (disk s) i ip (file_inode T_FILE (content a) addrs)) as (s3 & E3 & S3 & HF3); try done.
  { rewrite Hsb2, Hsb. apply Hg. } { by rewrite Hsb2. } { by rewrite Hin. }
  destruct (tb_entry _ _ _ _ Ht2 i ip Hi Hr) as (Hdev & _).
  assert (Hf' : file_ok 2 (disk s) (loaded pid (file_inode T_FILE (content a) addrs) ip)).
  { destruct Hf as [_ B1 B2 B3]. by split. }
  pose proof (fl_size _ _ _ Hf) as [_ Hmax]. change (Z.of_nat (length (content a)) <= MAXFILE * BSIZE) in Hmax.
  change (MAXFILE * BSIZE) with 274432 in Hmax.
  destruct (readi_ok pid 2 0 29 [] s3 (disk s) i (loaded pid (file_inode T_FILE (content a) addrs) ip) 0 (Z.of_nat (length (content a))) HF3) as (s4 & E4 & _ & _); try done; try lia.
  { rewrite (fs_itable S3). rs. apply list_lookup_insert_eq. by eapply lookup_lt_Some. }
  exists i, s2, s3, s4. split_and!; [done..|]. rewrite E4. unfold read_len.
  change (i_size (loaded _ _ _)) with (Z.of_nat (length (content a))). rewrite (proj2 (Z.ltb_ge _ _)) by lia.
  rewrite Z.min_l, Nat2Z.id by lia. do 2 f_equal. exact Hb.
Qed.

End named.

(** C17: the files that mkfs was given are the files that the kernel has.  For files with different names that
    fit the image, the image is written; a kernel that boots with it mounts it ([fsinit]); and then each
    file is found under its name in the root directory and read back, byte by byte as mkfs read it from
    the host. *)
Theorem boot_reads_files prog image files :
  h_create image = true -> Forall arg_ok files -> names_ok files -> (length files <= 198)%nat ->
  ((2 + length files) mod 64 <> 0)%nat -> 47 + cost (image_files files) <= FSSIZE ->
  exists m, mkfs_main (prog :: image :: files) mkfs_start = Ok tt m /\
    (forall b d, vol m !! b = Some d -> length d = 1024%nat) /\
    forall s, booting pid s (vol m) -> itable s = replicate NINODE zero_inode -> L_itable ∉ held s ->
    exists s1, fsinit ROOTDEV s = Ok tt s1 /\
    forall k a, files !! k = Some a ->
    exists i s2 s3 s4, namei (ch "/" :: short a) s1 = Ok (Some i) s2 /\ ilock i s2 = Ok tt s3 /\
      readi i D_local 0 (Z.of_nat (length (content a))) s3 = Ok (Z.of_nat (length (content a)), content a) s4.
Proof.
  intros Hc Ha Hnm Hl Hmod Hroom. destruct (image_boots prog image files) as (m & E & Hlen & Hboot); [done..|].
  exists m. split_and!; [done..|]. intros s Hs Hit Hh. destruct (Hboot s Hs) as (s1 & al & E1 & Hsb & Hit1 & Hh1 & Hg & HF).
  exists s1. split; [done|]. intros k a Hk. eapply (image_file files Ha Hnm Hl Hmod s1 al k a); try done; congruence.
Qed.

End boot.

End files.

(** ** A machine that boots with an image of one file *)

#[local] Existing Instance demo_host.
#[local] Existing Instance Small.linker.

Lemma demo_args : Forall arg_ok [str "user/_echo"].
Proof. apply Forall_singleton. split; [by compute_done|]. split; [by eexists|]. split; by vm_compute. Qed.

Lemma demo_names : names_ok [str "user/_echo"].
Proof. split; [apply Forall_singleton; split; [by compute_done|done]|]. by compute_done. Qed.

Lemma machine_booting D :
  (forall b d, D !! b = Some d -> length d = 1024%nat) -> booting 0 (log_machine <| disk := D |>) D.
Proof. intros HD. destruct (log_machine_booted D HD) as [H1 H2 H3 H4 H5 H6 H7]. split; try done. apply not_elem_of_nil. Qed.

Lemma boot_reads_files_witness :
  exists m s1 i s2 s3 s4, mkfs_main [str "mkfs"; str "fs.img"; str "user/_echo"] mkfs_start = Ok tt m /\
    fsinit (F := 0%nat) ROOTDEV (log_machine <| disk := vol m |>) = Ok tt s1 /\
    namei (F := 0%nat) (str "/echo") s1 = Ok (Some i) s2 /\ ilock (F := 0%nat) i s2 = Ok tt s3 /\
    readi (F := 0%nat) i D_local 0 1026 s3 = Ok (1026, replicate 1024 1 ++ [2; 3]) s4.
Proof.
  destruct (boot_reads_files (HO := demo_host) (F := 0%nat) 0 eq_refl (fun _ => eq_refl) (str "mkfs") (str "fs.img") [str "user/_echo"])
    as (m & E & Hlen & Hboot).
  - reflexivity.
  - apply demo_args.
  - apply demo_names.
  - cbn. lia.
  - by vm_compute.
  - by vm_compute.
  - destruct (Hboot (log_machine <| disk := vol m |>)) as (s1 & E1 & Hread).
    + by apply machine_booting.
    + reflexivity.
    + apply not_elem_of_nil.
    + destruct (Hread 0%nat (str "user/_echo") eq_refl) as (i & s2 & s3 & s4 & E2 & E3 & E4).
      exists m, s1, i, s2, s3, s4. split_and!; [exact E|exact E1|exact E2|exact E3|exact E4].
Defined.

Lemma namei_resolves_witness :
  exists m s1 i s2 ip, mkfs_main [str "mkfs"; str "fs.img"; str "user/_echo"] mkfs_start = Ok tt m /\
    fsinit (F := 0%nat) ROOTDEV (log_machine <| disk := vol m |>) = Ok tt s1 /\
    namei (F := 0%nat) (str "/echo") s1 = Ok (Some i) s2 /\ itable s2 !! i = Some ip /\ i_inum ip = 2 /\
    irefs ROOTDEV 2 (itable s2) = 1.
Proof.
  destruct (image_boots (HO := demo_host) (F := 0%nat) 0 eq_refl (fun _ => eq_refl) (str "mkfs") (str "fs.img") [str "user/_echo"])
    as (m & E & Hlen & Hboot).
  - reflexivity.
  - apply demo_args.
  - cbn. lia.
  - by vm_compute.
  - by vm_compute.
  - destruct (Hboot (log_machine <| disk := vol m |>) (machine_booting _ Hlen)) as (s1 & al & E1 & Hsb & Hit & Hh & Hg & HF).
    destruct (namei_resolves (F := 0%nat) 0 2 the_sb 0 29 [] (disk s1) s1 (str "/echo") ROOTINO) as (o & s2 & E2 & _ & _ & _ & Hfound).
    + exact HF.
    + exact Hsb.
    + apply Hg.
    + apply (image_tree _ al _ Hg); [cbn; lia|by vm_compute].
    + apply (inode_used_image _ al [str "user/_echo"] Hg); [change ROOTINO with 1; cbn; lia..].
    + rewrite Hh. apply not_elem_of_nil.
    + rewrite Hit. apply table_empty.
    + rewrite Hit. by vm_compute.
    + by compute_done.
    + reflexivity.
    + change (str "/echo") with (ch "/" :: short (str "user/_echo")) in Hfound.
      rewrite (image_resolve _ demo_args demo_names ltac:(cbn; lia) ltac:(by vm_compute) _ al 0%nat _ Hg eq_refl) in Hfound.
      destruct Hfound as (i & ip & -> & Hi & Hn & _ & Hrefs). exists m, s1, i, s2, ip.
      split_and!; [exact E|exact E1|exact E2|exact Hi|exact Hn|]. rewrite Hrefs, Hit. by vm_compute.
Defined.
